(* ===== verification/_CoqProject ===== *)
-Q . S2P
Prelude.v
JsString.v
JsCollections.v
StatusCodeRules.v
Json.v
JsonNumber.v
JsonText.v
JsonLocal.v
JsValue.v
JsonCanon.v
JsDouble.v
JsDoubleOrder.v
ModelMapping.v
StatusCodeRisk.v
AdvancedCustom.v
AdvancedCustomProperties.v
AdvancedCustomEditor.v
AdvancedCustomEditorProperties.v
ParamOverride.v
ParamOverrideFacts.v
ParamOverrideProperties.v
ParamOverrideDrafts.v
ParamOverrideEditor.v
ParamOverrideInvariant.v
ParamOverrideEditorProperties.v
ParamOverrideRuns.v
ChannelForm.v
ChannelFormProperties.v
AdminPermissions.v
ChannelSubmit.v
NavModules.v
Sidebar.v
SidebarProperties.v
PriceSync.v
PriceSyncProperties.v
BillingExpr.v
BillingExprFacts.v
BillingExprProperties.v
Regex.v
TierExpr.v
TierExprFacts.v
TierExprProperties.v
TierBreakdown.v
ModelPricing.v
ModelPricingPanel.v
ModelPricingPage.v
ModelPricingFacts.v
ModelPricingProperties.v
GroupRatio.v
GroupRatioPage.v
GroupRatioFacts.v
GroupRatioKinds.v
GroupRatioProperties.v
TierTexts.v
TieredEditor.v
TieredEditorMachine.v
TieredEditorFacts.v
TieredEditorProperties.v
PricePage.v
PricePageProperties.v
SiteNavigation.v
SiteNavigationProperties.v
ThinkTags.v
Effects.v
PlaygroundMessage.v
PlaygroundConfig.v
Storage.v
StorageFacts.v
PlaygroundState.v
Flow.v
FlowExample.v
FlowFacts.v
FlowElements.v
FlowRanks.v
FlowProperties.v
FlowSelection.v
ChatHandler.v
ChatStreaming.v
ChatInvariants.v
PlaygroundSystem.v
