(* ===== verification/Prelude.v ===== *)
(** * Verification of the web client of the API gateway

    The repository is a gateway for language-model APIs: a Go server and a
    TypeScript client, [src/web/default/src].  This library models parts of the
    client's own logic, named below by their paths under that directory, as
    executable Rocq definitions with the names of the source, and proves what
    makes them correct.

    ** Parts, and how they interact

    - _The playground_ ([features/playground]) is a chat page.  The user's
      actions ([hooks/use-playground-conversation.ts]) change the list of
      messages and send a request; [hooks/use-chat-handler.ts] and
      [hooks/use-stream-request.ts] turn the events of a server-sent-event
      source, a flush timer and pending HTTP requests into updates of the last
      message; the functions on messages are in [lib/message], the request in
      [lib/streaming/payload-builder.ts], the selected model and group in
      [lib/options] and [hooks/use-playground-options.ts].
      [hooks/use-playground-state.ts] owns messages and configuration and saves
      them, after a delay, through [lib/storage] into [localStorage].
    - _The flow diagram of the dashboard_ ([features/dashboard/lib/flow.ts])
      turns usage rows into the nodes and links of a Sankey diagram, a summary
      and filter options.
    - _Channels_ ([features/channels]): the form of an upstream channel, with
      the two JSON texts it keeps its settings in ([lib/channel-form.ts]), the
      model list and the model mapping ([lib/model-mapping-validation.ts]), the
      guard of the status code mapping ([lib/status-code-risk-guard.ts]), the
      routes of advanced custom channels ([lib/advanced-custom.ts]) with their
      editor, the rules that override parameters of requests with theirs
      ([components/dialogs/param-override-editor-dialog.tsx]), and the
      submission, which runs the checks
      ([components/drawers/channel-mutate-drawer.tsx],
      [hooks/use-channel-mutate-form.ts]).
    - _Billing expressions_ ([features/pricing/lib/billing-expr.ts] and
      [tier-expr.ts]): the tiers of a price and the rules on headers, parameters
      and the time of day that multiply it, built into an expression by the
      editors and parsed from it by them and by the price breakdown.
    - _Model prices_ ([features/system-settings/models]): the table of the models
      with a price ([model-ratio-visual-editor.tsx],
      [model-pricing-snapshots.ts]), the panel for the prices of one of them
      ([model-pricing-sheet.tsx], [model-pricing-core.ts]) and the form that is
      saved ([model-ratio-form.tsx], [ratio-settings-card.tsx]).  The panel
      commits to the table, the table writes the ten JSON texts of the form, the
      form sends those that changed.  The tab for tiered prices
      ([tiered-pricing-editor.tsx]) writes the expression and the rules of the
      panel through effects: cards for tiers and rules, a text editor, presets.
    - _Group ratios_, in the same directory ([group-ratio-form.tsx],
      [group-ratio-visual-editor.tsx], [group-special-usable-editor.tsx] and
      the second form of [ratio-settings-card.tsx]): the groups with their
      ratios, the ratios between groups, the auto groups and the rules on usable
      groups, kept as JSON texts.
    - _The price sync_ ([features/system-settings/models/upstream-ratio-sync.tsx]
      with its helpers, table and dialogs): the page on which an administrator
      takes over the prices of upstream channels.
    - _The price page_ ([features/pricing]): the public list of models with its
      filters and orders ([hooks/use-filters.ts], [lib/filters.ts]), the prices
      of a model at the ratio of a group ([lib/price.ts]) or by its tiers
      ([lib/dynamic-price.ts]), and the tables of group prices
      ([components/model-details.tsx]).  It reads what the two editors above
      have stored.
    - _Permissions and navigation_: [lib/admin-permissions.ts],
      [lib/nav-modules.ts] with the guards of the routes, the links of the top
      bar and the sidebar with its two layers of configuration
      ([hooks/use-sidebar-config.ts], [use-sidebar-data.ts],
      [use-sidebar-view.ts]); the forms that write the two settings which these
      obey ([features/system-settings/maintenance/config.ts],
      [header-navigation-section.tsx], [sidebar-modules-section.tsx]).
    - _HTTP status code rules_ ([lib/http-status-code-rules.ts]) parse and
      normalise the rule lists that the channel settings hold.

    ** Files

    - [Prelude]: notation ([a ?? b], [a || b] on comparators), tactics, the hint
      database, generic lemmas.
    - [JsString]: strings as lists of UTF-16 code units, with the members of
      [String.prototype] that are used, [parseInt] and decimal printing.
    - [JsCollections]: [Map] and [Set] in insertion order, [Array.sort] as a
      stable sort, the class [Comparator] of the comparators it accepts.
    - [StatusCodeRules]: [parseHttpStatusCodeRules] and [mergeRanges].
    - [Json], [JsonText]: [JSON.parse] and [JSON.stringify] and their round trip;
      [JsonNumber]: numbers in texts; [JsonLocal]: the parser reads a prefix and
      ignores surrounding space; [JsValue]: [String], [Number], property reads,
      spreads on parsed values; [JsonCanon]: a value and what is read from its
      text; [JsDouble]: doubles, their arithmetic and their shortest decimals;
      [JsDoubleOrder]: the sign of a rounded difference is the order.
    - [ModelMapping], [StatusCodeRisk]: the two validators of channel texts.
    - [AdvancedCustom], [AdvancedCustomProperties]: routes, normal form and
      validator; [AdvancedCustomEditor], [AdvancedCustomEditorProperties]: the
      dialog as a state machine.
    - [ParamOverride]: the rules, their loading, validator and text;
      [ParamOverrideFacts], [ParamOverrideProperties], [ParamOverrideDrafts]:
      what these functions guarantee; [ParamOverrideEditor]: the dialog as a
      state machine; [ParamOverrideInvariant],
      [ParamOverrideEditorProperties]: every event keeps its invariant;
      [ParamOverrideRuns]: the theorems on its runs.
    - [ChannelForm], [ChannelFormProperties]: schema, loading, settings texts and
      payloads; [ChannelSubmit]: the submit handler and the mutation.
    - [AdminPermissions], [NavModules], [Sidebar], [SidebarProperties];
      [SiteNavigation], [SiteNavigationProperties]: the forms of the settings
      and how the pages read what they save.
    - [PriceSync]: the handlers of the page and the events that call them;
      [PriceSyncProperties]: reachable selections and what a sync writes.
    - [BillingExpr]: the request rules of [billing-expr.ts], builder and parser;
      [BillingExprFacts]: the parser on built text; [BillingExprProperties].
    - [Regex]: regular expressions and their backtracking matcher; [TierExpr]:
      the tiers, with the patterns of the sources; [TierExprFacts]: the patterns
      on generated text; [TierExprProperties] and [TierBreakdown]: the two
      parsers of tiers.
    - [ModelPricing]: number format, snapshots, rows and what is written;
      [ModelPricingPanel]: the panel; [ModelPricingPage]: the page with its
      server as a state machine; [ModelPricingFacts], [ModelPricingProperties].
    - [GroupRatio]: the texts of the group settings and what the editors make of
      them; [GroupRatioPage]: the two editors, their dialogs, the form and the
      server as a state machine; [GroupRatioFacts], [GroupRatioKinds] on the
      kinds of the texts, [GroupRatioProperties].
    - [TierTexts]: splitting a generated expression from its rules;
      [TieredEditor]: the controls of the editor of tiered prices;
      [TieredEditorMachine]: its state, its effects run commit by commit with
      the values of their render, its handlers, and the tab of the panel;
      [TieredEditorFacts], [TieredEditorProperties].
    - [PricePage]: data, filters, prices and tables of the public page;
      [PricePageProperties]: what it lists and shows.
    - [ThinkTags]: [parseThinkTags] of [message-reasoning-utils.ts].
    - [Effects]: the state monad for [Date.now()] and [nanoid()].
    - [PlaygroundMessage] (Module Playground): the types of [types.ts] and the
      functions of [lib/message].
    - [PlaygroundConfig]: configuration, payload, options, input.
    - [Storage]: [storage.ts] over a text store, against the class [Schema]
      (what a zod schema accepts and how its values are written) with the laws
      [SchemaLaws], and the instances for the schemas of [storage-schema.ts];
      [StorageFacts]: what loading and saving guarantee.
    - [PlaygroundState]: [use-playground-state.ts] as functions on one record.
    - [ChatHandler] (Module Chat): the refs and states of the two chat hooks as
      one record, each callback and listener as a function on it;
      [ChatStreaming]: the handler refines an abstract machine on the shown and
      the waiting text; [ChatInvariants]: events, reachable states and their
      invariant.
    - [PlaygroundSystem]: chat handler and storage together.
    - [Flow]: [flow.ts] up to [buildDashboardFlowData] and the drawing order of
      the links; [FlowExample]: rows to run it on; [FlowFacts], [FlowElements]
      and [FlowRanks]: sums over paths, elements of the graph, totals and
      filters; [FlowProperties] and [FlowSelection]: the theorems.

    ** What the theorems show

    - Chat: in every reachable state one source at most is open, only the last
      message can be pending, and a page that does not show that it generates
      has nothing pending; the stop button is final; a response that changes
      the messages answers the last request; the network never changes an
      earlier message; the payload is the valid messages.  With an edit during
      a generation two of these fail, which two theorems show.
    - Text: streams of snapshots and of deltas give the expected text wherever
      the flush timer cuts them, shown text is never taken back, and where the
      result depends on the timer; [parseThinkTags] terminates and decomposes
      its input.
    - Storage: what is saved in any state of a run is settled when it is
      loaded and within the limits, unless the browser refuses the text or its
      length is over the limit of the load, which then discards it; saving and
      loading a settled conversation gives it back; when the page is left the
      last hundred messages that it shows are in the store, if the browser
      accepts them; trimming and collapsing keep what they should.
    - Status codes: merging keeps the covered codes and gives their only normal
      form; parsing accepts exactly the valid lists and is stable on its own
      output.
    - Channels: a submission has well formed codes, no unconfirmed
      redirection, a mapping of texts and the models of the form with exactly
      those added that the user asked for; without the permission no sensitive
      field is sent; the settings text follows a table of the keys of each
      channel type and is stable under loading and saving; a form that passes
      the schema can be sent; the guard reports the new redirections; the
      validator of routes accepts exactly the well formed lists and names the
      first error; the editor keeps rows and keys together and saves only
      valid texts, and one of its buttons discards edits.
    - Parameter overrides: over every run there is a rule, rules and
      conditions have distinct ids and hold what the editor offers; what is
      saved is opened again as the same rules and saved as the same JSON text,
      where no value is typed as a quoted string; the validator names the
      first rule that lacks something; a dragged rule lands where it is
      dropped and nothing else moves.  Edits of prune rules are lost, and a
      text with a null rule cannot be opened again.
    - Permissions and navigation: a normalized matrix fits the catalog; a path
      is visible exactly when neither of the two stored texts hides it, a
      preference only narrows, and guards, sidebar and links agree, with the
      exceptions that are proved.  The switches of the two forms take effect:
      the pages read the saved text as the switches, whatever was stored
      before.
    - Price sync: over every run a selection never mixes a fixed price with
      ratios and holds only values that are offered; the sync writes exactly the
      selection; without a confirmation it removes an entry only where it cleans
      up; the header of a column selects the column; what was synced leaves the
      table.  A custom endpoint cannot be chosen.
    - Model prices: what the panel saves is what it shows, in floating point;
      saving, copying and deleting change the named models and no other, and
      the table shows in each lane the number that was entered for it; a model
      that is opened and saved unchanged keeps its prices; a row is marked
      exactly when it differs; as long as the server accepts, what counts as
      saved is what it holds.  A refused update counts as saved, and a fixed
      price outlives the change to token prices.
    - Group ratios: over every run rows and rules have distinct ids and the
      table shows the texts that it edits; from texts of the kinds that the
      lists show every control of the visual view works and writes such texts
      again; an edit is never taken back; groups and rules are opened again as
      they were saved, and saving and fetching leave the table alone when
      nothing is being undone.  The editor of rules ignores new settings, an
      undone change is not sent, an appended group whose name has the mark of
      a removal is opened as a removal, and null ratios, which the view of the
      texts accepts, cannot be shown.
    - Tiered prices: the effects of the editor come to rest within five commits
      from every state, with the texts of what is shown; tiers and rules that
      can be written and read are kept by opening and saving, by edits and by
      changing between the cards and the text; every reachable configuration is
      complete and no control gives a tier a third condition.  Opening loses an
      expression or rules that the cards cannot show, unfinished rules and
      comparisons of parameters are lost, and a preset with other rules that is
      applied first after opening keeps the old prices.
    - Price page: it lists exactly the models that the search and the filters
      ask for, in the chosen order; the cards and the tables of group prices
      show the tiers that the editor wrote, with their labels, conditions and
      prices at the ratio of the group; the list uses the least ratio of the
      groups of a model; the rates are never zero.  A group with the ratio 0 is
      shown at full price, and a tag named all cannot be chosen.
    - Billing: built rules are read back and splitting undoes combining, except
      for the rules on parameters that the editor writes as conjunctions, which
      are lost.  The editor of tiers reads back what it writes, and the price
      breakdown reads the same tiers from it; a single tier whose coefficient is
      no number is accepted and loses its price.
    - Flow: the diagram is layered and balanced, its columns add up to the
      summary, the shares of the first step to one; the limit keeps the largest
      nodes and bounds the columns; highlighting is exact; masking hides the
      labels; the figure of a filter option is what selecting it shows.

    ** Numbers, fuel and parameters

    Counters, sizes and times are unbounded integers and shares are rationals
    where JavaScript has doubles; they stay far below 2^53.  A number that is
    read from a text or a JSON value is the decimal that the text denotes, which
    the sources copy, print, compare and test for zero, and [None] where it is
    NaN.  Where prices are computed ([JsDouble]) numbers are IEEE 754 doubles;
    the search for the shortest decimal tries the 17 digits that always suffice.
    A repetition of a regular expression has the length of the remaining text as
    fuel, since each round consumes a character, and a loop over matches one more
    than the length of the text.  The editor of tiered prices runs five commits
    after an event, which is proved to be enough.  The parser of JSON
    recurses with the length of the text as fuel, enough because every call
    consumes a character; the loop of [parseThinkTags] has its length as fuel
    and is proved not to run out, as has the loop of [unwrapOuterParens].  The
    other loops are structural.

    Translations, [localeCompare], [Intl.NumberFormat], the colour schemes of
    VChart, the readings of the clock, the fresh ids, the failure of
    [localStorage.setItem] and of opening a source are parameters; so are the
    parser of URLs, the answers of the two dialogs of the submission, the answer
    of the server to the request for the status and [toLowerCase] in searches,
    the message of a thrown [TypeError], and the answers to each update of an
    option.  Translations are not empty where a message says that there is an
    error.  Whether React runs the updater of a state at once is part of the
    event where the source depends on it.
    What the server sends to the price sync has distinct keys, named upstreams
    and numbers or texts as values.  A dialog of the group settings is modal: the
    page behind it does not change while it is open.  Of sse.js
    it is used that a closed source emits nothing and that [close] itself emits
    nothing, of the browser that a cleared timer does not fire, of promises
    that each settles once, of React that updaters run in the order of the
    calls on the current state and that the effects of a commit run in their
    order with the values of its render, their updates being applied together,
    of zod its documented treatment of unknown,
    optional and nullable members.  Stored times are integers.  The choices of an
    event of a stream are an array, and the content and reasoning of a delta are
    read where they are texts.  Ids that join
    two names by a NUL character are unambiguous for names without it, which
    the theorems on links assume.  Prices on the public page are finite doubles in
    their normal form.

    ** Not modelled

    JSX and styles, HTTP wrappers, translations and generated routes; the
    static part of the chart specifications; the preview of a price expression,
    which runs it as JavaScript in floating point; properties that a parsed
    object inherits from its prototype; the narrow layout of the page for
    prices; the second run of effects that React's development mode adds; the
    format of an amount in a currency on the public pages and their statistics;
    the other features of the client (the other
    editors of settings, logs, users, keys, authentication), which are tables
    and forms over the HTTP API; the classic client, the desktop shell and the
    Go server. *)

From stdpp Require Export prelude strings gmap sorting.

#[global] Open Scope Z_scope.

(** ** Notation: JavaScript truthiness helpers *)
Declare Scope js_scope.
Delimit Scope js_scope with js.

(** [a ?? b] on an optional value. *)
Notation "a ?? b" := (match a with Some x => x | None => b end)
  (at level 62, right associativity) : js_scope.
(** [a || b] on comparator results: the first nonzero one. *)
Notation "a |0| b" := (if Z.eqb a%Z 0%Z then b%Z else a%Z)
  (at level 62, right associativity) : js_scope.

(** Statements one after the other. *)
Notation "s |> f" := (f s) (at level 50, left associativity, only parsing) : js_scope.
#[global] Open Scope js_scope.

(** The lemmas on collections that [auto] uses. *)
Create HintDb js_db.

(** ** Tactics *)

(** Split every boolean conjunction, disjunction and comparison found in the
    hypotheses into its propositional form. *)
Ltac bool_hyps :=
  repeat match goal with
  | H : andb _ _ = true |- _ => apply andb_true_iff in H as [? ?]
  | H : orb _ _ = true |- _ => apply orb_true_iff in H
  | H : orb _ _ = false |- _ => apply orb_false_iff in H as [? ?]
  | H : andb _ _ = false |- _ => apply andb_false_iff in H
  | H : negb _ = true |- _ => apply negb_true_iff in H
  | H : negb _ = false |- _ => apply negb_false_iff in H
  | H : Z.leb _ _ = true |- _ => apply Z.leb_le in H
  | H : Z.leb _ _ = false |- _ => apply Z.leb_gt in H
  | H : Z.ltb _ _ = true |- _ => apply Z.ltb_lt in H
  | H : Z.ltb _ _ = false |- _ => apply Z.ltb_ge in H
  | H : Z.eqb _ _ = true |- _ => apply Z.eqb_eq in H
  | H : Z.eqb _ _ = false |- _ => apply Z.eqb_neq in H
  | H : bool_decide _ = true |- _ => apply bool_decide_eq_true_1 in H
  | H : bool_decide _ = false |- _ => apply bool_decide_eq_false_1 in H
  end.

(** Case split on the tests of the goal, keeping the propositional form. *)
Ltac case_tests :=
  repeat (match goal with
  | |- context [if ?b then _ else _] =>
      lazymatch type of b with bool => destruct b eqn:? end
  end; bool_hyps).

(** ** Generic facts on lists and options *)

Lemma fold_left_cons_inv {A B} (P : B -> Prop) (f : B -> A -> B) l b :
  P b -> (forall b a, a ∈ l -> P b -> P (f b a)) -> P (fold_left f l b).
Proof.
  revert b. induction l as [|a l IH]; intros b Hb Hf; simpl; [done|].
  apply IH; [apply Hf; [left|done]|]. intros b' a' Hin. apply Hf. by right.
Qed.

Lemma last_snoc_inv {A} (l : list A) x : last l = Some x -> exists l', l = l' ++ [x].
Proof. intros H. by apply last_Some in H. Qed.

Lemma filter_all {A} (P : A -> Prop) `{!forall x, Decision (P x)} l :
  Forall P l -> filter P l = l.
Proof.
  induction 1 as [|x l Hx _ IH]; [done|]. by rewrite filter_cons_True, IH.
Qed.

Lemma sum_list_with_nonneg {A} (f : A -> Z) l :
  (forall x, x ∈ l -> 0 <= f x) -> 0 <= foldr (fun x acc => f x + acc) 0 l.
Proof.
  induction l as [|x l IH]; simpl; intros H; [lia|].
  specialize (IH (fun y Hy => H y (list_elem_of_further _ _ _ Hy))).
  specialize (H x ltac:(left)). lia.
Qed.

Lemma filter_filter {A} (P Q : A -> bool) l :
  List.filter P (List.filter Q l) = List.filter (fun x => Q x && P x) l.
Proof.
  induction l as [|x l IH]; [done|]. cbn [List.filter].
  destruct (Q x); cbn [List.filter andb]; [destruct (P x)|]; by rewrite IH.
Qed.

Lemma list_nil_elem {A} (l : list A) : (forall x, x ∉ l) -> l = [].
Proof. destruct l as [|x l]; [done|]. intros H. by destruct (H x ltac:(left)). Qed.

Lemma existsb_mono {A} (f g : A -> bool) l :
  (forall x, f x = true -> g x = true) -> existsb f l = true -> existsb g l = true.
Proof. intros Hfg (x & Hin & Hx)%existsb_exists. apply existsb_exists. eauto. Qed.

Lemma filter_imp_sublist {A} (f g : A -> bool) l :
  (forall x, f x = true -> g x = true) -> sublist (List.filter f l) (List.filter g l).
Proof.
  intros Hfg. induction l as [|x l IH]; [constructor|]. cbn [List.filter].
  destruct (f x) eqn:E; [by rewrite (Hfg x E); constructor|]. by destruct (g x); [constructor|].
Qed.

Lemma filter_sublist {A} (f : A -> bool) l : sublist (List.filter f l) l.
Proof. induction l as [|x l IH]; [done|]. cbn [List.filter]. case_match; by constructor. Qed.

Lemma filter_Forall {A} (P : A -> Prop) (f : A -> bool) l : Forall P l -> Forall P (List.filter f l).
Proof. rewrite !Forall_forall. intros H x Hx%list_elem_of_In. apply List.filter_In in Hx as [Hx _]. by apply H, list_elem_of_In. Qed.

(** Distinct images stay distinct. *)
Lemma filter_map_nodup {A B} (g : A -> B) (f : A -> bool) l : NoDup (map g l) -> NoDup (map g (List.filter f l)).
Proof.
  intros Hd. eapply sublist_NoDup; [exact Hd|]. clear Hd. induction l as [|x l IH]; [done|].
  cbn [List.filter map]. case_match; by constructor.
Qed.

Lemma filter_same_length {A} (f : A -> bool) l : length (List.filter f l) = length l -> List.filter f l = l.
Proof.
  induction l as [|x l IH]; [done|]. cbn [List.filter]. destruct (f x); cbn [length].
  - intros [= H]. by rewrite IH.
  - intros H. pose proof (List.filter_length_le f l). lia.
Qed.
