(* ===== verification/JsString.v ===== *)
(** * JavaScript strings

    A string is the list of its UTF-16 code units.  This file defines the
    members of [String.prototype] that the modelled sources call (trim, slice,
    indexOf, includes, startsWith, endsWith, split, join, replace of a
    character class) and the decimal conversions [Number.parseInt(s, 10)] on
    digit strings and [`${n}`] on integers, with the facts the components use
    about them. *)

From S2P Require Import Prelude.

Abbreviation jsstr := (list Z).

(** An ASCII literal of the source. *)
Definition js (s : string) : jsstr :=
  map (fun a => Z.of_N (Ascii.N_of_ascii a)) (String.list_ascii_of_string s).

#[global] Arguments js : simpl never.

(** ** Character classes *)

(** WhiteSpace and LineTerminator of ECMA-262: what [trim] strips and the
    regular expression class [\s] matches. *)
Definition is_space (c : Z) : bool :=
  bool_decide (c ∈ [9; 10; 11; 12; 13; 32; 160; 5760; 8232; 8233; 8239; 8287; 12288; 65279])
  || ((8192 <=? c) && (c <=? 8202)).

(** The class [\d]. *)
Definition is_digit (c : Z) : bool := (48 <=? c) && (c <=? 57).

(** ** Trimming *)

Fixpoint trimStart (s : jsstr) : jsstr :=
  match s with
  | [] => []
  | c :: s' => if is_space c then trimStart s' else s
  end.

Definition trimEnd (s : jsstr) : jsstr := rev (trimStart (rev s)).

Definition trim (s : jsstr) : jsstr := trimEnd (trimStart s).

(** ** Searching *)

Fixpoint startsWith (s p : jsstr) : bool :=
  match p, s with
  | [], _ => true
  | _ :: _, [] => false
  | a :: p', b :: s' => (a =? b) && startsWith s' p'
  end.

Definition endsWith (s p : jsstr) : bool := startsWith (rev s) (rev p).

(** First position of [needle] in [s]; [None] stands for the source's [-1]. *)
Fixpoint find_sub (needle s : jsstr) : option nat :=
  if startsWith s needle then Some 0%nat
  else match s with
       | [] => None
       | _ :: s' => S <$> find_sub needle s'
       end.

(** [s.indexOf(needle, from)] *)
Definition indexOf (s needle : jsstr) (from : nat) : option nat :=
  (fun i => (from + i)%nat) <$> find_sub needle (drop from s).

(** [s.includes(needle)] *)
Definition includes (s needle : jsstr) : bool :=
  match find_sub needle s with Some _ => true | None => false end.

(** ** Slicing and joining *)

(** [s.slice(i, j)] for non-negative positions. *)
Definition slice {A} (s : list A) (i j : nat) : list A := take (j - i) (drop i s).

(** [s.slice(i)] for a non-negative position. *)
Definition slice_from {A} (s : list A) (i : nat) : list A := drop i s.

(** [parts.join(sep)] *)
Fixpoint join (sep : jsstr) (parts : list jsstr) : jsstr :=
  match parts with
  | [] => []
  | [p] => p
  | p :: ps => p ++ sep ++ join sep ps
  end.

(** [s.split(c)] for a one-character separator. *)
Fixpoint split (c : Z) (s : jsstr) : list jsstr :=
  match s with
  | [] => [[]]
  | x :: s' =>
      if x =? c then [] :: split c s'
      else match split c s' with
           | [] => [[x]]
           | p :: ps => (x :: p) :: ps
           end
  end.

(** [s.replace(/class/g, r)] for a single-character class. *)
Definition replace_class (class : Z -> bool) (r : jsstr) (s : jsstr) : jsstr :=
  concat (map (fun c => if class c then r else [c]) s).

(** Truthiness of a string: [Boolean(s)]. *)
Definition truthy (s : jsstr) : bool := match s with [] => false | _ => true end.

(** [Array.prototype.filter(Boolean)] on strings. *)
Definition filter_truthy (l : list jsstr) : list jsstr :=
  List.filter truthy l.

(** ** Decimal numbers *)

(** [/^\d+$/.test(s)] *)
Definition all_digits (s : jsstr) : bool := truthy s && forallb is_digit s.

(** [Number.parseInt(s, 10)] on a string of digits. *)
Definition parseDec (s : jsstr) : Z :=
  fold_left (fun acc c => 10 * acc + (c - 48)) s 0.

Fixpoint dec_digits (fuel : nat) (n : Z) (acc : jsstr) : jsstr :=
  match fuel with
  | O => acc
  | S fuel' =>
      let acc' := (48 + n mod 10) :: acc in
      if n / 10 =? 0 then acc' else dec_digits fuel' (n / 10) acc'
  end.

(** [`${n}`] for an integer [n].  One step of [dec_digits] divides by ten, so
    [log2 n + 1] steps are enough. *)
Definition show_nonneg (n : Z) : jsstr := dec_digits (S (Z.to_nat (Z.log2 n))) n [].

Definition showZ (n : Z) : jsstr :=
  if n <? 0 then 45 :: show_nonneg (- n) else show_nonneg n.

(** ** Facts: prefixes and search *)

Create HintDb jsstr.
Create Rewrite HintDb jsstr.

Lemma startsWith_spec s p : startsWith s p = true <-> p `prefix_of` s.
Proof.
  revert s. induction p as [|a p IH]; intros [|b s]; simpl.
  - split; [intros _; apply prefix_nil | done].
  - split; [intros _; apply prefix_nil | done].
  - split; [done | intros H; by apply prefix_nil_inv in H].
  - rewrite andb_true_iff, IH, Z.eqb_eq. split.
    + intros [-> H]. by apply prefix_cons.
    + intros [k Hk]. simplify_eq/=. split; [done | by exists k].
Qed.

Lemma startsWith_app p t : startsWith (p ++ t) p = true.
Proof. apply startsWith_spec. by exists t. Qed.

Lemma startsWith_refl s : startsWith s s = true.
Proof. rewrite <- (app_nil_r s) at 1. apply startsWith_app. Qed.

Lemma startsWith_nil_r s : startsWith s [] = true.
Proof. by destruct s. Qed.

Lemma startsWith_drop s p : startsWith s p = true -> s = p ++ drop (length p) s.
Proof. intros [t ->]%startsWith_spec. by rewrite drop_app_length. Qed.

Lemma find_sub_Some needle s i :
  find_sub needle s = Some i ->
  s = take i s ++ needle ++ drop (i + length needle) s /\ (i + length needle <= length s)%nat.
Proof.
  revert i. induction s as [|c s IH]; intros i; cbn [find_sub].
  - destruct (startsWith [] needle) eqn:E; [|done]. intros [= <-].
    destruct needle; [split; [done|simpl; lia]|by simpl in E].
  - destruct (startsWith (c :: s) needle) eqn:E.
    + intros [= <-]. apply startsWith_spec in E as [t Ht]. rewrite Ht. simpl.
      rewrite drop_app_length, length_app. split; [done|lia].
    + destruct (find_sub needle s) as [j|] eqn:Ej; simpl; [|done].
      intros [= <-]. destruct (IH j eq_refl) as [H1 H2]. simpl. split; [by f_equal|lia].
Qed.

Lemma find_sub_first needle s i :
  find_sub needle s = Some i ->
  forall j, (j < i)%nat -> startsWith (drop j s) needle = false.
Proof.
  revert i. induction s as [|c s IH]; intros i; cbn [find_sub].
  - destruct (startsWith [] needle) eqn:E; [|done]. intros [= <-] j. lia.
  - destruct (startsWith (c :: s) needle) eqn:E; [intros [= <-] j; lia|].
    destruct (find_sub needle s) as [k|] eqn:Ek; simpl; [|done].
    intros [= <-] [|j] Hj; [done|]. simpl. eapply IH; [done|lia].
Qed.

Lemma find_sub_None needle s :
  find_sub needle s = None <-> forall j, startsWith (drop j s) needle = false.
Proof.
  split.
  - induction s as [|c s IH]; cbn [find_sub]; intros H j.
    + destruct (startsWith [] needle) eqn:E; [done|]. by rewrite drop_nil.
    + destruct (startsWith (c :: s) needle) eqn:E; [done|].
      destruct (find_sub needle s) eqn:Es; [done|]. destruct j; [done|]. by apply IH.
  - intros H. induction s as [|c s IH]; cbn [find_sub].
    + specialize (H 0%nat). rewrite drop_nil in H. by rewrite H.
    + pose proof (H 0%nat) as H0. rewrite drop_0 in H0. rewrite H0.
      rewrite IH; [done|]. intros j. apply (H (S j)).
Qed.

Lemma includes_spec s needle :
  includes s needle = true <-> exists l r, s = l ++ needle ++ r.
Proof.
  unfold includes. split.
  - destruct (find_sub needle s) as [i|] eqn:E; [|done]. intros _.
    apply find_sub_Some in E as [E _]. eauto.
  - intros (l & r & ->). destruct (find_sub needle _) eqn:E; [done|].
    rewrite find_sub_None in E. specialize (E (length l)).
    rewrite drop_app_length in E. by rewrite startsWith_app in E.
Qed.

Lemma includes_false s needle :
  includes s needle = false <-> find_sub needle s = None.
Proof. unfold includes. by destruct (find_sub needle s). Qed.

Lemma indexOf_Some s needle from i :
  indexOf s needle from = Some i ->
  (from <= i)%nat /\ (i + length needle <= length s \/ needle = [])%nat /\
  startsWith (drop i s) needle = true /\
  forall j, (from <= j < i)%nat -> startsWith (drop j s) needle = false.
Proof.
  unfold indexOf. destruct (find_sub needle (drop from s)) as [k|] eqn:E; simpl; [|done].
  intros [= <-]. pose proof (find_sub_first _ _ _ E) as F.
  destruct (find_sub_Some _ _ _ E) as [H1 H2]. rewrite length_drop in H2.
  split_and!; [lia| |..].
  - destruct (decide (length needle = 0)%nat) as [?%nil_length_inv|]; [by right|left; lia].
  - apply (f_equal (drop k)) in H1. rewrite drop_drop in H1.
    rewrite H1. rewrite drop_app_ge; rewrite length_take, length_drop; [|lia].
    replace (k - k `min` (length s - from))%nat with 0%nat by lia.
    apply startsWith_app.
  - intros j Hj. specialize (F (j - from)%nat ltac:(lia)). rewrite drop_drop in F.
    by replace (from + (j - from))%nat with j in F by lia.
Qed.

Lemma indexOf_None s needle from :
  indexOf s needle from = None <->
  forall j, (from <= j)%nat -> startsWith (drop j s) needle = false.
Proof.
  unfold indexOf. destruct (find_sub needle (drop from s)) as [k|] eqn:E; simpl.
  - split; [done|]. intros H. pose proof (find_sub_Some _ _ _ E) as [H1 _].
    apply (f_equal (drop k)) in H1.
    specialize (H (from + k)%nat ltac:(lia)). rewrite <- drop_drop, H1 in H.
    destruct (decide (length (take k (drop from s)) = k)) as [Hk|Hk].
    + rewrite <- Hk in H at 1. by rewrite drop_app_length, startsWith_app in H.
    + rewrite length_take in Hk.
      destruct (find_sub_Some _ _ _ E) as [_ H2]. lia.
  - split; [|done]. intros _ j Hj. rewrite find_sub_None in E.
    specialize (E (j - from)%nat). rewrite drop_drop in E.
    by replace (from + (j - from))%nat with j in E by lia.
Qed.

(** ** Facts: trimming *)

Lemma trimStart_suffix s : exists l, s = l ++ trimStart s /\ Forall (fun c => is_space c = true) l.
Proof.
  induction s as [|c s (l & H & Hl)]; [by exists []|]. simpl.
  destruct (is_space c) eqn:E; [|by exists []].
  exists (c :: l). simpl. split; [by f_equal|by constructor].
Qed.

Lemma trimEnd_prefix s : exists r, s = trimEnd s ++ r /\ Forall (fun c => is_space c = true) r.
Proof.
  unfold trimEnd. destruct (trimStart_suffix (rev s)) as (l & H & Hl).
  exists (rev l). split.
  - rewrite <- rev_app_distr, <- H. by rewrite rev_involutive.
  - apply Forall_rev. done.
Qed.

(** Trimming only removes white space at both ends. *)
Lemma trim_infix s :
  exists l r, s = l ++ trim s ++ r /\
    Forall (fun c => is_space c = true) l /\ Forall (fun c => is_space c = true) r.
Proof.
  destruct (trimStart_suffix s) as (l & Hl & Fl).
  destruct (trimEnd_prefix (trimStart s)) as (r & Hr & Fr).
  exists l, r. split_and!; [|done..]. unfold trim. by rewrite <- Hr.
Qed.

Lemma trimStart_id s :
  Forall (fun c => is_space c = false) s -> trimStart s = s.
Proof. destruct 1 as [|c s Hc _]; simpl; [done|]. by rewrite Hc. Qed.

Lemma trim_no_space s :
  Forall (fun c => is_space c = false) s -> trim s = s.
Proof.
  intros H. unfold trim, trimEnd. rewrite (trimStart_id s H).
  rewrite trimStart_id; [apply rev_involutive|]. by apply Forall_rev.
Qed.

Lemma trim_nil : trim [] = [].
Proof. done. Qed.

Lemma trim_length s : (length (trim s) <= length s)%nat.
Proof.
  destruct (trim_infix s) as (l & r & H & _). rewrite H at 2. rewrite !length_app. lia.
Qed.

Lemma trimStart_head s c s' : trimStart s = c :: s' -> is_space c = false.
Proof.
  induction s as [|d s IH]; simpl; [done|].
  destruct (is_space d) eqn:E; [done|]. by intros [= <- <-].
Qed.

Lemma trimStart_idemp s : trimStart (trimStart s) = trimStart s.
Proof.
  destruct (trimStart s) as [|c s'] eqn:E; [done|]. simpl.
  by rewrite (trimStart_head _ _ _ E).
Qed.

Lemma trimEnd_idemp s : trimEnd (trimEnd s) = trimEnd s.
Proof. unfold trimEnd. by rewrite rev_involutive, trimStart_idemp. Qed.

Lemma trimStart_trimEnd s : trimStart s = s -> trimStart (trimEnd s) = trimEnd s.
Proof.
  intros H. destruct (trimEnd_prefix s) as (r & Hr & _).
  destruct (trimEnd s) as [|c t] eqn:E; [done|].
  assert (is_space c = false) as Hc; [|by simpl; rewrite Hc].
  rewrite Hr in H. simpl in H. destruct (is_space c) eqn:Ec; [|done].
  exfalso. destruct (trimStart_suffix (t ++ r)) as (l & Hl & _).
  rewrite H in Hl. apply (f_equal length) in Hl.
  rewrite !length_app in Hl. simpl in Hl. rewrite ?length_app in Hl. lia.
Qed.

Lemma trim_idemp s : trim (trim s) = trim s.
Proof.
  unfold trim. rewrite trimStart_trimEnd, trimEnd_idemp; [done|]. apply trimStart_idemp.
Qed.

(** ** Facts: split and join *)

Lemma split_not_nil c s : split c s <> [].
Proof. destruct s; simpl; [done|]. case_match; [done|]. by destruct (split c s). Qed.

Lemma split_no_sep c s : c ∉ s -> split c s = [s].
Proof.
  induction s as [|x s IH]; simpl; [done|]. rewrite not_elem_of_cons. intros [Hne Hs].
  rewrite IH by done. by destruct (x =? c) eqn:E; bool_hyps.
Qed.

Lemma split_app_sep c p s : c ∉ p -> split c (p ++ c :: s) = p :: split c s.
Proof.
  induction p as [|x p IH]; simpl.
  - by rewrite Z.eqb_refl.
  - rewrite not_elem_of_cons. intros [Hne Hp]. rewrite IH by done.
    by destruct (x =? c) eqn:E; bool_hyps.
Qed.

(** Splitting a join gives the parts back when no part holds the separator. *)
Lemma split_join c parts :
  parts <> [] -> Forall (fun p => c ∉ p) parts -> split c (join [c] parts) = parts.
Proof.
  induction parts as [|p parts IH]; [done|]. intros _ H. inversion_clear H as [|? ? Hp Hps].
  destruct parts as [|q parts]; simpl.
  - by apply split_no_sep.
  - rewrite split_app_sep by done. f_equal. by apply IH.
Qed.

Lemma join_split c s : join [c] (split c s) = s.
Proof.
  induction s as [|x s IH]; simpl; [done|].
  pose proof (split_not_nil c s) as Hn.
  destruct (split c s) as [|p ps] eqn:E; [done|]. destruct (x =? c) eqn:Ex; bool_hyps.
  - rewrite Ex, <- IH. done.
  - rewrite <- IH. by destruct ps.
Qed.

Lemma split_elems c s p : p ∈ split c s -> c ∉ p /\ forall x, x ∈ p -> x ∈ s.
Proof.
  revert p. induction s as [|x s IH]; intros p; simpl.
  - intros ->%list_elem_of_singleton. split; [apply not_elem_of_nil|set_solver].
  - destruct (x =? c) eqn:E; bool_hyps.
    + intros [->|H]%elem_of_cons; [set_solver|]. destruct (IH p H). set_solver.
    + pose proof (split_not_nil c s). destruct (split c s) as [|q qs] eqn:Es; [done|].
      intros [->|H']%elem_of_cons.
      * destruct (IH q ltac:(left)). set_solver.
      * destruct (IH p ltac:(by right)). set_solver.
Qed.

Lemma join_elems c sep parts : c ∈ join sep parts -> c ∈ sep \/ exists p, p ∈ parts /\ c ∈ p.
Proof.
  induction parts as [|p parts IH]; simpl; [set_solver|].
  destruct parts as [|q parts]; [set_solver|].
  rewrite !elem_of_app. intros [H|[H|H]]; [set_solver|by left|].
  destruct (IH H) as [?|(r & ? & ?)]; [by left|]. right. exists r. set_solver.
Qed.

Lemma filter_truthy_all l : Forall (fun s => s <> []) l -> filter_truthy l = l.
Proof.
  induction 1 as [|s l Hs _ IH]; simpl; [done|]. destruct s; [done|]. simpl. by f_equal.
Qed.

Lemma filter_truthy_elem s l : s ∈ filter_truthy l <-> s ∈ l /\ s <> [].
Proof.
  unfold filter_truthy. rewrite !list_elem_of_In, List.filter_In.
  destruct s; simpl; intuition congruence.
Qed.

Lemma replace_class_id f r s :
  Forall (fun c => f c = false) s -> replace_class f r s = s.
Proof.
  unfold replace_class. induction 1 as [|c s Hc _ IH]; simpl; [done|]. by rewrite Hc, IH.
Qed.

Lemma replace_class_delete f s c :
  c ∈ replace_class f [] s -> f c = false /\ c ∈ s.
Proof.
  unfold replace_class. induction s as [|x s IH]; simpl; [set_solver|].
  rewrite elem_of_app. destruct (f x) eqn:E; [set_solver|].
  intros [->%list_elem_of_singleton|H]; [set_solver|]. destruct (IH H). set_solver.
Qed.

(** ** Facts: decimals *)

Lemma parseDec_snoc s c : parseDec (s ++ [c]) = 10 * parseDec s + (c - 48).
Proof. unfold parseDec. by rewrite fold_left_app. Qed.

Lemma parseDec_acc s a : fold_left (fun acc c => 10 * acc + (c - 48)) s a
  = a * 10 ^ Z.of_nat (length s) + parseDec s.
Proof.
  unfold parseDec. revert a. induction s as [|c s IH]; intros a; cbn [fold_left length].
  - rewrite Z.pow_0_r. lia.
  - rewrite IH, (IH (10 * 0 + (c - 48))), Nat2Z.inj_succ, Z.pow_succ_r by lia. ring.
Qed.

Lemma parseDec_nonneg s : Forall (fun c => is_digit c = true) s -> 0 <= parseDec s.
Proof.
  induction s as [|c s IH] using rev_ind; [done|].
  rewrite Forall_app, parseDec_snoc. intros [H1 H2]. inversion_clear H2 as [|? ? Hc].
  unfold is_digit in Hc. bool_hyps. specialize (IH H1). lia.
Qed.

Lemma dec_digits_app fuel n acc : dec_digits fuel n acc = dec_digits fuel n [] ++ acc.
Proof.
  revert n acc. induction fuel as [|fuel IH]; intros n acc; simpl; [done|].
  case_match; [done|]. rewrite IH, (IH _ [_]), <- app_assoc. done.
Qed.

Lemma dec_digits_spec fuel n :
  0 <= n -> n < 2 ^ Z.of_nat fuel ->
  parseDec (dec_digits fuel n []) = n /\
  Forall (fun c => is_digit c = true) (dec_digits fuel n []).
Proof.
  revert n. induction fuel as [|fuel IH]; intros n H0 H1; cbn [dec_digits].
  { simpl in H1. split; [cbv; lia | constructor]. }
  pose proof (Z.mod_pos_bound n 10 ltac:(lia)) as Hm.
  pose proof (Z.div_mod n 10 ltac:(lia)) as Hd.
  assert (is_digit (48 + n mod 10) = true) as Hdig.
  { unfold is_digit. apply andb_true_intro. split; apply Z.leb_le; lia. }
  destruct (n / 10 =? 0) eqn:E; bool_hyps.
  { split; [unfold parseDec; simpl; lia | by repeat constructor]. }
  rewrite dec_digits_app, parseDec_snoc.
  destruct (IH (n / 10)) as [IH1 IH2].
  - apply Z.div_pos; lia.
  - rewrite Nat2Z.inj_succ, Z.pow_succ_r in H1 by lia. apply Z.div_lt_upper_bound; lia.
  - rewrite IH1. split; [lia|]. apply Forall_app. split; [done|by repeat constructor].
Qed.

Lemma log2_fuel n : 0 <= n -> n < 2 ^ Z.of_nat (S (Z.to_nat (Z.log2 n))).
Proof.
  intros H. rewrite Nat2Z.inj_succ, Z2Nat.id by apply Z.log2_nonneg.
  destruct (decide (n = 0)) as [->|]; [done|]. apply Z.log2_spec. lia.
Qed.

(** Printing then parsing a non-negative integer gives it back. *)
Lemma parseDec_showZ n : 0 <= n -> parseDec (showZ n) = n.
Proof.
  intros H. unfold showZ. destruct (n <? 0) eqn:E; bool_hyps; [lia|].
  apply dec_digits_spec; [done|]. by apply log2_fuel.
Qed.

Lemma showZ_digits n : 0 <= n -> Forall (fun c => is_digit c = true) (showZ n).
Proof.
  intros H. unfold showZ. destruct (n <? 0) eqn:E; bool_hyps; [lia|].
  apply dec_digits_spec; [done|]. by apply log2_fuel.
Qed.

Lemma showZ_not_nil n : showZ n <> [].
Proof.
  unfold showZ, show_nonneg. case_match; [done|]. cbn [dec_digits]. case_match; [done|].
  rewrite dec_digits_app. by destruct (dec_digits _ _ _).
Qed.

Lemma all_digits_spec s :
  all_digits s = true <-> s <> [] /\ Forall (fun c => is_digit c = true) s.
Proof.
  unfold all_digits. rewrite andb_true_iff, forallb_forall, Forall_forall.
  setoid_rewrite list_elem_of_In. destruct s; simpl; intuition congruence.
Qed.

Lemma all_digits_showZ n : 0 <= n -> all_digits (showZ n) = true.
Proof. intros H. apply all_digits_spec. split; [apply showZ_not_nil | by apply showZ_digits]. Qed.

Lemma showZ_inj n m : 0 <= n -> 0 <= m -> showZ n = showZ m -> n = m.
Proof. intros Hn Hm H. rewrite <- (parseDec_showZ n), <- (parseDec_showZ m) by done. by rewrite H. Qed.

Lemma digit_not_space c : is_digit c = true -> is_space c = false.
Proof.
  intros H. unfold is_digit in H. bool_hyps. unfold is_space. apply orb_false_iff. split.
  - apply bool_decide_eq_false. rewrite !elem_of_cons, elem_of_nil. lia.
  - apply andb_false_iff. left. apply Z.leb_gt. lia.
Qed.

Lemma truthy_not_nil (s : jsstr) : truthy s = true -> s <> [].
Proof. by destruct s. Qed.

#[export] Hint Resolve startsWith_refl startsWith_app startsWith_nil_r trim_length
  showZ_not_nil all_digits_showZ showZ_digits digit_not_space split_not_nil : jsstr.
#[export] Hint Rewrite trim_idemp trim_nil startsWith_refl startsWith_nil_r @drop_app_length
  join_split : jsstr.
