(* ===== verification/JsCollections.v ===== *)
(** * JavaScript collections

    [Map] and [Set] keep insertion order; both are modelled by association
    lists in that order, with [set] updating an existing entry in place and
    appending a new one at the end.  [Array.prototype.sort] is a stable sort;
    [js_sort] is its reference definition, and [Comparator] states what
    ECMA-262 calls a consistent comparator, the condition under which the
    result of [sort] is determined. *)

From S2P Require Import Prelude JsString.

(** ** Map *)

Section JsMap.
Context {K V : Type} `{EqDecision K}.

Definition jsmap : Type := list (K * V).

Definition map_empty : jsmap := [].

(** [m.get(k)] *)
Fixpoint map_get (m : jsmap) (k : K) : option V :=
  match m with
  | [] => None
  | (k', v) :: m' => if decide (k' = k) then Some v else map_get m' k
  end.

(** [m.set(k, v)] *)
Fixpoint map_set (m : jsmap) (k : K) (v : V) : jsmap :=
  match m with
  | [] => [(k, v)]
  | (k', v') :: m' => if decide (k' = k) then (k', v) :: m' else (k', v') :: map_set m' k v
  end.

(** [[...m.values()]] and [[...m.keys()]] *)
Definition map_values (m : jsmap) : list V := m.*2.
Definition map_keys (m : jsmap) : list K := m.*1.

(** A read-modify-write: [m.set(k, f(m.get(k) ?? d))]. *)
Definition map_update (m : jsmap) (k : K) (d : V) (f : V -> V) : jsmap :=
  map_set m k (f (map_get m k ?? d)).

Lemma map_get_set_eq m k v : map_get (map_set m k v) k = Some v.
Proof.
  induction m as [|[k' v'] m IH]; simpl; [by rewrite decide_True|].
  destruct (decide (k' = k)); simpl; [by rewrite decide_True|by rewrite decide_False].
Qed.

Lemma map_set_set m k v v' : map_set (map_set m k v) k v' = map_set m k v'.
Proof.
  induction m as [|[k0 v0] m IH]; simpl; [by rewrite decide_True|].
  destruct (decide (k0 = k)) as [->|]; simpl; [by rewrite decide_True|].
  by rewrite decide_False, IH.
Qed.

Lemma map_set_same m k v : map_get m k = Some v -> map_set m k v = m.
Proof.
  induction m as [|[k' v'] m IH]; [done|]. cbn [map_get map_set].
  case_decide; [by intros [= ->]|]. intros Hm. by rewrite IH.
Qed.

Lemma map_get_set_ne m k k' v : k <> k' -> map_get (map_set m k v) k' = map_get m k'.
Proof.
  intros Hne. induction m as [|[k0 v0] m IH]; simpl; [by rewrite decide_False|].
  destruct (decide (k0 = k)) as [->|]; simpl; [by rewrite !decide_False|].
  by destruct (decide (k0 = k')).
Qed.

Lemma map_get_None m k : map_get m k = None <-> k ∉ map_keys m.
Proof.
  induction m as [|[k' v] m IH]; simpl; [split; [set_solver|done]|].
  unfold map_keys in *. simpl. rewrite not_elem_of_cons.
  destruct (decide (k' = k)) as [->|]; [split; [done|intros [? _]; done]|].
  rewrite IH. naive_solver.
Qed.

Lemma map_get_Some_elem m k v : map_get m k = Some v -> (k, v) ∈ m.
Proof.
  induction m as [|[k' v'] m IH]; simpl; [done|].
  destruct (decide (k' = k)) as [->|]; [intros [= ->]; left|]. right. auto.
Qed.

Lemma map_keys_set m k v :
  map_keys (map_set m k v) = if decide (k ∈ map_keys m) then map_keys m else map_keys m ++ [k].
Proof.
  unfold map_keys. induction m as [|[k' v'] m IH]; cbn [map_set].
  - case_decide as H; [by apply elem_of_nil in H|done].
  - destruct (decide (k' = k)) as [->|Hne]; rewrite !fmap_cons; cbn [fst].
    + clear IH. case_decide as H; [done|]. destruct H. left.
    + rewrite IH. repeat case_decide; set_solver.
Qed.

Lemma map_keys_set_nodup m k v : NoDup (map_keys m) -> NoDup (map_keys (map_set m k v)).
Proof.
  intros H. rewrite map_keys_set. case_decide; [done|]. apply NoDup_app.
  split_and!; [done|set_solver|apply NoDup_singleton].
Qed.

Lemma map_elem_get m k v : NoDup (map_keys m) -> (k, v) ∈ m -> map_get m k = Some v.
Proof.
  unfold map_keys. induction m as [|[k' v'] m IH]; simpl; intros Hnd Hin; [set_solver|].
  apply NoDup_cons in Hnd as [Hk Hnd].
  apply elem_of_cons in Hin as [[= -> ->]|Hin]; [by rewrite decide_True|].
  rewrite decide_False; [auto|]. intros ->. apply Hk. apply list_elem_of_fmap.
  by exists (k, v).
Qed.

Lemma map_set_elem m k v k' v' :
  (k', v') ∈ map_set m k v -> (k' = k /\ v' = v) \/ (k', v') ∈ m.
Proof.
  induction m as [|[k0 v0] m IH]; simpl; [set_solver|].
  destruct (decide (k0 = k)) as [->|]; set_solver.
Qed.

(** [m.delete(k)], or [delete o[k]] *)
Definition map_delete (m : jsmap) (k : K) : jsmap := List.filter (fun kv => negb (bool_decide (kv.1 = k))) m.

Lemma map_get_delete_ne o k k' : k <> k' -> map_get (map_delete o k) k' = map_get o k'.
Proof.
  intros Hne. induction o as [|[k0 v0] o IH]; [done|]. cbn [map_delete List.filter fst map_get].
  destruct (decide (k0 = k)) as [->|Hk].
  - rewrite bool_decide_eq_true_2 by done. cbn [negb]. rewrite decide_False by done. exact IH.
  - rewrite bool_decide_eq_false_2 by done. cbn [negb map_get]. by case_decide.
Qed.

Lemma map_get_delete_eq o k : map_get (map_delete o k) k = None.
Proof.
  induction o as [|[k0 v0] o IH]; [done|]. cbn [map_delete List.filter fst map_get].
  destruct (decide (k0 = k)) as [->|Hk].
  - rewrite bool_decide_eq_true_2 by done. exact IH.
  - rewrite bool_decide_eq_false_2 by done. cbn [negb map_get]. by rewrite decide_False.
Qed.

Lemma map_delete_absent o k : map_get o k = None -> map_delete o k = o.
Proof.
  induction o as [|[k0 v0] o IH]; [done|]. cbn [map_delete List.filter fst map_get].
  case_decide as E; [done|]. intros H. rewrite bool_decide_eq_false_2 by done. cbn [negb]. f_equal.
  by apply IH.
Qed.

Lemma map_delete_elem o k kv : kv ∈ map_delete o k <-> kv ∈ o /\ kv.1 <> k.
Proof.
  unfold map_delete. rewrite !list_elem_of_In, List.filter_In, negb_true_iff.
  by rewrite bool_decide_eq_false.
Qed.

Lemma map_delete_nodup o k : NoDup (map_keys o) -> NoDup (map_keys (map_delete o k)).
Proof.
  unfold map_keys. induction o as [|[k0 v0] o IH]; [done|]. cbn [map_delete List.filter fst].
  rewrite fmap_cons, NoDup_cons. intros [Hk Ho]. case_match; [|by apply IH].
  rewrite fmap_cons. apply NoDup_cons. split; [|by apply IH].
  intros ([k1 v1] & Hk1 & [Hin _]%map_delete_elem)%list_elem_of_fmap. cbn in Hk1. subst k1.
  apply Hk. apply list_elem_of_fmap. by exists (k0, v1).
Qed.

Lemma map_deletes_get (o : jsmap) ks k :
  map_get (fold_left map_delete ks o) k = if decide (k ∈ ks) then None else map_get o k.
Proof.
  revert o. induction ks as [|x ks IH]; intros o; [done|]. cbn [fold_left]. rewrite IH.
  destruct (decide (k ∈ ks)); [by rewrite decide_True by set_solver|].
  destruct (decide (k = x)) as [->|Hne].
  - rewrite decide_True by set_solver. apply map_get_delete_eq.
  - rewrite decide_False by set_solver. by apply map_get_delete_ne.
Qed.

Lemma map_get_filter (P : K -> bool) (m : jsmap) k :
  map_get (List.filter (fun kv => P kv.1) m) k = if P k then map_get m k else None.
Proof.
  induction m as [|[k' v'] m IH]; [by destruct (P k)|]. cbn [List.filter fst map_get].
  destruct (P k') eqn:E; cbn [map_get]; case_decide; subst; rewrite ?E, ?IH; try done; by rewrite E.
Qed.

Lemma map_filter_nodup (P : K * V -> bool) (m : jsmap) : NoDup (map_keys m) -> NoDup (map_keys (List.filter P m)).
Proof.
  intros H. eapply sublist_NoDup; [exact H|]. unfold map_keys. clear H.
  induction m as [|kv m IH]; [constructor|]. cbn [List.filter]. destruct (P kv); by constructor.
Qed.

(** The sum of a weight over the values, and how one [set] changes it. *)
Definition map_sum (w : V -> Z) (m : jsmap) : Z := foldr (fun kv acc => w kv.2 + acc) 0 m.

Lemma map_sum_set (w : V -> Z) m k v :
  map_sum w (map_set m k v) = map_sum w m + w v - (w <$> map_get m k ?? 0).
Proof.
  unfold map_sum. induction m as [|[k' v'] m IH]; simpl; [lia|].
  destruct (decide (k' = k)); simpl; [lia|]. rewrite IH. lia.
Qed.
End JsMap.

Arguments jsmap : clear implicits.

(** ** Set *)

Section JsSet.
Context {A : Type} `{EqDecision A}.

(** [s.add(x)] on the insertion-ordered elements. *)
Definition set_add (s : list A) (x : A) : list A := if decide (x ∈ s) then s else s ++ [x].

(** [[...new Set(xs)]]: the distinct elements in order of first occurrence. *)
Definition set_of (xs : list A) : list A := fold_left set_add xs [].

Lemma set_add_elem s x y : y ∈ set_add s x <-> y ∈ s \/ y = x.
Proof. unfold set_add. case_decide; set_solver. Qed.

Lemma set_add_nodup s x : NoDup s -> NoDup (set_add s x).
Proof.
  intros H. unfold set_add. case_decide; [done|]. apply NoDup_app.
  split_and!; [done|set_solver|apply NoDup_singleton].
Qed.

Lemma fold_set_add_elem xs s y : y ∈ fold_left set_add xs s <-> y ∈ s \/ y ∈ xs.
Proof.
  revert s. induction xs as [|x xs IH]; intros s; simpl; [set_solver|].
  rewrite IH, set_add_elem, elem_of_cons. tauto.
Qed.

Lemma set_of_elem xs y : y ∈ set_of xs <-> y ∈ xs.
Proof. unfold set_of. rewrite fold_set_add_elem. set_solver. Qed.

Lemma set_of_nodup xs : NoDup (set_of xs).
Proof.
  unfold set_of. apply (fold_left_cons_inv NoDup); [constructor|].
  intros. by apply set_add_nodup.
Qed.

(** Filtering commutes with dropping repetitions. *)
Lemma set_add_filter (f : A -> bool) s x :
  List.filter f (set_add s x) = if f x then set_add (List.filter f s) x else List.filter f s.
Proof.
  assert (x ∈ List.filter f s <-> x ∈ s /\ f x = true) as Hin
    by (rewrite !list_elem_of_In; apply List.filter_In).
  unfold set_add. destruct (f x) eqn:E; repeat case_decide; rewrite ?List.filter_app; cbn [List.filter];
    rewrite ?E, ?app_nil_r; try done; tauto.
Qed.

Lemma set_of_filter (f : A -> bool) xs : set_of (List.filter f xs) = List.filter f (set_of xs).
Proof.
  unfold set_of. change (@nil A) with (List.filter f []) at 1. generalize (@nil A) as s.
  induction xs as [|x xs IH]; intros s; [done|]. cbn [List.filter fold_left].
  rewrite <- IH, set_add_filter. by destruct (f x).
Qed.

Lemma set_of_snoc xs x : set_of (xs ++ [x]) = set_add (set_of xs) x.
Proof. unfold set_of. by rewrite fold_left_app. Qed.

(** A list without repetitions is its own set. *)
Lemma set_of_id xs : NoDup xs -> set_of xs = xs.
Proof.
  induction xs as [|x xs IH] using rev_ind; [done|]. intros (H1 & H2 & _)%NoDup_app.
  rewrite set_of_snoc, IH by done. unfold set_add. rewrite decide_False; [done|].
  intros Hx. apply (H2 x Hx). left.
Qed.
End JsSet.

(** ** Sorting *)

(** What [Array.prototype.sort] asks of its comparator. *)
Class Comparator {A} (cmp : A -> A -> Z) : Prop := {
  cmp_refl : forall x, cmp x x = 0;
  cmp_antisym : forall x y, cmp x y < 0 <-> 0 < cmp y x;
  cmp_trans : forall x y z, cmp x y <= 0 -> cmp y z <= 0 -> cmp x z <= 0 }.

Section Sort.
Context {A : Type} (cmp : A -> A -> Z).

Fixpoint sort_insert (x : A) (l : list A) : list A :=
  match l with
  | [] => [x]
  | y :: l' => if cmp x y <? 0 then x :: l else y :: sort_insert x l'
  end.

(** [l.sort(cmp)] *)
Definition js_sort (l : list A) : list A := fold_left (fun acc x => sort_insert x acc) l [].

Lemma sort_insert_perm x l : sort_insert x l ≡ₚ x :: l.
Proof.
  induction l as [|y l IH]; simpl; [done|]. case_match; [done|].
  rewrite IH. apply Permutation_swap.
Qed.

Lemma js_sort_perm l : js_sort l ≡ₚ l.
Proof.
  unfold js_sort. rewrite <- (app_nil_r l) at 2. generalize (@nil A).
  induction l as [|x l IH]; intros acc; simpl; [done|].
  rewrite IH, sort_insert_perm. by rewrite Permutation_middle.
Qed.

Lemma js_sort_elem l x : x ∈ js_sort l <-> x ∈ l.
Proof. by rewrite js_sort_perm. Qed.

Context `{!Comparator cmp}.

Lemma cmp_flip x y : ~ cmp x y < 0 -> cmp y x <= 0.
Proof. intros H. destruct (decide (0 < cmp y x)) as [?%cmp_antisym|]; lia. Qed.

Lemma sort_insert_sorted x l :
  StronglySorted (fun a b => cmp a b <= 0) l ->
  StronglySorted (fun a b => cmp a b <= 0) (sort_insert x l).
Proof.
  induction 1 as [|y l Hs IH Hy]; simpl; [repeat constructor|].
  destruct (cmp x y <? 0) eqn:E; bool_hyps.
  - constructor; [by constructor|]. constructor; [lia|].
    eapply Forall_impl; [exact Hy|]. intros z Hz. eapply cmp_trans; [|exact Hz]. lia.
  - constructor; [done|]. rewrite sort_insert_perm. constructor; [|done].
    apply cmp_flip. lia.
Qed.

Lemma js_sort_sorted l : StronglySorted (fun a b => cmp a b <= 0) (js_sort l).
Proof.
  unfold js_sort. apply fold_left_cons_inv; [constructor|].
  intros. by apply sort_insert_sorted.
Qed.

Lemma sort_insert_snoc x l :
  Forall (fun y => cmp y x <= 0) l -> sort_insert x l = l ++ [x].
Proof.
  induction 1 as [|y l Hy _ IH]; simpl; [done|].
  destruct (cmp x y <? 0) eqn:E; bool_hyps; [|by rewrite IH].
  apply cmp_antisym in E. lia.
Qed.

(** A sorted array is left as it is. *)
Lemma js_sort_id l : StronglySorted (fun a b => cmp a b <= 0) l -> js_sort l = l.
Proof.
  unfold js_sort. intros Hl. change l with ([] ++ l) in Hl.
  replace (fold_left _ l []) with ([] ++ l); [done|].
  revert Hl. generalize (@nil A). induction l as [|x l IH]; intros acc Hl; simpl.
  - by rewrite app_nil_r.
  - rewrite sort_insert_snoc.
    + rewrite <- IH; [by rewrite <- app_assoc|]. by rewrite <- app_assoc.
    + clear IH. induction acc as [|a acc IHa]; [constructor|]. simpl in Hl.
      apply StronglySorted_inv in Hl as [Hl Ha]. constructor; [|auto].
      rewrite Forall_app in Ha. destruct Ha as [_ Ha]. by inversion Ha.
Qed.
End Sort.

(** ** Building comparators *)

(** [a - b] on an integer key. *)
#[export] Instance comparator_sub {A} (f : A -> Z) : Comparator (fun a b => f a - f b).
Proof. split; intros; lia. Qed.

(** [b - a]: the descending order. *)
#[export] Instance comparator_sub_desc {A} (f : A -> Z) : Comparator (fun a b => f b - f a).
Proof. split; intros; lia. Qed.

(** Comparing through a key. *)
Lemma comparator_on {A B} (f : A -> B) (cmp : B -> B -> Z) :
  Comparator cmp -> Comparator (fun a b => cmp (f a) (f b)).
Proof.
  intros [H1 H2 H3]. split; [intros x; apply H1|intros x y; apply H2|].
  intros x y z. apply H3.
Qed.

(** [c1(a, b) || c2(a, b)]: the second comparator breaks the ties. *)
#[export] Instance comparator_or {A} (c1 c2 : A -> A -> Z) :
  Comparator c1 -> Comparator c2 -> Comparator (fun a b => c1 a b |0| c2 a b).
Proof.
  intros C1 C2. pose proof (@cmp_antisym _ c1 C1) as A1. pose proof (@cmp_trans _ c1 C1) as T1.
  assert (forall x y, c1 x y = 0 <-> c1 y x = 0) as Hz.
  { intros x y. pose proof (A1 x y). pose proof (A1 y x). lia. }
  split.
  - intros x. rewrite (cmp_refl (cmp := c1) x). apply cmp_refl.
  - intros x y. pose proof (Hz x y). pose proof (A1 x y).
    pose proof (cmp_antisym (cmp := c2) x y). case_tests; lia.
  - intros x y z H1 H2.
    pose proof (T1 x y z). pose proof (T1 z x y). pose proof (T1 y z x). pose proof (T1 z y x).
    pose proof (A1 x y). pose proof (A1 y z). pose proof (A1 x z). pose proof (A1 z x).
    pose proof (A1 y x). pose proof (A1 z y).
    pose proof (cmp_trans (cmp := c2) x y z).
    destruct (c1 x y =? 0) eqn:E1, (c1 y z =? 0) eqn:E2, (c1 x z =? 0) eqn:E3; bool_hyps; lia.
Qed.

(** The default order of [sort()] on strings: by UTF-16 code units. *)
Fixpoint compareUnits (a b : jsstr) : Z :=
  match a, b with
  | [], [] => 0
  | [], _ :: _ => -1
  | _ :: _, [] => 1
  | x :: a', y :: b' => if x =? y then compareUnits a' b' else if x <? y then -1 else 1
  end.

#[export] Instance compareUnits_comparator : Comparator compareUnits.
Proof.
  split.
  - induction x as [|x a IH]; [done|]. cbn. by rewrite Z.eqb_refl.
  - induction x as [|x a IH]; intros [|y b]; cbn; try lia.
    rewrite (Z.eqb_sym y x). destruct (x =? y) eqn:E; [apply IH|].
    destruct (x <? y) eqn:E1, (y <? x) eqn:E2; bool_hyps; lia.
  - induction x as [|x a IH]; intros [|y b] [|z c]; cbn; try lia.
    destruct (x =? y) eqn:E1, (y =? z) eqn:E2, (x =? z) eqn:E3; bool_hyps; try lia.
    + apply IH.
    + destruct (x <? z) eqn:?, (y <? z) eqn:?; bool_hyps; lia.
    + destruct (x <? y) eqn:?, (x <? z) eqn:?; bool_hyps; lia.
    + destruct (x <? y) eqn:?, (y <? z) eqn:?; bool_hyps; lia.
    + destruct (x <? y) eqn:?, (y <? z) eqn:?, (x <? z) eqn:?; bool_hyps; lia.
Qed.

(** ** Filling a map *)

(** The keys of a map that a loop fills, when each step writes one key. *)
Lemma fold_keys {K V X} `{EqDecision K} (step : list (K * V) -> X -> list (K * V)) (key : X -> K) xs m k :
  (forall m x, exists v, step m x = map_set m (key x) v) ->
  k ∈ map_keys (fold_left step xs m) <-> k ∈ map_keys m \/ k ∈ key <$> xs.
Proof.
  intros Hstep. revert m. induction xs as [|x xs IH]; intros m; cbn [fold_left]; [set_solver|].
  rewrite IH. destruct (Hstep m x) as [v ->]. rewrite map_keys_set. case_decide; set_solver.
Qed.

Lemma map_values_elem {K V} (m : list (K * V)) v : v ∈ map_values m <-> exists k, (k, v) ∈ m.
Proof.
  unfold map_values. rewrite list_elem_of_fmap. split.
  - intros ([k v'] & -> & H). by exists k.
  - intros [k H]. by exists (k, v).
Qed.

Lemma map_keys_elem {K V} (m : list (K * V)) k : k ∈ map_keys m <-> exists v, (k, v) ∈ m.
Proof.
  unfold map_keys. rewrite list_elem_of_fmap. split.
  - intros ([k' v] & -> & H). by exists v.
  - intros [v H]. by exists (k, v).
Qed.

(** The set filled by a loop in a loop. *)
Lemma set_of_concat {A B} `{EqDecision B} (f : A -> list B) (l : list A) x :
  x ∈ set_of (concat (map f l)) <-> exists y, y ∈ l /\ x ∈ f y.
Proof.
  rewrite set_of_elem, list_elem_of_In, in_concat. setoid_rewrite in_map_iff.
  setoid_rewrite list_elem_of_In. naive_solver.
Qed.

#[export] Hint Resolve map_keys_set_nodup set_add_nodup set_of_nodup map_get_set_eq : js_db.
