(* ===== verification/StatusCodeRules.v ===== *)
(** * HTTP status code rules

    Model of [web/default/src/lib/http-status-code-rules.ts]: the parser of
    rule lists such as "401,403,500-599", the merge of overlapping or adjacent
    ranges and the normalised text that is saved.  The theorems show that
    merging keeps exactly the codes the ranges cover, that its result is the
    only canonical list with that meaning, and that the normalised text is a
    fixed point of the parser. *)

From S2P Require Import Prelude JsString JsCollections.

Module StatusCodeRules.

(** ** Data *)

Record StatusCodeRange := mkRange { start : Z; end_ : Z }.

#[export] Instance StatusCodeRange_eq_dec : EqDecision StatusCodeRange.
Proof. solve_decision. Defined.

Record ParsedHttpStatusCodeRules := mkParsed {
  ok : bool;
  ranges : list StatusCodeRange;
  tokens : list jsstr;
  normalized : jsstr;
  invalidTokens : list jsstr }.

(** ** Operations *)

(** [isNumber]: [typeof s === 'string' && /^\d+$/.test(s)]; [None] is
    [undefined]. *)
Definition isNumber (s : option jsstr) : bool :=
  match s with Some s => all_digits s | None => false end.

Definition isValidCode (code : Z) : bool := (100 <=? code) && (code <=? 599).

Definition parseToken (token : jsstr) : option StatusCodeRange :=
  let cleaned := replace_class is_space [] (trim token) in
  if negb (truthy cleaned) then None
  else if includes cleaned (js "-") then
    let parts := split 45 cleaned in
    let a := parts !! 0%nat in
    let b := parts !! 1%nat in
    if negb (isNumber a) || negb (isNumber b) then None
    else
      let start := parseDec (a ?? []) in
      let end_ := parseDec (b ?? []) in
      if negb (isValidCode start) || negb (isValidCode end_) || (end_ <? start) then None
      else Some (mkRange start end_)
  else if negb (isNumber (Some cleaned)) then None
  else
    let code := parseDec cleaned in
    if negb (isValidCode code) then None else Some (mkRange code code).

(** The comparator of the sort in [mergeRanges]. *)
Definition compareRanges (a b : StatusCodeRange) : Z :=
  if negb (start a =? start b) then start a - start b else end_ a - end_ b.

(** The reducer: [last] is [merged[merged.length - 1]], and the write to
    [last.end] replaces the last element. *)
Definition mergeStep (merged : list StatusCodeRange) (current : StatusCodeRange) :=
  match last merged with
  | None => merged ++ [current]
  | Some l =>
      if end_ l + 1 <? start current then merged ++ [current]
      else removelast merged ++ [mkRange (start l) (Z.max (end_ l) (end_ current))]
  end.

Definition mergeRanges (ranges : list StatusCodeRange) : list StatusCodeRange :=
  match ranges with
  | [] => []
  | _ => fold_left mergeStep (js_sort compareRanges ranges) []
  end.

Definition rangeToken (r : StatusCodeRange) : jsstr :=
  if start r =? end_ r then showZ (start r)
  else showZ (start r) ++ js "-" ++ showZ (end_ r).

(** The loop over the segments: parsed ranges and invalid tokens, in order. *)
Fixpoint parseSegments (segments : list jsstr) : list StatusCodeRange * list jsstr :=
  match segments with
  | [] => ([], [])
  | s :: segs =>
      let '(rs, bad) := parseSegments segs in
      match parseToken s with
      | None => (rs, s :: bad)
      | Some r => (r :: rs, bad)
      end
  end.

(** The full-width comma U+FF0C is read as a comma. *)
Definition sanitize (raw : jsstr) : jsstr := replace_class (Z.eqb 65292) (js ",") raw.

Definition segmentsOf (raw : jsstr) : list jsstr :=
  filter_truthy (map trim (split 44 (sanitize raw))).

(** [input] is the text the argument converts to, [None] for null and
    undefined. *)
Definition parseHttpStatusCodeRules (input : option jsstr) : ParsedHttpStatusCodeRules :=
  let raw := trim (input ?? []) in
  if (length raw =? 0)%nat then mkParsed true [] [] [] []
  else
    let '(rs, bad) := parseSegments (segmentsOf raw) in
    if (0 <? length bad)%nat then mkParsed false [] [] raw bad
    else
      let merged := mergeRanges rs in
      let toks := map rangeToken merged in
      mkParsed true merged toks (join (js ",") toks) [].

(** ** Specification *)

Definition in_range (c : Z) (r : StatusCodeRange) : Prop := start r <= c <= end_ r.

(** The codes a rule list selects. *)
Definition covers (rs : list StatusCodeRange) (c : Z) : Prop :=
  exists r, r ∈ rs /\ in_range c r.

Definition wf_range (r : StatusCodeRange) : Prop := start r <= end_ r.

Definition code_range (r : StatusCodeRange) : Prop :=
  100 <= start r /\ start r <= end_ r /\ end_ r <= 599.

(** At least one uncovered code lies between consecutive ranges. *)
Definition gap (r1 r2 : StatusCodeRange) : Prop := end_ r1 + 1 < start r2.

Definition canonical (rs : list StatusCodeRange) : Prop :=
  Forall wf_range rs /\ StronglySorted gap rs.

(** ** Merging *)

#[export] Instance compareRanges_comparator : Comparator compareRanges.
Proof.
  split; unfold compareRanges; [intros x|intros x y|intros x y z]; case_tests; lia.
Qed.

Lemma covers_nil c : covers [] c <-> False.
Proof. split; [|done]. by intros (r & ?%elem_of_nil & _). Qed.

Lemma covers_cons r rs c : covers (r :: rs) c <-> in_range c r \/ covers rs c.
Proof. unfold covers. setoid_rewrite elem_of_cons. naive_solver. Qed.

Lemma covers_app rs1 rs2 c : covers (rs1 ++ rs2) c <-> covers rs1 c \/ covers rs2 c.
Proof. unfold covers. setoid_rewrite elem_of_app. naive_solver. Qed.

Lemma covers_perm rs1 rs2 c : rs1 ≡ₚ rs2 -> covers rs1 c <-> covers rs2 c.
Proof. intros H. unfold covers. by setoid_rewrite H. Qed.

Create Rewrite HintDb covers.
#[local] Hint Rewrite covers_nil covers_cons covers_app : covers.

Lemma canonical_snoc rs r :
  canonical (rs ++ [r]) <-> canonical rs /\ wf_range r /\ Forall (fun x => gap x r) rs.
Proof.
  unfold canonical. rewrite Forall_app, StronglySorted_app, Forall_singleton, !Forall_forall.
  split.
  - intros ((H1 & H2) & H3 & H4 & _). split_and!; [done..|]. intros x Hx. apply H3; [done|left].
  - intros ((H1 & H2) & H3 & H4). split_and!; [done..| |done|repeat constructor].
    intros x y Hx ->%list_elem_of_singleton. auto.
Qed.

Lemma mergeStep_snoc m l cur :
  mergeStep (m ++ [l]) cur =
  if end_ l + 1 <? start cur then (m ++ [l]) ++ [cur]
  else m ++ [mkRange (start l) (Z.max (end_ l) (end_ cur))].
Proof. unfold mergeStep. by rewrite last_snoc, removelast_last. Qed.

(** One step of the reducer on a canonical prefix whose last start is not
    after the current one. *)
Lemma mergeStep_spec m cur :
  canonical m -> wf_range cur ->
  (forall l, last m = Some l -> start l <= start cur) ->
  let m' := mergeStep m cur in
  canonical m' /\ (forall c, covers m' c <-> covers m c \/ in_range c cur) /\
  (exists l, last m' = Some l /\ start l <= start cur).
Proof.
  intros Hm Hw Hl. destruct m as [|l m _] using rev_ind; simpl.
  - split_and!; [|intros c; unfold mergeStep; simpl; autorewrite with covers; tauto|by exists cur].
    by repeat constructor.
  - specialize (Hl l (last_snoc _ _)). rewrite mergeStep_snoc.
    apply canonical_snoc in Hm as (Hm & Hwl & Hg). unfold wf_range in *.
    destruct (end_ l + 1 <? start cur) eqn:E; bool_hyps.
    + split_and!; [|intros c; autorewrite with covers; tauto|exists cur; by rewrite last_snoc].
      apply canonical_snoc. split_and!; [by apply canonical_snoc|done|].
      rewrite Forall_app, Forall_singleton. split; [|done].
      eapply Forall_impl; [exact Hg|]. unfold gap. intros x ?. lia.
    + split_and!.
      * apply canonical_snoc. split_and!; [done|unfold wf_range; simpl; lia|].
        eapply Forall_impl; [exact Hg|]. done.
      * intros c. autorewrite with covers. unfold in_range; simpl.
        assert (start l <= c <= Z.max (end_ l) (end_ cur)
                <-> start l <= c <= end_ l \/ start cur <= c <= end_ cur) by lia.
        tauto.
      * eexists. rewrite last_snoc. split; [done|]. done.
Qed.

Lemma mergeFold_spec rest m :
  canonical m -> Forall wf_range rest -> StronglySorted (fun a b => start a <= start b) rest ->
  (forall l r, last m = Some l -> r ∈ rest -> start l <= start r) ->
  canonical (fold_left mergeStep rest m) /\
  forall c, covers (fold_left mergeStep rest m) c <-> covers m c \/ covers rest c.
Proof.
  revert m. induction rest as [|r rest IH]; intros m Hm Hw Hs Hl; simpl.
  - split; [done|]. intros c. autorewrite with covers. tauto.
  - apply Forall_cons in Hw as [Hr Hw]. apply StronglySorted_inv in Hs as [Hs Hr'].
    destruct (mergeStep_spec m r Hm Hr) as (H1 & H2 & (l' & H3 & H4)).
    { intros l Hlast. apply (Hl l r Hlast). left. }
    destruct (IH (mergeStep m r) H1 Hw Hs) as [I1 I2].
    { intros l x Hlast Hx. rewrite Hlast in H3. injection H3 as ->.
      rewrite Forall_forall in Hr'. specialize (Hr' x Hx). lia. }
    split; [done|]. intros c. rewrite I2, H2. autorewrite with covers. tauto.
Qed.

Lemma sorted_by_start l : StronglySorted (fun a b => start a <= start b) (js_sort compareRanges l).
Proof.
  pose proof (js_sort_sorted compareRanges l) as H. induction H as [|x l' Hs IH Hx]; constructor; [done|].
  eapply Forall_impl; [exact Hx|]. unfold compareRanges. intros y. case_tests; lia.
Qed.

Lemma mergeRanges_fold rs : mergeRanges rs = fold_left mergeStep (js_sort compareRanges rs) [].
Proof. by destruct rs. Qed.

Lemma mergeRanges_spec rs :
  Forall wf_range rs ->
  canonical (mergeRanges rs) /\ forall c, covers (mergeRanges rs) c <-> covers rs c.
Proof.
  intros Hw. rewrite mergeRanges_fold.
  destruct (mergeFold_spec (js_sort compareRanges rs) []) as [H1 H2].
  - split; constructor.
  - by rewrite js_sort_perm.
  - apply sorted_by_start.
  - done.
  - split; [done|]. intros c. rewrite H2, covers_nil.
    rewrite (covers_perm _ rs c (js_sort_perm _ _)). tauto.
Qed.

(** A canonical list is determined by the codes it covers. *)
Lemma canonical_head r rs c :
  canonical (r :: rs) -> covers (r :: rs) c -> start r <= c /\ (c <= end_ r + 1 -> c <= end_ r).
Proof.
  intros [Hw Hs] Hc. apply StronglySorted_inv in Hs as [_ Hg]. rewrite Forall_forall in Hg.
  apply Forall_cons in Hw as [Hr Hw]. rewrite Forall_forall in Hw. unfold wf_range, gap, in_range in *.
  apply covers_cons in Hc as [?|(x & Hx & Hc)]; unfold in_range in *; [lia|].
  specialize (Hg x Hx). specialize (Hw x Hx). lia.
Qed.

Lemma canonical_tail r rs c :
  canonical (r :: rs) -> covers rs c <-> covers (r :: rs) c /\ end_ r < c.
Proof.
  intros [Hw Hs]. apply StronglySorted_inv in Hs as [_ Hg]. rewrite Forall_forall in Hg.
  apply Forall_cons in Hw as [Hr Hw]. rewrite covers_cons. unfold gap, in_range in *. split.
  - intros (x & Hx & Hc). specialize (Hg x Hx). unfold in_range in Hc.
    split; [right; by exists x|lia].
  - intros [[?|?] ?]; [lia|done].
Qed.

Lemma canonical_cons_inv r rs : canonical (r :: rs) -> canonical rs.
Proof.
  intros [Hw Hs]. apply Forall_cons in Hw as [_ Hw]. apply StronglySorted_inv in Hs as [Hs _].
  by split.
Qed.

Lemma canonical_unique rs1 rs2 :
  canonical rs1 -> canonical rs2 -> (forall c, covers rs1 c <-> covers rs2 c) -> rs1 = rs2.
Proof.
  revert rs2. induction rs1 as [|[a b] rs1 IH]; intros [|[a' b'] rs2] H1 H2 Hc; [done|..].
  - destruct H2 as [Hw _]. apply Forall_cons in Hw as [Hw _].
    assert (covers [] a') as []%covers_nil. apply Hc, covers_cons. left. by split.
  - destruct H1 as [Hw _]. apply Forall_cons in Hw as [Hw _].
    assert (covers [] a) as []%covers_nil. apply Hc, covers_cons. left. by split.
  - assert (a <= b /\ a' <= b') as [Hab Hab'].
    { destruct H1 as [[W1 _]%Forall_cons _], H2 as [[W2 _]%Forall_cons _]. done. }
    assert (forall c, a <= c <= b -> covers (mkRange a b :: rs1) c) as C1.
    { intros c ?. apply covers_cons. by left. }
    assert (forall c, a' <= c <= b' -> covers (mkRange a' b' :: rs2) c) as C2.
    { intros c ?. apply covers_cons. by left. }
    pose proof (fun c => canonical_head _ _ c H1) as G1. pose proof (fun c => canonical_head _ _ c H2) as G2.
    simpl in G1, G2.
    assert (a = a') as <-.
    { pose proof (G1 a' (proj2 (Hc a') (C2 a' ltac:(lia)))).
      pose proof (G2 a (proj1 (Hc a) (C1 a ltac:(lia)))). lia. }
    assert (b = b') as <-.
    { destruct (Z.lt_trichotomy b b') as [L|[E|L]]; [|done|].
      - pose proof (G1 (b + 1) (proj2 (Hc _) (C2 (b + 1) ltac:(lia)))). lia.
      - pose proof (G2 (b' + 1) (proj1 (Hc _) (C1 (b' + 1) ltac:(lia)))). lia. }
    f_equal. apply IH; [by eapply canonical_cons_inv..|].
    intros c. rewrite (canonical_tail _ _ c H1), (canonical_tail _ _ c H2), Hc. done.
Qed.

Lemma mergeRanges_canonical_id rs : canonical rs -> mergeRanges rs = rs.
Proof.
  intros H. destruct (mergeRanges_spec rs (proj1 H)) as [H1 H2]. by apply canonical_unique.
Qed.

(** ** Tokens *)

Lemma isValidCode_spec c : isValidCode c = true <-> 100 <= c <= 599.
Proof. unfold isValidCode. rewrite andb_true_iff, !Z.leb_le. done. Qed.

Lemma parseToken_code_range t r : parseToken t = Some r -> code_range r.
Proof.
  unfold parseToken, code_range. cbv zeta. intros H.
  repeat match type of H with
  | context [if ?b then _ else _] => destruct b eqn:?; [try done|try done]
  end; simplify_eq/=; bool_hyps;
  repeat match goal with Hv : isValidCode _ = true |- _ => apply isValidCode_spec in Hv end; lia.
Qed.

(** The characters of a printed token. *)
Definition token_char (c : Z) : Prop := is_digit c = true \/ c = 45.

Lemma token_char_plain c : token_char c -> is_space c = false /\ c <> 44 /\ c <> 65292.
Proof.
  intros [H| ->]; [|done]. split; [by apply digit_not_space|].
  unfold is_digit in H. bool_hyps. lia.
Qed.

Lemma showZ_token_chars n : 0 <= n -> Forall token_char (showZ n).
Proof. intros H. eapply Forall_impl; [by apply showZ_digits|]. intros c ?. by left. Qed.

Lemma rangeToken_chars r : code_range r -> Forall token_char (rangeToken r).
Proof.
  intros (? & ? & ?). unfold rangeToken. case_match; [apply showZ_token_chars; lia|].
  rewrite !Forall_app. split_and!; [apply showZ_token_chars; lia| |apply showZ_token_chars; lia].
  constructor; [by right|constructor].
Qed.

Lemma rangeToken_not_nil r : rangeToken r <> [].
Proof.
  unfold rangeToken. case_match; [apply showZ_not_nil|].
  pose proof (showZ_not_nil (start r)). by destruct (showZ (start r)).
Qed.

Lemma digits_no_dash s : Forall (fun c => is_digit c = true) s -> 45 ∉ s.
Proof. rewrite Forall_forall. intros H Hin. by specialize (H _ Hin). Qed.

Lemma cleaned_id t :
  Forall (fun c => is_space c = false) t -> replace_class is_space [] (trim t) = t.
Proof. intros H. rewrite trim_no_space by done. by apply replace_class_id. Qed.

Lemma no_dash_includes s : 45 ∉ s -> includes s (js "-") = false.
Proof.
  intros H. destruct (includes s (js "-")) eqn:E; [|done].
  apply includes_spec in E as (l & r & ->). destruct H. set_solver.
Qed.

Lemma validCode_in_range c lo hi : code_range (mkRange lo hi) -> lo <= c <= hi -> isValidCode c = true.
Proof. intros (? & ? & ?) ?. apply isValidCode_spec. simpl in *. lia. Qed.

(** A range token is read as the range of its first two bounds, whatever
    follows a second dash. *)
Lemma parseToken_bounds lo hi (rest : jsstr) :
  code_range (mkRange lo hi) -> Forall (fun c => is_space c = false) rest ->
  (rest = [] \/ exists t, rest = 45 :: t) ->
  parseToken (showZ lo ++ js "-" ++ showZ hi ++ rest) = Some (mkRange lo hi).
Proof.
  intros Hr Hsp Hrest. pose proof Hr as (? & ? & ?). cbn [start end_] in *.
  assert (Forall (fun c => is_digit c = true) (showZ lo)) as Dlo by (apply showZ_digits; lia).
  assert (Forall (fun c => is_digit c = true) (showZ hi)) as Dhi by (apply showZ_digits; lia).
  unfold parseToken. rewrite cleaned_id.
  2:{ rewrite !Forall_app. split_and!; [|by apply Forall_singleton| |done];
      (eapply Forall_impl; [eassumption|]); intros c ?; by apply digit_not_space. }
  replace (truthy _) with true by (pose proof (showZ_not_nil lo); by destruct (showZ lo)).
  cbn [negb]. replace (includes _ (js "-")) with true by (symmetry; apply includes_spec; eauto).
  change (js "-") with [45]. cbn [app].
  rewrite split_app_sep by (by apply digits_no_dash).
  assert (exists tl, split 45 (showZ hi ++ rest) = showZ hi :: tl) as [tl ->].
  { destruct Hrest as [->|[t ->]].
    - rewrite app_nil_r, split_no_sep by (by apply digits_no_dash). eauto.
    - rewrite split_app_sep by (by apply digits_no_dash). eauto. }
  cbn [lookup list_lookup isNumber]. rewrite !all_digits_showZ, !parseDec_showZ by lia.
  rewrite !(validCode_in_range _ lo hi) by (done || lia). simpl.
  by destruct (hi <? lo) eqn:E; bool_hyps; [lia|].
Qed.

(** Parsing what [rangeToken] prints gives the range back. *)
Lemma parseToken_rangeToken r : code_range r -> parseToken (rangeToken r) = Some r.
Proof.
  intros Hr. destruct r as [lo hi]. unfold rangeToken. cbn [start end_].
  destruct (lo =? hi) eqn:E; bool_hyps.
  - subst hi. pose proof Hr as (? & ? & ?). cbn [start end_] in *.
    assert (Forall (fun c => is_digit c = true) (showZ lo)) as Dlo by (apply showZ_digits; lia).
    unfold parseToken. rewrite cleaned_id.
    2:{ eapply Forall_impl; [eassumption|]. intros c ?. by apply digit_not_space. }
    replace (truthy _) with true by (pose proof (showZ_not_nil lo); by destruct (showZ lo)).
    rewrite no_dash_includes by (by apply digits_no_dash). cbn [negb isNumber].
    rewrite all_digits_showZ, parseDec_showZ by lia.
    by rewrite (validCode_in_range _ lo lo) by (done || lia).
  - rewrite <- (app_nil_r (showZ hi)). apply parseToken_bounds; [done|constructor|by left].
Qed.

(** ** The parser *)

Lemma parseSegments_spec segs :
  parseSegments segs =
  (omap parseToken segs, filter (fun s => parseToken s = None) segs).
Proof.
  induction segs as [|s segs IH]; simpl; [done|]. rewrite IH.
  destruct (parseToken s) eqn:E.
  - rewrite filter_cons_False; [done|by rewrite E].
  - rewrite filter_cons_True; [done|done].
Qed.

Lemma parseSegments_tokens rs :
  Forall code_range rs -> parseSegments (map rangeToken rs) = (rs, []).
Proof.
  induction 1 as [|r rs Hr _ IH]; simpl; [done|]. rewrite IH. by rewrite parseToken_rangeToken.
Qed.

Lemma parseHttpStatusCodeRules_unfold input :
  parseHttpStatusCodeRules input =
  let raw := trim (input ?? []) in
  let rs := omap parseToken (segmentsOf raw) in
  let bad := filter (fun s => parseToken s = None) (segmentsOf raw) in
  match bad with
  | [] => let merged := mergeRanges rs in
          mkParsed true merged (map rangeToken merged)
            (join (js ",") (map rangeToken merged)) []
  | _ => mkParsed false [] [] raw bad
  end.
Proof.
  unfold parseHttpStatusCodeRules. cbv zeta. destruct (trim _) as [|c raw]; [done|].
  rewrite parseSegments_spec. cbn [length Nat.eqb]. by destruct (filter _ _).
Qed.

Lemma segments_of_tokens rs :
  Forall code_range rs -> segmentsOf (join (js ",") (map rangeToken rs)) = map rangeToken rs.
Proof.
  intros H. destruct rs as [|r0 rs0] eqn:Ers; [done|]. rewrite <- Ers in *.
  assert (Forall (fun t => Forall token_char t /\ t <> []) (map rangeToken rs)) as Ht.
  { rewrite Forall_map. eapply Forall_impl; [exact H|]. intros r Hr.
    split; [by apply rangeToken_chars|apply rangeToken_not_nil]. }
  unfold segmentsOf, sanitize. rewrite replace_class_id.
  2:{ rewrite Forall_forall. intros c [Hc|(t & Ht' & Hc)]%join_elems.
      - by apply list_elem_of_singleton in Hc as ->.
      - rewrite Forall_forall in Ht. destruct (Ht t Ht') as [Hcs _]. rewrite Forall_forall in Hcs.
        apply Z.eqb_neq. destruct (token_char_plain c (Hcs c Hc)) as (_ & _ & ?). done. }
  change (js ",") with [44]. rewrite split_join.
  - rewrite (map_ext_in _ (fun t => t)), map_id.
    + apply filter_truthy_all. eapply Forall_impl; [exact Ht|]. by intros t [_ ?].
    + intros t Hin%list_elem_of_In. apply trim_no_space. rewrite Forall_forall in Ht.
      destruct (Ht t Hin) as [Hcs _]. eapply Forall_impl; [exact Hcs|].
      intros c Hc. by apply token_char_plain.
  - by rewrite Ers.
  - eapply Forall_impl; [exact Ht|]. intros t [Hcs _] Hin. rewrite Forall_forall in Hcs.
    by destruct (token_char_plain 44 (Hcs _ Hin)) as (_ & ? & _).
Qed.

Lemma omap_parseToken_code_range segs : Forall code_range (omap parseToken segs).
Proof.
  apply Forall_forall. intros r (s & _ & Hs)%list_elem_of_omap. by eapply parseToken_code_range.
Qed.

Lemma code_range_wf rs : Forall code_range rs -> Forall wf_range rs.
Proof. intros H. eapply Forall_impl; [exact H|]. by intros r (_ & ? & _). Qed.

Lemma canonical_code_range rs rs' :
  canonical rs -> (forall c, covers rs c <-> covers rs' c) ->
  Forall code_range rs' -> Forall code_range rs.
Proof.
  intros [Hw _] Hc Hr. rewrite Forall_forall in Hw, Hr |- *. intros r Hin.
  specialize (Hw r Hin). unfold wf_range in Hw.
  assert (forall c, in_range c r -> 100 <= c <= 599) as Hb.
  { intros c Hin'. assert (covers rs' c) as (r' & Hr' & ?) by (apply Hc; by exists r).
    destruct (Hr r' Hr') as (? & ? & ?). unfold in_range in *. lia. }
  pose proof (Hb (start r)). pose proof (Hb (end_ r)). unfold in_range, code_range in *. lia.
Qed.

(** ** Properties *)

(** C5: [mergeRanges] returns a canonical list (ranges in increasing order, with
    an uncovered code between consecutive ones) that covers exactly the codes
    its argument covers. *)
Theorem mergeRanges_correct rs :
  Forall wf_range rs ->
  canonical (mergeRanges rs) /\ forall c, covers (mergeRanges rs) c <-> covers rs c.
Proof. apply mergeRanges_spec. Qed.

Definition sample_ranges : list StatusCodeRange :=
  [mkRange 500 505; mkRange 504 504; mkRange 401 401; mkRange 403 403; mkRange 402 402].

Lemma mergeRanges_correct_witness :
  mergeRanges sample_ranges = [mkRange 401 403; mkRange 500 505] /\
  canonical (mergeRanges sample_ranges).
Proof.
  split; [vm_compute; reflexivity|].
  apply (mergeRanges_correct sample_ranges). repeat constructor; by vm_compute.
Defined.

(** Merging is a normal form: two rule lists give the same merged ranges
    exactly when they select the same status codes. *)
Theorem mergeRanges_normal_form rs1 rs2 :
  Forall wf_range rs1 -> Forall wf_range rs2 ->
  mergeRanges rs1 = mergeRanges rs2 <-> forall c, covers rs1 c <-> covers rs2 c.
Proof.
  intros H1 H2. destruct (mergeRanges_spec rs1 H1) as [C1 E1], (mergeRanges_spec rs2 H2) as [C2 E2].
  split.
  - intros E c. by rewrite <- E1, <- E2, E.
  - intros E. apply canonical_unique; [done..|]. intros c. by rewrite E1, E2.
Qed.

Lemma mergeRanges_normal_form_witness :
  mergeRanges sample_ranges = [mkRange 401 403; mkRange 500 505] /\
  forall c, covers sample_ranges c <-> covers [mkRange 401 403; mkRange 500 505] c.
Proof.
  split; [vm_compute; reflexivity|].
  apply (mergeRanges_normal_form sample_ranges [mkRange 401 403; mkRange 500 505]).
  - repeat constructor; by vm_compute.
  - repeat constructor; by vm_compute.
  - vm_compute. reflexivity.
Defined.

(** The text the parser normalises to is a fixed point: parsing it again
    gives the same ranges, tokens and text. *)
Theorem parse_normalized_fixpoint input :
  ok (parseHttpStatusCodeRules input) = true ->
  parseHttpStatusCodeRules (Some (normalized (parseHttpStatusCodeRules input)))
  = parseHttpStatusCodeRules input.
Proof.
  intros Hok. rewrite !parseHttpStatusCodeRules_unfold in *. cbv zeta in *.
  destruct (filter _ (segmentsOf (trim (input ?? [])))) as [|b bad]; [|done].
  set (rs := omap parseToken _). cbn [normalized].
  assert (canonical (mergeRanges rs) /\ Forall code_range (mergeRanges rs)) as [Hc Hr].
  { pose proof (omap_parseToken_code_range (segmentsOf (trim (input ?? [])))) as Hcr.
    destruct (mergeRanges_spec rs (code_range_wf _ Hcr)) as [H1 H2].
    split; [done|]. by apply (canonical_code_range _ rs). }
  generalize dependent (mergeRanges rs). clear Hok. intros m Hc Hr.
  rewrite trim_no_space.
  2:{ apply Forall_forall. intros c [->%list_elem_of_singleton|(t & Ht & Hin)]%join_elems; [done|].
      apply list_elem_of_fmap in Ht as (r & -> & Hrm). rewrite Forall_forall in Hr.
      pose proof (rangeToken_chars r (Hr r Hrm)) as Hcs. rewrite Forall_forall in Hcs.
      by apply token_char_plain, Hcs. }
  rewrite segments_of_tokens by done.
  pose proof (parseSegments_tokens m Hr) as Hp. rewrite parseSegments_spec in Hp.
  injection Hp as -> ->. by rewrite mergeRanges_canonical_id.
Qed.

Lemma parse_normalized_fixpoint_witness :
  parseHttpStatusCodeRules (Some (js "401-403,500-505"))
  = parseHttpStatusCodeRules (Some (js " 500-505, 504,401,403 ,402")).
Proof.
  apply (parse_normalized_fixpoint (Some (js " 500-505, 504,401,403 ,402"))).
  vm_compute. reflexivity.
Defined.

(** When the parser accepts, the ranges it returns are canonical, within
    100..599, and select exactly the codes of the segments' tokens. *)
Theorem parse_accepts_meaning input :
  ok (parseHttpStatusCodeRules input) = true ->
  let rs := ranges (parseHttpStatusCodeRules input) in
  canonical rs /\ Forall code_range rs /\
  forall c, covers rs c <->
    exists s r, s ∈ segmentsOf (trim (input ?? [])) /\ parseToken s = Some r /\ in_range c r.
Proof.
  rewrite !parseHttpStatusCodeRules_unfold. cbv zeta.
  destruct (filter _ _) as [|b bad]; [|done]. cbn [ranges]. intros _.
  set (rs := omap parseToken _).
  pose proof (omap_parseToken_code_range (segmentsOf (trim (input ?? [])))) as Hcr.
  destruct (mergeRanges_spec rs (code_range_wf _ Hcr)) as [H1 H2].
  split_and!; [done|by apply (canonical_code_range _ rs)|]. intros c. rewrite H2.
  unfold covers, rs. setoid_rewrite list_elem_of_omap. naive_solver.
Qed.

Lemma parse_accepts_meaning_witness :
  covers (ranges (parseHttpStatusCodeRules (Some (js "400" ++ [65292] ++ js "500-599")))) 503.
Proof.
  apply (parse_accepts_meaning (Some (js "400" ++ [65292] ++ js "500-599"))); [vm_compute; reflexivity|].
  exists (js "500-599"), (mkRange 500 599).
  split_and!; [|vm_compute; reflexivity|by vm_compute].
  apply (bool_decide_unpack _). vm_compute. exact I.
Defined.

(** The parser rejects exactly when a segment is not a valid token; it then
    reports every such segment in order, returns no range and keeps the
    trimmed input as its text. *)
Theorem parse_reports_invalid input :
  let raw := trim (input ?? []) in
  let bad := filter (fun s => parseToken s = None) (segmentsOf raw) in
  let p := parseHttpStatusCodeRules input in
  invalidTokens p = bad /\ (ok p = true <-> bad = []) /\
  (ok p = false -> ranges p = [] /\ tokens p = [] /\ normalized p = raw).
Proof.
  cbv zeta. rewrite !parseHttpStatusCodeRules_unfold. cbv zeta.
  by destruct (filter _ _).
Qed.

(** A range token is accepted with its first two bounds whatever follows a
    second dash, so "100-200-300" is read as 100-200. *)
Theorem parseToken_drops_extra_bounds lo hi extra :
  code_range (mkRange lo hi) -> Forall (fun c => is_space c = false) extra ->
  parseToken (showZ lo ++ js "-" ++ showZ hi ++ js "-" ++ extra) = Some (mkRange lo hi).
Proof.
  intros Hr He. apply (parseToken_bounds lo hi (js "-" ++ extra)); [done| |right; by exists extra].
  by constructor.
Qed.

Lemma parseToken_drops_extra_bounds_witness :
  parseToken (js "100-200-300") = Some (mkRange 100 200).
Proof.
  apply (parseToken_drops_extra_bounds 100 200 (js "300")).
  - repeat split; by vm_compute.
  - repeat constructor.
Defined.

End StatusCodeRules.
