(* ===== verification/Json.v ===== *)
(** * JSON

    [JSON.parse] of ECMA-262 on UTF-16 text, as an executable recursive
    descent parser, with the object semantics the sources rely on: a repeated
    key keeps its first position and its last value, and [Object.entries]
    lists the integer keys first, in increasing order.

    A number literal is kept as the decimal it denotes, [mant * 10 ^ expo],
    where JavaScript rounds it to the nearest double; the sources only compare
    such numbers with small integers or copy them. *)

From S2P Require Import Prelude JsString JsCollections.

Module Json.

Record jnum := mkNum { mant : Z; expo : Z }.

#[export] Instance jnum_eq_dec : EqDecision jnum.
Proof. solve_decision. Defined.

Inductive json :=
| JNull
| JBool (b : bool)
| JNum (n : jnum)
| JStr (s : jsstr)
| JArr (l : list json)
| JObj (fields : list (jsstr * json)).

(** ** Lexical grammar *)

Definition is_ws (c : Z) : bool := bool_decide (c ∈ [9; 10; 13; 32]).

Fixpoint skip_ws (s : jsstr) : jsstr :=
  match s with c :: s' => if is_ws c then skip_ws s' else s | [] => [] end.

(** Consume a literal. *)
Definition expect (lit s : jsstr) : option jsstr :=
  if startsWith s lit then Some (drop (length lit) s) else None.

Definition hex_value (c : Z) : option Z :=
  if is_digit c then Some (c - 48)
  else if (97 <=? c) && (c <=? 102) then Some (c - 87)
  else if (65 <=? c) && (c <=? 70) then Some (c - 55)
  else None.

Definition hex4 (s : jsstr) : option (Z * jsstr) :=
  match s with
  | a :: b :: c :: d :: s' =>
      match hex_value a, hex_value b, hex_value c, hex_value d with
      | Some a, Some b, Some c, Some d => Some (((a * 16 + b) * 16 + c) * 16 + d, s')
      | _, _, _, _ => None
      end
  | _ => None
  end.

(** The character an escape denotes. *)
Definition simple_escape (c : Z) : option Z :=
  if c =? 34 then Some 34 else if c =? 92 then Some 92 else if c =? 47 then Some 47
  else if c =? 98 then Some 8 else if c =? 102 then Some 12 else if c =? 110 then Some 10
  else if c =? 114 then Some 13 else if c =? 116 then Some 9 else None.

(** The rest of a string literal after its opening quote. *)
Fixpoint parse_chars (fuel : nat) (s : jsstr) : option (jsstr * jsstr) :=
  match fuel with
  | O => None
  | S fuel' =>
      match s with
      | [] => None
      | c :: s' =>
          if c =? 34 then Some ([], s')
          else if c <? 32 then None
          else if c =? 92 then
            match s' with
            | [] => None
            | e :: s'' =>
                if e =? 117 then
                  match hex4 s'' with
                  | Some (u, s3) => prod_map (cons u) id <$> parse_chars fuel' s3
                  | None => None
                  end
                else
                  match simple_escape e with
                  | Some u => prod_map (cons u) id <$> parse_chars fuel' s''
                  | None => None
                  end
            end
          else prod_map (cons c) id <$> parse_chars fuel' s'
      end
  end.

Fixpoint take_digits (s : jsstr) : jsstr * jsstr :=
  match s with
  | c :: s' => if is_digit c then prod_map (cons c) id (take_digits s') else ([], s)
  | [] => ([], [])
  end.

(** The rest of [s] after the character [c], if [s] starts with it. *)
Definition accept (c : Z) (s : jsstr) : option jsstr :=
  match s with x :: r => if x =? c then Some r else None | [] => None end.

(** [frac?]: the digits after the point. *)
Definition parse_frac (s : jsstr) : option (jsstr * jsstr) :=
  match accept 46 s with
  | Some s' => let '(fr, s'') := take_digits s' in if truthy fr then Some (fr, s'') else None
  | None => Some ([], s)
  end.

(** [exp?] *)
Definition parse_exp (s : jsstr) : option (Z * jsstr) :=
  match s with
  | c :: s' =>
      if (c =? 101) || (c =? 69) then
        let '(sg, s'') :=
          match accept 45 s', accept 43 s' with
          | Some r, _ => (-1, r)
          | None, Some r => (1, r)
          | None, None => (1, s')
          end in
        let '(ds, s3) := take_digits s'' in
        if truthy ds then Some (sg * parseDec ds, s3) else None
      else Some (0, s)
  | [] => Some (0, s)
  end.

(** [int frac? exp?] after an optional sign. *)
Definition parse_number (s : jsstr) : option (jnum * jsstr) :=
  let '(neg, s) := match accept 45 s with Some s' => (true, s') | None => (false, s) end in
  let '(int, s) := take_digits s in
  if negb (truthy int) || ((48 =? default 0 (head int)) && (1 <? length int)%nat) then None
  else
    match parse_frac s with
    | None => None
    | Some (frac, s) =>
        match parse_exp s with
        | None => None
        | Some (e, s) =>
            let m := parseDec (int ++ frac) in
            Some (mkNum (if neg then - m else m) (e - Z.of_nat (length frac)), s)
        end
    end.

(** ** Values *)

(** Reading an object literal: [CreateDataProperty] for each member. *)
Definition obj_of_members (ms : list (jsstr * json)) : list (jsstr * json) :=
  fold_left (fun o '(k, v) => map_set o k v) ms [].

Fixpoint parse_value (fuel : nat) (s : jsstr) : option (json * jsstr) :=
  match fuel with
  | O => None
  | S fuel' =>
      match s with
      | [] => None
      | c :: s' =>
          if c =? 123 then
            match accept 125 (skip_ws s') with
            | Some r => Some (JObj [], r)
            | None =>
                prod_map (fun ms => JObj (obj_of_members ms)) id <$> parse_members fuel' (skip_ws s')
            end
          else if c =? 91 then
            match accept 93 (skip_ws s') with
            | Some r => Some (JArr [], r)
            | None => prod_map JArr id <$> parse_elements fuel' (skip_ws s')
            end
          else if c =? 34 then prod_map JStr id <$> parse_chars (length s) s'
          else if c =? 116 then (fun r => (JBool true, r)) <$> expect (js "true") s
          else if c =? 102 then (fun r => (JBool false, r)) <$> expect (js "false") s
          else if c =? 110 then (fun r => (JNull, r)) <$> expect (js "null") s
          else prod_map JNum id <$> parse_number s
      end
  end
with parse_elements (fuel : nat) (s : jsstr) : option (list json * jsstr) :=
  match fuel with
  | O => None
  | S fuel' =>
      match parse_value fuel' (skip_ws s) with
      | None => None
      | Some (v, r) =>
          match accept 93 (skip_ws r), accept 44 (skip_ws r) with
          | Some r', _ => Some ([v], r')
          | None, Some r' => prod_map (cons v) id <$> parse_elements fuel' r'
          | None, None => None
          end
      end
  end
with parse_members (fuel : nat) (s : jsstr) : option (list (jsstr * json) * jsstr) :=
  match fuel with
  | O => None
  | S fuel' =>
      match accept 34 (skip_ws s) with
      | None => None
      | Some s' =>
          match parse_chars (length s) s' with
          | None => None
          | Some (k, r) =>
              match accept 58 (skip_ws r) with
              | None => None
              | Some r' =>
                  match parse_value fuel' (skip_ws r') with
                  | None => None
                  | Some (v, r2) =>
                      match accept 125 (skip_ws r2), accept 44 (skip_ws r2) with
                      | Some r3, _ => Some ([(k, v)], r3)
                      | None, Some r3 => prod_map (cons (k, v)) id <$> parse_members fuel' r3
                      | None, None => None
                      end
                  end
              end
          end
      end
  end.

(** Every call consumes a character or goes one level down before it does, so
    twice the length is enough fuel. *)
Definition json_fuel (s : jsstr) : nat := 2 * S (length s).

(** [JSON.parse(s)]: [None] is the SyntaxError. *)
Definition JSON_parse (s : jsstr) : option json :=
  match parse_value (json_fuel s) (skip_ws s) with
  | Some (v, r) => match skip_ws r with [] => Some v | _ => None end
  | None => None
  end.

(** ** Objects *)

(** [o[k]]: [None] is [undefined]. *)
Definition prop (v : json) (k : jsstr) : option json :=
  match v with JObj fields => map_get fields k | _ => None end.

(** A canonical array index, which property enumeration lists first. *)
Definition is_index_key (k : jsstr) : bool :=
  all_digits k && bool_decide (showZ (parseDec k) = k) && (parseDec k <? 4294967295).

(** [Object.entries(o)] *)
Definition Object_entries {A} (fields : list (jsstr * A)) : list (jsstr * A) :=
  js_sort (fun a b => parseDec a.1 - parseDec b.1) (List.filter (fun kv => is_index_key kv.1) fields)
  ++ List.filter (fun kv => negb (is_index_key kv.1)) fields.

Definition Object_keys {A} (fields : list (jsstr * A)) : list jsstr := (Object_entries fields).*1.
Definition Object_values {A} (fields : list (jsstr * A)) : list A := (Object_entries fields).*2.

(** Truthiness of a parsed value. *)
Definition json_truthy (v : json) : bool :=
  match v with
  | JNull => false
  | JBool b => b
  | JNum n => negb (mant n =? 0)
  | JStr s => truthy s
  | JArr _ | JObj _ => true
  end.

(** The integer a number denotes, if it denotes one: [Number.isInteger]. *)
Definition num_integer (n : jnum) : option Z :=
  if 0 <=? expo n then Some (mant n * 10 ^ expo n)
  else if mant n mod 10 ^ (- expo n) =? 0 then Some (mant n / 10 ^ (- expo n)) else None.

(** The guard [!parsed || typeof parsed !== 'object' || Array.isArray(parsed)]
    negated: the fields of a plain object. *)
Definition as_plain_object (v : json) : option (list (jsstr * json)) :=
  match v with JObj fields => Some fields | _ => None end.

(** ** Facts *)

Lemma js_sort_values_perm {A} (fields : list (jsstr * A)) : Object_entries fields ≡ₚ fields.
Proof.
  unfold Object_entries. rewrite js_sort_perm.
  induction fields as [|kv fields IH]; simpl; [done|].
  destruct (is_index_key kv.1); simpl; rewrite <- IH at 3; [done|].
  by rewrite Permutation_middle.
Qed.

Lemma Object_entries_elem {A} (fields : list (jsstr * A)) kv : kv ∈ Object_entries fields <-> kv ∈ fields.
Proof. by rewrite js_sort_values_perm. Qed.

Lemma Object_keys_elem {A} (fields : list (jsstr * A)) k : k ∈ Object_keys fields <-> k ∈ fields.*1.
Proof. unfold Object_keys. by rewrite js_sort_values_perm. Qed.

Lemma Object_values_elem {A} (fields : list (jsstr * A)) v : v ∈ Object_values fields <-> v ∈ fields.*2.
Proof. unfold Object_values. by rewrite js_sort_values_perm. Qed.

Lemma obj_of_members_nodup ms : NoDup (map_keys (obj_of_members ms)).
Proof.
  unfold obj_of_members. apply fold_left_cons_inv; [constructor|].
  intros o [k v] _ H. by apply map_keys_set_nodup.
Qed.

(** A literal of JSON text with its double quotes written as single ones. *)
Definition jq (s : string) : jsstr := map (fun c => if c =? 39 then 34 else c) (js s).

Example parse_sample :
  JSON_parse (jq "{ 'a': [1, -2.50e1, true], '504': null, 'a': '\u0041' } ")
  = Some (JObj [(js "a", JStr (js "A")); (js "504", JNull)]).
Proof. vm_compute. reflexivity. Qed.

End Json.
