(* ===== verification/JsonNumber.v ===== *)
(** * Numbers in JSON text

    [Number::toString] of ECMA-262 on the decimals of [Json.v] and what
    [JSON.parse] reads from it: the same number, with the mantissa and the
    exponent that its shortest text has ([renum]). *)

From S2P Require Import Prelude JsString JsCollections Json.

Module JsonNumber.
Import Json.

(** The digits without their trailing zeros. *)
Fixpoint strip_zeros (s : jsstr) : jsstr :=
  match s with
  | [] => []
  | c :: s' => let r := strip_zeros s' in if (c =? 48) && negb (truthy r) then [] else c :: r
  end.

Definition zeros (n : Z) : jsstr := replicate (Z.to_nat n) 48.

(** Number::toString of ECMA-262, on the decimal [mant * 10 ^ expo]. *)
Definition num_text (n : jnum) : jsstr :=
  if mant n =? 0 then js "0"
  else
    let digits := showZ (Z.abs (mant n)) in
    let s := strip_zeros digits in
    let k := Z.of_nat (length s) in
    let e := Z.of_nat (length digits) + expo n in
    (if mant n <? 0 then [45] else []) ++
    (if (k <=? e) && (e <=? 21) then s ++ zeros (e - k)
     else if (0 <? e) && (e <=? 21) then take (Z.to_nat e) s ++ 46 :: drop (Z.to_nat e) s
     else if (-6 <? e) && (e <=? 0) then js "0." ++ zeros (- e) ++ s
     else take 1 s ++ (if k =? 1 then [] else 46 :: drop 1 s) ++ 101 ::
          (if e - 1 <? 0 then 45 else 43) :: showZ (Z.abs (e - 1))).

Definition digits (s : jsstr) : Prop := Forall (fun c => is_digit c = true) s.
Definition no_digit (s : jsstr) : Prop := match s with c :: _ => is_digit c = false | [] => True end.

Lemma take_digits_split s ds r : take_digits s = (ds, r) -> s = ds ++ r /\ digits ds /\ no_digit r.
Proof.
  revert ds. induction s as [|c s IH]; intros ds; cbn [take_digits]; [intros [= <- <-]; by repeat constructor|].
  destruct (is_digit c) eqn:E.
  - destruct (take_digits s) as [ds' r']. cbn. intros [= <- <-].
    destruct (IH ds' eq_refl) as (-> & Hd & Hr). split_and!; [done|by constructor|done].
  - intros [= <- <-]. split_and!; [done|constructor|done].
Qed.

Lemma take_digits_prefix ds r : digits ds -> no_digit r -> take_digits (ds ++ r) = (ds, r).
Proof.
  induction 1 as [|c ds Hc _ IH]; intros Hr; cbn [app take_digits].
  - destruct r as [|c r]; [done|]. cbn [take_digits]. cbn in Hr. by rewrite Hr.
  - rewrite Hc, IH by done. done.
Qed.

(** ** Numbers *)

(** What may follow a number. *)
Definition stops (rest : jsstr) : Prop :=
  match rest with [] => True | c :: _ => is_digit c = false /\ c <> 46 /\ c <> 101 /\ c <> 69 end.

Lemma parse_frac_stops rest : stops rest -> parse_frac rest = Some ([], rest).
Proof.
  destruct rest as [|c rest]; [done|]. intros (_ & H & _). unfold parse_frac, accept.
  by replace (c =? 46) with false by lia.
Qed.

Lemma parse_exp_stops rest : stops rest -> parse_exp rest = Some (0, rest).
Proof.
  destruct rest as [|c rest]; [done|]. intros (_ & _ & H1 & H2). unfold parse_exp.
  by replace ((c =? 101) || (c =? 69)) with false by lia.
Qed.

Lemma dec_digits_head fuel n :
  0 < n -> n < 2 ^ Z.of_nat fuel -> head (dec_digits fuel n []) <> Some 48.
Proof.
  revert n. induction fuel as [|fuel IH]; intros n H0 H1; cbn [dec_digits]; [done|].
  pose proof (Z.mod_pos_bound n 10 ltac:(lia)). pose proof (Z.div_mod n 10 ltac:(lia)).
  destruct (n / 10 =? 0) eqn:E; bool_hyps; [cbn; intros [= ?]; lia|].
  rewrite dec_digits_app. specialize (IH (n / 10)).
  rewrite Nat2Z.inj_succ, Z.pow_succ_r in H1 by lia.
  assert (0 < n / 10) as Hp by (pose proof (Z.div_pos n 10); lia).
  specialize (IH Hp ltac:(apply Z.div_lt_upper_bound; lia)).
  destruct (dec_digits fuel (n / 10) []) as [|c s] eqn:Ed; [|done].
  destruct fuel; [simpl in H1; lia|]. cbn [dec_digits] in Ed. revert Ed. case_match; [done|].
  rewrite dec_digits_app. by destruct (dec_digits _ _ _).
Qed.

Lemma showZ_head n : 0 < n -> head (showZ n) <> Some 48.
Proof.
  intros H. unfold showZ. replace (n <? 0) with false by lia. apply dec_digits_head; [done|].
  apply log2_fuel. lia.
Qed.

(** ** Digits without leading zeros *)

Definition plain (s : jsstr) : Prop := digits s /\ head s <> Some 48.

Lemma digit_value c : is_digit c = true -> 0 <= c - 48 < 10.
Proof. unfold is_digit. intros. bool_hyps. lia. Qed.

Lemma plain_snoc s c : plain (s ++ [c]) -> plain s /\ is_digit c = true /\ (s = [] -> c <> 48).
Proof.
  intros [[Hd Hc]%Forall_app Hh]. inversion_clear Hc as [|? ? Hc' _].
  destruct s as [|x s]; [|by split_and!]. split_and!; [by split|done|]. intros _ ->. done.
Qed.

Lemma parseDec_pos s : plain s -> s <> [] -> 0 < parseDec s.
Proof.
  induction s as [|c s IH] using rev_ind; intros Hp; [done|]. intros _.
  apply plain_snoc in Hp as (Hp & Hc%digit_value & Hz). rewrite parseDec_snoc.
  destruct s as [|x s]; [specialize (Hz eq_refl); cbn; lia|]. specialize (IH Hp ltac:(done)). lia.
Qed.

(** The digits of a number are unique. *)
Lemma parseDec_inj s s' : plain s -> plain s' -> parseDec s = parseDec s' -> s = s'.
Proof.
  revert s'. induction s as [|c s IH] using rev_ind; intros s' Hs Hs' E.
  - destruct (decide (s' = [])) as [->|Hne]; [done|]. pose proof (parseDec_pos s' Hs' Hne).
    change (parseDec []) with 0 in E. lia.
  - pose proof (parseDec_pos (s ++ [c]) Hs ltac:(by destruct s)) as Hpos.
    destruct s' as [|d s' _] using rev_ind; [change (parseDec []) with 0 in E; lia|].
    rewrite !parseDec_snoc in E. apply plain_snoc in Hs as (Hs & Hc%digit_value & _).
    apply plain_snoc in Hs' as (Hs' & Hd%digit_value & _).
    rewrite (IH s') by (done || lia). by replace d with c by lia.
Qed.

Lemma showZ_plain n : 0 < n -> plain (showZ n).
Proof. split; [by apply showZ_digits; lia|by apply showZ_head]. Qed.

Lemma showZ_parseDec s : plain s -> s <> [] -> showZ (parseDec s) = s.
Proof.
  intros Hs Hne. pose proof (parseDec_pos s Hs Hne). apply parseDec_inj; [by apply showZ_plain|done|].
  by rewrite parseDec_showZ by lia.
Qed.

Lemma parseDec_zeros s k : 0 <= k -> parseDec (s ++ zeros k) = parseDec s * 10 ^ k.
Proof.
  unfold zeros. intros Hk. rewrite <- (Z2Nat.id k) at 2 by done. generalize (Z.to_nat k) as j. clear k Hk.
  induction j as [|j IH]; [rewrite app_nil_r; cbn; lia|].
  rewrite replicate_S_end, app_assoc, parseDec_snoc, IH, Nat2Z.inj_succ, Z.pow_succ_r by lia. lia.
Qed.

Lemma parseDec_leading k s : parseDec (zeros k ++ s) = parseDec s.
Proof.
  unfold zeros. induction (Z.to_nat k) as [|j IH]; [done|]. cbn [replicate app]. unfold parseDec in *.
  cbn [fold_left]. exact IH.
Qed.

Lemma plain_zeros s k : plain s -> s <> [] -> plain (s ++ zeros k).
Proof.
  intros [Hd Hh] Hne. split; [apply Forall_app; split; [done|by apply Forall_replicate]|].
  by destruct s.
Qed.

Lemma strip_zeros_app s : exists k, s = strip_zeros s ++ replicate k 48.
Proof.
  induction s as [|c s [k IH]]; [by exists 0%nat|]. cbn [strip_zeros].
  destruct ((c =? 48) && negb (truthy (strip_zeros s))) eqn:E.
  - bool_hyps. subst c. apply negb_true_iff in H0 as Hn. exists (S k). cbn [app replicate]. f_equal.
    rewrite IH at 1. by destruct (strip_zeros s).
  - exists k. cbn [app]. by rewrite <- IH.
Qed.

Lemma strip_zeros_snoc s : strip_zeros (s ++ [48]) = strip_zeros s.
Proof. induction s as [|c s IH]; [done|]. cbn [app strip_zeros]. by rewrite IH. Qed.

Lemma strip_zeros_zeros s k : strip_zeros (s ++ zeros k) = strip_zeros s.
Proof.
  unfold zeros. induction (Z.to_nat k) as [|j IH]; [by rewrite app_nil_r|].
  by rewrite replicate_S_end, app_assoc, strip_zeros_snoc.
Qed.

Lemma strip_zeros_idemp s : strip_zeros (strip_zeros s) = strip_zeros s.
Proof.
  destruct (strip_zeros_app s) as [k Hk]. rewrite Hk at 2.
  pose proof (strip_zeros_zeros (strip_zeros s) (Z.of_nat k)) as H. unfold zeros in H.
  by rewrite Nat2Z.id in H.
Qed.

Lemma strip_zeros_plain s : plain s -> s <> [] -> plain (strip_zeros s) /\ strip_zeros s <> [].
Proof.
  intros [Hd Hh] Hne. destruct (strip_zeros_app s) as [k Hk].
  assert (strip_zeros s <> []) as Hn.
  { intros E. rewrite E in Hk. destruct k; [done|]. rewrite Hk in Hh. done. }
  split; [|done]. split.
  - unfold digits in Hd. rewrite Hk in Hd. by apply Forall_app in Hd as [Hd _].
  - intros E. apply Hh. rewrite Hk. by destruct (strip_zeros s).
Qed.

(** ** Reading a number *)

Definition sign_text (neg : bool) : jsstr := if neg then [45] else [].
Definition frac_text (fr : jsstr) : jsstr := if truthy fr then 46 :: fr else [].
Definition exp_text (x : option Z) : jsstr :=
  match x with Some e => 101 :: (if e <? 0 then 45 else 43) :: showZ (Z.abs e) | None => [] end.

Lemma stops_no_digit r : stops r -> no_digit r.
Proof. destruct r; [done|]. by intros [? _]. Qed.

Lemma parse_frac_text fr r :
  digits fr -> no_digit r -> head r <> Some 46 -> parse_frac (frac_text fr ++ r) = Some (fr, r).
Proof.
  intros Hd Hn Hh. unfold frac_text, parse_frac. destruct (truthy fr) eqn:E.
  - cbn [app accept]. change (46 =? 46) with true. cbn iota. by rewrite take_digits_prefix, E.
  - destruct fr; [|done]. cbn [app]. destruct r as [|c r]; [done|]. cbn [accept].
    destruct (c =? 46) eqn:Ec; bool_hyps; [by subst|done].
Qed.

Lemma parse_exp_text x r : stops r -> parse_exp (exp_text x ++ r) = Some (default 0 x, r).
Proof.
  intros Hr. destruct x as [e|]; [|by apply parse_exp_stops]. cbn [exp_text app parse_exp].
  change ((101 =? 101) || (101 =? 69)) with true. cbn iota.
  assert (truthy (showZ (Z.abs e)) = true) as Ht
    by (pose proof (showZ_not_nil (Z.abs e)); by destruct (showZ _)).
  destruct (e <? 0) eqn:E; bool_hyps; cbn [accept Z.eqb Pos.eqb];
    rewrite take_digits_prefix by (by apply stops_no_digit || by apply showZ_digits; lia);
    rewrite Ht, parseDec_showZ by lia; cbn [default]; unfold id; do 2 f_equal; lia.
Qed.

Lemma exp_text_head x r : stops r -> no_digit (exp_text x ++ r) /\ head (exp_text x ++ r) <> Some 46.
Proof.
  intros Hr. destruct x as [e|]; [by split|]. cbn [exp_text app].
  destruct r as [|c r]; [done|]. destruct Hr as (? & ? & _). split; [done|]. intros [= ->]. done.
Qed.

(** The parts of a number literal. *)
Lemma parse_number_parts neg int fr x rest :
  digits int -> int <> [] -> (head int = Some 48 -> int = [48]) -> digits fr -> stops rest ->
  parse_number (sign_text neg ++ int ++ frac_text fr ++ exp_text x ++ rest)
  = Some (mkNum (if neg then - parseDec (int ++ fr) else parseDec (int ++ fr))
            (default 0 x - Z.of_nat (length fr)), rest).
Proof.
  intros Hi Hne Hz Hf Hr. unfold parse_number. set (tail := int ++ _).
  assert (match accept 45 (sign_text neg ++ tail) with Some s' => (true, s') | None => (false, sign_text neg ++ tail) end
          = (neg, tail)) as ->.
  { destruct neg; [done|]. subst tail. destruct int as [|c int]; [done|]. inversion_clear Hi as [|? ? Hc _].
    unfold is_digit in Hc. cbn [sign_text app accept]. by replace (c =? 45) with false by lia. }
  subst tail. destruct (exp_text_head x rest Hr) as [He1 He2].
  assert (no_digit (frac_text fr ++ exp_text x ++ rest)) as Hn by (unfold frac_text; by case_match).
  rewrite take_digits_prefix by done.
  assert (negb (truthy int) || ((48 =? default 0 (head int)) && (1 <? length int)%nat) = false) as ->.
  { destruct int as [|c int]; [done|]. cbn [truthy negb orb head default]. unfold id.
    destruct (48 =? c) eqn:E; [|done]. apply Z.eqb_eq in E. subst c. by specialize (Hz eq_refl) as [= ->]. }
  by rewrite parse_frac_text, parse_exp_text by done.
Qed.

(** ** Printing and reading *)

(** The mantissa and the exponent of the text of a number. *)
Definition renum (n : jnum) : jnum :=
  if mant n =? 0 then mkNum 0 0
  else
    let digits := showZ (Z.abs (mant n)) in
    let s := strip_zeros digits in
    let k := Z.of_nat (length s) in
    let e := Z.of_nat (length digits) + expo n in
    if (k <=? e) && (e <=? 21) then mkNum (Z.sgn (mant n) * (parseDec s * 10 ^ (e - k))) 0
    else mkNum (Z.sgn (mant n) * parseDec s) (e - k).

Lemma sgn_mul m z : m <> 0 -> Z.sgn m * z = if m <? 0 then - z else z.
Proof. intros. destruct (m <? 0) eqn:E; bool_hyps; [rewrite Z.sgn_neg by lia|rewrite Z.sgn_pos by lia]; lia. Qed.

(** A number with a point among its digits. *)
Lemma parse_number_point neg s e rest :
  digits s -> head s <> Some 48 -> (0 < e < length s)%nat -> stops rest ->
  parse_number (sign_text neg ++ (take e s ++ 46 :: drop e s) ++ rest)
  = Some (mkNum (if neg then - parseDec s else parseDec s) (Z.of_nat e - Z.of_nat (length s)), rest).
Proof.
  intros Hd Hh He Hr. pose proof (take_drop e s) as Hsplit. pose proof Hd as Hd'. unfold digits in Hd'.
  rewrite <- Hsplit in Hd'. apply Forall_app in Hd' as [Ht Hdr].
  pose proof (parse_number_parts neg (take e s) (drop e s) None rest) as Hpn.
  rewrite Hsplit, length_drop in Hpn. cbn [exp_text app default] in Hpn. unfold frac_text in Hpn.
  assert (truthy (drop e s) = true) as Htr.
  { destruct (drop e s) eqn:Ed; [|done]. apply (f_equal length) in Ed. rewrite length_drop in Ed. cbn in Ed. lia. }
  rewrite Htr in Hpn. destruct s as [|c s]; [cbn in He; lia|]. destruct e as [|e]; [lia|].
  rewrite <- app_assoc, Hpn; [do 3 f_equal; lia|done|done| |done|done]. by intros [= ->].
Qed.

(** [JSON.parse] reads the text of a number as that number. *)
Lemma num_text_reads n rest : stops rest -> parse_number (num_text n ++ rest) = Some (renum n, rest).
Proof.
  intros Hr. unfold num_text, renum. destruct (mant n =? 0) eqn:E0; bool_hyps.
  { apply (parse_number_parts false [48] [] None rest); repeat constructor; done. }
  cbv zeta. pose proof (showZ_plain (Z.abs (mant n)) ltac:(lia)) as Hp.
  destruct (strip_zeros_plain _ Hp (showZ_not_nil _)) as [Hs Hne].
  set (d := showZ (Z.abs (mant n))) in *. set (s := strip_zeros d) in *. set (k := Z.of_nat (length s)).
  set (e := Z.of_nat (length d) + expo n). change (if mant n <? 0 then [45] else []) with (sign_text (mant n <? 0)).
  assert (1 <= k) as Hk by (subst k; destruct s; [done|]; cbn [length]; lia).
  destruct Hs as [Hd Hh]. rewrite !sgn_mul, <- app_assoc by done.
  destruct ((k <=? e) && (e <=? 21)) eqn:E1; bool_hyps.
  { rewrite <- parseDec_zeros by lia. rewrite <- app_assoc.
    pose proof (parse_number_parts (mant n <? 0) (s ++ zeros (e - k)) [] None rest) as Hpn.
    cbn [frac_text exp_text truthy app length] in Hpn. rewrite app_nil_r, <- app_assoc in Hpn.
    apply Hpn; [|by destruct s| |constructor|done].
    - apply Forall_app. split; [done|by apply Forall_replicate].
    - intros Hx. by destruct s. }
  destruct ((0 <? e) && (e <=? 21)) eqn:E2; bool_hyps.
  { rewrite parse_number_point by (done || lia). do 3 f_equal. lia. }
  destruct ((-6 <? e) && (e <=? 0)) eqn:E3; bool_hyps.
  { pose proof (parse_number_parts (mant n <? 0) [48] (zeros (- e) ++ s) None rest) as Hpn.
    unfold frac_text in Hpn. assert (truthy (zeros (- e) ++ s) = true) as Htr by (destruct s; [done|]; by destruct (zeros (- e))).
    rewrite Htr in Hpn. cbn [exp_text app default] in Hpn.
    change (48 :: zeros (- e) ++ s) with (zeros 1 ++ zeros (- e) ++ s) in Hpn. rewrite !parseDec_leading in Hpn.
    change (js "0." ++ zeros (- e) ++ s) with (48 :: 46 :: zeros (- e) ++ s). cbn [app].
    rewrite Hpn; [|repeat constructor|done|done|apply Forall_app; split; [by apply Forall_replicate|done]|done].
    rewrite length_app. unfold zeros. rewrite length_replicate. do 3 f_equal. lia. }
  destruct s as [|c s']; [done|]. cbn [take drop]. rewrite take_0, drop_0.
  pose proof (parse_number_parts (mant n <? 0) [c] s' (Some (e - 1)) rest) as Hpn. cbn [app exp_text default] in Hpn.
  inversion Hd as [|? ? Hc Hd']; subst.
  assert ((if k =? 1 then [] else 46 :: s') = frac_text s') as ->.
  { unfold frac_text. subst k. destruct s'; [done|].
    by rewrite (proj2 (Z.eqb_neq _ 1)) by (cbn [length]; lia). }
  cbn [app]. rewrite <- app_assoc. cbn [app]. rewrite Hpn; [|by constructor|done| |done|done].
  - unfold id. do 3 f_equal. subst k. cbn [length]. lia.
  - by intros [= ->].
Qed.

(** The text depends on the number only. *)
Lemma num_text_renum n : num_text (renum n) = num_text n.
Proof.
  unfold renum. destruct (mant n =? 0) eqn:E0; bool_hyps.
  { unfold num_text. by rewrite E0. }
  cbv zeta. pose proof (showZ_plain (Z.abs (mant n)) ltac:(lia)) as Hp.
  destruct (strip_zeros_plain _ Hp (showZ_not_nil _)) as [Hs Hne].
  pose proof (strip_zeros_idemp (showZ (Z.abs (mant n)))) as Hi.
  unfold num_text at 2. replace (mant n =? 0) with false by lia. cbv zeta.
  set (d := showZ (Z.abs (mant n))) in *. set (s := strip_zeros d) in *. set (k := Z.of_nat (length s)).
  set (e := Z.of_nat (length d) + expo n).
  pose proof (parseDec_pos s Hs Hne) as Hpos.
  destruct ((k <=? e) && (e <=? 21)) eqn:E1; [bool_hyps|].
  - rewrite <- parseDec_zeros, sgn_mul by (done || lia). unfold num_text. cbn [mant expo].
    pose proof (plain_zeros s (e - k) Hs Hne) as Hz. assert (s ++ zeros (e - k) <> []) as Hzn by by destruct s.
    pose proof (parseDec_pos _ Hz Hzn) as Hp2. set (m := parseDec (s ++ zeros (e - k))) in *.
    replace ((if mant n <? 0 then - m else m) =? 0) with false by (case_match; lia). cbv zeta.
    replace (Z.abs (if mant n <? 0 then - m else m)) with m by (case_match; lia).
    replace ((if mant n <? 0 then - m else m) <? 0) with (mant n <? 0) by (case_match; lia).
    subst m. rewrite showZ_parseDec, strip_zeros_zeros, Hi by done. fold k.
    rewrite length_app. unfold zeros at 1 2 3 4 5 6. rewrite ?length_replicate.
    replace (Z.of_nat (length s + Z.to_nat (e - k)) + 0) with e by lia.
    by replace ((k <=? e) && (e <=? 21)) with true by lia.
  - rewrite sgn_mul by done. unfold num_text. cbn [mant expo]. set (m := parseDec s) in *.
    replace ((if mant n <? 0 then - m else m) =? 0) with false by (case_match; lia). cbv zeta.
    replace (Z.abs (if mant n <? 0 then - m else m)) with m by (case_match; lia).
    replace ((if mant n <? 0 then - m else m) <? 0) with (mant n <? 0) by (case_match; lia).
    subst m. rewrite showZ_parseDec, Hi by done. fold k. by replace (k + (e - k)) with e by lia; rewrite E1.
Qed.

(** An integer of up to 21 digits is written without exponent. *)
Lemma renum_integer n : expo n = 0 -> (length (showZ (Z.abs (mant n))) <= 21)%nat -> renum n = n.
Proof.
  intros He Hl. destruct n as [m x]. cbn [mant expo] in *. subst x. unfold renum. cbn [mant expo].
  destruct (m =? 0) eqn:E; bool_hyps; [by subst|]. cbv zeta.
  destruct (strip_zeros_app (showZ (Z.abs m))) as [k Hk].
  set (d := showZ (Z.abs m)) in *. set (s := strip_zeros d) in *.
  assert (length d = length s + k)%nat as Hlen by (rewrite Hk at 1; by rewrite length_app, length_replicate).
  replace ((Z.of_nat (length s) <=? Z.of_nat (length d) + 0) && (Z.of_nat (length d) + 0 <=? 21))
    with true by lia.
  rewrite <- parseDec_zeros by lia. unfold zeros. replace (Z.to_nat _) with k by lia. rewrite <- Hk. subst d.
  rewrite parseDec_showZ by lia. f_equal. rewrite Z.mul_comm. apply Z.abs_sgn.
Qed.

Lemma num_text_head n : exists c s, num_text n = c :: s /\ (c = 45 \/ is_digit c = true).
Proof.
  pose proof (num_text_reads n [] I) as H. rewrite app_nil_r in H. unfold parse_number in H.
  destruct (num_text n) as [|c s]; [done|]. exists c, s. split; [done|]. cbn [accept] in H.
  destruct (c =? 45) eqn:E; bool_hyps; [by left|right]. cbn [take_digits] in H.
  by destruct (is_digit c).
Qed.

Example renum_samples :
  renum (mkNum 70 (-2)) = mkNum 7 (-1) /\ renum (mkNum (-5) 3) = mkNum (-5000) 0
  /\ renum (mkNum 12 30) = mkNum 12 30 /\ renum (mkNum 1 (-9)) = mkNum 1 (-9).
Proof. vm_compute. repeat split. Qed.

End JsonNumber.
