(* ===== verification/JsonText.v ===== *)
(** * JSON text

    [JSON.stringify] of ECMA-262 on the values of [Json.v], and the proof that
    [JSON.parse] reads its output back: the round trip the playground's
    storage relies on. *)

From S2P Require Import Prelude JsString JsCollections Json JsonNumber.

Module JsonText.
Import Json.
Export JsonNumber.

(** ** Printing *)

(** A lower-case hexadecimal digit. *)
Definition hex_digit (n : Z) : Z := if n <? 10 then 48 + n else 87 + n.

(** [\uXXXX] *)
Definition unicode_escape (c : Z) : jsstr :=
  [92; 117; hex_digit (c / 4096); hex_digit (c / 256 mod 16); hex_digit (c / 16 mod 16);
   hex_digit (c mod 16)].

Definition is_lead (c : Z) : bool := (55296 <=? c) && (c <=? 56319).
Definition is_trail (c : Z) : bool := (56320 <=? c) && (c <=? 57343).

Definition quote_char (c : Z) : jsstr :=
  if c =? 34 then [92; 34] else if c =? 92 then [92; 92]
  else if c =? 8 then [92; 98] else if c =? 12 then [92; 102]
  else if c =? 10 then [92; 110] else if c =? 13 then [92; 114] else if c =? 9 then [92; 116]
  else if c <? 32 then unicode_escape c
  else [c].

(** QuoteJSONString without the quotes: lone surrogates are escaped. *)
Fixpoint quote_chars (s : jsstr) : jsstr :=
  match s with
  | [] => []
  | c :: s' =>
      match s' with
      | d :: s'' =>
          if is_lead c && is_trail d then c :: d :: quote_chars s''
          else (if is_lead c || is_trail c then unicode_escape c else quote_char c) ++ quote_chars s'
      | [] => if is_lead c || is_trail c then unicode_escape c else quote_char c
      end
  end.

Definition quote (s : jsstr) : jsstr := 34 :: quote_chars s ++ [34].

(** [SerializeJSONObject] and [SerializeJSONArray] of ECMA-262 write every item
    on a line of its own when there is a gap, and nothing between them when
    there is none. *)
Section Print.
Variable gap : jsstr.

Definition newline (ind : jsstr) : jsstr := if truthy gap then 10 :: ind else [].

Definition member_text (kv : jsstr * jsstr) : jsstr :=
  quote kv.1 ++ 58 :: (if truthy gap then [32] else []) ++ kv.2.

Definition items_text (ind : jsstr) (items : list jsstr) : jsstr := join (44 :: newline ind) items.

Definition bracket (o c : Z) (ind : jsstr) (items : list jsstr) : jsstr :=
  match items with
  | [] => [o; c]
  | _ => o :: newline (ind ++ gap) ++ items_text (ind ++ gap) items ++ newline ind ++ [c]
  end.

Fixpoint print (ind : jsstr) (v : json) : jsstr :=
  match v with
  | JNull => js "null"
  | JBool true => js "true"
  | JBool false => js "false"
  | JNum n => num_text n
  | JStr s => quote s
  | JArr l => bracket 91 93 ind (map (print (ind ++ gap)) l)
  | JObj fields =>
      bracket 123 125 ind (map member_text
        (Object_entries (map (prod_map id (print (ind ++ gap))) fields)))
  end.
End Print.

(** [JSON.stringify(v)] *)
Definition JSON_stringify (v : json) : jsstr := print [] [] v.

(** [JSON.stringify(v, null, 2)] *)
Definition JSON_pretty (v : json) : jsstr := print [32; 32] [] v.

(** ** Values that survive *)

Definition wf_str (s : jsstr) : Prop := Forall (fun c => 0 <= c < 65536) s.

(** A number with the mantissa and the exponent of its text. *)
Definition wf_num (n : jnum) : Prop := renum n = n.

(** Strings of UTF-16 units, numbers as their text has them, and objects with
    distinct keys none of which is an array index. *)
Fixpoint wf_json (v : json) : Prop :=
  match v with
  | JNull | JBool _ => True
  | JNum n => wf_num n
  | JStr s => wf_str s
  | JArr l => (fix all l := match l with [] => True | x :: l' => wf_json x /\ all l' end) l
  | JObj fields =>
      NoDup fields.*1 /\ Forall (fun k => wf_str k /\ is_index_key k = false) fields.*1 /\
      (fix all fs := match fs with [] => True | (_, x) :: fs' => wf_json x /\ all fs' end) fields
  end.

(** Induction on values, through lists and members. *)
Lemma json_induction (P : json -> Prop) :
  P JNull -> (forall b, P (JBool b)) -> (forall n, P (JNum n)) -> (forall s, P (JStr s)) ->
  (forall l, Forall P l -> P (JArr l)) -> (forall fs, Forall P fs.*2 -> P (JObj fs)) ->
  forall v, P v.
Proof.
  intros Hn Hb Hm Hs Ha Ho. fix IH 1. intros [|b|n|s|l|fs]; [done|done|done|done| |].
  - apply Ha. induction l as [|x l IHl]; constructor; [apply IH|exact IHl].
  - apply Ho. induction fs as [|[k x] fs IHl]; constructor; [apply IH|exact IHl].
Qed.

Lemma wf_json_arr l : wf_json (JArr l) <-> Forall wf_json l.
Proof.
  induction l as [|x l IH]; [by split; [constructor|]|]. rewrite Forall_cons.
  cbn in *. by rewrite IH.
Qed.

Lemma wf_json_obj fs :
  wf_json (JObj fs) <-> NoDup fs.*1 /\ Forall (fun k => wf_str k /\ is_index_key k = false) fs.*1 /\
    Forall wf_json fs.*2.
Proof.
  assert ((fix all fs := match fs with [] => True | (_, x) :: fs' => wf_json x /\ all fs' end) fs
          <-> Forall wf_json fs.*2) as H.
  { induction fs as [|[k x] fs IH]; [by split; [constructor|]|]. cbn [fmap list_fmap snd].
    by rewrite Forall_cons, IH. }
  cbn. by rewrite H.
Qed.

(** The executable test. *)
Fixpoint wf_jsonb (v : json) : bool :=
  match v with
  | JNull | JBool _ => true
  | JNum n => bool_decide (renum n = n)
  | JStr s => forallb (fun c => (0 <=? c) && (c <? 65536)) s
  | JArr l => forallb wf_jsonb l
  | JObj fields =>
      bool_decide (NoDup fields.*1) &&
      forallb (fun k => forallb (fun c => (0 <=? c) && (c <? 65536)) k && negb (is_index_key k)) fields.*1 &&
      forallb (fun kv => wf_jsonb kv.2) fields
  end.

Lemma wf_strb s : forallb (fun c => (0 <=? c) && (c <? 65536)) s = true -> wf_str s.
Proof.
  rewrite forallb_forall. intros H. apply Forall_forall. intros c Hc%list_elem_of_In.
  specialize (H c Hc). bool_hyps. lia.
Qed.

Lemma wf_jsonb_sound v : wf_jsonb v = true -> wf_json v.
Proof.
  induction v as [|b|n|s|l IH|fs IH] using json_induction; cbn [wf_jsonb]; intros Hb; try done.
  - by bool_hyps.
  - by apply wf_strb.
  - apply wf_json_arr. rewrite forallb_forall in Hb. rewrite Forall_forall in IH |- *.
    intros x Hx. apply IH, Hb; [done|by apply list_elem_of_In].
  - bool_hyps. apply wf_json_obj. split_and!; [done| |].
    + rewrite forallb_forall in H1. apply Forall_forall. intros k Hk%list_elem_of_In.
      specialize (H1 k Hk). bool_hyps. split; [by apply wf_strb|done].
    + rewrite forallb_forall in H0. rewrite Forall_forall in IH |- *. intros x Hx. apply IH; [done|].
      apply list_elem_of_fmap in Hx as (kv & -> & Hkv). apply H0. by apply list_elem_of_In.
Qed.

(** ** Strings *)

Lemma hex_value_digit n : 0 <= n < 16 -> hex_value (hex_digit n) = Some n.
Proof.
  intros H. unfold hex_digit, hex_value, is_digit. destruct (n <? 10) eqn:E; bool_hyps.
  - replace ((48 <=? 48 + n) && (48 + n <=? 57)) with true by lia. f_equal. lia.
  - replace ((48 <=? 87 + n) && (87 + n <=? 57)) with false by lia.
    replace ((97 <=? 87 + n) && (87 + n <=? 102)) with true by lia. f_equal. lia.
Qed.

Lemma hex4_escape c rest :
  0 <= c < 65536 ->
  hex4 (hex_digit (c / 4096) :: hex_digit (c / 256 mod 16) :: hex_digit (c / 16 mod 16)
        :: hex_digit (c mod 16) :: rest) = Some (c, rest).
Proof.
  intros H. unfold hex4.
  rewrite (hex_value_digit (c / 4096)) by (split; [apply Z.div_pos; lia|apply Z.div_lt_upper_bound; lia]).
  rewrite (hex_value_digit (c / 256 mod 16)) by (apply Z.mod_pos_bound; lia).
  rewrite (hex_value_digit (c / 16 mod 16)) by (apply Z.mod_pos_bound; lia).
  rewrite (hex_value_digit (c mod 16)) by (apply Z.mod_pos_bound; lia).
  do 2 f_equal. pose proof (Z.div_mod c 16 ltac:(lia)) as E1.
  pose proof (Z.div_mod (c / 16) 16 ltac:(lia)) as E2. pose proof (Z.div_mod (c / 256) 16 ltac:(lia)) as E3.
  rewrite Z.div_div in E2 by lia. rewrite Z.div_div in E3 by lia. change (16 * 16) with 256 in E2.
  change (256 * 16) with 4096 in E3. lia.
Qed.

(** One printed character is read back, with one unit of fuel. *)
Lemma parse_chars_escape c fuel rest :
  0 <= c < 65536 ->
  parse_chars (S fuel) (unicode_escape c ++ rest) = prod_map (cons c) id <$> parse_chars fuel rest.
Proof.
  intros H. unfold unicode_escape. cbn [app parse_chars].
  change (92 =? 34) with false. change (92 <? 32) with false. change (92 =? 92) with true.
  change (117 =? 117) with true. cbn [negb]. by rewrite hex4_escape.
Qed.

Lemma parse_chars_char c fuel rest :
  0 <= c < 65536 ->
  parse_chars (S fuel) (quote_char c ++ rest) = prod_map (cons c) id <$> parse_chars fuel rest.
Proof.
  intros H. unfold quote_char.
  repeat match goal with |- context [if c =? ?k then _ else _] =>
    destruct (c =? k) eqn:?; bool_hyps; [subst c; reflexivity|] end.
  destruct (c <? 32) eqn:E; [by apply parse_chars_escape|]. cbn [app parse_chars].
  replace (c =? 34) with false by lia. rewrite E. replace (c =? 92) with false by lia. done.
Qed.

Lemma surrogate_plain c fuel rest :
  is_lead c || is_trail c = true ->
  parse_chars (S fuel) (c :: rest) = prod_map (cons c) id <$> parse_chars fuel rest.
Proof.
  unfold is_lead, is_trail. intros H. cbn [parse_chars].
  replace (c =? 34) with false by lia. replace (c <? 32) with false by lia.
  replace (c =? 92) with false by lia. done.
Qed.

Lemma parse_chars_quote n s fuel rest :
  (length s <= n)%nat -> wf_str s -> (length s < fuel)%nat ->
  parse_chars fuel (quote_chars s ++ 34 :: rest) = Some (s, rest).
Proof.
  revert s fuel. induction n as [|n IH]; intros s fuel Hn Hs Hf.
  { destruct s; [|cbn in Hn; lia]. by destruct fuel; [lia|]. }
  destruct s as [|c s]; [by destruct fuel; [lia|]|]. cbn [length] in *.
  inversion_clear Hs as [|? ? Hc Hs']. destruct fuel as [|fuel]; [lia|].
  assert (parse_chars (S fuel)
    (((if is_lead c || is_trail c then unicode_escape c else quote_char c) ++ quote_chars s) ++ 34 :: rest)
    = Some (c :: s, rest)) as Hone.
  { rewrite <- app_assoc.
    destruct (is_lead c || is_trail c); [rewrite parse_chars_escape by done|rewrite parse_chars_char by done];
      rewrite IH by (try done; lia); done. }
  destruct s as [|d s].
  { cbn [quote_chars] in *. by rewrite app_nil_r in Hone. }
  cbn [quote_chars] in Hone |- *. destruct (is_lead c && is_trail d) eqn:E; [|exact Hone].
  cbn [length] in *. destruct fuel as [|fuel]; [lia|]. inversion_clear Hs' as [|? ? Hd Hs''].
  bool_hyps. cbn [app]. rewrite surrogate_plain by (by rewrite H).
  rewrite surrogate_plain by (rewrite H0; apply orb_true_r). rewrite IH by (try done; lia). done.
Qed.

Lemma quote_chars_length s : (length s <= length (quote_chars s))%nat.
Proof.
  assert (forall c, (1 <= length (quote_char c))%nat) as Hq.
  { intros c. unfold quote_char, unicode_escape. repeat case_match; cbn; lia. }
  assert (forall n s, (length s <= n)%nat -> (length s <= length (quote_chars s))%nat) as H.
  2:{ by apply (H (length s)). }
  intros n. induction n as [|n IH]; intros [|c [|d s']] Hn; cbn [length quote_chars] in *; try lia.
  - specialize (Hq c). destruct (is_lead c || is_trail c); [cbn; lia|done].
  - destruct (is_lead c && is_trail d).
    + cbn [length]. specialize (IH s' ltac:(lia)). lia.
    + specialize (IH (d :: s') ltac:(cbn; lia)). rewrite length_app. cbn [length quote_chars] in *.
      specialize (Hq c). destruct (is_lead c || is_trail c); cbn [length unicode_escape] in *; lia.
Qed.

Lemma parse_quote fuel s rest :
  wf_str s -> (length s < fuel)%nat -> parse_chars fuel ((quote_chars s ++ [34]) ++ rest) = Some (s, rest).
Proof. intros. rewrite <- app_assoc. by eapply parse_chars_quote. Qed.

(** ** Values *)

(** Text that the parser skips. *)
Definition blank (w : jsstr) : Prop := Forall (fun c => is_ws c = true) w.

Lemma skip_ws_blank w s : blank w -> skip_ws (w ++ s) = skip_ws s.
Proof. induction 1 as [|c w Hc _ IH]; [done|]. cbn [app skip_ws]. by rewrite Hc. Qed.

Lemma skip_ws_length s : (length (skip_ws s) <= length s)%nat.
Proof. induction s as [|c s IH]; [done|]. cbn [skip_ws]. case_match; cbn [length]; lia. Qed.

Lemma skip_ws_idemp s : skip_ws (skip_ws s) = skip_ws s.
Proof.
  induction s as [|c s IH]; [done|]. cbn [skip_ws]. destruct (is_ws c) eqn:E; [done|].
  cbn [skip_ws]. by rewrite E.
Qed.

Lemma stops_blank w c rest : blank w -> stops (c :: rest) -> stops (w ++ c :: rest).
Proof.
  intros [|x w' Hx _] Hc; [done|]. unfold is_ws in Hx. bool_hyps.
  rewrite !elem_of_cons, elem_of_nil in Hx. destruct Hx as [-> | [-> | [-> | [-> | []]]]]; done.
Qed.

Lemma Object_entries_plain {A} (fs : list (jsstr * A)) :
  Forall (fun k => is_index_key k = false) fs.*1 -> Object_entries fs = fs.
Proof.
  intros H. unfold Object_entries.
  assert (List.filter (fun kv => is_index_key kv.1) fs = []) as ->.
  { induction fs as [|kv fs IH]; [done|]. inversion_clear H as [|? ? Hk Hf]. cbn [List.filter].
    rewrite Hk. by apply IH. }
  cbn [js_sort fold_left app].
  induction fs as [|kv fs IH]; [done|]. inversion_clear H as [|? ? Hk Hf]. cbn [List.filter].
  rewrite Hk. cbn [negb]. by rewrite IH.
Qed.

Lemma map_set_fresh {V} (m : list (jsstr * V)) k v : k ∉ m.*1 -> map_set m k v = m ++ [(k, v)].
Proof.
  induction m as [|[k' v'] m IH]; [done|]. cbn [fmap list_fmap fst]. rewrite not_elem_of_cons.
  intros [Hne Hm]. cbn [map_set]. rewrite decide_False by done. by rewrite IH.
Qed.

Lemma obj_of_members_id ms : NoDup ms.*1 -> obj_of_members ms = ms.
Proof.
  unfold obj_of_members. intros H.
  assert (forall acc, NoDup (acc.*1 ++ ms.*1) ->
    fold_left (fun o '(k, v) => map_set o k v) ms acc = acc ++ ms) as Hacc.
  2:{ by apply (Hacc []). }
  clear H. induction ms as [|[k v] ms IH]; intros acc H; [by rewrite app_nil_r|].
  cbn [fold_left]. rewrite map_set_fresh.
  - rewrite IH; [by rewrite <- app_assoc|]. rewrite fmap_app, <- app_assoc. exact H.
  - cbn in H. apply NoDup_app in H as (_ & H & _). intros Hin. apply (H k Hin). left.
Qed.

Lemma expect_app lit rest : expect lit (lit ++ rest) = Some rest.
Proof.
  unfold expect. assert (startsWith (lit ++ rest) lit = true) as -> by (apply startsWith_spec; by exists rest).
  by rewrite drop_app_length.
Qed.

(** ** What is read back *)

(** Strings of UTF-16 units and distinct keys: the values there are. *)
Inductive printable : json -> Prop :=
| printable_null : printable JNull
| printable_bool b : printable (JBool b)
| printable_num n : printable (JNum n)
| printable_str s : wf_str s -> printable (JStr s)
| printable_arr l : Forall printable l -> printable (JArr l)
| printable_obj fs :
    NoDup fs.*1 -> Forall wf_str fs.*1 -> Forall printable fs.*2 -> printable (JObj fs).

(** The representation of the same value that its text has: numbers in lowest
    terms, array indices first among the keys. *)
Fixpoint canon (v : json) : json :=
  match v with
  | JNum n => JNum (renum n)
  | JArr l => JArr (map canon l)
  | JObj fs => JObj (Object_entries (map (prod_map id canon) fs))
  | _ => v
  end.

Lemma wf_printable v : wf_json v -> printable v.
Proof.
  induction v as [|b|n|s|l IH|fs IH] using json_induction; intros Hw; try by constructor.
  - apply wf_json_arr in Hw. constructor. rewrite Forall_forall in *. auto.
  - apply wf_json_obj in Hw as (Hn & Hk & Hw). constructor; [done| |].
    + eapply Forall_impl; [exact Hk|]. by intros ? [? _].
    + rewrite Forall_forall in *. auto.
Qed.

Lemma map_id_Forall {A} (f : A -> A) l : Forall (fun x => f x = x) l -> map f l = l.
Proof. induction 1 as [|x l Hx _ IH]; [done|]. cbn [map]. by rewrite Hx, IH. Qed.

Lemma canon_wf v : wf_json v -> canon v = v.
Proof.
  induction v as [|b|n|s|l IH|fs IH] using json_induction; intros Hw; cbn [canon]; try done.
  - by rewrite Hw.
  - apply wf_json_arr in Hw. f_equal. apply map_id_Forall. rewrite Forall_forall in *. auto.
  - apply wf_json_obj in Hw as (Hn & Hk & Hw). f_equal. rewrite map_id_Forall.
    + apply Object_entries_plain. eapply Forall_impl; [exact Hk|]. by intros ? [_ ?].
    + apply Forall_forall. intros [k x] Hin. unfold prod_map, id. cbn [fst snd]. f_equal.
      assert (x ∈ fs.*2) as Hx by (apply list_elem_of_fmap; by exists (k, x)).
      rewrite Forall_forall in IH, Hw. auto.
Qed.

Lemma sort_insert_map {A B} (f : A -> B) cmp cmp' x l :
  (forall a b, cmp' (f a) (f b) = cmp a b) -> sort_insert cmp' (f x) (map f l) = map f (sort_insert cmp x l).
Proof.
  intros Hc. induction l as [|y l IH]; [done|]. cbn [map sort_insert]. rewrite Hc, IH. by case_match.
Qed.

Lemma js_sort_map {A B} (f : A -> B) cmp cmp' l :
  (forall a b, cmp' (f a) (f b) = cmp a b) -> js_sort cmp' (map f l) = map f (js_sort cmp l).
Proof.
  intros Hc. unfold js_sort. change (@nil B) with (map f []). generalize (@nil A) as acc.
  induction l as [|x l IH]; intros acc; [done|]. cbn [map fold_left].
  by rewrite (sort_insert_map f cmp), IH.
Qed.

Lemma Object_entries_map {A B} (f : A -> B) fs :
  Object_entries (map (prod_map id f) fs) = map (prod_map id f) (Object_entries fs).
Proof.
  unfold Object_entries. rewrite map_app. f_equal.
  - rewrite <- (js_sort_map (prod_map id f) _ (fun a b => parseDec a.1 - parseDec b.1)) by done. f_equal.
    induction fs as [|[k x] fs IH]; [done|]. cbn. case_match; cbn; by rewrite IH.
  - induction fs as [|[k x] fs IH]; [done|]. cbn. case_match; cbn; by rewrite IH.
Qed.

Lemma filter_app_parts {A} (p : A -> bool) l l' :
  Forall (fun x => p x = true) l -> Forall (fun x => p x = false) l' ->
  List.filter p (l ++ l') = l /\ List.filter (fun x => negb (p x)) (l ++ l') = l'.
Proof.
  intros H H'. induction H as [|x l Hx _ [IH1 IH2]]; cbn [app List.filter].
  - induction H' as [|x l' Hx _ [IH1 IH2]]; [done|]. cbn [List.filter]. rewrite Hx. cbn. by rewrite IH1, IH2.
  - rewrite Hx. cbn. by rewrite IH1, IH2.
Qed.

Lemma Object_entries_idemp {A} (fs : list (jsstr * A)) : Object_entries (Object_entries fs) = Object_entries fs.
Proof.
  destruct (filter_app_parts (fun kv : jsstr * A => is_index_key kv.1)
    (js_sort (fun a b => parseDec a.1 - parseDec b.1) (List.filter (fun kv => is_index_key kv.1) fs))
    (List.filter (fun kv => negb (is_index_key kv.1)) fs)) as [E1 E2].
  - rewrite js_sort_perm. apply Forall_forall. intros kv Hin%list_elem_of_In. by apply List.filter_In in Hin as [_ ?].
  - apply Forall_forall. intros kv Hin%list_elem_of_In. apply List.filter_In in Hin as [_ ?%negb_true_iff]. done.
  - unfold Object_entries. cbv beta in E1, E2. rewrite E1, E2. f_equal.
    pose proof (comparator_sub (fun kv : jsstr * A => parseDec kv.1)). apply js_sort_id; [done|].
    by apply js_sort_sorted.
Qed.

(** The text of a value is the text of its representation. *)
Lemma print_canon gap ind v : print gap ind (canon v) = print gap ind v.
Proof.
  revert ind. induction v as [|b|n|s|l IH|fs IH] using json_induction; intros ind; cbn [canon print]; try done.
  - apply num_text_renum.
  - f_equal. rewrite map_map. apply map_ext_Forall. eapply Forall_impl; [exact IH|]. auto.
  - f_equal. f_equal. rewrite <- Object_entries_map, Object_entries_idemp, map_map. f_equal.
    apply map_ext_in. intros [k x] Hin%list_elem_of_In. cbn. f_equal. rewrite Forall_forall in IH. apply IH.
    apply list_elem_of_fmap. by exists (k, x).
Qed.

Section PrintFacts.
Variable gap : jsstr.
Hypothesis gap_blank : blank gap.

Lemma newline_blank ind : blank ind -> blank (newline gap ind).
Proof. intros H. unfold newline. case_match; [by constructor|constructor]. Qed.

Lemma deeper_blank ind : blank ind -> blank (ind ++ gap).
Proof. intros. by apply Forall_app. Qed.

(** Reads one text back, whatever follows it, given twice its length as fuel. *)
Definition reads (v : json) : Prop :=
  forall ind fuel rest, blank ind -> (2 * length (print gap ind v) <= fuel)%nat -> stops rest ->
    parse_value fuel (print gap ind v ++ rest) = Some (canon v, rest).

(** The first character of a text. *)
Lemma print_head ind v :
  printable v -> exists c s, print gap ind v = c :: s /\ is_ws c = false /\ c <> 93 /\ c <> 125.
Proof.
  assert (forall c s, is_ws c = false /\ c <> 93 /\ c <> 125 ->
    exists c' s', c :: s = c' :: s' /\ is_ws c' = false /\ c' <> 93 /\ c' <> 125) as Hc
    by (intros c s ?; by exists c, s).
  destruct v as [|[]|n|s|l|fs]; intros Hw; try (apply Hc; done).
  - cbn [print]. destruct (num_text_head n) as (c & s & -> & [-> | Hdc]); [by apply Hc|].
    unfold is_digit in Hdc. bool_hyps. apply Hc. split_and!; [|lia..]. unfold is_ws.
    apply bool_decide_eq_false_2. rewrite !elem_of_cons, elem_of_nil. lia.
  - cbn [print]. unfold bracket. case_match; by apply Hc.
  - cbn [print]. unfold bracket. case_match; by apply Hc.
Qed.

Lemma print_pos ind v : printable v -> (0 < length (print gap ind v))%nat.
Proof. intros (c & s & -> & _)%(print_head ind). cbn. lia. Qed.

Lemma skip_ws_print ind v rest :
  printable v -> skip_ws (print gap ind v ++ rest) = print gap ind v ++ rest.
Proof. intros (c & s & -> & Hc & _)%(print_head ind). cbn [app skip_ws]. by rewrite Hc. Qed.

Lemma items_text_cons ind x xs :
  items_text gap ind (x :: xs)
  = x ++ match xs with [] => [] | _ => 44 :: newline gap ind ++ items_text gap ind xs end.
Proof. destruct xs; [symmetry; apply app_nil_r|done]. Qed.

(** The elements of an array, up to its closing bracket. *)
Lemma parse_elements_print l ind fuel s w rest :
  l <> [] -> Forall printable l -> Forall reads l -> blank ind -> blank w ->
  skip_ws s = items_text gap ind (map (print gap ind) l) ++ w ++ 93 :: rest ->
  (2 * length (items_text gap ind (map (print gap ind) l)) + 1 <= fuel)%nat ->
  parse_elements fuel s = Some (map canon l, rest).
Proof.
  intros Hne Hw Hr Hi Hb. revert fuel s Hne.
  induction Hr as [|v l Hv Hr IH]; intros fuel s Hne Hs Hf; [done|].
  inversion_clear Hw as [|? ? Hwv Hwl]. destruct fuel as [|fuel]; [lia|].
  cbn [parse_elements]. rewrite Hs. cbn [map] in *. rewrite items_text_cons in *.
  rewrite <- app_assoc, length_app in *. destruct l as [|x l].
  - cbn [map app] in *. rewrite Hv; [|done|lia|by apply stops_blank]. rewrite skip_ws_blank by done. done.
  - cbn [map app] in *. cbn [length] in Hf. rewrite length_app in Hf.
    rewrite Hv by (done || lia). cbn [skip_ws]. change (is_ws 44) with false. cbn [accept].
    change (44 =? 93) with false. change (44 =? 44) with true. cbn iota.
    rewrite (IH Hwl fuel); [done|done| |lia]. rewrite <- app_assoc.
    rewrite skip_ws_blank by by apply newline_blank. cbn [map].
    rewrite items_text_cons, <- app_assoc. apply skip_ws_print. by inversion Hwl.
Qed.

Definition member (ind : jsstr) (kv : jsstr * json) : jsstr :=
  member_text gap (prod_map id (print gap ind) kv).

Definition colon_gap : jsstr := if truthy gap then [32] else [].

Lemma colon_gap_blank : blank colon_gap.
Proof. unfold colon_gap. case_match; repeat constructor. Qed.

Lemma member_app ind k v t :
  member ind (k, v) ++ t = 34 :: quote_chars k ++ 34 :: 58 :: colon_gap ++ print gap ind v ++ t.
Proof.
  unfold member, member_text, quote. cbn [prod_map fst snd id app]. f_equal.
  rewrite <- !app_assoc. cbn [app]. by rewrite <- !app_assoc.
Qed.

Lemma member_length ind k v :
  (length k + length (print gap ind v) + 3 <= length (member ind (k, v)))%nat.
Proof.
  pose proof (member_app ind k v []) as H. rewrite !app_nil_r in H. rewrite H. cbn [length].
  rewrite !length_app. cbn [length]. rewrite !length_app.
  pose proof (quote_chars_length k). lia.
Qed.

(** The members of an object, up to its closing brace. *)
Lemma parse_members_print fs ind fuel s w rest :
  fs <> [] -> Forall wf_str fs.*1 -> Forall printable fs.*2 -> Forall reads fs.*2 ->
  blank ind -> blank w ->
  skip_ws s = items_text gap ind (map (member ind) fs) ++ w ++ 125 :: rest ->
  (2 * length (items_text gap ind (map (member ind) fs)) + 1 <= fuel)%nat ->
  parse_members fuel s = Some (map (prod_map id canon) fs, rest).
Proof.
  intros Hne Hk Hw Hr Hi Hb. revert fuel s Hne.
  induction fs as [|[k v] fs IH]; intros fuel s Hne Hs Hf; [done|].
  inversion_clear Hk as [|? ? Hkk Hks]. inversion_clear Hw as [|? ? Hwv Hws].
  inversion_clear Hr as [|? ? Hrv Hrs]. cbn [fst snd] in *. destruct fuel as [|fuel]; [lia|].
  pose proof (skip_ws_length s) as Hl. pose proof (member_length ind k v) as Hm.
  cbn [parse_members]. rewrite Hs in *. cbn [map] in *. rewrite items_text_cons in *.
  rewrite <- !app_assoc in *. rewrite !length_app in *. rewrite member_app.
  cbn [accept]. change (34 =? 34) with true. cbn iota.
  rewrite (parse_chars_quote (length k)) by (done || lia).
  cbn [skip_ws]. change (is_ws 58) with false. cbn [accept]. change (58 =? 58) with true. cbn iota.
  rewrite skip_ws_blank by apply colon_gap_blank. rewrite skip_ws_print by done.
  destruct fs as [|[k' v'] fs]; cbn [map app length] in *.
  - rewrite Hrv; [|done|lia|by apply stops_blank]. rewrite skip_ws_blank by done. done.
  - rewrite length_app in Hf. rewrite Hrv by (done || lia). cbn [skip_ws].
    change (is_ws 44) with false. cbn [accept].
    change (44 =? 125) with false. change (44 =? 44) with true. cbn iota.
    rewrite (IH Hks Hws Hrs fuel); [done|done| |lia]. rewrite <- app_assoc.
    rewrite skip_ws_blank by by apply newline_blank.
    by rewrite items_text_cons, <- !app_assoc, !member_app.
Qed.

Lemma parse_value_number n rest fuel :
  stops rest -> parse_value (S fuel) (num_text n ++ rest) = Some (JNum (renum n), rest).
Proof.
  intros Hrest. pose proof (num_text_reads n rest Hrest) as Hp.
  destruct (num_text_head n) as (c & s & Hc & Hd).
  rewrite Hc in *. cbn [app parse_value] in *. unfold is_digit in Hd.
  repeat match goal with |- context [c =? ?k] => replace (c =? k) with false by lia end.
  by rewrite Hp.
Qed.

Lemma Forall_reads l : Forall (fun v => printable v -> reads v) l -> Forall printable l -> Forall reads l.
Proof. induction 1; inversion_clear 1; constructor; auto. Qed.

Lemma bracket_app o c ind items rest :
  items <> [] ->
  bracket gap o c ind items ++ rest
  = o :: newline gap (ind ++ gap) ++ items_text gap (ind ++ gap) items ++ newline gap ind ++ c :: rest.
Proof.
  destruct items as [|x xs]; [done|]. intros _. unfold bracket. cbn [app]. f_equal.
  by rewrite <- !app_assoc.
Qed.

Lemma bracket_length o c ind items :
  items <> [] -> (length (items_text gap (ind ++ gap) items) + 2 <= length (bracket gap o c ind items))%nat.
Proof.
  destruct items as [|x xs]; [done|]. intros _. unfold bracket. cbn [length].
  rewrite !length_app. cbn [length]. lia.
Qed.

Lemma array_reads l : Forall printable l -> Forall reads l -> reads (JArr l).
Proof.
  intros Hw Hr ind fuel rest Hi Hf Hrest. destruct fuel as [|fuel].
  { pose proof (print_pos ind (JArr l) (printable_arr l Hw)). lia. }
  destruct l as [|v l]; [done|]. cbn [print] in *.
  assert (map (print gap (ind ++ gap)) (v :: l) <> []) as Hne by done.
  pose proof (bracket_length 91 93 ind _ Hne) as Hl. rewrite bracket_app by done.
  cbn [parse_value]. change (91 =? 123) with false. change (91 =? 91) with true. cbn iota.
  rewrite skip_ws_blank by by apply newline_blank, deeper_blank.
  set (body := items_text _ _ _ ++ _). inversion Hw as [|? ? Hwv _]; subst.
  assert (skip_ws body = body) as Hs.
  { subst body. cbn [map]. rewrite items_text_cons, <- app_assoc. by apply skip_ws_print. }
  assert (accept 93 body = None) as Ha.
  { subst body. cbn [map]. rewrite items_text_cons, <- app_assoc.
    destruct (print_head (ind ++ gap) v Hwv) as (c & s & -> & _ & Hc & _). cbn [app accept].
    by replace (c =? 93) with false by lia. }
  rewrite Hs, Ha. rewrite (parse_elements_print (v :: l) (ind ++ gap) fuel body (newline gap ind) rest);
    [done|done|done|done|by apply deeper_blank|by apply newline_blank|by rewrite Hs|lia].
Qed.

Lemma map_member ind fs :
  map (member_text gap) (Object_entries (map (prod_map id (print gap ind)) fs)) = map (member ind) (Object_entries fs).
Proof. by rewrite Object_entries_map, map_map. Qed.

Lemma object_reads fs :
  printable (JObj fs) -> Forall reads fs.*2 -> reads (JObj fs).
Proof.
  intros Hwf Hr ind fuel rest Hi Hf Hrest. destruct fuel as [|fuel].
  { pose proof (print_pos ind (JObj fs) Hwf). lia. }
  inversion Hwf as [| | | | |? Hnd Hks Hw]; subst. cbn [print canon] in *. rewrite map_member in *.
  rewrite Object_entries_map. rewrite <- (js_sort_values_perm fs) in Hnd, Hks, Hw, Hr.
  destruct (Object_entries fs) as [|[k v] es]; [done|].
  assert (map (member (ind ++ gap)) ((k, v) :: es) <> []) as Hne by done.
  pose proof (bracket_length 123 125 ind _ Hne) as Hl. rewrite bracket_app by done.
  cbn [parse_value]. change (123 =? 123) with true. cbn iota.
  rewrite skip_ws_blank by by apply newline_blank, deeper_blank.
  set (body := items_text _ _ _ ++ _).
  assert (skip_ws body = body /\ accept 125 body = None) as [Hs Ha].
  { subst body. cbn [map]. by rewrite items_text_cons, <- app_assoc, member_app. }
  rewrite Hs, Ha.
  rewrite (parse_members_print ((k, v) :: es) (ind ++ gap) fuel body (newline gap ind) rest);
    [|done|done|done|done|by apply deeper_blank|by apply newline_blank|by rewrite Hs|lia].
  cbn [fmap option_fmap option_map prod_map]. rewrite obj_of_members_id; [done|].
  change (NoDup (fst <$> (prod_map id canon <$> ((k, v) :: es)))). by rewrite <- list_fmap_compose.
Qed.

(** A number is delimited by what follows it; everything else by itself. *)
Lemma print_reads v : printable v -> reads v.
Proof.
  induction v as [|b|n|s|l IH|fs IH] using json_induction; intros Hw.
  5: { inversion Hw; subst. apply array_reads; [done|by apply Forall_reads]. }
  5: { apply object_reads; [done|]. inversion Hw; subst. by apply Forall_reads. }
  all: intros ind fuel rest Hi Hf Hrest; (destruct fuel as [|fuel]; [apply (print_pos ind) in Hw; lia|]).
  - cbn [print parse_value]. rewrite expect_app. done.
  - destruct b; cbn [print parse_value]; rewrite expect_app; done.
  - by apply parse_value_number.
  - cbn [print] in *. unfold quote in *. cbn [app parse_value].
    change (34 =? 123) with false. change (34 =? 91) with false. change (34 =? 34) with true. cbn iota.
    inversion Hw; subst. rewrite parse_quote; [done|done|]. cbn [length]. rewrite !length_app. cbn [length].
    pose proof (quote_chars_length s). lia.
Qed.

Lemma parse_print v : printable v -> JSON_parse (print gap [] v) = Some (canon v).
Proof.
  intros Hw. unfold JSON_parse, json_fuel. pose proof (skip_ws_print [] v [] Hw) as Hs.
  rewrite app_nil_r in Hs. rewrite Hs. pose proof (print_reads v Hw [] (2 * S (length (print gap [] v)))%nat []) as H.
  rewrite app_nil_r in H. by rewrite H by (done || lia || constructor).
Qed.
End PrintFacts.

Lemma stringify_reads v : printable v -> JSON_parse (JSON_stringify v) = Some (canon v).
Proof. apply parse_print. constructor. Qed.

Lemma pretty_reads v : printable v -> JSON_parse (JSON_pretty v) = Some (canon v).
Proof. apply parse_print. repeat constructor. Qed.

Lemma parse_stringify v : wf_json v -> JSON_parse (JSON_stringify v) = Some v.
Proof. intros Hw. by rewrite stringify_reads, canon_wf by eauto using wf_printable. Qed.

Lemma parse_pretty v : wf_json v -> JSON_parse (JSON_pretty v) = Some v.
Proof. intros Hw. by rewrite pretty_reads, canon_wf by eauto using wf_printable. Qed.

Example stringify_sample :
  JSON_stringify (JObj [(js "a", JArr [JNum (mkNum (-25) (-1)); JBool true]); (js "b", JStr [34; 10])])
  = jq "{'a':[-2.5,true],'b':'\'\n'}".
Proof. vm_compute. reflexivity. Qed.

Example pretty_sample :
  JSON_pretty (JObj [(js "a", JArr [JNull; JArr []]); (js "b", JObj [])])
  = join [10] [js "{"; jq "  'a': ["; js "    null,"; js "    []"; js "  ],"; jq "  'b': {}"; js "}"].
Proof. vm_compute. reflexivity. Qed.

End JsonText.
