(* ===== verification/JsonLocal.v ===== *)
(** * The parser of JSON reads a prefix

    What a successful parse consumed is a prefix that parses to the same value
    whatever follows it and with any fuel from twice its length.  So the fuel
    of [JSON_parse] is enough, and trimming a text that parses does not change
    its value: the sources trim before some calls of [JSON.parse] and not
    before others. *)

From S2P Require Import Prelude JsString JsCollections Json JsonText.
Import Json JsonText.

Module JsonLocal.

Lemma skip_ws_split s : exists w, s = w ++ skip_ws s /\ blank w.
Proof.
  induction s as [|c s (w & Hs & Hw)]; [by exists []; split; [|constructor]|].
  cbn [skip_ws]. destruct (is_ws c) eqn:E.
  - exists (c :: w). split; [cbn; by rewrite <- Hs|by constructor].
  - exists []. split; [done|constructor].
Qed.

Lemma accept_Some c s r : accept c s = Some r <-> s = c :: r.
Proof.
  destruct s as [|x s]; cbn [accept]; [done|]. destruct (x =? c) eqn:E; bool_hyps; naive_solver.
Qed.

Lemma prod_map_Some {A B C} (f : A -> C) (o : option (A * B)) y r :
  prod_map f id <$> o = Some (y, r) -> exists x, o = Some (x, r) /\ y = f x.
Proof. destruct o as [[x r']|]; [|done]. intros [= <- <-]. by exists x. Qed.

(** ** Strings and numbers *)

Lemma hex4_split s u r : hex4 s = Some (u, r) -> exists p, s = p ++ r /\ length p = 4%nat /\
  forall r', hex4 (p ++ r') = Some (u, r').
Proof.
  destruct s as [|a [|b [|c [|d s]]]]; cbn [hex4]; try done.
  destruct (hex_value a) eqn:Ha, (hex_value b) eqn:Hb, (hex_value c) eqn:Hc, (hex_value d) eqn:Hd;
    intros [= <- <-]. exists [a; b; c; d]. split_and!; [done|done|].
  intros r'. cbn [app hex4]. by rewrite Ha, Hb, Hc, Hd.
Qed.

Lemma parse_chars_local f s k r :
  parse_chars f s = Some (k, r) ->
  exists p, s = p ++ 34 :: r /\
    forall f' r', (length p < f')%nat -> parse_chars f' (p ++ 34 :: r') = Some (k, r').
Proof.
  revert s k. induction f as [|f IH]; intros s k; [done|]. cbn [parse_chars].
  destruct s as [|c s]; [done|]. destruct (c =? 34) eqn:E1; bool_hyps.
  { intros [= <- <-]. subst c. exists []. split; [done|]. intros [|f'] r'; [cbn; lia|done]. }
  destruct (c <? 32) eqn:E2; [done|]. destruct (c =? 92) eqn:E3; bool_hyps.
  - subst c. destruct s as [|e s]; [done|]. destruct (e =? 117) eqn:E4; bool_hyps.
    + subst e. destruct (hex4 s) as [[u s3]|] eqn:Eh; [|done].
      intros (k' & H & ->)%prod_map_Some.
      apply hex4_split in Eh as (ph & -> & Hl & Hh). destruct (IH _ _ H) as (p & -> & Hp).
      exists (92 :: 117 :: ph ++ p). split; [cbn; by rewrite <- app_assoc|].
      intros [|f'] r' Hf; [cbn in Hf; lia|]. cbn [length] in Hf. rewrite length_app in Hf.
      cbn [app parse_chars]. rewrite <- app_assoc, Hh, Hp by lia. done.
    + destruct (simple_escape e) as [u|] eqn:Ee; [|done].
      intros (k' & H & ->)%prod_map_Some. destruct (IH _ _ H) as (p & -> & Hp).
      exists (92 :: e :: p). split; [done|]. intros [|f'] r' Hf; [cbn in Hf; lia|]. cbn [length] in Hf.
      cbn [app parse_chars]. replace (e =? 117) with false by lia. rewrite Ee, Hp by lia. done.
  - intros (k' & H & ->)%prod_map_Some. destruct (IH _ _ H) as (p & -> & Hp).
    exists (c :: p). split; [done|]. intros [|f'] r' Hf; [cbn in Hf; lia|]. cbn [length] in Hf.
    cbn [app parse_chars]. replace (c =? 34) with false by lia. replace (c =? 92) with false by lia.
    replace (c <? 32) with false by lia. rewrite Hp by lia. done.
Qed.

(** The end of a text ends with a digit, unless nothing was read. *)
Definition ends_digit (p : jsstr) : Prop := match last p with Some c => is_digit c = true | None => True end.

Lemma ends_digit_app p ds : ds <> [] -> digits ds -> ends_digit (p ++ ds).
Proof.
  intros Hne Hd. destruct (exists_last Hne) as (ds' & c & ->). unfold ends_digit.
  rewrite app_assoc, last_snoc. apply Forall_app in Hd as [_ Hd]. by inversion Hd.
Qed.

(** [exp?] is nothing, or a text that ends with a digit. *)
Lemma parse_exp_local s e r :
  parse_exp s = Some (e, r) ->
  exists p, s = p ++ r /\ ends_digit p /\
    (p = [] \/ match p with c :: _ => is_digit c = false /\ c <> 46 | [] => False end) /\
    forall r', stops r' -> parse_exp (p ++ r') = Some (e, r').
Proof.
  intros H. assert (Some (0, s) = Some (e, r) -> exists p, s = p ++ r /\ ends_digit p /\
    (p = [] \/ match p with c :: _ => is_digit c = false /\ c <> 46 | [] => False end) /\
    forall r', stops r' -> parse_exp (p ++ r') = Some (e, r')) as Hnone.
  { intros [= <- <-]. exists []. split_and!; [done|done|by left|]. intros r' Hr. by apply parse_exp_stops. }
  destruct s as [|c s]; [by apply Hnone|]. cbn [parse_exp] in H.
  destruct ((c =? 101) || (c =? 69)) eqn:Ec; [|by apply Hnone]. clear Hnone.
  set (sg := match accept 45 s, accept 43 s with
             | Some r, _ => (-1, r) | None, Some r => (1, r) | None, None => (1, s) end) in H.
  assert (exists w, s = w ++ sg.2 /\ forall d t t', sg.2 = d :: t' -> is_digit d = true ->
     match accept 45 (w ++ d :: t), accept 43 (w ++ d :: t) with
     | Some r, _ => (-1, r) | None, Some r => (1, r) | None, None => (1, w ++ d :: t) end = (sg.1, d :: t))
    as (w & Hw & Hsg).
  { subst sg. destruct s as [|x s]; [by exists []|]. cbn [accept].
    destruct (x =? 45) eqn:E1; bool_hyps; [subst; by exists [45]|].
    destruct (x =? 43) eqn:E2; bool_hyps; [subst; by exists [43]|].
    exists []. split; [done|]. intros d t t' [= <- <-] Hd. cbn [app accept].
    by replace (x =? 45) with false by lia; replace (x =? 43) with false by lia. }
  destruct sg as [g s2]. cbn [fst snd] in *. destruct (take_digits s2) as [ds s3] eqn:Ed.
  apply take_digits_split in Ed as (-> & Hds & Hn). destruct (truthy ds) eqn:Et; [|done].
  injection H as <- <-. apply truthy_not_nil in Et. exists (c :: w ++ ds). split_and!.
  - cbn. by rewrite Hw, <- app_assoc.
  - rewrite app_comm_cons. by apply ends_digit_app.
  - right. unfold is_digit. bool_hyps. destruct Ec; bool_hyps; subst c; done.
  - intros r' Hr. destruct ds as [|d ds]; [done|]. inversion Hds as [|? ? Hd Hds']; subst.
    cbn [app]. unfold parse_exp. rewrite Ec, <- app_assoc. cbn [app].
    rewrite (Hsg d (ds ++ r') (ds ++ s3) eq_refl Hd).
    change (d :: ds ++ r') with ((d :: ds) ++ r').
    rewrite take_digits_prefix by (done || by apply stops_no_digit). done.
Qed.

Lemma parse_frac_local s fr r :
  parse_frac s = Some (fr, r) ->
  exists p, s = p ++ r /\ ends_digit p /\
    (p = [] \/ match p with c :: _ => is_digit c = false | [] => False end) /\
    forall r', no_digit r' -> (match r' with c :: _ => c <> 46 | [] => True end) ->
      parse_frac (p ++ r') = Some (fr, r').
Proof.
  unfold parse_frac. destruct (accept 46 s) as [s'|] eqn:Ea.
  - apply accept_Some in Ea as ->. destruct (take_digits s') as [ds s2] eqn:Ed.
    apply take_digits_split in Ed as (-> & Hds & Hn). destruct (truthy ds) eqn:Et; [|done].
    intros [= <- <-]. exists (46 :: ds). split_and!; [done| |by right|].
    + change (46 :: ds) with ([46] ++ ds). by apply ends_digit_app; [apply truthy_not_nil|].
    + intros r' Hr _. cbn [app accept]. change (46 =? 46) with true. cbn iota.
      rewrite take_digits_prefix by done. by rewrite Et.
  - intros [= <- <-]. exists []. split_and!; [done|done|by left|]. intros [|c r'] _ Hc; [done|].
    cbn [app accept]. by replace (c =? 46) with false by lia.
Qed.

Lemma ends_digit_join p q : ends_digit p -> ends_digit q -> ends_digit (p ++ q).
Proof. unfold ends_digit. rewrite last_app. by destruct (last q). Qed.

Lemma parse_number_local s n r :
  parse_number s = Some (n, r) ->
  exists p, s = p ++ r /\ p <> [] /\ ends_digit p /\
    match p with c :: _ => c = 45 \/ is_digit c = true | [] => False end /\
    forall r', stops r' -> parse_number (p ++ r') = Some (n, r').
Proof.
  unfold parse_number. set (sg := match accept 45 s with Some s' => (true, s') | None => (false, s) end).
  assert (exists w, s = w ++ sg.2 /\ (w = [] \/ w = [45]) /\ forall d t t', sg.2 = d :: t' -> is_digit d = true ->
    match accept 45 (w ++ d :: t) with Some s' => (true, s') | None => (false, w ++ d :: t) end = (sg.1, d :: t))
    as (w & Hw & Hw2 & Hsg).
  { subst sg. destruct s as [|x s]; [by exists []; split_and!; [|left|]|]. cbn [accept].
    destruct (x =? 45) eqn:E; bool_hyps; [subst; by exists [45]; split_and!; [|right|]|].
    exists []. split_and!; [done|by left|]. intros d t t' [= <- <-] Hd. cbn [app accept].
    by replace (x =? 45) with false by lia. }
  destruct sg as [g s2]. cbn [fst snd] in *. destruct (take_digits s2) as [int s3] eqn:Ed.
  apply take_digits_split in Ed as (-> & Hds & Hn).
  destruct (negb (truthy int) || _) eqn:Ei; [done|].
  destruct (parse_frac s3) as [[fr s4]|] eqn:Ef; [|done].
  destruct (parse_exp s4) as [[e s5]|] eqn:Ee; [|done]. intros [= <- <-].
  apply parse_frac_local in Ef as (pf & -> & Hpf & Hpf2 & Hf).
  apply parse_exp_local in Ee as (pe & -> & Hpe & Hpe2 & He).
  pose proof Ei as Ei'. apply orb_false_iff in Ei' as [Hint%negb_false_iff _].
  apply truthy_not_nil in Hint. destruct int as [|d int]; [done|]. inversion Hds as [|? ? Hd _]; subst.
  exists (w ++ (d :: int) ++ pf ++ pe). split_and!.
  - by rewrite <- !app_assoc.
  - by destruct Hw2 as [-> | ->].
  - rewrite app_assoc. apply ends_digit_join; [by apply ends_digit_app|by apply ends_digit_join].
  - destruct Hw2 as [-> | ->]; cbn; auto.
  - intros r' Hr. rewrite <- !app_assoc. cbn [app]. rewrite (Hsg d _ _ eq_refl Hd).
    change (d :: int ++ pf ++ pe ++ r') with ((d :: int) ++ pf ++ pe ++ r').
    assert (no_digit (pe ++ r') /\ match pe ++ r' with c :: _ => c <> 46 | [] => True end) as [Hne Hn46].
    { destruct Hpe2 as [-> | Hpe2]; [|destruct pe as [|x pe]; [done|exact Hpe2]]. cbn [app].
      destruct r' as [|x r']; [done|]. destruct Hr as (? & ? & _). done. }
    rewrite take_digits_prefix; [|done|by destruct Hpf2 as [-> | Hpf2]; [|destruct pf]].
    rewrite Ei, Hf, He by done. done.
Qed.

(** ** Values *)

(** A text with no space at either end. *)
Definition solid (p : jsstr) : Prop :=
  (exists c q, p = c :: q /\ is_space c = false) /\ (exists q c, p = q ++ [c] /\ is_space c = false).

Definition local_value (f : nat) : Prop := forall s v r,
  parse_value f s = Some (v, r) -> exists p, s = p ++ r /\ solid p /\
    forall f' r', (2 * length p <= f')%nat -> stops r' -> parse_value f' (p ++ r') = Some (v, r').

Definition local_elements (f : nat) : Prop := forall s l r,
  parse_elements f s = Some (l, r) -> exists p, s = p ++ 93 :: r /\
    forall f' r', (2 * length p + 1 < f')%nat -> parse_elements f' (p ++ 93 :: r') = Some (l, r').

Definition local_members (f : nat) : Prop := forall s l r,
  parse_members f s = Some (l, r) -> exists p, s = p ++ 125 :: r /\
    forall f' r', (2 * length p + 1 < f')%nat -> parse_members f' (p ++ 125 :: r') = Some (l, r').

Lemma solid_wrap o p c : is_space o = false -> is_space c = false -> solid (o :: p ++ [c]).
Proof. intros. split; [by exists o, (p ++ [c])|by exists (o :: p), c]. Qed.

Lemma separator_split r c r' :
  accept c (skip_ws r) = Some r' -> exists w, r = w ++ c :: r' /\ blank w.
Proof.
  intros E%accept_Some. destruct (skip_ws_split r) as (w & Hr & Hw). rewrite E in Hr. eauto.
Qed.

(** Associate every append to the right. *)
Ltac norm_app := repeat first [rewrite <- app_assoc | rewrite <- app_comm_cons].

Lemma skip_ws_char w c s : blank w -> is_ws c = false -> skip_ws (w ++ c :: s) = c :: s.
Proof. intros Hw Hc. rewrite skip_ws_blank by done. cbn [skip_ws]. by rewrite Hc. Qed.

(** Reading a blank and a value. *)
Lemma blank_value w p r' : blank w -> solid p -> skip_ws (w ++ p ++ r') = p ++ r'.
Proof.
  intros Hw [(c & q & -> & Hc) _]. rewrite skip_ws_blank by done. cbn [app skip_ws].
  destruct (is_ws c) eqn:E; [|done]. unfold is_ws in E. bool_hyps.
  rewrite !elem_of_cons, elem_of_nil in E. destruct E as [-> | [-> | [-> | [-> | []]]]]; done.
Qed.

Lemma solid_pos p : solid p -> (0 < length p)%nat.
Proof. intros [(c & q & -> & _) _]. cbn. lia. Qed.

Lemma elements_step f : local_value f -> local_elements f -> local_elements (S f).
Proof.
  intros HV HE s l r. cbn [parse_elements].
  destruct (skip_ws_split s) as (w0 & Hs & Hw0). set (t := skip_ws s) in *.
  destruct (parse_value f t) as [[v r1]|] eqn:Ev; [|done].
  apply HV in Ev as (p & Hp & Hsolid & Hv). pose proof (solid_pos p Hsolid).
  destruct (accept 93 (skip_ws r1)) as [r2|] eqn:E1.
  - intros [= <- <-]. apply separator_split in E1 as (w & -> & Hw).
    exists (w0 ++ p ++ w). split; [by rewrite Hs, Hp, <- !app_assoc|].
    intros [|f'] r' Hf; [lia|]. rewrite !length_app in Hf. cbn [parse_elements].
    rewrite <- !app_assoc, blank_value by done. rewrite Hv by (lia || by apply stops_blank).
    by rewrite skip_ws_char.
  - destruct (accept 44 (skip_ws r1)) as [r2|] eqn:E2; [|done].
    intros (l' & El & ->)%prod_map_Some. apply separator_split in E2 as (w & -> & Hw).
    apply HE in El as (pe & -> & He). exists (w0 ++ p ++ w ++ 44 :: pe).
    split; [by rewrite Hs, Hp, <- !app_assoc|].
    intros [|f'] r' Hf; [lia|]. rewrite !length_app in Hf. cbn [length] in Hf. cbn [parse_elements].
    rewrite <- !app_assoc, blank_value by done. rewrite Hv by (lia || by apply stops_blank).
    cbn [app]. rewrite skip_ws_char by done. cbn [accept]. change (44 =? 93) with false.
    change (44 =? 44) with true. cbn iota. by rewrite He by lia.
Qed.

Lemma members_step f : local_value f -> local_members f -> local_members (S f).
Proof.
  intros HV HM s l r. cbn [parse_members].
  destruct (accept 34 (skip_ws s)) as [s1|] eqn:Ea; [|done].
  apply separator_split in Ea as (w0 & Hs & Hw0).
  destruct (parse_chars (length s) s1) as [[k r1]|] eqn:Ek; [|done].
  apply parse_chars_local in Ek as (pk & -> & Hk).
  destruct (accept 58 (skip_ws r1)) as [r2|] eqn:Ec; [|done].
  apply separator_split in Ec as (w1 & -> & Hw1).
  destruct (skip_ws_split r2) as (w2 & Hr2 & Hw2). set (t := skip_ws r2) in *.
  destruct (parse_value f t) as [[v r3]|] eqn:Ev; [|done].
  apply HV in Ev as (p & Hp & Hsolid & Hv). pose proof (solid_pos p Hsolid).
  destruct (accept 125 (skip_ws r3)) as [r4|] eqn:E1.
  - intros [= <- <-]. apply separator_split in E1 as (w & -> & Hw).
    exists (w0 ++ 34 :: pk ++ 34 :: w1 ++ 58 :: w2 ++ p ++ w).
    split; [rewrite Hs, Hr2, Hp; by norm_app|].
    intros [|f'] r' Hf; [lia|]. repeat (rewrite length_app in Hf; cbn [length] in Hf). norm_app.
    cbn [parse_members]. rewrite skip_ws_char by done. cbn [accept]. change (34 =? 34) with true. cbn iota.
    rewrite Hk by (repeat (rewrite length_app; cbn [length]); lia). rewrite skip_ws_char by done.
    cbn [accept]. change (58 =? 58) with true. cbn iota. rewrite blank_value by done.
    rewrite Hv by (lia || by apply stops_blank). by rewrite skip_ws_char.
  - destruct (accept 44 (skip_ws r3)) as [r4|] eqn:E2; [|done].
    intros (l' & El & ->)%prod_map_Some. apply separator_split in E2 as (w & -> & Hw).
    apply HM in El as (pm & -> & Hm).
    exists (w0 ++ 34 :: pk ++ 34 :: w1 ++ 58 :: w2 ++ p ++ w ++ 44 :: pm).
    split; [rewrite Hs, Hr2, Hp; by norm_app|].
    intros [|f'] r' Hf; [lia|]. repeat (rewrite length_app in Hf; cbn [length] in Hf). norm_app.
    cbn [parse_members]. rewrite skip_ws_char by done. cbn [accept]. change (34 =? 34) with true. cbn iota.
    rewrite Hk by (repeat (rewrite length_app; cbn [length]); lia). rewrite skip_ws_char by done.
    cbn [accept]. change (58 =? 58) with true. cbn iota. rewrite blank_value by done.
    rewrite Hv by (lia || by apply stops_blank). rewrite skip_ws_char by done. cbn [accept].
    change (44 =? 125) with false. change (44 =? 44) with true. cbn iota. by rewrite Hm by lia.
Qed.

Lemma expect_Some lit s r : expect lit s = Some r -> s = lit ++ r.
Proof.
  unfold expect. destruct (startsWith s lit) eqn:E; [|done]. intros [= <-]. by apply startsWith_drop.
Qed.

(** A literal is its own prefix. *)
Lemma literal_local lit v s r :
  solid lit -> (forall f' r', parse_value (S f') (lit ++ r') = (fun r => (v, r)) <$> expect lit (lit ++ r')) ->
  expect lit s = Some r ->
  exists p, s = p ++ r /\ solid p /\
    forall f' r', (2 * length p <= f')%nat -> stops r' -> parse_value f' (p ++ r') = Some (v, r').
Proof.
  intros Hs Hp ->%expect_Some. exists lit. split_and!; [done|done|]. pose proof (solid_pos lit Hs).
  intros [|f'] r' Hf _; [lia|]. rewrite Hp, expect_app. done.
Qed.

Lemma number_local c s n r :
  c <> 123 -> c <> 91 -> c <> 34 -> c <> 116 -> c <> 102 -> c <> 110 ->
  parse_number (c :: s) = Some (n, r) ->
  exists p, c :: s = p ++ r /\ solid p /\
    forall f' r', (2 * length p <= f')%nat -> stops r' -> parse_value f' (p ++ r') = Some (JNum n, r').
Proof.
  intros N1 N2 N3 N4 N5 N6 (p & Hs & Hne & He & Hh & Hp)%parse_number_local.
  assert (solid p) as Hsolid.
  { split.
    - destruct p as [|d p]; [done|]. exists d, p. split; [done|].
      destruct Hh as [-> | Hd]; [done|]. by apply digit_not_space.
    - destruct (exists_last Hne) as (q & d & ->). exists q, d. split; [done|].
      unfold ends_digit in He. rewrite last_snoc in He. by apply digit_not_space. }
  exists p. split_and!; [done|done|]. intros [|f'] r' Hf Hr; [apply solid_pos in Hsolid; lia|].
  specialize (Hp r' Hr). destruct p as [|d p]; [done|]. cbn [app] in *. injection Hs as <- _.
  cbn [parse_value].
  repeat match goal with |- context [c =? ?k] => replace (c =? k) with false by lia end.
  by rewrite Hp.
Qed.

(** What is between the brackets starts with neither a blank nor the closing one. *)
Lemma inner_head s p c r w r' :
  skip_ws s = p ++ c :: r -> accept c (skip_ws s) = None -> blank w ->
  skip_ws (w ++ p ++ c :: r') = p ++ c :: r' /\ accept c (p ++ c :: r') = None.
Proof.
  intros Hs Ha Hw. rewrite Hs in Ha. destruct p as [|d p].
  { cbn in Ha. by rewrite Z.eqb_refl in Ha. }
  cbn [app accept] in *. destruct (d =? c) eqn:E; [done|]. split; [|done].
  apply skip_ws_char; [done|]. pose proof (skip_ws_idemp s) as Hi. rewrite Hs in Hi.
  cbn [skip_ws] in Hi. destruct (is_ws d) eqn:Ed; [|done].
  pose proof (skip_ws_length (p ++ c :: r)) as Hl. rewrite Hi in Hl. cbn in Hl. lia.
Qed.

Lemma value_step f : local_elements f -> local_members f -> local_value (S f).
Proof.
  intros HE HM s v r. cbn [parse_value]. destruct s as [|c s]; [done|].
  destruct (c =? 123) eqn:E1; bool_hyps.
  { subst c. destruct (accept 125 (skip_ws s)) as [r1|] eqn:Ea.
    - intros [= <- <-]. apply separator_split in Ea as (w & -> & Hw). exists (123 :: w ++ [125]).
      split_and!; [by norm_app|by apply solid_wrap|]. intros [|f'] r' Hf _; [cbn in Hf; lia|].
      norm_app. cbn [app parse_value]. change (123 =? 123) with true. cbn iota. by rewrite skip_ws_char.
    - intros (ms & Em & ->)%prod_map_Some. apply HM in Em as (pm & Hpm & Hm).
      destruct (skip_ws_split s) as (w & Hs & Hw). exists (123 :: (w ++ pm) ++ [125]).
      split_and!; [rewrite Hs, Hpm; by norm_app|by apply solid_wrap|].
      intros [|f'] r' Hf _; [cbn in Hf; lia|]. cbn [length] in Hf. rewrite !length_app in Hf. cbn [length] in Hf.
      destruct (inner_head s pm 125 r w r' Hpm Ea Hw) as [Hk Ha]. norm_app. cbn [app parse_value].
      change (123 =? 123) with true. cbn iota. by rewrite Hk, Ha, Hm by lia. }
  destruct (c =? 91) eqn:E2; bool_hyps.
  { subst c. destruct (accept 93 (skip_ws s)) as [r1|] eqn:Ea.
    - intros [= <- <-]. apply separator_split in Ea as (w & -> & Hw). exists (91 :: w ++ [93]).
      split_and!; [by norm_app|by apply solid_wrap|]. intros [|f'] r' Hf _; [cbn in Hf; lia|].
      norm_app. cbn [app parse_value]. change (91 =? 123) with false. change (91 =? 91) with true.
      cbn iota. by rewrite skip_ws_char.
    - intros (l & El & ->)%prod_map_Some. apply HE in El as (pe & Hpe & He).
      destruct (skip_ws_split s) as (w & Hs & Hw). exists (91 :: (w ++ pe) ++ [93]).
      split_and!; [rewrite Hs, Hpe; by norm_app|by apply solid_wrap|].
      intros [|f'] r' Hf _; [cbn in Hf; lia|]. cbn [length] in Hf. rewrite !length_app in Hf. cbn [length] in Hf.
      destruct (inner_head s pe 93 r w r' Hpe Ea Hw) as [Hk Ha]. norm_app. cbn [app parse_value].
      change (91 =? 123) with false. change (91 =? 91) with true. cbn iota. by rewrite Hk, Ha, He by lia. }
  destruct (c =? 34) eqn:E3; bool_hyps.
  { subst c. intros (k & Ek & ->)%prod_map_Some. apply parse_chars_local in Ek as (pk & -> & Hk).
    exists (34 :: pk ++ [34]). split_and!; [by norm_app|by apply solid_wrap|].
    intros [|f'] r' Hf _; [cbn in Hf; lia|]. norm_app. cbn [app parse_value].
    change (34 =? 123) with false. change (34 =? 91) with false. change (34 =? 34) with true. cbn iota.
    rewrite Hk by (cbn [length]; rewrite length_app; lia). done. }
  assert (forall lit v', solid lit ->
    (forall f' r', parse_value (S f') (lit ++ r') = (fun r => (v', r)) <$> expect lit (lit ++ r')) ->
    (fun r => (v', r)) <$> expect lit (c :: s) = Some (v, r) ->
    exists p, c :: s = p ++ r /\ solid p /\
      forall f' r', (2 * length p <= f')%nat -> stops r' -> parse_value f' (p ++ r') = Some (v, r')) as Hlit.
  { intros lit v' Hl Hp H. destruct (expect lit (c :: s)) as [r0|] eqn:Ee; [|done].
    injection H as <- <-. by apply (literal_local lit v'). }
  destruct (c =? 116) eqn:E4; bool_hyps.
  { subst c. apply Hlit; [|done]. by split; [eexists _, _|exists (js "tru"), 101]. }
  destruct (c =? 102) eqn:E5; bool_hyps.
  { subst c. apply Hlit; [|done]. by split; [eexists _, _|exists (js "fals"), 101]. }
  destruct (c =? 110) eqn:E6; bool_hyps.
  { subst c. apply Hlit; [|done]. by split; [eexists _, _|exists (js "nul"), 108]. }
  intros (n & En & ->)%prod_map_Some. by apply number_local.
Qed.

Lemma parse_local f : local_value f /\ local_elements f /\ local_members f.
Proof.
  induction f as [|f (HV & HE & HM)]; [by split_and!|].
  split_and!; [by apply value_step|by apply elements_step|by apply members_step].
Qed.

(** ** Fuel and trimming *)

Lemma ws_space c : is_ws c = true -> is_space c = true.
Proof.
  unfold is_ws. intros H. bool_hyps. rewrite !elem_of_cons, elem_of_nil in H.
  destruct H as [-> | [-> | [-> | [-> | []]]]]; done.
Qed.

Lemma trimStart_spaces w s : Forall (fun c => is_space c = true) w -> trimStart (w ++ s) = trimStart s.
Proof. induction 1 as [|c w Hc _ IH]; [done|]. cbn [app trimStart]. by rewrite Hc. Qed.

Lemma trim_solid w p r : blank w -> blank r -> solid p -> trim (w ++ p ++ r) = p.
Proof.
  intros Hw Hr [(c & q & Hp & Hc) (q' & d & Hp' & Hd)].
  assert (forall w, blank w -> Forall (fun c => is_space c = true) w) as Hb
    by (intros ? Hx; eapply Forall_impl; [exact Hx|]; apply ws_space).
  unfold trim. rewrite trimStart_spaces by auto.
  assert (trimStart (p ++ r) = p ++ r) as -> by (rewrite Hp; cbn [app trimStart]; by rewrite Hc).
  unfold trimEnd. rewrite rev_app_distr. rewrite trimStart_spaces by (apply Forall_rev; auto).
  rewrite Hp', rev_app_distr. cbn [rev app trimStart]. rewrite Hd. cbn [rev].
  by rewrite rev_involutive.
Qed.

(** Whatever fuel reads a whole text, the fuel of [JSON_parse] reads it and the
    trimmed text. *)
Lemma parse_any_fuel f s v r :
  parse_value f (skip_ws s) = Some (v, r) -> skip_ws r = [] ->
  JSON_parse s = Some v /\ JSON_parse (trim s) = Some v.
Proof.
  intros H Hr. destruct (parse_local f) as (HV & _).
  apply HV in H as (p & Hp & Hsolid & Hv). destruct (skip_ws_split s) as (w & Hs & Hw).
  assert (blank r) as Hb by (destruct (skip_ws_split r) as (w' & -> & ?); rewrite Hr, app_nil_r; done).
  rewrite Hp in Hs. unfold JSON_parse, json_fuel. split.
  - rewrite Hp, Hv; [by rewrite Hr| |].
    + rewrite Hs, !length_app. lia.
    + destruct Hb as [|x r' Hx _]; [done|]. apply ws_space in Hx as Hx'. cbn.
      unfold is_ws in Hx. bool_hyps. rewrite !elem_of_cons, elem_of_nil in Hx.
      destruct Hx as [-> | [-> | [-> | [-> | []]]]]; done.
  - rewrite Hs, trim_solid by done. pose proof (blank_value [] p [] ltac:(constructor) Hsolid) as Hk.
    cbn [app] in Hk. rewrite !app_nil_r in Hk. rewrite Hk.
    specialize (Hv (2 * S (length p))%nat []). rewrite app_nil_r in Hv. by rewrite Hv by (done || lia).
Qed.

Lemma parse_trim s v : JSON_parse s = Some v -> JSON_parse (trim s) = Some v.
Proof.
  intros H. unfold JSON_parse in H. destruct (parse_value _ _) as [[v' r]|] eqn:E; [|done].
  destruct (skip_ws r) eqn:Er; [|done]. injection H as ->. by eapply parse_any_fuel.
Qed.

End JsonLocal.
