(* ===== verification/JsValue.v ===== *)
(** * Dynamically typed values

    Parsed JSON reaches code that trusts its declared type: [String(v)],
    [Number(v)], property reads, [a || b] and spreads on whatever is there.
    A thrown exception is [None].  The property names the sources read are no
    names of a built-in prototype, so a read is a read of own properties. *)

From S2P Require Import Prelude JsString JsCollections Json JsonNumber JsonText.
Import Json.

Module JsValue.

(** [a || b], where [None] is [undefined]. *)
Definition js_or (a : option json) (b : json) : json :=
  match a with Some v => if json_truthy v then v else b | None => b end.

(** [s || ''] *)
Definition or_empty (s : option jsstr) : jsstr := s ?? [].

(** [a === true] *)
Definition is_true (a : option json) : bool :=
  match a with Some (JBool true) => true | _ => false end.

(** [a === s] for a string [s] *)
Definition is_str (a : option json) (s : jsstr) : bool :=
  match a with Some (JStr t) => bool_decide (t = s) | _ => false end.

(** [a === false] *)
Definition is_false (a : option json) : bool :=
  match a with Some (JBool false) => true | _ => false end.

(** [v.k]: reading a property of [null] throws. *)
Definition member_of (v : json) (k : jsstr) : option (option json) :=
  match v with JNull => None | _ => Some (prop v k) end.

(** [Boolean(s?.trim())] *)
Definition has_text (s : option jsstr) : bool :=
  match s with Some s => truthy (trim s) | None => false end.

(** [String(v)].  An own property named toString hides the built-in one and is
    never callable. *)
Fixpoint String_of (v : json) : option jsstr :=
  match v with
  | JNull => Some (js "null")
  | JBool true => Some (js "true")
  | JBool false => Some (js "false")
  | JNum n => Some (JsonNumber.num_text n)
  | JStr s => Some s
  | JArr l =>
      join [44] <$> mapM (fun x => match x with JNull => Some [] | _ => String_of x end) l
  | JObj fields =>
      match map_get fields (js "toString") with
      | Some _ => None
      | None => Some (js "[object Object]")
      end
  end.

(** The digits of a literal in base 16, 8 or 2. *)
Definition radix_value (r : Z) (ds : jsstr) : option Z :=
  if truthy ds then
    fold_left (fun acc c =>
      match acc, hex_value c with
      | Some a, Some d => if d <? r then Some (a * r + d) else None
      | _, _ => None
      end) ds (Some 0)
  else None.

Definition radix_prefix (s : jsstr) : option (Z * jsstr) :=
  match s with
  | z :: c :: ds =>
      if negb (z =? 48) then None
      else if (c =? 120) || (c =? 88) then Some (16, ds)
      else if (c =? 111) || (c =? 79) then Some (8, ds)
      else if (c =? 98) || (c =? 66) then Some (2, ds)
      else None
  | _ => None
  end.

(** [Number(s)] on a string; [None] is NaN or an infinity. *)
Definition num_of_text (s : jsstr) : option jnum :=
  let t := trim s in
  if negb (truthy t) then Some (mkNum 0 0)
  else
    match radix_prefix t with
    | Some (r, ds) => (fun n => mkNum n 0) <$> radix_value r ds
    | None =>
        let '(neg, u) :=
          match accept 45 t, accept 43 t with
          | Some u, _ => (true, u)
          | None, Some u => (false, u)
          | None, None => (false, t)
          end in
        let '(int, u) := take_digits u in
        let '(frac, u) := match accept 46 u with Some u' => take_digits u' | None => ([], u) end in
        if negb (truthy (int ++ frac)) then None
        else
          match parse_exp u with
          | Some (e, []) =>
              let m := parseDec (int ++ frac) in
              Some (mkNum (if neg then - m else m) (e - Z.of_nat (length frac)))
          | _ => None
          end
    end.

(** [Number(v)]: the outer option is the exception, the inner one NaN. *)
Definition Number_of (v : json) : option (option jnum) :=
  match v with
  | JNull => Some (Some (mkNum 0 0))
  | JBool b => Some (Some (mkNum (if b then 1 else 0) 0))
  | JNum n => Some (Some n)
  | JStr s => Some (num_of_text s)
  | JArr _ | JObj _ => num_of_text <$> String_of v
  end.

(** [s.toLowerCase()] on ASCII letters; the sources compare the result with
    words none of whose letters is the lower case of another character. *)
Definition toLowerCase (s : jsstr) : jsstr :=
  map (fun c => if (65 <=? c) && (c <=? 90) then c + 32 else c) s.

Definition index_keys (n : nat) : list jsstr := map (fun i => showZ (Z.of_nat i)) (seq 0 n).

(** The own enumerable properties of a value, as [Object.entries(v)] and
    [{...v}] see them. *)
Definition own_entries (v : json) : list (jsstr * json) :=
  match v with
  | JObj fields => Object_entries fields
  | JArr l => zip (index_keys (length l)) l
  | JStr s => zip (index_keys (length s)) (map (fun c => JStr [c]) s)
  | JNull | JBool _ | JNum _ => []
  end.

(** [{...a, ...b}] *)
Definition spread_onto (a b : list (jsstr * json)) : list (jsstr * json) :=
  fold_left (fun o '(k, v) => map_set o k v) b a.

(** ** Facts *)

Lemma wf_get fields k v : JsonText.wf_json (JObj fields) -> map_get fields k = Some v -> JsonText.wf_json v.
Proof.
  intros (_ & _ & Hw)%JsonText.wf_json_obj H%map_get_Some_elem.
  rewrite Forall_forall in Hw. apply Hw. apply list_elem_of_fmap. by exists (k, v).
Qed.

Lemma wf_prop v k x : JsonText.wf_json v -> prop v k = Some x -> JsonText.wf_json x.
Proof. destruct v; cbn [prop]; try done. apply wf_get. Qed.

Lemma spread_get a b k : NoDup b.*1 ->
  map_get (spread_onto a b) k = match map_get b k with Some v => Some v | None => map_get a k end.
Proof.
  unfold spread_onto. revert a. induction b as [|[k' v] b IH]; intros a Hn; [done|].
  rewrite fmap_cons in Hn. apply NoDup_cons in Hn as [Hk Hn]. cbn [fold_left map_get fst] in *. rewrite IH by done.
  case_decide as E; [subst|].
  - assert (map_get b k = None) as -> by by apply map_get_None. apply map_get_set_eq.
  - by rewrite map_get_set_ne.
Qed.

(** A loop that fills a map with a function of the key. *)
Lemma fold_set_get {A V} (key : A -> jsstr) (f : A -> V) (g : jsstr -> V) l acc k :
  (forall x, x ∈ l -> f x = g (key x)) ->
  map_get (fold_left (fun acc x => map_set acc (key x) (f x)) l acc) k
  = if decide (k ∈ key <$> l) then Some (g k) else map_get acc k.
Proof.
  revert acc. induction l as [|x l IH]; intros acc Hf; [by rewrite decide_False by set_solver|].
  cbn [fold_left]. rewrite IH by set_solver. rewrite fmap_cons.
  destruct (decide (k ∈ key <$> l)) as [Hk|Hk]; [by rewrite decide_True by set_solver|].
  destruct (decide (k = key x)) as [->|Hne].
  - rewrite decide_True by set_solver. rewrite map_get_set_eq. by rewrite Hf by set_solver.
  - rewrite map_get_set_ne by done. by rewrite decide_False by set_solver.
Qed.

(** ** Parsed values *)

(** Every object in the value has distinct keys. *)
Inductive distinct : json -> Prop :=
| distinct_null : distinct JNull
| distinct_bool b : distinct (JBool b)
| distinct_num n : distinct (JNum n)
| distinct_str s : distinct (JStr s)
| distinct_arr l : Forall distinct l -> distinct (JArr l)
| distinct_obj fields : NoDup fields.*1 -> Forall distinct fields.*2 -> distinct (JObj fields).

#[local] Hint Constructors distinct : core.

Lemma members_distinct ms : Forall distinct ms.*2 -> distinct (JObj (obj_of_members ms)).
Proof.
  intros H. constructor; [apply obj_of_members_nodup|]. rewrite Forall_forall in H |- *.
  intros v ([k v'] & -> & Hin)%list_elem_of_fmap. apply H. cbn [snd]. unfold obj_of_members in Hin.
  revert Hin. apply (fold_left_cons_inv (fun o => (k, v') ∈ o -> v' ∈ ms.*2)); [set_solver|].
  intros o [k1 v1] Hms IH [[-> ->]|Hin]%map_set_elem; [|by apply IH].
  apply list_elem_of_fmap. by exists (k1, v1).
Qed.

Lemma parse_fuel_distinct n :
  (forall s v r, parse_value n s = Some (v, r) -> distinct v) /\
  (forall s l r, parse_elements n s = Some (l, r) -> Forall distinct l) /\
  (forall s ms r, parse_members n s = Some (ms, r) -> Forall distinct ms.*2).
Proof.
  induction n as [|n (IHv & IHe & IHm)]; [done|]. split_and!; intros s x r.
  - cbn [parse_value]. destruct s as [|c s]; [done|]. repeat (case_match; try done).
    all: try (intros [[? ?] [? ?]]%fmap_Some; simplify_eq/=); try (intros [= <- _]; repeat constructor).
    all: try (by apply members_distinct; eauto); eauto.
    all: intros [? [? ?]]%fmap_Some; simplify_eq/=; auto.
  - cbn [parse_elements]. repeat (case_match; try done); [intros [= <- _]; eauto|].
    intros [[? ?] [? ?]]%fmap_Some; simplify_eq/=; eauto.
  - cbn [parse_members]. repeat (case_match; try done); [intros [= <- _]; cbn; eauto|].
    intros [[? ?] [? ?]]%fmap_Some; simplify_eq/=; eauto.
Qed.

Lemma parse_distinct s v : JSON_parse s = Some v -> distinct v.
Proof.
  unfold JSON_parse. destruct (parse_value _ _) as [[v' r]|] eqn:E; [|done]. case_match; [|done]. intros [= <-].
  by apply (parse_fuel_distinct (json_fuel s)) in E.
Qed.

Lemma parse_object_nodup s fields : JSON_parse s = Some (JObj fields) -> NoDup fields.*1.
Proof. intros H%parse_distinct. by inversion H. Qed.

Lemma distinct_prop v k x : distinct v -> prop v k = Some x -> distinct x.
Proof.
  destruct 1 as [| | | | |fields _ Hf]; try done. intros H%map_get_Some_elem. rewrite Forall_forall in Hf.
  apply Hf, list_elem_of_fmap. by exists (k, x).
Qed.

Lemma entries_get {A} (fields : list (jsstr * A)) k :
  NoDup fields.*1 -> map_get (Object_entries fields) k = map_get fields k.
Proof.
  intros Hn. assert (NoDup (Object_entries fields).*1) as He by (by rewrite js_sort_values_perm).
  destruct (map_get fields k) as [v|] eqn:E.
  - apply map_elem_get; [done|]. apply Object_entries_elem. by apply map_get_Some_elem.
  - rewrite map_get_None in E |- *. unfold map_keys in *. by rewrite js_sort_values_perm.
Qed.

Lemma indexed_get {A} (l : list A) k : all_digits k = false -> map_get (zip (index_keys (length l)) l) k = None.
Proof.
  intros Hk. rewrite map_get_None. unfold map_keys. intros ([k' v] & -> & Hin)%list_elem_of_fmap.
  apply elem_of_zip_l, list_elem_of_In, in_map_iff in Hin as (i & <- & _). cbn in Hk.
  rewrite all_digits_showZ in Hk by lia. done.
Qed.

(** A name that is no index is read from the own properties of an object. *)
Lemma own_get v k : distinct v -> all_digits k = false -> map_get (own_entries v) k = prop v k.
Proof.
  intros Hd Hk. destruct Hd; try done; cbn [own_entries prop].
  - rewrite <- (length_map (fun c => JStr [c]) s). by apply indexed_get.
  - by apply indexed_get.
  - by apply entries_get.
Qed.

Lemma own_nodup v : distinct v -> NoDup (own_entries v).*1.
Proof.
  assert (forall n, NoDup (index_keys n)) as Hi.
  { intros n. unfold index_keys. apply NoDup_fmap_2_strong; [|apply NoDup_seq].
    intros i j _ _ E. apply showZ_inj in E; lia. }
  intros Hd. destruct Hd; cbn [own_entries]; try constructor.
  - rewrite fst_zip; [apply Hi|]. unfold index_keys. by rewrite !length_map, length_seq.
  - rewrite fst_zip; [apply Hi|]. unfold index_keys. by rewrite length_map, length_seq.
  - by rewrite js_sort_values_perm.
Qed.

Example Number_samples :
  num_of_text (js " 0x1F4 ") = Some (mkNum 500 0) /\ num_of_text (js "5e2") = Some (mkNum 5 2)
  /\ num_of_text (js ".5") = Some (mkNum 5 (-1)) /\ num_of_text (js "Infinity") = None
  /\ num_of_text (js "5x") = None /\ num_of_text [] = Some (mkNum 0 0).
Proof. vm_compute. repeat split. Qed.

Example String_samples :
  String_of (JArr [JNull; JNum (mkNum 5 (-1)); JArr [JStr (js "a"); JObj []]]) = Some (js ",0.5,a,[object Object]")
  /\ String_of (JArr [JObj [(js "toString", JNull)]]) = None.
Proof. vm_compute. repeat split. Qed.

End JsValue.
