(* ===== verification/JsonCanon.v ===== *)
(** * Values and their texts

    A parsed value and the one that is read from its text are the same value in
    JavaScript; [canon] picks the representation the text has.  What the sources
    read of a value does not depend on the representation. *)

From S2P Require Import Prelude JsString JsCollections Json JsonNumber JsonText JsonLocal JsValue.
Import Json JsonNumber JsonText JsonLocal JsValue.

Module JsonCanon.

(** ** Idempotence *)

Lemma renum_idemp n : renum (renum n) = renum n.
Proof.
  pose proof (num_text_reads (renum n) [] I) as H. rewrite num_text_renum, num_text_reads in H by done.
  by injection H.
Qed.

Lemma canon_idemp v : canon (canon v) = canon v.
Proof.
  induction v as [|b|n|s|l IH|fs IH] using json_induction; cbn [canon]; try done.
  - by rewrite renum_idemp.
  - f_equal. rewrite map_map. apply map_ext_Forall. exact IH.
  - f_equal. rewrite <- Object_entries_map, Object_entries_idemp, map_map. f_equal.
    apply map_ext_in. intros [k x] Hin%list_elem_of_In. unfold prod_map, id. cbn [fst snd]. f_equal.
    rewrite Forall_forall in IH. apply IH, list_elem_of_fmap. by exists (k, x).
Qed.

Lemma pretty_canon v w : canon v = canon w -> JSON_pretty v = JSON_pretty w.
Proof. intros E. unfold JSON_pretty. by rewrite <- (print_canon _ _ v), E, print_canon. Qed.

Lemma stringify_canon v : JSON_stringify (canon v) = JSON_stringify v.
Proof. apply print_canon. Qed.

(** ** Reading a value *)

Lemma map_get_map {A B} (f : A -> B) (fs : list (jsstr * A)) k :
  map_get (map (prod_map Datatypes.id f) fs) k = f <$> map_get fs k.
Proof. induction fs as [|[k' x] fs IH]; [done|]. cbn. by case_decide. Qed.

Lemma keys_map {A B} (f : A -> B) (fs : list (jsstr * A)) : (map (prod_map Datatypes.id f) fs).*1 = fs.*1.
Proof. change (fst <$> (prod_map Datatypes.id f <$> fs) = fs.*1). by rewrite <- list_fmap_compose. Qed.

Lemma canon_get fs k : NoDup fs.*1 -> map_get (Object_entries (map (prod_map Datatypes.id canon) fs)) k = canon <$> map_get fs k.
Proof. intros Hn. rewrite entries_get by by rewrite keys_map. apply map_get_map. Qed.

Lemma map_map_set {A B} (f : A -> B) (o : list (jsstr * A)) k v :
  map (prod_map Datatypes.id f) (map_set o k v) = map_set (map (prod_map Datatypes.id f) o) k (f v).
Proof. induction o as [|[k' x] o IH]; [done|]. cbn. case_decide; [done|]. cbn. by rewrite IH. Qed.

Lemma renum_zero n : (mant (renum n) =? 0) = (mant n =? 0).
Proof.
  unfold renum. destruct (mant n =? 0) eqn:E; [done|]. cbv zeta. bool_hyps.
  destruct (strip_zeros_plain _ (showZ_plain (Z.abs (mant n)) ltac:(lia)) (showZ_not_nil _)) as [Hs Hne].
  pose proof (parseDec_pos _ Hs Hne) as Hp. apply Z.eqb_neq.
  assert (forall z, 0 < z -> Z.sgn (mant n) * z <> 0) as Hz by (intros; rewrite sgn_mul by done; case_match; lia).
  case_match; cbn [mant]; apply Hz; [|done]. bool_hyps.
  apply Z.mul_pos_pos; [done|]. apply Z.pow_pos_nonneg; lia.
Qed.

Lemma truthy_canon v : json_truthy (canon v) = json_truthy v.
Proof. destruct v; try done. cbn. by rewrite renum_zero. Qed.

Lemma js_or_canon a b : js_or (canon <$> a) (canon b) = canon (js_or a b).
Proof. destruct a as [v|]; [|done]. cbn. rewrite truthy_canon. by case_match. Qed.

(** [mapM] on options through a function of the elements. *)
Lemma omapM_ext {A B C} (f : B -> option C) (g : A -> option C) (h : A -> B) l :
  (forall x, x ∈ l -> f (h x) = g x) -> mapM f (map h l) = mapM g l.
Proof.
  induction l as [|x l IH]; intros H; [done|]. cbn [map mapM]. rewrite H by left.
  rewrite IH; [done|]. intros y Hy. apply H. by right.
Qed.

Lemma String_of_canon v : distinct v -> String_of (canon v) = String_of v.
Proof.
  induction v as [|b|n|s|l IH|fs IH] using json_induction; intros Hd; cbn [canon String_of]; try done.
  - by rewrite num_text_renum.
  - f_equal. apply omapM_ext. intros x Hx. inversion Hd as [| | | |? Hl|]; subst. rewrite Forall_forall in IH, Hl.
    specialize (IH x Hx (Hl x Hx)). by destruct x.
  - inversion Hd; subst. rewrite canon_get by done. by destruct (map_get fs _).
Qed.

(** ** Parsed values *)

Lemma wf_str_app a b : wf_str (a ++ b) <-> wf_str a /\ wf_str b.
Proof. apply Forall_app. Qed.

Lemma hex_value_range c v : hex_value c = Some v -> 0 <= v < 16.
Proof.
  unfold hex_value, is_digit. intros H.
  repeat match type of H with context [if ?b then _ else _] => destruct b eqn:? end;
    bool_hyps; simplify_eq; lia.
Qed.

Lemma hex4_range s u r : hex4 s = Some (u, r) -> 0 <= u < 65536.
Proof.
  destruct s as [|a [|b [|c [|d s]]]]; cbn [hex4]; try done.
  destruct (hex_value a) eqn:Ha, (hex_value b) eqn:Hb, (hex_value c) eqn:Hc, (hex_value d) eqn:Hd; try done.
  intros [= <- _]. apply hex_value_range in Ha, Hb, Hc, Hd. lia.
Qed.

Lemma simple_escape_range e u : simple_escape e = Some u -> 0 <= u < 65536.
Proof.
  unfold simple_escape. intros H.
  repeat match type of H with context [if ?b then _ else _] => destruct b eqn:? end; simplify_eq; lia.
Qed.

Lemma parse_chars_wf f s k r : parse_chars f s = Some (k, r) -> wf_str s -> wf_str k.
Proof.
  revert s k. induction f as [|f IH]; intros s k; [done|]. cbn [parse_chars].
  destruct s as [|c s]; [done|]. destruct (c =? 34); [intros [= <- <-] _; constructor|].
  destruct (c <? 32); [done|]. intros H [Hc Hs]%Forall_cons. revert H. destruct (c =? 92).
  - destruct s as [|e s]; [done|]. apply Forall_cons in Hs as [_ Hs]. destruct (e =? 117).
    + destruct (hex4 s) as [[u s3]|] eqn:Eh; [|done]. intros (k' & H & ->)%prod_map_Some.
      pose proof (hex4_range _ _ _ Eh). apply hex4_split in Eh as (p & -> & _). apply wf_str_app in Hs as [_ Hs].
      constructor; [done|]. by eapply IH.
    + destruct (simple_escape e) as [u|] eqn:Ee; [|done]. intros (k' & H & ->)%prod_map_Some.
      constructor; [by eapply simple_escape_range|]. by eapply IH.
  - intros (k' & H & ->)%prod_map_Some. constructor; [done|]. by eapply IH.
Qed.

Lemma skip_ws_wf s : wf_str s -> wf_str (skip_ws s).
Proof. destruct (skip_ws_split s) as (w & Hs & _). intros H. rewrite Hs in H. by apply wf_str_app in H as [_ ?]. Qed.

Lemma accept_wf c s r : accept c (skip_ws s) = Some r -> wf_str s -> wf_str r.
Proof. intros H%accept_Some Hs%skip_ws_wf. rewrite H in Hs. by apply Forall_cons in Hs as [_ ?]. Qed.

Lemma value_rest_wf f s v r : parse_value f s = Some (v, r) -> wf_str s -> wf_str r.
Proof.
  intros H Hs. apply (proj1 (parse_local f)) in H as (p & -> & _). by apply wf_str_app in Hs as [_ ?].
Qed.

Lemma chars_rest_wf f s k r : parse_chars f s = Some (k, r) -> wf_str s -> wf_str r.
Proof.
  intros H Hs. apply parse_chars_local in H as (p & -> & _). apply wf_str_app in Hs as [_ Hs].
  by apply Forall_cons in Hs as [_ ?].
Qed.

Lemma members_printable ms : Forall wf_str ms.*1 -> Forall printable ms.*2 -> printable (JObj (obj_of_members ms)).
Proof.
  intros Hk Hv. assert (forall kv, kv ∈ obj_of_members ms -> kv ∈ ms) as Hin.
  { intros kv. unfold obj_of_members. apply (fold_left_cons_inv (fun o => kv ∈ o -> kv ∈ ms)); [set_solver|].
    intros o [k1 v1] Hms IH H. destruct kv as [k v]. by apply map_set_elem in H as [[-> ->]|H]; [|by apply IH]. }
  constructor; [apply obj_of_members_nodup| |]; rewrite Forall_forall in *.
  - intros k (kv & -> & H)%list_elem_of_fmap. apply Hk, list_elem_of_fmap. eauto.
  - intros v (kv & -> & H)%list_elem_of_fmap. apply Hv, list_elem_of_fmap. eauto.
Qed.

Lemma parse_fuel_printable n :
  (forall s v r, parse_value n s = Some (v, r) -> wf_str s -> printable v) /\
  (forall s l r, parse_elements n s = Some (l, r) -> wf_str s -> Forall printable l) /\
  (forall s ms r, parse_members n s = Some (ms, r) -> wf_str s -> Forall wf_str ms.*1 /\ Forall printable ms.*2).
Proof.
  induction n as [|n (IHv & IHe & IHm)]; [done|]. split_and!; intros s x r.
  - cbn [parse_value]. destruct s as [|c s]; [done|].
    repeat (destruct (_ =? _); [|]).
    all: intros H [_ Hs]%Forall_cons; pose proof (skip_ws_wf s Hs) as Hw.
    all: try (by apply prod_map_Some in H as (? & _ & ->); constructor).
    + destruct (accept 125 (skip_ws s)); [injection H as <- _; by repeat constructor|].
      apply prod_map_Some in H as (ms & H & ->). by apply members_printable; eapply IHm.
    + destruct (accept 93 (skip_ws s)); [injection H as <- _; by repeat constructor|].
      apply prod_map_Some in H as (l & H & ->). constructor. by eapply IHe.
    + apply prod_map_Some in H as (k & H & ->). constructor. by eapply parse_chars_wf.
    + apply fmap_Some in H as (? & _ & [= -> _]). constructor.
    + apply fmap_Some in H as (? & _ & [= -> _]). constructor.
    + apply fmap_Some in H as (? & _ & [= -> _]). constructor.
  - cbn [parse_elements]. destruct (parse_value n (skip_ws s)) as [[v r1]|] eqn:Ev; [|done]. intros H Hs.
    pose proof (IHv _ _ _ Ev (skip_ws_wf s Hs)) as Hv. pose proof (value_rest_wf _ _ _ _ Ev (skip_ws_wf s Hs)) as Hr.
    destruct (accept 93 (skip_ws r1)); [injection H as <- _; by repeat constructor|].
    destruct (accept 44 (skip_ws r1)) as [r2|] eqn:E2; [|done]. apply prod_map_Some in H as (l & H & ->).
    constructor; [done|]. eapply IHe; [exact H|]. by eapply accept_wf.
  - cbn [parse_members]. destruct (accept 34 (skip_ws s)) as [s1|] eqn:E1; [|done].
    destruct (parse_chars _ s1) as [[k r1]|] eqn:Ek; [|done].
    destruct (accept 58 (skip_ws r1)) as [r2|] eqn:E2; [|done].
    destruct (parse_value n (skip_ws r2)) as [[v r3]|] eqn:Ev; [|done]. intros H Hs.
    pose proof (accept_wf _ _ _ E1 Hs) as Hs1. pose proof (parse_chars_wf _ _ _ _ Ek Hs1) as Hk.
    pose proof (chars_rest_wf _ _ _ _ Ek Hs1) as Hr1. pose proof (accept_wf _ _ _ E2 Hr1) as Hr2.
    pose proof (IHv _ _ _ Ev (skip_ws_wf _ Hr2)) as Hv. pose proof (value_rest_wf _ _ _ _ Ev (skip_ws_wf _ Hr2)) as Hr3.
    destruct (accept 125 (skip_ws r3)); [injection H as <- _; by repeat constructor|].
    destruct (accept 44 (skip_ws r3)) as [r4|] eqn:E4; [|done]. apply prod_map_Some in H as (ms & H & ->).
    destruct (IHm _ _ _ H (accept_wf _ _ _ E4 Hr3)). by split; constructor.
Qed.

(** [JSON.parse] gives values of UTF-16 strings with distinct keys. *)
Lemma parse_printable s v : wf_str s -> JSON_parse s = Some v -> printable v.
Proof.
  unfold JSON_parse. destruct (parse_value _ _) as [[v' r]|] eqn:E; [|done]. case_match; [|done]. intros Hs [= <-].
  apply (parse_fuel_printable (json_fuel s)) in E; [done|]. by apply skip_ws_wf.
Qed.

Lemma printable_distinct v : printable v -> distinct v.
Proof.
  induction v as [|b|n|s|l IH|fs IH] using json_induction; inversion 1; subst; constructor; try done;
    rewrite Forall_forall in *; auto.
Qed.

(** ** Printed texts are UTF-16 *)

(** A literal of a few units. *)
Ltac units := repeat (apply Forall_cons; split; [lia|]); apply Forall_nil_2.

Lemma digits_wf s : digits s -> wf_str s.
Proof. intros H. eapply Forall_impl; [exact H|]. intros c Hc. unfold is_digit in Hc. bool_hyps. lia. Qed.

Lemma num_text_wf n : wf_str (num_text n).
Proof.
  pose proof (showZ_digits (Z.abs (mant n)) ltac:(lia)) as Hd.
  assert (digits (strip_zeros (showZ (Z.abs (mant n))))) as Hs.
  { destruct (strip_zeros_app (showZ (Z.abs (mant n)))) as [k E]. rewrite E in Hd. by apply Forall_app in Hd as [Hd _]. }
  assert (forall k, wf_str (zeros k)) as Hz by (intros; by apply Forall_replicate).
  assert (wf_str (js "0.")) as H0 by (apply (bool_decide_unpack _); vm_compute; reflexivity).
  unfold num_text. case_match; [by apply (bool_decide_unpack _); vm_compute|]. cbv zeta.
  apply digits_wf in Hs. set (s := strip_zeros _) in *. apply wf_str_app. split; [case_match; by repeat constructor|].
  assert (forall z, wf_str (showZ (Z.abs z))) as Hsh by (intros; apply digits_wf, showZ_digits; lia).
  unfold wf_str in *. repeat case_match; repeat first [apply Forall_app; split | apply Forall_cons; split];
    by eauto using Forall_take, Forall_drop.
Qed.

Lemma hex_digit_wf n : 0 <= n < 16 -> 0 <= hex_digit n < 65536.
Proof. intros. unfold hex_digit. case_match; lia. Qed.

Lemma unicode_escape_wf c : 0 <= c < 65536 -> wf_str (unicode_escape c).
Proof.
  intros Hc. pose proof (Z.div_pos c 4096). pose proof (Z.div_lt_upper_bound c 4096 16).
  repeat constructor; try lia; apply hex_digit_wf; try (apply Z.mod_pos_bound; lia); lia.
Qed.

Lemma quote_chars_wf s : wf_str s -> wf_str (quote_chars s).
Proof.
  remember (length s) as n eqn:Hn. revert s Hn. induction n as [n IH] using lt_wf_ind. intros s -> Hs.
  assert (forall c, 0 <= c < 65536 -> wf_str (if is_lead c || is_trail c then unicode_escape c else quote_char c)) as Hc.
  { intros c Hc. case_match; [by apply unicode_escape_wf|]. unfold quote_char.
    repeat (case_match; [first [by apply unicode_escape_wf | units]|]). units. }
  destruct s as [|c [|d s]]; [constructor|apply Hc; by inversion Hs|].
  inversion Hs as [|? ? H1 Hs1]; subst. inversion Hs1 as [|? ? H2 Hs2]; subst. cbn [quote_chars].
  destruct (is_lead c && is_trail d).
  - constructor; [done|]. constructor; [done|]. eapply IH; [|done|done]. cbn. lia.
  - apply wf_str_app. split; [by apply Hc|]. change (wf_str (quote_chars (d :: s))).
    apply (IH (length (d :: s))); [cbn; lia|done|done].
Qed.

Lemma join_wf sep parts : wf_str sep -> Forall wf_str parts -> wf_str (join sep parts).
Proof.
  intros Hs H. apply Forall_forall. intros c [Hc|(p & Hp & Hc)]%join_elems.
  - unfold wf_str in Hs. rewrite Forall_forall in Hs. auto.
  - rewrite Forall_forall in H. specialize (H p Hp). unfold wf_str in H. rewrite Forall_forall in H. auto.
Qed.

Section Printed.
Variable gap : jsstr.
Hypothesis gap_wf : wf_str gap.

Lemma newline_wf ind : wf_str ind -> wf_str (newline gap ind).
Proof. intros. unfold newline. case_match; [|constructor]. by constructor. Qed.

Lemma bracket_wf o c ind items :
  0 <= o < 65536 -> 0 <= c < 65536 -> wf_str ind -> Forall wf_str items -> wf_str (bracket gap o c ind items).
Proof.
  intros Ho Hc Hi Hs. unfold bracket. assert (wf_str (ind ++ gap)) as Hd by by apply wf_str_app.
  destruct items; [units|]. constructor; [done|].
  rewrite !wf_str_app. split_and!; [by apply newline_wf| |by apply newline_wf|units].
  unfold items_text. apply join_wf; [|done]. constructor; [lia|]. by apply newline_wf.
Qed.

Lemma member_text_wf k v : wf_str k -> wf_str v -> wf_str (member_text gap (k, v)).
Proof.
  intros Hk Hv. unfold member_text, quote. cbn [fst snd]. rewrite wf_str_app. split.
  - constructor; [lia|]. rewrite wf_str_app. split; [by apply quote_chars_wf|units].
  - constructor; [lia|]. rewrite wf_str_app. split; [case_match; units|done].
Qed.

Lemma print_wf ind v : wf_str ind -> printable v -> wf_str (print gap ind v).
Proof.
  assert (forall s, bool_decide (wf_str s) = true -> wf_str s) as Hcl by (intros s H; by apply bool_decide_eq_true_1 in H).
  revert ind. induction v as [|b|n|s|l IH|fs IH] using json_induction; intros ind Hi Hp; cbn [print].
  - by apply Hcl; vm_compute.
  - destruct b; by apply Hcl; vm_compute.
  - apply num_text_wf.
  - inversion Hp; subst. constructor; [lia|]. rewrite wf_str_app. split; [by apply quote_chars_wf|units].
  - inversion Hp as [| | | |? Hl|]; subst. apply bracket_wf; [lia|lia|done|]. apply Forall_forall. intros x Hx.
    apply list_elem_of_In, in_map_iff in Hx as (v & <- & Hv%list_elem_of_In). rewrite Forall_forall in IH, Hl.
    apply IH; [done|by apply wf_str_app|by apply Hl].
  - inversion Hp as [| | | | |? Hn Hk Hv]; subst. apply bracket_wf; [lia|lia|done|]. apply Forall_forall. intros x Hx.
    apply list_elem_of_In, in_map_iff in Hx as ([k tx] & <- & Hin%list_elem_of_In).
    apply (proj1 (Object_entries_elem _ _)) in Hin. apply list_elem_of_In, in_map_iff in Hin as ([k' v] & [= <- <-] & Hin%list_elem_of_In).
    rewrite Forall_forall in IH, Hv. rewrite Forall_forall in Hk.
    assert (v ∈ fs.*2) by (apply list_elem_of_fmap; by exists (k', v)).
    apply member_text_wf; [apply Hk, list_elem_of_fmap; by exists (k', v)|].
    apply IH; [done|by apply wf_str_app|by apply Hv].
Qed.
End Printed.

Lemma stringify_wf v : printable v -> wf_str (JSON_stringify v).
Proof. apply print_wf; constructor. Qed.

Lemma pretty_wf v : printable v -> wf_str (JSON_pretty v).
Proof. apply print_wf; units. Qed.

Lemma printable_get fs k v : printable (JObj fs) -> map_get fs k = Some v -> printable v.
Proof.
  inversion 1 as [| | | | |? _ _ Hv]; subst. intros E%map_get_Some_elem. rewrite Forall_forall in Hv.
  apply Hv, list_elem_of_fmap. by exists (k, v).
Qed.

Lemma printable_prop v k x : printable v -> prop v k = Some x -> printable x.
Proof. destruct v; try done. apply printable_get. Qed.

Lemma trim_wf s : wf_str s -> wf_str (trim s).
Proof.
  intros H. destruct (trim_infix s) as (l & r & E & _). unfold wf_str in H. rewrite E in H.
  apply Forall_app in H as [_ H]. by apply Forall_app in H as [H _].
Qed.

Lemma parse_truthy s v : JSON_parse s = Some v -> truthy s = true.
Proof. by destruct s. Qed.

Lemma printable_delete fs k : printable (JObj fs) -> printable (JObj (map_delete fs k)).
Proof.
  intros H. inversion H as [| | | | |fs0 Hd Hk Hv E]; subst. constructor; [by apply map_delete_nodup| |].
  - apply Forall_fmap, Forall_forall. intros kv [Hin _]%map_delete_elem. rewrite Forall_fmap, Forall_forall in Hk. by apply Hk.
  - apply Forall_fmap, Forall_forall. intros kv [Hin _]%map_delete_elem. rewrite Forall_fmap, Forall_forall in Hv. by apply Hv.
Qed.

Lemma printable_set fs k v : wf_str k -> printable v -> printable (JObj fs) -> printable (JObj (map_set fs k v)).
Proof.
  intros Hk0 Hv0 H. inversion H as [| | | | |fs0 Hd Hk Hv E]; subst. constructor; [by apply map_keys_set_nodup| |].
  - apply Forall_fmap, Forall_forall. intros [k' v'] [[-> ->] | Hin]%map_set_elem; [done|].
    rewrite Forall_fmap, Forall_forall in Hk. by apply (Hk (k', v')).
  - apply Forall_fmap, Forall_forall. intros [k' v'] [[-> ->] | Hin]%map_set_elem; [done|].
    rewrite Forall_fmap, Forall_forall in Hv. by apply (Hv (k', v')).
Qed.

End JsonCanon.
