(* ===== verification/JsDouble.v ===== *)
(** * Numbers as the language computes with them

    IEEE 754 doubles ([SpecFloat] with 53 bits), the conversions between
    decimals and doubles, [Math.round], [toFixed] and the shortest decimal that
    reads back as a double, which is what [Number::toString] prints. *)

From S2P Require Import Prelude JsString JsCollections Json JsonNumber.
From Stdlib Require Import Floats.SpecFloat.

Module JsDouble.
Import Json JsonNumber.

Definition double : Type := spec_float.

#[export] Instance double_eq_dec : EqDecision double.
Proof. unfold double. solve_decision. Defined.

Definition is_finite (x : double) : bool :=
  match x with S754_zero _ | S754_finite _ _ _ => true | _ => false end.

(** The double nearest to [n / d]. *)
Definition of_ratio (neg : bool) (n d : Z) : double :=
  if n =? 0 then S754_zero neg
  else let '(m, e, l) := SFdiv_core_binary 53 1024 n 0 d 0 in binary_round_aux 53 1024 neg m e l.

(** The double a decimal literal stands for. *)
Definition of_num (n : jnum) : double :=
  if 0 <=? expo n then of_ratio (mant n <? 0) (Z.abs (mant n) * 10 ^ expo n) 1
  else of_ratio (mant n <? 0) (Z.abs (mant n)) (10 ^ (- expo n)).

Definition mul : double -> double -> double := SFmul 53 1024.
Definition div : double -> double -> double := SFdiv 53 1024.
Definition sub : double -> double -> double := SFsub 53 1024.
Definition abs : double -> double := SFabs.
Definition leb : double -> double -> bool := SFleb.
Definition of_Z (z : Z) : double := of_num (mkNum z 0).

(** [Math.max] of two numbers that are not NaN. *)
Definition max (x y : double) : double := if leb x y then y else x.

(** The absolute value of a finite number as a fraction, with its sign. *)
Definition fraction (x : double) : option (bool * Z * Z) :=
  match x with
  | S754_zero s => Some (s, 0, 1)
  | S754_finite s m e =>
      Some (if 0 <=? e then (s, Zpos m * 2 ^ e, 1) else (s, Zpos m, 2 ^ (- e)))
  | _ => None
  end.

(** [Math.round(x)]: the nearest integer, a half goes up. *)
Definition Math_round (x : double) : double :=
  match fraction x with
  | Some (s, n, d) =>
      let z := (2 * (if s then - n else n) + d) / (2 * d) in
      of_ratio s (Z.abs z) 1
  | None => x
  end.

(** [parseFloat(x.toFixed(f))]; a number of 22 digits is printed as it is. *)
Definition fixed (f : Z) (x : double) : double :=
  match fraction x with
  | Some (s, n, d) =>
      if n <? 10 ^ 21 * d then
        let m := (2 * n * 10 ^ f + d) / (2 * d) in of_num (mkNum (if s then - m else m) (- f))
      else x
  | None => x
  end.

(** ** The shortest decimal *)

(** The [e] with [10 ^ (e - 1) <= n / d < 10 ^ e], from the lengths of [n] and [d]. *)
Definition magnitude (n d : Z) : Z :=
  let e := Z.of_nat (length (showZ n)) - Z.of_nat (length (showZ d)) in
  if (if 0 <=? e then 10 ^ e * d <=? n else d <=? n * 10 ^ (- e)) then e + 1 else e.

(** [n / d] divided by [10 ^ p], rounded down and to the nearest. *)
Definition scaled (n d p : Z) : Z * Z :=
  let '(a, b) := if 0 <=? p then (n, d * 10 ^ p) else (n * 10 ^ (- p), d) in (a / b, (2 * a + b) / (2 * b)).

(** The decimals of [k] digits next to [x], the nearest first, that read as [x]. *)
Definition with_digits (x : double) (s : bool) (n d k : Z) : option jnum :=
  let p := magnitude n d - k in
  let '(low, near) := scaled n d p in
  let num m := mkNum (if s then - m else m) p in
  let other := if near =? low then low + 1 else low in
  if bool_decide (of_num (num near) = x) then Some (num near)
  else if bool_decide (of_num (num other) = x) then Some (num other) else None.

Fixpoint shortest_from (fuel : nat) (x : double) (s : bool) (n d k : Z) : option jnum :=
  match with_digits x s n d k, fuel with
  | Some r, _ => Some r
  | None, S fuel => shortest_from fuel x s n d (k + 1)
  | None, O => None
  end.

(** The decimal that is printed: at most 17 digits are needed.  [None] is NaN or an infinity. *)
Definition to_num (x : double) : option jnum :=
  match fraction x with
  | Some (s, n, d) => if n =? 0 then Some (mkNum 0 0) else shortest_from 16 x s n d 1
  | None => None
  end.

(** [x.toString()] of a finite number. *)
Definition double_text (x : double) : jsstr := match to_num x with Some n => num_text n | None => js "NaN" end.

(** ** Reading *)

(** The longest prefix of [s] that is a decimal literal. *)
Definition decimal_prefix (s : jsstr) : option jnum :=
  let t := trimStart s in
  let '(neg, u) :=
    match accept 45 t, accept 43 t with
    | Some u, _ => (true, u)
    | None, Some u => (false, u)
    | None, None => (false, t)
    end in
  let '(int, u) := take_digits u in
  let '(frac, u) := match accept 46 u with Some u' => take_digits u' | None => ([], u) end in
  if negb (truthy (int ++ frac)) then None
  else
    let e := match parse_exp u with Some (e, _) => e | None => 0 end in
    let m := parseDec (int ++ frac) in
    Some (mkNum (if neg then - m else m) (e - Z.of_nat (length frac))).

(** [parseFloat(s)] as a finite number; [None] is NaN or an infinity. *)
Definition parseFloat (s : jsstr) : option jnum := n ← decimal_prefix s; to_num (of_num n).

(** ** Samples *)

Example sum_sample : double_text (mul (of_num (mkNum 1 (-1))) (of_num (mkNum 3 0))) = js "0.30000000000000004".
Proof. vm_compute. reflexivity. Qed.

Example quotient_sample : double_text (div (of_num (mkNum 15 0)) (of_num (mkNum 7 (-1)))) = js "21.42857142857143".
Proof. vm_compute. reflexivity. Qed.

Example text_samples :
  map double_text [of_num (mkNum 5 (-324)); of_num (mkNum 17976931348623157 292); of_num (mkNum 1 21); of_num (mkNum 123456 (-6))]
  = [js "5e-324"; js "1.7976931348623157e+308"; js "1e+21"; js "0.123456"].
Proof. vm_compute. reflexivity. Qed.

Example round_samples :
  map (fun n => double_text (Math_round (of_num n))) [mkNum 25 (-1); mkNum (-25) (-1); mkNum (-26) (-1); mkNum 4 (-1)]
  = [js "3"; js "-2"; js "-3"; js "0"].
Proof. vm_compute. reflexivity. Qed.

Example parseFloat_samples :
  map parseFloat [js " 1.50abc"; js "abc"; js "0.1234567890123456789"; js ".5"; js "2e"]
  = [Some (mkNum 15 (-1)); None; Some (mkNum 12345678901234568 (-17)); Some (mkNum 5 (-1)); Some (mkNum 2 0)].
Proof. vm_compute. reflexivity. Qed.

End JsDouble.
