(* ===== verification/JsDoubleOrder.v ===== *)
(** * Differences of doubles

    [a - b] as a comparator: the difference of two finite numbers is rounded,
    but it never rounds to zero, so its sign is the order of the numbers.  The
    numbers are read as integers, in units of the smallest double. *)

From S2P Require Import Prelude JsString JsCollections Json JsonNumber JsDouble.
From Stdlib Require Import Floats.SpecFloat.

Module JsDoubleOrder.
Import JsDouble.

(** What [sort] sees of the number that a comparator returns; NaN counts as
    zero. *)
Definition sign (x : double) : Z :=
  match x with
  | S754_zero _ | S754_nan => 0
  | S754_infinity s | S754_finite s _ _ => if s then -1 else 1
  end.

(** A finite number in its normal form. *)
Definition regular (x : double) : bool := is_finite x && valid_binary 53 1024 x.

(** A finite number as a multiple of [2 ^ -1074]. *)
Definition value (x : double) : Z :=
  match x with S754_finite s m e => cond_Zopp s (Zpos m * 2 ^ (e + 1074)) | _ => 0 end.

(** ** Rounding keeps the sign *)

Lemma digits_pow p : 2 ^ (Zpos (digits2_pos p) - 1) <= Zpos p.
Proof.
  induction p as [p IH|p IH|]; cbn [digits2_pos]; [| |done];
    replace (Zpos (Pos.succ (digits2_pos p)) - 1) with (Z.succ (Zpos (digits2_pos p) - 1)) by lia;
    rewrite Z.pow_succ_r by lia; lia.
Qed.

Lemma shr_1_half r : 0 <= shr_m r -> shr_m (shr_1 r) = shr_m r / 2.
Proof.
  destruct r as [m r s]. cbn [shr_m]. intros H. destruct m as [|[p|p|]|p]; try done; cbn [shr_1 shr_m].
  - rewrite (Pos2Z.inj_xI p). apply (Z.div_unique _ _ _ 1); lia.
  - rewrite (Pos2Z.inj_xO p). apply (Z.div_unique _ _ _ 0); lia.
Qed.

Lemma iter_shr_1 n r : 0 <= shr_m r -> shr_m (iter_pos shr_1 n r) = shr_m r / 2 ^ Zpos n.
Proof.
  assert (forall m a, 0 <= m -> 0 <= m / 2 ^ Zpos a) as Hp by (intros; apply Z.div_pos; [done|apply Z.pow_pos_nonneg; lia]).
  revert r. induction n as [n IH|n IH|]; intros r Hr; cbn [iter_pos]; [| |by rewrite shr_1_half].
  - assert (0 <= shr_m (shr_1 r)) as H1 by (rewrite shr_1_half by done; by apply (Hp _ 1%positive)).
    rewrite (IH (iter_pos shr_1 n (shr_1 r))) by (rewrite IH by done; by apply Hp).
    rewrite IH, shr_1_half, !Z.div_div by lia. f_equal. rewrite (Pos2Z.inj_xI n).
    replace (2 * Zpos n + 1) with (1 + Zpos n + Zpos n) by lia. rewrite !Z.pow_add_r by lia. ring.
  - rewrite (IH (iter_pos shr_1 n r)) by (rewrite IH by done; by apply Hp). rewrite IH, Z.div_div by lia. f_equal.
    rewrite (Pos2Z.inj_xO n). replace (2 * Zpos n) with (Zpos n + Zpos n) by lia. by rewrite Z.pow_add_r by lia.
Qed.

Lemma record_of_loc m l : shr_m (shr_record_of_loc m l) = m.
Proof. by destruct l as [|[| |]]. Qed.

(** A number of the format is shifted by at most its digits beyond the 53rd. *)
Lemma shr_fexp_pos m e l :
  0 < m -> -1074 <= e -> 0 < shr_m (shr_fexp 53 1024 m e l).1 /\ -1074 <= (shr_fexp 53 1024 m e l).2.
Proof.
  intros Hm He. destruct m as [|p|p]; [lia| |lia]. unfold shr_fexp, fexp, emin. cbn [Zdigits2].
  set (n := Z.max _ _ - e). pose proof (digits_pow p) as Hp.
  assert (n <= 0 \/ n = Zpos (digits2_pos p) - 53) as Hn by lia.
  unfold shr. destruct n as [|k|k]; cbn [fst snd]; rewrite ?record_of_loc; [lia| |lia].
  destruct Hn as [Hn|Hn]; [lia|]. rewrite iter_shr_1; rewrite record_of_loc; [|lia]. split; [|lia].
  apply Z.div_str_pos. split; [lia|]. etrans; [|exact Hp]. apply Z.pow_le_mono_r; lia.
Qed.

Lemma round_ne_ge m l : m <= round_nearest_even m l.
Proof. destruct l as [|[| |]]; cbn; try case_match; lia. Qed.

Lemma round_aux_sign s m e l : 0 < m -> -1074 <= e -> sign (binary_round_aux 53 1024 s m e l) = if s then -1 else 1.
Proof.
  intros Hm He. unfold binary_round_aux. destruct (shr_fexp_pos m e l Hm He) as [Hm1 He1].
  destruct (shr_fexp 53 1024 m e l) as [r1 e1]. cbn [fst snd] in *.
  pose proof (round_ne_ge (shr_m r1) (loc_of_shr_record r1)) as Hr.
  destruct (shr_fexp_pos (round_nearest_even (shr_m r1) (loc_of_shr_record r1)) e1 loc_Exact) as [Hm2 _]; [lia|done|].
  destruct (shr_fexp _ _ _ e1 loc_Exact) as [r2 e2]. cbn [fst] in *. destruct (shr_m r2) as [|q|q]; try lia. by case_match.
Qed.

Lemma normalize_sign m e z : -1074 <= e -> sign (binary_normalize 53 1024 m e z) = Z.sgn m.
Proof.
  intros He. assert (forall s p, sign (binary_round 53 1024 s p e) = if s : bool then -1 else 1) as H.
  { intros s p. unfold binary_round, shl_align. destruct (_ - e) eqn:E; apply round_aux_sign; try lia. unfold fexp, emin. lia. }
  destruct m as [|p|p]; cbn [binary_normalize]; [done|by rewrite H..].
Qed.

(** ** Differences *)

Lemma iter_double m d : Zpos (Pos.iter xO m d) = Zpos m * 2 ^ Zpos d.
Proof.
  induction d as [|d IH] using Pos.peano_ind; [cbn; lia|]. rewrite Pos.iter_succ, Pos2Z.inj_xO, IH.
  rewrite Pos2Z.inj_succ, Z.pow_succ_r by lia. lia.
Qed.

Lemma align_value m e z : z <= e -> Zpos (fst (shl_align m e z)) = Zpos m * 2 ^ (e - z).
Proof.
  intros H. unfold shl_align. destruct (z - e) as [|d|d] eqn:E; cbn [fst]; [| lia |].
  - replace (e - z) with 0 by lia. lia.
  - rewrite iter_double. f_equal. f_equal. lia.
Qed.

Lemma regular_exponent s m e : regular (S754_finite s m e) = true -> -1074 <= e.
Proof. unfold regular, valid_binary, bounded, canonical_mantissa, fexp, emin. cbn [is_finite]. intros H. bool_hyps. lia. Qed.

Lemma value_align s m e z :
  -1074 <= z -> z <= e -> value (S754_finite s m e) = cond_Zopp s (Zpos (fst (shl_align m e z))) * 2 ^ (z + 1074).
Proof.
  intros Hz He. cbn [value]. rewrite align_value by done.
  replace (e + 1074) with (e - z + (z + 1074)) by lia. rewrite Z.pow_add_r by lia. destruct s; cbn [cond_Zopp]; lia.
Qed.

Lemma sign_finite s m e : -1074 <= e -> sign (S754_finite s m e) = Z.sgn (value (S754_finite s m e)).
Proof.
  intros He. cbn [sign value]. assert (0 < Zpos m * 2 ^ (e + 1074)) as H by (apply Z.mul_pos_pos; [lia|apply Z.pow_pos_nonneg; lia]).
  destruct s; cbn [cond_Zopp]; [rewrite Z.sgn_opp|]; by rewrite Z.sgn_pos.
Qed.

(** The sign of a rounded difference is the sign of the exact one. *)
Lemma sub_sign x y : regular x = true -> regular y = true -> sign (sub x y) = Z.sgn (value x - value y).
Proof.
  intros Hx Hy. destruct x as [sx|sx| |sx mx ex], y as [sy|sy| |sy my ey]; try done.
  - by destruct sx, sy.
  - apply regular_exponent in Hy. change (sub _ _) with (S754_finite (negb sy) my ey). rewrite sign_finite by done. f_equal.
    cbn [value]. destruct sy; cbn [negb cond_Zopp]; lia.
  - apply regular_exponent in Hx. change (sub _ _) with (S754_finite sx mx ex). rewrite sign_finite by done. f_equal.
    cbn [value]. lia.
  - apply regular_exponent in Hx, Hy. cbn [sub SFsub]. unfold sub, SFsub. set (z := Z.min ex ey).
    rewrite normalize_sign by lia. rewrite (value_align sx mx ex z), (value_align sy my ey z) by lia.
    rewrite <- Z.mul_sub_distr_r, Z.sgn_mul, (Z.sgn_pos (2 ^ _)); [lia|]. apply Z.pow_pos_nonneg; lia.
Qed.

(** ** The order of the language *)

(** [x < y] on finite numbers is the order of their values. *)
Lemma canonical_digits s m e :
  regular (S754_finite s m e) = true -> Zpos (digits2_pos m) <= 53 /\ (e = -1074 \/ Zpos (digits2_pos m) = 53) /\ -1074 <= e.
Proof. unfold regular, valid_binary, bounded, canonical_mantissa, fexp, emin. cbn [is_finite]. intros H. bool_hyps. lia. Qed.

Lemma digits_upper p : Zpos p < 2 ^ Zpos (digits2_pos p).
Proof.
  induction p as [p IH|p IH|]; cbn [digits2_pos]; [| |done]; rewrite Pos2Z.inj_succ, Z.pow_succ_r by lia; lia.
Qed.

Lemma exponents_compare m e n f :
  Zpos (digits2_pos m) <= 53 -> -1074 <= e -> Zpos (digits2_pos n) = 53 -> e < f ->
  Zpos m * 2 ^ (e + 1074) < Zpos n * 2 ^ (f + 1074).
Proof.
  intros Hm He Hn Hf. pose proof (digits_upper m) as Hu. pose proof (digits_pow n) as Hl. rewrite Hn in Hl.
  assert (2 ^ Zpos (digits2_pos m) <= 2 ^ 53) as H53 by (apply Z.pow_le_mono_r; lia).
  apply (Z.lt_le_trans _ (2 ^ 53 * 2 ^ (e + 1074))).
  - apply Z.mul_lt_mono_pos_r; [apply Z.pow_pos_nonneg|]; lia.
  - etrans; [|apply Z.mul_le_mono_nonneg_r; [apply Z.pow_nonneg; lia|exact Hl]].
    rewrite <- !Z.pow_add_r by lia. apply Z.pow_le_mono_r; lia.
Qed.

Lemma positive_compare s t m e n f :
  regular (S754_finite s m e) = true -> regular (S754_finite t n f) = true ->
  match Z.compare e f with Lt => Lt | Gt => Gt | Eq => Pos.compare_cont Eq m n end
  = (Zpos m * 2 ^ (e + 1074) ?= Zpos n * 2 ^ (f + 1074)).
Proof.
  intros (Hm & Hm' & He)%canonical_digits (Hn & Hn' & Hf)%canonical_digits.
  destruct (Z.compare_spec e f) as [<-|H|H].
  - apply (Zmult_compare_compat_r (Zpos m) (Zpos n)). apply Z.lt_gt, Z.pow_pos_nonneg; lia.
  - symmetry. apply Z.compare_lt_iff, exponents_compare; lia.
  - symmetry. apply Z.compare_gt_iff, exponents_compare; lia.
Qed.

(** Comparing two finite numbers compares their values. *)
Lemma compare_value x y : regular x = true -> regular y = true -> SFcompare x y = Some (value x ?= value y).
Proof.
  intros Hx Hy. destruct x as [sx|sx| |sx mx ex], y as [sy|sy| |sy my ey]; try done; cbn [SFcompare]; f_equal.
  - pose proof (sign_finite sy my ey (regular_exponent _ _ _ Hy)) as H. cbn [sign] in H. symmetry.
    destruct sy; [apply Z.compare_gt_iff|apply Z.compare_lt_iff]; cbn [value] in *; lia.
  - pose proof (sign_finite sx mx ex (regular_exponent _ _ _ Hx)) as H. cbn [sign] in H. symmetry.
    destruct sx; [apply Z.compare_lt_iff|apply Z.compare_gt_iff]; cbn [value] in *; lia.
  - pose proof (sign_finite sx mx ex (regular_exponent _ _ _ Hx)) as H1. cbn [sign] in H1.
    pose proof (sign_finite sy my ey (regular_exponent _ _ _ Hy)) as H2. cbn [sign] in H2.
    pose proof (positive_compare _ _ _ _ _ _ Hx Hy) as H. destruct sx, sy.
    + cbn [value cond_Zopp]. rewrite Z.compare_opp, (Z.compare_antisym (Zpos mx * _)), <- H. by destruct (ex ?= ey).
    + symmetry. apply Z.compare_lt_iff. lia.
    + symmetry. apply Z.compare_gt_iff. lia.
    + exact H.
Qed.

End JsDoubleOrder.
