(* ===== verification/ModelMapping.v ===== *)
(** * Channels: model lists and model mappings

    [features/channels/lib/model-mapping-validation.ts].  A model list is a
    comma-separated text, a model mapping the text of a JSON object from model
    names to model names. *)

From S2P Require Import Prelude JsString JsCollections Json JsonText JsonLocal JsValue.
Import Json JsValue.

Module ModelMapping.

(** ** Definitions *)

Definition parseModelsString (modelsStr : jsstr) : list jsstr :=
  if truthy modelsStr then filter_truthy (map trim (split 44 modelsStr)) else [].

Definition formatModelsArray (models : list jsstr) : jsstr := join [44] (set_of models).

Definition normalizeModelName (model : jsstr) : jsstr := trim model.

(** [JSON.parse] followed by the test for a plain object, in a [try]. *)
Definition parseObject (text : jsstr) : option (list (jsstr * json)) :=
  JSON_parse text ≫= as_plain_object.

Definition extractMappingSourceModels (modelMapping : jsstr) : list jsstr :=
  let trimmed := trim modelMapping in
  if negb (truthy trimmed) then []
  else
    match parseObject trimmed with
    | None => []
    | Some parsed => set_of (filter_truthy (map trim (Object_keys parsed)))
    end.

Definition extractRedirectModels (modelMapping : jsstr) : list jsstr :=
  let trimmed := trim modelMapping in
  if negb (truthy trimmed) then []
  else
    match parseObject trimmed with
    | None => []
    | Some parsed =>
        set_of (filter_truthy
          (omap (fun v => match v with JStr s => Some (trim s) | _ => None end) (Object_values parsed)))
    end.

Definition hasModelConfigChanged (currentModels : list jsstr) (currentModelMapping : jsstr)
    (initialModels : list jsstr) (initialModelMapping : jsstr) : bool :=
  ((length initialModels =? 0)%nat && negb (truthy initialModelMapping))
  || negb (length currentModels =? length initialModels)%nat
  || existsb (fun '(c, i) => negb (bool_decide (c = i))) (zip currentModels initialModels)
  || negb (bool_decide (trim currentModelMapping = trim initialModelMapping)).

(** [!modelMapping || modelMapping.trim() === ''] *)
Definition blankMapping (modelMapping : jsstr) : bool :=
  negb (truthy modelMapping) || negb (truthy (trim modelMapping)).

Definition findMissingModelsInMapping (modelMapping : jsstr) (currentModels : list jsstr) : list jsstr :=
  if blankMapping modelMapping then []
  else
    match parseObject modelMapping with
    | None => []
    | Some parsedMapping =>
        let modelSet := set_of (map normalizeModelName currentModels) in
        set_of (List.filter (fun key => truthy key && negb (bool_decide (key ∈ modelSet)))
          (map normalizeModelName (Object_keys parsedMapping)))
    end.

Record ModelMappingValidation := mkValidation { valid : bool; error : option jsstr }.

Definition validateModelMappingJson (modelMapping : jsstr) : ModelMappingValidation :=
  if blankMapping modelMapping then mkValidation true None
  else
    match JSON_parse modelMapping with
    | None => mkValidation false (Some (js "Model mapping must be valid JSON format"))
    | Some parsed =>
        match as_plain_object parsed with
        | None => mkValidation false (Some (js "Model mapping must be a valid JSON object"))
        | Some fields =>
            if existsb (fun v => match v with JStr _ => false | _ => true end) (Object_values fields)
            then mkValidation false (Some (js "Model mapping values must be strings"))
            else mkValidation true None
        end
    end.

Definition findExposedTargetModels (modelMapping : jsstr) (currentModels : list jsstr) : list jsstr :=
  let redirectModels := extractRedirectModels modelMapping in
  if (length redirectModels =? 0)%nat then []
  else
    let modelSet := set_of (map normalizeModelName currentModels) in
    List.filter (fun model => bool_decide (normalizeModelName model ∈ modelSet)) redirectModels.

Record ModelCategories := mkCategories {
  normalizedCurrentModels : list jsstr;
  normalizedRedirectModels : list jsstr;
  classificationSet : list jsstr;
  redirectOnlySet : list jsstr }.

Definition categorizeModelsWithRedirect (currentModels redirectModels : list jsstr) : ModelCategories :=
  let normalizedCurrent := set_of (filter_truthy (map normalizeModelName currentModels)) in
  let normalizedRedirect := set_of (filter_truthy (map normalizeModelName redirectModels)) in
  mkCategories normalizedCurrent normalizedRedirect
    (set_of (normalizedCurrent ++ normalizedRedirect))
    (set_of (List.filter (fun m => negb (bool_decide (m ∈ normalizedCurrent))) normalizedRedirect)).

(** ** Model lists *)

(** A name as the parser returns it. *)
Definition cleanName (m : jsstr) : Prop := m <> [] /\ trim m = m /\ 44 ∉ m.

#[export] Instance cleanName_dec m : Decision (cleanName m).
Proof. unfold cleanName. apply _. Defined.

Lemma trim_subset s c : c ∈ trim s -> c ∈ s.
Proof.
  intros Hc. destruct (trim_infix s) as (l & r & -> & _). rewrite !elem_of_app. auto.
Qed.

Lemma parseModelsString_clean s : Forall cleanName (parseModelsString s).
Proof.
  unfold parseModelsString. case_match; [|constructor]. apply Forall_forall.
  intros m [Hm Hne]%filter_truthy_elem. apply list_elem_of_In, in_map_iff in Hm as (p & <- & Hp).
  apply list_elem_of_In, split_elems in Hp as [Hp _]. split_and!; [done|apply trim_idemp|].
  intros Hc. apply Hp. by apply trim_subset.
Qed.

(** Joining clean names and parsing the text gives them back. *)
Lemma parse_join ms : Forall cleanName ms -> parseModelsString (join [44] ms) = ms.
Proof.
  intros H. destruct ms as [|m ms]; [done|].
  assert (m :: ms <> []) as Hne by done. revert Hne H. generalize (m :: ms). clear m ms. intros ms Hne H.
  unfold parseModelsString. destruct (truthy (join [44] ms)) eqn:E.
  - rewrite split_join; [|done|eapply Forall_impl; [exact H|]; by intros ? (_ & _ & ?)].
    assert (map trim ms = ms) as ->.
    { clear -H. induction H as [|m ms (_ & Hm & _) _ IH]; [done|]. cbn. by rewrite Hm, IH. }
    apply filter_truthy_all. eapply Forall_impl; [exact H|]. by intros ? (? & _).
  - destruct ms as [|m ms]; [done|]. inversion_clear H as [|? ? (Hm & _) _]. cbn in E.
    by destruct m, ms.
Qed.

Lemma set_of_clean ms : Forall cleanName ms -> Forall cleanName (set_of ms).
Proof. rewrite !Forall_forall. intros H m. rewrite set_of_elem. apply H. Qed.

Lemma trim_clean l : Forall cleanName l -> map trim l = l.
Proof. induction 1 as [|x l (_ & Hx & _) _ IH]; [done|]. cbn. by rewrite Hx, IH. Qed.

(** formatting a list of clean model names and parsing the text gives the
    distinct names in their order; in particular parsing, formatting and
    parsing again only drops repetitions. *)
Theorem models_roundtrip ms :
  Forall cleanName ms -> parseModelsString (formatModelsArray ms) = set_of ms.
Proof. intros H. by apply parse_join, set_of_clean. Qed.

Lemma models_roundtrip_witness :
  Forall cleanName [js "gpt-4"; js "o1 mini"; js "gpt-4"] /\
  parseModelsString (formatModelsArray [js "gpt-4"; js "o1 mini"; js "gpt-4"]) = [js "gpt-4"; js "o1 mini"].
Proof.
  assert (Forall cleanName [js "gpt-4"; js "o1 mini"; js "gpt-4"]) as H
    by (by apply (bool_decide_unpack _); vm_compute).
  split; [exact H|]. rewrite (models_roundtrip _ H). by vm_compute.
Defined.

(** ** Mappings *)

Lemma parseObject_trim m fs : parseObject m = Some fs -> parseObject (trim m) = Some fs.
Proof.
  unfold parseObject. destruct (JSON_parse m) as [v|] eqn:E; [|done].
  by rewrite (JsonLocal.parse_trim _ _ E).
Qed.

Lemma parse_not_blank m v : JSON_parse m = Some v -> blankMapping m = false.
Proof.
  intros H%JsonLocal.parse_trim. unfold blankMapping. destruct (trim m) eqn:E; [done|].
  destruct m; [done|done].
Qed.

(** Both validators and finders look at the same object. *)
Lemma valid_cases m :
  valid (validateModelMappingJson m) = true ->
  blankMapping m = true \/
  exists fs, parseObject m = Some fs /\ blankMapping m = false /\
    forall v, v ∈ Object_values fs -> exists t, v = JStr t.
Proof.
  unfold validateModelMappingJson. destruct (blankMapping m) eqn:Eb; [by left|].
  unfold parseObject. destruct (JSON_parse m) as [v|]; [|done]. cbn [mbind option_bind].
  destruct (as_plain_object v) as [fs|]; [|done]. case_match eqn:E; [done|]. intros _. right.
  exists fs. split_and!; [done|done|]. intros x Hx. destruct x; eauto; exfalso.
  all: assert (existsb (fun v => match v with JStr _ => false | _ => true end) (Object_values fs) = true)
         by (apply existsb_exists; eexists; split; [by apply list_elem_of_In, Hx|done]); congruence.
Qed.

(** on a mapping that the validator accepts, the missing models are the
    source models of the mapping that the list does not cover, in the same
    order: the finder, which parses the text as it is, agrees with the
    extractor, which trims it first. *)
Theorem missing_are_uncovered_sources m models :
  valid (validateModelMappingJson m) = true ->
  findMissingModelsInMapping m models
  = List.filter (fun k => negb (bool_decide (k ∈ set_of (map normalizeModelName models))))
      (extractMappingSourceModels m).
Proof.
  intros [Hb | (fs & Hp & Hb & _)]%valid_cases; unfold findMissingModelsInMapping; rewrite Hb.
  - unfold extractMappingSourceModels, blankMapping in *. destruct m as [|c m]; [done|].
    cbn [truthy negb orb] in Hb. by rewrite Hb.
  - unfold extractMappingSourceModels. rewrite Hp, (parseObject_trim _ _ Hp).
    unfold blankMapping in Hb. bool_hyps. rewrite H0. cbn [negb].
    rewrite <- filter_filter, set_of_filter. done.
Qed.

Lemma missing_are_uncovered_sources_witness :
  valid (validateModelMappingJson (Json.jq " {'gpt-4 ': 'x', 'o1': 'y', '': 'z'} ")) = true /\
  findMissingModelsInMapping (Json.jq " {'gpt-4 ': 'x', 'o1': 'y', '': 'z'} ") [js " o1"] = [js "gpt-4"].
Proof.
  assert (valid (validateModelMappingJson (Json.jq " {'gpt-4 ': 'x', 'o1': 'y', '': 'z'} ")) = true) as H
    by (by vm_compute).
  split; [exact H|]. rewrite (missing_are_uncovered_sources _ [js " o1"] H). by vm_compute.
Defined.

(** A model is reported exactly when it is the trimmed name of a source and not
    in the list. *)
Lemma missing_elem m models fs k :
  parseObject m = Some fs ->
  k ∈ findMissingModelsInMapping m models <->
  k <> [] /\ k ∈ map trim (Object_keys fs) /\ k ∉ map trim models.
Proof.
  intros Hp. unfold findMissingModelsInMapping.
  assert (blankMapping m = false) as ->.
  { unfold parseObject in Hp. destruct (JSON_parse m) as [v|] eqn:E; [|done]. by eapply parse_not_blank. }
  rewrite Hp, set_of_elem, list_elem_of_In, List.filter_In, andb_true_iff, negb_true_iff,
    bool_decide_eq_false, set_of_elem, <- list_elem_of_In.
  destruct k; naive_solver.
Qed.

Lemma missing_none m models : parseObject m = None -> findMissingModelsInMapping m models = [].
Proof. intros H. unfold findMissingModelsInMapping. rewrite H. by destruct (blankMapping m). Qed.

(** Adding what is missing leaves nothing missing, if no name has a comma. *)
Lemma add_missing m models :
  let missing := findMissingModelsInMapping m (parseModelsString models) in
  Forall (fun k => 44 ∉ k) missing ->
  findMissingModelsInMapping m
    (parseModelsString (formatModelsArray (set_of (parseModelsString models ++ missing)))) = [].
Proof.
  intros missing Hc. destruct (parseObject m) as [fs|] eqn:Hp; [|by apply missing_none].
  assert (Forall cleanName (parseModelsString models ++ missing)) as Hclean.
  { apply Forall_app. split; [apply parseModelsString_clean|]. rewrite Forall_forall in Hc |- *.
    intros k Hk. pose proof (Hc k Hk). apply (missing_elem m _ fs k Hp) in Hk as (Hne & Hk & _).
    apply list_elem_of_In, in_map_iff in Hk as (k' & <- & _). split_and!; [done|apply trim_idemp|done]. }
  unfold formatModelsArray. rewrite parse_join by (by do 2 apply set_of_clean).
  apply list_nil_elem. intros k (Hne & Hk & Hn)%(missing_elem m _ fs k Hp). apply Hn.
  rewrite trim_clean by (by do 2 apply set_of_clean). rewrite !set_of_elem, elem_of_app.
  destruct (decide (k ∈ parseModelsString models)) as [|Hm]; [by left|right].
  apply (missing_elem m _ fs k Hp). split_and!; [done|done|].
  rewrite trim_clean by apply parseModelsString_clean. done.
Qed.

(** ** What the texts say *)

(** The text lists the model, as one of its parts between commas. *)
Definition listsModel (text m : jsstr) : Prop := m <> [] /\ exists part, part ∈ split 44 text /\ m = trim part.

(** The mapping has a source that the list of models does not have. *)
Definition uncoveredSource (mapping models k : jsstr) : Prop :=
  k <> [] /\ ~ listsModel models k /\
  exists fields key value, parseObject mapping = Some fields /\ (key, value) ∈ fields /\ k = trim key.

Lemma parseModelsString_elem text m : m ∈ parseModelsString text <-> listsModel text m.
Proof.
  unfold parseModelsString, listsModel. destruct text as [|x text]; cbn [truthy].
  - split; [set_solver|]. intros (Hm & part & Hp & ->). apply list_elem_of_singleton in Hp as ->. done.
  - rewrite filter_truthy_elem, list_elem_of_In, in_map_iff. setoid_rewrite <- list_elem_of_In. naive_solver.
Qed.

Lemma missing_uncovered mapping models k :
  k ∈ findMissingModelsInMapping mapping (parseModelsString models) <-> uncoveredSource mapping models k.
Proof.
  unfold uncoveredSource. rewrite <- parseModelsString_elem. destruct (parseObject mapping) as [fields|] eqn:Hp.
  - rewrite (missing_elem _ _ _ _ Hp), (trim_clean (parseModelsString models)) by apply parseModelsString_clean.
    rewrite (list_elem_of_In (map _ _)), in_map_iff.
    setoid_rewrite <- list_elem_of_In. unfold Object_keys. setoid_rewrite list_elem_of_fmap.
    setoid_rewrite Object_entries_elem. split.
    + intros (Hk & (key & <- & [[key' v] [-> Hin]]) & Hn). split_and!; [done|done|]. by exists fields, key', v.
    + intros (Hk & Hn & fs & key & v & [= <-] & Hin & ->). split_and!; [done| |done].
      exists key. split; [done|]. by exists (key, v).
  - rewrite missing_none by done. split; [set_solver|naive_solver].
Qed.

Lemma missing_nodup mapping models : NoDup (findMissingModelsInMapping mapping models).
Proof. unfold findMissingModelsInMapping. repeat case_match; try constructor. apply set_of_nodup. Qed.

(** The text with the missing models added: those that were there, once each,
    and then the missing ones. *)
Lemma added_text models missing :
  NoDup missing -> (forall k, k ∈ missing -> k ∉ models) ->
  formatModelsArray (set_of (models ++ missing)) = join [44] (set_of models ++ missing).
Proof.
  intros Hn Hd. unfold formatModelsArray. f_equal. rewrite (set_of_id (set_of _)) by apply set_of_nodup.
  induction missing as [|k missing IH] using rev_ind; [by rewrite !app_nil_r|].
  apply NoDup_app in Hn as (Hn & Hk & _). rewrite !app_assoc, set_of_snoc, IH by set_solver.
  unfold set_add. rewrite decide_False; [done|]. rewrite elem_of_app, set_of_elem. set_solver.
Qed.

Lemma added_models models missing m :
  Forall cleanName models -> Forall cleanName missing ->
  listsModel (join [44] (set_of models ++ missing)) m <-> m ∈ models \/ m ∈ missing.
Proof.
  intros H1 H2. rewrite <- parseModelsString_elem, parse_join, elem_of_app, set_of_elem; [done|].
  apply Forall_app. split; [by apply set_of_clean|done].
Qed.

(** ** Categories *)

(** the models shown are the current ones and, apart from them, those that
    are only targets of the mapping. *)
Theorem categories_partition current redirect :
  let c := categorizeModelsWithRedirect current redirect in
  classificationSet c ≡ₚ normalizedCurrentModels c ++ redirectOnlySet c /\ NoDup (classificationSet c).
Proof.
  cbn. split; [|apply set_of_nodup]. set (cur := set_of (filter_truthy (map normalizeModelName current))).
  apply NoDup_Permutation; [apply set_of_nodup| |].
  - apply NoDup_app. split_and!; [apply set_of_nodup| |apply set_of_nodup].
    intros x Hx Hr. rewrite set_of_elem, list_elem_of_In, List.filter_In, negb_true_iff, bool_decide_eq_false in Hr.
    tauto.
  - intros x. rewrite set_of_elem, !elem_of_app, (set_of_elem (List.filter _ _)).
    rewrite (list_elem_of_In (List.filter _ _)), List.filter_In, negb_true_iff, bool_decide_eq_false,
      <- list_elem_of_In.
    destruct (decide (x ∈ cur)); tauto.
Qed.

End ModelMapping.
