(* ===== verification/StatusCodeRisk.v ===== *)
(** * Channels: the status code mapping guard

    [features/channels/lib/status-code-risk-guard.ts].  A channel can map the
    status code of an upstream answer to another one.  Before a channel is
    saved the guard lists the entries that are no mapping of codes, and the
    redirections of the codes 504 and 524 that the channel did not have. *)

From S2P Require Import Prelude JsString JsCollections Json JsonText JsValue ModelMapping.
Import Json JsValue.

Module StatusCodeRisk.

(** ** Definitions *)

Definition NON_REDIRECTABLE_STATUS_CODES : list Z := [504; 524].

(** [/^[1-5]\d{2}$/] *)
Definition isCodeText (s : jsstr) : bool :=
  match s with
  | [a; b; c] => (49 <=? a) && (a <=? 53) && is_digit b && is_digit c
  | _ => false
  end.

Definition parseStatusCodeKey (rawKey : jsstr) : option Z :=
  let normalized := trim rawKey in
  if negb (isCodeText normalized) then None else Some (parseDec normalized).

Definition inCodeRange (code : Z) : option Z :=
  if (100 <=? code) && (code <=? 599) then Some code else None.

Definition parseStatusCodeMappingTarget (rawValue : json) : option Z :=
  match rawValue with
  | JNum n => match num_integer n with Some code => inCodeRange code | None => None end
  | JStr s =>
      let normalized := trim s in
      if negb (isCodeText normalized) then None else inCodeRange (parseDec normalized)
  | _ => None
  end.

(** The text of an invalid entry: the key, an arrow and [String(rawValue)]. *)
Definition invalidEntry (rawKey : jsstr) (rawValue : json) : option jsstr :=
  (fun t => rawKey ++ [32; 8594; 32] ++ t) <$> String_of rawValue.

(** The loop over the entries; [None] is the exception of [String]. *)
Fixpoint invalidEntries (entries : list (jsstr * json)) : option (list jsstr) :=
  match entries with
  | [] => Some []
  | (rawKey, rawValue) :: entries' =>
      match parseStatusCodeKey rawKey, parseStatusCodeMappingTarget rawValue with
      | Some _, Some _ => invalidEntries entries'
      | _, _ => t ← invalidEntry rawKey rawValue; cons t <$> invalidEntries entries'
      end
  end.

Definition collectInvalidStatusCodeEntries (statusCodeMappingStr : jsstr) : option (list jsstr) :=
  if negb (truthy (trim statusCodeMappingStr)) then Some []
  else
    match ModelMapping.parseObject statusCodeMappingStr with
    | None => Some []
    | Some parsed => invalidEntries (Object_entries parsed)
    end.

Definition redirectText (fromCode toCode : Z) : jsstr := showZ fromCode ++ js " -> " ++ showZ toCode.

(** The body of the loop: the redirection to report, if any. *)
Definition riskyMapping (entry : jsstr * json) : option jsstr :=
  match parseStatusCodeKey entry.1, parseStatusCodeMappingTarget entry.2 with
  | Some fromCode, Some toCode =>
      if negb (bool_decide (fromCode ∈ NON_REDIRECTABLE_STATUS_CODES)) then None
      else if fromCode =? toCode then None
      else Some (redirectText fromCode toCode)
  | _, _ => None
  end.

Definition collectDisallowedStatusCodeRedirects (statusCodeMappingStr : jsstr) : list jsstr :=
  if negb (truthy (trim statusCodeMappingStr)) then []
  else
    match ModelMapping.parseObject statusCodeMappingStr with
    | None => []
    | Some parsed => js_sort compareUnits (set_of (omap riskyMapping (Object_entries parsed)))
    end.

Definition collectNewDisallowedStatusCodeRedirects (originalStr currentStr : jsstr) : list jsstr :=
  let currentRisky := collectDisallowedStatusCodeRedirects currentStr in
  if (length currentRisky =? 0)%nat then []
  else
    let originalRiskySet := set_of (collectDisallowedStatusCodeRedirects originalStr) in
    List.filter (fun mapping => negb (bool_decide (mapping ∈ originalRiskySet))) currentRisky.

(** ** What a mapping means *)

(** The text of a status code between 100 and 599: its three digits, with
    spaces around them. *)
Definition codeText (s : jsstr) (c : Z) : Prop := 100 <= c <= 599 /\ trim s = showZ c.

(** The values that stand for a status code: its text, or the whole number. *)
Definition codeValue (v : json) (c : Z) : Prop :=
  100 <= c <= 599 /\
  match v with JStr s => trim s = showZ c | JNum n => num_integer n = Some c | _ => False end.

(** The text is an object that maps the code [fromCode] to [toCode]. *)
Definition mapsCode (text : jsstr) (fromCode toCode : Z) : Prop :=
  exists fields key value, ModelMapping.parseObject text = Some fields /\ (key, value) ∈ fields /\
    codeText key fromCode /\ codeValue value toCode.

(** The text redirects the code [fromCode] to [toCode]. *)
Definition redirects (text : jsstr) (fromCode toCode : Z) : Prop :=
  exists fields key value, ModelMapping.parseObject text = Some fields /\ (key, value) ∈ fields /\
    parseStatusCodeKey key = Some fromCode /\ parseStatusCodeMappingTarget value = Some toCode.

Lemma parseObject_not_blank text fields :
  ModelMapping.parseObject text = Some fields -> truthy (trim text) = true.
Proof.
  unfold ModelMapping.parseObject. destruct (JSON_parse text) as [v|] eqn:E; [|done].
  apply ModelMapping.parse_not_blank in E. unfold ModelMapping.blankMapping in E. bool_hyps. done.
Qed.

Lemma disallowed_elem text t :
  t ∈ collectDisallowedStatusCodeRedirects text <->
  exists fromCode toCode, redirects text fromCode toCode /\
    fromCode ∈ NON_REDIRECTABLE_STATUS_CODES /\ fromCode <> toCode /\ t = redirectText fromCode toCode.
Proof.
  unfold collectDisallowedStatusCodeRedirects, redirects.
  destruct (ModelMapping.parseObject text) as [fields|] eqn:Hp.
  - rewrite (parseObject_not_blank _ _ Hp). cbn [negb].
    rewrite js_sort_elem, set_of_elem, list_elem_of_omap. split.
    + intros ([k v] & Hin & Hr). rewrite Object_entries_elem in Hin. unfold riskyMapping in Hr. cbn [fst snd] in Hr.
      destruct (parseStatusCodeKey k) as [f|] eqn:Hf; [|done].
      destruct (parseStatusCodeMappingTarget v) as [c|] eqn:Hc; [|done].
      case_bool_decide; [|done]. destruct (f =? c) eqn:E; [done|]. bool_hyps. injection Hr as <-.
      exists f, c. split_and!; [by exists fields, k, v|done|done|done].
    + intros (f & c & (? & k & v & [= <-] & Hin & Hf & Hc) & Hmem & Hne & ->).
      exists (k, v). split; [by apply Object_entries_elem|]. unfold riskyMapping. cbn [fst snd].
      rewrite Hf, Hc, bool_decide_eq_true_2 by done. cbn [negb].
      by replace (f =? c) with false by lia.
  - split; [|naive_solver]. case_match; set_solver.
Qed.

Lemma target_range v c : parseStatusCodeMappingTarget v = Some c -> 100 <= c <= 599.
Proof.
  unfold parseStatusCodeMappingTarget, inCodeRange. repeat case_match; try done; intros [= <-]; bool_hyps; lia.
Qed.

(** The digits of a status code. *)
Lemma showZ_code c :
  100 <= c <= 599 -> showZ c = [48 + c / 100; 48 + c / 10 mod 10; 48 + c mod 10].
Proof.
  intros H.
  assert (forallb (fun i => let c := 100 + Z.of_nat i in
      bool_decide (showZ c = [48 + c / 100; 48 + c / 10 mod 10; 48 + c mod 10])) (seq 0 500) = true) as Hall
    by by vm_compute.
  rewrite forallb_forall in Hall. specialize (Hall (Z.to_nat (c - 100))).
  rewrite in_seq in Hall. specialize (Hall ltac:(lia)). apply bool_decide_eq_true in Hall.
  by replace (100 + Z.of_nat (Z.to_nat (c - 100))) with c in Hall by lia.
Qed.

Lemma isCodeText_spec s c :
  isCodeText s = true /\ parseDec s = c <-> 100 <= c <= 599 /\ s = showZ c.
Proof.
  split.
  - intros [Hs <-]. destruct s as [|x [|y [|z [|]]]]; try done. cbn [isCodeText] in Hs.
    unfold is_digit in Hs. bool_hyps.
    assert (parseDec [x; y; z] = 100 * (x - 48) + 10 * (y - 48) + (z - 48)) as -> by (unfold parseDec; cbn; lia).
    split; [lia|]. rewrite showZ_code by lia. f_equal; [|f_equal; [|f_equal]]; Z.to_euclidean_division_equations; lia.
  - intros [Hc ->]. split; [|apply parseDec_showZ; lia]. rewrite showZ_code by done.
    cbn [isCodeText]. unfold is_digit. rewrite !andb_true_iff, !Z.leb_le. Z.to_euclidean_division_equations. lia.
Qed.

Lemma key_codeText k c : parseStatusCodeKey k = Some c <-> codeText k c.
Proof.
  unfold parseStatusCodeKey, codeText. rewrite <- isCodeText_spec.
  destruct (isCodeText (trim k)); cbn [negb]; naive_solver.
Qed.

Lemma target_codeValue v c : parseStatusCodeMappingTarget v = Some c <-> codeValue v c.
Proof.
  assert (forall x, inCodeRange x = Some c <-> 100 <= c <= 599 /\ x = c) as Hr.
  { intros x. unfold inCodeRange. destruct ((100 <=? x) && (x <=? 599)) eqn:E; bool_hyps; [naive_solver lia|].
    split; [done|]. intros [Hc ->]. apply andb_false_iff in E. lia. }
  unfold parseStatusCodeMappingTarget, codeValue. destruct v as [| |n|s| |]; try naive_solver.
  - destruct (num_integer n) as [x|]; [|naive_solver]. rewrite Hr. naive_solver.
  - pose proof (isCodeText_spec (trim s) c). destruct (isCodeText (trim s)) eqn:E; cbn [negb]; [|naive_solver].
    rewrite Hr. naive_solver.
Qed.

Lemma redirects_mapsCode text f c : redirects text f c <-> mapsCode text f c.
Proof.
  unfold redirects, mapsCode. by setoid_rewrite key_codeText; setoid_rewrite target_codeValue.
Qed.

(** Nothing is listed as invalid exactly when every entry maps a code to a
    code. *)
Lemma no_invalid_entries text fields :
  collectInvalidStatusCodeEntries text = Some [] -> ModelMapping.parseObject text = Some fields ->
  forall k v, (k, v) ∈ fields -> (exists c, codeText k c) /\ (exists c, codeValue v c).
Proof.
  unfold collectInvalidStatusCodeEntries. intros H Hp. rewrite (parseObject_not_blank _ _ Hp), Hp in H.
  cbn [negb] in H. intros k v Hin. rewrite <- Object_entries_elem in Hin. revert H Hin.
  induction (Object_entries fields) as [|[k' v'] l IH]; cbn [invalidEntries]; [set_solver|].
  destruct (parseStatusCodeKey k') as [x|] eqn:Ek; [destruct (parseStatusCodeMappingTarget v') as [y|] eqn:Ev|].
  2,3: destruct (invalidEntry k' v'), (invalidEntries l); done.
  intros H [[= -> ->]|Hin]%elem_of_cons; [|by apply IH].
  split; eexists; [by apply key_codeText|by apply target_codeValue].
Qed.

Lemma redirectText_inj f c f' c' :
  f ∈ NON_REDIRECTABLE_STATUS_CODES -> f' ∈ NON_REDIRECTABLE_STATUS_CODES -> 0 <= c -> 0 <= c' ->
  redirectText f c = redirectText f' c' -> f = f' /\ c = c'.
Proof.
  unfold NON_REDIRECTABLE_STATUS_CODES, redirectText. rewrite !elem_of_cons, !elem_of_nil.
  intros [-> | [-> | []]] [-> | [-> | []]] Hc Hc'; vm_compute (showZ 504); vm_compute (showZ 524);
    cbn [app js]; intros H; try done; split; try done; apply showZ_inj; try done;
    apply (app_inv_head (js " -> ")); congruence.
Qed.

Lemma disallowed_text text fromCode toCode :
  fromCode ∈ NON_REDIRECTABLE_STATUS_CODES -> 0 <= toCode ->
  redirectText fromCode toCode ∈ collectDisallowedStatusCodeRedirects text <->
  redirects text fromCode toCode /\ fromCode <> toCode.
Proof.
  intros Hf Hc. rewrite disallowed_elem. split.
  - intros (f & c & Hr & Hm & Hne & Ht).
    assert (0 <= c) by (destruct Hr as (? & ? & ? & _ & _ & _ & Hr); apply target_range in Hr; lia).
    by apply redirectText_inj in Ht as [-> ->].
  - intros [Hr Hne]. by exists fromCode, toCode.
Qed.

Lemma collectNew_filter original current :
  collectNewDisallowedStatusCodeRedirects original current
  = List.filter (fun m => negb (bool_decide (m ∈ set_of (collectDisallowedStatusCodeRedirects original))))
      (collectDisallowedStatusCodeRedirects current).
Proof.
  unfold collectNewDisallowedStatusCodeRedirects. by destruct (collectDisallowedStatusCodeRedirects current).
Qed.

Lemma new_redirect_elem original current fromCode toCode :
  fromCode ∈ NON_REDIRECTABLE_STATUS_CODES -> 0 <= toCode ->
  redirectText fromCode toCode ∈ collectNewDisallowedStatusCodeRedirects original current <->
  redirects current fromCode toCode /\ fromCode <> toCode /\ ~ redirects original fromCode toCode.
Proof.
  intros Hf Hc.
  rewrite collectNew_filter, list_elem_of_In, List.filter_In, negb_true_iff, bool_decide_eq_false, set_of_elem,
    <- list_elem_of_In, !disallowed_text by done.
  tauto.
Qed.

(** A redirection is reported or the channel had it. *)
Lemma redirect_known original current fromCode toCode :
  fromCode ∈ NON_REDIRECTABLE_STATUS_CODES -> 0 <= toCode -> fromCode <> toCode ->
  redirects current fromCode toCode ->
  redirects original fromCode toCode \/
  redirectText fromCode toCode ∈ collectNewDisallowedStatusCodeRedirects original current.
Proof.
  intros Hf Hc Hne Hr.
  destruct (decide (redirectText fromCode toCode ∈ collectDisallowedStatusCodeRedirects original)) as [Ho|Ho].
  - left. by apply disallowed_text in Ho as [Ho _].
  - right. apply new_redirect_elem; [done|done|]. split_and!; [done|done|].
    intros Hor. apply Ho. by apply disallowed_text.
Qed.

(** what the guard reports.  The list is sorted and has no repetitions, and
    a redirection is in it exactly when the mapping redirects 504 or 524 to
    another code and the mapping the channel had did not. *)
Theorem guard_reports_new_redirects original current fromCode toCode :
  fromCode ∈ NON_REDIRECTABLE_STATUS_CODES -> 0 <= toCode ->
  let reported := collectNewDisallowedStatusCodeRedirects original current in
  NoDup reported /\ StronglySorted (fun a b => compareUnits a b <= 0) reported /\
  (redirectText fromCode toCode ∈ reported <->
   redirects current fromCode toCode /\ fromCode <> toCode /\ ~ redirects original fromCode toCode).
Proof.
  intros Hf Hc. cbn. split; [|split; [|by apply new_redirect_elem]].
  all: rewrite collectNew_filter.
  all: assert (NoDup (collectDisallowedStatusCodeRedirects current) /\
      StronglySorted (fun a b => compareUnits a b <= 0) (collectDisallowedStatusCodeRedirects current)) as [Hnd Hs]
    by (unfold collectDisallowedStatusCodeRedirects; repeat case_match; try (split; constructor);
        split; [rewrite js_sort_perm; apply set_of_nodup|apply js_sort_sorted, _]).
  - rewrite NoDup_ListNoDup in *. by apply List.NoDup_filter.
  - clear -Hs. induction Hs as [|x l Hs IH Hx]; [constructor|]. cbn [List.filter]. case_match; [|done].
    constructor; [done|]. rewrite Forall_forall in *. intros y Hy. apply Hx.
    rewrite list_elem_of_In, List.filter_In in Hy. apply list_elem_of_In, Hy.
Qed.

Lemma guard_reports_new_redirects_witness :
  js "504 -> 200" ∈ collectNewDisallowedStatusCodeRedirects (jq "{'524': 200}") (jq "{'504': '200', '524': 2e2}").
Proof.
  apply (guard_reports_new_redirects (jq "{'524': 200}") (jq "{'504': '200', '524': 2e2}") 504 200);
    [by left|done|].
  split_and!; [|done|].
  - exists [(js "504", JStr (js "200")); (js "524", JNum (mkNum 2 2))], (js "504"), (JStr (js "200")).
    by split_and!; [vm_compute|left|vm_compute|vm_compute].
  - intros (fs & k & v & Hp & Hin & Hk & Hv). vm_compute in Hp. injection Hp as <-.
    apply list_elem_of_singleton in Hin. injection Hin as -> ->. vm_compute in Hk. done.
Defined.

End StatusCodeRisk.
