(* ===== verification/AdvancedCustom.v ===== *)
(** * Channels: advanced custom routes

    [features/channels/lib/advanced-custom.ts].  The configuration of an
    advanced custom channel is a JSON text; its routes say which path is
    forwarded where, with which converter and which credentials.  The text may
    hold anything, so a configuration is a JSON value and an operation that can
    throw returns an option.  An absent property and one that is [undefined]
    are the same here.  [new URL(value)] is the parameter [parseURL], which
    returns the host and the protocol or fails. *)

From S2P Require Import Prelude JsString JsCollections Json JsonText JsonLocal JsValue.
Import Json JsValue.

Module AdvancedCustom.

Definition CHANNEL_TYPE_ADVANCED_CUSTOM : Z := 58.

#[local] Abbreviation text s := (JStr (js s)).

(** ** Tables *)

Definition NONE : jsstr := js "none".
Definition ANTHROPIC_TO_CHAT : jsstr := js "anthropic_messages_to_openai_chat_completions".
Definition CHAT_TO_ANTHROPIC : jsstr := js "openai_chat_completions_to_anthropic_messages".
Definition CHAT_TO_RESPONSES : jsstr := js "openai_chat_completions_to_openai_responses".
Definition RESPONSES_TO_CHAT : jsstr := js "openai_responses_to_openai_chat_completions".
Definition GEMINI_TO_CHAT : jsstr := js "gemini_generate_content_to_openai_chat_completions".
Definition CHAT_TO_GEMINI : jsstr := js "openai_chat_completions_to_gemini_generate_content".

(** An entry of a selection list. *)
Record Option := mkOption { value : jsstr; label : jsstr }.

Definition ADVANCED_CUSTOM_CONVERTER_OPTIONS : list Option :=
  [ mkOption NONE (js "Native forwarding");
    mkOption ANTHROPIC_TO_CHAT (js "Anthropic Messages to OpenAI Chat");
    mkOption CHAT_TO_ANTHROPIC (js "OpenAI Chat to Anthropic Messages");
    mkOption CHAT_TO_RESPONSES (js "OpenAI Chat to OpenAI Responses");
    mkOption RESPONSES_TO_CHAT (js "OpenAI Responses to OpenAI Chat");
    mkOption GEMINI_TO_CHAT (js "Gemini Generate Content to OpenAI Chat");
    mkOption CHAT_TO_GEMINI (js "OpenAI Chat to Gemini Generate Content") ].

Definition ADVANCED_CUSTOM_AUTH_MODE_OPTIONS : list Option :=
  [ mkOption (js "default") (js "Default Bearer"); mkOption NONE (js "No Auth");
    mkOption (js "header") (js "Header"); mkOption (js "query") (js "Query") ].

Definition ADVANCED_CUSTOM_INCOMING_PATH_OPTIONS : list Option :=
  [ mkOption (js "/v1/chat/completions") (js "OpenAI Chat");
    mkOption (js "/v1/responses") (js "OpenAI Responses");
    mkOption (js "/v1/responses/compact") (js "OpenAI Responses Compact");
    mkOption (js "/v1/embeddings") (js "OpenAI Embeddings");
    mkOption (js "/v1/images/generations") (js "OpenAI Image Generations");
    mkOption (js "/v1/images/edits") (js "OpenAI Image Edits");
    mkOption (js "/v1/completions") (js "OpenAI Completions");
    mkOption (js "/v1/audio/speech") (js "OpenAI Audio Speech");
    mkOption (js "/v1/audio/transcriptions") (js "OpenAI Audio Transcriptions");
    mkOption (js "/v1/audio/translations") (js "OpenAI Audio Translations");
    mkOption (js "/v1/rerank") (js "OpenAI Rerank");
    mkOption (js "/v1/realtime") (js "OpenAI Realtime");
    mkOption (js "/v1/messages") (js "Claude Messages");
    mkOption (js "/v1beta/models/{model}:generateContent") (js "Gemini Generate Content");
    mkOption (js "/v1beta/models/{model}:embedContent") (js "Gemini Embed Content");
    mkOption (js "/v1beta/models/{model}:batchEmbedContents") (js "Gemini Batch Embed Contents") ].

Definition ADVANCED_CUSTOM_ROUTE_SUMMARY_LABELS : list (jsstr * jsstr) :=
  [(js "/v1/chat/completions", js "OpenAI Chat")].

(** ** Routes and their parts *)

(** [{ type, name, value }], whose type may be [undefined]. *)
Definition authObject (ty : option json) (name val : json) : json :=
  JObj (match ty with Some ty => [(js "type", ty)] | None => [] end
        ++ [(js "name", name); (js "value", val)]).

Definition mkAuth (ty name val : jsstr) : json := authObject (Some (JStr ty)) (JStr name) (JStr val).

Definition bearerHeaderAuth : json := mkAuth (js "header") (js "Authorization") (js "Bearer {api_key}").
Definition apiKeyHeaderAuth : json := mkAuth (js "header") (js "x-api-key") (js "{api_key}").
Definition geminiQueryAuth : json := mkAuth (js "query") (js "key") (js "{api_key}").

Definition mkRoute (incoming upstream converter : json) (auth : option json) : json :=
  JObj ([(js "incoming_path", incoming); (js "upstream_path", upstream); (js "converter", converter)]
        ++ match auth with Some a => [(js "auth", a)] | None => [] end).

Definition mkConfig (routes : list json) : json := JObj [(js "advanced_routes", JArr routes)].

Record Template := mkTemplate { t_value : jsstr; t_label : jsstr; t_config : json }.

Definition native (path : string) (auth : json) : json :=
  mkRoute (text path) (text path) (JStr NONE) (Some auth).

Definition ADVANCED_CUSTOM_TEMPLATE_OPTIONS : list Template :=
  [ mkTemplate (js "official_openai_chat") (js "Official OpenAI Chat")
      (mkConfig [native "/v1/chat/completions" bearerHeaderAuth]);
    mkTemplate (js "official_openai_responses") (js "Official OpenAI Responses")
      (mkConfig [native "/v1/responses" bearerHeaderAuth]);
    mkTemplate (js "official_openai_embeddings") (js "Official OpenAI Embeddings")
      (mkConfig [native "/v1/embeddings" bearerHeaderAuth]);
    mkTemplate (js "official_openai_images") (js "Official OpenAI Images")
      (mkConfig [native "/v1/images/generations" bearerHeaderAuth; native "/v1/images/edits" bearerHeaderAuth]);
    mkTemplate (js "official_claude_messages") (js "Official Claude Messages")
      (mkConfig [native "/v1/messages" apiKeyHeaderAuth]);
    mkTemplate (js "official_gemini_native") (js "Official Gemini Native")
      (mkConfig [native "/v1beta/models/{model}:generateContent" geminiQueryAuth;
                 native "/v1beta/models/{model}:embedContent" geminiQueryAuth;
                 native "/v1beta/models/{model}:batchEmbedContents" geminiQueryAuth]);
    mkTemplate (js "official_gemini_from_openai_chat") (js "Official Gemini from OpenAI Chat")
      (mkConfig [mkRoute (text "/v1/chat/completions") (text "/v1beta/models/{model}:generateContent")
                   (JStr CHAT_TO_GEMINI) (Some geminiQueryAuth)]) ].

Definition cloneAdvancedCustomConfig (config : json) : option json :=
  JSON_parse (JsonText.JSON_stringify config).

Definition getAdvancedCustomTemplateConfig (templateKey : jsstr) : option json :=
  match List.find (fun o => bool_decide (t_value o = templateKey)) ADVANCED_CUSTOM_TEMPLATE_OPTIONS,
        ADVANCED_CUSTOM_TEMPLATE_OPTIONS with
  | Some template, _ | None, template :: _ => cloneAdvancedCustomConfig (t_config template)
  | None, [] => None
  end.

Definition createAdvancedCustomRoute : json :=
  mkRoute (text "/v1/chat/completions") (text "/v1/chat/completions") (JStr NONE) None.

Definition createAdvancedCustomConfig : json := mkConfig [createAdvancedCustomRoute].

(** ** Converters and paths *)

Definition getAdvancedCustomUpstreamPathPlaceholder (converter : jsstr) : jsstr :=
  if bool_decide (converter = CHAT_TO_GEMINI) then js "/v1beta/models/{model}:generateContent"
  else if bool_decide (converter = CHAT_TO_ANTHROPIC) then js "/v1/messages"
  else if bool_decide (converter = RESPONSES_TO_CHAT) then js "/v1/chat/completions"
  else js "/v1/chat/completions".

Definition isConverterPathAllowed (incomingPath converter : jsstr) : bool :=
  if bool_decide (converter = NONE) then true
  else if bool_decide (converter = ANTHROPIC_TO_CHAT) then bool_decide (incomingPath = js "/v1/messages")
  else if bool_decide (converter = CHAT_TO_ANTHROPIC) || bool_decide (converter = CHAT_TO_RESPONSES)
          || bool_decide (converter = CHAT_TO_GEMINI)
  then bool_decide (incomingPath = js "/v1/chat/completions")
  else if bool_decide (converter = RESPONSES_TO_CHAT) then bool_decide (incomingPath = js "/v1/responses")
  else includes incomingPath (js ":generateContent") || includes incomingPath (js ":streamGenerateContent").

Definition getAdvancedCustomIncomingPathOptions (converter : jsstr) : list Option :=
  List.filter (fun o => isConverterPathAllowed (value o) converter) ADVANCED_CUSTOM_INCOMING_PATH_OPTIONS.

Definition getDefaultAdvancedCustomIncomingPath (converter : jsstr) : jsstr :=
  match head (getAdvancedCustomIncomingPathOptions converter) with
  | Some o => if truthy (value o) then value o else js "/v1/chat/completions"
  | None => js "/v1/chat/completions"
  end.

Definition isAdvancedCustomIncomingPathAllowed (incomingPath converter : jsstr) : bool :=
  isConverterPathAllowed incomingPath converter.

Definition getAdvancedCustomConverterOptions (incomingPath : jsstr) : list Option :=
  let normalizedIncomingPath := trim incomingPath in
  List.filter (fun o => bool_decide (value o = NONE) || isConverterPathAllowed normalizedIncomingPath (value o))
    ADVANCED_CUSTOM_CONVERTER_OPTIONS.

Definition getAdvancedCustomIncomingPathLabel (v : jsstr) : jsstr :=
  match List.find (fun o => bool_decide (value o = v)) ADVANCED_CUSTOM_INCOMING_PATH_OPTIONS with
  | Some o => if truthy (label o) then label o else v
  | None => v
  end.

Definition isAdvancedCustomConverter (v : json) : bool :=
  existsb (fun o => match v with JStr s => bool_decide (value o = s) | _ => false end)
    ADVANCED_CUSTOM_CONVERTER_OPTIONS.

(** ** Normal form *)

(** [x.trim()] on the value of [x]: only a string has the method. *)
Definition trim_of (v : json) : option jsstr :=
  match v with JStr s => Some (trim s) | _ => None end.

Definition getAdvancedCustomRouteUpstreamPath (route : json) : option jsstr :=
  m ← member_of route (js "upstream_path"); trim_of (js_or m (JStr [])).

(** The object literal for the credentials; [route.auth] is truthy. *)
Definition normalizeAuth (auth : json) : json :=
  authObject (prop auth (js "type")) (js_or (prop auth (js "name")) (JStr []))
    (js_or (prop auth (js "value")) (JStr [])).

Definition truthy_prop (v : json) (k : jsstr) : option json :=
  match prop v k with Some x => if json_truthy x then Some x else None | None => None end.

Definition normalizeAdvancedCustomRoute (route : json) : option json :=
  incoming ← member_of route (js "incoming_path");
  upstream ← getAdvancedCustomRouteUpstreamPath route;
  Some (mkRoute (js_or incoming (JStr [])) (JStr upstream)
          (js_or (prop route (js "converter")) (JStr NONE))
          (normalizeAuth <$> truthy_prop route (js "auth"))).

Definition routesOf (config : json) : option (list json) :=
  m ← member_of config (js "advanced_routes");
  Some (match m with Some (JArr l) => l | _ => [] end).

Definition normalizeAdvancedCustomConfig (config : json) : option json :=
  routes ← routesOf config;
  mkConfig <$> mapM normalizeAdvancedCustomRoute routes.

(** [None] is [null]: the [catch] returns it as well. *)
Definition parseAdvancedCustomConfig (v : option jsstr) : option json :=
  if negb (has_text v) then None
  else
    match JSON_parse (or_empty v) with
    | Some parsed => match as_plain_object parsed with
                     | Some _ => normalizeAdvancedCustomConfig parsed
                     | None => None
                     end
    | None => None
    end.

Definition stringifyAdvancedCustomConfig (config : json) : option jsstr :=
  JsonText.JSON_pretty <$> normalizeAdvancedCustomConfig config.

(** ** Validation *)

Section Validation.
Variable parseURL : jsstr -> option (jsstr * jsstr).

Record AdvancedCustomValidationError := mkError { message : jsstr; routeIndex : option nat }.

Definition isFullHttpURLOrAbsolutePath (v : jsstr) : bool :=
  if startsWith v (js "/") then negb (startsWith v (js "//"))
  else
    match parseURL v with
    | Some (host, protocol) =>
        truthy host && (bool_decide (protocol = js "http:") || bool_decide (protocol = js "https:"))
    | None => false
    end.

(** The error of the credentials, if any; the outer option is the exception. *)
Definition validateRouteAuth (auth : option json) : option (option jsstr) :=
  match auth with
  | None => Some None
  | Some auth =>
      if negb (json_truthy auth) then Some None
      else
        let ty := prop auth (js "type") in
        if is_str ty NONE then Some None
        else if negb (is_str ty (js "header")) && negb (is_str ty (js "query"))
        then Some (Some (js "Auth type is invalid"))
        else
          name ← match prop auth (js "name") with
                 | None | Some JNull => Some [] | Some v => trim_of v end;
          if negb (truthy name) then Some (Some (js "Auth name is required"))
          else
            val ← match prop auth (js "value") with
                  | None | Some JNull => Some [] | Some v => trim_of v end;
            if negb (truthy val) then Some (Some (js "Auth value is required")) else Some None
  end.

(** [route.incoming_path?.trim() || ''] *)
Definition incomingPathOf (route : json) : option jsstr :=
  m ← member_of route (js "incoming_path");
  match m with None | Some JNull => Some [] | Some v => trim_of v end.

(** The checks of one route, given the paths seen before it. *)
Definition routeError (seenPaths : list jsstr) (route : json) : option (option jsstr) :=
  incomingPath ← incomingPathOf route;
  upstreamPath ← getAdvancedCustomRouteUpstreamPath route;
  let converter := js_or (prop route (js "converter")) (JStr NONE) in
  if negb (truthy incomingPath) then Some (Some (js "Incoming path is required"))
  else if negb (startsWith incomingPath (js "/")) then Some (Some (js "Incoming path must start with /"))
  else if includes incomingPath (js "?") then Some (Some (js "Incoming path must not include query"))
  else if bool_decide (incomingPath ∈ seenPaths) then Some (Some (js "Incoming path must be unique"))
  else if negb (truthy upstreamPath) then Some (Some (js "Upstream path is required"))
  else if negb (isFullHttpURLOrAbsolutePath upstreamPath)
  then Some (Some (js "Upstream path must be a full URL or a path starting with /"))
  else
    match converter with
    | JStr c =>
        if negb (isAdvancedCustomConverter converter) then Some (Some (js "Converter is not registered"))
        else if negb (isConverterPathAllowed incomingPath c)
        then Some (Some (js "Converter does not match incoming path"))
        else validateRouteAuth (prop route (js "auth"))
    | _ => Some (Some (js "Converter is not registered"))
    end.

Fixpoint validateRoutes (seenPaths : list jsstr) (index : nat) (routes : list json)
    : option (option AdvancedCustomValidationError) :=
  match routes with
  | [] => Some None
  | route :: routes' =>
      e ← routeError seenPaths route;
      match e with
      | Some msg => Some (Some (mkError msg (Some index)))
      | None =>
          path ← incomingPathOf route;
          validateRoutes (set_add seenPaths path) (S index) routes'
      end
  end.

Definition validateAdvancedCustomConfig (config : option json)
    : option (option AdvancedCustomValidationError) :=
  match config with
  | None => Some (Some (mkError (js "Advanced custom configuration is required") None))
  | Some config =>
      normalized ← normalizeAdvancedCustomConfig config;
      routes ← routesOf normalized;
      if (length routes =? 0)%nat
      then Some (Some (mkError (js "Advanced custom configuration requires at least one route") None))
      else validateRoutes [] 0 routes
  end.

Definition advancedCustomConfigUsesRelativeUpstreamPath (config : option json) : option bool :=
  match config with
  | None => Some false
  | Some config =>
      normalized ← normalizeAdvancedCustomConfig config;
      routes ← routesOf normalized;
      paths ← mapM getAdvancedCustomRouteUpstreamPath routes;
      Some (existsb (fun p => startsWith p (js "/")) paths)
  end.

Definition getAdvancedCustomRouteSummaryLabel (route : json) : option (option jsstr) :=
  incomingPath ← incomingPathOf route;
  Some (if negb (truthy incomingPath) then None
        else match map_get ADVANCED_CUSTOM_ROUTE_SUMMARY_LABELS incomingPath with
             | Some l => if truthy l then Some l else Some (getAdvancedCustomIncomingPathLabel incomingPath)
             | None => Some (getAdvancedCustomIncomingPathLabel incomingPath)
             end).

Record Stats := mkStats { routeCount : nat; valid : bool; routeTypeLabels : list jsstr }.

(** The labels that are there and not empty, in order of appearance. *)
Definition addLabel (labels : list jsstr) (l : option jsstr) : list jsstr :=
  match l with
  | Some l => if truthy l then set_add labels l else labels
  | None => labels
  end.

Definition getAdvancedCustomStats (v : option jsstr) : option Stats :=
  match parseAdvancedCustomConfig v with
  | None => Some (mkStats 0 false [])
  | Some config =>
      normalized ← normalizeAdvancedCustomConfig config;
      routes ← routesOf normalized;
      labels ← mapM getAdvancedCustomRouteSummaryLabel routes;
      err ← validateAdvancedCustomConfig (Some normalized);
      Some (mkStats (length routes) (match err with None => true | Some _ => false end)
              (fold_left addLabel labels []))
  end.
End Validation.

(** ** Credentials in the editor *)

Definition getAdvancedCustomAuthMode (route : json) : json :=
  js_or (prop route (js "auth") ≫= fun a => prop a (js "type")) (text "default").

Definition buildAdvancedCustomAuth (mode : jsstr) (previousAuth : option json) : option json :=
  let field k d := js_or (previousAuth ≫= fun a => prop a k) d in
  if bool_decide (mode = js "default") then None
  else if bool_decide (mode = NONE) then Some (JObj [(js "type", JStr NONE)])
  else if bool_decide (mode = js "header") then
    Some (authObject (Some (text "header")) (field (js "name") (text "Authorization"))
            (field (js "value") (text "Bearer {api_key}")))
  else
    Some (authObject (Some (text "query")) (field (js "name") (text "api_key"))
            (field (js "value") (text "{api_key}"))).

End AdvancedCustom.
