(* ===== verification/AdvancedCustomProperties.v ===== *)
(** * Channels: theorems on advanced custom routes

    The normal form of a configuration is stable and survives printing and
    parsing; the validator, a loop with early returns, accepts exactly the
    configurations of a declarative specification and reports the first route
    that breaks it; the offers of the editor agree with the validator. *)

From S2P Require Import Prelude JsString JsCollections Json JsonText JsonLocal JsValue AdvancedCustom.
Import Json JsValue AdvancedCustom.

Module AdvancedCustomProperties.

(** ** Normal form *)

Lemma js_or_idemp a b : js_or (Some (js_or a b)) b = js_or a b.
Proof. unfold js_or. destruct a as [v|]; [|by case_match]. destruct (json_truthy v) eqn:E; [by rewrite E|by case_match]. Qed.

Lemma mkRoute_incoming i u c a : prop (mkRoute i u c a) (js "incoming_path") = Some i.
Proof. reflexivity. Qed.
Lemma mkRoute_upstream i u c a : prop (mkRoute i u c a) (js "upstream_path") = Some u.
Proof. reflexivity. Qed.
Lemma mkRoute_converter i u c a : prop (mkRoute i u c a) (js "converter") = Some c.
Proof. reflexivity. Qed.
Lemma mkRoute_auth i u c a : prop (mkRoute i u c a) (js "auth") = a.
Proof. by destruct a. Qed.

Lemma authObject_type t n v : prop (authObject t n v) (js "type") = t.
Proof. by destruct t. Qed.
Lemma authObject_name t n v : prop (authObject t n v) (js "name") = Some n.
Proof. by destruct t. Qed.
Lemma authObject_value t n v : prop (authObject t n v) (js "value") = Some v.
Proof. by destruct t. Qed.

Create Rewrite HintDb routes.
#[export] Hint Rewrite mkRoute_incoming mkRoute_upstream mkRoute_converter mkRoute_auth
  authObject_type authObject_name authObject_value js_or_idemp : routes.

Lemma normalizeAuth_idemp a : normalizeAuth (normalizeAuth a) = normalizeAuth a.
Proof. unfold normalizeAuth. by autorewrite with routes. Qed.

(** The parts of a normalized route. *)
Lemma normalizeRoute_Some r r' :
  normalizeAdvancedCustomRoute r = Some r' <->
  exists u, getAdvancedCustomRouteUpstreamPath r = Some u /\
    r' = mkRoute (js_or (prop r (js "incoming_path")) (JStr [])) (JStr u)
           (js_or (prop r (js "converter")) (JStr NONE)) (normalizeAuth <$> truthy_prop r (js "auth")).
Proof.
  unfold normalizeAdvancedCustomRoute, getAdvancedCustomRouteUpstreamPath.
  destruct r; cbn [member_of mbind option_bind]; [naive_solver|..];
    (destruct (trim_of _) as [u|]; cbn [mbind option_bind]; naive_solver).
Qed.

Lemma upstream_mkRoute i u c a :
  getAdvancedCustomRouteUpstreamPath (mkRoute i (JStr u) c a) = Some (trim u).
Proof.
  unfold getAdvancedCustomRouteUpstreamPath, member_of, mkRoute.
  fold (mkRoute i (JStr u) c a). cbn [mbind option_bind]. rewrite mkRoute_upstream.
  by destruct u.
Qed.

Lemma upstream_trimmed r u : getAdvancedCustomRouteUpstreamPath r = Some u -> trim u = u.
Proof.
  unfold getAdvancedCustomRouteUpstreamPath. destruct (member_of r _) as [m|]; [|done].
  cbn [mbind option_bind]. destruct (js_or m (JStr [])); try done. cbn [trim_of]. intros [= <-].
  apply trim_idemp.
Qed.

Lemma normalizeRoute_idemp r r' :
  normalizeAdvancedCustomRoute r = Some r' -> normalizeAdvancedCustomRoute r' = Some r'.
Proof.
  intros (u & Hu & ->)%normalizeRoute_Some. apply normalizeRoute_Some. exists u.
  rewrite upstream_mkRoute, (upstream_trimmed _ _ Hu). split; [done|]. unfold truthy_prop.
  autorewrite with routes. f_equal. destruct (prop r (js "auth")) as [a|]; [|done].
  destruct (json_truthy a); [|done]. cbn [fmap option_fmap option_map].
  cbn [normalizeAuth authObject json_truthy fmap option_fmap option_map]. f_equal. symmetry.
  apply normalizeAuth_idemp.
Qed.

Lemma normalizeConfig_Some c c' :
  normalizeAdvancedCustomConfig c = Some c' <->
  exists l l', routesOf c = Some l /\ mapM normalizeAdvancedCustomRoute l = Some l' /\ c' = mkConfig l'.
Proof.
  unfold normalizeAdvancedCustomConfig. destruct (routesOf c) as [l|]; cbn [mbind option_bind];
    [|naive_solver]. destruct (mapM _ l) as [l'|] eqn:E; cbn; naive_solver.
Qed.

Lemma routesOf_mkConfig l : routesOf (mkConfig l) = Some l.
Proof. reflexivity. Qed.

Lemma mapM_idemp {A} (f : A -> option A) l l' :
  (forall x y, f x = Some y -> f y = Some y) -> mapM f l = Some l' -> mapM f l' = Some l'.
Proof.
  intros Hf H. apply mapM_Some in H. apply mapM_Some. induction H; constructor; eauto.
Qed.

(** A normalized configuration is left as it is. *)
Lemma normalizeConfig_idemp c c' :
  normalizeAdvancedCustomConfig c = Some c' -> normalizeAdvancedCustomConfig c' = Some c'.
Proof.
  intros (l & l' & _ & Hl & ->)%normalizeConfig_Some. apply normalizeConfig_Some.
  exists l', l'. split_and!; [done| |done]. eapply mapM_idemp; [apply normalizeRoute_idemp|exact Hl].
Qed.

(** ** Printing and parsing *)

Lemma JSON_parse_has_text t v : JSON_parse t = Some v -> has_text (Some t) = true.
Proof. intros H%JsonLocal.parse_trim. unfold has_text. by destruct (trim t). Qed.

(** The text of a normalized configuration is read back. *)
Lemma roundtrip_text c c' :
  normalizeAdvancedCustomConfig c = Some c' -> JsonText.wf_json c' ->
  parseAdvancedCustomConfig (Some (JsonText.JSON_pretty c')) = Some c'.
Proof.
  intros Hn Hw. pose proof (JsonText.parse_pretty c' Hw) as Hp. unfold parseAdvancedCustomConfig.
  rewrite (JSON_parse_has_text _ _ Hp). cbn [negb or_empty]. rewrite Hp.
  pose proof Hn as (l & l' & _ & _ & ->)%normalizeConfig_Some. cbn [as_plain_object mkConfig].
  by eapply normalizeConfig_idemp.
Qed.

(** What the parser returns is normalized. *)
Lemma parsed_normalized v c : parseAdvancedCustomConfig v = Some c -> normalizeAdvancedCustomConfig c = Some c.
Proof.
  unfold parseAdvancedCustomConfig. case_match; [done|]. destruct (JSON_parse _) as [j|]; [|done].
  destruct (as_plain_object j); [|done]. apply normalizeConfig_idemp.
Qed.

(** ** Validation *)

Section Validation.
Variable parseURL : jsstr -> option (jsstr * jsstr).

(** The credentials: none, or a header or a query parameter with a name and a
    value. *)
Definition authOk (auth : option json) : Prop :=
  match auth with
  | None => True
  | Some a =>
      json_truthy a = false \/ is_str (prop a (js "type")) NONE = true \/
      ((is_str (prop a (js "type")) (js "header") || is_str (prop a (js "type")) (js "query")) = true /\
       exists n v, prop a (js "name") = Some (JStr n) /\ prop a (js "value") = Some (JStr v) /\
         trim n <> [] /\ trim v <> [])
  end.

(** A route that forwards [path]. *)
Definition routeOk (route : json) (path : jsstr) : Prop :=
  incomingPathOf route = Some path /\ startsWith path (js "/") = true /\ 63 ∉ path /\
  (exists u, getAdvancedCustomRouteUpstreamPath route = Some u /\ u <> [] /\
     isFullHttpURLOrAbsolutePath parseURL u = true) /\
  (exists c, js_or (prop route (js "converter")) (JStr NONE) = JStr c /\
     c ∈ value <$> ADVANCED_CUSTOM_CONVERTER_OPTIONS /\ isConverterPathAllowed path c = true) /\
  authOk (prop route (js "auth")).

Lemma truthy_iff s : truthy s = true <-> s <> [].
Proof. by destruct s. Qed.

Lemma validateRouteAuth_ok auth : validateRouteAuth auth = Some None <-> authOk auth.
Proof.
  unfold validateRouteAuth, authOk. destruct auth as [a|]; [|done].
  destruct (json_truthy a); cbn [negb]; [|by split; [left|]].
  destruct (is_str (prop a (js "type")) NONE); [by split; [right; left|]|].
  destruct (is_str (prop a (js "type")) (js "header")), (is_str (prop a (js "type")) (js "query"));
    cbn [negb andb orb]; [..|naive_solver].
  all: destruct (prop a (js "name")) as [[]|]; cbn [trim_of mbind option_bind truthy negb];
    try (by split; [|intros [|[|[_ (? & ? & ? & _)]]]]).
  all: destruct (truthy (trim s)) eqn:En; cbn [negb].
  2, 4, 6: split; [done|]; intros [?|[?|[_ (n & v & [= <-] & _ & Hn & _)]]]; [done..|];
    apply truthy_iff in Hn; congruence.
  all: destruct (prop a (js "value")) as [[]|]; cbn [trim_of mbind option_bind truthy negb];
    try (by split; [|intros [|[|[_ (? & ? & _ & ? & _)]]]]).
  all: destruct (truthy (trim s0)) eqn:Ev; cbn [negb].
  2, 4, 6: split; [done|]; intros [?|[?|[_ (n & v & _ & [= <-] & _ & Hv)]]]; [done..|];
    apply truthy_iff in Hv; congruence.
  all: split; [|done]; intros _; right; right; split; [done|];
    exists s, s0; split_and!; [done|done|by apply truthy_iff|by apply truthy_iff].
Qed.

Lemma includes_char s c : includes s [c] = false <-> c ∉ s.
Proof.
  rewrite <- not_true_iff_false, includes_spec. split.
  - intros H Hc. apply H. apply list_elem_of_split in Hc as (l & r & ->). by exists l, r.
  - intros H (l & r & ->). apply H. rewrite !elem_of_app. right. left. left.
Qed.

Lemma isConverter_spec c : isAdvancedCustomConverter (JStr c) = true <-> c ∈ value <$> ADVANCED_CUSTOM_CONVERTER_OPTIONS.
Proof.
  unfold isAdvancedCustomConverter. rewrite existsb_exists, list_elem_of_fmap.
  split; intros (o & H1 & H2); exists o.
  - apply bool_decide_eq_true in H2. by rewrite list_elem_of_In.
  - rewrite list_elem_of_In in H2. by rewrite bool_decide_eq_true_2.
Qed.

(** One turn of the loop. *)
Lemma routeError_ok seen route :
  routeError parseURL seen route = Some None <-> exists path, routeOk route path /\ path ∉ seen.
Proof.
  unfold routeError, routeOk. change (js "?") with [63]. split.
  - destruct (incomingPathOf route) as [path|]; cbn [mbind option_bind]; [|done].
    destruct (getAdvancedCustomRouteUpstreamPath route) as [u|]; cbn [mbind option_bind]; [|done].
    destruct (truthy path); cbn [negb]; [|done].
    destruct (startsWith path (js "/")) eqn:E1; cbn [negb]; [|done].
    destruct (includes path [63]) eqn:E2; [done|]. case_bool_decide as Hs; [done|].
    destruct (truthy u) eqn:E3; cbn [negb]; [|done].
    destruct (isFullHttpURLOrAbsolutePath parseURL u) eqn:E4; cbn [negb]; [|done].
    destruct (js_or _ _) as [|?|?|c|?|?]; try done.
    destruct (isAdvancedCustomConverter (JStr c)) eqn:E5; cbn [negb]; [|done].
    destruct (isConverterPathAllowed path c) eqn:E6; cbn [negb]; [|done].
    intros Ha%validateRouteAuth_ok. exists path. split; [|done]. split_and!; try done.
    + by apply includes_char.
    + exists u. split_and!; [done|by apply truthy_iff|done].
    + exists c. split_and!; [done|by apply isConverter_spec|done].
  - intros (path & (-> & Hp & Hq & (u & -> & Hu1 & Hu2) & (c & -> & Hc1 & Hc2) & Ha) & Hs).
    cbn [mbind option_bind]. assert (truthy path = true) as -> by (by destruct path).
    apply truthy_iff in Hu1. apply includes_char in Hq. apply isConverter_spec in Hc1.
    rewrite Hp, Hq, bool_decide_eq_false_2, Hu1, Hu2, Hc1, Hc2 by done. by apply validateRouteAuth_ok.
Qed.

Lemma routeOk_path route path : routeOk route path -> incomingPathOf route = Some path.
Proof. by intros [? _]. Qed.

Lemma validateRoutes_ok routes seen i :
  validateRoutes parseURL seen i routes = Some None <->
  exists paths, Forall2 routeOk routes paths /\ NoDup paths /\ forall p, p ∈ paths -> p ∉ seen.
Proof.
  revert seen i. induction routes as [|r routes IH]; intros seen i; cbn [validateRoutes].
  - split; [|done]. intros _. exists []. split_and!; [constructor|constructor|set_solver].
  - destruct (routeError parseURL seen r) as [[m|]|] eqn:E; cbn [mbind option_bind].
    + split; [done|]. intros (paths & H & Hn & Hs). inversion H as [|? p ? ps Hp Hps]; subst.
      assert (routeError parseURL seen r = Some None) as E'; [|congruence].
      apply routeError_ok. exists p. split; [done|]. apply Hs. left.
    + apply routeError_ok in E as (p & Hp & Hps). rewrite (routeOk_path _ _ Hp). cbn [mbind option_bind].
      rewrite IH. setoid_rewrite set_add_elem. split.
      * intros (ps & H & Hn & Hs). exists (p :: ps). split_and!; [by constructor| |set_solver].
        apply NoDup_cons. split; [|done]. intros Hin. destruct (Hs p Hin). by right.
      * intros (ps & H & Hn & Hs). inversion H as [|? p' ? ps' Hp' Hps']; subst.
        apply routeOk_path in Hp, Hp'. assert (p' = p) as -> by congruence.
        apply NoDup_cons in Hn as [Hn1 Hn2]. exists ps'. split_and!; [done|done|].
        intros q Hq [Hq'| ->]; [|done]. apply (Hs q); [by right|done].
    + split; [done|]. intros (paths & H & Hn & Hs). inversion H as [|? p ? ps Hp Hps]; subst.
      assert (routeError parseURL seen r = Some None) as E'; [|congruence].
      apply routeError_ok. exists p. split; [done|]. apply Hs. left.
Qed.

(** C11: the validator refines its specification.  It accepts a configuration
    exactly when its normal form has a route, every route is well formed, and
    no two routes forward the same path. *)
Theorem validator_accepts_well_formed c :
  validateAdvancedCustomConfig parseURL (Some c) = Some None <->
  exists routes paths, normalizeAdvancedCustomConfig c = Some (mkConfig routes) /\
    routes <> [] /\ Forall2 routeOk routes paths /\ NoDup paths.
Proof.
  unfold validateAdvancedCustomConfig. destruct (normalizeAdvancedCustomConfig c) as [c'|] eqn:Hn;
    cbn [mbind option_bind]; [|naive_solver].
  apply normalizeConfig_Some in Hn as (l & l' & _ & _ & ->). rewrite routesOf_mkConfig. cbn [mbind option_bind].
  destruct l' as [|r l']; cbn [length Nat.eqb].
  - split; [done|]. intros (routes & paths & [= <-] & Hne & _). done.
  - rewrite validateRoutes_ok. split.
    + intros (ps & H & Hnd & _). by exists (r :: l'), ps.
    + intros (routes & ps & [= <-] & _ & H & Hnd). exists ps. split_and!; [done|done|set_solver].
Qed.

(** The loop stops at the first route that fails. *)
Lemma validateRoutes_error routes seen i e :
  validateRoutes parseURL seen i routes = Some (Some e) ->
  exists good paths bad rest, routes = good ++ bad :: rest /\
    Forall2 routeOk good paths /\ NoDup paths /\ (forall p, p ∈ paths -> p ∉ seen) /\
    routeIndex e = Some (i + length good)%nat /\
    ~ exists p, routeOk bad p /\ p ∉ seen /\ p ∉ paths.
Proof.
  revert seen i. induction routes as [|r routes IH]; intros seen i; cbn [validateRoutes]; [done|].
  destruct (routeError parseURL seen r) as [[m|]|] eqn:E; cbn [mbind option_bind]; [| |done].
  - intros [= <-]. exists [], [], r, routes. cbn [app length routeIndex]. rewrite Nat.add_0_r.
    split_and!; [done|constructor|constructor|set_solver|done|].
    intros (p & Hp & Hs & _). assert (routeError parseURL seen r = Some None) as E'; [|congruence].
    apply routeError_ok. eauto.
  - apply routeError_ok in E as (p & Hp & Hps). rewrite (routeOk_path _ _ Hp). cbn [mbind option_bind].
    intros (good & paths & bad & rest & -> & Hg & Hn & Hs & Hi & Hb)%IH.
    exists (r :: good), (p :: paths), bad, rest. setoid_rewrite set_add_elem in Hs.
    setoid_rewrite set_add_elem in Hb. cbn [app length]. split_and!.
    + done.
    + by constructor.
    + apply NoDup_cons. split; [|done]. intros Hin. destruct (Hs p Hin). by right.
    + intros q [-> | Hq]%elem_of_cons; [done|]. intros Hq'. apply (Hs q Hq). by left.
    + rewrite Hi. f_equal. lia.
    + intros (q & Hq & Hqs & Hqp). apply Hb. exists q. set_solver.
Qed.

(** an error that names a route names the first one that breaks the
    specification: the routes before it are well formed and forward distinct
    paths, and the route itself is not well formed or forwards one of these
    paths. *)
Theorem validator_reports_first_error c e i :
  validateAdvancedCustomConfig parseURL (Some c) = Some (Some e) -> routeIndex e = Some i ->
  exists good paths bad rest,
    normalizeAdvancedCustomConfig c = Some (mkConfig (good ++ bad :: rest)) /\ length good = i /\
    Forall2 routeOk good paths /\ NoDup paths /\ ~ exists p, routeOk bad p /\ p ∉ paths.
Proof.
  unfold validateAdvancedCustomConfig. destruct (normalizeAdvancedCustomConfig c) as [c'|] eqn:Hn;
    cbn [mbind option_bind]; [|done].
  apply normalizeConfig_Some in Hn as (l & l' & _ & _ & ->). rewrite routesOf_mkConfig. cbn [mbind option_bind].
  case_match; [by intros [= <-]|]. intros (good & paths & bad & rest & -> & Hg & Hnd & _ & Hi & Hb)%validateRoutes_error.
  rewrite Hi. intros [= <-]. exists good, paths, bad, rest. split_and!; try done.
  intros (p & Hp & Hps). apply Hb. exists p. set_solver.
Qed.
End Validation.

Definition noURL : jsstr -> option (jsstr * jsstr) := fun _ => None.

Lemma validator_reports_first_error_witness :
  exists good paths bad rest,
    normalizeAdvancedCustomConfig (mkConfig [createAdvancedCustomRoute; createAdvancedCustomRoute])
    = Some (mkConfig (good ++ bad :: rest)) /\ length good = 1%nat /\
    Forall2 (routeOk noURL) good paths /\ NoDup paths /\ ~ exists p, routeOk noURL bad p /\ p ∉ paths.
Proof.
  apply (validator_reports_first_error noURL _ (mkError (js "Incoming path must be unique") (Some 1%nat)) 1);
    by vm_compute.
Defined.

(** ** Templates and statistics *)

(** Every template of the list passes the validator. *)
Lemma templates_are_valid :
  Forall (fun tpl => validateAdvancedCustomConfig noURL (Some (t_config tpl)) = Some None)
    ADVANCED_CUSTOM_TEMPLATE_OPTIONS.
Proof. repeat (constructor; [by vm_compute|]). constructor. Qed.

(** A path that is not a string makes the statistics throw instead of calling
    the configuration invalid. *)
Lemma stats_throw_on_numbers :
  getAdvancedCustomStats noURL (Some (jq "{'advanced_routes':[{'incoming_path':5}]}")) = None.
Proof. by vm_compute. Qed.

End AdvancedCustomProperties.
