(* ===== verification/AdvancedCustomEditor.v ===== *)
(** * Channels: the editor of advanced custom routes

    The handlers of [components/dialogs/advanced-custom-editor-dialog.tsx] on
    the state of the dialog.  A handler that throws, or whose control is not on
    the screen, is [None].  [t] is the translation, [parseURL] the parser of
    URLs.  A converter that is no string equals no name; the empty name, which
    is no converter either, stands for it. *)

From S2P Require Import Prelude JsString JsCollections Json JsonText JsonLocal JsValue AdvancedCustom AdvancedCustomProperties.
Import Json JsValue AdvancedCustom AdvancedCustomProperties.

Module AdvancedCustomEditor.

(** ** State *)

Inductive EditMode := Visual | JsonMode.

Record EditorState := mkEditor {
  config : json;
  routeKeys : list jsstr;
  editMode : EditMode;
  jsonText : jsstr;
  jsonError : jsstr;
  templateKey : jsstr;
  routeKeyCounter : nat;
  saved : option jsstr;   (* the text given to [onSave] *)
  isOpen : bool }.

#[local] Abbreviation setConfig s c :=
  (mkEditor c (routeKeys s) (editMode s) (jsonText s) (jsonError s) (templateKey s) (routeKeyCounter s) (saved s) (isOpen s)).
#[local] Abbreviation setKeys s k n :=
  (mkEditor (config s) k (editMode s) (jsonText s) (jsonError s) (templateKey s) n (saved s) (isOpen s)).
#[local] Abbreviation setMode s m :=
  (mkEditor (config s) (routeKeys s) m (jsonText s) (jsonError s) (templateKey s) (routeKeyCounter s) (saved s) (isOpen s)).
#[local] Abbreviation setJsonText s x :=
  (mkEditor (config s) (routeKeys s) (editMode s) x (jsonError s) (templateKey s) (routeKeyCounter s) (saved s) (isOpen s)).
#[local] Abbreviation setJsonError s x :=
  (mkEditor (config s) (routeKeys s) (editMode s) (jsonText s) x (templateKey s) (routeKeyCounter s) (saved s) (isOpen s)).

Section Editor.
Variables (parseURL : jsstr -> option (jsstr * jsstr)) (t : jsstr -> jsstr).

(** [parseAdvancedCustomConfig(value) || createAdvancedCustomConfig()] *)
Definition initialConfig (v : jsstr) : json :=
  match parseAdvancedCustomConfig (Some v) with Some c => c | None => createAdvancedCustomConfig end.

Definition initialKey (i : nat) : jsstr := js "advanced-custom-route-initial-" ++ showZ (Z.of_nat i).

Definition firstTemplate : jsstr := match ADVANCED_CUSTOM_TEMPLATE_OPTIONS with o :: _ => t_value o | [] => [] end.

Definition initEditor (v : jsstr) : option EditorState :=
  normalized ← normalizeAdvancedCustomConfig (initialConfig v);
  routes ← routesOf normalized;
  text ← stringifyAdvancedCustomConfig (initialConfig v);
  Some (mkEditor (initialConfig v) (map initialKey (seq 0 (length routes))) Visual text [] firstTemplate 0 None true).

(** ** Rows *)

Definition routesIn (s : EditorState) : option (list json) :=
  normalizeAdvancedCustomConfig (config s) ≫= routesOf.

Definition numberedKey (n : nat) : jsstr := js "advanced-custom-route-" ++ showZ (Z.of_nat n).

Definition createRouteKey (s : EditorState) : jsstr * nat :=
  let n := S (routeKeyCounter s) in (numberedKey n, n).

(** The keys numbered from [n + 1]. *)
Definition keysFrom (n count : nat) : list jsstr := map numberedKey (seq (S n) count).

Definition createRouteKeys (s : EditorState) (count : nat) : EditorState :=
  setKeys s (keysFrom (routeKeyCounter s) count) (routeKeyCounter s + count)%nat.

(** A patch maps a field to its new value; [undefined] takes it away. *)
Definition Patch : Type := list (jsstr * option json).

Definition applyPatch (route : json) (patch : Patch) : option json :=
  fields ← as_plain_object route;
  Some (JObj (fold_left (fun o '(k, v) =>
    match v with Some v => map_set o k v | None => map_delete o k end) patch fields)).

Definition updateRoute (s : EditorState) (index : nat) (patch : Patch) : option EditorState :=
  routes ← routesIn s;
  route ← routes !! index;
  route' ← applyPatch route patch;
  Some (setConfig s (mkConfig (<[index := route']> routes))).

Definition addRoute (s : EditorState) : option EditorState :=
  routes ← routesIn s;
  let '(k, n) := createRouteKey s in
  let s := setConfig s (mkConfig (routes ++ [createAdvancedCustomRoute])) in
  Some (setKeys s (routeKeys s ++ [k]) n).

Definition removeRoute (s : EditorState) (index : nat) : option EditorState :=
  routes ← routesIn s;
  let s := setConfig s (mkConfig (delete index routes)) in
  Some (setKeys s (delete index (routeKeys s)) (routeKeyCounter s)).

(** ** One row *)

Definition converterOf (route : json) : jsstr :=
  match js_or (prop route (js "converter")) (JStr NONE) with JStr c => c | _ => [] end.

(** [route.incoming_path || getDefaultAdvancedCustomIncomingPath(converter)];
    drawing the row trims it, so it is a string. *)
Definition rowPath (route : json) : option jsstr :=
  match js_or (prop route (js "incoming_path"))
          (JStr (getDefaultAdvancedCustomIncomingPath (converterOf route))) with
  | JStr p => Some p
  | _ => None
  end.

Definition setConverter (route : json) (nextConverter : jsstr) : option Patch :=
  incomingPath ← rowPath route;
  Some ((js "converter", Some (JStr nextConverter)) ::
        if negb (isAdvancedCustomIncomingPathAllowed incomingPath nextConverter)
        then [(js "incoming_path", Some (JStr (getDefaultAdvancedCustomIncomingPath nextConverter)))] else []).

Definition setIncomingPath (route : json) (nextIncomingPath : option jsstr) : option Patch :=
  let converter := converterOf route in
  let resolved :=
    match nextIncomingPath with
    | Some p => if truthy p then p else getDefaultAdvancedCustomIncomingPath converter
    | None => getDefaultAdvancedCustomIncomingPath converter
    end in
  Some ((js "incoming_path", Some (JStr resolved)) ::
        if negb (isAdvancedCustomIncomingPathAllowed resolved converter)
        then [(js "converter", Some (JStr NONE))] else []).

Definition setUpstreamPath (route : json) (v : jsstr) : option Patch :=
  Some [(js "upstream_path", Some (JStr v))].

Definition setAuthMode (route : json) (mode : jsstr) : option Patch :=
  Some [(js "auth", buildAdvancedCustomAuth mode (prop route (js "auth")))].

Inductive AuthField := AuthName | AuthValue.

(** [None] also when the handler returns at once. *)
Definition updateAuth (route : json) (field : AuthField) (v : jsstr) : option Patch :=
  match prop route (js "auth") with
  | None => None
  | Some a =>
      if negb (json_truthy a) || is_str (prop a (js "type")) NONE then None
      else
        let name := js_or (prop a (js "name")) (JStr []) in
        let val := js_or (prop a (js "value")) (JStr []) in
        Some [(js "auth", Some (authObject (prop a (js "type"))
                (match field with AuthName => JStr v | AuthValue => name end)
                (match field with AuthName => val | AuthValue => JStr v end)))]
  end.

(** ** The text and the modes *)

(** The configuration of the text, if it is valid, and the error shown. *)
Definition parseJsonEditorConfig (s : EditorState) : option (option json * EditorState) :=
  match parseAdvancedCustomConfig (Some (jsonText s)) with
  | None => Some (None, setJsonError s (t (js "Invalid JSON")))
  | Some parsed =>
      error ← validateAdvancedCustomConfig parseURL (Some parsed);
      Some (match error with
            | Some e => (None, setJsonError s (t (message e)))
            | None => (Some parsed, setJsonError s [])
            end)
  end.

(** [setConfig(normalized); setRouteKeys(createRouteKeys(...))] *)
Definition showConfig (s : EditorState) (c : json) : option EditorState :=
  normalized ← normalizeAdvancedCustomConfig c;
  routes ← routesOf normalized;
  Some (createRouteKeys (setConfig s normalized) (length routes)).

Definition switchToVisualMode (s : EditorState) : option EditorState :=
  r ← parseJsonEditorConfig s;
  match r with
  | (None, s) => Some s
  | (Some parsed, s) => s ← showConfig s parsed; Some (setMode s Visual)
  end.

Definition switchToJsonMode (s : EditorState) : option EditorState :=
  normalizedConfig ← normalizeAdvancedCustomConfig (config s);
  text ← stringifyAdvancedCustomConfig normalizedConfig;
  Some (setMode (setJsonError (setJsonText s text) []) JsonMode).

Definition handleJsonChange (s : EditorState) (nextValue : jsstr) : EditorState :=
  setJsonError (setJsonText s nextValue) [].

Definition formatJson (s : EditorState) : option EditorState :=
  r ← parseJsonEditorConfig s;
  match r with
  | (None, s) => Some s
  | (Some parsed, s) => text ← stringifyAdvancedCustomConfig parsed; Some (setJsonText s text)
  end.

Definition selectTemplate (s : EditorState) (nextValue : option jsstr) : EditorState :=
  let key := match nextValue with Some k => if truthy k then k else firstTemplate | None => firstTemplate end in
  mkEditor (config s) (routeKeys s) (editMode s) (jsonText s) (jsonError s) key (routeKeyCounter s) (saved s) (isOpen s).

(** [setConfig], [setRouteKeys], [setJsonText] and [setJsonError] at the end of
    [applyTemplate]. *)
Definition replaceConfig (s : EditorState) (nextConfig : json) : option EditorState :=
  s' ← showConfig s nextConfig;
  text ← stringifyAdvancedCustomConfig (config s');
  Some (setJsonError (setJsonText s' text) []).

Definition applyTemplate (s : EditorState) (append : bool) : option EditorState :=
  templateConfig ← getAdvancedCustomTemplateConfig (templateKey s);
  if append then
    r ← match editMode s with
        | JsonMode => parseJsonEditorConfig s
        | Visual => c ← normalizeAdvancedCustomConfig (config s); Some (Some c, s)
        end;
    match r with
    | (None, s) => Some s
    | (Some baseConfig, s) =>
        base ← normalizeAdvancedCustomConfig baseConfig ≫= routesOf;
        template ← normalizeAdvancedCustomConfig templateConfig ≫= routesOf;
        replaceConfig s (mkConfig (base ++ template))
    end
  else replaceConfig s templateConfig.

Definition save (s : EditorState) (text : jsstr) : EditorState :=
  mkEditor (config s) (routeKeys s) (editMode s) (jsonText s) (jsonError s) (templateKey s) (routeKeyCounter s)
    (Some text) false.

Definition saveConfig (s : EditorState) : option EditorState :=
  match editMode s with
  | JsonMode =>
      r ← parseJsonEditorConfig s;
      match r with
      | (None, s) => Some s
      | (Some parsed, s) => text ← stringifyAdvancedCustomConfig parsed; Some (save s text)
      end
  | Visual =>
      normalizedConfig ← normalizeAdvancedCustomConfig (config s);
      validationError ← validateAdvancedCustomConfig parseURL (Some normalizedConfig);
      match validationError with
      | Some _ => Some s
      | None => text ← stringifyAdvancedCustomConfig normalizedConfig; Some (save s text)
      end
  end.

(** ** Events *)

Inductive Event :=
| SetConverter (index : nat) (converter : jsstr)
| SetIncomingPath (index : nat) (path : option jsstr)
| SetUpstreamPath (index : nat) (path : jsstr)
| SetAuthMode (index : nat) (mode : jsstr)
| UpdateAuth (index : nat) (field : AuthField) (v : jsstr)
| AddRoute
| RemoveRoute (index : nat)
| SwitchToVisual
| SwitchToJson
| JsonChange (text : jsstr)
| FormatJson
| SelectTemplate (key : option jsstr)
| ApplyTemplate (append : bool)
| Save.

(** [onChange] of the row at [index]. *)
Definition onRow (s : EditorState) (index : nat) (f : json -> option Patch) : option EditorState :=
  routes ← routesIn s;
  route ← routes !! index;
  patch ← f route;
  updateRoute s index patch.

Definition handle (s : EditorState) (e : Event) : option EditorState :=
  match e with
  | SetConverter i c => onRow s i (fun r => setConverter r c)
  | SetIncomingPath i p => onRow s i (fun r => setIncomingPath r p)
  | SetUpstreamPath i p => onRow s i (fun r => setUpstreamPath r p)
  | SetAuthMode i m => onRow s i (fun r => setAuthMode r m)
  | UpdateAuth i f v => onRow s i (fun r => updateAuth r f v)
  | AddRoute => addRoute s
  | RemoveRoute i => removeRoute s i
  | SwitchToVisual => switchToVisualMode s
  | SwitchToJson => switchToJsonMode s
  | JsonChange x => Some (handleJsonChange s x)
  | FormatJson => formatJson s
  | SelectTemplate k => Some (selectTemplate s k)
  | ApplyTemplate a => applyTemplate s a
  | Save => saveConfig s
  end.

(** The dialog after a sequence of events. *)
Inductive reachable (v : jsstr) : EditorState -> Prop :=
| reach_init s : initEditor v = Some s -> reachable v s
| reach_step s e s' : reachable v s -> handle s e = Some s' -> reachable v s'.

End Editor.
End AdvancedCustomEditor.
