(* ===== verification/AdvancedCustomEditorProperties.v ===== *)
(** * Channels: theorems on the editor of advanced custom routes

    Over every sequence of events the rows and their keys correspond and the
    keys are distinct; what is saved is valid and is read back as it was shown;
    edits in the visual mode never make a converter disagree with its path; and
    pressing the button of the visual mode in the visual mode discards the
    edits. *)

From S2P Require Import Prelude JsString JsCollections Json JsonText JsonLocal JsValue AdvancedCustom AdvancedCustomProperties AdvancedCustomEditor.
Import Json JsValue AdvancedCustom AdvancedCustomProperties AdvancedCustomEditor.

Module AdvancedCustomEditorProperties.

(** ** Patches *)

(** The value a patch leaves in the field [k]. *)
Definition patchGet (patch : Patch) (k : jsstr) (old : option json) : option json :=
  fold_left (fun acc '(k', v) => if decide (k' = k) then v else acc) patch old.

Lemma applyPatch_get r patch r' k :
  applyPatch r patch = Some r' -> prop r' k = patchGet patch k (prop r k).
Proof.
  unfold applyPatch, as_plain_object. destruct r as [| | | | |fields]; try done. cbn [mbind option_bind].
  intros [= <-]. cbn [prop]. unfold patchGet. revert fields.
  induction patch as [|[k' v] patch IH]; intros fields; [done|]. cbn [fold_left]. rewrite IH. f_equal.
  destruct v as [v|]; case_decide as E; subst.
  - apply map_get_set_eq.
  - by apply map_get_set_ne.
  - apply map_get_delete_eq.
  - by apply map_get_delete_ne.
Qed.

Lemma applyPatch_object r patch r' : applyPatch r patch = Some r' -> exists fields, r' = JObj fields.
Proof. unfold applyPatch. destruct (as_plain_object r); [|done]. intros [= <-]. eauto. Qed.

(** An object whose upstream path is a string can be normalized. *)
Definition hasUpstream (r : json) : Prop :=
  (exists fields, r = JObj fields) /\ exists u, prop r (js "upstream_path") = Some (JStr u).

Lemma hasUpstream_normalizes r : hasUpstream r -> is_Some (normalizeAdvancedCustomRoute r).
Proof.
  intros [[fields ->] [u Hu]]. exists (mkRoute (js_or (prop (JObj fields) (js "incoming_path")) (JStr []))
    (JStr (trim u)) (js_or (prop (JObj fields) (js "converter")) (JStr NONE))
    (normalizeAuth <$> truthy_prop (JObj fields) (js "auth"))).
  apply normalizeRoute_Some. exists (trim u). split; [|done].
  unfold getAdvancedCustomRouteUpstreamPath, member_of. cbn [mbind option_bind]. rewrite Hu.
  by destruct u.
Qed.

Lemma normalized_hasUpstream r r' : normalizeAdvancedCustomRoute r = Some r' -> hasUpstream r'.
Proof.
  intros (u & _ & ->)%normalizeRoute_Some. split; [by eexists|].
  exists u. apply mkRoute_upstream.
Qed.

(** ** Rows *)

Section Editor.
Variables (parseURL : jsstr -> option (jsstr * jsstr)) (t : jsstr -> jsstr).

#[local] Abbreviation handle := (handle parseURL t).

Lemma routesIn_Some s rs :
  routesIn s = Some rs <-> exists l, routesOf (config s) = Some l /\ mapM normalizeAdvancedCustomRoute l = Some rs.
Proof.
  unfold routesIn. destruct (normalizeAdvancedCustomConfig (config s)) as [c|] eqn:E; cbn [mbind option_bind].
  - apply normalizeConfig_Some in E as (l & l' & Hl & Hm & ->). rewrite routesOf_mkConfig. naive_solver.
  - split; [done|]. intros (l & Hl & Hm).
    assert (normalizeAdvancedCustomConfig (config s) = Some (mkConfig rs)); [|congruence].
    apply normalizeConfig_Some. eauto.
Qed.

Lemma routesIn_normalized s rs :
  routesIn s = Some rs -> Forall (fun r => normalizeAdvancedCustomRoute r = Some r) rs.
Proof.
  intros (l & _ & Hm)%routesIn_Some. apply mapM_Some in Hm.
  induction Hm; constructor; [by eapply normalizeRoute_idemp|done].
Qed.

Lemma mapM_normal rs : Forall (fun r => normalizeAdvancedCustomRoute r = Some r) rs ->
  mapM normalizeAdvancedCustomRoute rs = Some rs.
Proof. intros H. apply mapM_Some. induction H; constructor; done. Qed.

(** The rows after the configuration is replaced by normalized routes. *)
Lemma routesIn_mkConfig s rs :
  config s = mkConfig rs -> Forall (fun r => normalizeAdvancedCustomRoute r = Some r) rs ->
  routesIn s = Some rs.
Proof.
  intros Hc H. apply routesIn_Some. exists rs. rewrite Hc. split; [done|by apply mapM_normal].
Qed.

Lemma mapM_insert rs i r r' :
  Forall (fun r => normalizeAdvancedCustomRoute r = Some r) rs -> normalizeAdvancedCustomRoute r = Some r' ->
  mapM normalizeAdvancedCustomRoute (<[i := r]> rs) = Some (<[i := r']> rs).
Proof.
  intros H Hr. apply mapM_Some. apply Forall2_insert; [|done]. by apply mapM_Some, mapM_normal.
Qed.

(** What a change of a row does to the rows. *)
Lemma onRow_routes s i f s' :
  onRow s i f = Some s' ->
  exists rs r patch r1, routesIn s = Some rs /\ rs !! i = Some r /\ f r = Some patch /\
    applyPatch r patch = Some r1 /\ config s' = mkConfig (<[i := r1]> rs) /\
    routeKeys s' = routeKeys s /\ routeKeyCounter s' = routeKeyCounter s.
Proof.
  unfold onRow, updateRoute. intros H. destruct (routesIn s) as [rs|]; cbn [mbind option_bind] in H; [|done].
  destruct (rs !! i) as [r|] eqn:Er; cbn [mbind option_bind] in H; [|done].
  destruct (f r) as [patch|] eqn:Ef; cbn [mbind option_bind] in H; [|done].
  try rewrite Er in H. cbn [mbind option_bind] in H.
  destruct (applyPatch r patch) as [r1|] eqn:Ep; cbn [mbind option_bind] in H; [|done].
  injection H as <-. by exists rs, r, patch, r1.
Qed.

(** The patches of a row leave a string as the upstream path. *)
Definition keepsUpstream (patch : Patch) : Prop :=
  forall u, exists u', patchGet patch (js "upstream_path") (Some (JStr u)) = Some (JStr u').

Definition rowPatch (e : Event) : option (nat * (json -> option Patch)) :=
  match e with
  | SetConverter i c => Some (i, fun r => setConverter r c)
  | SetIncomingPath i p => Some (i, fun r => setIncomingPath r p)
  | SetUpstreamPath i p => Some (i, fun r => setUpstreamPath r p)
  | SetAuthMode i m => Some (i, fun r => setAuthMode r m)
  | UpdateAuth i f v => Some (i, fun r => updateAuth r f v)
  | _ => None
  end.

Lemma rowPatch_handle s e i f : rowPatch e = Some (i, f) -> handle s e = onRow s i f.
Proof. destruct e; intros [= <- <-]; done. Qed.

Lemma rowPatch_keeps e i f r patch : rowPatch e = Some (i, f) -> f r = Some patch -> keepsUpstream patch.
Proof.
  destruct e; intros [= <- <-] Hp u.
  - unfold setConverter in Hp. destruct (rowPath r); [|done]. cbn [mbind option_bind] in Hp.
    injection Hp as <-. exists u. by destruct (negb _).
  - unfold setIncomingPath in Hp. injection Hp as <-. exists u. by destruct (negb _).
  - injection Hp as <-. by eexists.
  - injection Hp as <-. by exists u.
  - unfold updateAuth in Hp. destruct (prop r (js "auth")); [|done]. case_match; [done|]. injection Hp as <-. by exists u.
Qed.

Lemma row_event_routes s e i f s' :
  rowPatch e = Some (i, f) -> handle s e = Some s' ->
  exists rs r patch r1 r2, routesIn s = Some rs /\ rs !! i = Some r /\ f r = Some patch /\
    applyPatch r patch = Some r1 /\ normalizeAdvancedCustomRoute r1 = Some r2 /\
    routesIn s' = Some (<[i := r2]> rs) /\
    routeKeys s' = routeKeys s /\ routeKeyCounter s' = routeKeyCounter s.
Proof.
  intros He. rewrite (rowPatch_handle _ _ _ _ He).
  intros (rs & r & patch & r1 & Hrs & Hr & Hf & Hp & Hc & Hk & Hn)%onRow_routes.
  pose proof (routesIn_normalized _ _ Hrs) as Hnorm.
  assert (normalizeAdvancedCustomRoute r = Some r) as Hrn by (rewrite Forall_forall in Hnorm; eapply Hnorm, list_elem_of_lookup_2, Hr).
  destruct (normalized_hasUpstream _ _ Hrn) as [_ [u Hu]].
  destruct (rowPatch_keeps _ _ _ _ _ He Hf u) as [u' Hu'].
  destruct (hasUpstream_normalizes r1) as [r2 Hr2].
  { split; [by eapply applyPatch_object|]. exists u'. by rewrite (applyPatch_get _ _ _ _ Hp), Hu. }
  exists rs, r, patch, r1, r2. split_and!; try done. apply routesIn_Some.
  exists (<[i := r1]> rs). rewrite Hc. split; [done|by apply mapM_insert].
Qed.

(** ** Keys *)

Lemma numberedKey_inj n m : numberedKey n = numberedKey m -> n = m.
Proof. intros H%app_inv_head. apply showZ_inj in H; lia. Qed.

Lemma initialKey_inj n m : initialKey n = initialKey m -> n = m.
Proof. intros H%app_inv_head. apply showZ_inj in H; lia. Qed.

Lemma initialKey_ne i n : initialKey i <> numberedKey n.
Proof.
  unfold initialKey, numberedKey. pose proof (showZ_digits (Z.of_nat n) ltac:(lia)) as Hd.
  change (js "advanced-custom-route-initial-") with (js "advanced-custom-route-" ++ js "initial-").
  rewrite <- app_assoc. intros H%app_inv_head. change (js "initial-") with (105 :: js "nitial-") in H.
  destruct (showZ (Z.of_nat n)) as [|c s]; [done|]. inversion_clear Hd as [|? ? Hc _].
  injection H as <- _. done.
Qed.

(** A key handed out when the counter was at most [n]. *)
Definition oldKey (n : nat) (k : jsstr) : Prop :=
  (exists i, k = initialKey i) \/ exists m, (m <= n)%nat /\ k = numberedKey m.

(** Every row has a key of its own. *)
Definition keysInv (s : EditorState) : Prop :=
  exists rs, routesIn s = Some rs /\ length (routeKeys s) = length rs /\
    NoDup (routeKeys s) /\ Forall (oldKey (routeKeyCounter s)) (routeKeys s).

Lemma oldKey_fresh n : ~ oldKey n (numberedKey (S n)).
Proof.
  intros [[i H]|(m & Hm & H)]; [symmetry in H; by apply initialKey_ne in H|].
  apply numberedKey_inj in H. lia.
Qed.

Lemma oldKey_mono n m k : (n <= m)%nat -> oldKey n k -> oldKey m k.
Proof. intros Hle [H|(i & Hi & H)]; [by left|right]. exists i. split; [lia|done]. Qed.

Lemma keysFrom_nodup n count : NoDup (keysFrom n count).
Proof.
  unfold keysFrom. change (NoDup (numberedKey <$> seq (S n) count)). apply NoDup_fmap_2; [|apply NoDup_seq].
  intros x y. apply numberedKey_inj.
Qed.

Lemma keysFrom_old n count : Forall (oldKey (n + count)) (keysFrom n count).
Proof.
  apply Forall_forall. intros k Hk. unfold keysFrom in Hk.
  rewrite list_elem_of_In, in_map_iff in Hk. destruct Hk as (m & <- & Hm%in_seq).
  right. exists m. split; [lia|done].
Qed.

(** Nothing that the rows depend on has changed. *)
Definition sameRows (s s' : EditorState) : Prop :=
  config s' = config s /\ routeKeys s' = routeKeys s /\ routeKeyCounter s' = routeKeyCounter s.

Lemma sameRows_keys s s' : sameRows s s' -> keysInv s -> keysInv s'.
Proof. intros (Hc & Hk & Hn). unfold keysInv, routesIn. by rewrite Hc, Hk, Hn. Qed.

(** What reading the text does: an error changes only the message, and what is
    returned is valid. *)
Lemma parseJson_spec s r s' :
  parseJsonEditorConfig parseURL t s = Some (r, s') ->
  (exists m, s' = mkEditor (config s) (routeKeys s) (editMode s) (jsonText s) m (templateKey s)
                    (routeKeyCounter s) (saved s) (isOpen s)) /\
  forall c, r = Some c -> parseAdvancedCustomConfig (Some (jsonText s)) = Some c /\
    validateAdvancedCustomConfig parseURL (Some c) = Some None.
Proof.
  unfold parseJsonEditorConfig. destruct (parseAdvancedCustomConfig _) as [c|]; [|intros [= <- <-]; split; [by eexists|done]].
  destruct (validateAdvancedCustomConfig _ _) as [[e|]|] eqn:E; cbn [mbind option_bind]; [..|done];
    intros [= <- <-]; (split; [by eexists|]); [done|]. by intros ? [= <-].
Qed.

Lemma parseJson_same s r s' : parseJsonEditorConfig parseURL t s = Some (r, s') -> sameRows s s'.
Proof. by intros [[m ->] _]%parseJson_spec. Qed.

Lemma showConfig_keys s c s' : showConfig s c = Some s' -> keysInv s'.
Proof.
  unfold showConfig. destruct (normalizeAdvancedCustomConfig c) as [c'|] eqn:E; cbn [mbind option_bind]; [|done].
  pose proof E as (l & l' & _ & Hm & ->)%normalizeConfig_Some. rewrite routesOf_mkConfig. cbn [mbind option_bind].
  intros [= <-]. exists l'. unfold createRouteKeys. cbn [routeKeys routeKeyCounter]. split_and!.
  - apply routesIn_Some. exists l'. split; [done|]. eapply mapM_idemp; [apply normalizeRoute_idemp|exact Hm].
  - unfold keysFrom. by rewrite length_map, length_seq.
  - apply keysFrom_nodup.
  - apply keysFrom_old.
Qed.

Lemma replaceConfig_keys s c s' : replaceConfig s c = Some s' -> keysInv s'.
Proof.
  unfold replaceConfig. destruct (showConfig s c) as [s1|] eqn:E; cbn [mbind option_bind]; [|done].
  destruct (stringifyAdvancedCustomConfig _); cbn [mbind option_bind]; [|done]. intros [= <-].
  apply showConfig_keys in E. exact E.
Qed.

Lemma addRoute_keys s s' : keysInv s -> addRoute s = Some s' -> keysInv s'.
Proof.
  intros (rs & Hrs & Hl & Hnd & Hold). unfold addRoute. rewrite Hrs. cbn [mbind option_bind createRouteKey].
  intros [= <-]. exists (rs ++ [createAdvancedCustomRoute]). cbn [routeKeys routeKeyCounter]. split_and!.
  - apply routesIn_mkConfig; [done|]. apply Forall_app. split; [by eapply routesIn_normalized|].
    constructor; [by vm_compute|constructor].
  - rewrite !length_app. cbn [length]. lia.
  - apply NoDup_app. split_and!; [done| |apply NoDup_singleton]. intros k Hk ->%list_elem_of_singleton.
    rewrite Forall_forall in Hold. by apply Hold, oldKey_fresh in Hk.
  - apply Forall_app. split; [eapply Forall_impl; [exact Hold|]; intros k; apply oldKey_mono; lia|].
    constructor; [|constructor]. right. by exists (S (routeKeyCounter s)).
Qed.

Lemma removeRoute_keys s i s' : keysInv s -> removeRoute s i = Some s' -> keysInv s'.
Proof.
  intros (rs & Hrs & Hl & Hnd & Hold). unfold removeRoute. rewrite Hrs. cbn [mbind option_bind].
  intros [= <-]. exists (delete i rs). cbn [routeKeys routeKeyCounter]. split_and!.
  - apply routesIn_mkConfig; [done|]. apply Forall_delete. by eapply routesIn_normalized.
  - rewrite !delete_take_drop, !length_app, !length_take, !length_drop. lia.
  - by eapply sublist_NoDup, sublist_delete.
  - by apply Forall_delete.
Qed.

Lemma row_event_keys s e i f s' :
  rowPatch e = Some (i, f) -> keysInv s -> handle s e = Some s' -> keysInv s'.
Proof.
  intros He (rs & Hrs & Hl & Hnd & Hold) (rs' & r & p & r1 & r2 & Hrs' & _ & _ & _ & _ & H & Hk & Hn)%(row_event_routes _ _ _ _ _ He).
  assert (rs' = rs) as -> by congruence. exists (<[i := r2]> rs). by rewrite H, Hk, Hn, length_insert.
Qed.

(** Split the successful steps of a handler. *)
Ltac steps H :=
  repeat (match type of H with
  | context [?m ≫= _] => destruct m eqn:?; cbn [mbind option_bind] in H; [|discriminate H]
  end).

Lemma parseJson_keys s r s' : keysInv s -> parseJsonEditorConfig parseURL t s = Some (r, s') -> keysInv s'.
Proof. intros Hi H%parseJson_same. by eapply sameRows_keys. Qed.

Lemma handle_keys s e s' : keysInv s -> handle s e = Some s' -> keysInv s'.
Proof.
  intros Hi H. destruct (rowPatch e) as [[i f]|] eqn:He; [by eapply row_event_keys|].
  destruct e; try done; cbn [AdvancedCustomEditor.handle] in H.
  - by eapply addRoute_keys.
  - by eapply removeRoute_keys.
  - unfold switchToVisualMode in H. steps H. destruct p as [[c|] s1]; [|injection H as <-; by eapply parseJson_keys].
    steps H. injection H as <-. apply (showConfig_keys _ _ _ Heqo0).
  - unfold switchToJsonMode in H. steps H. injection H as <-. exact Hi.
  - injection H as <-. exact Hi.
  - unfold formatJson in H. steps H. destruct p as [[c|] s1]; [steps H|]; injection H as <-;
      apply (parseJson_keys _ _ _ Hi Heqo).
  - injection H as <-. exact Hi.
  - unfold applyTemplate in H. steps H. destruct append; [|by eapply replaceConfig_keys].
    steps H. destruct p as [[c|] s1].
    + steps H. by eapply replaceConfig_keys.
    + injection H as <-. destruct (editMode s); [|by eapply parseJson_keys].
      by destruct (normalizeAdvancedCustomConfig (config s)).
  - unfold saveConfig in H. destruct (editMode s); steps H.
    + destruct o; [by injection H as <-|]. steps H. injection H as <-. exact Hi.
    + destruct p as [[c|] s1]; [steps H|]; injection H as <-; apply (parseJson_keys _ _ _ Hi Heqo).
Qed.

Lemma init_keys v s : initEditor v = Some s -> keysInv s.
Proof.
  unfold initEditor. intros H. steps H. injection H as <-. exists l. cbn [routeKeys routeKeyCounter]. split_and!.
  - unfold routesIn. cbn [config]. by rewrite Heqo.
  - by rewrite length_map, length_seq.
  - change (NoDup (initialKey <$> seq 0 (length l))). apply NoDup_fmap_2; [|apply NoDup_seq].
    intros x y. apply initialKey_inj.
  - apply Forall_forall. intros k Hk. rewrite list_elem_of_In, in_map_iff in Hk.
    destruct Hk as (i & <- & _). left. by exists i.
Qed.

(** in every state of the editor that a sequence of events reaches, there
    is a row for every route, with a key that no other row has, so that React
    keeps the state of a row with its route. *)
Theorem rows_have_distinct_keys v s :
  reachable parseURL t v s ->
  exists rs, routesIn s = Some rs /\ length (routeKeys s) = length rs /\ NoDup (routeKeys s).
Proof.
  intros H. enough (keysInv s) as (rs & ? & ? & ? & _) by eauto.
  induction H as [s H|s e s' _ IH H]; [by eapply init_keys|by eapply handle_keys].
Qed.

(** ** Saving *)

(** C12: the dialog never saves a configuration that is not valid: when saving
    closes it, the saved text is the text of a configuration that the validator
    accepts, and reading the text gives that configuration. *)
Theorem saved_text_is_valid s s' :
  isOpen s = true -> saveConfig parseURL t s = Some s' -> isOpen s' = false ->
  exists text c, saved s' = Some text /\ normalizeAdvancedCustomConfig c = Some c /\
    validateAdvancedCustomConfig parseURL (Some c) = Some None /\ text = JsonText.JSON_pretty c /\
    (JsonText.wf_json c -> parseAdvancedCustomConfig (Some text) = Some c).
Proof.
  intros Ho H Hc.
  enough (exists text c, saved s' = Some text /\ validateAdvancedCustomConfig parseURL (Some c) = Some None /\
    normalizeAdvancedCustomConfig c = Some c /\ stringifyAdvancedCustomConfig c = Some text) as
    (text & c & Hs & Hv & Hn & Ht).
  { exists text, c. pose proof (roundtrip_text c c Hn) as Hr. unfold stringifyAdvancedCustomConfig in Ht.
    rewrite Hn in Ht. injection Ht as <-. by split_and!. }
  unfold saveConfig in H. destruct (editMode s); steps H.
  - apply normalizeConfig_idemp in Heqo as Hn. destruct o; [injection H as <-; congruence|]. steps H.
    injection H as <-. by eexists _, _.
  - destruct p as [r s1]. apply parseJson_spec in Heqo as [[m ->] Hp]. destruct r as [c|]; [|injection H as <-; cbn in Hc; congruence].
    destruct (Hp c eq_refl) as [Hc1 Hv]. steps H. injection H as <-. eexists _, c.
    split_and!; [done|done|by eapply parsed_normalized|done].
Qed.

(** ** Converters *)

(** A route whose converter is registered and takes its path. *)
Definition matched (r : json) : Prop :=
  exists p c, prop r (js "incoming_path") = Some (JStr p) /\ p <> [] /\ trim p = p /\
    prop r (js "converter") = Some (JStr c) /\ c ∈ value <$> ADVANCED_CUSTOM_CONVERTER_OPTIONS /\
    isConverterPathAllowed p c = true.

(** What the controls of the visual mode offer. *)
Definition visualEvent (e : Event) : Prop :=
  match e with
  | SetConverter _ c => c ∈ value <$> ADVANCED_CUSTOM_CONVERTER_OPTIONS
  | SetIncomingPath _ (Some p) => p ∈ value <$> ADVANCED_CUSTOM_INCOMING_PATH_OPTIONS
  | SetIncomingPath _ None | SetUpstreamPath _ _ | SetAuthMode _ _ | UpdateAuth _ _ _
  | AddRoute | RemoveRoute _ => True
  | _ => False
  end.

Fixpoint run (s : EditorState) (es : list Event) : option EditorState :=
  match es with [] => Some s | e :: es' => s' ← handle s e; run s' es' end.

(** A path that a route can be given. *)
Definition usable (c p : jsstr) : Prop := p <> [] /\ trim p = p /\ isConverterPathAllowed p c = true.

Lemma default_usable c :
  c ∈ value <$> ADVANCED_CUSTOM_CONVERTER_OPTIONS -> usable c (getDefaultAdvancedCustomIncomingPath c).
Proof.
  intros Hc. cut (forallb (fun c => let p := getDefaultAdvancedCustomIncomingPath c in
    truthy p && bool_decide (trim p = p) && isConverterPathAllowed p c)
    (value <$> ADVANCED_CUSTOM_CONVERTER_OPTIONS) = true); [|by vm_compute].
  rewrite forallb_forall. intros H. apply list_elem_of_In, H in Hc. cbv zeta in Hc. bool_hyps.
  split_and!; [by apply truthy_iff|done|done].
Qed.

Lemma option_path p :
  p ∈ value <$> ADVANCED_CUSTOM_INCOMING_PATH_OPTIONS -> p <> [] /\ trim p = p.
Proof.
  intros Hp. cut (forallb (fun p => truthy p && bool_decide (trim p = p))
    (value <$> ADVANCED_CUSTOM_INCOMING_PATH_OPTIONS) = true); [|by vm_compute].
  rewrite forallb_forall. intros H. apply list_elem_of_In, H in Hp. bool_hyps.
  split; [by apply truthy_iff|done].
Qed.

Lemma none_allowed p : isConverterPathAllowed p NONE = true.
Proof. done. Qed.

Lemma js_or_string p b : p <> [] -> js_or (Some (JStr p)) b = JStr p.
Proof. by destruct p. Qed.

Lemma registered_nonempty c : c ∈ value <$> ADVANCED_CUSTOM_CONVERTER_OPTIONS -> c <> [].
Proof. intros H ->. revert H. by apply (bool_decide_unpack (~ _)); vm_compute. Qed.

Lemma matched_normalized r r' : matched r -> normalizeAdvancedCustomRoute r = Some r' -> matched r'.
Proof.
  intros (p & c & Hp & Hne & Ht & Hc & Hreg & Ha) (u & _ & ->)%normalizeRoute_Some. exists p, c.
  autorewrite with routes. rewrite Hp, Hc, !js_or_string by (done || by apply registered_nonempty).
  done.
Qed.

Lemma matched_row r p c :
  prop r (js "incoming_path") = Some (JStr p) -> p <> [] -> prop r (js "converter") = Some (JStr c) -> c <> [] ->
  rowPath r = Some p /\ converterOf r = c.
Proof. intros Hp Hne Hc Hc2. unfold rowPath, converterOf. by rewrite Hp, Hc, !js_or_string. Qed.

(** A change of a row keeps the match. *)
Lemma patch_matched e i f r patch r1 :
  rowPatch e = Some (i, f) -> visualEvent e -> matched r -> f r = Some patch ->
  applyPatch r patch = Some r1 -> matched r1.
Proof.
  intros He Hv (p & c & Hp & Hne & Ht & Hc & Hreg & Ha) Hf Hap.
  destruct (matched_row r p c Hp Hne Hc (registered_nonempty c Hreg)) as [Hrow Hconv].
  pose proof (applyPatch_get _ _ _ (js "incoming_path") Hap) as Gi.
  pose proof (applyPatch_get _ _ _ (js "converter") Hap) as Gc. rewrite Hp in Gi. rewrite Hc in Gc.
  destruct e; try discriminate He; injection He as <- <-; cbn [visualEvent] in Hv.
  - unfold setConverter, isAdvancedCustomIncomingPathAllowed in Hf. rewrite Hrow in Hf.
    cbn [mbind option_bind] in Hf. injection Hf as <-.
    destruct (isConverterPathAllowed p converter) eqn:E; cbn [negb] in Gi, Gc; [by exists p, converter|].
    exists (getDefaultAdvancedCustomIncomingPath converter), converter.
    by destruct (default_usable _ Hv) as (? & ? & ?).
  - unfold setIncomingPath, isAdvancedCustomIncomingPathAllowed in Hf. rewrite Hconv in Hf. cbv zeta in Hf.
    set (q := match path with Some p0 => _ | None => _ end) in Hf. injection Hf as <-.
    assert (q <> [] /\ trim q = q) as [Hq1 Hq2].
    { subst q. destruct (default_usable c Hreg) as (? & ? & _). destruct path as [p'|]; [|done].
      destruct (option_path p' Hv). by destruct (truthy p'). }
    destruct (isConverterPathAllowed q c) eqn:E; cbn [negb] in Gi, Gc; [by exists q, c|].
    exists q, NONE. split_and!; try done. by apply (bool_decide_unpack _); vm_compute.
  - injection Hf as <-. by exists p, c.
  - injection Hf as <-. by exists p, c.
  - unfold updateAuth in Hf. destruct (prop r (js "auth")); [|done].
    case_match; [done|]. injection Hf as <-. by exists p, c.
Qed.

Lemma handle_matched s e s' rs :
  visualEvent e -> handle s e = Some s' -> routesIn s = Some rs -> Forall matched rs ->
  exists rs', routesIn s' = Some rs' /\ Forall matched rs'.
Proof.
  intros Hv H Hrs Hm. destruct (rowPatch e) as [[i f]|] eqn:He.
  - destruct (row_event_routes _ _ _ _ _ He H) as (rs' & r & p & r1 & r2 & Hrs' & Hr & Hf & Hp & Hn & Hs & _).
    assert (rs' = rs) as -> by congruence. exists (<[i := r2]> rs). split; [done|].
    apply Forall_insert; [done|]. eapply matched_normalized; [|done].
    eapply patch_matched; [done..| |done|done]. by eapply Forall_lookup_1.
  - destruct e; try done; cbn [AdvancedCustomEditor.handle] in H; [unfold addRoute in H|unfold removeRoute in H];
      rewrite Hrs in H; cbn [mbind option_bind createRouteKey] in H; injection H as <-.
    + exists (rs ++ [createAdvancedCustomRoute]). split.
      * apply routesIn_mkConfig; [done|]. apply Forall_app. split; [by eapply routesIn_normalized|].
        constructor; [by vm_compute|constructor].
      * apply Forall_app. split; [done|]. constructor; [|constructor].
        exists (js "/v1/chat/completions"), NONE. split_and!; try done.
        by apply (bool_decide_unpack _); vm_compute.
    + exists (delete index rs). split; [|by apply Forall_delete].
      apply routesIn_mkConfig; [done|]. apply Forall_delete. by eapply routesIn_normalized.
Qed.

Definition converterErrors : list jsstr :=
  [js "Converter is not registered"; js "Converter does not match incoming path"].

Lemma other_error x m :
  bool_decide (x ∉ converterErrors) = true -> Some (Some x) = Some (Some m) -> m ∉ converterErrors.
Proof. intros Hx [= <-]. by bool_hyps. Qed.

(** Leave the branch of an error that is not about the converter. *)
Ltac skip_errors H :=
  repeat match type of H with
  | (if ?b then Some (Some ?x) else _) = _ => destruct b; [by apply (other_error x); [vm_compute|]|]
  end.

Lemma authError_other auth m : validateRouteAuth auth = Some (Some m) -> m ∉ converterErrors.
Proof.
  unfold validateRouteAuth. intros H. destruct auth as [a|]; [|done].
  destruct (negb (json_truthy a)); [done|]. destruct (is_str _ NONE); [done|].
  skip_errors H. steps H. skip_errors H. steps H. skip_errors H. done.
Qed.

Lemma routeError_matched seen r m :
  matched r -> routeError parseURL seen r = Some (Some m) -> m ∉ converterErrors.
Proof.
  intros (p & c & Hp & Hne & Ht & Hc & Hreg & Ha) H. unfold routeError in H.
  assert (incomingPathOf r = Some p) as Hpath.
  { unfold incomingPathOf. destruct r as [| | | | |fields]; try done. cbn [member_of mbind option_bind].
    rewrite Hp. cbn [trim_of]. by rewrite Ht. }
  rewrite Hpath in H. cbn [mbind option_bind] in H. steps H. skip_errors H.
  rewrite Hc, js_or_string in H by by apply registered_nonempty.
  apply isConverter_spec in Hreg. rewrite Hreg, Ha in H. exact (authError_other _ _ H).
Qed.

Lemma validateRoutes_matched seen i rs e :
  Forall matched rs -> validateRoutes parseURL seen i rs = Some (Some e) -> message e ∉ converterErrors.
Proof.
  intros Hm. revert seen i. induction Hm as [|r rs Hr _ IH]; intros seen i H; cbn [validateRoutes] in H; [done|].
  destruct (routeError parseURL seen r) as [[m|]|] eqn:E; cbn [mbind option_bind] in H; [| |done].
  - injection H as <-. by eapply routeError_matched.
  - steps H. by eapply IH.
Qed.

(** edits in the visual mode keep converters and paths together.  From
    routes whose converter takes their path, whatever sequence of changes the
    controls allow, no error about a converter can be reported. *)
Theorem visual_edits_keep_converters s es s' rs e :
  Forall visualEvent es -> run s es = Some s' -> routesIn s = Some rs -> Forall matched rs ->
  validateAdvancedCustomConfig parseURL (Some (config s')) = Some (Some e) -> message e ∉ converterErrors.
Proof.
  intros Hv. revert s rs. induction Hv as [|x es Hx _ IH]; intros s rs Hrun Hrs Hm H.
  - injection Hrun as <-. unfold validateAdvancedCustomConfig in H. unfold routesIn in Hrs.
    destruct (normalizeAdvancedCustomConfig (config s)) as [c|]; cbn [mbind option_bind] in *; [|done].
    rewrite Hrs in H. cbn [mbind option_bind] in H.
    case_match; [|by eapply validateRoutes_matched].
    by apply (other_error (js "Advanced custom configuration requires at least one route")); [vm_compute|injection H as <-].
  - cbn [run] in Hrun. destruct (handle s x) as [s1|] eqn:E; [|done].
    destruct (handle_matched s x s1 rs Hx E Hrs Hm) as (rs' & Hrs' & Hm'). by eapply IH.
Qed.

(** ** Stale text *)

Lemma onRow_text s i f s' : onRow s i f = Some s' -> jsonText s' = jsonText s.
Proof. unfold onRow, updateRoute. intros H. steps H. by injection H as <-. Qed.

Lemma visual_text s e s' : visualEvent e -> handle s e = Some s' -> jsonText s' = jsonText s.
Proof.
  intros Hv H. destruct (rowPatch e) as [[i f]|] eqn:He.
  - rewrite (rowPatch_handle _ _ _ _ He) in H. by eapply onRow_text.
  - destruct e; try done; cbn [AdvancedCustomEditor.handle] in H; [unfold addRoute in H|unfold removeRoute in H];
      steps H; cbn [createRouteKey] in H; by injection H as <-.
Qed.

Lemma run_visual_text s es s' : Forall visualEvent es -> run s es = Some s' -> jsonText s' = jsonText s.
Proof.
  intros Hv. revert s. induction Hv as [|e es He _ IH]; intros s H; cbn [run] in H; [by injection H as <-|].
  steps H. rewrite (IH _ H). by eapply visual_text.
Qed.

Lemma initial_normalized v : normalizeAdvancedCustomConfig (initialConfig v) = Some (initialConfig v).
Proof.
  unfold initialConfig. destruct (parseAdvancedCustomConfig (Some v)) eqn:E; [by eapply parsed_normalized|].
  by vm_compute.
Qed.

(** the button of the visual mode reads the text of the other mode even
    when the visual mode is shown already: from a valid configuration, any
    sequence of visual edits followed by a press of that button is undone. *)
Theorem visual_button_discards_edits v s0 es s1 :
  initEditor v = Some s0 -> JsonText.wf_json (config s0) ->
  validateAdvancedCustomConfig parseURL (Some (config s0)) = Some None ->
  Forall visualEvent es -> run s0 es = Some s1 ->
  exists s2, handle s1 SwitchToVisual = Some s2 /\ config s2 = config s0.
Proof.
  intros Hi Hw Hv Hes Hrun. pose proof (initial_normalized v) as Hn.
  assert (config s0 = initialConfig v /\ jsonText s0 = JsonText.JSON_pretty (initialConfig v)) as [Hc Ht].
  { unfold initEditor in Hi. rewrite Hn in Hi. cbn [mbind option_bind] in Hi. steps Hi. injection Hi as <-.
    split; [done|]. unfold stringifyAdvancedCustomConfig in *. rewrite Hn in Heqo0. by injection Heqo0 as <-. }
  pose proof (roundtrip_text _ _ Hn) as Hp. rewrite Hc in *. specialize (Hp Hw).
  cbn [AdvancedCustomEditor.handle]. unfold switchToVisualMode, parseJsonEditorConfig.
  rewrite (run_visual_text _ _ _ Hes Hrun), Ht, Hp, Hv. cbn [mbind option_bind].
  unfold showConfig. rewrite Hn. cbn [mbind option_bind].
  pose proof Hn as (l & l' & _ & _ & El)%normalizeConfig_Some. rewrite El, routesOf_mkConfig.
  cbn [mbind option_bind]. by eexists.
Qed.
End Editor.

(** ** Witnesses *)

Definition start : EditorState := match initEditor [] with Some s => s | None => mkEditor JNull [] Visual [] [] [] 0 None false end.

Lemma rows_have_distinct_keys_witness :
  exists rs, routesIn start = Some rs /\ length (routeKeys start) = length rs /\ NoDup (routeKeys start).
Proof.
  apply (rows_have_distinct_keys noURL id []). apply reach_init. by vm_compute.
Defined.

Lemma saved_text_is_valid_witness :
  exists s', saveConfig noURL id start = Some s' /\
  exists text c, saved s' = Some text /\ normalizeAdvancedCustomConfig c = Some c /\
    validateAdvancedCustomConfig noURL (Some c) = Some None /\ text = JsonText.JSON_pretty c /\
    (JsonText.wf_json c -> parseAdvancedCustomConfig (Some text) = Some c).
Proof.
  destruct (saveConfig noURL id start) as [s'|] eqn:E; [|by vm_compute in E].
  exists s'. split; [done|]. apply (saved_text_is_valid noURL id start s'); [done|exact E|].
  vm_compute in E. by injection E as <-.
Defined.

Definition edits : list Event := [SetUpstreamPath 0 (js "relative"); SetConverter 0 CHAT_TO_GEMINI; AddRoute].

Lemma visual_edits_keep_converters_witness :
  js "Incoming path must be unique" ∉ converterErrors.
Proof.
  apply (visual_edits_keep_converters noURL id start [AddRoute]
    (match run noURL id start [AddRoute] with Some s => s | None => start end)
    [createAdvancedCustomRoute] (mkError (js "Incoming path must be unique") (Some 1%nat))).
  - by repeat constructor.
  - by vm_compute.
  - by vm_compute.
  - constructor; [|constructor]. exists (js "/v1/chat/completions"), NONE.
    split_and!; try done. by apply (bool_decide_unpack _); vm_compute.
  - by vm_compute.
Defined.

Lemma visual_button_discards_edits_witness :
  exists s1, run noURL id start edits = Some s1 /\ config s1 <> config start /\
  exists s2, AdvancedCustomEditor.handle noURL id s1 SwitchToVisual = Some s2 /\ config s2 = config start.
Proof.
  destruct (run noURL id start edits) as [s1|] eqn:E; [|by vm_compute in E].
  exists s1. split_and!; [done|by vm_compute in E; injection E as <-|].
  apply (visual_button_discards_edits noURL id [] start edits s1); [by vm_compute| |by vm_compute| |exact E].
  - by apply JsonText.wf_jsonb_sound; vm_compute.
  - by repeat constructor.
Defined.

End AdvancedCustomEditorProperties.
