(* ===== verification/ParamOverride.v ===== *)
(** * Channels: parameter overrides

    The part of [features/channels/components/dialogs/param-override-editor-dialog.tsx]
    that is outside the component: the operations a channel applies to its
    requests, their loading from a JSON text, their drafts, the validator and
    the text that is saved.  The text may hold anything, so a loaded value is a
    JSON value and reading a property of null throws.

    Every loaded operation and condition gets an id from a clock reading and a
    counter.  A function that makes ids is a function of the counter; it returns
    [None] when it throws.  [now n] is the reading for the id number [n] and [t]
    the translation, with the line where it is given one. *)

From S2P Require Import Prelude JsString JsCollections Json JsonNumber JsonText JsValue.
Import Json JsValue.

Module ParamOverride.

(** ** Types *)

Record ParamOverrideCondition := mkCondition {
  c_id : jsstr;
  c_path : jsstr;
  c_mode : jsstr;
  c_value_text : jsstr;
  c_invert : bool;
  c_pass_missing_key : bool }.

Record ParamOverrideOperation := mkOperation {
  id : jsstr;
  description : jsstr;
  path : jsstr;
  mode : jsstr;
  from : jsstr;
  to : jsstr;
  value_text : jsstr;
  keep_origin : bool;
  logic : jsstr;
  conditions : list ParamOverrideCondition }.

(** ** Tables *)

#[local] Abbreviation text s := (JStr (js s)).

Definition OPERATION_MODE_OPTIONS : list (jsstr * jsstr) :=
  [ (js "Set Field", js "set"); (js "Delete Field", js "delete"); (js "Append to End", js "append");
    (js "Prepend to Start", js "prepend"); (js "Copy Field", js "copy"); (js "Move Field", js "move");
    (js "String Replace", js "replace"); (js "Regex Replace", js "regex_replace");
    (js "Trim Prefix", js "trim_prefix"); (js "Trim Suffix", js "trim_suffix");
    (js "Ensure Prefix", js "ensure_prefix"); (js "Ensure Suffix", js "ensure_suffix");
    (js "Trim Space", js "trim_space"); (js "To Lowercase", js "to_lower"); (js "To Uppercase", js "to_upper");
    (js "Return Custom Error", js "return_error"); (js "Prune Object Items", js "prune_objects");
    (js "Pass Through Headers", js "pass_headers"); (js "Sync Fields", js "sync_fields");
    (js "Set Request Header", js "set_header"); (js "Delete Request Header", js "delete_header");
    (js "Copy Request Header", js "copy_header"); (js "Move Request Header", js "move_header") ].

Definition OPERATION_MODE_VALUES : list jsstr := map snd OPERATION_MODE_OPTIONS.

Definition OPERATION_MODE_LABEL_MAP : list (jsstr * jsstr) :=
  fold_left (fun acc item => map_set acc item.2 item.1) OPERATION_MODE_OPTIONS [].

Definition CONDITION_MODE_OPTIONS : list (jsstr * jsstr) :=
  [ (js "Exact Match", js "full"); (js "Prefix", js "prefix"); (js "Suffix", js "suffix");
    (js "Contains", js "contains"); (js "Greater Than", js "gt"); (js "Greater Than or Equal", js "gte");
    (js "Less Than", js "lt"); (js "Less Than or Equal", js "lte") ].

Definition CONDITION_MODE_VALUES : list jsstr := map snd CONDITION_MODE_OPTIONS.

(** What a mode uses; an absent flag of [to] differs from a false one on the
    screen only. *)
Record Meta := mkMeta {
  m_path : bool; m_pathOptional : bool; m_value : bool; m_from : bool; m_to : option bool;
  m_keepOrigin : bool; m_pathAlias : bool }.

#[local] Abbreviation onlyPath := (mkMeta true false false false None false false).
#[local] Abbreviation pathValue keep := (mkMeta true false true false None keep false).
#[local] Abbreviation fromTo keep alias := (mkMeta false false false true (Some true) keep alias).
#[local] Abbreviation replacing := (mkMeta true false false true (Some false) false false).

Definition META_SET : Meta := pathValue true.

Definition MODE_META : list (jsstr * Meta) :=
  [ (js "delete", onlyPath); (js "set", META_SET); (js "append", pathValue true); (js "prepend", pathValue true);
    (js "copy", fromTo false false); (js "move", fromTo false false);
    (js "replace", replacing); (js "regex_replace", replacing);
    (js "trim_prefix", pathValue false); (js "trim_suffix", pathValue false);
    (js "ensure_prefix", pathValue false); (js "ensure_suffix", pathValue false);
    (js "trim_space", onlyPath); (js "to_lower", onlyPath); (js "to_upper", onlyPath);
    (js "return_error", mkMeta false false true false None false false);
    (js "prune_objects", mkMeta false true true false None false false);
    (js "pass_headers", mkMeta false false true false None true false);
    (js "sync_fields", fromTo false false);
    (js "set_header", pathValue true); (js "delete_header", onlyPath);
    (js "copy_header", fromTo true true); (js "move_header", fromTo true true) ].

(** [op.mode || 'set'] *)
Definition modeOf (m : jsstr) : jsstr := if truthy m then m else js "set".

(** [MODE_META[mode] || MODE_META.set] *)
Definition metaOf (m : jsstr) : Meta := match map_get MODE_META m with Some x => x | None => META_SET end.

Definition VALUE_REQUIRED_MODES : list jsstr :=
  [ js "trim_prefix"; js "trim_suffix"; js "ensure_prefix"; js "ensure_suffix"; js "set_header";
    js "return_error"; js "prune_objects"; js "pass_headers" ].

Definition FROM_REQUIRED_MODES : list jsstr :=
  [ js "copy"; js "move"; js "replace"; js "regex_replace"; js "copy_header"; js "move_header"; js "sync_fields" ].

Definition TO_REQUIRED_MODES : list jsstr :=
  [ js "copy"; js "move"; js "copy_header"; js "move_header"; js "sync_fields" ].

(** ** Templates *)

Definition LEGACY_TEMPLATE : json :=
  JObj [(js "temperature", JNum (mkNum 0 0)); (js "max_tokens", JNum (mkNum 1000 0))].

#[local] Abbreviation operationsDoc l := (JObj [(js "operations", JArr l)]).

#[local] Abbreviation templateCondition p m v :=
  (JObj [(js "path", text p); (js "mode", text m); (js "value", text v)]).

Definition OPERATION_TEMPLATE : json :=
  operationsDoc
    [ JObj [ (js "description", text "Set default temperature for openai/* models.");
             (js "path", text "temperature"); (js "mode", text "set"); (js "value", JNum (mkNum 7 (-1)));
             (js "conditions", JArr [templateCondition "model" "prefix" "openai/"]); (js "logic", text "AND") ] ].

Definition HEADER_PASSTHROUGH_TEMPLATE : json :=
  operationsDoc
    [ JObj [ (js "description", text "Pass through X-Request-Id header to upstream.");
             (js "mode", text "pass_headers"); (js "value", JArr [text "X-Request-Id"]);
             (js "keep_origin", JBool true) ] ].

Definition GEMINI_IMAGE_4K_TEMPLATE : json :=
  operationsDoc
    [ JObj [ (js "description", text "Set imageSize to 4K when model contains gemini/image and ends with 4k.");
             (js "mode", text "set"); (js "path", text "generationConfig.imageConfig.imageSize");
             (js "value", text "4K");
             (js "conditions", JArr [ templateCondition "original_model" "contains" "gemini";
                                      templateCondition "original_model" "contains" "image";
                                      templateCondition "original_model" "suffix" "4k" ]);
             (js "logic", text "AND") ] ].

Definition CODEX_CLI_HEADER_PASSTHROUGH_HEADERS : list jsstr :=
  [ js "Originator"; js "Session_id"; js "User-Agent"; js "X-Codex-Beta-Features"; js "X-Codex-Turn-Metadata" ].

Definition CLAUDE_CLI_HEADER_PASSTHROUGH_HEADERS : list jsstr :=
  [ js "X-Stainless-Arch"; js "X-Stainless-Lang"; js "X-Stainless-Os"; js "X-Stainless-Package-Version";
    js "X-Stainless-Retry-Count"; js "X-Stainless-Runtime"; js "X-Stainless-Runtime-Version";
    js "X-Stainless-Timeout"; js "User-Agent"; js "X-App"; js "Anthropic-Beta";
    js "Anthropic-Dangerous-Direct-Browser-Access"; js "Anthropic-Version" ].

Definition buildPassHeadersTemplate (headers : list jsstr) : json :=
  operationsDoc [ JObj [ (js "mode", text "pass_headers"); (js "value", JArr (map JStr headers));
                         (js "keep_origin", JBool true) ] ].

Definition CODEX_CLI_HEADER_PASSTHROUGH_TEMPLATE : json :=
  buildPassHeadersTemplate CODEX_CLI_HEADER_PASSTHROUGH_HEADERS.
Definition CLAUDE_CLI_HEADER_PASSTHROUGH_TEMPLATE : json :=
  buildPassHeadersTemplate CLAUDE_CLI_HEADER_PASSTHROUGH_HEADERS.

Definition AWS_BEDROCK_ANTHROPIC_COMPAT_TEMPLATE : json :=
  operationsDoc
    [ JObj [ (js "description", text "Normalize anthropic-beta header tokens for Bedrock compatibility.");
             (js "mode", text "set_header"); (js "path", text "anthropic-beta");
             (js "value", JObj
               [ (js "advanced-tool-use-2025-11-20", text "tool-search-tool-2025-10-19");
                 (js "bash_20241022", JNull); (js "bash_20250124", JNull);
                 (js "code-execution-2025-08-25", JNull);
                 (js "compact-2026-01-12", text "compact-2026-01-12");
                 (js "computer-use-2025-01-24", text "computer-use-2025-01-24");
                 (js "computer-use-2025-11-24", text "computer-use-2025-11-24");
                 (js "context-1m-2025-08-07", text "context-1m-2025-08-07");
                 (js "context-management-2025-06-27", text "context-management-2025-06-27");
                 (js "effort-2025-11-24", JNull); (js "fast-mode-2026-02-01", JNull);
                 (js "files-api-2025-04-14", JNull); (js "fine-grained-tool-streaming-2025-05-14", JNull);
                 (js "interleaved-thinking-2025-05-14", text "interleaved-thinking-2025-05-14");
                 (js "mcp-client-2025-11-20", JNull); (js "mcp-client-2025-04-04", JNull);
                 (js "mcp-servers-2025-12-04", JNull); (js "output-128k-2025-02-19", JNull);
                 (js "structured-output-2024-03-01", JNull); (js "prompt-caching-scope-2026-01-05", JNull);
                 (js "skills-2025-10-02", JNull); (js "structured-outputs-2025-11-13", JNull);
                 (js "text_editor_20241022", JNull); (js "text_editor_20250124", JNull);
                 (js "token-efficient-tools-2025-02-19", JNull);
                 (js "tool-search-tool-2025-10-19", text "tool-search-tool-2025-10-19");
                 (js "web-fetch-2025-09-10", JNull); (js "web-search-2025-03-05", JNull);
                 (js "oauth-2025-04-20", JNull) ]) ];
      JObj [ (js "description", text "Remove all tools[*].custom.input_examples before upstream relay.");
             (js "mode", text "delete"); (js "path", text "tools.*.custom.input_examples") ] ].

Inductive TemplateKind := KOperations | KLegacy.

Record TemplatePresetConfig := mkPreset { p_label : jsstr; p_kind : TemplateKind; p_payload : json }.

Definition TEMPLATE_PRESET_CONFIG : list (jsstr * TemplatePresetConfig) :=
  [ (js "operations_default", mkPreset (js "New Format Template") KOperations OPERATION_TEMPLATE);
    (js "legacy_default", mkPreset (js "Legacy Format Template") KLegacy LEGACY_TEMPLATE);
    (js "pass_headers_auth",
      mkPreset (js "Header Passthrough (X-Request-Id)") KOperations HEADER_PASSTHROUGH_TEMPLATE);
    (js "gemini_image_4k", mkPreset (js "Gemini Image 4K") KOperations GEMINI_IMAGE_4K_TEMPLATE);
    (js "claude_cli_headers_passthrough",
      mkPreset (js "Claude CLI Header Passthrough") KOperations CLAUDE_CLI_HEADER_PASSTHROUGH_TEMPLATE);
    (js "codex_cli_headers_passthrough",
      mkPreset (js "Codex CLI Header Passthrough") KOperations CODEX_CLI_HEADER_PASSTHROUGH_TEMPLATE);
    (js "aws_bedrock_anthropic_beta_override",
      mkPreset (js "AWS Bedrock Claude Compat") KOperations AWS_BEDROCK_ANTHROPIC_COMPAT_TEMPLATE) ].

(** ** Texts and values *)

(** [None] is [undefined]; [JSON.stringify] does not fail on parsed values. *)
Definition toValueText (v : option json) : jsstr :=
  match v with None => [] | Some (JStr s) => s | Some v => JsonText.JSON_stringify v end.

Definition parseLooseValue (valueText : jsstr) : json :=
  let raw := trim valueText in
  if negb (truthy raw) then JStr []
  else match JSON_parse raw with Some v => v | None => JStr raw end.

Definition verifyJSON (s : jsstr) : bool := match JSON_parse s with Some _ => true | None => false end.

(** [s.toUpperCase()] on ASCII letters; the sources compare the result with
    words none of whose letters is the upper case of another character. *)
Definition toUpperCase (s : jsstr) : jsstr :=
  map (fun c => if (97 <=? c) && (c <=? 122) then c - 32 else c) s.

(** [typeof v === 'string' ? v : ''] *)
Definition string_or_empty (v : option json) : jsstr := match v with Some (JStr s) => s | _ => [] end.

(** [MODES.has(v) ? v : fallback] *)
Definition known_or (modes : list jsstr) (v : option json) (fallback : jsstr) : jsstr :=
  match v with Some (JStr s) => if bool_decide (s ∈ modes) then s else fallback | _ => fallback end.

(** ** Fresh ids *)

(** A computation that makes ids: from the counter to a result, or an
    exception, and the counter. *)
Definition G (A : Type) : Type := nat -> option A * nat.

Definition gret {A} (x : A) : G A := fun n => (Some x, n).
Definition gthrow {A} : G A := fun n => (None, n).
Definition gbind {A B} (c : G A) (k : A -> G B) : G B :=
  fun n => match c n with (Some x, n') => k x n' | (None, n') => (None, n') end.
Definition gtry {A} (c : G A) (handler : G A) : G A :=
  fun n => match c n with (Some x, n') => (Some x, n') | (None, n') => handler n' end.

(** The option of a pure step that may throw. *)
Definition glift {A} (o : option A) : G A := fun n => (o, n).

Notation "'let?' x := c 'in' k" := (gbind c (fun x => k))
  (at level 10, x name, c at level 100, k at level 200) : js_scope.

(** [l.map(f)] *)
Fixpoint gmapM {A B} (f : A -> G B) (l : list A) : G (list B) :=
  match l with
  | [] => gret []
  | x :: l' => let? y := f x in let? ys := gmapM f l' in gret (y :: ys)
  end.

Section Ids.
Variable now : nat -> Z.

Definition localId (n : nat) : jsstr := js "po_" ++ showZ (now n) ++ js "_" ++ showZ (Z.of_nat n).

Definition nextLocalId : G jsstr := fun n => (Some (localId n), S n).

(** ** Loading *)

(** [v.k] *)
Definition readProp (v : json) (k : string) : option (option json) := member_of v (js k).

Definition normalizeCondition (condition : json) : G ParamOverrideCondition :=
  let? i := nextLocalId in
  glift (
    p ← readProp condition "path"; m ← readProp condition "mode"; v ← readProp condition "value";
    inv ← readProp condition "invert"; miss ← readProp condition "pass_missing_key";
    Some (mkCondition i (string_or_empty p) (known_or CONDITION_MODE_VALUES m (js "full")) (toValueText v)
            (is_true inv) (is_true miss))).

Definition createDefaultCondition : G ParamOverrideCondition := normalizeCondition (JObj []).

(** [String(operation.logic || 'OR').toUpperCase() === 'AND' ? 'AND' : 'OR'] *)
Definition normalizeLogic (v : option json) : option jsstr :=
  s ← String_of (js_or v (text "OR"));
  Some (if bool_decide (toUpperCase s = js "AND") then js "AND" else js "OR").

Definition normalizeOperation (operation : json) : G ParamOverrideOperation :=
  let? i := nextLocalId in
  let? head := glift (
    d ← readProp operation "description"; p ← readProp operation "path"; m ← readProp operation "mode";
    v ← readProp operation "value"; k ← readProp operation "keep_origin"; f ← readProp operation "from";
    u ← readProp operation "to"; l ← readProp operation "logic"; l' ← normalizeLogic l;
    Some (mkOperation i (string_or_empty d) (string_or_empty p) (known_or OPERATION_MODE_VALUES m (js "set"))
            (string_or_empty f) (string_or_empty u) (toValueText v) (is_true k) l' [])) in
  let? cs :=
    match prop operation (js "conditions") with
    | Some (JArr l) => gmapM normalizeCondition l
    | _ => gret []
    end in
  gret (mkOperation (id head) (description head) (path head) (mode head) (from head) (to head) (value_text head)
          (keep_origin head) (logic head) cs).

Definition createDefaultOperation : G ParamOverrideOperation :=
  normalizeOperation (JObj [(js "mode", text "set")]).

(** ** Lists of operations *)

Definition findIndex {A} (p : A -> bool) (l : list A) : option nat := fst <$> list_find (fun x => p x = true) l.

Inductive Position := Before | After.

(** [next.splice(i, 0, x)] *)
Definition splice_in {A} (i : nat) (x : A) (l : list A) : list A := take i l ++ x :: drop i l.

Definition hasId (i : jsstr) (o : ParamOverrideOperation) : bool := bool_decide (id o = i).

Definition reorderOperations (ops : list ParamOverrideOperation) (sourceId targetId : jsstr) (position : Position)
  : list ParamOverrideOperation :=
  if negb (truthy sourceId) || negb (truthy targetId) || bool_decide (sourceId = targetId) then ops
  else
    match list_find (fun o => hasId sourceId o = true) ops with
    | None => ops
    | Some (srcIdx, moved) =>
        let next := delete srcIdx ops in
        match findIndex (hasId targetId) next with
        | None => ops
        | Some insertIdx =>
            splice_in (match position with After => S insertIdx | Before => insertIdx end) moved next
        end
    end.

Definition isOperationBlank (operation : ParamOverrideOperation) : bool :=
  let hasCondition := existsb (fun c =>
    truthy (trim (c_path c)) || truthy (trim (c_value_text c)) || negb (bool_decide (c_mode c = js "full"))
    || c_invert c || c_pass_missing_key c) (conditions operation) in
  bool_decide (mode operation = js "set") && negb (truthy (trim (path operation)))
  && negb (truthy (trim (from operation))) && negb (truthy (trim (to operation)))
  && negb (truthy (trim (value_text operation))) && negb (keep_origin operation) && negb hasCondition.

(** [a || b || '-'] on trimmed texts, after the number and the label. *)
Definition getOperationSummary (operation : ParamOverrideOperation) (index : nat) : jsstr :=
  let m := modeOf (mode operation) in
  let modeLabel :=
    match map_get OPERATION_MODE_LABEL_MAP m with Some l => if truthy l then l else m | None => m end in
  let p := trim (path operation) in
  let f := trim (from operation) in
  let u := trim (to operation) in
  let shown := if bool_decide (m = js "sync_fields") then [f; u] else [p; f; u] in
  showZ (Z.of_nat index + 1) ++ js ". " ++ modeLabel ++ [32; 183; 32] ++
  match filter_truthy shown with s :: _ => s | [] => js "-" end.

(** ** Drafts *)

Definition parseSyncTargetSpec (spec : jsstr) : jsstr * jsstr :=
  let raw := trim spec in
  if negb (truthy raw) then (js "json", [])
  else
    match indexOf raw [58] 0 with
    | None => (js "json", raw)
    | Some idx =>
        let prefix := toLowerCase (trim (slice raw 0 idx)) in
        let key := trim (slice_from raw (S idx)) in
        if bool_decide (prefix = js "header") then (js "header", key) else (js "json", key)
    end.

Definition buildSyncTargetSpec (type key : jsstr) : jsstr :=
  let normalizedType := if bool_decide (type = js "header") then js "header" else js "json" in
  let normalizedKey := trim key in
  if negb (truthy normalizedKey) then [] else normalizedType ++ [58] ++ normalizedKey.

Record ReturnErrorDraft := mkReturnError {
  r_message : jsstr; r_statusCode : Z; r_code : jsstr; r_type : jsstr; r_skipRetry : bool; r_simpleMode : bool }.

(** [Number.isInteger(v) && v >= 100 && v <= 599 ? v : 400] *)
Definition statusOr400 (v : option Z) : Z :=
  match v with Some n => if (100 <=? n) && (n <=? 599) then n else 400 | None => 400 end.

(** [String(a || b || '').trim()] *)
Definition trimmedText (a b : option json) : option jsstr := trim <$> String_of (js_or a (js_or b (JStr []))).

Definition parseReturnErrorDraft (valueText : jsstr) : ReturnErrorDraft :=
  let raw := trim valueText in
  let plain := mkReturnError raw 400 [] [] true true in
  if negb (truthy raw) then mkReturnError [] 400 [] [] true true
  else
    match JSON_parse raw with
    | Some (JObj fields) =>
        let get k := map_get fields (js k) in
        let statusRaw := match get "status_code" with Some v => Some v | None => get "status" end in
        let draft :=
          statusValue ← match statusRaw with Some v => Number_of v | None => Some None end;
          message ← trimmedText (get "message") (get "msg");
          code ← trimmedText (get "code") None;
          type ← trimmedText (get "type") None;
          Some (mkReturnError message (statusOr400 (statusValue ≫= num_integer)) code type
                  (negb (is_false (get "skip_retry"))) false) in
        match draft with Some d => d | None => plain end
    | _ => plain
    end.

(** Setting a property of an object, when a condition holds. *)
Definition set_if (b : bool) (k : jsstr) (v : json) (o : list (jsstr * json)) : list (jsstr * json) :=
  if b then map_set o k v else o.

Definition buildReturnErrorValueText (draft : ReturnErrorDraft) : jsstr :=
  let message := trim (r_message draft) in
  if r_simpleMode draft then message
  else
    let code := trim (r_code draft) in
    let type := trim (r_type draft) in
    let payload := [(js "message", JStr message);
                    (js "status_code", JNum (mkNum (statusOr400 (Some (r_statusCode draft))) 0))] in
    let payload := set_if (truthy code) (js "code") (JStr code) payload in
    let payload := set_if (truthy type) (js "type") (JStr type) payload in
    let payload := set_if (negb (r_skipRetry draft)) (js "skip_retry") (JBool false) payload in
    JsonText.JSON_stringify (JObj payload).

(** A rule has the members of a condition. *)
#[local] Abbreviation PruneRule := ParamOverrideCondition.

Record PruneObjectsDraft := mkPruneObjects {
  d_simpleMode : bool; d_typeText : jsstr; d_logic : jsstr; d_recursive : bool; d_rules : list PruneRule }.

Definition normalizePruneRule (rule : json) : G PruneRule := normalizeCondition rule.

(** [{ path, mode: 'full', value }] *)
Definition fullRule (kv : jsstr * json) : json :=
  JObj [(js "path", JStr kv.1); (js "mode", text "full"); (js "value", kv.2)].

Definition isObjectLike (v : json) : bool := match v with JObj _ | JArr _ => true | _ => false end.

Definition pruneRules (fields : list (jsstr * json)) : G (list PruneRule) :=
  let? fromWhere :=
    match map_get fields (js "where") with
    | Some (JObj w) => gmapM normalizePruneRule (map fullRule (Object_entries w))
    | _ => gret []
    end in
  let? fromConditions :=
    match map_get fields (js "conditions") with
    | Some (JArr l) => gmapM normalizePruneRule (List.filter isObjectLike l)
    | Some (JObj c) => gmapM normalizePruneRule (map fullRule (Object_entries c))
    | _ => gret []
    end in
  gret (fromWhere ++ fromConditions).

Definition parsePruneObjectsDraft (valueText : jsstr) : G PruneObjectsDraft :=
  let raw := trim valueText in
  let simple s := mkPruneObjects true s (js "AND") true [] in
  if negb (truthy raw) then gret (simple [])
  else
    match JSON_parse raw with
    | None => gret (simple raw)
    | Some (JStr s) => gret (simple (trim s))
    | Some (JObj fields) =>
        let has k := match map_get fields (js k) with Some _ => true | None => false end in
        gtry (
          let? rules := pruneRules fields in
          let? typeText := glift (match map_get fields (js "type") with
                                  | None => Some []
                                  | Some v => trim <$> String_of v
                                  end) in
          let? l := glift (String_of (js_or (map_get fields (js "logic")) (text "AND"))) in
          gret (mkPruneObjects
                  (negb (has "logic" || has "recursive" || has "where" || has "conditions"))
                  typeText (if bool_decide (toUpperCase l = js "OR") then js "OR" else js "AND")
                  (negb (is_false (map_get fields (js "recursive")))) rules))
          (gret (simple raw))
    | Some JNull => gret (simple [])
    | Some v =>
        gret (match String_of v with Some s => simple (trim s) | None => simple raw end)
    end.

Definition pruneCondition (rule : PruneRule) : json :=
  let valueRaw := trim (c_value_text rule) in
  let payload := [(js "path", JStr (trim (c_path rule)));
                  (js "mode", JStr (if bool_decide (c_mode rule ∈ CONDITION_MODE_VALUES) then c_mode rule
                                    else js "full"))] in
  let payload := set_if (truthy valueRaw) (js "value") (parseLooseValue valueRaw) payload in
  let payload := set_if (c_invert rule) (js "invert") (JBool true) payload in
  JObj (set_if (c_pass_missing_key rule) (js "pass_missing_key") (JBool true) payload).

Definition buildPruneObjectsValueText (draft : PruneObjectsDraft) : jsstr :=
  let typeText := trim (d_typeText draft) in
  if d_simpleMode draft then typeText
  else
    let payload := set_if (truthy typeText) (js "type") (JStr typeText) [] in
    let isOr := bool_decide (toUpperCase (if truthy (d_logic draft) then d_logic draft else js "AND") = js "OR") in
    let payload := set_if isOr (js "logic") (text "OR") payload in
    let payload := set_if (negb (d_recursive draft)) (js "recursive") (JBool false) payload in
    let conditions := map pruneCondition (List.filter (fun r => truthy (trim (c_path r))) (d_rules draft)) in
    let hasConditions := match conditions with [] => false | _ => true end in
    let payload := set_if hasConditions (js "conditions") (JArr conditions) payload in
    if negb (truthy typeText) && negb hasConditions
    then JsonText.JSON_stringify (JObj [(js "logic", text "AND")])
    else JsonText.JSON_stringify (JObj payload).

(** [l.map((i) => String(i ?? '').trim()).filter(Boolean)] *)
Definition headerNames (l : list json) : option (list jsstr) :=
  filter_truthy <$> mapM (fun i => trim <$> match i with JNull => Some [] | _ => String_of i end) l.

Definition parsePassHeaderNames (rawValue : json) : option (list jsstr) :=
  match rawValue with
  | JArr l => headerNames l
  | JObj fields =>
      match map_get fields (js "headers") with
      | Some (JArr l) => headerNames l
      | _ =>
          match map_get fields (js "header") with
          | Some h => headerNames [h]
          | None => Some []
          end
      end
  | JStr s => Some (filter_truthy (map trim (split 44 s)))
  | _ => Some []
  end.

(** ** Validation *)

Section Messages.
Variable t : jsstr -> option Z -> jsstr.

(** The body of the loop for one operation: the empty text is no error, [None]
    an exception. *)
Definition checkOperation (op : ParamOverrideOperation) (line : Z) : option jsstr :=
  let m := modeOf (mode op) in
  let meta := metaOf m in
  let pathValue := trim (path op) in
  let fromValue := trim (from op) in
  let toValue := trim (to op) in
  let raw := trim (value_text op) in
  let error k := Some (t (js k) (Some line)) in
  if m_path meta && negb (truthy pathValue) then error "Rule {{line}} is missing target path"
  else if bool_decide (m ∈ FROM_REQUIRED_MODES) && negb (truthy fromValue)
          && negb (m_pathAlias meta && truthy pathValue)
  then error "Rule {{line}} is missing source field"
  else if bool_decide (m ∈ TO_REQUIRED_MODES) && negb (truthy toValue)
          && negb (m_pathAlias meta && truthy pathValue)
  then error "Rule {{line}} is missing target field"
  else if bool_decide (m ∈ VALUE_REQUIRED_MODES) && negb (truthy raw)
  then error "Rule {{line}} is missing value"
  else if bool_decide (m = js "return_error") then
    if negb (truthy raw) then error "Rule {{line}} is missing value"
    else match JSON_parse raw with
    | Some (JObj fields) =>
        match trimmedText (map_get fields (js "message")) None with
        | Some [] => error "Rule {{line}} return_error requires a message field"
        | _ => Some []
        end
    | _ => Some []
    end
  else if bool_decide (m = js "prune_objects") then
    if negb (truthy raw) then error "Rule {{line}} prune_objects is missing conditions" else Some []
  else if bool_decide (m = js "pass_headers") then
    if negb (truthy raw) then error "Rule {{line}} pass_headers is missing header names"
    else match parsePassHeaderNames (parseLooseValue raw) with
    | Some [] => error "Rule {{line}} pass_headers format is invalid"
    | Some _ => Some []
    | None => None
    end
  else Some [].

Fixpoint validateFrom (i : Z) (operations : list ParamOverrideOperation) : option jsstr :=
  match operations with
  | [] => Some []
  | op :: rest =>
      match checkOperation op (i + 1) with
      | Some [] => validateFrom (i + 1) rest
      | r => r
      end
  end.

Definition validateOperations (operations : list ParamOverrideOperation) : option jsstr := validateFrom 0 operations.

(** ** The saved text *)

Definition buildConditionPayload (condition : ParamOverrideCondition) : option json :=
  let p := trim (c_path condition) in
  if negb (truthy p) then None
  else
    let payload := [(js "path", JStr p);
                    (js "mode", JStr (if truthy (c_mode condition) then c_mode condition else js "full"));
                    (js "value", parseLooseValue (c_value_text condition))] in
    let payload := set_if (c_invert condition) (js "invert") (JBool true) payload in
    Some (JObj (set_if (c_pass_missing_key condition) (js "pass_missing_key") (JBool true) payload)).

(** [Boolean(o[k])] *)
Definition holds (o : list (jsstr * json)) (k : jsstr) : bool :=
  match map_get o k with Some v => json_truthy v | None => false end.

Definition isSome {A} (o : option A) : bool := match o with Some _ => true | None => false end.

Definition operationPayload (operation : ParamOverrideOperation) : list (jsstr * json) :=
  let m := modeOf (mode operation) in
  let meta := metaOf m in
  let descriptionValue := trim (description operation) in
  let pathValue := trim (path operation) in
  let fromValue := trim (from operation) in
  let toValue := trim (to operation) in
  let metaTo := match m_to meta with Some b => b | None => false end in
  let payload := [(js "mode", JStr m)] in
  let payload := set_if (truthy descriptionValue) (js "description") (JStr descriptionValue) payload in
  let payload := set_if (m_path meta) (js "path") (JStr pathValue) payload in
  let payload := set_if (m_pathOptional meta && truthy pathValue) (js "path") (JStr pathValue) payload in
  let payload := set_if (m_value meta) (js "value") (parseLooseValue (value_text operation)) payload in
  let payload := set_if (m_keepOrigin meta && keep_origin operation) (js "keep_origin") (JBool true) payload in
  let payload := set_if (m_from meta) (js "from") (JStr fromValue) payload in
  let payload := set_if (negb metaTo && truthy toValue) (js "to") (JStr toValue) payload in
  let payload := set_if metaTo (js "to") (JStr toValue) payload in
  let payload := set_if (m_pathAlias meta && negb (holds payload (js "from")) && truthy pathValue)
                   (js "from") (JStr pathValue) payload in
  let payload := set_if (m_pathAlias meta && negb (holds payload (js "to")) && truthy pathValue)
                   (js "to") (JStr pathValue) payload in
  let cs := omap buildConditionPayload (conditions operation) in
  let hasConditions := match cs with [] => false | _ => true end in
  let payload := set_if hasConditions (js "conditions") (JArr cs) payload in
  set_if hasConditions (js "logic")
    (JStr (if bool_decide (logic operation = js "AND") then js "AND" else js "OR")) payload.

(** The text or the message of the error. *)
Inductive Built := Text (s : jsstr) | Failed (message : jsstr).

(** The message of the TypeError. *)
Variable typeError : jsstr.

Definition buildOperationsJson (sourceOperations : list ParamOverrideOperation) (validate : bool) : Built :=
  let filteredOps := List.filter (fun o => negb (isOperationBlank o)) sourceOperations in
  let built := Text (JsonText.JSON_pretty
                 (JObj [(js "operations", JArr (map (fun o => JObj (operationPayload o)) filteredOps))])) in
  match filteredOps with
  | [] => Text []
  | _ =>
      if validate then
        match validateOperations filteredOps with
        | None => Failed typeError
        | Some message => if truthy message then Failed message else built
        end
      else built
  end.

End Messages.

(** ** Opening *)

Inductive EditMode := VisualEdit | JsonEdit.
Inductive VisualMode := OperationsMode | LegacyMode.

Record EditorInit := mkInit {
  i_editMode : EditMode; i_visualMode : VisualMode; i_legacyValue : jsstr;
  i_operations : list ParamOverrideOperation; i_jsonText : jsstr; i_jsonError : jsstr }.

(** [ops.length > 0 ? ops.map(normalizeOperation) : [createDefaultOperation()]] *)
Definition loadOperations (ops : list json) : G (list ParamOverrideOperation) :=
  match ops with
  | [] => let? o := createDefaultOperation in gret [o]
  | _ => gmapM normalizeOperation ops
  end.

Definition parseInitialState (rawValue : jsstr) : G EditorInit :=
  let trimmed := trim rawValue in
  if negb (truthy trimmed) then
    let? o := createDefaultOperation in gret (mkInit VisualEdit OperationsMode [] [o] [] [])
  else
    match JSON_parse trimmed with
    | None =>
        let? o := createDefaultOperation in
        gret (mkInit JsonEdit OperationsMode [] [o] rawValue (js "Invalid JSON format"))
    | Some parsed =>
        let pretty := JsonText.JSON_pretty parsed in
        match parsed with
        | JObj fields =>
            match map_get fields (js "operations") with
            | Some (JArr ops) =>
                let? os := loadOperations ops in gret (mkInit VisualEdit OperationsMode [] os pretty [])
            | _ => let? o := createDefaultOperation in gret (mkInit VisualEdit LegacyMode pretty [o] pretty [])
            end
        | _ => let? o := createDefaultOperation in gret (mkInit JsonEdit OperationsMode [] [o] pretty [])
        end
    end.

End Ids.

(** ** Samples *)

Example loose_samples :
  parseLooseValue (js " 0.7 ") = JNum (mkNum 7 (-1)) /\ parseLooseValue (js "gpt-4") = JStr (js "gpt-4")
  /\ parseSyncTargetSpec (js " Header : session_id ") = (js "header", js "session_id").
Proof. vm_compute. repeat split. Qed.

Example template_sample :
  let '(r, n) := parseInitialState (fun _ => 1700) (JsonText.JSON_stringify OPERATION_TEMPLATE) 0%nat in
  n = 2%nat /\ (map id ∘ i_operations) <$> r = Some [js "po_1700_0"]
  /\ (fun st => buildOperationsJson (fun k _ => k) [] (i_operations st) true) <$> r
     = Some (Text (JsonText.JSON_pretty (JObj [(js "operations", JArr [JObj
         [ (js "mode", JStr (js "set")); (js "description", JStr (js "Set default temperature for openai/* models."));
           (js "path", JStr (js "temperature")); (js "value", JNum (mkNum 7 (-1)));
           (js "conditions", JArr [JObj [(js "path", JStr (js "model")); (js "mode", JStr (js "prefix"));
                                         (js "value", JStr (js "openai/"))]]);
           (js "logic", JStr (js "AND")) ]])]))).
Proof. vm_compute. repeat split. Qed.

End ParamOverride.
