(* ===== verification/ParamOverrideFacts.v ===== *)
(** * Channels: parameter overrides, saving and loading

    What an operation looks like when its saved text is opened again
    ([savedOperation]), and that it is written, validated and shown the same way
    then. *)

From S2P Require Import Prelude JsString JsCollections Json JsonNumber JsonText JsonLocal JsValue JsonCanon ParamOverride.
Import Json JsonText JsonLocal JsValue JsonCanon ParamOverride.

Module ParamOverrideFacts.

(** ** Objects that are filled property by property *)

Ltac key_ne := let H := fresh in intros H; vm_compute in H; discriminate H.

Lemma get_set_if_eq b k v o : map_get (set_if b k v o) k = if b then Some v else map_get o k.
Proof. unfold set_if. destruct b; [apply map_get_set_eq|done]. Qed.

Lemma get_set_if_ne b k k' v o : k <> k' -> map_get (set_if b k v o) k' = map_get o k'.
Proof. intros H. unfold set_if. destruct b; [by apply map_get_set_ne|done]. Qed.

Lemma get_head {V} (k : jsstr) (v : V) o : map_get ((k, v) :: o) k = Some v.
Proof. cbn. by rewrite decide_True. Qed.

Lemma get_tail {V} (k k' : jsstr) (v : V) o : k <> k' -> map_get ((k, v) :: o) k' = map_get o k'.
Proof. intros. cbn. by rewrite decide_False. Qed.

(** Read a property with a literal name. *)
Ltac obj_get :=
  repeat first
    [ rewrite get_set_if_ne by key_ne | rewrite get_set_if_eq
    | rewrite get_tail by key_ne | rewrite get_head ].

Lemma set_if_nodup b k v o : NoDup (map_keys o) -> NoDup (map_keys (set_if b k v o)).
Proof. intros. unfold set_if. destruct b; [by apply map_keys_set_nodup|done]. Qed.

Lemma set_if_merge b c k v o : set_if b k v (set_if c k v o) = set_if (c || b) k v o.
Proof. unfold set_if. destruct c, b; try done. apply map_set_set. Qed.

(** A property that is set again keeps its place. *)
Lemma map_set_again {V} (o : list (jsstr * V)) k k2 a b c :
  k <> k2 -> map_set (map_set (map_set o k a) k2 b) k c = map_set (map_set o k c) k2 b.
Proof.
  intros Hne. induction o as [|[k' v'] o IH]; cbn [map_set].
  - repeat (case_decide; cbn [map_set]; try done).
  - destruct (decide (k' = k)) as [->|H1]; cbn [map_set].
    + rewrite !(decide_False (P := k = k2)) by done. cbn [map_set]. by rewrite decide_True.
    + destruct (decide (k' = k2)) as [->|H2]; cbn [map_set]; rewrite decide_False by done; f_equal;
        [apply map_set_set|apply IH].
Qed.

Lemma canon_set_if b k v o :
  map (prod_map Datatypes.id canon) (set_if b k v o)
  = set_if b k (canon v) (map (prod_map Datatypes.id canon) o).
Proof. unfold set_if. destruct b; [apply map_map_set|done]. Qed.

(** Objects with the same properties have the same text. *)
Definition same_fields (o o' : list (jsstr * json)) : Prop :=
  map (prod_map Datatypes.id canon) o = map (prod_map Datatypes.id canon) o'.

Lemma same_fields_canon o o' : same_fields o o' -> canon (JObj o) = canon (JObj o').
Proof. intros E. cbn [canon]. by rewrite E. Qed.

Lemma same_fields_set b b' k v v' o o' :
  b = b' -> (b = true -> canon v = canon v') -> same_fields o o' -> same_fields (set_if b k v o) (set_if b' k v' o').
Proof.
  intros <- Hv Ho. unfold same_fields in *. rewrite !canon_set_if, Ho. unfold set_if. destruct b; [|done].
  by rewrite Hv.
Qed.

(** ** Values *)

(** The text of a value after it was saved and opened. *)
Definition reopenedText (s : jsstr) : jsstr := toValueText (Some (canon (parseLooseValue s))).

(** The text is no string literal of JSON. *)
Definition unquoted (s : jsstr) : Prop := match JSON_parse (trim s) with Some (JStr _) => False | _ => True end.

#[export] Instance unquoted_dec s : Decision (unquoted s).
Proof. unfold unquoted. destruct (JSON_parse (trim s)) as [[]|]; apply _. Defined.

Lemma parse_loose_printable s : wf_str s -> printable (parseLooseValue s).
Proof.
  intros Hs%trim_wf. unfold parseLooseValue. destruct (truthy (trim s)) eqn:E; cbn [negb].
  - destruct (JSON_parse (trim s)) eqn:Ep; [by eapply parse_printable|by constructor].
  - repeat constructor.
Qed.

(** A value that is opened again parses as it did. *)
Lemma reopened_parse s :
  wf_str s -> unquoted s -> JSON_parse (trim (reopenedText s)) = canon <$> JSON_parse (trim s).
Proof.
  intros Hs Hu. unfold reopenedText, parseLooseValue. unfold unquoted in Hu.
  destruct (truthy (trim s)) eqn:Et; cbn [negb]; [|by destruct (trim s)].
  destruct (JSON_parse (trim s)) as [v|] eqn:Ep.
  - assert (printable v) as Hv by (eapply parse_printable; [by apply trim_wf|done]).
    assert (toValueText (Some (canon v)) = JSON_stringify v) as ->.
    { rewrite <- stringify_canon. by destruct v. }
    apply parse_trim. by apply stringify_reads.
  - cbn [canon toValueText]. by rewrite trim_idemp, Ep.
Qed.

Lemma reopened_empty s : wf_str s -> unquoted s -> truthy (trim (reopenedText s)) = truthy (trim s).
Proof.
  intros Hs Hu. pose proof (reopened_parse s Hs Hu) as H.
  destruct (JSON_parse (trim s)) as [v|] eqn:Ep; cbn [fmap option_fmap option_map] in H.
  - by rewrite (parse_truthy _ _ H), (parse_truthy _ _ Ep).
  - unfold reopenedText, parseLooseValue. rewrite Ep. destruct (truthy (trim s)) eqn:Et; [|done].
    cbn [negb canon toValueText]. by rewrite trim_idemp.
Qed.

Lemma reopened_value s : wf_str s -> unquoted s -> parseLooseValue (reopenedText s) = canon (parseLooseValue s).
Proof.
  intros Hs Hu. unfold parseLooseValue at 1 2. rewrite reopened_empty, reopened_parse by done.
  destruct (truthy (trim s)) eqn:Et; [|done]. cbn [negb].
  destruct (JSON_parse (trim s)) as [v|] eqn:Ep; [done|]. cbn [fmap option_fmap option_map canon].
  unfold reopenedText, parseLooseValue. rewrite Et, Ep. cbn [negb canon toValueText]. by rewrite trim_idemp.
Qed.

Lemma loose_trim s : parseLooseValue (trim s) = parseLooseValue s.
Proof. unfold parseLooseValue. by rewrite trim_idemp. Qed.

(** ** The payload of an operation *)

(** [s], or the path when the mode takes it instead. *)
Definition orPath (op : ParamOverrideOperation) (s : jsstr) : jsstr :=
  if m_pathAlias (metaOf (modeOf (mode op))) && negb (truthy s) then trim (path op) else s.

Definition pathUsed (op : ParamOverrideOperation) : bool :=
  let meta := metaOf (modeOf (mode op)) in m_path meta || m_pathOptional meta && truthy (trim (path op)).

Definition metaTo (meta : Meta) : bool := match m_to meta with Some b => b | None => false end.

Definition conditionPayloads (op : ParamOverrideOperation) : list json := omap buildConditionPayload (conditions op).

Definition nonempty {A} (l : list A) : bool := match l with [] => false | _ => true end.

(** A property of every entry of the table. *)
Lemma meta_table (P : Meta -> Prop) `{!forall x, Decision (P x)} m :
  bool_decide (Forall (fun e => P e.2) MODE_META) && bool_decide (P META_SET) = true -> P (metaOf m).
Proof.
  intros [H1%bool_decide_eq_true_1 H2%bool_decide_eq_true_1]%andb_true_iff. unfold metaOf.
  destruct (map_get MODE_META m) as [meta|] eqn:E; [|done]. apply map_get_Some_elem in E.
  rewrite Forall_forall in H1. apply (H1 _ E).
Qed.

(** A mode that takes the path for a missing end has both ends and no path. *)
Lemma alias_table m : m_pathAlias (metaOf m) = true ->
  m_from (metaOf m) = true /\ metaTo (metaOf m) = true /\ m_path (metaOf m) || m_pathOptional (metaOf m) = false.
Proof.
  intros H. pose proof (meta_table (fun meta => m_pathAlias meta = false \/
    m_from meta = true /\ metaTo meta = true /\ m_path meta || m_pathOptional meta = false) m) as Ht.
  destruct Ht as [E|E]; [vm_compute; reflexivity|congruence|done].
Qed.

Lemma alias_meta m : m_pathAlias (metaOf m) = true -> m_from (metaOf m) = true /\ metaTo (metaOf m) = true.
Proof. intros H%alias_table. tauto. Qed.

Lemma alias_no_path m : m_pathAlias (metaOf m) = true -> m_path (metaOf m) || m_pathOptional (metaOf m) = false.
Proof. intros H%alias_table. tauto. Qed.

(** The properties of the payload, each written once. *)
Lemma operationPayload_eq op :
  let meta := metaOf (modeOf (mode op)) in
  operationPayload op =
  set_if (nonempty (conditionPayloads op)) (js "logic")
    (JStr (if bool_decide (logic op = js "AND") then js "AND" else js "OR"))
  (set_if (nonempty (conditionPayloads op)) (js "conditions") (JArr (conditionPayloads op))
  (set_if (metaTo meta || truthy (trim (to op))) (js "to") (JStr (orPath op (trim (to op))))
  (set_if (m_from meta) (js "from") (JStr (orPath op (trim (from op))))
  (set_if (m_keepOrigin meta && keep_origin op) (js "keep_origin") (JBool true)
  (set_if (m_value meta) (js "value") (parseLooseValue (value_text op))
  (set_if (pathUsed op) (js "path") (JStr (trim (path op)))
  (set_if (truthy (trim (description op))) (js "description") (JStr (trim (description op)))
    [(js "mode", JStr (modeOf (mode op)))]))))))).
Proof.
  cbv zeta. unfold operationPayload. cbv zeta. fold (metaTo (metaOf (modeOf (mode op)))).
  fold (conditionPayloads op). fold (nonempty (conditionPayloads op)).
  do 2 f_equal. rewrite !set_if_merge. unfold orPath, pathUsed.
  set (meta := metaOf (modeOf (mode op))). set (base := set_if (m_keepOrigin meta && _) _ _ _).
  
  destruct (m_pathAlias meta) eqn:Ea; cbn [andb].
  - destruct (alias_meta _ Ea) as [Hf Ht]. fold meta in Hf, Ht. rewrite Hf, Ht. cbn [negb andb orb].
    cbn [set_if]. set (f := trim (from op)). set (u := trim (to op)). set (p := trim (path op)).
    assert (forall o, holds (map_set o (js "to") (JStr u)) (js "to") = truthy u) as Hu
      by (intros; unfold holds; by rewrite map_get_set_eq).
    assert (forall o, holds (map_set (map_set o (js "from") (JStr f)) (js "to") (JStr u)) (js "from") = truthy f) as Hh.
    { intros o. unfold holds. rewrite map_get_set_ne by key_ne. by rewrite map_get_set_eq. }
    rewrite !Hh. destruct (truthy f) eqn:Ef; cbn [negb andb set_if].
    + rewrite Hu. destruct (truthy u) eqn:Eu; cbn [negb andb set_if]; [done|].
      destruct (truthy p) eqn:Ep; cbn [set_if]; [by rewrite map_set_set|].
      by destruct p, u.
    + destruct (truthy p) eqn:Ep; cbn [set_if].
      * rewrite map_set_again by key_ne. rewrite Hu. destruct (truthy u); cbn [negb andb set_if]; [done|].
        by rewrite map_set_set.
      * rewrite Hu. destruct p; [|done]. destruct f; [|done]. by destruct u.
  - cbn [set_if]. f_equal. destruct (metaTo meta), (truthy (trim (to op))); done.
Qed.

Ltac closed_nodup := apply (bool_decide_unpack _); vm_compute; reflexivity.

Lemma payload_nodup op : NoDup (operationPayload op).*1.
Proof. rewrite operationPayload_eq. cbv zeta. repeat apply set_if_nodup. closed_nodup. Qed.

(** ** Saved and opened again *)

Record condition_ok (c : ParamOverrideCondition) : Prop := {
  cok_mode : c_mode c ∈ CONDITION_MODE_VALUES;
  cok_path : wf_str (c_path c);
  cok_value : wf_str (c_value_text c) }.

(** The modes and logics the editor offers, and texts of UTF-16 units. *)
Record operation_ok (op : ParamOverrideOperation) : Prop := {
  ok_mode : mode op ∈ OPERATION_MODE_VALUES;
  ok_logic : logic op ∈ [js "OR"; js "AND"];
  ok_description : wf_str (description op);
  ok_path : wf_str (path op);
  ok_from : wf_str (from op);
  ok_to : wf_str (to op);
  ok_value : wf_str (value_text op);
  ok_conditions : Forall condition_ok (conditions op) }.

Definition eraseCondition (c : ParamOverrideCondition) : ParamOverrideCondition :=
  mkCondition [] (c_path c) (c_mode c) (c_value_text c) (c_invert c) (c_pass_missing_key c).

(** An operation without its ids. *)
Definition eraseIds (op : ParamOverrideOperation) : ParamOverrideOperation :=
  mkOperation [] (description op) (path op) (mode op) (from op) (to op) (value_text op) (keep_origin op) (logic op)
    (map eraseCondition (conditions op)).

Definition savedCondition (c : ParamOverrideCondition) : option ParamOverrideCondition :=
  if truthy (trim (c_path c)) then
    Some (mkCondition [] (trim (c_path c)) (c_mode c) (reopenedText (c_value_text c)) (c_invert c)
            (c_pass_missing_key c))
  else None.

(** What is left of an operation: the fields its mode uses, trimmed, and the
    conditions that have a path. *)
Definition savedOperation (op : ParamOverrideOperation) : ParamOverrideOperation :=
  let meta := metaOf (mode op) in
  let cs := omap savedCondition (conditions op) in
  mkOperation [] (trim (description op))
    (if m_path meta || m_pathOptional meta then trim (path op) else [])
    (mode op)
    (if m_from meta then orPath op (trim (from op)) else [])
    (orPath op (trim (to op)))
    (if m_value meta then reopenedText (value_text op) else [])
    (m_keepOrigin meta && keep_origin op)
    (if nonempty cs then logic op else js "OR")
    cs.

Lemma mode_not_empty (l : list jsstr) m : [] ∉ l -> m ∈ l -> truthy m = true.
Proof. intros Hl Hm. destruct m; [done|done]. Qed.

Lemma modeOf_ok op : operation_ok op -> modeOf (mode op) = mode op.
Proof.
  intros H. unfold modeOf. rewrite (mode_not_empty OPERATION_MODE_VALUES); [done| |apply ok_mode, H].
  apply (bool_decide_unpack _). vm_compute. reflexivity.
Qed.

Lemma condition_mode_ok c : condition_ok c -> truthy (c_mode c) = true.
Proof.
  intros H. apply (mode_not_empty CONDITION_MODE_VALUES); [|apply H].
  apply (bool_decide_unpack _). vm_compute. reflexivity.
Qed.

Lemma read_canon fs k : NoDup fs.*1 -> readProp (canon (JObj fs)) k = Some (canon <$> map_get fs (js k)).
Proof. intros Hn. unfold readProp. cbn [canon member_of prop]. by rewrite canon_get. Qed.

Lemma known_or_ok l m d : m ∈ l -> known_or l (Some (JStr m)) d = m.
Proof. intros H. cbn. by rewrite bool_decide_true. Qed.

Section Reopen.
Variable now : nat -> Z.

Lemma condition_reopens c p n :
  condition_ok c -> buildConditionPayload c = Some p ->
  exists c', normalizeCondition now (canon p) n = (Some c', S n) /\ savedCondition c = Some (eraseCondition c').
Proof.
  intros Hok H. unfold buildConditionPayload in H. unfold savedCondition.
  destruct (truthy (trim (c_path c))) eqn:Ep; [|done]. cbn [negb] in H. injection H as <-.
  rewrite condition_mode_ok by done. eexists. split; [|].
  { unfold normalizeCondition, gbind, nextLocalId, glift. rewrite !read_canon by (repeat apply set_if_nodup; closed_nodup).
    obj_get. cbn [mbind option_bind]. reflexivity. }
  unfold eraseCondition. cbn [c_id c_path c_mode c_value_text c_invert c_pass_missing_key].
  cbn [fmap option_fmap option_map canon string_or_empty]. rewrite known_or_ok by apply Hok.
  by destruct (c_invert c), (c_pass_missing_key c).
Qed.

Lemma conditions_reopen cs n :
  Forall condition_ok cs ->
  exists cs' n', gmapM (normalizeCondition now) (map canon (omap buildConditionPayload cs)) n = (Some cs', n') /\
    omap savedCondition cs = map eraseCondition cs'.
Proof.
  intros H. revert n. induction H as [|c cs Hc _ IH]; intros n; [by exists [], n|].
  cbn [omap list_omap]. destruct (buildConditionPayload c) as [p|] eqn:Ep.
  - destruct (condition_reopens c p n Hc Ep) as (c' & En & ->). destruct (IH (S n)) as (cs' & n' & Em & ->).
    exists (c' :: cs'), n'. split; [|done]. cbn [map gmapM]. unfold gbind, gret. by rewrite En, Em.
  - destruct (IH n) as (cs' & n' & Em & Es). exists cs', n'. split; [done|]. rewrite Es.
    unfold buildConditionPayload in Ep. unfold savedCondition. by destruct (truthy (trim (c_path c))).
Qed.

Lemma saved_nonempty cs : nonempty (omap savedCondition cs) = nonempty (omap buildConditionPayload cs).
Proof.
  induction cs as [|c cs IH]; [done|]. cbn [omap list_omap]. unfold savedCondition, buildConditionPayload.
  by destruct (truthy (trim (c_path c))).
Qed.

Lemma logic_reopens l : l ∈ [js "OR"; js "AND"] -> normalizeLogic (Some (JStr l)) = Some l.
Proof.
  rewrite !elem_of_cons, elem_of_nil. intros [-> | [-> | []]]; vm_compute; reflexivity.
Qed.

Lemma saved_logic op : operation_ok op -> (if bool_decide (logic op = js "AND") then js "AND" else js "OR") = logic op.
Proof.
  intros H. pose proof (ok_logic op H) as Hl. rewrite !elem_of_cons, elem_of_nil in Hl.
  destruct Hl as [-> | [-> | []]]; vm_compute; reflexivity.
Qed.

(** The payload of an operation is opened as what was saved of it. *)
Lemma operation_reopens op n :
  operation_ok op ->
  exists op' n', normalizeOperation now (canon (JObj (operationPayload op))) n = (Some op', n') /\
    eraseIds op' = savedOperation op.
Proof.
  intros Hok. destruct (conditions_reopen (conditions op) (S n) (ok_conditions op Hok)) as (cs' & n' & Em & Es).
  unfold normalizeOperation, gbind at 1, nextLocalId. unfold gbind, glift, gret.
  rewrite !read_canon by apply payload_nodup.
  change (prop (canon (JObj (operationPayload op))) (js "conditions"))
    with (map_get (Object_entries (map (prod_map Datatypes.id canon) (operationPayload op))) (js "conditions")).
  rewrite canon_get by apply payload_nodup.
  rewrite operationPayload_eq, modeOf_ok by done. cbv zeta. obj_get. cbn [mbind option_bind map_get].
  unfold conditionPayloads. pose proof (saved_nonempty (conditions op)) as Hn.
  assert (normalizeLogic (canon <$> (if nonempty (omap buildConditionPayload (conditions op))
    then Some (JStr (if bool_decide (logic op = js "AND") then js "AND" else js "OR")) else None))
    = Some (if nonempty (omap savedCondition (conditions op)) then logic op else js "OR")) as ->.
  { rewrite Hn, saved_logic by done. clear Hn. destruct (nonempty _); [apply logic_reopens, Hok|vm_compute; reflexivity]. }
  assert (match canon <$> (if nonempty (omap buildConditionPayload (conditions op))
            then Some (JArr (omap buildConditionPayload (conditions op))) else None) with
    | Some (JArr l) => gmapM (normalizeCondition now) l | _ => gret [] end (S n) = (Some cs', n')) as Hcs.
  { destruct (omap buildConditionPayload (conditions op)) eqn:E; [|exact Em]. exact Em. }
  unfold gret in Hcs. eexists _, n'. split; [rewrite Hcs; reflexivity|].
  unfold eraseIds, savedOperation. cbn [id description path mode from to value_text keep_origin logic conditions].
  rewrite Es. cbn [fmap option_fmap option_map]. f_equal.
  - destruct (trim (description op)) eqn:E; done.
  - unfold pathUsed. rewrite modeOf_ok by done.
    destruct (m_path (metaOf (mode op))), (m_pathOptional (metaOf (mode op))), (trim (path op)) eqn:E; done.
  - apply known_or_ok, Hok.
  - by destruct (m_from _).
  - destruct (metaTo (metaOf (mode op))) eqn:Et; [done|]. unfold orPath. rewrite modeOf_ok by done.
    destruct (m_pathAlias (metaOf (mode op))) eqn:Ea; [apply alias_meta in Ea as [_ ?]; congruence|].
    by destruct (trim (to op)).
  - by destruct (m_value _).
  - by destruct (m_keepOrigin _ && keep_origin op).
Qed.

Lemma operations_reopen ops n :
  Forall operation_ok ops ->
  exists ops' n',
    gmapM (normalizeOperation now) (map (fun o => canon (JObj (operationPayload o))) ops) n = (Some ops', n') /\
    map eraseIds ops' = map savedOperation ops.
Proof.
  intros H. revert n. induction H as [|o ops Ho _ IH]; intros n; [by exists [], n|].
  destruct (operation_reopens o n Ho) as (o' & n1 & Eo & Hs). destruct (IH n1) as (ops' & n' & Em & Hss).
  exists (o' :: ops'), n'. split; [|cbn [map]; by rewrite Hs, Hss]. cbn [map gmapM]. unfold gbind, gret. by rewrite Eo, Em.
Qed.
End Reopen.

(** ** Ids do not matter *)

Lemma erase_payloads cs : omap buildConditionPayload (map eraseCondition cs) = omap buildConditionPayload cs.
Proof. induction cs as [|c cs IH]; [done|]. cbn [map omap list_omap]. by rewrite IH. Qed.

Lemma erase_payload op : operationPayload (eraseIds op) = operationPayload op.
Proof. unfold operationPayload. cbn [eraseIds mode description path from to value_text keep_origin logic conditions]. by rewrite erase_payloads. Qed.

Lemma erase_blank op : isOperationBlank (eraseIds op) = isOperationBlank op.
Proof.
  unfold isOperationBlank. cbn [eraseIds mode path from to value_text keep_origin conditions]. do 2 f_equal.
  induction (conditions op) as [|c cs IH]; [done|]. cbn [map existsb]. by rewrite IH.
Qed.

Lemma erase_check t op line : checkOperation t (eraseIds op) line = checkOperation t op line.
Proof. done. Qed.

(** ** What was saved is saved again *)

(** No text of a value is a string literal of JSON. *)
Definition unquoted_values (op : ParamOverrideOperation) : Prop :=
  unquoted (value_text op) /\ Forall (fun c => unquoted (c_value_text c)) (conditions op).

#[export] Instance unquoted_values_dec op : Decision (unquoted_values op).
Proof. unfold unquoted_values. apply _. Defined.

Section Again.
Variable op : ParamOverrideOperation.
Hypothesis op_ok : operation_ok op.
Hypothesis op_unquoted : unquoted_values op.

Lemma saved_mode : modeOf (mode (savedOperation op)) = mode op.
Proof. apply (modeOf_ok op op_ok). Qed.

Lemma saved_path_alias s : m_pathAlias (metaOf (mode op)) = true -> orPath (savedOperation op) (orPath op s) = orPath op s.
Proof.
  intros Ha. unfold orPath at 1. rewrite saved_mode, Ha. cbn [andb savedOperation path]. rewrite alias_no_path by done.
  destruct (orPath op s) as [|c u]; done.
Qed.

Lemma saved_orPath s : orPath (savedOperation op) (orPath op (trim s)) = orPath op (trim s).
Proof.
  destruct (m_pathAlias (metaOf (mode op))) eqn:Ha; [by apply saved_path_alias|].
  unfold orPath. rewrite saved_mode, (modeOf_ok op op_ok), Ha. done.
Qed.

Lemma orPath_trim s : trim (orPath op (trim s)) = orPath op (trim s).
Proof. unfold orPath. case_match; apply trim_idemp. Qed.

Lemma saved_conditions :
  map canon (conditionPayloads (savedOperation op)) = map canon (conditionPayloads op).
Proof.
  unfold conditionPayloads. cbn [savedOperation conditions]. destruct op_unquoted as [_ Hu].
  pose proof (ok_conditions op op_ok) as Hok. revert Hu. induction Hok as [|c cs Hc _ IH]; intros Hu; [done|].
  apply Forall_cons in Hu as [Hc' Hu]. specialize (IH Hu). cbn [omap list_omap].
  unfold savedCondition at 1, buildConditionPayload at 2. destruct (truthy (trim (c_path c))) eqn:E; cbn [negb]; [|done].
  cbn [omap list_omap]. unfold buildConditionPayload at 1.
  cbn [c_path c_mode c_value_text c_invert c_pass_missing_key]. rewrite trim_idemp, E. cbn [negb map]. f_equal; [|done].
  apply same_fields_canon. rewrite reopened_value by (apply Hc || done).
  do 2 (apply same_fields_set; [done|done|]). unfold same_fields. cbn [map prod_map fst snd]. by rewrite canon_idemp.
Qed.

Lemma saved_nonempty_payloads : nonempty (conditionPayloads (savedOperation op)) = nonempty (conditionPayloads op).
Proof.
  pose proof saved_conditions as H. destruct (conditionPayloads (savedOperation op)), (conditionPayloads op); done.
Qed.

(** The payload is the same value. *)
Lemma saved_payload : canon (JObj (operationPayload (savedOperation op))) = canon (JObj (operationPayload op)).
Proof.
  apply same_fields_canon. rewrite !operationPayload_eq. cbv zeta. rewrite saved_mode, (modeOf_ok op op_ok).
  rewrite saved_nonempty_payloads.
  repeat apply same_fields_set; try done.
  - intros Hn. cbn [savedOperation logic]. unfold conditionPayloads in Hn. rewrite saved_nonempty, Hn. done.
  - intros _. cbn [canon]. f_equal. apply saved_conditions.
  - cbn [savedOperation to]. rewrite orPath_trim. destruct (metaTo (metaOf (mode op))) eqn:Et; [done|]. cbn [orb].
    unfold orPath. rewrite (modeOf_ok op op_ok). destruct (m_pathAlias (metaOf (mode op))) eqn:Ea; [|done].
    apply alias_meta in Ea as [_ ?]. congruence.
  - intros _. cbn [savedOperation to]. by rewrite orPath_trim, saved_orPath.
  - intros Hf. cbn [savedOperation from]. rewrite Hf. by rewrite orPath_trim, saved_orPath.
  - cbn [savedOperation keep_origin]. by destruct (m_keepOrigin _), (keep_origin op).
  - intros Hv. cbn [savedOperation value_text]. rewrite Hv. rewrite reopened_value; [apply canon_idemp|apply op_ok|apply op_unquoted].
  - unfold pathUsed. rewrite saved_mode, (modeOf_ok op op_ok). cbn [savedOperation path].
    destruct (m_path _), (m_pathOptional _); cbn [orb andb]; try done. by rewrite trim_idemp.
  - intros Hp. unfold pathUsed in Hp. rewrite saved_mode in Hp. cbn [savedOperation path] in *.
    destruct (m_path _), (m_pathOptional _); cbn [orb andb] in *; try done; by rewrite trim_idemp.
  - cbn [savedOperation description]. by rewrite trim_idemp.
  - intros _. cbn [savedOperation description]. by rewrite trim_idemp.
Qed.

(** ** Validated again *)

Lemma modes_from m : m ∈ FROM_REQUIRED_MODES -> m_from (metaOf m) = true.
Proof. revert m. apply Forall_forall. apply (bool_decide_unpack _). vm_compute. reflexivity. Qed.

Lemma modes_value m : m ∈ VALUE_REQUIRED_MODES -> m_value (metaOf m) = true.
Proof. revert m. apply Forall_forall. apply (bool_decide_unpack _). vm_compute. reflexivity. Qed.

Lemma trimmedText_canon a :
  (forall v, a = Some v -> distinct v) -> trimmedText (canon <$> a) None = trimmedText a None.
Proof.
  intros Hd. unfold trimmedText. cbn [js_or]. change (JStr []) with (canon (JStr [])) at 1. rewrite js_or_canon.
  rewrite String_of_canon; [done|]. destruct a as [v|]; cbn [js_or]; [|constructor]. case_match; [by apply Hd|constructor].
Qed.

Lemma headerNames_canon l : Forall distinct l -> headerNames (map canon l) = headerNames l.
Proof.
  intros Hd. unfold headerNames. f_equal. apply omapM_ext. intros x Hx. rewrite Forall_forall in Hd.
  pose proof (String_of_canon x (Hd x Hx)) as E. by destruct x; try rewrite E.
Qed.

Lemma parsePassHeaderNames_canon v : distinct v -> parsePassHeaderNames (canon v) = parsePassHeaderNames v.
Proof.
  destruct 1 as [| | | |l Hl|fs Hn Hv]; try done; cbn [canon parsePassHeaderNames].
  - by apply headerNames_canon.
  - assert (forall k x, map_get fs k = Some x -> distinct x) as Hx.
    { intros k x E%map_get_Some_elem. rewrite Forall_forall in Hv. apply Hv, list_elem_of_fmap. by exists (k, x). }
    rewrite !canon_get by done.
    destruct (map_get fs (js "header")) as [h|] eqn:Eh; cbn [fmap option_fmap option_map].
    + pose proof (headerNames_canon [h] ltac:(constructor; [by eapply Hx|constructor])) as Hh. cbn [map] in Hh. rewrite Hh.
      destruct (map_get fs (js "headers")) as [[| | | |l|]|] eqn:E; cbn; try done.
      apply headerNames_canon. apply Hx in E. by inversion E.
    + destruct (map_get fs (js "headers")) as [[| | | |l|]|] eqn:E; cbn; try done.
      apply headerNames_canon. apply Hx in E. by inversion E.
Qed.

Lemma saved_end s :
  negb (truthy (trim (orPath op (trim s)))) &&
    negb (m_pathAlias (metaOf (mode op)) && truthy (trim (path (savedOperation op))))
  = negb (truthy (trim s)) && negb (m_pathAlias (metaOf (mode op)) && truthy (trim (path op))).
Proof.
  rewrite orPath_trim. unfold orPath. rewrite (modeOf_ok op op_ok).
  destruct (m_pathAlias (metaOf (mode op))) eqn:Ea; [|done]. cbn [andb].
  assert (path (savedOperation op) = []) as ->.
  { cbn [savedOperation path]. by rewrite (alias_no_path _ Ea). }
  by destruct (trim s), (trim (path op)).
Qed.

Lemma saved_path_missing :
  m_path (metaOf (mode op)) && negb (truthy (trim (path (savedOperation op))))
  = m_path (metaOf (mode op)) && negb (truthy (trim (path op))).
Proof. cbn [savedOperation path]. destruct (m_path _); [|done]. cbn [orb]. by rewrite trim_idemp. Qed.

Lemma saved_from_missing :
  bool_decide (mode op ∈ FROM_REQUIRED_MODES) && negb (truthy (trim (from (savedOperation op))))
    && negb (m_pathAlias (metaOf (mode op)) && truthy (trim (path (savedOperation op))))
  = bool_decide (mode op ∈ FROM_REQUIRED_MODES) && negb (truthy (trim (from op)))
    && negb (m_pathAlias (metaOf (mode op)) && truthy (trim (path op))).
Proof.
  rewrite <- !andb_assoc. destruct (bool_decide (mode op ∈ FROM_REQUIRED_MODES)) eqn:E; [|done]. bool_hyps. cbn [andb].
  rewrite <- saved_end. cbn [savedOperation from]. by rewrite modes_from.
Qed.

Lemma saved_to_missing :
  bool_decide (mode op ∈ TO_REQUIRED_MODES) && negb (truthy (trim (to (savedOperation op))))
    && negb (m_pathAlias (metaOf (mode op)) && truthy (trim (path (savedOperation op))))
  = bool_decide (mode op ∈ TO_REQUIRED_MODES) && negb (truthy (trim (to op)))
    && negb (m_pathAlias (metaOf (mode op)) && truthy (trim (path op))).
Proof. rewrite <- !andb_assoc. f_equal. apply saved_end. Qed.

Lemma saved_message k :
  match JSON_parse (trim (value_text op)) with Some (JObj fields) => trimmedText (map_get fields k) None | _ => None end
  = match JSON_parse (trim (reopenedText (value_text op))) with
    | Some (JObj fields) => trimmedText (map_get fields k) None | _ => None end.
Proof.
  rewrite reopened_parse by (apply op_ok || apply op_unquoted).
  destruct (JSON_parse (trim (value_text op))) as [[]|] eqn:E; try done. cbn [fmap option_fmap option_map canon].
  pose proof (parse_distinct _ _ E) as Hd. rewrite canon_get by by eapply parse_object_nodup.
  rewrite trimmedText_canon; [done|]. intros v Hv. by eapply (distinct_prop (JObj fields) k).
Qed.

(** The validator answers as it did. *)
Lemma saved_check t line : checkOperation t (savedOperation op) line = checkOperation t op line.
Proof.
  unfold checkOperation. cbv zeta. rewrite saved_mode, (modeOf_ok op op_ok).
  rewrite saved_path_missing, saved_from_missing, saved_to_missing.
  do 3 (case_match; [done|]). destruct (decide (mode op ∈ VALUE_REQUIRED_MODES)) as [Hv|Hv].
  - cbn [savedOperation value_text]. rewrite (modes_value _ Hv).
    assert (wf_str (value_text op)) as Hw by apply op_ok. destruct op_unquoted as [Hu _].
    rewrite reopened_empty by done. case_match; [done|]. case_match; [case_match; [done|]|case_match; [done|]].
    + pose proof (saved_message (js "message")) as Hm. rewrite reopened_parse in * by done.
      destruct (JSON_parse (trim (value_text op))) as [[]|]; cbn in *; try done. by rewrite <- Hm.
    + rewrite !loose_trim. rewrite reopened_value by done. rewrite parsePassHeaderNames_canon; [done|].
      by apply printable_distinct, parse_loose_printable.
  - rewrite !(bool_decide_eq_false_2 (mode op ∈ VALUE_REQUIRED_MODES)) by done. cbn [andb].
    assert (forall m, m ∈ VALUE_REQUIRED_MODES -> bool_decide (mode op = m) = false) as Hm
      by (intros m Hm; apply bool_decide_eq_false_2; by intros <-).
    rewrite !Hm; [done|..]; apply (bool_decide_unpack _); vm_compute; reflexivity.
Qed.
End Again.

End ParamOverrideFacts.
