(* ===== verification/ParamOverrideProperties.v ===== *)
(** * Channels: parameter overrides, what the functions guarantee

    Saved rules are opened as they were and saved as the same text; the
    validator names the first rule that lacks something; moving a rule moves
    that rule only. *)

From S2P Require Import Prelude JsString JsCollections Json JsonNumber JsonText JsonLocal JsValue JsonCanon ParamOverride ParamOverrideFacts.
Import Json JsonText JsonLocal JsValue JsonCanon ParamOverride ParamOverrideFacts.

Module ParamOverrideProperties.

(** ** Saved rules *)

Lemma printable_set_if b k v o :
  wf_str k -> (b = true -> printable v) -> printable (JObj o) -> printable (JObj (set_if b k v o)).
Proof.
  intros Hk Hv Ho. unfold set_if. destruct b; [|done]. inversion Ho as [| | | | |? Hn Hw Hp]; subst.
  assert (forall kv, kv ∈ map_set o k v -> kv = (k, v) \/ kv ∈ o) as Hin
    by (intros [k' v'] [[-> ->]|H]%map_set_elem; auto).
  constructor; [by apply map_keys_set_nodup| |]; rewrite Forall_forall in *.
  - intros x (kv & -> & [->|H]%Hin)%list_elem_of_fmap; [done|]. apply Hw, list_elem_of_fmap. eauto.
  - intros x (kv & -> & [->|H]%Hin)%list_elem_of_fmap; [by apply Hv|]. apply Hp, list_elem_of_fmap. eauto.
Qed.

Ltac closed_str := apply (bool_decide_unpack _); vm_compute; reflexivity.

Lemma orPath_wf op s : operation_ok op -> wf_str s -> wf_str (orPath op s).
Proof. intros Hok Hs. unfold orPath. case_match; [|done]. apply trim_wf, Hok. Qed.

Lemma known_wf (l : list jsstr) m : bool_decide (Forall wf_str l) = true -> m ∈ l -> wf_str m.
Proof. intros H%bool_decide_eq_true_1. rewrite Forall_forall in H. apply H. Qed.

Lemma condition_printable c p : condition_ok c -> buildConditionPayload c = Some p -> printable p.
Proof.
  intros Hok. unfold buildConditionPayload. destruct (negb _); [done|]. intros [= <-].
  do 2 (apply printable_set_if; [closed_str|by constructor|]). rewrite condition_mode_ok by done.
  constructor; [closed_nodup|closed_str|]. repeat constructor.
  - apply trim_wf, Hok.
  - eapply (known_wf CONDITION_MODE_VALUES); [vm_compute; reflexivity|apply Hok].
  - apply parse_loose_printable, Hok.
Qed.

Lemma payload_printable op : operation_ok op -> printable (JObj (operationPayload op)).
Proof.
  intros Hok. rewrite operationPayload_eq. cbv zeta. rewrite modeOf_ok by done.
  repeat (apply printable_set_if; [closed_str|intros _|]).
  - constructor. case_match; closed_str.
  - constructor. unfold conditionPayloads. apply Forall_forall. intros p (c & Hc & Hp)%list_elem_of_omap.
    eapply condition_printable; [|exact Hp]. pose proof (ok_conditions op Hok) as H. rewrite Forall_forall in H. auto.
  - constructor. apply orPath_wf; [done|]. apply trim_wf, Hok.
  - constructor. apply orPath_wf; [done|]. apply trim_wf, Hok.
  - constructor.
  - apply parse_loose_printable, Hok.
  - constructor. apply trim_wf, Hok.
  - constructor. apply trim_wf, Hok.
  - constructor; [closed_nodup|closed_str|]. repeat constructor.
    eapply (known_wf OPERATION_MODE_VALUES); [vm_compute; reflexivity|apply Hok].
Qed.

Definition keptRules (ops : list ParamOverrideOperation) : list ParamOverrideOperation :=
  List.filter (fun o => negb (isOperationBlank o)) ops.

Definition rulesDoc (ops : list ParamOverrideOperation) : json :=
  JObj [(js "operations", JArr (map (fun o => JObj (operationPayload o)) ops))].

Lemma kept_Forall (P : ParamOverrideOperation -> Prop) ops : Forall P ops -> Forall P (keptRules ops).
Proof. apply filter_Forall. Qed.

Section Saved.
Variables (now : nat -> Z) (t : jsstr -> option Z -> jsstr) (typeError : jsstr).
(** No message is empty. *)
Hypothesis t_text : forall k line, t k line <> [].

Lemma check_path op line :
  checkOperation t op line = Some [] -> m_path (metaOf (modeOf (mode op))) = true -> truthy (trim (path op)) = true.
Proof.
  unfold checkOperation. cbv zeta. intros H Hp. rewrite Hp in H. destruct (truthy (trim (path op))); [done|].
  cbn [andb negb] in H. by injection H as ?%t_text.
Qed.

Lemma saved_not_blank op line :
  operation_ok op -> checkOperation t op line = Some [] -> isOperationBlank (savedOperation op) = false.
Proof.
  intros Hok Hc. unfold isOperationBlank. cbn [savedOperation mode path].
  destruct (bool_decide (mode op = js "set")) eqn:E; [|done]. bool_hyps. cbn [andb].
  assert (m_path (metaOf (mode op)) = true) as Hm by (rewrite E; vm_compute; reflexivity). rewrite Hm. cbn [orb].
  rewrite trim_idemp, (check_path op line Hc) by (by rewrite modeOf_ok). done.
Qed.

Lemma validate_all i ops :
  validateFrom t i ops = Some [] ->
  forall k op, ops !! k = Some op -> exists line, checkOperation t op line = Some [].
Proof.
  revert i. induction ops as [|o ops IH]; intros i; [done|]. cbn [validateFrom].
  destruct (checkOperation t o (i + 1)) as [[|]|] eqn:E; try done. intros H [|k] op Hk; [|by eapply IH].
  injection Hk as <-. eauto.
Qed.

Lemma validate_saved i ops :
  Forall operation_ok ops -> Forall unquoted_values ops ->
  validateFrom t i (map savedOperation ops) = validateFrom t i ops.
Proof.
  intros Hok. revert i. induction Hok as [|o ops Ho _ IH]; intros i Hu; [done|]. apply Forall_cons in Hu as [Hu Hus].
  cbn [map validateFrom]. rewrite saved_check by done. destruct (checkOperation t o (i + 1)) as [[|]|]; try done. by apply IH.
Qed.

Lemma validate_erase i ops : validateFrom t i (map eraseIds ops) = validateFrom t i ops.
Proof. revert i. induction ops as [|o ops IH]; intros i; [done|]. cbn [map validateFrom]. rewrite erase_check. by rewrite IH. Qed.

Lemma kept_erase ops : keptRules (map eraseIds ops) = map eraseIds (keptRules ops).
Proof.
  unfold keptRules. induction ops as [|o ops IH]; [done|]. cbn [map List.filter]. rewrite erase_blank.
  destruct (isOperationBlank o); cbn [negb map]; by rewrite IH.
Qed.

(** The text depends on the operations without their ids. *)
Lemma build_erase ops validate :
  buildOperationsJson t typeError (map eraseIds ops) validate = buildOperationsJson t typeError ops validate.
Proof.
  unfold buildOperationsJson. fold (keptRules ops) (keptRules (map eraseIds ops)). rewrite kept_erase.
  assert (map (fun o => JObj (operationPayload o)) (map eraseIds (keptRules ops))
          = map (fun o => JObj (operationPayload o)) (keptRules ops)) as ->.
  { rewrite map_map. apply map_ext. intros o. by rewrite erase_payload. }
  unfold validateOperations. rewrite validate_erase. by destruct (keptRules ops).
Qed.

Lemma build_text ops text :
  buildOperationsJson t typeError ops true = Text text -> text <> [] ->
  keptRules ops <> [] /\ validateOperations t (keptRules ops) = Some [] /\ text = JSON_pretty (rulesDoc (keptRules ops)).
Proof.
  unfold buildOperationsJson. fold (keptRules ops). destruct (keptRules ops) as [|o l]; [by intros [= <-]|].
  destruct (validateOperations t (o :: l)) as [[|]|]; try done. by intros [= <-].
Qed.

Lemma kept_saved ops :
  Forall operation_ok ops -> validateOperations t ops = Some [] ->
  keptRules (map savedOperation ops) = map savedOperation ops.
Proof.
  intros Hok Hv. apply List.forallb_filter_id. apply forallb_forall. intros o' Ho'.
  apply in_map_iff in Ho' as (o & <- & Ho). apply list_elem_of_In, list_elem_of_lookup in Ho as [k Hk].
  destruct (validate_all 0 ops Hv k o Hk) as [line Hl]. apply negb_true_iff. eapply saved_not_blank; [|exact Hl].
  rewrite Forall_lookup in Hok. eauto.
Qed.

Lemma rulesDoc_printable ops : Forall operation_ok ops -> printable (rulesDoc ops).
Proof.
  intros Hok. constructor; [closed_nodup|closed_str|]. repeat constructor. apply Forall_forall.
  intros v Hv. apply list_elem_of_In, in_map_iff in Hv as (o & <- & Ho%list_elem_of_In). apply payload_printable.
  rewrite Forall_forall in Hok. auto.
Qed.

(** Opening the text of a list of rules. *)
Lemma open_rules ops n :
  Forall operation_ok ops -> ops <> [] ->
  exists ops' n',
    parseInitialState now (JSON_pretty (rulesDoc ops)) n
    = (Some (mkInit VisualEdit OperationsMode [] ops' (JSON_pretty (rulesDoc ops)) []), n') /\
    map eraseIds ops' = map savedOperation ops.
Proof.
  intros Hok Hne. destruct (operations_reopen now ops n Hok) as (ops' & n' & Em & Hs). exists ops', n'. split; [|done].
  pose proof (parse_trim _ _ (pretty_reads _ (rulesDoc_printable ops Hok))) as Hp.
  unfold parseInitialState. cbv zeta.
  rewrite (parse_truthy _ _ Hp), Hp. cbn [negb]. rewrite (pretty_canon (canon (rulesDoc ops)) (rulesDoc ops)) by apply canon_idemp.
  unfold rulesDoc at 1. cbn [canon]. rewrite canon_get by closed_nodup. obj_get. cbn [fmap option_fmap option_map canon].
  rewrite map_map. unfold gbind, gret, loadOperations.
  destruct ops as [|o ops]; [done|]. cbn [map] in *. by rewrite Em.
Qed.

(** What is built from rules opens as what is saved of them, and builds the same
    text again. *)
Lemma rules_reopen ops text n :
  Forall operation_ok ops -> Forall unquoted_values ops ->
  buildOperationsJson t typeError ops true = Text text -> text <> [] ->
  exists ops' n',
    parseInitialState now text n = (Some (mkInit VisualEdit OperationsMode [] ops' text []), n') /\
    map eraseIds ops' = map savedOperation (keptRules ops) /\
    buildOperationsJson t typeError ops' true = Text text.
Proof.
  intros Hok Hu Hb Ht. destruct (build_text ops text Hb Ht) as (Hne & Hv & ->).
  pose proof (kept_Forall _ _ Hok) as Hk. pose proof (kept_Forall _ _ Hu) as Hku.
  destruct (open_rules _ n Hk Hne) as (ops' & n' & Ho & Hs). exists ops', n'. split_and!; [done|done|].
  rewrite <- build_erase, Hs. unfold buildOperationsJson. fold (keptRules (map savedOperation (keptRules ops))).
  rewrite kept_saved by done. unfold validateOperations in *. rewrite validate_saved, Hv by done. cbn [truthy].
  assert (JSON_pretty (rulesDoc (map savedOperation (keptRules ops))) = JSON_pretty (rulesDoc (keptRules ops))) as E.
  { apply pretty_canon, same_fields_canon. unfold same_fields. cbn [map prod_map fst snd canon]. do 3 f_equal.
    rewrite !map_map. apply map_ext_in. intros o Hin%list_elem_of_In. rewrite Forall_forall in Hk, Hku.
    apply saved_payload; auto. }
  unfold rulesDoc in E. rewrite E. by destruct (keptRules ops).
Qed.
End Saved.

(** ** The validator *)

Inductive Field := FPath | FFrom | FTo | FValue.

#[export] Instance Field_eq_dec : EqDecision Field.
Proof. solve_decision. Defined.

(** What each mode needs. *)
Definition requiredFields : list (jsstr * list Field) :=
  [ (js "set", [FPath]); (js "delete", [FPath]); (js "append", [FPath]); (js "prepend", [FPath]);
    (js "copy", [FFrom; FTo]); (js "move", [FFrom; FTo]);
    (js "replace", [FPath; FFrom]); (js "regex_replace", [FPath; FFrom]);
    (js "trim_prefix", [FPath; FValue]); (js "trim_suffix", [FPath; FValue]);
    (js "ensure_prefix", [FPath; FValue]); (js "ensure_suffix", [FPath; FValue]);
    (js "trim_space", [FPath]); (js "to_lower", [FPath]); (js "to_upper", [FPath]);
    (js "return_error", [FValue]); (js "prune_objects", [FValue]); (js "pass_headers", [FValue]);
    (js "sync_fields", [FFrom; FTo]); (js "set_header", [FPath; FValue]); (js "delete_header", [FPath]);
    (js "copy_header", [FFrom; FTo]); (js "move_header", [FFrom; FTo]) ].

Definition requires (m : jsstr) (f : Field) : Prop :=
  f ∈ match map_get requiredFields m with Some fs => fs | None => [] end.

#[export] Instance requires_dec m f : Decision (requires m f).
Proof. unfold requires. apply _. Defined.

(** A header that is copied or moved takes the path for a missing end. *)
Definition headerMode (m : jsstr) : Prop := m ∈ [js "copy_header"; js "move_header"].

#[export] Instance headerMode_dec m : Decision (headerMode m).
Proof. unfold headerMode. apply _. Defined.

Definition provides (op : ParamOverrideOperation) (f : Field) : Prop :=
  match f with
  | FPath => trim (path op) <> []
  | FFrom => trim (from op) <> [] \/ headerMode (mode op) /\ trim (path op) <> []
  | FTo => trim (to op) <> [] \/ headerMode (mode op) /\ trim (path op) <> []
  | FValue => trim (value_text op) <> []
  end.

(** What is wrong with a rule, with the message it is reported by. *)
Inductive lacks (op : ParamOverrideOperation) : jsstr -> Prop :=
| lacks_path : requires (mode op) FPath -> ~ provides op FPath -> lacks op (js "Rule {{line}} is missing target path")
| lacks_from : requires (mode op) FFrom -> ~ provides op FFrom -> lacks op (js "Rule {{line}} is missing source field")
| lacks_to : requires (mode op) FTo -> ~ provides op FTo -> lacks op (js "Rule {{line}} is missing target field")
| lacks_value : requires (mode op) FValue -> ~ provides op FValue -> lacks op (js "Rule {{line}} is missing value")
| lacks_message fields :
    mode op = js "return_error" -> JSON_parse (trim (value_text op)) = Some (JObj fields) ->
    trimmedText (map_get fields (js "message")) None = Some [] ->
    lacks op (js "Rule {{line}} return_error requires a message field")
| lacks_headers :
    mode op = js "pass_headers" -> parsePassHeaderNames (parseLooseValue (value_text op)) = Some [] ->
    lacks op (js "Rule {{line}} pass_headers format is invalid").

(** The header names hold an object that has no text. *)
Definition unreadable (op : ParamOverrideOperation) : Prop :=
  mode op = js "pass_headers" /\ parsePassHeaderNames (parseLooseValue (value_text op)) = None.

Definition sound (op : ParamOverrideOperation) : Prop := (forall k, ~ lacks op k) /\ ~ unreadable op.

(** The tables of the sources say the same as [requiredFields]. *)
Lemma tables_agree m :
  m ∈ OPERATION_MODE_VALUES ->
  bool_decide (requires m FPath) = m_path (metaOf m) /\
  bool_decide (requires m FFrom) = bool_decide (m ∈ FROM_REQUIRED_MODES) /\
  bool_decide (requires m FTo) = bool_decide (m ∈ TO_REQUIRED_MODES) /\
  bool_decide (requires m FValue) = bool_decide (m ∈ VALUE_REQUIRED_MODES) /\
  bool_decide (headerMode m) = m_pathAlias (metaOf m).
Proof.
  revert m. apply Forall_forall. repeat (constructor; [vm_compute; repeat split|]). constructor.
Qed.

Lemma truthy_false s : truthy s = false <-> s = [].
Proof. by destruct s. Qed.

Section Validate.
Variable t : jsstr -> option Z -> jsstr.
Hypothesis t_text : forall k line, t k line <> [].

#[local] Instance provides_dec op f : Decision (provides op f).
Proof. destruct f; cbn [provides]; apply _. Defined.

Lemma missing_test op f (present : bool) :
  (present = true <-> provides op f) ->
  bool_decide (requires (mode op) f) && negb present = bool_decide (requires (mode op) f /\ ~ provides op f).
Proof.
  intros H. apply eq_true_iff_eq. rewrite andb_true_iff, negb_true_iff, !bool_decide_eq_true, <- H.
  by rewrite not_true_iff_false.
Qed.

Lemma truthy_spec (s : jsstr) : truthy s = true <-> s <> [].
Proof. by destruct s. Qed.

Lemma end_present op s :
  truthy s || bool_decide (headerMode (mode op)) && truthy (trim (path op)) = true <->
  s <> [] \/ headerMode (mode op) /\ trim (path op) <> [].
Proof. by rewrite orb_true_iff, andb_true_iff, !truthy_spec, bool_decide_eq_true. Qed.

(** The answer for a rule with a defect. *)
Lemma report op line k :
  lacks op k ->
  match Some (t k (Some line)) with
  | Some [] => sound op | Some e => exists k, lacks op k /\ e = t k (Some line) | None => unreadable op end.
Proof. intros H. destruct (t k (Some line)) eqn:E; [by apply t_text in E|]. exists k. by rewrite E. Qed.

(** Nothing is missing, and the value is what the mode takes. *)
Lemma sound_intro op :
  (forall f, ~ (requires (mode op) f /\ ~ provides op f)) ->
  (forall fields, mode op = js "return_error" -> JSON_parse (trim (value_text op)) = Some (JObj fields) ->
     trimmedText (map_get fields (js "message")) None <> Some []) ->
  (mode op = js "pass_headers" -> exists x l, parsePassHeaderNames (parseLooseValue (value_text op)) = Some (x :: l)) ->
  sound op.
Proof.
  intros Hf Hmsg Hh. split.
  - intros k [? ?|? ?|? ?|? ?|fields ? ? ?|Hm E]; try (by eapply Hf; eauto); [by eapply Hmsg|].
    destruct (Hh Hm) as (x & l & E'). congruence.
  - intros [Hm E]. destruct (Hh Hm) as (x & l & E'). congruence.
Qed.

(** One rule is reported by something that it lacks. *)
Lemma check_spec op line :
  mode op ∈ OPERATION_MODE_VALUES ->
  match checkOperation t op line with
  | Some [] => sound op
  | Some e => exists k, lacks op k /\ e = t k (Some line)
  | None => unreadable op
  end.
Proof.
  intros Hm. destruct (tables_agree (mode op) Hm) as (Ep & Ef & Et & Ev & Eh).
  assert (modeOf (mode op) = mode op) as Em.
  { unfold modeOf. rewrite (mode_not_empty OPERATION_MODE_VALUES); [done| |done].
    apply (bool_decide_unpack _). vm_compute. reflexivity. }
  unfold checkOperation. cbv zeta. rewrite Em, <- Ep, <- Ef, <- Et, <- Ev, <- Eh, <- !andb_assoc, <- !negb_orb.
  rewrite (missing_test op FPath) by apply truthy_spec. rewrite (missing_test op FFrom) by apply end_present.
  rewrite (missing_test op FTo) by apply end_present. rewrite (missing_test op FValue) by apply truthy_spec.
  clear Ep Ef Et Ev Eh Em. rewrite loose_trim.
  assert (forall m, m ∈ VALUE_REQUIRED_MODES -> mode op = m -> requires (mode op) FValue) as Hreq.
  { intros m Hv <-. destruct (tables_agree (mode op) Hm) as (_ & _ & _ & E & _).
    apply (bool_decide_eq_true_1 (requires _ _)). rewrite E. by apply bool_decide_eq_true_2. }
  repeat lazymatch goal with
  | |- context [if bool_decide (requires _ ?f /\ ?Q) then _ else _] =>
      destruct (bool_decide_reflect (requires (mode op) f /\ Q)) as [[? ?]|?]; [apply report; by first [apply lacks_path | apply lacks_from | apply lacks_to | apply lacks_value]|]
  end.
  assert (forall f, ~ (requires (mode op) f /\ ~ provides op f)) as Hf by (by intros []).
  assert (forall m, m ∈ VALUE_REQUIRED_MODES -> mode op = m -> truthy (trim (value_text op)) = true) as Hraw.
  { intros m Hv E. apply truthy_spec. destruct (decide (trim (value_text op) = [])) as [E'|]; [|done].
    exfalso. apply (Hf FValue). split; [by eapply Hreq|]. cbn [provides]. by intros ?. }
  assert (js "return_error" <> js "pass_headers" /\ js "prune_objects" <> js "return_error" /\
    js "prune_objects" <> js "pass_headers") as (N1 & N2 & N3) by (split_and!; key_ne).
  repeat lazymatch goal with
  | |- context [if bool_decide (mode op = ?m) then _ else _] =>
      destruct (bool_decide_reflect (mode op = m)) as [Em|?];
        [rewrite (Hraw m) by (done || closed_str); cbn [negb]|]
  end.
  - destruct (JSON_parse (trim (value_text op))) as [[]|] eqn:Ej;
      try (apply sound_intro; [done|congruence|congruence]).
    destruct (trimmedText _ None) as [[|c e]|] eqn:Ex; [apply report; by apply (lacks_message op fields)|..];
      (apply sound_intro; [done|congruence|congruence]).
  - apply sound_intro; [done|congruence|congruence].
  - destruct (parsePassHeaderNames _) as [[|x l]|] eqn:Ex; [apply report; by apply lacks_headers| |done].
    apply sound_intro; [done|congruence|]. eauto.
  - by apply sound_intro.
Qed.

Lemma validate_spec off ops :
  Forall (fun op => mode op ∈ OPERATION_MODE_VALUES) ops ->
  match validateFrom t (Z.of_nat off) ops with
  | Some [] => Forall sound ops
  | r => exists i op, ops !! i = Some op /\ Forall sound (take i ops) /\ ~ sound op /\
      (r = None /\ unreadable op \/ exists k, lacks op k /\ r = Some (t k (Some (Z.of_nat (off + i) + 1))))
  end.
Proof.
  intros Hm. revert off. induction Hm as [|o ops Ho _ IH]; intros off; [constructor|]. cbn [validateFrom].
  pose proof (check_spec o (Z.of_nat off + 1) Ho) as Hc.
  destruct (checkOperation t o (Z.of_nat off + 1)) as [[|c e]|].
  - specialize (IH (S off)). replace (Z.of_nat (S off)) with (Z.of_nat off + 1) in IH by lia.
    destruct (validateFrom t (Z.of_nat off + 1) ops) as [[|c e]|]; [by constructor|..];
      destruct IH as (i & op & Hi & Hs & Hn & Hr); exists (S i), op; rewrite Nat.add_succ_r;
      (split_and!; [done|by constructor|done|exact Hr]).
  - destruct Hc as (k & Hl & ->). exists 0%nat, o. split_and!; [done|constructor|by intros [Hs _]; eapply Hs|].
    right. exists k. by rewrite Nat.add_0_r.
  - exists 0%nat, o. split_and!; [done|constructor|by intros [_ Hs]|]. by left.
Qed.

(** C15: The validator of parameter overrides accepts a list of rules exactly
    when no rule lacks anything: the fields its mode needs (the path stands for
    a missing end of a copied or moved header), a message in an error object,
    a name among the headers to pass.  Otherwise it reports something that the
    first such rule lacks, with the number of that rule; header names that have
    no text raise an exception. *)
Theorem validator_reports_first_defect ops :
  Forall (fun op => mode op ∈ OPERATION_MODE_VALUES) ops ->
  match validateOperations t ops with
  | Some [] => Forall sound ops
  | r => exists i op, ops !! i = Some op /\ Forall sound (take i ops) /\ ~ sound op /\
      (r = None /\ unreadable op \/ exists k, lacks op k /\ r = Some (t k (Some (Z.of_nat i + 1))))
  end.
Proof.
  intros Hm. apply (validate_spec 0 ops Hm).
Qed.
End Validate.

(** A rule that sets a path and one that moves nothing. *)
Definition sampleRules : list ParamOverrideOperation :=
  [mkOperation (js "a") [] (js "temperature") (js "set") [] [] (js "0.7") false (js "OR") [];
   mkOperation (js "b") [] [] (js "move") [] (js "to") [] false (js "OR") []].

Lemma validator_reports_first_defect_witness : Forall sound (take 1 sampleRules) /\ exists op, op ∈ sampleRules /\ ~ sound op.
Proof.
  split.
  - apply (validator_reports_first_defect (fun k _ => 33 :: k) ltac:(done) (take 1 sampleRules)).
    apply (bool_decide_unpack _). vm_compute. reflexivity.
  - pose proof (validator_reports_first_defect (fun k _ => 33 :: k) ltac:(done) sampleRules
      ltac:(apply (bool_decide_unpack _); vm_compute; reflexivity)) as H.
    destruct (validateOperations (fun k _ => 33 :: k) sampleRules) as [[|c x]|] eqn:E; [vm_compute in E; discriminate E| |].
    all: destruct H as (i & op & Hi & _ & Hn & _); exists op; split; [by eapply list_elem_of_lookup_2|done].
Defined.

End ParamOverrideProperties.
