(* ===== verification/ParamOverrideDrafts.v ===== *)
(** * Channels: parameter overrides, the drafts

    The value text of an error or prune rule and the ends of a sync rule are
    edited through drafts: every change parses the text, changes the draft and
    builds the text again.  What a built text is parsed as. *)

From S2P Require Import Prelude JsString JsCollections Json JsonNumber JsonText JsonLocal JsValue JsonCanon ParamOverride ParamOverrideFacts ParamOverrideProperties.
Import Json JsonText JsonLocal JsValue JsonCanon ParamOverride ParamOverrideFacts ParamOverrideProperties.

Module ParamOverrideDrafts.

(** ** Trimmed texts *)

Lemma trimmed_ends s : trim s <> [] -> solid (trim s).
Proof.
  intros Hne. split.
  - assert (trimStart (trim s) = trim s) as E by (apply trimStart_trimEnd, trimStart_idemp).
    destruct (trim s) as [|c q] eqn:Et; [done|]. exists c, q. split; [done|]. by eapply trimStart_head.
  - unfold trim, trimEnd in *. destruct (trimStart (rev (trimStart s))) as [|c q] eqn:E; [done|].
    exists (rev q), c. split; [done|]. by eapply trimStart_head.
Qed.

Lemma trim_between c p s : is_space c = false -> trim s <> [] -> trim (c :: p ++ trim s) = c :: p ++ trim s.
Proof.
  intros Hc Hs. destruct (trimmed_ends s Hs) as [_ (q & d & E & Hd)].
  pose proof (trim_solid [] (c :: p ++ trim s) [] ltac:(constructor) ltac:(constructor)) as H.
  rewrite app_nil_r in H. apply H. split; [by exists c, (p ++ trim s)|].
  exists (c :: p ++ q), d. split; [|done]. rewrite E. cbn. by rewrite app_assoc.
Qed.

(** ** Sync ends *)

Lemma parse_prefixed c p s :
  is_space c = false -> 58 ∉ c :: p -> trim (c :: p) = c :: p -> trim s <> [] ->
  parseSyncTargetSpec ((c :: p) ++ 58 :: trim s)
  = if bool_decide (toLowerCase (c :: p) = js "header") then (js "header", trim s) else (js "json", trim s).
Proof.
  intros Hc H58 Ht Hs. unfold parseSyncTargetSpec. cbv zeta.
  assert (trim ((c :: p) ++ 58 :: trim s) = (c :: p) ++ 58 :: trim s) as ->.
  { change ((c :: p) ++ 58 :: trim s) with (c :: p ++ [58] ++ trim s). rewrite app_assoc. by apply trim_between. }
  cbn [truthy app negb]. rewrite app_comm_cons.
  assert (indexOf ((c :: p) ++ 58 :: trim s) [58] 0 = Some (length (c :: p))) as ->.
  { unfold indexOf. rewrite drop_0. assert (find_sub [58] ((c :: p) ++ 58 :: trim s) = Some (length (c :: p))) as ->; [|done].
    clear Ht Hc. induction (c :: p) as [|x q IH]; [cbn [app length find_sub startsWith]; by rewrite startsWith_nil_r|].
    apply not_elem_of_cons in H58 as [Hx Hq]. cbn [app length find_sub startsWith].
    replace (58 =? x) with false by lia. cbn [andb]. by rewrite IH. }
  unfold slice, slice_from. rewrite drop_0, Nat.sub_0_r, take_app_length, Ht.
  change (58 :: trim s) with ([58] ++ trim s). rewrite app_assoc.
  replace (S (length (c :: p))) with (length ((c :: p) ++ [58])) by (rewrite length_app; cbn; lia).
  by rewrite drop_app_length, trim_idemp.
Qed.

(** The two fields of a sync end are read back from its text: the type and
    the trimmed name.  Without a name there is no text, so the type is lost: a
    header end cannot be chosen before its name is entered. *)
Theorem sync_end_reads_back type key :
  parseSyncTargetSpec (buildSyncTargetSpec type key)
  = if truthy (trim key) then (if bool_decide (type = js "header") then js "header" else js "json", trim key)
    else (js "json", []).
Proof.
  unfold buildSyncTargetSpec. destruct (truthy (trim key)) eqn:E; [|done]. cbn [negb]. apply truthy_not_nil in E.
  assert (forall c p, is_space c = false -> 58 ∉ c :: p -> trim (c :: p) = c :: p ->
    parseSyncTargetSpec ((c :: p) ++ [58] ++ trim key)
    = if bool_decide (toLowerCase (c :: p) = js "header") then (js "header", trim key) else (js "json", trim key)) as H
    by (intros; by apply parse_prefixed).
  destruct (bool_decide (type = js "header")).
  - change (js "header") with [104; 101; 97; 100; 101; 114] at 1. rewrite H; [done|done|closed_str|done].
  - change (js "json") with [106; 115; 111; 110] at 1. rewrite H; [done|done|closed_str|done].
Qed.

(** ** Errors *)

Lemma status_range v : 100 <= statusOr400 v <= 599.
Proof. unfold statusOr400. destruct v as [n|]; [|lia]. destruct ((100 <=? n) && (n <=? 599)) eqn:E; bool_hyps; lia. Qed.

Lemma status_renum v : JsonNumber.renum (mkNum (statusOr400 v) 0) = mkNum (statusOr400 v) 0.
Proof.
  apply JsonNumber.renum_integer; [done|]. pose proof (status_range v) as H. cbn [mant]. rewrite Z.abs_eq by lia.
  generalize dependent (statusOr400 v). intros z Hz.
  assert (Forall (fun z => (length (showZ z) <= 21)%nat) (seqZ 100 500)) as Hall
    by (apply (bool_decide_unpack _); vm_compute; reflexivity).
  rewrite Forall_forall in Hall. apply Hall, elem_of_seqZ. lia.
Qed.

Lemma integer_status z : num_integer (mkNum z 0) = Some z.
Proof. unfold num_integer. cbn [expo mant]. by rewrite Z.mul_1_r. Qed.

Lemma trimmed_str s : trimmedText (Some (JStr (trim s))) None = Some (trim s).
Proof. unfold trimmedText. cbn [js_or json_truthy]. destruct (trim s) eqn:E; [done|]. cbn [truthy String_of fmap option_fmap option_map]. by rewrite <- E, trim_idemp. Qed.

Lemma trimmed_opt s : trimmedText (if truthy (trim s) then Some (JStr (trim s)) else None) None = Some (trim s).
Proof. destruct (truthy (trim s)) eqn:E; [apply trimmed_str|]. by destruct (trim s). Qed.

Lemma canon_if_str (b : bool) s : canon <$> (if b then Some (JStr s) else None) = if b then Some (JStr s) else None.
Proof. by destruct b. Qed.

Definition errorPayload (d : ReturnErrorDraft) : list (jsstr * json) :=
  set_if (negb (r_skipRetry d)) (js "skip_retry") (JBool false)
  (set_if (truthy (trim (r_type d))) (js "type") (JStr (trim (r_type d)))
  (set_if (truthy (trim (r_code d))) (js "code") (JStr (trim (r_code d)))
    [(js "message", JStr (trim (r_message d)));
     (js "status_code", JNum (mkNum (statusOr400 (Some (r_statusCode d))) 0))])).

Lemma errorPayload_printable d :
  wf_str (r_message d) -> wf_str (r_code d) -> wf_str (r_type d) -> printable (JObj (errorPayload d)).
Proof.
  intros Hm Hc Ht. unfold errorPayload. repeat (apply printable_set_if; [closed_str|intros _; constructor; by try apply trim_wf|]).
  constructor; [closed_nodup|closed_str|]. repeat constructor. by apply trim_wf.
Qed.

(** The draft of an error rule survives its text: in the advanced form the
    message, code and type come back trimmed, the status as an integer from 100
    to 599, with 400 for any other, and the choice on retries.  In the simple
    form the message comes back, unless it is itself the text of a JSON object. *)
Theorem error_draft_reads_back d :
  wf_str (r_message d) -> wf_str (r_code d) -> wf_str (r_type d) ->
  (r_simpleMode d = true -> forall fields, JSON_parse (trim (r_message d)) <> Some (JObj fields)) ->
  parseReturnErrorDraft (buildReturnErrorValueText d)
  = if r_simpleMode d then mkReturnError (trim (r_message d)) 400 [] [] true true
    else mkReturnError (trim (r_message d)) (statusOr400 (Some (r_statusCode d))) (trim (r_code d)) (trim (r_type d))
           (r_skipRetry d) false.
Proof.
  intros Hm Hc Ht Hs. unfold buildReturnErrorValueText. destruct (r_simpleMode d).
  - unfold parseReturnErrorDraft. cbv zeta. rewrite trim_idemp. destruct (truthy (trim (r_message d))) eqn:E; cbn [negb].
    + specialize (Hs eq_refl). destruct (JSON_parse (trim (r_message d))) as [[]|] eqn:Ep; try done. by destruct (Hs fields).
    + by destruct (trim (r_message d)).
  - cbv zeta. change (set_if (negb (r_skipRetry d)) _ _ _) with (errorPayload d).
    pose proof (errorPayload_printable d Hm Hc Ht) as Hp. pose proof (stringify_reads _ Hp) as Hr. apply parse_trim in Hr.
    unfold parseReturnErrorDraft. cbv zeta.
    rewrite (parse_truthy _ _ Hr), Hr. cbn [negb canon]. assert (NoDup (errorPayload d).*1) as Hn by by inversion Hp.
    rewrite !canon_get by done. unfold errorPayload. obj_get. cbn [map_get].
    rewrite !canon_if_str. cbn [fmap option_fmap option_map canon]. rewrite !trimmed_opt.
    rewrite status_renum, trimmed_str. cbn [Number_of mbind option_bind num_integer expo mant].
    rewrite integer_status. unfold statusOr400 at 1. pose proof (status_range (Some (r_statusCode d))) as Hst.
    replace ((100 <=? statusOr400 (Some (r_statusCode d))) && (statusOr400 (Some (r_statusCode d)) <=? 599))
      with true by lia.
    by destruct (r_skipRetry d).
Qed.

(** ** Prune rules *)

Definition keptPruneRules (d : PruneObjectsDraft) : list ParamOverrideCondition :=
  List.filter (fun r => truthy (trim (c_path r))) (d_rules d).

Lemma pruneCondition_printable r : condition_ok r -> printable (pruneCondition r).
Proof.
  intros Hok. unfold pruneCondition. cbv zeta.
  do 2 (apply printable_set_if; [closed_str|by constructor|]).
  apply printable_set_if; [closed_str|intros _; rewrite loose_trim; apply parse_loose_printable, Hok|].
  constructor; [closed_nodup|closed_str|]. repeat constructor; [apply trim_wf, Hok|].
  rewrite bool_decide_eq_true_2 by apply Hok.
  eapply (known_wf CONDITION_MODE_VALUES); [vm_compute; reflexivity|apply Hok].
Qed.

Lemma canon_if_value (b : bool) v : canon <$> (if b then Some v else None) = if b then Some (canon v) else None.
Proof. by destruct b. Qed.

Lemma prune_value s :
  toValueText (if truthy (trim s) then Some (canon (parseLooseValue (trim s))) else None) = reopenedText s.
Proof.
  rewrite loose_trim. unfold reopenedText, parseLooseValue. by destruct (truthy (trim s)).
Qed.

Section Prune.
Variable now : nat -> Z.

Lemma prune_rule_reopens r n :
  condition_ok r -> truthy (trim (c_path r)) = true ->
  exists r', normalizePruneRule now (canon (pruneCondition r)) n = (Some r', S n) /\
    savedCondition r = Some (eraseCondition r').
Proof.
  intros Hok Hp. unfold savedCondition. rewrite Hp. eexists. split.
  { unfold normalizePruneRule, normalizeCondition, gbind, nextLocalId, glift, pruneCondition. cbv zeta.
    rewrite !read_canon by (repeat apply set_if_nodup; closed_nodup). obj_get. cbn [mbind option_bind map_get]. reflexivity. }
  unfold eraseCondition. cbn [c_id c_path c_mode c_value_text c_invert c_pass_missing_key].
  rewrite (bool_decide_eq_true_2 (c_mode r ∈ CONDITION_MODE_VALUES)) by apply Hok.
  rewrite !canon_if_value, prune_value. cbn [fmap option_fmap option_map canon string_or_empty].
  rewrite known_or_ok by apply Hok. by destruct (c_invert r), (c_pass_missing_key r).
Qed.

Lemma prune_rules_reopen rs n :
  Forall condition_ok rs ->
  exists rs' n',
    gmapM (normalizePruneRule now) (map canon (map pruneCondition (List.filter (fun r => truthy (trim (c_path r))) rs))) n
    = (Some rs', n') /\ omap savedCondition rs = map eraseCondition rs'.
Proof.
  intros H. revert n. induction H as [|r rs Hr _ IH]; intros n; [by exists [], n|].
  cbn [List.filter omap list_omap]. destruct (truthy (trim (c_path r))) eqn:Ep.
  - destruct (prune_rule_reopens r n Hr Ep) as (r' & En & ->). destruct (IH (S n)) as (rs' & n' & Em & ->).
    exists (r' :: rs'), n'. split; [|done]. cbn [map gmapM]. unfold gbind, gret. by rewrite En, Em.
  - destruct (IH n) as (rs' & n' & Em & Es). exists rs', n'. split; [done|]. rewrite Es.
    unfold savedCondition. by rewrite Ep.
Qed.

Definition prunePayload (d : PruneObjectsDraft) : list (jsstr * json) :=
  set_if (nonempty (keptPruneRules d)) (js "conditions") (JArr (map pruneCondition (keptPruneRules d)))
  (set_if (negb (d_recursive d)) (js "recursive") (JBool false)
  (set_if (bool_decide (d_logic d = js "OR")) (js "logic") (JStr (js "OR"))
  (set_if (truthy (trim (d_typeText d))) (js "type") (JStr (trim (d_typeText d))) []))).

Lemma build_prune d :
  d_simpleMode d = false -> d_logic d ∈ [js "AND"; js "OR"] ->
  buildPruneObjectsValueText d
  = JSON_stringify (JObj (if negb (truthy (trim (d_typeText d))) && negb (nonempty (keptPruneRules d))
                          then [(js "logic", JStr (js "AND"))] else prunePayload d)).
Proof.
  intros Hs Hl. unfold buildPruneObjectsValueText. rewrite Hs. cbv zeta.
  assert (bool_decide (toUpperCase (if truthy (d_logic d) then d_logic d else js "AND") = js "OR")
          = bool_decide (d_logic d = js "OR")) as ->.
  { rewrite !elem_of_cons, elem_of_nil in Hl. destruct Hl as [-> | [-> | []]]; vm_compute; reflexivity. }
  unfold prunePayload. fold (keptPruneRules d).
  assert (match map pruneCondition (keptPruneRules d) with [] => false | _ => true end = nonempty (keptPruneRules d)) as ->
    by by destruct (keptPruneRules d).
  by destruct (negb _ && negb _).
Qed.

Lemma prunePayload_printable d :
  wf_str (d_typeText d) -> Forall condition_ok (d_rules d) -> printable (JObj (prunePayload d)).
Proof.
  intros Ht Hr. unfold prunePayload. apply printable_set_if; [closed_str|intros _; constructor|].
  { apply Forall_forall. intros v Hv. apply list_elem_of_In, in_map_iff in Hv as (r & <- & Hin).
    apply List.filter_In in Hin as [Hin%list_elem_of_In _]. rewrite Forall_forall in Hr. by apply pruneCondition_printable, Hr. }
  repeat (apply printable_set_if; [closed_str|intros _; constructor; by first [apply trim_wf | closed_str]|]).
  by repeat constructor.
Qed.

Lemma gmapM_length {A B} (f : A -> G B) l n l' n' : gmapM f l n = (Some l', n') -> length l' = length l.
Proof.
  revert n l' n'. induction l as [|x l IH]; intros n l' n'; cbn [gmapM]; [by intros [= <- _]|]. unfold gbind, gret.
  destruct (f x n) as [[y|] n1]; [|done]. destruct (gmapM f l n1) as [[ys|] n2] eqn:E; [|done].
  intros [= <- _]. cbn [length]. by rewrite (IH _ _ _ E).
Qed.

(** Parsing the text of a payload. *)
Lemma parse_prune_payload d n :
  d_logic d ∈ [js "AND"; js "OR"] -> wf_str (d_typeText d) -> Forall condition_ok (d_rules d) ->
  parsePruneObjectsDraft now (JSON_stringify (JObj (prunePayload d))) n
  = match (if nonempty (keptPruneRules d)
           then gmapM (normalizePruneRule now) (map canon (map pruneCondition (keptPruneRules d))) n else (Some [], n)) with
    | (Some rules, n') =>
        (Some (mkPruneObjects
                 (negb (bool_decide (d_logic d = js "OR") || negb (d_recursive d) || nonempty (keptPruneRules d)))
                 (trim (d_typeText d)) (d_logic d) (d_recursive d) rules), n')
    | (None, n') => (Some (mkPruneObjects true (trim (JSON_stringify (JObj (prunePayload d)))) (js "AND") true []), n')
    end.
Proof.
  intros Hl Ht Hr. pose proof (prunePayload_printable d Ht Hr) as Hp.
  pose proof (parse_trim _ _ (stringify_reads _ Hp)) as Hj. assert (NoDup (prunePayload d).*1) as Hn by by inversion Hp.
  unfold parsePruneObjectsDraft. cbv zeta. rewrite (parse_truthy _ _ Hj), Hj. cbn [negb canon].
  unfold gtry, gbind, glift, gret, pruneRules. rewrite !canon_get by done.
  unfold prunePayload at 1 2 3 4 5 6 7 8 9 10 11. obj_get. cbn [map_get]. rewrite !canon_if_value.
  assert (match (if truthy (trim (d_typeText d)) then Some (canon (JStr (trim (d_typeText d)))) else None) with
          | Some v => trim <$> String_of v | None => Some [] end = Some (trim (d_typeText d))) as ->.
  { destruct (trim (d_typeText d)) eqn:E; [done|]. cbn [truthy canon String_of fmap option_fmap option_map].
    by rewrite <- E, trim_idemp. }
  assert (String_of (js_or (if bool_decide (d_logic d = js "OR") then Some (canon (JStr (js "OR"))) else None)
    (JStr (js "AND"))) = Some (d_logic d)) as ->.
  { rewrite !elem_of_cons, elem_of_nil in Hl. destruct Hl as [-> | [-> | []]]; vm_compute; reflexivity. }
  assert ((if bool_decide (toUpperCase (d_logic d) = js "OR") then js "OR" else js "AND") = d_logic d) as ->.
  { rewrite !elem_of_cons, elem_of_nil in Hl. destruct Hl as [-> | [-> | []]]; vm_compute; reflexivity. }
  assert (List.filter isObjectLike (map canon (map pruneCondition (keptPruneRules d)))
          = map canon (map pruneCondition (keptPruneRules d))) as Hf.
  { apply List.forallb_filter_id, forallb_forall. intros v Hv. rewrite map_map in Hv. by apply in_map_iff in Hv as (r & <- & _). }
  unfold gbind, gret. destruct (bool_decide (d_logic d = js "OR")), (d_recursive d), (nonempty (keptPruneRules d));
    cbn [negb orb canon fmap option_fmap option_map is_false]; rewrite ?Hf; try done;
    by destruct (gmapM _ _ n) as [[rules|] n'].
Qed.

(** The draft of a prune rule after its text is built and parsed.  When it
    has a type or a condition with a path, these, the logic and the recursion
    come back; but the editor is in its advanced form then only if the logic is
    OR, the recursion is off or there is a condition.  Without a type and
    conditions the logic and the recursion fall back to their defaults. *)
Theorem prune_draft_reads_back d n :
  d_simpleMode d = false -> d_logic d ∈ [js "AND"; js "OR"] ->
  wf_str (d_typeText d) -> Forall condition_ok (d_rules d) ->
  exists rules n',
    map eraseCondition rules = omap savedCondition (d_rules d) /\
    parsePruneObjectsDraft now (buildPruneObjectsValueText d) n
    = (Some (if negb (truthy (trim (d_typeText d))) && negb (nonempty rules)
             then mkPruneObjects false [] (js "AND") true []
             else mkPruneObjects (negb (bool_decide (d_logic d = js "OR") || negb (d_recursive d) || nonempty rules))
                    (trim (d_typeText d)) (d_logic d) (d_recursive d) rules), n').
Proof.
  intros Hs Hl Ht Hr. rewrite build_prune by done.
  destruct (prune_rules_reopen (d_rules d) n Hr) as (rules & n' & Em & Es). fold (keptPruneRules d) in Em.
  pose proof (gmapM_length _ _ _ _ _ Em) as Hlen. rewrite !length_map in Hlen.
  assert (nonempty rules = nonempty (keptPruneRules d)) as Hne by (by destruct rules, (keptPruneRules d)).
  destruct (negb (truthy (trim (d_typeText d))) && negb (nonempty (keptPruneRules d))) eqn:E.
  { exists rules, n. split; [done|]. rewrite Hne, E. vm_compute. reflexivity. }
  exists rules, n'. split; [done|]. rewrite Hne, E, parse_prune_payload by done.
  destruct (keptPruneRules d) as [|r rs] eqn:Ek; [|cbn [nonempty]; by rewrite Em].
  cbn in Em. by injection Em as <- <-.
Qed.
End Prune.

Lemma error_draft_reads_back_witness :
  wf_str (js " too many ") /\
  parseReturnErrorDraft (buildReturnErrorValueText (mkReturnError (js " too many ") 42 (js "limit") [] false false))
  = mkReturnError (js "too many") 400 (js "limit") [] false false.
Proof.
  split; [closed_str|]. rewrite error_draft_reads_back; [vm_compute; reflexivity|closed_str|closed_str|closed_str|done].
Defined.

Definition samplePrune : PruneObjectsDraft :=
  mkPruneObjects false (js "thinking") (js "OR") true
    [mkCondition (js "a") (js " type ") (js "full") (js "x") false false; mkCondition (js "b") [] (js "full") [] false false].

Lemma prune_draft_reads_back_witness :
  d_logic samplePrune = js "OR" /\
  exists rules n', map c_path rules = [js "type"] /\
    parsePruneObjectsDraft (fun _ => 7) (buildPruneObjectsValueText samplePrune) 0%nat
    = (Some (mkPruneObjects false (js "thinking") (js "OR") true rules), n').
Proof.
  split; [done|].
  destruct (prune_draft_reads_back (fun _ => 7) samplePrune 0%nat) as (rules & n' & Hr & E); [done| | | |].
  - apply (bool_decide_unpack _). vm_compute. reflexivity.
  - closed_str.
  - apply Forall_cons. split; [|apply Forall_singleton]; split; closed_str.
  - exists rules, n'. assert (map c_path rules = [js "type"]) as Hp.
    { transitivity (map c_path (map eraseCondition rules)); [by rewrite map_map|]. rewrite Hr. vm_compute. reflexivity. }
    split; [exact Hp|]. rewrite E. destruct rules; [discriminate Hp|]. vm_compute. reflexivity.
Defined.

End ParamOverrideDrafts.
