(* ===== verification/ParamOverrideEditor.v ===== *)
(** * Channels: the editor of parameter overrides

    The component of [param-override-editor-dialog.tsx]: its state as one
    record, each callback as a function on it, the events of the controls that
    call them and the effect that keeps a rule selected.  A callback that throws,
    or whose control does not offer the value, is [None].  [toLower] is
    [toLowerCase], [t] the translation. *)

From S2P Require Import Prelude JsString JsCollections Json JsonText JsValue ParamOverride.
Import Json JsValue ParamOverride.

Module ParamOverrideEditor.

(** ** State *)

Record Drag := mkDrag {
  draggedOperationId : jsstr; dragOverOperationId : jsstr; dragOverPosition : Position }.

Definition noDrag : Drag := mkDrag [] [] Before.

Record Editor := mkEditor {
  editMode : EditMode;
  visualMode : VisualMode;
  legacyValue : jsstr;
  operations : list ParamOverrideOperation;
  jsonText : jsstr;
  jsonError : jsstr;
  operationSearch : jsstr;
  selectedOperationId : jsstr;
  expandedConditions : list (jsstr * bool);
  drag : Drag;
  templatePresetKey : jsstr;
  localIdSeed : nat;
  isOpen : bool;
  saved : option jsstr;   (* the text given to [onSave] *)
  toasts : list jsstr }.

(** The setters of the states. *)
Definition setEditMode (m : EditMode) (s : Editor) : Editor :=
  mkEditor m (visualMode s) (legacyValue s) (operations s) (jsonText s) (jsonError s) (operationSearch s)
    (selectedOperationId s) (expandedConditions s) (drag s) (templatePresetKey s) (localIdSeed s) (isOpen s) (saved s) (toasts s).
Definition setVisualMode (m : VisualMode) (s : Editor) : Editor :=
  mkEditor (editMode s) m (legacyValue s) (operations s) (jsonText s) (jsonError s) (operationSearch s)
    (selectedOperationId s) (expandedConditions s) (drag s) (templatePresetKey s) (localIdSeed s) (isOpen s) (saved s) (toasts s).
Definition setLegacyValue (x : jsstr) (s : Editor) : Editor :=
  mkEditor (editMode s) (visualMode s) x (operations s) (jsonText s) (jsonError s) (operationSearch s)
    (selectedOperationId s) (expandedConditions s) (drag s) (templatePresetKey s) (localIdSeed s) (isOpen s) (saved s) (toasts s).
Definition setOperations (ops : list ParamOverrideOperation) (s : Editor) : Editor :=
  mkEditor (editMode s) (visualMode s) (legacyValue s) ops (jsonText s) (jsonError s) (operationSearch s)
    (selectedOperationId s) (expandedConditions s) (drag s) (templatePresetKey s) (localIdSeed s) (isOpen s) (saved s) (toasts s).
Definition setJsonText (x : jsstr) (s : Editor) : Editor :=
  mkEditor (editMode s) (visualMode s) (legacyValue s) (operations s) x (jsonError s) (operationSearch s)
    (selectedOperationId s) (expandedConditions s) (drag s) (templatePresetKey s) (localIdSeed s) (isOpen s) (saved s) (toasts s).
Definition setJsonError (x : jsstr) (s : Editor) : Editor :=
  mkEditor (editMode s) (visualMode s) (legacyValue s) (operations s) (jsonText s) x (operationSearch s)
    (selectedOperationId s) (expandedConditions s) (drag s) (templatePresetKey s) (localIdSeed s) (isOpen s) (saved s) (toasts s).
Definition setOperationSearch (x : jsstr) (s : Editor) : Editor :=
  mkEditor (editMode s) (visualMode s) (legacyValue s) (operations s) (jsonText s) (jsonError s) x
    (selectedOperationId s) (expandedConditions s) (drag s) (templatePresetKey s) (localIdSeed s) (isOpen s) (saved s) (toasts s).
Definition setSelectedOperationId (x : jsstr) (s : Editor) : Editor :=
  mkEditor (editMode s) (visualMode s) (legacyValue s) (operations s) (jsonText s) (jsonError s) (operationSearch s)
    x (expandedConditions s) (drag s) (templatePresetKey s) (localIdSeed s) (isOpen s) (saved s) (toasts s).
Definition setExpandedConditions (x : list (jsstr * bool)) (s : Editor) : Editor :=
  mkEditor (editMode s) (visualMode s) (legacyValue s) (operations s) (jsonText s) (jsonError s) (operationSearch s)
    (selectedOperationId s) x (drag s) (templatePresetKey s) (localIdSeed s) (isOpen s) (saved s) (toasts s).
Definition setDrag (x : Drag) (s : Editor) : Editor :=
  mkEditor (editMode s) (visualMode s) (legacyValue s) (operations s) (jsonText s) (jsonError s) (operationSearch s)
    (selectedOperationId s) (expandedConditions s) x (templatePresetKey s) (localIdSeed s) (isOpen s) (saved s) (toasts s).
Definition setTemplatePresetKey (x : jsstr) (s : Editor) : Editor :=
  mkEditor (editMode s) (visualMode s) (legacyValue s) (operations s) (jsonText s) (jsonError s) (operationSearch s)
    (selectedOperationId s) (expandedConditions s) (drag s) x (localIdSeed s) (isOpen s) (saved s) (toasts s).
Definition setSeed (n : nat) (s : Editor) : Editor :=
  mkEditor (editMode s) (visualMode s) (legacyValue s) (operations s) (jsonText s) (jsonError s) (operationSearch s)
    (selectedOperationId s) (expandedConditions s) (drag s) (templatePresetKey s) n (isOpen s) (saved s) (toasts s).
Definition setIsOpen (b : bool) (s : Editor) : Editor :=
  mkEditor (editMode s) (visualMode s) (legacyValue s) (operations s) (jsonText s) (jsonError s) (operationSearch s)
    (selectedOperationId s) (expandedConditions s) (drag s) (templatePresetKey s) (localIdSeed s) b (saved s) (toasts s).
Definition onSave (x : jsstr) (s : Editor) : Editor :=
  mkEditor (editMode s) (visualMode s) (legacyValue s) (operations s) (jsonText s) (jsonError s) (operationSearch s)
    (selectedOperationId s) (expandedConditions s) (drag s) (templatePresetKey s) (localIdSeed s) (isOpen s) (Some x) (toasts s).
Definition toastError (x : jsstr) (s : Editor) : Editor :=
  mkEditor (editMode s) (visualMode s) (legacyValue s) (operations s) (jsonText s) (jsonError s) (operationSearch s)
    (selectedOperationId s) (expandedConditions s) (drag s) (templatePresetKey s) (localIdSeed s) (isOpen s) (saved s) (toasts s ++ [x]).

(** [ops[0]?.id || ''] *)
Definition firstId (ops : list ParamOverrideOperation) : jsstr := match ops with o :: _ => id o | [] => [] end.

Section Editor.
Variables (now : nat -> Z) (t : jsstr -> option Z -> jsstr) (typeError : jsstr) (toLower : jsstr -> jsstr).

#[local] Abbreviation say k := (t (js k) None).

(** Run a computation that makes ids. *)
Definition withIds {A} (c : G A) (k : A -> Editor -> Editor) (s : Editor) : option Editor :=
  match c (localIdSeed s) with (Some x, n) => Some (k x (setSeed n s)) | (None, _) => None end.

(** ** Effects *)

(** The states before the dialog is first opened. *)
Definition mounted : option Editor :=
  match createDefaultOperation now 0%nat with
  | (Some o, n) =>
      Some (mkEditor VisualEdit OperationsMode [] [o] [] [] [] [] [] noDrag (js "operations_default") n false None [])
  | (None, _) => None
  end.

(** The dialog opens, or its value changes while it is open. *)
Definition openDialog (value : jsstr) (s : Editor) : option Editor :=
  withIds (parseInitialState now value) (fun st s =>
    s |> setIsOpen true |> setEditMode (i_editMode st) |> setVisualMode (i_visualMode st)
      |> setLegacyValue (i_legacyValue st) |> setOperations (i_operations st) |> setJsonText (i_jsonText st)
      |> setJsonError (i_jsonError st) |> setOperationSearch [] |> setSelectedOperationId (firstId (i_operations st))
      |> setExpandedConditions [] |> setDrag noDrag
      |> setTemplatePresetKey (match i_visualMode st with LegacyMode => js "legacy_default"
                                                        | OperationsMode => js "operations_default" end)) s.

(** Keep [selectedOperationId] valid. *)
Definition keepSelection (s : Editor) : Editor :=
  match operations s with
  | [] => setSelectedOperationId [] s
  | o :: _ =>
      if existsb (hasId (selectedOperationId s)) (operations s) then s else setSelectedOperationId (id o) s
  end.

(** ** Derived values *)

Definition operationCount (s : Editor) : nat :=
  length (List.filter (fun o => negb (isOperationBlank o)) (operations s)).

Definition filteredOperations (s : Editor) : list ParamOverrideOperation :=
  let keyword := toLower (trim (operationSearch s)) in
  if negb (truthy keyword) then operations s
  else List.filter (fun op =>
    includes (toLower (join [32] (filter_truthy [description op; mode op; path op; from op; to op; value_text op])))
      keyword) (operations s).

Definition selectedOperation (s : Editor) : option ParamOverrideOperation :=
  snd <$> list_find (fun o => hasId (selectedOperationId s) o = true) (operations s).

Definition returnErrorDraft (s : Editor) : option ReturnErrorDraft :=
  match selectedOperation s with
  | Some o => if bool_decide (mode o = js "return_error") then Some (parseReturnErrorDraft (value_text o)) else None
  | None => None
  end.

(** Drawing the editor of prune rules gives its rules new ids. *)
Definition pruneObjectsDraft (s : Editor) : G (option PruneObjectsDraft) :=
  match selectedOperation s with
  | Some o =>
      if bool_decide (mode o = js "prune_objects") then
        let? draft := parsePruneObjectsDraft now (value_text o) in gret (Some draft)
      else gret None
  | None => gret None
  end.

Definition topOperationModes (s : Editor) : list (jsstr * Z) :=
  let counts := fold_left (fun counts op => map_update counts (modeOf (mode op)) 0 (fun n => n + 1)) (operations s) [] in
  take 4 (js_sort (fun a b => b.2 - a.2) (Object_entries counts)).

(** ** Rules *)

(** [prev.map((o) => (o.id === operationId ? f(o) : o))] *)
Definition onOperation (operationId : jsstr) (f : ParamOverrideOperation -> ParamOverrideOperation) (s : Editor) : Editor :=
  setOperations (map (fun o => if hasId operationId o then f o else o) (operations s)) s.

(** The patches the controls of a rule send. *)
Inductive OperationPatch :=
| PMode (m : jsstr) | PPath (x : jsstr) | PDescription (x : jsstr) | PValueText (x : jsstr)
| PKeepOrigin (b : bool) | PFrom (x : jsstr) | PTo (x : jsstr) | PEnds (f u : jsstr) | PLogic (l : jsstr).

Definition applyPatch (p : OperationPatch) (o : ParamOverrideOperation) : ParamOverrideOperation :=
  match p with
  | PMode m => mkOperation (id o) (description o) (path o) m (from o) (to o) (value_text o) (keep_origin o) (logic o) (conditions o)
  | PPath x => mkOperation (id o) (description o) x (mode o) (from o) (to o) (value_text o) (keep_origin o) (logic o) (conditions o)
  | PDescription x => mkOperation (id o) x (path o) (mode o) (from o) (to o) (value_text o) (keep_origin o) (logic o) (conditions o)
  | PValueText x => mkOperation (id o) (description o) (path o) (mode o) (from o) (to o) x (keep_origin o) (logic o) (conditions o)
  | PKeepOrigin b => mkOperation (id o) (description o) (path o) (mode o) (from o) (to o) (value_text o) b (logic o) (conditions o)
  | PFrom x => mkOperation (id o) (description o) (path o) (mode o) x (to o) (value_text o) (keep_origin o) (logic o) (conditions o)
  | PTo x => mkOperation (id o) (description o) (path o) (mode o) (from o) x (value_text o) (keep_origin o) (logic o) (conditions o)
  | PEnds f u => mkOperation (id o) (description o) (path o) (mode o) f u (value_text o) (keep_origin o) (logic o) (conditions o)
  | PLogic l => mkOperation (id o) (description o) (path o) (mode o) (from o) (to o) (value_text o) (keep_origin o) l (conditions o)
  end.

Definition updateOperation (operationId : jsstr) (patch : OperationPatch) (s : Editor) : Editor :=
  onOperation operationId (applyPatch patch) s.

(** The button that formats a value: nothing happens when it is no JSON. *)
Definition formatValue (operation : ParamOverrideOperation) (s : Editor) : Editor :=
  match JSON_parse (value_text operation) with
  | Some parsed => updateOperation (id operation) (PValueText (JsonText.JSON_pretty parsed)) s
  | None => s
  end.

Definition addOperation (s : Editor) : option Editor :=
  withIds (createDefaultOperation now) (fun created s =>
    s |> setOperations (operations s ++ [created]) |> setSelectedOperationId (id created)) s.

(** The value that is cloned; a text that reads as JSON becomes a value. *)
Definition cloneSource (source : ParamOverrideOperation) : json :=
  JObj [ (js "description", JStr (description source)); (js "path", JStr (path source)); (js "mode", JStr (mode source));
         (js "value", parseLooseValue (value_text source)); (js "keep_origin", JBool (keep_origin source));
         (js "from", JStr (from source)); (js "to", JStr (to source)); (js "logic", JStr (logic source));
         (js "conditions", JArr (map (fun c => JObj
           [ (js "path", JStr (c_path c)); (js "mode", JStr (c_mode c)); (js "value", parseLooseValue (c_value_text c));
             (js "invert", JBool (c_invert c)); (js "pass_missing_key", JBool (c_pass_missing_key c)) ])
           (conditions source))) ].

(** [eager] tells whether React has run the updater when the callback goes on. *)
Definition duplicateOperation (operationId : jsstr) (eager : bool) (s : Editor) : option Editor :=
  match list_find (fun o => hasId operationId o = true) (operations s) with
  | None => Some s
  | Some (idx, source) =>
      withIds (normalizeOperation now (cloneSource source)) (fun cloned s =>
        let s := setOperations (splice_in (S idx) cloned (operations s)) s in
        if eager && truthy (id cloned) then setSelectedOperationId (id cloned) s else s) s
  end.

Definition removeOperation (operationId : jsstr) (s : Editor) : option Editor :=
  match operations s with
  | _ :: _ :: _ => Some (setOperations (List.filter (fun o => negb (hasId operationId o)) (operations s)) s)
  | _ => withIds (createDefaultOperation now) (fun o s => setOperations [o] s) s
  end.

(** ** Conditions *)

Definition setConditions (cs : list ParamOverrideCondition) (o : ParamOverrideOperation) : ParamOverrideOperation :=
  mkOperation (id o) (description o) (path o) (mode o) (from o) (to o) (value_text o) (keep_origin o) (logic o) cs.

Definition addCondition (operationId : jsstr) (s : Editor) : option Editor :=
  withIds (createDefaultCondition now) (fun created s =>
    s |> onOperation operationId (fun op => setConditions (conditions op ++ [created]) op)
      |> setExpandedConditions (map_set (expandedConditions s) (c_id created) true)) s.

Inductive ConditionPatch :=
| CPath (x : jsstr) | CMode (m : jsstr) | CValueText (x : jsstr) | CInvert (b : bool) | CPassMissing (b : bool).

Definition patchCondition (p : ConditionPatch) (c : ParamOverrideCondition) : ParamOverrideCondition :=
  match p with
  | CPath x => mkCondition (c_id c) x (c_mode c) (c_value_text c) (c_invert c) (c_pass_missing_key c)
  | CMode m => mkCondition (c_id c) (c_path c) m (c_value_text c) (c_invert c) (c_pass_missing_key c)
  | CValueText x => mkCondition (c_id c) (c_path c) (c_mode c) x (c_invert c) (c_pass_missing_key c)
  | CInvert b => mkCondition (c_id c) (c_path c) (c_mode c) (c_value_text c) b (c_pass_missing_key c)
  | CPassMissing b => mkCondition (c_id c) (c_path c) (c_mode c) (c_value_text c) (c_invert c) b
  end.

Definition hasConditionId (i : jsstr) (c : ParamOverrideCondition) : bool := bool_decide (c_id c = i).

Definition updateCondition (operationId conditionId : jsstr) (patch : ConditionPatch) (s : Editor) : Editor :=
  onOperation operationId (fun op => setConditions
    (map (fun c => if hasConditionId conditionId c then patchCondition patch c else c) (conditions op)) op) s.

Definition removeCondition (operationId conditionId : jsstr) (s : Editor) : Editor :=
  onOperation operationId (fun op => setConditions
    (List.filter (fun c => negb (hasConditionId conditionId c)) (conditions op)) op) s.

(** Expand or collapse the conditions of the selected rule. *)
Definition setAllConditions (b : bool) (s : Editor) : Editor :=
  match selectedOperation s with
  | None => s
  | Some op =>
      setExpandedConditions (fold_left (fun m c => map_set m (c_id c) b) (conditions op) (expandedConditions s)) s
  end.

Definition expandAllConditions : Editor -> Editor := setAllConditions true.
Definition collapseAllConditions : Editor -> Editor := setAllConditions false.

Definition toggleCondition (conditionId : jsstr) (expanded : bool) (s : Editor) : Editor :=
  setExpandedConditions (map_set (expandedConditions s) conditionId expanded) s.

(** ** Drafts *)

(** [parseInt(s, 10)]: [None] is NaN. *)
Definition parseInt10 (s : jsstr) : option Z :=
  let s := trimStart s in
  let '(neg, s) :=
    match accept 45 s, accept 43 s with
    | Some s', _ => (true, s')
    | None, Some s' => (false, s')
    | None, None => (false, s)
    end in
  let ds := (take_digits s).1 in
  if truthy ds then Some (if neg then - parseDec ds else parseDec ds) else None.

(** The patches of the editor of errors: a text field, a switch, a preset. *)
Inductive ErrorPatch :=
| EMessage (x : jsstr) | EStatus (x : jsstr) | ECode (x : jsstr) | EType (x : jsstr)
| ESkipRetry (b : bool) | ESimple (b : bool) | EPreset (status : Z) (code type : jsstr).

(** [parseInt(text, 10) || 400] *)
Definition statusOfText (x : jsstr) : Z :=
  match parseInt10 x with Some n => if n =? 0 then 400 else n | None => 400 end.

Definition patchError (p : ErrorPatch) (d : ReturnErrorDraft) : ReturnErrorDraft :=
  match p with
  | EMessage x => mkReturnError x (r_statusCode d) (r_code d) (r_type d) (r_skipRetry d) (r_simpleMode d)
  | EStatus x => mkReturnError (r_message d) (statusOfText x) (r_code d) (r_type d) (r_skipRetry d) (r_simpleMode d)
  | ECode x => mkReturnError (r_message d) (r_statusCode d) x (r_type d) (r_skipRetry d) (r_simpleMode d)
  | EType x => mkReturnError (r_message d) (r_statusCode d) (r_code d) x (r_skipRetry d) (r_simpleMode d)
  | ESkipRetry b => mkReturnError (r_message d) (r_statusCode d) (r_code d) (r_type d) b (r_simpleMode d)
  | ESimple b => mkReturnError (r_message d) (r_statusCode d) (r_code d) (r_type d) (r_skipRetry d) b
  | EPreset n c y => mkReturnError (r_message d) n c y (r_skipRetry d) (r_simpleMode d)
  end.

Definition updateReturnErrorDraft (operationId : jsstr) (p : ErrorPatch) (s : Editor) : Editor :=
  onOperation operationId (fun op =>
    applyPatch (PValueText (buildReturnErrorValueText (patchError p (parseReturnErrorDraft (value_text op))))) op) s.

(** The updater may make ids itself. *)
Definition updatePruneObjectsDraft (operationId : jsstr) (updater : PruneObjectsDraft -> G PruneObjectsDraft) (s : Editor)
  : option Editor :=
  withIds (gmapM (fun op =>
    if hasId operationId op then
      let? draft := parsePruneObjectsDraft now (value_text op) in
      let? nextDraft := updater draft in
      gret (applyPatch (PValueText (buildPruneObjectsValueText nextDraft)) op)
    else gret op) (operations s)) setOperations s.

Inductive PrunePatch := DSimple (b : bool) | DType (x : jsstr) | DLogic (l : jsstr) | DRecursive (b : bool).

Definition patchPrune (p : PrunePatch) (d : PruneObjectsDraft) : PruneObjectsDraft :=
  match p with
  | DSimple b => mkPruneObjects b (d_typeText d) (d_logic d) (d_recursive d) (d_rules d)
  | DType x => mkPruneObjects (d_simpleMode d) x (d_logic d) (d_recursive d) (d_rules d)
  | DLogic l => mkPruneObjects (d_simpleMode d) (d_typeText d) l (d_recursive d) (d_rules d)
  | DRecursive b => mkPruneObjects (d_simpleMode d) (d_typeText d) (d_logic d) b (d_rules d)
  end.

Definition setRules (rules : list ParamOverrideCondition) (d : PruneObjectsDraft) : PruneObjectsDraft :=
  mkPruneObjects (d_simpleMode d) (d_typeText d) (d_logic d) (d_recursive d) rules.

Definition addPruneRule (operationId : jsstr) (s : Editor) : option Editor :=
  updatePruneObjectsDraft operationId (fun draft =>
    let? rule := normalizePruneRule now (JObj []) in
    gret (mkPruneObjects false (d_typeText draft) (d_logic draft) (d_recursive draft) (d_rules draft ++ [rule]))) s.

Definition updatePruneRule (operationId ruleId : jsstr) (patch : ConditionPatch) (s : Editor) : option Editor :=
  updatePruneObjectsDraft operationId (fun draft =>
    gret (setRules (map (fun r => if hasConditionId ruleId r then patchCondition patch r else r) (d_rules draft)) draft)) s.

Definition removePruneRule (operationId ruleId : jsstr) (s : Editor) : option Editor :=
  updatePruneObjectsDraft operationId (fun draft =>
    gret (setRules (List.filter (fun r => negb (hasConditionId ruleId r)) (d_rules draft)) draft)) s.

(** ** Drag and drop *)

Definition resetDragState (s : Editor) : Editor := setDrag noDrag s.

Definition handleDragStart (operationId : jsstr) (s : Editor) : Editor :=
  s |> setDrag (mkDrag operationId (dragOverOperationId (drag s)) (dragOverPosition (drag s)))
    |> setSelectedOperationId operationId.

(** [position] comes from the pointer and the rectangle of the row. *)
Definition handleDragOver (operationId : jsstr) (position : Position) (s : Editor) : Editor :=
  let dragged := draggedOperationId (drag s) in
  if negb (truthy dragged) || bool_decide (dragged = operationId) then s
  else setDrag (mkDrag dragged operationId position) s.

(** [data] is the text of the transfer. *)
Definition handleDrop (operationId data : jsstr) (s : Editor) : Editor :=
  let sourceId := if truthy (draggedOperationId (drag s)) then draggedOperationId (drag s) else data in
  let position :=
    if bool_decide (dragOverOperationId (drag s) = operationId) then dragOverPosition (drag s) else Before in
  let s :=
    if truthy sourceId && truthy operationId && negb (bool_decide (sourceId = operationId)) then
      s |> setOperations (reorderOperations (operations s) sourceId operationId position)
        |> setSelectedOperationId sourceId
    else s in
  resetDragState s.

(** ** Modes and templates *)

Definition buildVisualJson (s : Editor) : Built :=
  match visualMode s with
  | LegacyMode =>
      let trimmed := trim (legacyValue s) in
      if negb (truthy trimmed) then Text []
      else
        match JSON_parse trimmed with
        | None => Failed (say "Parameter override must be valid JSON format")
        | Some (JObj fields) => Text (JsonText.JSON_pretty (JObj fields))
        | Some _ => Failed (say "Legacy format must be a JSON object")
        end
  | OperationsMode => buildOperationsJson t typeError (operations s) true
  end.

Definition switchToJsonMode (s : Editor) : Editor :=
  match editMode s with
  | JsonEdit => s
  | VisualEdit =>
      let s :=
        match buildVisualJson s with
        | Text x => s |> setJsonText x |> setJsonError []
        | Failed message =>
            let x :=
              match visualMode s with
              | LegacyMode => legacyValue s
              | OperationsMode =>
                  match buildOperationsJson t typeError (operations s) false with Text x => x | Failed _ => [] end
              end in
            s |> toastError message |> setJsonText x
              |> setJsonError (if truthy message then message else say "Parameter configuration error")
        end in
      setEditMode JsonEdit s
  end.

(** [setOperations(ops); setSelectedOperationId(ops[0]?.id || '')] *)
Definition showOperations (ops : list ParamOverrideOperation) (s : Editor) : Editor :=
  s |> setOperations ops |> setSelectedOperationId (firstId ops).

Definition switchToVisualMode (s : Editor) : option Editor :=
  match editMode s with
  | VisualEdit => Some s
  | JsonEdit =>
      let trimmed := trim (jsonText s) in
      if negb (truthy trimmed) then
        withIds (createDefaultOperation now) (fun fallback s =>
          s |> setVisualMode OperationsMode |> showOperations [fallback] |> setLegacyValue [] |> setJsonError []
            |> setEditMode VisualEdit) s
      else
        match JSON_parse trimmed with
        | None => Some (toastError (say "Parameter override must be valid JSON format") s)
        | Some (JObj fields) =>
            match map_get fields (js "operations") with
            | Some (JArr ops) =>
                withIds (loadOperations now ops) (fun nextOps s =>
                  s |> setVisualMode OperationsMode |> showOperations nextOps |> setLegacyValue [] |> setJsonError []
                    |> setEditMode VisualEdit |> setTemplatePresetKey (js "operations_default")) s
            | _ =>
                withIds (createDefaultOperation now) (fun fallback s =>
                  s |> setVisualMode LegacyMode |> setLegacyValue (JsonText.JSON_pretty (JObj fields))
                    |> showOperations [fallback] |> setJsonError [] |> setEditMode VisualEdit
                    |> setTemplatePresetKey (js "legacy_default")) s
            end
        | Some _ => Some (toastError (say "Parameter override must be a valid JSON object") s)
        end
  end.

Inductive FillMode := Fill | Append.

Definition isAppend (m : FillMode) : bool := match m with Append => true | Fill => false end.

Definition presetOf (key : jsstr) : TemplatePresetConfig :=
  match map_get TEMPLATE_PRESET_CONFIG key with
  | Some p => p
  | None => mkPreset (js "New Format Template") KOperations OPERATION_TEMPLATE
  end.

(** The statements both branches of the legacy template end with. *)
Definition showLegacy (x : jsstr) (s : Editor) : option Editor :=
  withIds (createDefaultOperation now) (fun o s =>
    s |> setVisualMode LegacyMode |> setLegacyValue x |> setOperations [o] |> setJsonText x |> setJsonError []
      |> setEditMode VisualEdit) s.

Definition fillLegacy (m : FillMode) (payload : json) (s : Editor) : option Editor :=
  match m, visualMode s with
  | Append, LegacyMode =>
      let trimmed := trim (legacyValue s) in
      let merge current := showLegacy (JsonText.JSON_pretty (JObj (spread_onto (own_entries payload) current))) s in
      if negb (truthy trimmed) then merge []
      else
        match JSON_parse trimmed with
        | None => Some (toastError (say "Current legacy JSON is invalid, cannot append") s)
        | Some parsedCurrent => merge (own_entries parsedCurrent)
        end
  | _, _ => showLegacy (JsonText.JSON_pretty payload) s
  end.

Definition operationsPayload (payload : json) : list json :=
  match prop payload (js "operations") with Some (JArr l) => l | _ => [] end.

Definition fillOperations (m : FillMode) (payload : list json) (s : Editor) : option Editor :=
  match m with
  | Append =>
      withIds (gmapM (normalizeOperation now) payload) (fun appended s =>
        let existing :=
          match visualMode s with
          | OperationsMode => List.filter (fun o => negb (isOperationBlank o)) (operations s)
          | LegacyMode => []
          end in
        let nextOps := existing ++ appended in
        s |> setVisualMode OperationsMode |> showOperations nextOps |> setLegacyValue [] |> setJsonError []
          |> setEditMode VisualEdit |> setJsonText []) s
  | Fill =>
      withIds (loadOperations now payload) (fun finalOps s =>
        s |> setVisualMode OperationsMode |> showOperations finalOps
          |> setJsonText (JsonText.JSON_pretty (JObj [(js "operations", JArr payload)])) |> setJsonError []
          |> setEditMode VisualEdit) s
  end.

Definition fillTemplate (m : FillMode) (s : Editor) : option Editor :=
  let preset := presetOf (templatePresetKey s) in
  match p_kind preset with
  | KLegacy => fillLegacy m (p_payload preset) s
  | KOperations => fillOperations m (operationsPayload (p_payload preset)) s
  end.

Definition resetEditorState (s : Editor) : option Editor :=
  withIds (createDefaultOperation now) (fun fallback s =>
    s |> setVisualMode OperationsMode |> setLegacyValue [] |> showOperations [fallback] |> setJsonText []
      |> setJsonError [] |> setTemplatePresetKey (js "operations_default") |> setEditMode VisualEdit) s.

(** ** The text *)

Definition handleJsonChange (nextValue : jsstr) (s : Editor) : Editor :=
  let s := setJsonText nextValue s in
  let trimmed := trim nextValue in
  if negb (truthy trimmed) then setJsonError [] s
  else setJsonError (if verifyJSON trimmed then [] else say "JSON format error") s.

Definition formatJson (s : Editor) : Editor :=
  let trimmed := trim (jsonText s) in
  if negb (truthy trimmed) then s
  else
    match JSON_parse trimmed with
    | None => toastError (say "Parameter override must be valid JSON format") s
    | Some parsed => s |> setJsonText (JsonText.JSON_pretty parsed) |> setJsonError []
    end.

Definition visualValidationError (s : Editor) : jsstr :=
  match editMode s with
  | JsonEdit => []
  | VisualEdit =>
      match buildVisualJson s with
      | Text _ => []
      | Failed message => if truthy message then message else say "Parameter configuration error"
      end
  end.

(** What is saved, or the error. *)
Definition saveResult (s : Editor) : Built :=
  match editMode s with
  | JsonEdit =>
      let trimmed := trim (jsonText s) in
      if negb (truthy trimmed) then Text []
      else
        match JSON_parse trimmed with
        | None => Failed (say "Parameter override must be valid JSON format")
        | Some parsed => Text (JsonText.JSON_pretty parsed)
        end
  | VisualEdit => buildVisualJson s
  end.

Definition handleSave (s : Editor) : Editor :=
  match saveResult s with
  | Text result => s |> onSave result |> setIsOpen false
  | Failed message => toastError message s
  end.

(** ** Events *)

Inductive Event :=
| Draw
| Open (value : jsstr)
| Cancel
| SelectOperation (i : jsstr)
| Search (x : jsstr)
| UpdateOperation (i : jsstr) (p : OperationPatch)
| FormatValue
| AddOperation
| DuplicateOperation (i : jsstr) (eager : bool)
| RemoveOperation (i : jsstr)
| AddCondition (i : jsstr)
| UpdateCondition (i c : jsstr) (p : ConditionPatch)
| RemoveCondition (i c : jsstr)
| ToggleCondition (c : jsstr) (expanded : bool)
| ExpandAll
| CollapseAll
| UpdateError (i : jsstr) (p : ErrorPatch)
| UpdatePrune (i : jsstr) (p : PrunePatch)
| AddPruneRule (i : jsstr)
| UpdatePruneRule (i r : jsstr) (p : ConditionPatch)
| RemovePruneRule (i r : jsstr)
| DragStart (i : jsstr)
| DragOver (i : jsstr) (p : Position)
| Drop (i data : jsstr)
| DragEnd
| ChangeLegacy (x : jsstr)
| SwitchToVisual
| SwitchToJson
| SelectTemplate (key : option jsstr)
| FillTemplate (m : FillMode)
| Reset
| JsonChange (x : jsstr)
| FormatJson
| Save.

(** A select offers its options only. *)
Definition offered (p : OperationPatch) : bool :=
  match p with
  | PMode m => bool_decide (m ∈ OPERATION_MODE_VALUES)
  | PLogic l => bool_decide (l ∈ [js "OR"; js "AND"])
  | _ => true
  end.

Definition offeredCondition (p : ConditionPatch) : bool :=
  match p with CMode m => bool_decide (m ∈ CONDITION_MODE_VALUES) | _ => true end.

Definition guard (b : bool) (s : option Editor) : option Editor := if b then s else None.

Definition handle (s : Editor) (e : Event) : option Editor :=
  match e with
  | Draw => withIds (pruneObjectsDraft s) (fun _ s => s) s
  | Open v => openDialog v s
  | Cancel => Some (setIsOpen false s)
  | SelectOperation i => Some (setSelectedOperationId i s)
  | Search x => Some (setOperationSearch x s)
  | UpdateOperation i p => guard (offered p) (Some (updateOperation i p s))
  | FormatValue => match selectedOperation s with Some o => Some (formatValue o s) | None => None end
  | AddOperation => addOperation s
  | DuplicateOperation i eager => duplicateOperation i eager s
  | RemoveOperation i => removeOperation i s
  | AddCondition i => addCondition i s
  | UpdateCondition i c p => guard (offeredCondition p) (Some (updateCondition i c p s))
  | RemoveCondition i c => Some (removeCondition i c s)
  | ToggleCondition c b => Some (toggleCondition c b s)
  | ExpandAll => Some (expandAllConditions s)
  | CollapseAll => Some (collapseAllConditions s)
  | UpdateError i p => Some (updateReturnErrorDraft i p s)
  | UpdatePrune i p => updatePruneObjectsDraft i (fun d => gret (patchPrune p d)) s
  | AddPruneRule i => addPruneRule i s
  | UpdatePruneRule i r p => updatePruneRule i r p s
  | RemovePruneRule i r => removePruneRule i r s
  | DragStart i => Some (handleDragStart i s)
  | DragOver i p => Some (handleDragOver i p s)
  | Drop i data => Some (handleDrop i data s)
  | DragEnd => Some (resetDragState s)
  | ChangeLegacy x => Some (setLegacyValue x s)
  | SwitchToVisual => switchToVisualMode s
  | SwitchToJson => Some (switchToJsonMode s)
  | SelectTemplate key =>
      Some (setTemplatePresetKey
              (match key with Some k => if truthy k then k else js "operations_default" | None => js "operations_default" end) s)
  | FillTemplate m => fillTemplate m s
  | Reset => resetEditorState s
  | JsonChange x => Some (handleJsonChange x s)
  | FormatJson => Some (formatJson s)
  | Save => Some (handleSave s)
  end.

(** An event and the effect that follows it. *)
Definition step (s : Editor) (e : Event) : option Editor := keepSelection <$> handle s e.

Inductive reachable : Editor -> Prop :=
| reach_mounted s : mounted = Some s -> reachable (keepSelection s)
| reach_step s e s' : reachable s -> step s e = Some s' -> reachable s'.

End Editor.
End ParamOverrideEditor.
