(* ===== verification/ParamOverrideInvariant.v ===== *)
(** * Channels: the editor of parameter overrides, its invariant

    Fresh ids are new, loaded rules fit the tables, and what the callbacks do to
    a list of rules keeps it non-empty, with distinct ids and with the values
    that the controls offer. *)

From S2P Require Import Prelude JsString JsCollections Json JsonNumber JsonText JsonLocal JsValue JsonCanon ParamOverride ParamOverrideFacts ParamOverrideProperties ParamOverrideDrafts ParamOverrideEditor.
Import Json JsonText JsValue JsonCanon ParamOverride ParamOverrideFacts ParamOverrideProperties ParamOverrideDrafts ParamOverrideEditor.

Module ParamOverrideInvariant.

Section Invariant.
Variable now : nat -> Z.
#[local] Abbreviation localId := (localId now).

(** ** Ids *)

Lemma showZ_no_bar z : 95 ∉ showZ z.
Proof.
  intros H. unfold showZ in H. assert (forall n, 0 <= n -> 95 ∉ showZ n) as Hd.
  { intros n Hn Hin. pose proof (showZ_digits n Hn) as F. rewrite Forall_forall in F. by apply F in Hin. }
  unfold showZ in Hd. destruct (z <? 0) eqn:E; bool_hyps.
  - apply elem_of_cons in H as [H|H]; [done|]. specialize (Hd (- z) ltac:(lia)).
    replace (- z <? 0) with false in Hd by lia. done.
  - specialize (Hd z ltac:(lia)). by replace (z <? 0) with false in Hd by lia.
Qed.

Lemma localId_inj n m : localId n = localId m -> n = m.
Proof.
  assert (forall k, split 95 (localId k) = [js "po"; showZ (now k); showZ (Z.of_nat k)]) as Hs.
  { intros k. unfold ParamOverride.localId. change (js "po_" ++ ?x) with (js "po" ++ 95 :: x).
    change (js "_" ++ ?x) with (95 :: x).
    rewrite split_app_sep by closed_str. rewrite split_app_sep by apply showZ_no_bar.
    by rewrite split_no_sep by apply showZ_no_bar. }
  intros E. apply (f_equal (split 95)) in E. rewrite !Hs in E. injection E as _ E. apply showZ_inj in E; lia.
Qed.

Lemma localId_truthy n : truthy (localId n) = true.
Proof. done. Qed.

(** The id was made while the counter went from [n] to [n']. *)
Definition between (n n' : nat) (i : jsstr) : Prop := exists k, (n <= k < n')%nat /\ i = localId k.
Definition made (n : nat) : jsstr -> Prop := between 0 n.

Lemma between_mono n n' m m' i : (m <= n)%nat -> (n' <= m')%nat -> between n n' i -> between m m' i.
Proof. intros ? ? (k & ? & ->). exists k. split; [lia|done]. Qed.

Lemma between_fresh n n' i j : made n i -> between n n' j -> i <> j.
Proof. intros (k & Hk & ->) (k' & Hk' & ->) E%localId_inj. lia. Qed.

(** ** Loaded rules *)

(** The ids of a rule are new and distinct. *)
Record fresh_rule (n n' : nat) (o : ParamOverrideOperation) : Prop := {
  fr_id : id o = localId n;
  fr_less : (n < n')%nat;
  fr_nodup : NoDup (map c_id (conditions o));
  fr_conditions : Forall (fun c => between (S n) n' (c_id c)) (conditions o) }.

Lemma toValueText_wf v : (forall x, v = Some x -> printable x) -> wf_str (toValueText v).
Proof.
  intros H. destruct v as [v|]; [|constructor]. specialize (H v eq_refl). cbn [toValueText].
  pose proof (stringify_wf v H). destruct v; try done. by inversion H.
Qed.

Lemma string_or_empty_wf v : (forall x, v = Some x -> printable x) -> wf_str (string_or_empty v).
Proof. intros H. destruct v as [[]|]; cbn; try constructor. specialize (H _ eq_refl). by inversion H. Qed.

Lemma known_or_in l v d : d ∈ l -> known_or l v d ∈ l.
Proof. intros Hd. destruct v as [[]|]; cbn; try done. case_match; bool_hyps; done. Qed.

Lemma readProp_object v : v = JNull \/ forall k, readProp v k = Some (prop v (js k)).
Proof. destruct v; [by left|right; done..]. Qed.

Lemma normalizeCondition_ok v n c n' :
  normalizeCondition now v n = (Some c, n') -> n' = S n /\ c_id c = localId n /\ (printable v -> condition_ok c).
Proof.
  unfold normalizeCondition, gbind, nextLocalId, glift. destruct (readProp_object v) as [->|Hr]; [done|].
  rewrite !Hr. cbn [mbind option_bind]. intros [= <- <-]. split_and!; [done|done|]. intros Hp.
  assert (forall k x, prop v k = Some x -> printable x) by (intros; by eapply printable_prop).
  split; cbn [c_mode c_path c_value_text]; eauto using string_or_empty_wf, toValueText_wf.
  apply known_or_in. closed_str.
Qed.

Lemma gmapM_conditions vs n cs n' :
  gmapM (normalizeCondition now) vs n = (Some cs, n') ->
  (n <= n')%nat /\ NoDup (map c_id cs) /\ Forall (fun c => between n n' (c_id c)) cs /\
  (Forall printable vs -> Forall condition_ok cs).
Proof.
  revert n cs n'. induction vs as [|v vs IH]; intros n cs n'; cbn [gmapM].
  { intros [= <- <-]. split_and!; [lia|constructor|constructor|constructor]. }
  unfold gbind, gret. destruct (normalizeCondition now v n) as [[c|] n1] eqn:E; [|done].
  destruct (gmapM _ vs n1) as [[cs'|] n2] eqn:E2; [|done]. intros [= <- <-].
  apply normalizeCondition_ok in E as (-> & Hi & Hok). destruct (IH _ _ _ E2) as (Hle & Hn & Hb & Hoks).
  split_and!; [lia| | |].
  - cbn [map]. constructor; [|done]. intros Hin. apply list_elem_of_In, in_map_iff in Hin as (c' & E & Hc'%list_elem_of_In).
    rewrite Forall_forall in Hb. destruct (Hb c' Hc') as (k & Hk & E'). rewrite E, Hi in E'. apply localId_inj in E'. lia.
  - constructor; [exists n; split; [lia|done]|]. eapply Forall_impl; [exact Hb|]. intros c'. apply between_mono; lia.
  - intros [Hv Hvs]%Forall_cons. constructor; auto.
Qed.

Lemma normalizeLogic_in v l : normalizeLogic v = Some l -> l ∈ [js "OR"; js "AND"].
Proof. unfold normalizeLogic. destruct (String_of _); [|done]. intros [= <-]. case_match; set_solver. Qed.

Lemma normalizeOperation_ok v n o n' :
  normalizeOperation now v n = (Some o, n') -> fresh_rule n n' o /\ (printable v -> operation_ok o).
Proof.
  unfold normalizeOperation, gbind at 1, nextLocalId. unfold gbind, glift, gret.
  destruct (readProp_object v) as [->|Hr]; [done|]. rewrite !Hr. cbn [mbind option_bind]. destruct (normalizeLogic _) as [l|] eqn:El; [|done].
  apply normalizeLogic_in in El.
  set (cs := match prop v (js "conditions") with Some (JArr l) => _ | _ => _ end).
  destruct (cs (S n)) as [[cs'|] n2] eqn:Ec; [|done]. intros [= <- <-].
  assert ((S n <= n2)%nat /\ NoDup (map c_id cs') /\ Forall (fun c => between (S n) n2 (c_id c)) cs' /\
    (printable v -> Forall condition_ok cs')) as (Hle & Hn & Hb & Hok).
  { assert (gret (A := list ParamOverrideCondition) [] (S n) = (Some cs', n2) -> (S n <= n2)%nat /\ NoDup (map c_id cs') /\
      Forall (fun c => between (S n) n2 (c_id c)) cs' /\ (printable v -> Forall condition_ok cs')) as Hnil
      by (intros [= <- <-]; split_and!; [lia|constructor|constructor|constructor]).
    subst cs. destruct (prop v (js "conditions")) as [[]|] eqn:Ep; try by apply Hnil.
    apply gmapM_conditions in Ec as (? & ? & ? & Hok). split_and!; [done..|]. intros Hv. apply Hok.
    eapply printable_prop in Ep; [|done]. by inversion Ep. }
  split; [by split; [| lia| |]|]. intros Hv. assert (forall k x, prop v k = Some x -> printable x) as Hp by (intros; by eapply printable_prop).
  split; cbn [mode logic description path from to value_text conditions]; eauto using string_or_empty_wf, toValueText_wf.
  apply known_or_in. closed_str.
Qed.

(** ** Lists of rules *)

Record rule_ok (n : nat) (o : ParamOverrideOperation) : Prop := {
  ro_id : made n (id o);
  ro_nodup : NoDup (map c_id (conditions o));
  ro_conditions : Forall (fun c => made n (c_id c)) (conditions o);
  ro_ok : operation_ok o }.

(** What every list of rules in the editor is. *)
Record rules_ok (n : nat) (ops : list ParamOverrideOperation) : Prop := {
  rs_nonempty : ops <> [];
  rs_nodup : NoDup (map id ops);
  rs_rules : Forall (rule_ok n) ops }.

(** Rules made while the counter went from [n] to [n']. *)
Record new_rules (n n' : nat) (ops : list ParamOverrideOperation) : Prop := {
  nr_le : (n <= n')%nat;
  nr_nodup : NoDup (map id ops);
  nr_ids : Forall (fun o => between n n' (id o)) ops;
  nr_rules : Forall (rule_ok n') ops }.

Lemma rule_ok_mono n n' o : (n <= n')%nat -> rule_ok n o -> rule_ok n' o.
Proof.
  intros Hn [Hi Hd Hc Ho]. split; [by eapply between_mono; [| |exact Hi]; lia|done| |done].
  eapply Forall_impl; [exact Hc|]. intros c. apply between_mono; lia.
Qed.

Lemma rules_ok_mono n n' ops : (n <= n')%nat -> rules_ok n ops -> rules_ok n' ops.
Proof.
  intros Hn [Hne Hd Hr]. split; [done|done|]. eapply Forall_impl; [exact Hr|]. intros o. by apply rule_ok_mono.
Qed.

Lemma new_rules_nil n : new_rules n n [].
Proof. split; [lia|constructor|constructor|constructor]. Qed.

Lemma new_rules_cons n n1 n2 o ops :
  fresh_rule n n1 o -> operation_ok o -> new_rules n1 n2 ops -> new_rules n n2 (o :: ops).
Proof.
  intros [Hi Hl Hd Hc] Ho [Hle Hn Hb Hr]. split; [lia| | |].
  - cbn [map]. constructor; [|done]. intros Hin. apply list_elem_of_In, in_map_iff in Hin as (o' & E & Ho'%list_elem_of_In).
    rewrite Forall_forall in Hb. destruct (Hb o' Ho') as (k & Hk & E'). rewrite E, Hi in E'. apply localId_inj in E'. lia.
  - constructor; [exists n; split; [lia|done]|]. eapply Forall_impl; [exact Hb|]. intros o'. apply between_mono; lia.
  - constructor; [|done]. split; [exists n; split; [lia|done]|done| |done].
    eapply Forall_impl; [exact Hc|]. intros c. apply between_mono; lia.
Qed.

Lemma gmapM_operations vs n ops n' :
  gmapM (normalizeOperation now) vs n = (Some ops, n') -> Forall printable vs -> new_rules n n' ops.
Proof.
  revert n ops n'. induction vs as [|v vs IH]; intros n ops n'; cbn [gmapM].
  { intros [= <- <-] _. apply new_rules_nil. }
  unfold gbind, gret. destruct (normalizeOperation now v n) as [[o|] n1] eqn:E; [|done].
  destruct (gmapM _ vs n1) as [[os|] n2] eqn:E2; [|done]. intros [= <- <-] [Hv Hvs]%Forall_cons.
  apply normalizeOperation_ok in E as [Hf Hok]. eapply new_rules_cons; eauto.
Qed.

Lemma gmapM_nonempty {A B} (f : A -> G B) vs n ys n' : gmapM f vs n = (Some ys, n') -> vs <> [] -> ys <> [].
Proof. intros H%gmapM_length Hne. by destruct ys, vs. Qed.

Lemma new_rules_ok n n' ops : new_rules n n' ops -> ops <> [] -> rules_ok n' ops.
Proof. intros [_ Hd _ Hr] Hne. by split. Qed.

(** New rules after old ones. *)
Lemma rules_app n n' ops new :
  NoDup (map id ops) -> Forall (rule_ok n) ops -> new_rules n n' new -> ops ++ new <> [] -> rules_ok n' (ops ++ new).
Proof.
  intros Hd Hr [Hle Hn Hb Hnr] Hne. split; [done| |].
  - rewrite map_app. apply NoDup_app. split_and!; [done| |done]. intros i Hi Hj.
    apply list_elem_of_In, in_map_iff in Hi as (o & <- & Ho%list_elem_of_In).
    apply list_elem_of_In, in_map_iff in Hj as (o' & E & Ho'%list_elem_of_In). rewrite Forall_forall in Hr, Hb.
    eapply (between_fresh n n' (id o) (id o')); [apply Hr, Ho|by apply Hb|done].
  - apply Forall_app. split; [|done]. eapply Forall_impl; [exact Hr|]. intros o. by apply rule_ok_mono.
Qed.

Lemma default_operation n : exists o, createDefaultOperation now n = (Some o, S n) /\ new_rules n (S n) [o].
Proof.
  destruct (createDefaultOperation now n) as [[o|] n1] eqn:E; [|by vm_compute in E].
  assert (n1 = S n) as -> by (unfold createDefaultOperation in E; vm_compute in E; by injection E). exists o. split; [done|].
  unfold createDefaultOperation in E. apply normalizeOperation_ok in E as [Hf Hok].
  eapply new_rules_cons; [exact Hf| |apply new_rules_nil]. apply Hok.
  constructor; [closed_nodup|closed_str|]. apply Forall_cons. split; [constructor; closed_str|constructor].
Qed.

Lemma load_operations vs n ops n' :
  loadOperations now vs n = (Some ops, n') -> Forall printable vs -> new_rules n n' ops /\ ops <> [].
Proof.
  unfold loadOperations. destruct vs as [|v vs].
  - unfold gbind, gret. destruct (default_operation n) as (o & -> & Ho). by intros [= <- <-].
  - intros E Hp. split; [by eapply gmapM_operations|]. by eapply gmapM_nonempty.
Qed.

(** A change that keeps the id of every rule. *)
Lemma rules_map n (f : ParamOverrideOperation -> ParamOverrideOperation) ops :
  (forall o, rule_ok n o -> rule_ok n (f o) /\ id (f o) = id o) -> rules_ok n ops -> rules_ok n (map f ops).
Proof.
  intros Hf [Hne Hd Hr]. split; [by destruct ops| |].
  - rewrite map_map. rewrite (map_ext_in _ id); [done|]. intros o Ho%list_elem_of_In. rewrite Forall_forall in Hr. by apply Hf, Hr.
  - apply Forall_forall. intros o' Ho'. apply list_elem_of_In, in_map_iff in Ho' as (o & <- & Ho%list_elem_of_In).
    rewrite Forall_forall in Hr. by apply Hf, Hr.
Qed.

Lemma rules_on n i (f : ParamOverrideOperation -> ParamOverrideOperation) ops :
  (forall o, rule_ok n o -> rule_ok n (f o) /\ id (f o) = id o) -> rules_ok n ops ->
  rules_ok n (map (fun o => if hasId i o then f o else o) ops).
Proof. intros Hf. apply rules_map. intros o Ho. case_match; [by apply Hf|done]. Qed.

(** Some of the rules, in any order. *)
Lemma rules_perm n ops ops' : ops' ≡ₚ ops -> rules_ok n ops -> rules_ok n ops'.
Proof.
  intros Hp [Hne Hd Hr]. split.
  - intros ->. by apply Permutation_nil_l in Hp.
  - by rewrite (Permutation_map id Hp).
  - by rewrite Hp.
Qed.

(** Of two or more rules one is left. *)
Lemma rules_remove n i ops :
  (2 <= length ops)%nat -> rules_ok n ops -> rules_ok n (List.filter (fun o => negb (hasId i o)) ops).
Proof.
  intros Hl [Hne Hd Hr]. split; [|by apply filter_map_nodup|by apply filter_Forall].
  destruct ops as [|a [|b ops]]; cbn in Hl; try lia. intros E.
  assert (forall o, o ∈ a :: b :: ops -> id o = i) as Hall.
  { intros o Ho. destruct (hasId i o) eqn:Eh; [by unfold hasId in Eh; bool_hyps|].
    assert (In o []) as []. rewrite <- E. apply List.filter_In. split; [by apply list_elem_of_In|by rewrite Eh]. }
  cbn [map] in Hd. apply NoDup_cons in Hd as [Hd _]. apply Hd. rewrite (Hall a), <- (Hall b) by set_solver. left.
Qed.

(** ** Moving a rule *)

Lemma splice_perm {A} i (x : A) l : splice_in i x l ≡ₚ x :: l.
Proof. unfold splice_in. rewrite <- Permutation_middle. by rewrite take_drop. Qed.

Lemma reorder_perm ops src tgt pos : reorderOperations ops src tgt pos ≡ₚ ops.
Proof.
  unfold reorderOperations. case_match; [done|]. destruct (list_find _ ops) as [[i o]|] eqn:E; [|done].
  apply list_find_Some in E as (Hi & _). case_match; [|done]. rewrite splice_perm. symmetry. by apply delete_Permutation.
Qed.

(** ** Texts of drafts *)

Lemma mapM_Forall_wf (f : json -> option jsstr) l ss :
  Forall (fun x => forall s, f x = Some s -> wf_str s) l -> mapM f l = Some ss -> Forall wf_str ss.
Proof.
  revert ss. induction l as [|x l IH]; intros ss; cbn [mapM].
  { intros _ [= <-]. constructor. }
  intros [Hx Hl]%Forall_cons. destruct (f x) as [s|] eqn:E; [|done]. cbn.
  destruct (mapM f l) as [ss'|]; [|done]. cbn. intros [= <-]. constructor; [by apply Hx|by apply IH].
Qed.

Lemma String_of_wf v s : printable v -> String_of v = Some s -> wf_str s.
Proof.
  revert s. induction v as [|b|n|x|l IH|fs IH] using json_induction; intros s Hp; cbn [String_of].
  - intros [= <-]. closed_str.
  - destruct b; intros [= <-]; closed_str.
  - intros [= <-]. apply num_text_wf.
  - intros [= <-]. by inversion Hp.
  - destruct (mapM _ l) as [ss|] eqn:E; [|done]. intros [= <-]. apply join_wf; [closed_str|].
    eapply mapM_Forall_wf; [|exact E]. inversion Hp as [| | | |? Hl|]; subst. rewrite Forall_forall in *.
    intros x Hx s. specialize (IH x Hx). specialize (Hl x Hx). destruct x; try (intros; by eapply IH).
    intros [= <-]. constructor.
  - case_match; [done|]. intros [= <-]. closed_str.
Qed.

Lemma js_or_printable a b :
  (forall v, a = Some v -> printable v) -> printable b -> printable (js_or a b).
Proof. intros Ha Hb. unfold js_or. destruct a as [v|]; [|done]. case_match; [by apply Ha|done]. Qed.

Lemma trimmedText_wf a b s :
  (forall v, a = Some v -> printable v) -> (forall v, b = Some v -> printable v) -> trimmedText a b = Some s -> wf_str s.
Proof.
  intros Ha Hb. unfold trimmedText. intros (x & Hx & ->)%fmap_Some. apply trim_wf. eapply String_of_wf; [|exact Hx].
  apply js_or_printable; [done|]. apply js_or_printable; [done|]. repeat constructor.
Qed.

Record error_ok (d : ReturnErrorDraft) : Prop := {
  eo_message : wf_str (r_message d); eo_code : wf_str (r_code d); eo_type : wf_str (r_type d) }.

Lemma parse_error_ok s : wf_str s -> error_ok (parseReturnErrorDraft s).
Proof.
  intros Hs%trim_wf. unfold parseReturnErrorDraft. cbv zeta.
  assert (error_ok (mkReturnError (trim s) 400 [] [] true true)) as Hplain by (split; [done|constructor|constructor]).
  destruct (truthy (trim s)); cbn [negb]; [|split; constructor].
  destruct (JSON_parse (trim s)) as [[| | | | |fields]|] eqn:E; try done.
  apply parse_printable in E; [|done]. assert (forall k v, map_get fields k = Some v -> printable v) as Hp by (intros; by eapply printable_get).
  destruct (match match map_get fields (js "status_code") with Some v => Some v | None => map_get fields (js "status") end
            with Some v => Number_of v | None => Some None end); cbn [mbind option_bind]; [|done].
  destruct (trimmedText _ (map_get fields (js "msg"))) as [m|] eqn:Em; cbn [option_bind]; [|done].
  destruct (trimmedText (map_get fields (js "code")) None) as [c|] eqn:Ec; cbn [option_bind]; [|done].
  destruct (trimmedText (map_get fields (js "type")) None) as [y|] eqn:Ey; cbn [option_bind]; [|done].
  split; cbn; eapply trimmedText_wf; try eassumption; eauto; done.
Qed.

Lemma build_error_wf d : error_ok d -> wf_str (buildReturnErrorValueText d).
Proof.
  intros [Hm Hc Ht]. unfold buildReturnErrorValueText. cbv zeta. case_match; [by apply trim_wf|].
  apply stringify_wf. by apply (errorPayload_printable d).
Qed.

Record prune_ok (d : PruneObjectsDraft) : Prop := {
  po_type : wf_str (d_typeText d); po_rules : Forall condition_ok (d_rules d) }.

Lemma build_prune_wf d : prune_ok d -> wf_str (buildPruneObjectsValueText d).
Proof.
  intros [Ht Hr]. unfold buildPruneObjectsValueText. cbv zeta. case_match; [by apply trim_wf|].
  case_match; apply stringify_wf.
  { constructor; [closed_nodup|closed_str|]. apply Forall_cons. split; [constructor; closed_str|constructor]. }
  apply printable_set_if; [closed_str|intros _; constructor|].
  { apply Forall_forall. intros v Hv. apply list_elem_of_In, in_map_iff in Hv as (r & <- & Hin).
    apply List.filter_In in Hin as [Hin%list_elem_of_In _]. rewrite Forall_forall in Hr. by apply pruneCondition_printable, Hr. }
  repeat (apply printable_set_if; [closed_str|intros _; constructor; by first [apply trim_wf | closed_str]|]).
  by repeat constructor.
Qed.

(** ** Parsed prune rules have new ids *)

Lemma gmapM_rules_total vs n :
  Forall (fun v => v <> JNull) vs -> exists rs n', gmapM (normalizePruneRule now) vs n = (Some rs, n').
Proof.
  intros H. revert n. induction H as [|v vs Hv _ IH]; intros n; [by exists [], n|]. cbn [gmapM].
  destruct (readProp_object v) as [->|Hr]; [done|].
  assert (exists r, normalizePruneRule now v n = (Some r, S n)) as (r & Er).
  { unfold normalizePruneRule, normalizeCondition, gbind, nextLocalId, glift. rewrite !Hr. cbn [mbind option_bind]. eauto. }
  destruct (IH (S n)) as (rs & n' & Ers). exists (r :: rs), n'. unfold gbind, gret. by rewrite Er, Ers.
Qed.

(** The rules of one member of the object. *)
Lemma rules_of_member (c : G (list ParamOverrideCondition)) vs n :
  (c = gret [] \/ c = gmapM (normalizePruneRule now) vs) -> Forall (fun v => v <> JNull) vs -> Forall printable vs ->
  exists rs n', c n = (Some rs, n') /\ (n <= n')%nat /\ Forall (fun r => between n n' (c_id r)) rs /\ Forall condition_ok rs.
Proof.
  intros [-> | ->] Hn Hp; [exists [], n; split_and!; [done|lia|constructor|constructor]|].
  destruct (gmapM_rules_total vs n Hn) as (rs & n' & E). exists rs, n'.
  apply gmapM_conditions in E as E'. destruct E' as (? & _ & ? & Hok). split_and!; auto.
Qed.

Lemma fullRules_ok w : printable (JObj w) ->
  Forall (fun v => v <> JNull) (map fullRule (Object_entries w)) /\ Forall printable (map fullRule (Object_entries w)).
Proof.
  intros Hw. inversion Hw as [| | | | |? _ Hk Hv]; subst. split; apply Forall_forall; intros v Hin;
    apply list_elem_of_In, in_map_iff in Hin as ([k x] & <- & Hin%list_elem_of_In); [done|].
  apply (proj1 (Object_entries_elem _ _)) in Hin. rewrite Forall_forall in Hk. rewrite Forall_forall in Hv.
  constructor; [closed_nodup|closed_str|]. change (Forall printable [JStr k; JStr (js "full"); x]).
  rewrite !Forall_cons. split_and!; [constructor|constructor; closed_str| |constructor].
  - apply Hk, list_elem_of_fmap. by exists (k, x).
  - apply Hv, list_elem_of_fmap. by exists (k, x).
Qed.

Lemma pruneRules_ok fields n :
  printable (JObj fields) ->
  exists rs n', pruneRules now fields n = (Some rs, n') /\ (n <= n')%nat /\
    Forall (fun r => between n n' (c_id r)) rs /\ Forall condition_ok rs.
Proof.
  intros Hp. assert (forall k v, map_get fields k = Some v -> printable v) as Hg by (intros; by eapply printable_get).
  unfold pruneRules, gbind.
  set (c1 := match map_get fields (js "where") with Some (JObj w) => _ | _ => _ end).
  set (c2 := match map_get fields (js "conditions") with Some (JArr l) => _ | _ => _ end).
  assert (exists vs, (c1 = gret [] \/ c1 = gmapM (normalizePruneRule now) vs) /\ Forall (fun v => v <> JNull) vs /\ Forall printable vs)
    as (vs1 & Hc1 & Hn1 & Hp1).
  { subst c1. destruct (map_get fields (js "where")) as [[| | | | |w]|] eqn:E; try (by exists []; split_and!; [left|constructor..]).
    destruct (fullRules_ok w (Hg _ _ E)). by exists (map fullRule (Object_entries w)); split_and!; [right|..]. }
  assert (exists vs, (c2 = gret [] \/ c2 = gmapM (normalizePruneRule now) vs) /\ Forall (fun v => v <> JNull) vs /\ Forall printable vs)
    as (vs2 & Hc2 & Hn2 & Hp2).
  { subst c2. destruct (map_get fields (js "conditions")) as [[| | | |l|w]|] eqn:E; try (by exists []; split_and!; [left|constructor..]).
    - exists (List.filter isObjectLike l). apply Hg in E. inversion E as [| | | |? Hl|]; subst. rewrite Forall_forall in Hl.
      split_and!; [by right|..]; apply Forall_forall; intros v Hv%list_elem_of_In; apply List.filter_In in Hv as [Hv Ho]; [by intros ->|].
      by apply Hl, list_elem_of_In.
    - destruct (fullRules_ok w (Hg _ _ E)). by exists (map fullRule (Object_entries w)); split_and!; [right|..]. }
  destruct (rules_of_member c1 vs1 n Hc1 Hn1 Hp1) as (rs1 & n1 & -> & Hle1 & Hb1 & Hok1).
  destruct (rules_of_member c2 vs2 n1 Hc2 Hn2 Hp2) as (rs2 & n2 & -> & Hle2 & Hb2 & Hok2).
  exists (rs1 ++ rs2), n2. split_and!; [done|lia| |by apply Forall_app].
  apply Forall_app. split; [eapply Forall_impl; [exact Hb1|]|eapply Forall_impl; [exact Hb2|]]; intros r; apply between_mono; lia.
Qed.

Lemma parse_prune_ok s n :
  wf_str s ->
  exists d n', parsePruneObjectsDraft now s n = (Some d, n') /\ (n <= n')%nat /\ prune_ok d /\
    Forall (fun r => between n n' (c_id r)) (d_rules d).
Proof.
  intros Hs%trim_wf. unfold parsePruneObjectsDraft. cbv zeta.
  assert (forall x, wf_str x -> exists d n', (Some (mkPruneObjects true x (js "AND") true []), n) = (Some d, n') /\ (n <= n')%nat /\
    prune_ok d /\ Forall (fun r => between n n' (c_id r)) (d_rules d)) as Hsimple.
  { intros x Hx. eexists _, n. split_and!; [done|lia|by split; [|constructor]|constructor]. }
  destruct (truthy (trim s)); cbn [negb]; [|apply Hsimple; constructor].
  destruct (JSON_parse (trim s)) as [v|] eqn:E; [|by apply Hsimple]. apply parse_printable in E; [|done].
  assert (forall w, printable w -> exists d n',
    (Some (match String_of w with Some y => mkPruneObjects true (trim y) (js "AND") true []
           | None => mkPruneObjects true (trim s) (js "AND") true [] end), n) = (Some d, n') /\ (n <= n')%nat /\
    prune_ok d /\ Forall (fun r => between n n' (c_id r)) (d_rules d)) as Htext.
  { intros w Hw. destruct (String_of w) as [y|] eqn:Ey; [|by apply Hsimple]. apply Hsimple, trim_wf. by eapply String_of_wf. }
  destruct v as [|b|m|x|l|fields]; [apply Hsimple; constructor|by apply Htext|by apply Htext| |by apply Htext|].
  { apply Hsimple. inversion E; subst. by apply trim_wf. }
  unfold gtry, gbind, glift, gret. destruct (pruneRules_ok fields n E) as (rs & n' & -> & Hle & Hb & Hok).
  assert (forall x, wf_str x -> exists d k, (Some (mkPruneObjects true x (js "AND") true []), n') = (Some d, k) /\ (n <= k)%nat /\
    prune_ok d /\ Forall (fun r => between n k (c_id r)) (d_rules d)) as Hcaught.
  { intros x Hx. eexists _, n'. split_and!; [done|lia|by split; [|constructor]|constructor]. }
  destruct (match map_get fields (js "type") with None => Some [] | Some v => trim <$> String_of v end) as [ty|] eqn:Et; [|by apply Hcaught].
  destruct (String_of (js_or _ _)); [|by apply Hcaught]. eexists _, n'. split_and!; [done|done| |done]. split; [|done]. cbn.
  destruct (map_get fields (js "type")) as [v|] eqn:Eg; [|injection Et as <-; constructor].
  apply fmap_Some in Et as (y & Hy & ->). apply trim_wf. eapply String_of_wf; [|exact Hy]. by eapply printable_get.
Qed.

End Invariant.
End ParamOverrideInvariant.
