(* ===== verification/ParamOverrideEditorProperties.v ===== *)
(** * Channels: the editor of parameter overrides, every event keeps its invariant

    Each callback of the editor keeps the rules non-empty, with distinct ids and
    with the values the controls offer, as long as the texts that are typed are
    UTF-16; so does every sequence of events. *)

From S2P Require Import Prelude JsString JsCollections Json JsonNumber JsonText JsonLocal JsValue JsonCanon ParamOverride ParamOverrideFacts ParamOverrideProperties ParamOverrideDrafts ParamOverrideEditor ParamOverrideInvariant.
Import Json JsonText JsonLocal JsValue JsonCanon ParamOverride ParamOverrideFacts ParamOverrideProperties ParamOverrideDrafts ParamOverrideEditor ParamOverrideInvariant.

Module ParamOverrideEditorProperties.

(** ** Events with UTF-16 texts *)

Definition patchUnits (p : OperationPatch) : Prop :=
  match p with
  | PPath x | PDescription x | PValueText x | PFrom x | PTo x => wf_str x
  | PEnds f u => wf_str f /\ wf_str u
  | PMode _ | PKeepOrigin _ | PLogic _ => True
  end.

Definition conditionUnits (p : ConditionPatch) : Prop :=
  match p with CPath x | CValueText x => wf_str x | CMode _ | CInvert _ | CPassMissing _ => True end.

Definition errorUnits (p : ErrorPatch) : Prop :=
  match p with
  | EMessage x | ECode x | EType x => wf_str x
  | EPreset _ c y => wf_str c /\ wf_str y
  | EStatus _ | ESkipRetry _ | ESimple _ => True
  end.

Definition pruneUnits (p : PrunePatch) : Prop := match p with DType x => wf_str x | _ => True end.

Definition eventUnits (e : Event) : Prop :=
  match e with
  | Open x | ChangeLegacy x | JsonChange x => wf_str x
  | UpdateOperation _ p => patchUnits p
  | UpdateCondition _ _ p => conditionUnits p
  | UpdatePruneRule _ _ p => offeredCondition p = true /\ conditionUnits p
  | UpdateError _ p => errorUnits p
  | UpdatePrune _ p => pruneUnits p
  | _ => True
  end.

Section Runs.
Variables (now : nat -> Z) (t : jsstr -> option Z -> jsstr) (typeError : jsstr) (toLower : jsstr -> jsstr).

#[local] Abbreviation localId := (localId now).
#[local] Abbreviation rules_ok := (rules_ok now).
#[local] Abbreviation rule_ok := (rule_ok now).
#[local] Abbreviation handle := (handle now t typeError).
#[local] Abbreviation step := (step now t typeError).

(** States that a run with such texts reaches. *)
Inductive run : Editor -> Prop :=
| run_mounted s : mounted now = Some s -> run (keepSelection s)
| run_step s e s' : run s -> eventUnits e -> step s e = Some s' -> run s'.

Record inv (s : Editor) : Prop := {
  inv_rules : rules_ok (localIdSeed s) (operations s);
  inv_json : wf_str (jsonText s);
  inv_legacy : wf_str (legacyValue s) }.

Lemma withIds_Some {A} (c : G A) k s s' :
  withIds c k s = Some s' -> exists x n, c (localIdSeed s) = (Some x, n) /\ s' = k x (setSeed n s).
Proof. unfold withIds. destruct (c (localIdSeed s)) as [[x|] n]; [|done]. intros [= <-]. by exists x, n. Qed.

(** Only the rules have changed. *)
Lemma inv_operations s ops : inv s -> rules_ok (localIdSeed s) ops -> inv (setOperations ops s).
Proof. intros [Hr Hj Hl] Ho. by split. Qed.

Lemma inv_on s i f :
  (forall n o, rule_ok n o -> rule_ok n (f o) /\ id (f o) = id o) -> inv s -> inv (onOperation i f s).
Proof. intros Hf Hi. apply inv_operations; [done|]. apply rules_on; [intros o; apply Hf|apply Hi]. Qed.

Lemma patch_rule n p o : offered p = true -> patchUnits p -> rule_ok n o -> rule_ok n (applyPatch p o) /\ id (applyPatch p o) = id o.
Proof.
  intros Hoff Hu [Hi Hd Hc [Hm Hl ? ? ? ? ? ?]].
  destruct p; cbn [offered patchUnits applyPatch] in *; (split; [|done]); (split; [done|done|done|]); bool_hyps; split; cbn; try done; by destruct Hu.
Qed.

Lemma keepSelection_inv s : inv s -> inv (keepSelection s).
Proof.
  intros Hi. assert (forall x, inv (setSelectedOperationId x s)) as Hs by (intros x; destruct Hi; by split).
  unfold keepSelection. destruct (operations s); [apply Hs|]. case_match; [done|apply Hs].
Qed.

Lemma keepSelection_valid s : inv s -> selectedOperationId (keepSelection s) ∈ map id (operations (keepSelection s)).
Proof.
  intros [[Hne _ _] _ _]. unfold keepSelection. destruct (operations s) as [|o ops] eqn:E; [done|].
  destruct (existsb _ _) eqn:Ex.
  - rewrite E. apply existsb_exists in Ex as (o' & Hin & Ho'). unfold hasId in Ho'. bool_hyps. rewrite <- Ho'.
    apply list_elem_of_In, in_map. done.
  - cbn. rewrite E. left.
Qed.

(** ** The callbacks *)

(** One new rule instead of all. *)
Lemma default_rules n : exists o, createDefaultOperation now n = (Some o, S n) /\ rules_ok (S n) [o].
Proof. destruct (default_operation now n) as (o & E & Hn). exists o. split; [done|]. by eapply new_rules_ok. Qed.

Lemma with_default k s s' :
  withIds (createDefaultOperation now) k s = Some s' ->
  exists o, rules_ok (S (localIdSeed s)) [o] /\ s' = k o (setSeed (S (localIdSeed s)) s).
Proof.
  intros (o & n & E & ->)%withIds_Some. destruct (default_rules (localIdSeed s)) as (o' & E' & Ho).
  rewrite E in E'. injection E' as -> ->. eauto.
Qed.

Lemma openDialog_inv v s s' : wf_str v -> inv s -> openDialog now v s = Some s' -> inv s'.
Proof.
  intros Hv Hi (st & n & E & ->)%withIds_Some.
  assert (rules_ok n (i_operations st) /\ wf_str (i_jsonText st) /\ wf_str (i_legacyValue st)) as (Hr & Hj & Hl); [|by split].
  destruct (default_rules (localIdSeed s)) as (o & Eo & Ho).
  assert (forall k, (let? o := createDefaultOperation now in gret (k o)) (localIdSeed s) = (Some st, n) ->
    st = k o /\ n = S (localIdSeed s)) as Hdef.
  { intros k. unfold gbind, gret. rewrite Eo. by intros [= <- <-]. }
  revert E. unfold parseInitialState. cbv zeta.
  destruct (truthy (trim v)); cbn [negb]; [|intros [-> ->]%Hdef; cbn; split_and!; [done|constructor|constructor]].
  destruct (JSON_parse (trim v)) as [p|] eqn:Ep; [|intros [-> ->]%Hdef; cbn; split_and!; [done|done|constructor]].
  apply parse_printable in Ep; [|by apply trim_wf]. pose proof (pretty_wf p Ep) as Hw.
  destruct p as [| | | | |fields]; try (intros [-> ->]%Hdef; cbn; split_and!; [done|done|constructor]).
  destruct (map_get fields (js "operations")) as [[| | | |l|]|] eqn:Em; try (by intros [-> ->]%Hdef).
  unfold gbind, gret. destruct (loadOperations now l _) as [[os|] n'] eqn:El; [|done]. intros [= <- <-]. cbn.
  eapply load_operations in El as [Hn Hne]; [|eapply printable_get in Em; [by inversion Em|done]].
  split_and!; [by eapply new_rules_ok|done|constructor].
Qed.

Lemma addOperation_inv s s' : inv s -> addOperation now s = Some s' -> inv s'.
Proof.
  intros [[Hne Hd Hr] Hj Hl] (o & n & E & ->)%withIds_Some. destruct (default_operation now (localIdSeed s)) as (o' & E' & Hn).
  rewrite E in E'. injection E' as -> ->. split; cbn; [|done|done]. eapply rules_app; [done|done|done|by destruct (operations s)].
Qed.

Lemma cloneSource_printable o : operation_ok o -> printable (cloneSource o).
Proof.
  intros [Hm Hl Hd Hp Hf Ht Hv Hc].
  assert (wf_str (mode o)) as Hmw by (eapply (known_wf OPERATION_MODE_VALUES); [vm_compute; reflexivity|done]).
  assert (wf_str (logic o)) as Hlw by (eapply (known_wf [js "OR"; js "AND"]); [vm_compute; reflexivity|done]).
  unfold cloneSource. constructor; [closed_nodup|closed_str|].
  change (Forall printable [JStr (description o); JStr (path o); JStr (mode o); parseLooseValue (value_text o);
    JBool (keep_origin o); JStr (from o); JStr (to o); JStr (logic o); JArr (map (fun c => JObj
           [ (js "path", JStr (c_path c)); (js "mode", JStr (c_mode c)); (js "value", parseLooseValue (c_value_text c));
             (js "invert", JBool (c_invert c)); (js "pass_missing_key", JBool (c_pass_missing_key c)) ]) (conditions o))]).
  rewrite !Forall_cons. split_and!; try (by apply printable_str); try constructor; [by apply parse_loose_printable|]. apply Forall_forall. intros x Hx. apply list_elem_of_In, in_map_iff in Hx as (c & <- & Hin%list_elem_of_In).
  rewrite Forall_forall in Hc. destruct (Hc c Hin) as [Hcm Hcp Hcv]. constructor; [closed_nodup|closed_str|].
  change (Forall printable [JStr (c_path c); JStr (c_mode c); parseLooseValue (c_value_text c); JBool (c_invert c);
    JBool (c_pass_missing_key c)]).
  assert (wf_str (c_mode c)) by (eapply (known_wf CONDITION_MODE_VALUES); [vm_compute; reflexivity|done]).
  rewrite !Forall_cons. split_and!; try (by apply printable_str); try constructor. by apply parse_loose_printable.
Qed.

Lemma duplicateOperation_inv i eager s s' : inv s -> duplicateOperation now i eager s = Some s' -> inv s'.
Proof.
  intros Hi. unfold duplicateOperation. destruct (list_find _ _) as [[idx o]|] eqn:E; [|by intros [= <-]].
  apply list_find_Some in E as (Ho & _). intros (c & n & Ec & ->)%withIds_Some. destruct Hi as [[Hne Hd Hr] Hj Hl].
  apply normalizeOperation_ok in Ec as [Hf Hok].
  assert (rule_ok (localIdSeed s) o) as Hro by (rewrite Forall_lookup in Hr; eauto).
  specialize (Hok (cloneSource_printable o (ro_ok _ _ _ Hro))).
  assert (rules_ok n (splice_in (S idx) c (operations s))) as Hrs.
  { eapply rules_perm; [rewrite splice_perm; apply Permutation_cons_append|].
    eapply rules_app; [done|done| |by destruct (operations s)].
    eapply new_rules_cons; [done|done|apply new_rules_nil]. }
  case_match; by split.
Qed.

Lemma removeOperation_inv i s s' : inv s -> removeOperation now i s = Some s' -> inv s'.
Proof.
  intros Hi. unfold removeOperation. destruct (operations s) as [|a [|b ops]] eqn:E.
  1,2: intros (o & Ho & ->)%with_default; destruct Hi; by split.
  intros H%(inj Some). rewrite <- H, <- E. apply inv_operations; [done|]. apply rules_remove; [rewrite E; cbn; lia|apply Hi].
Qed.

(** A change of the conditions of a rule. *)
Lemma setConditions_ok n cs o :
  rule_ok n o -> NoDup (map c_id cs) -> Forall (fun c => made now n (c_id c)) cs -> Forall condition_ok cs ->
  rule_ok n (setConditions cs o) /\ id (setConditions cs o) = id o.
Proof. intros [Hi _ _ [? ? ? ? ? ? ? ?]] Hd Hm Hok. split; [|done]. by split. Qed.

Lemma addCondition_inv i s s' : inv s -> addCondition now i s = Some s' -> inv s'.
Proof.
  intros [Hr Hj Hl] (c & n & E & ->)%withIds_Some. unfold createDefaultCondition in E.
  apply normalizeCondition_ok in E as (-> & Hi & Hok).
  assert (condition_ok c) as Hc by (apply Hok; by repeat constructor). split; cbn; [|done|done].
  pose proof (rules_ok_mono now (localIdSeed s) (S (localIdSeed s)) _ ltac:(lia) Hr) as Hr'. revert Hr'.
  assert (Forall (rule_ok (localIdSeed s)) (operations s)) as Hold by apply Hr.
  intros [Hne Hd Hrs]. split.
  - by destruct (operations s).
  - rewrite map_map. rewrite (map_ext _ id); [done|]. intros o. by case_match.
  - apply Forall_forall. intros o' Ho'. apply list_elem_of_In, in_map_iff in Ho' as (o & <- & Ho%list_elem_of_In).
    rewrite Forall_forall in Hrs, Hold. specialize (Hrs o Ho). specialize (Hold o Ho). case_match; [|done].
    destruct Hold as [_ Hdc Hmc Hoc]. apply setConditions_ok; [done| | |].
    + rewrite map_app. apply NoDup_app. split_and!; [done| |cbn; repeat constructor; by apply not_elem_of_nil].
      intros x Hx Hx'. apply list_elem_of_singleton in Hx' as ->.
      apply list_elem_of_In, in_map_iff in Hx as (c' & E & Hc'%list_elem_of_In). rewrite Forall_forall in Hmc.
      destruct (Hmc c' Hc') as (k & Hk & E'). rewrite E, Hi in E'. apply localId_inj in E'. lia.
    + apply Forall_app. split; [apply Hrs|]. apply Forall_singleton. exists (localIdSeed s). split; [lia|done].
    + apply Forall_app. split; [apply Hoc|]. by apply Forall_singleton.
Qed.

Lemma patchCondition_ok p c : offeredCondition p = true -> conditionUnits p -> condition_ok c -> condition_ok (patchCondition p c).
Proof.
  intros Ho Hu [Hm Hp Hv]. destruct p; cbn [offeredCondition conditionUnits patchCondition] in *; bool_hyps; by split.
Qed.

Lemma updateCondition_inv i c p s : offeredCondition p = true -> conditionUnits p -> inv s -> inv (updateCondition i c p s).
Proof.
  intros Ho Hu. apply inv_on. intros n o Hr. pose proof Hr as [_ Hd Hm Hok].
  set (f := fun x => if hasConditionId c x then patchCondition p x else x).
  assert (forall x, c_id (f x) = c_id x) as Hf by (intros x; subst f; cbn; case_match; [by destruct p|done]).
  apply setConditions_ok; [done| | |].
  - rewrite map_map, (map_ext _ c_id); done.
  - apply Forall_forall. intros x Hx. apply list_elem_of_In, in_map_iff in Hx as (y & <- & Hy%list_elem_of_In).
    rewrite Hf. rewrite Forall_forall in Hm. auto.
  - apply Forall_forall. intros x Hx. apply list_elem_of_In, in_map_iff in Hx as (y & <- & Hy%list_elem_of_In).
    pose proof (ok_conditions o Hok) as Hoc. rewrite Forall_forall in Hoc. subst f. cbn.
    case_match; [apply patchCondition_ok; auto|auto].
Qed.

Lemma removeCondition_inv i c s : inv s -> inv (removeCondition i c s).
Proof.
  apply inv_on. intros n o Hr. pose proof Hr as [_ Hd Hm Hok]. pose proof (ok_conditions o Hok) as Hoc.
  apply setConditions_ok; [done|by apply filter_map_nodup|by apply filter_Forall|by apply filter_Forall].
Qed.

Lemma value_patch_rule n x o : wf_str x -> rule_ok n o -> rule_ok n (applyPatch (PValueText x) o) /\ id (applyPatch (PValueText x) o) = id o.
Proof. intros Hx. by apply patch_rule. Qed.

Lemma updateError_inv i p s : errorUnits p -> inv s -> inv (updateReturnErrorDraft i p s).
Proof.
  intros Hu. apply inv_on. intros n o Hr. apply value_patch_rule; [|done]. apply build_error_wf.
  pose proof (parse_error_ok (value_text o) (ok_value o (ro_ok _ _ _ Hr))) as [Hm Hc Hy].
  destruct p; cbn [errorUnits patchError] in *; split; cbn; try done; by destruct Hu.
Qed.

Lemma gmapM_cons {A B} (f : A -> G B) x l n :
  gmapM f (x :: l) n
  = match f x n with
    | (Some y, n1) => match gmapM f l n1 with (Some ys, n2) => (Some (y :: ys), n2) | (None, n2) => (None, n2) end
    | (None, n1) => (None, n1)
    end.
Proof. done. Qed.

Lemma updatePrune_inv i u s s' :
  (forall d n, prune_ok d -> exists d' n', u d n = (Some d', n') /\ (n <= n')%nat /\ prune_ok d') ->
  inv s -> updatePruneObjectsDraft now i u s = Some s' -> inv s'.
Proof.
  intros Hu [[Hne Hd Hr] Hj Hl] (ops & n & E & ->)%withIds_Some.
  assert ((localIdSeed s <= n)%nat /\ map id ops = map id (operations s) /\ Forall (rule_ok n) ops) as (Hle & Hi & Hrs).
  2:{ split; cbn; [|done|done]. split; [|by rewrite Hi|done]. destruct ops; [|done]. by destruct (operations s). }
  clear Hne Hd Hj Hl. revert ops n E. generalize (localIdSeed s) as m, Hr. clear Hr.
  induction (operations s) as [|o os IH]; intros m Hr ops n.
  { intros [= <- <-]. split_and!; [lia|done|constructor]. }
  apply Forall_cons in Hr as [Ho Hos]. rewrite gmapM_cons.
  assert (exists o' m', (if hasId i o then let? draft := parsePruneObjectsDraft now (value_text o) in
      let? nextDraft := u draft in gret (applyPatch (PValueText (buildPruneObjectsValueText nextDraft)) o) else gret o) m
    = (Some o', m') /\ (m <= m')%nat /\ rule_ok m' o' /\ id o' = id o) as (o' & m' & -> & Hm & Ho' & Hid).
  { destruct (hasId i o); [|by exists o, m; split_and!].
    destruct (parse_prune_ok now (value_text o) m (ok_value o (ro_ok _ _ _ Ho))) as (d & m1 & Ed & Hm1 & Hd & _).
    destruct (Hu d m1 Hd) as (d' & m2 & Ed' & Hm2 & Hd'). unfold gbind, gret. rewrite Ed, Ed'. eexists _, m2.
    split_and!; [done|lia| |done]. apply value_patch_rule; [by apply build_prune_wf|]. eapply rule_ok_mono; [|exact Ho]. lia. }
  destruct (gmapM _ os m') as [[os'|] n'] eqn:Eo; [|done]. intros [= <- <-].
  destruct (IH m' (Forall_impl _ _ _ Hos ltac:(intros; by eapply rule_ok_mono)) os' n' Eo) as (Hle & Hi & Hrs).
  split_and!; [lia|cbn [map]; by rewrite Hid, Hi|]. constructor; [|done]. eapply rule_ok_mono; [|exact Ho']. lia.
Qed.

(** ** Modes and templates *)

Lemma build_wf ops validate x :
  Forall operation_ok ops -> buildOperationsJson t typeError ops validate = Text x -> wf_str x.
Proof.
  intros Hok. unfold buildOperationsJson. fold (keptRules ops). pose proof (rulesDoc_printable _ (kept_Forall _ _ Hok)) as Hp.
  destruct (keptRules ops) as [|o l]; [intros [= <-]; constructor|]. destruct validate.
  - destruct (validateOperations t _) as [m|]; [|done]. destruct (truthy m); [done|]. intros [= <-]. by apply pretty_wf.
  - intros [= <-]. by apply pretty_wf.
Qed.

Lemma rules_operation_ok n ops : rules_ok n ops -> Forall operation_ok ops.
Proof. intros [_ _ Hr]. eapply Forall_impl; [exact Hr|]. by intros o []. Qed.

Lemma buildVisualJson_wf s x : inv s -> buildVisualJson t typeError s = Text x -> wf_str x.
Proof.
  intros [Hr Hj Hl]. unfold buildVisualJson. destruct (visualMode s).
  - apply build_wf. by eapply rules_operation_ok.
  - cbv zeta. destruct (truthy (trim (legacyValue s))); cbn [negb]; [|intros [= <-]; constructor].
    destruct (JSON_parse _) as [[]|] eqn:E; try done. intros [= <-]. apply pretty_wf.
    eapply parse_printable; [|exact E]. by apply trim_wf.
Qed.

Lemma switchToJson_inv s : inv s -> inv (switchToJsonMode t typeError s).
Proof.
  intros Hi. pose proof Hi as [Hr Hj Hl]. unfold switchToJsonMode. destruct (editMode s); [|done].
  destruct (buildVisualJson t typeError s) as [x|m] eqn:E; split; cbn; try done.
  - by eapply buildVisualJson_wf.
  - destruct (visualMode s); [|done]. destruct (buildOperationsJson t typeError (operations s) false) as [x|] eqn:Eb; [|constructor].
    eapply build_wf; [|exact Eb]. by eapply rules_operation_ok.
Qed.

Lemma switchToVisual_inv s s' : inv s -> switchToVisualMode now t s = Some s' -> inv s'.
Proof.
  intros Hi. pose proof Hi as [Hr Hj Hl]. unfold switchToVisualMode. destruct (editMode s); [by intros [= <-]|].
  cbv zeta. destruct (truthy (trim (jsonText s))); cbn [negb].
  2: { intros (o & Ho & ->)%with_default. by split; [| |constructor]. }
  destruct (JSON_parse _) as [v|] eqn:E; [|intros [= <-]; by split].
  apply parse_printable in E; [|by apply trim_wf].
  destruct v as [| | | | |fields]; try (intros [= <-]; by split).
  assert (forall k, withIds (createDefaultOperation now) (fun fallback s =>
    s |> setVisualMode LegacyMode |> setLegacyValue (JSON_pretty (JObj fields)) |> showOperations [fallback] |> setJsonError []
      |> setEditMode VisualEdit |> setTemplatePresetKey k) s = Some s' -> inv s') as Hleg.
  { intros k (o & Ho & ->)%with_default. split; [done|done|]. by apply (pretty_wf (JObj fields)). }
  destruct (map_get fields (js "operations")) as [[| | | |l|]|] eqn:Eo; try apply Hleg.
  intros (ops & n & El & ->)%withIds_Some. eapply load_operations in El as [Hn Hne];
    [|eapply printable_get in Eo; [by inversion Eo|done]]. split; cbn; [by eapply new_rules_ok|done|constructor].
Qed.

Lemma preset_printable key : printable (p_payload (presetOf key)).
Proof.
  unfold presetOf. assert (Forall (fun kv => wf_jsonb (p_payload kv.2) = true) TEMPLATE_PRESET_CONFIG) as Ht
    by (repeat (constructor; [vm_compute; reflexivity|]); constructor).
  destruct (map_get TEMPLATE_PRESET_CONFIG key) as [p|] eqn:E.
  - apply map_get_Some_elem in E. rewrite Forall_forall in Ht. apply wf_printable, wf_jsonb_sound. apply (Ht _ E).
  - apply wf_printable, wf_jsonb_sound. vm_compute. reflexivity.
Qed.

Lemma preset_rules key :
  p_kind (presetOf key) = KOperations -> operationsPayload (p_payload (presetOf key)) <> [].
Proof.
  unfold presetOf. assert (Forall (fun kv => p_kind kv.2 = KLegacy \/ operationsPayload (p_payload kv.2) <> [])
    TEMPLATE_PRESET_CONFIG) as Ht.
  { repeat (constructor; [first [by left | right; vm_compute; discriminate]|]). constructor. }
  destruct (map_get TEMPLATE_PRESET_CONFIG key) as [p|] eqn:E; [|vm_compute; discriminate].
  apply map_get_Some_elem in E. rewrite Forall_forall in Ht. destruct (Ht _ E) as [H|H]; cbn in H; [congruence|done].
Qed.

Lemma own_entries_printable v : printable v -> printable (JObj (own_entries v)).
Proof.
  intros Hp. pose proof (own_nodup v (printable_distinct v Hp)) as Hn.
  assert (forall n, Forall wf_str (index_keys n)) as Hk.
  { intros n. apply Forall_forall. intros k Hk. apply list_elem_of_In, in_map_iff in Hk as (i & <- & _).
    apply digits_wf, showZ_digits. lia. }
  assert (forall l : list json, Forall printable l -> Forall wf_str (zip (index_keys (length l)) l).*1 /\ Forall printable (zip (index_keys (length l)) l).*2) as Hz.
  { intros l Hl. rewrite fst_zip, snd_zip; [done|..]; unfold index_keys; rewrite length_map, length_seq; done. }
  destruct Hp as [| | |x Hx|l Hl|fs Hd Hkk Hv]; cbn [own_entries] in *; constructor; try done; try constructor.
  1,2: rewrite <- (length_map (fun c => JStr [c])); apply Hz; apply Forall_forall; intros v Hv;
    apply list_elem_of_In, in_map_iff in Hv as (c & <- & Hc%list_elem_of_In); constructor;
    unfold wf_str in *; rewrite Forall_forall in Hx; apply Forall_singleton; auto.
  1,2: by apply Hz.
  all: by rewrite js_sort_values_perm.
Qed.

Lemma spread_printable b : forall a, printable (JObj a) -> printable (JObj b) -> printable (JObj (spread_onto a b)).
Proof.
  induction b as [|[k v] b IH]; intros a Ha Hb; [done|]. unfold spread_onto in *. cbn [fold_left].
  inversion Hb as [| | | | |? Hn Hk Hv]; subst. cbn in Hn, Hk, Hv. apply NoDup_cons in Hn as [_ Hn].
  apply Forall_cons in Hk as [Hk1 Hk]. apply Forall_cons in Hv as [Hv1 Hv]. apply IH; [|by constructor].
  by apply (printable_set_if true k v a).
Qed.

Lemma showLegacy_inv x s s' : wf_str x -> inv s -> showLegacy now x s = Some s' -> inv s'.
Proof. intros Hx [Hr Hj Hl] (o & Ho & ->)%with_default. by split. Qed.

Lemma operationsPayload_printable v : printable v -> Forall printable (operationsPayload v).
Proof.
  intros Hp. unfold operationsPayload. destruct (prop v (js "operations")) as [[]|] eqn:E; try constructor.
  eapply printable_prop in E; [|done]. by inversion E.
Qed.

Lemma fillTemplate_inv m s s' : inv s -> fillTemplate now t m s = Some s' -> inv s'.
Proof.
  intros Hi. pose proof Hi as [Hr Hj Hl]. unfold fillTemplate. pose proof (preset_printable (templatePresetKey s)) as Hp.
  destruct (p_kind _) eqn:Ek.
  - pose proof (operationsPayload_printable _ Hp) as Hpp. unfold fillOperations. destruct m.
    + intros (ops & n & E & ->)%withIds_Some. eapply load_operations in E as [Hn Hne]; [|done].
      split; [by eapply new_rules_ok| |done]. eapply (pretty_wf (JObj [(js "operations", JArr _)])). constructor; [closed_nodup|closed_str|].
      apply Forall_singleton. by constructor.
    + intros (ops & n & E & ->)%withIds_Some. split; cbn; [|constructor|constructor].
      assert (ops <> []) as Hne.
      { eapply gmapM_nonempty; [exact E|]. by apply preset_rules. }
      eapply gmapM_operations in E; [|done].
      eapply rules_app; [| |exact E|by intros [_ ?]%app_nil].
      * destruct (visualMode s); [|constructor]. apply filter_map_nodup, Hr.
      * destruct (visualMode s); [|constructor]. apply filter_Forall, Hr.
  - unfold fillLegacy. destruct m; [by apply showLegacy_inv; [apply pretty_wf|]|].
    destruct (visualMode s); [by apply showLegacy_inv; [apply pretty_wf|]|]. cbv zeta.
    assert (forall b, printable (JObj b) -> showLegacy now (JSON_pretty (JObj (spread_onto (own_entries (p_payload (presetOf (templatePresetKey s)))) b))) s
      = Some s' -> inv s') as Hmerge.
    { intros b Hb. apply showLegacy_inv; [|done]. apply pretty_wf, spread_printable; [by apply own_entries_printable|done]. }
    destruct (truthy (trim (legacyValue s))); cbn [negb]; [|apply Hmerge; by repeat constructor].
    destruct (JSON_parse _) as [v|] eqn:E; [|intros [= <-]; by split]. apply Hmerge, own_entries_printable.
    eapply parse_printable; [|exact E]. by apply trim_wf.
Qed.

(** ** Every event *)

Lemma prune_event_inv i u s s' :
  (forall d, prune_ok d -> prune_ok (u d)) -> inv s -> updatePruneObjectsDraft now i (fun d => gret (u d)) s = Some s' -> inv s'.
Proof. intros Hu. apply updatePrune_inv. intros d n Hd. exists (u d), n. split_and!; [done|lia|by apply Hu]. Qed.

Lemma addPruneRule_inv i s s' : inv s -> addPruneRule now i s = Some s' -> inv s'.
Proof.
  apply updatePrune_inv. intros d n [Ht Hr]. unfold gbind, gret.
  destruct (normalizePruneRule now (JObj []) n) as [[r|] n1] eqn:E; [|done]. unfold normalizePruneRule in E.
  apply normalizeCondition_ok in E as (-> & _ & Hok). eexists _, (S n). split_and!; [done|lia|]. split; [done|].
  apply Forall_app. split; [done|]. apply Forall_singleton, Hok. by repeat constructor.
Qed.

Lemma formatValue_inv s s' : inv s -> handle s FormatValue = Some s' -> inv s'.
Proof.
  intros Hi. cbn [ParamOverrideEditor.handle]. unfold selectedOperation.
  destruct (list_find _ (operations s)) as [[k o]|] eqn:E; [|done]. intros [= <-]. cbn [snd]. unfold formatValue.
  apply list_find_Some in E as (Ho & _). destruct (JSON_parse (value_text o)) as [v|] eqn:Ev; [|done].
  apply inv_on; [|done]. intros n o' Ho'. apply value_patch_rule; [|done]. apply pretty_wf. eapply parse_printable; [|exact Ev].
  pose proof (rs_rules _ _ _ (inv_rules s Hi)) as Hr. rewrite Forall_lookup in Hr. apply (ok_value o (ro_ok _ _ _ (Hr _ _ Ho))).
Qed.

Lemma formatJson_inv s : inv s -> inv (formatJson t s).
Proof.
  intros [Hr Hj Hl]. unfold formatJson. cbv zeta. destruct (truthy _); cbn [negb]; [|by split].
  destruct (JSON_parse _) as [v|] eqn:E; [|by split]. split; [done| |done]. apply (pretty_wf v).
  eapply parse_printable; [|exact E]. by apply trim_wf.
Qed.

(** A draft is drawn with ids that no rule or condition had before. *)
Lemma draft_ids s d n :
  inv s -> pruneObjectsDraft now s (localIdSeed s) = (d, n) ->
  exists d', d = Some d' /\ (localIdSeed s <= n)%nat /\
    forall x, d' = Some x -> Forall (fun r => between now (localIdSeed s) n (c_id r)) (d_rules x).
Proof.
  intros Hi. unfold pruneObjectsDraft, gret, gbind. destruct (selectedOperation s) as [o|] eqn:Es.
  2:{ intros [= <- <-]. by exists None. }
  destruct (bool_decide _); [|intros [= <- <-]; by exists None].
  unfold selectedOperation in Es. apply fmap_Some in Es as ([k o'] & (Ho & _)%list_find_Some & ->). cbn [snd].
  pose proof (rs_rules _ _ _ (inv_rules s Hi)) as Hr. rewrite Forall_lookup in Hr.
  destruct (parse_prune_ok now (value_text o') (localIdSeed s) (ok_value o' (ro_ok _ _ _ (Hr _ _ Ho))))
    as (x & n' & -> & Hle & _ & Hb).
  intros [= <- <-]. exists (Some x). split_and!; [done|done|]. by intros ? [= <-].
Qed.

Lemma draw_inv s s' : inv s -> handle s Draw = Some s' -> inv s'.
Proof.
  intros Hi (d & n & E & ->)%withIds_Some. destruct (draft_ids s _ _ Hi E) as (_ & _ & Hle & _).
  destruct Hi as [Hr Hj Hl]. split; [by eapply rules_ok_mono|done|done].
Qed.

Lemma handle_inv s e s' : inv s -> eventUnits e -> handle s e = Some s' -> inv s'.
Proof.
  intros Hi Hu H. pose proof Hi as [Hr Hj Hl].
  destruct e as [|v| |i|x|i p| |  |i eager|i|i|i c p|i c|c b| | |i p|i p|i|i r p|i r|i|i p|i data| |x| | |key|m| |x| |];
    cbn [ParamOverrideEditor.handle eventUnits] in *.
  - by apply (draw_inv s).
  - by apply (openDialog_inv v s).
  - injection H as <-. by split.
  - injection H as <-. by split.
  - injection H as <-. by split.
  - unfold guard in H. destruct (offered p) eqn:Ep; [|done]. injection H as <-. apply inv_on; [|done]. intros n o. by apply patch_rule.
  - by apply (formatValue_inv s).
  - by apply (addOperation_inv s).
  - by apply (duplicateOperation_inv i eager s).
  - by apply (removeOperation_inv i s).
  - by apply (addCondition_inv i s).
  - unfold guard in H. destruct (offeredCondition p) eqn:Ep; [|done]. injection H as <-. by apply updateCondition_inv.
  - injection H as <-. by apply removeCondition_inv.
  - injection H as <-. by split.
  - injection H as <-. unfold expandAllConditions, setAllConditions. case_match; by split.
  - injection H as <-. unfold collapseAllConditions, setAllConditions. case_match; by split.
  - injection H as <-. by apply updateError_inv.
  - eapply prune_event_inv; [|done|exact H]. intros d [Ht Hd]. destruct p; by split.
  - by apply (addPruneRule_inv i s).
  - eapply prune_event_inv; [|done|exact H]. intros d [Ht Hd]. split; [done|]. cbn [setRules d_rules]. destruct Hu as [Hp Hu].
    apply Forall_forall. intros x Hx. apply list_elem_of_In, in_map_iff in Hx as (y & <- & Hy%list_elem_of_In).
    rewrite Forall_forall in Hd. case_match; [apply patchCondition_ok|]; auto.
  - eapply prune_event_inv; [|done|exact H]. intros d [Ht Hd]. split; [done|]. by apply filter_Forall.
  - injection H as <-. by split.
  - injection H as <-. unfold handleDragOver. cbv zeta. case_match; by split.
  - injection H as <-. unfold handleDrop. cbv zeta. case_match; split; try done.
    eapply rules_perm; [apply reorder_perm|exact Hr].
  - injection H as <-. by split.
  - injection H as <-. by split.
  - by apply (switchToVisual_inv s).
  - injection H as <-. by apply switchToJson_inv.
  - injection H as <-. by split.
  - by apply (fillTemplate_inv m s).
  - unfold resetEditorState in H. apply with_default in H as (o & Ho & ->). by split; [|constructor|constructor].
  - injection H as <-. unfold handleJsonChange. cbv zeta. case_match; by split.
  - injection H as <-. by apply formatJson_inv.
  - injection H as <-. unfold handleSave. case_match; by split.
Qed.

Lemma run_inv s : run s -> inv s /\ selectedOperationId s ∈ map id (operations s).
Proof.
  induction 1 as [s H|s e s' _ [IH _] Hu H].
  - assert (inv s) as Hi; [|split; [by apply keepSelection_inv|by apply keepSelection_valid]].
    unfold mounted in H. destruct (default_rules 0) as (o & E & Ho). rewrite E in H. injection H as <-.
    by split; [|constructor|constructor].
  - unfold ParamOverrideEditor.step in H. apply fmap_Some in H as (s1 & H1 & ->). pose proof (handle_inv _ _ _ IH Hu H1).
    split; [by apply keepSelection_inv|by apply keepSelection_valid].
Qed.

End Runs.
End ParamOverrideEditorProperties.
