(* ===== verification/ParamOverrideRuns.v ===== *)
(** * Channels: what the editor of parameter overrides does to rules

    Consequences of the invariant of [ParamOverrideEditorProperties] for whole
    sequences of events: saving and opening again, changing the mode, dragging a
    rule, the edits of prune rules and what a saved text is. *)

From S2P Require Import Prelude JsString JsCollections Json JsonNumber JsonText JsonLocal JsValue JsonCanon ParamOverride ParamOverrideFacts ParamOverrideProperties ParamOverrideEditor ParamOverrideInvariant ParamOverrideEditorProperties.
Import Json JsonText JsonLocal JsValue JsonCanon ParamOverride ParamOverrideFacts ParamOverrideProperties ParamOverrideEditor ParamOverrideInvariant ParamOverrideEditorProperties.

Module ParamOverrideRuns.

(** ** Positions *)

Lemma list_find_split {A} (P : A -> Prop) `{!forall x, Decision (P x)} l x r :
  Forall (fun y => ~ P y) l -> P x -> list_find P (l ++ x :: r) = Some (length l, x).
Proof.
  intros Hl Hx. induction Hl as [|z l Hz _ IH]; cbn; [by rewrite decide_True|]. rewrite decide_False by done. by rewrite IH.
Qed.

Lemma filter_none {A} (p : A -> bool) l : Forall (fun y => p y = true) l -> List.filter p l = l.
Proof. induction 1 as [|x l Hx _ IH]; [done|]. cbn. by rewrite Hx, IH. Qed.

Lemma hasId_refl o : hasId (id o) o = true.
Proof. by apply bool_decide_eq_true. Qed.

Lemma map_id_on {A} (f : A -> A) l : Forall (fun x => f x = x) l -> map f l = l.
Proof. induction 1 as [|x l Hx _ IH]; [done|]. cbn. by rewrite Hx, IH. Qed.

(** The other elements, when the ids are distinct. *)
Lemma filter_others (l r : list ParamOverrideOperation) o :
  NoDup (map id (l ++ o :: r)) -> List.filter (fun x => negb (hasId (id o) x)) (l ++ o :: r) = l ++ r.
Proof.
  rewrite map_app. cbn [map]. intros (_ & Hd & [Hr _]%NoDup_cons)%NoDup_app.
  rewrite List.filter_app. cbn [List.filter]. unfold hasId at 2. rewrite bool_decide_eq_true_2 by done. cbn [negb].
  assert (forall k, id o ∉ map id k -> List.filter (fun x => negb (hasId (id o) x)) k = k) as H; [|rewrite !H; [done|done|]].
  - intros k Hk. apply filter_none, Forall_forall. intros x Hx. unfold hasId. rewrite bool_decide_eq_false_2; [done|].
    intros E. apply Hk. rewrite <- E. by apply list_elem_of_In, in_map, list_elem_of_In.
  - intros Hin. apply (Hd (id o)); [done|]. constructor.
Qed.

Lemma ids_distinct (l r : list ParamOverrideOperation) o :
  NoDup (map id (l ++ o :: r)) -> Forall (fun x => hasId (id o) x <> true) l.
Proof.
  rewrite map_app. intros (_ & Hd & _)%NoDup_app. apply Forall_forall. intros x Hx.
  unfold hasId. rewrite bool_decide_eq_true. intros E. apply (Hd (id o)); [|constructor].
  rewrite <- E. by apply list_elem_of_In, in_map, list_elem_of_In.
Qed.

(** The moved rule stands right before or after its target, the others keep their order. *)
Lemma reorder_places ops o l y r pos :
  NoDup (map id ops) -> o ∈ ops -> truthy (id o) = true -> truthy (id y) = true ->
  List.filter (fun x => negb (hasId (id o) x)) ops = l ++ y :: r ->
  reorderOperations ops (id o) (id y) pos = match pos with Before => l ++ o :: y :: r | After => l ++ y :: o :: r end.
Proof.
  intros Hd (i & Hi)%list_elem_of_lookup Ho Hy Hf.
  pose proof (list_elem_of_split_length _ _ _ Hi) as (a & b & -> & ->).
  rewrite filter_others in Hf by done.
  assert (id o <> id y) as Hne.
  { pose proof (filter_others a b o Hd) as E. rewrite Hf in E. intros Hid.
    assert (y ∈ List.filter (fun x => negb (hasId (id o) x)) (a ++ o :: b)) as Hin.
    { rewrite E. apply elem_of_app. right. constructor. }
    apply list_elem_of_In, List.filter_In in Hin as [_ Hin]. unfold hasId in Hin. by rewrite bool_decide_eq_true_2 in Hin. }
  assert (NoDup (map id (l ++ y :: r))) as Hd'.
  { rewrite <- Hf. rewrite map_app in *. cbn [map] in Hd. apply NoDup_app in Hd as (Ha & Hab & [_ Hb]%NoDup_cons).
    apply NoDup_app. split_and!; [done| |done]. intros x Hx Hxb. apply (Hab x Hx). by constructor. }
  unfold reorderOperations. rewrite Ho, Hy, bool_decide_eq_false_2 by done. cbn [negb orb].
  rewrite (list_find_split (fun x => hasId (id o) x = true) a o b) by eauto using ids_distinct, hasId_refl.
  rewrite delete_middle, Hf. unfold findIndex.
  rewrite (list_find_split (fun x => hasId (id y) x = true) l y r) by eauto using ids_distinct, hasId_refl.
  cbn [fmap option_fmap option_map fst]. unfold splice_in. destruct pos.
  - by rewrite take_app_length, drop_app_length.
  - change (y :: r) with ([y] ++ r). rewrite app_assoc. replace (S (length l)) with (length (l ++ [y])) by (rewrite length_app; cbn; lia).
    rewrite take_app_length, drop_app_length. by rewrite <- app_assoc.
Qed.

Section Runs.
Variables (now : nat -> Z) (t : jsstr -> option Z -> jsstr) (typeError : jsstr).

#[local] Abbreviation run := (run now t typeError).
#[local] Abbreviation inv := (inv now).

(** C14: Over every run of the editor of parameter overrides, whatever is typed,
    loaded, dragged, duplicated, filled in or removed: there is always a rule,
    the ids of the rules and of the conditions of each rule are distinct, the
    selected id is that of a rule, and every rule and condition has a mode and a
    logic that the editor offers. *)
Theorem editor_invariant s :
  run s ->
  operations s <> [] /\ NoDup (map id (operations s)) /\ selectedOperationId s ∈ map id (operations s) /\
  Forall (fun o => NoDup (map c_id (conditions o)) /\ mode o ∈ OPERATION_MODE_VALUES /\ logic o ∈ [js "OR"; js "AND"] /\
                   Forall (fun c => c_mode c ∈ CONDITION_MODE_VALUES) (conditions o)) (operations s).
Proof.
  intros [[[Hne Hd Hr] _ _] Hs]%run_inv. split_and!; [done|done|done|]. eapply Forall_impl; [exact Hr|].
  intros o [_ Hdc _ Hok]. split_and!; [done|apply Hok|apply Hok|]. eapply Forall_impl; [apply (ok_conditions o Hok)|].
  intros c Hc. apply Hc.
Qed.

(** Dragging a rule onto another: in any run, when rule [o] is dragged over
    the upper or lower half of rule [y] and dropped there, the list afterwards is
    the other rules in their order with [o] right before or right after [y]; [o]
    is selected and the drag is over. *)
Theorem drop_places_rule s o l y r pos data :
  run s -> o ∈ operations s -> List.filter (fun x => negb (hasId (id o) x)) (operations s) = l ++ y :: r ->
  let s' := handleDrop (id y) data (handleDragOver (id y) pos (handleDragStart (id o) s)) in
  operations s' = match pos with Before => l ++ o :: y :: r | After => l ++ y :: o :: r end /\
  selectedOperationId s' = id o /\ drag s' = noDrag.
Proof.
  intros [[[_ Hd Hr] _ _] _]%run_inv Ho Hf. rewrite Forall_forall in Hr.
  assert (forall x, x ∈ operations s -> truthy (id x) = true) as Ht.
  { intros x Hx. destruct (ro_id _ _ _ (Hr x Hx)) as (k & _ & ->). apply localId_truthy. }
  assert (y ∈ operations s /\ id y <> id o) as [Hy Hne].
  { assert (y ∈ List.filter (fun x => negb (hasId (id o) x)) (operations s)) as Hin.
    { rewrite Hf. apply elem_of_app. right. constructor. }
    apply list_elem_of_In, List.filter_In in Hin as [Hin%list_elem_of_In Hn]. split; [done|]. intros E.
    unfold hasId in Hn. by rewrite bool_decide_eq_true_2 in Hn. }
  cbv zeta. unfold handleDragOver, handleDragStart. cbn [drag setDrag setSelectedOperationId draggedOperationId].
  rewrite (Ht o Ho), (bool_decide_eq_false_2 (id o = id y)) by congruence. cbn [negb orb].
  unfold handleDrop. cbn [drag setDrag draggedOperationId dragOverOperationId dragOverPosition].
  rewrite (Ht o Ho), (Ht o Ho), (Ht y Hy), (bool_decide_eq_true_2 (id y = id y)), (bool_decide_eq_false_2 (id o = id y)) by congruence.
  cbn [andb negb]. split_and!; [|done|done]. apply reorder_places; auto.
Qed.

(** ** Saving, opening and changing the mode *)

(** Changing to the visual form reads the text as opening the dialog on it does. *)
Lemma switch_as_open s st n :
  editMode s = JsonEdit -> parseInitialState now (jsonText s) (localIdSeed s) = (Some st, n) -> i_editMode st = VisualEdit ->
  exists s', switchToVisualMode now t s = Some s' /\ operations s' = i_operations st /\ visualMode s' = i_visualMode st /\
    legacyValue s' = i_legacyValue st /\ editMode s' = VisualEdit.
Proof.
  intros He. unfold switchToVisualMode, parseInitialState, withIds, gbind, gret. rewrite He. cbv zeta.
  destruct (truthy (trim (jsonText s))); cbn [negb].
  2:{ destruct (createDefaultOperation now (localIdSeed s)) as [[o|] m]; [|done]. intros [= <- <-] _. by eexists. }
  destruct (JSON_parse (trim (jsonText s))) as [v|].
  2:{ destruct (createDefaultOperation now (localIdSeed s)) as [[o|] m]; [|done]. by intros [= <- <-]. }
  destruct v as [|b|m|x|a|fields];
    try (destruct (createDefaultOperation now (localIdSeed s)) as [[o|] k]; [|done]; by intros [= <- <-]).
  destruct (map_get fields (js "operations")) as [[|b|m|x|a|fs]|];
    try (destruct (createDefaultOperation now (localIdSeed s)) as [[o|] k]; [|done]; intros [= <- <-] _; by eexists).
  destruct (loadOperations now a (localIdSeed s)) as [[os|] k]; [|done]. intros [= <- <-] _. by eexists.
Qed.

Lemma run_rules s : run s -> Forall operation_ok (operations s).
Proof.
  intros [[[_ _ Hr] _ _] _]%run_inv. eapply Forall_impl; [exact Hr|]. intros o Ho. apply Ho.
Qed.

(** The rules of a state are those that were saved, and are saved as [text]. *)
Definition holds_saved (ops : list ParamOverrideOperation) (text : jsstr) (s : Editor) : Prop :=
  editMode s = VisualEdit /\ visualMode s = OperationsMode /\
  map eraseIds (operations s) = map savedOperation (keptRules ops) /\ saveResult t typeError s = Text text.

(** C13: What the visual editor of parameter overrides saves from its list of
    operations, in any run in which no value of a rule or of a condition is typed
    as a quoted JSON string (one that is, such as a quoted number, is opened
    without its quotes), is opened again as the same rules: those that were not
    blank, in their order, each with the fields its mode uses, trimmed, and with
    the conditions that have a path; saving them again writes the very same text.
    The same holds of changing to the text and back.  Translated messages are
    assumed not to be empty. *)
Theorem saved_rules_reopen s text :
  (forall k line, t k line <> []) -> run s -> editMode s = VisualEdit -> visualMode s = OperationsMode ->
  Forall unquoted_values (operations s) -> saveResult t typeError s = Text text -> text <> [] ->
  (exists s1, openDialog now text (handleSave t typeError s) = Some s1 /\ holds_saved (operations s) text s1) /\
  (exists s2, switchToVisualMode now t (switchToJsonMode t typeError s) = Some s2 /\ holds_saved (operations s) text s2).
Proof.
  intros Ht Hrun He Hv Hu Hs Hne. pose proof (run_rules s Hrun) as Hok.
  assert (buildOperationsJson t typeError (operations s) true = Text text) as Hb.
  { unfold saveResult, buildVisualJson in Hs. by rewrite He, Hv in Hs. }
  destruct (rules_reopen now t typeError Ht (operations s) text (localIdSeed s) Hok Hu Hb Hne) as (ops' & n' & Ho & Hsame & Hb').
  split.
  - unfold openDialog, withIds. unfold handleSave. rewrite Hs. cbn [localIdSeed setIsOpen onSave]. rewrite Ho.
    eexists. split; [done|]. split_and!; [done|done|exact Hsame|exact Hb'].
  - set (s0 := switchToJsonMode t typeError s).
    assert (s0 = setEditMode JsonEdit (setJsonError [] (setJsonText text s))) as E.
    { subst s0. unfold switchToJsonMode, buildVisualJson. by rewrite He, Hv, Hb. }
    destruct (switch_as_open s0 (mkInit VisualEdit OperationsMode [] ops' text []) n') as (s' & -> & Hops & Hvm & _ & Hem);
      [by rewrite E|by rewrite E|done|].
    exists s'. split; [done|]. split_and!; [done|done|by rewrite Hops|].
    unfold saveResult, buildVisualJson. by rewrite Hem, Hvm, Hops.
Qed.

(** Every text the dialog saves is empty or reads as JSON, in the layout that
    [JSON.stringify] with an indentation of two gives it, so that formatting it
    again leaves it alone; and what the visual form saves is an object. *)
Theorem saved_text_is_json s text :
  run s -> saveResult t typeError s = Text text ->
  text = [] \/ exists v, JSON_parse text = Some v /\ JSON_pretty v = text /\
                        (editMode s = VisualEdit -> exists fields, v = JObj fields).
Proof.
  intros Hrun. pose proof (run_rules s Hrun) as Hok. apply run_inv in Hrun as [[_ Hj Hl] _].
  assert (forall v, printable v -> (editMode s = VisualEdit -> exists fields, v = JObj fields) ->
    exists w, JSON_parse (JSON_pretty v) = Some w /\ JSON_pretty w = JSON_pretty v /\
      (editMode s = VisualEdit -> exists fields, w = JObj fields)) as Hp.
  { intros v Hv Ho. exists (canon v). split_and!; [by apply pretty_reads|apply pretty_canon, canon_idemp|].
    intros [fs ->]%Ho. cbn [canon]. eauto. }
  unfold saveResult, buildVisualJson. destruct (editMode s).
  - destruct (visualMode s).
    + intros Hb. destruct text as [|c x]; [by left|]. right. apply build_text in Hb as (_ & _ & ->); [|done].
      apply Hp; [apply rulesDoc_printable, kept_Forall, Hok|]. intros _. by eexists.
    + cbv zeta. destruct (truthy (trim (legacyValue s))); cbn [negb]; [|intros [= <-]; by left].
      destruct (JSON_parse (trim (legacyValue s))) as [[|b|m|x|a|fs]|] eqn:E; try done. intros [= <-]. right.
      apply Hp; [|by eauto]. eapply parse_printable; [|exact E]. by apply trim_wf.
  - cbv zeta. destruct (truthy (trim (jsonText s))); cbn [negb]; [|intros [= <-]; by left].
    destruct (JSON_parse (trim (jsonText s))) as [v|] eqn:E; [|done]. intros [= <-]. right.
    apply Hp; [|done]. eapply parse_printable; [|exact E]. by apply trim_wf.
Qed.

(** ** Prune rules *)

(** An updater that changes no draft whose rules have ids from [localIdSeed s] on. *)
Lemma update_prune_same i f s :
  inv s -> (forall d m n, (localIdSeed s <= m)%nat -> Forall (fun r => between now m n (c_id r)) (d_rules d) -> f d = d) ->
  updatePruneObjectsDraft now i (fun d => gret (f d)) s = updatePruneObjectsDraft now i gret s.
Proof.
  intros [[_ _ Hr] _ _] Hf. unfold updatePruneObjectsDraft, withIds.
  assert (forall n, (localIdSeed s <= n)%nat ->
    gmapM (fun op => if hasId i op then let? draft := parsePruneObjectsDraft now (value_text op) in
             let? nextDraft := gret (f draft) in gret (applyPatch (PValueText (buildPruneObjectsValueText nextDraft)) op)
           else gret op) (operations s) n
    = gmapM (fun op => if hasId i op then let? draft := parsePruneObjectsDraft now (value_text op) in
             let? nextDraft := gret draft in gret (applyPatch (PValueText (buildPruneObjectsValueText nextDraft)) op)
           else gret op) (operations s) n) as E; [|by rewrite E].
  induction Hr as [|o os Ho _ IH]; intros n Hn; [done|]. cbn [gmapM]. unfold gbind, gret.
  destruct (hasId i o).
  - destruct (parse_prune_ok now (value_text o) n (ok_value o (ro_ok _ _ _ Ho))) as (d & n' & -> & Hle & _ & Hb).
    rewrite (Hf d n n') by done. unfold gbind, gret in IH. by rewrite IH by lia.
  - unfold gbind, gret in IH. by rewrite IH.
Qed.

Lemma other_ids i d m n :
  Forall (fun r => between now m n (c_id r)) (d_rules d) -> ~ between now m n i ->
  Forall (fun r => hasConditionId i r = false) (d_rules d).
Proof.
  intros Hb Hi. eapply Forall_impl; [exact Hb|]. intros r Hr. apply bool_decide_eq_false. by intros <-.
Qed.

(** The rules of the prune editor cannot be changed.  Their ids are made anew
    each time the text is parsed, so the id that a drawn rule has is never that of
    a rule of the draft a callback works on: changing or removing a drawn rule
    only rebuilds the text from the unchanged draft.  And an added rule, which has
    no path, is left out of the text. *)
Theorem prune_rule_edits_are_lost s d n i r p d' rule m m' :
  run s -> pruneObjectsDraft now s (localIdSeed s) = (Some (Some d), n) -> r ∈ d_rules d ->
  normalizePruneRule now (JObj []) m = (Some rule, m') ->
  let drawn := setSeed n s in
  updatePruneRule now i (c_id r) p drawn = updatePruneObjectsDraft now i gret drawn /\
  removePruneRule now i (c_id r) drawn = updatePruneObjectsDraft now i gret drawn /\
  buildPruneObjectsValueText (setRules (d_rules d' ++ [rule]) d') = buildPruneObjectsValueText d'.
Proof.
  intros [Hi _]%run_inv Hd Hr Hrule drawn. destruct (draft_ids _ _ _ _ Hi Hd) as (x & [= <-] & Hle & Hb).
  specialize (Hb d eq_refl). rewrite Forall_forall in Hb. specialize (Hb r Hr).
  assert (inv drawn) as Hdr by (destruct Hi as [Hr' Hj Hl]; split; [by eapply rules_ok_mono|done|done]).
  assert (forall q a b, (localIdSeed drawn <= a)%nat -> Forall (fun x => between now a b (c_id x)) (d_rules q) ->
    Forall (fun x => hasConditionId (c_id r) x = false) (d_rules q)) as Hother.
  { intros q a b Ha Hq. eapply other_ids; [exact Hq|]. intros (k & Hk & E). destruct Hb as (j & Hj & E').
    rewrite E' in E. apply localId_inj in E. cbn in Ha. lia. }
  split_and!.
  - apply update_prune_same; [done|]. intros q a b Ha Hq. unfold setRules.
    assert (map (fun x => if hasConditionId (c_id r) x then patchCondition p x else x) (d_rules q) = d_rules q) as ->; [|by destruct q].
    apply map_id_on. eapply Forall_impl; [by eapply Hother|]. by intros x ->.
  - apply update_prune_same; [done|]. intros q a b Ha Hq. unfold setRules.
    rewrite filter_none; [by destruct q|]. eapply Forall_impl; [by eapply Hother|]. by intros x ->.
  - assert (c_path rule = []) as Hp.
    { unfold normalizePruneRule, normalizeCondition, gbind, nextLocalId, glift, gret in Hrule. injection Hrule as <- _. reflexivity. }
    unfold buildPruneObjectsValueText. cbn [setRules d_simpleMode d_typeText d_logic d_recursive d_rules].
    rewrite List.filter_app. cbn [List.filter]. rewrite Hp. cbn. by rewrite app_nil_r.
Qed.

(** ** Texts that cannot be opened *)

Lemma gmapM_throws {A B} (f : A -> G B) l x : x ∈ l -> (forall n, (f x n).1 = None) -> forall n, (gmapM f l n).1 = None.
Proof.
  intros Hx Hf. induction l as [|y l IH]; [by apply elem_of_nil in Hx|]. intros n. cbn [gmapM]. unfold gbind.
  apply elem_of_cons in Hx as [<- | Hx].
  - specialize (Hf n). by destruct (f x n) as [[?|] k].
  - destruct (f y n) as [[z|] k]; [|done]. specialize (IH Hx k). by destruct (gmapM f l k) as [[?|] ?].
Qed.

Lemma load_null l n : JNull ∈ l -> (loadOperations now l n).1 = None.
Proof.
  intros Hl. unfold loadOperations. destruct l as [|x l]; [by apply elem_of_nil in Hl|]. by eapply gmapM_throws.
Qed.

(** A null among the rules breaks the dialog.  The text form accepts such a
    text and saves it; opening the dialog on what was saved then throws, and so
    does changing to the visual form. *)
Theorem null_rule_cannot_be_opened s fields ops :
  run s -> editMode s = JsonEdit -> JSON_parse (trim (jsonText s)) = Some (JObj fields) ->
  map_get fields (js "operations") = Some (JArr ops) -> JNull ∈ ops ->
  (exists text, saveResult t typeError s = Text text /\ forall s', openDialog now text s' = None) /\
  switchToVisualMode now t s = None.
Proof.
  intros [[_ Hj _] _]%run_inv He Hp Ho Hn. pose proof (parse_truthy _ _ Hp) as Ht. split.
  - exists (JSON_pretty (JObj fields)). split; [unfold saveResult; rewrite He; cbv zeta; by rewrite Ht, Hp|]. intros s'.
    assert (printable (JObj fields)) as Hpr by (eapply parse_printable; [|exact Hp]; by apply trim_wf).
    pose proof (parse_trim _ _ (pretty_reads _ Hpr)) as Hr. unfold openDialog, withIds, parseInitialState. cbv zeta.
    rewrite (parse_truthy _ _ Hr), Hr. cbn [negb canon]. rewrite canon_get by by inversion Hpr. rewrite Ho.
    cbn [fmap option_fmap option_map canon]. unfold gbind, gret.
    pose proof (load_null (map canon ops) (localIdSeed s')) as E.
    destruct (loadOperations now (map canon ops) (localIdSeed s')) as [[?|] ?]; [|done].
    discriminate E. apply list_elem_of_In, (in_map canon _ JNull), list_elem_of_In, Hn.
  - unfold switchToVisualMode, withIds. rewrite He. cbv zeta. rewrite Ht, Hp, Ho. cbn [negb].
    pose proof (load_null ops (localIdSeed s) Hn) as E. by destruct (loadOperations now ops (localIdSeed s)) as [[?|] ?].
Qed.

(** ** Sessions *)

(** A sequence of events from the first drawing on. *)
Definition session (es : list Event) : option Editor :=
  foldl (fun s e => s ≫= fun s => step now t typeError s e) (keepSelection <$> mounted now) es.

Lemma session_run es s : Forall eventUnits es -> session es = Some s -> run s.
Proof.
  unfold session. intros He. revert s. induction es as [|e es IH] using rev_ind; intros s.
  - cbn. intros (s0 & Hm & ->)%fmap_Some. by constructor.
  - apply Forall_app in He as [He [Hu _]%Forall_cons]. rewrite foldl_app. cbn [foldl].
    intros (s0 & Hs0 & Hs)%bind_Some. eapply run_step; [by apply IH|done|done].
Qed.

End Runs.

(** ** Sample sessions *)

Definition sampleSession (es : list Event) : option Editor :=
  session (fun n => 1700 + Z.of_nat n) (fun k _ => 33 :: k) (js "TypeError") es.

Definition sampleState (es : list Event) : Editor :=
  match sampleSession es with
  | Some s => s
  | None => mkEditor VisualEdit OperationsMode [] [] [] [] [] [] [] noDrag [] 0 false None []
  end.

Lemma sample_run es :
  Forall eventUnits es -> bool_decide (is_Some (sampleSession es)) = true ->
  run (fun n => 1700 + Z.of_nat n) (fun k _ => 33 :: k) (js "TypeError") (sampleState es).
Proof.
  intros He H%bool_decide_eq_true_1. unfold sampleState, sampleSession in *. destruct (session _ _ _ es) as [s|] eqn:E.
  - by eapply session_run.
  - by apply is_Some_None in H.
Qed.

(** Two rules, the second of which prunes. *)
Definition opened : list Event :=
  [Open (Json.jq "{'operations':[{'path':'temperature','mode':'set','value':0.7},{'mode':'prune_objects','value':{'conditions':[{'path':'type','value':'thinking'}]}}]}");
   SelectOperation (js "po_1702_2")].

Definition nullText : list Event := [SwitchToJson; JsonChange (Json.jq "{'operations':[null]}")].

Ltac sample := apply sample_run; [apply Forall_cons; split; [|apply Forall_cons; split; [|apply Forall_nil_2]]; (exact I || closed_str)|vm_compute; reflexivity].

Lemma editor_invariant_witness :
  map id (operations (sampleState opened)) = [js "po_1701_1"; js "po_1702_2"] /\ NoDup (map id (operations (sampleState opened))).
Proof. split; [vm_compute; reflexivity|]. eapply editor_invariant. sample. Defined.

(** The two rules, what they are saved as and the draft of the second. *)
Definition ruleAt (i : nat) : ParamOverrideOperation :=
  nth i (operations (sampleState opened)) (mkOperation [] [] [] [] [] [] [] false [] []).

Definition savedSample : jsstr :=
  match saveResult (fun k _ => 33 :: k) (js "TypeError") (sampleState opened) with Text x => x | Failed _ => [] end.

Definition drawnDraft : PruneObjectsDraft * nat :=
  match pruneObjectsDraft (fun n => 1700 + Z.of_nat n) (sampleState opened) (localIdSeed (sampleState opened)) with
  | (Some (Some d), n) => (d, n)
  | (_, n) => (mkPruneObjects true [] [] true [], n)
  end.

Definition addedRule : ParamOverrideCondition :=
  match normalizePruneRule (fun n => 1700 + Z.of_nat n) (JObj []) 9%nat with
  | (Some r, _) => r
  | _ => mkCondition [] [] [] [] false false
  end.

Lemma drop_places_rule_witness :
  map id (operations (handleDrop (id (ruleAt 0)) [] (handleDragOver (id (ruleAt 0)) Before (handleDragStart (id (ruleAt 1)) (sampleState opened)))))
  = [js "po_1702_2"; js "po_1701_1"].
Proof.
  destruct (drop_places_rule (fun n => 1700 + Z.of_nat n) (fun k _ => 33 :: k) (js "TypeError") (sampleState opened)
    (ruleAt 1) [] (ruleAt 0) [] Before []) as (Ho & _).
  - sample.
  - apply list_elem_of_lookup. exists 1%nat. vm_compute. reflexivity.
  - vm_compute. reflexivity.
  - rewrite Ho. vm_compute. reflexivity.
Defined.

Lemma saved_rules_reopen_witness :
  savedSample <> [] /\ exists s1,
    openDialog (fun n => 1700 + Z.of_nat n) savedSample (handleSave (fun k _ => 33 :: k) (js "TypeError") (sampleState opened)) = Some s1 /\
    map mode (operations s1) = [js "set"; js "prune_objects"].
Proof.
  assert (bool_decide (savedSample = []) = false) as Hne by (vm_compute; reflexivity). apply bool_decide_eq_false in Hne.
  split; [exact Hne|].
  destruct (saved_rules_reopen (fun n => 1700 + Z.of_nat n) (fun k _ => 33 :: k) (js "TypeError") (sampleState opened) savedSample)
    as [(s1 & Ho & _ & _ & Hs & _) _].
  - done.
  - sample.
  - vm_compute. reflexivity.
  - vm_compute. reflexivity.
  - apply (bool_decide_unpack _). vm_compute. reflexivity.
  - vm_compute. reflexivity.
  - exact Hne.
  - exists s1. split; [exact Ho|].
    transitivity (map mode (map eraseIds (operations s1))); [by rewrite map_map|]. rewrite Hs. vm_compute. reflexivity.
Defined.

Lemma saved_text_is_json_witness :
  savedSample = [] \/ exists v, JSON_parse savedSample = Some v /\ JSON_pretty v = savedSample /\
    (editMode (sampleState opened) = VisualEdit -> exists fields, v = JObj fields).
Proof.
  apply (saved_text_is_json (fun n => 1700 + Z.of_nat n) (fun k _ => 33 :: k) (js "TypeError") (sampleState opened) savedSample);
    [sample|vm_compute; reflexivity].
Defined.

Lemma prune_rule_edits_are_lost_witness :
  d_rules (fst drawnDraft) <> [] /\
  Forall (fun r => removePruneRule (fun n => 1700 + Z.of_nat n) (js "po_1702_2") (c_id r) (setSeed (snd drawnDraft) (sampleState opened))
    = updatePruneObjectsDraft (fun n => 1700 + Z.of_nat n) (js "po_1702_2") gret (setSeed (snd drawnDraft) (sampleState opened)))
    (d_rules (fst drawnDraft)).
Proof.
  split.
  - assert (nonempty (d_rules (fst drawnDraft)) = true) as Hn by (vm_compute; reflexivity).
    destruct (d_rules (fst drawnDraft)); [discriminate Hn|discriminate].
  - apply Forall_forall. intros r Hr.
    apply (prune_rule_edits_are_lost (fun n => 1700 + Z.of_nat n) (fun k _ => 33 :: k) (js "TypeError") (sampleState opened)
      (fst drawnDraft) (snd drawnDraft) (js "po_1702_2") r (CInvert true) (fst drawnDraft) addedRule 9%nat 10%nat).
    + sample.
    + vm_compute. reflexivity.
    + exact Hr.
    + vm_compute. reflexivity.
Defined.

Lemma null_rule_cannot_be_opened_witness :
  jsonText (sampleState nullText) = Json.jq "{'operations':[null]}" /\
  switchToVisualMode (fun n => 1700 + Z.of_nat n) (fun k _ => 33 :: k) (sampleState nullText) = None.
Proof.
  split; [vm_compute; reflexivity|].
  apply (null_rule_cannot_be_opened (fun n => 1700 + Z.of_nat n) (fun k _ => 33 :: k) (js "TypeError") (sampleState nullText)
    [(js "operations", JArr [JNull])] [JNull]).
  - sample.
  - vm_compute. reflexivity.
  - vm_compute. reflexivity.
  - vm_compute. reflexivity.
  - by left.
Defined.

End ParamOverrideRuns.
