(* ===== verification/ChannelForm.v ===== *)
(** * Channels: the channel form

    [features/channels/lib/channel-form.ts].  A channel of the server is loaded
    into a form, whose extra and type-specific values live in two JSON texts,
    [setting] and [settings]; the form is validated and turned into the payload
    that creates or updates a channel.

    A value read from these texts can be anything, so such a field is a JSON
    value; the other fields have the declared type.  Optional fields are
    options.  An exception is [None]. *)

From S2P Require Import Prelude JsString JsCollections Json JsonText JsonLocal JsValue AdvancedCustom.
Import Json JsValue AdvancedCustom.

Module ChannelForm.

#[local] Abbreviation text s := (JStr (js s)).

(** ** Data *)

(** The fields of [Channel] that the form reads. *)
Record Channel := mkChannel {
  c_id : Z; c_name : jsstr; c_type : Z; c_base_url : option jsstr; c_openai_organization : option jsstr;
  c_models : jsstr; c_group : jsstr; c_model_mapping : option jsstr; c_priority : option Z;
  c_weight : option Z; c_test_model : option jsstr; c_auto_ban : option Z; c_status : Z;
  c_status_code_mapping : option jsstr; c_tag : option jsstr; c_remark : jsstr; c_setting : option jsstr;
  c_param_override : option jsstr; c_header_override : option jsstr; c_settings : jsstr; c_other : jsstr;
  c_multi_key_mode : jsstr }.

(** The values stored in [setting]. *)
Record ExtraSettings := mkExtra {
  force_format : option json; thinking_to_content : option json; proxy : option json;
  pass_through_body_enabled : option json; system_prompt : option json; system_prompt_override : option json }.

(** The values stored in [settings]. *)
Record TypeSettings := mkTyped {
  is_enterprise_account : option bool; vertex_key_type : option json; aws_key_type : option json;
  azure_responses_version : option json; allow_service_tier : option bool; disable_store : option bool;
  allow_safety_identifier : option bool; allow_include_obfuscation : option bool;
  allow_inference_geo : option bool; allow_speed : option bool; claude_beta_query : option bool;
  disable_task_polling_sleep : option bool; upstream_model_update_check_enabled : option bool;
  upstream_model_update_auto_sync_enabled : option bool; upstream_model_update_ignored_models : option jsstr;
  advanced_custom : option jsstr }.

Record ChannelFormValues := mkForm {
  f_name : jsstr; f_type : Z; f_base_url : option jsstr; f_key : jsstr; f_openai_organization : option jsstr;
  f_models : jsstr; f_group : list jsstr; f_model_mapping : option jsstr; f_priority : option Z;
  f_weight : option Z; f_test_model : option jsstr; f_auto_ban : option Z; f_status : Z;
  f_status_code_mapping : option jsstr; f_tag : option jsstr; f_remark : option jsstr; f_setting : option jsstr;
  f_param_override : option jsstr; f_header_override : option jsstr; f_settings : option jsstr;
  f_other : option jsstr; f_multi_key_mode : option jsstr; f_multi_key_type : option jsstr;
  f_batch_add_set_key_prefix_2_name : option bool; f_key_mode : option jsstr;
  f_extra : ExtraSettings; f_typed : TypeSettings }.

Definition DEFAULT_EXTRA : ExtraSettings :=
  mkExtra (Some (JBool false)) (Some (JBool false)) (Some (JStr [])) (Some (JBool false)) (Some (JStr []))
    (Some (JBool false)).

Definition DEFAULT_TYPED : TypeSettings :=
  mkTyped (Some false) (Some (text "json")) (Some (text "ak_sk")) (Some (JStr [])) (Some false) (Some false)
    (Some false) (Some false) (Some false) (Some false) (Some false) (Some false) (Some false) (Some false)
    (Some []) (Some []).

Definition CHANNEL_FORM_DEFAULT_VALUES : ChannelFormValues :=
  mkForm [] 1 (Some []) [] (Some []) [] [js "default"] (Some []) (Some 0) (Some 0) (Some []) (Some 1) 1
    (Some []) (Some []) (Some []) (Some []) (Some []) (Some []) (Some (js "{}")) (Some [])
    (Some (js "single")) (Some (js "random")) (Some false) (Some (js "append")) DEFAULT_EXTRA DEFAULT_TYPED.

(** [constants.ts] *)
Definition MODEL_FETCHABLE_TYPES : list Z :=
  [1; 4; 14; 17; 20; 23; 24; 25; 26; 27; 31; 34; 35; 40; 42; 43; 47; 48].

(** ** Lists of names *)

Definition parseGroups (groups : jsstr) : list jsstr :=
  if truthy groups then List.filter (fun g => (0 <? length g)%nat) (map trim (split 44 groups)) else [].

Definition parseModels (models : jsstr) : list jsstr :=
  if truthy models then List.filter (fun m => (0 <? length m)%nat) (map trim (split 44 models)) else [].

Definition formatGroups (groups : list jsstr) : jsstr := join [44] groups.
Definition formatModels (models : list jsstr) : jsstr := join [44] models.

(** ** Checks of the fields *)

(** [None] is the exception of [JSON.parse], [Some None] is [undefined]. *)
Definition parseOptionalJson (v : option jsstr) : option (option json) :=
  if negb (has_text v) then Some None else Some <$> JSON_parse (or_empty v).

Definition isJsonObjectValue (v : json) : bool := match v with JObj _ => true | _ => false end.

Definition isOptionalJsonObject (v : option jsstr) : bool :=
  match parseOptionalJson v with
  | Some None => true
  | Some (Some parsed) => isJsonObjectValue parsed
  | None => false
  end.

Definition isOptionalModelMapping (v : option jsstr) : bool :=
  match parseOptionalJson v with
  | Some None => true
  | Some (Some (JObj fields)) =>
      forallb (fun item => match item with JStr _ => true | _ => false end) (Object_values fields)
  | _ => false
  end.

(** [Number.isInteger(code) && code >= 100 && code <= 599] *)
Definition isStatusCode (n : option jnum) : bool :=
  match n with
  | Some n => match num_integer n with Some c => (100 <=? c) && (c <=? 599) | None => false end
  | None => false
  end.

(** The callback of [every]: an exception ends in the [catch]. *)
Definition isStatusCodeEntry (entry : jsstr * json) : option bool :=
  toCode ← Number_of entry.2;
  Some (isStatusCode (num_of_text entry.1) && isStatusCode toCode).

Fixpoint everyEntry (entries : list (jsstr * json)) : option bool :=
  match entries with
  | [] => Some true
  | e :: entries' => ok ← isStatusCodeEntry e; if ok : bool then everyEntry entries' else Some false
  end.

Definition isOptionalStatusCodeMapping (v : option jsstr) : bool :=
  match parseOptionalJson v with
  | Some None => true
  | Some (Some (JObj fields)) => match everyEntry (Object_entries fields) with Some b => b | None => false end
  | _ => false
  end.

(** A property that is a string with text in it. *)
Definition textProp (v : json) (k : jsstr) : bool :=
  match prop v k with Some (JStr s) => truthy (trim s) | _ => false end.

Definition isCodexCredential (v : option jsstr) : bool :=
  match parseOptionalJson v with
  | Some None => true
  | Some (Some parsed) =>
      isJsonObjectValue parsed && textProp parsed (js "access_token") && textProp parsed (js "account_id")
  | None => false
  end.

Definition isVertexJsonKey (v : option jsstr) : bool :=
  match parseOptionalJson v with
  | Some None => true
  | Some (Some (JArr l)) => forallb isJsonObjectValue l
  | Some (Some parsed) => isJsonObjectValue parsed
  | None => false
  end.

(** ** The schema *)

(** The path of an issue and its message. *)
Definition Issue : Type := jsstr * jsstr.

Definition check (ok : bool) (path msg : string) : list Issue := if ok then [] else [(js path, js msg)].

Definition isBoolean (v : option json) : bool := match v with None | Some (JBool _) => true | _ => false end.
Definition isString (v : option json) : bool := match v with None | Some (JStr _) => true | _ => false end.

Definition oneOf (v : option json) (names : list jsstr) : bool :=
  match v with None => true | Some (JStr s) => bool_decide (s ∈ names) | _ => false end.

(** The declared checks of the fields; a field of a declared type needs none. *)
Definition fieldIssues (d : ChannelFormValues) : list Issue :=
  check (truthy (f_name d)) "name" "Channel name is required" ++
  check (0 <=? f_type d) "type" "Channel type is required" ++
  check (truthy (f_models d)) "models" "Models are required" ++
  check (negb (length (f_group d) =? 0)%nat) "group" "Group is required" ++
  check (isOptionalModelMapping (f_model_mapping d)) "model_mapping"
    "Model mapping must be a JSON object with string values" ++
  check (isOptionalStatusCodeMapping (f_status_code_mapping d)) "status_code_mapping"
    "Status code mapping must use valid HTTP status codes" ++
  check (match f_remark d with Some r => (length r <=? 255)%nat | None => true end) "remark"
    "Remark must be less than 255 characters" ++
  check (isOptionalJsonObject (f_setting d)) "setting" "Invalid JSON format" ++
  check (isOptionalJsonObject (f_param_override d)) "param_override" "Invalid JSON format" ++
  check (isOptionalJsonObject (f_header_override d)) "header_override" "Invalid JSON format" ++
  check (isOptionalJsonObject (f_settings d)) "settings" "Invalid JSON format" ++
  check (oneOf (JStr <$> f_multi_key_mode d) [js "single"; js "batch"; js "multi_to_single"]) "multi_key_mode" "" ++
  check (oneOf (JStr <$> f_multi_key_type d) [js "random"; js "polling"]) "multi_key_type" "" ++
  check (oneOf (JStr <$> f_key_mode d) [js "append"; js "replace"]) "key_mode" "" ++
  check (isBoolean (force_format (f_extra d))) "force_format" "" ++
  check (isBoolean (thinking_to_content (f_extra d))) "thinking_to_content" "" ++
  check (isString (proxy (f_extra d))) "proxy" "" ++
  check (isBoolean (pass_through_body_enabled (f_extra d))) "pass_through_body_enabled" "" ++
  check (isString (system_prompt (f_extra d))) "system_prompt" "" ++
  check (isBoolean (system_prompt_override (f_extra d))) "system_prompt_override" "" ++
  check (oneOf (vertex_key_type (f_typed d)) [js "json"; js "api_key"]) "vertex_key_type" "" ++
  check (oneOf (aws_key_type (f_typed d)) [js "ak_sk"; js "api_key"]) "aws_key_type" "" ++
  check (isString (azure_responses_version (f_typed d))) "azure_responses_version" "".

Section Schema.
Variable parseURL : jsstr -> option (jsstr * jsstr).

Definition notSingle (mode : option jsstr) : bool :=
  match mode with Some m => truthy m && negb (bool_decide (m = js "single")) | None => false end.

Definition advancedIssues (d : ChannelFormValues) : option (list Issue) :=
  if f_type d =? CHANNEL_TYPE_ADVANCED_CUSTOM then
    let advancedCustomConfig := parseAdvancedCustomConfig (advanced_custom (f_typed d)) in
    advancedCustomError ← validateAdvancedCustomConfig parseURL advancedCustomConfig;
    relative ← advancedCustomConfigUsesRelativeUpstreamPath advancedCustomConfig;
    Some (match advancedCustomError with Some e => [(js "advanced_custom", message e)] | None => [] end ++
          check (negb (relative && negb (has_text (f_base_url d)))) "base_url"
            "Base URL is required when an advanced route uses an upstream path")
  else Some [].

Definition superRefineIssues (d : ChannelFormValues) : option (list Issue) :=
  advanced ← advancedIssues d;
  Some (
    check (negb (bool_decide (f_type d ∈ [3; 8; 36; 45]) && negb (has_text (f_base_url d)))) "base_url"
      "Base URL is required for this channel type" ++
    advanced ++
    check (negb (bool_decide (f_type d ∈ [3; 18; 21; 39; 41; 49]) && negb (has_text (f_other d)))) "other"
      "This channel type requires additional configuration" ++
    (if f_type d =? 57 then
       check (negb (notSingle (f_multi_key_mode d))) "multi_key_mode"
         "Codex channels do not support batch creation" ++
       check (negb (has_text (Some (f_key d)) && negb (isCodexCredential (Some (f_key d))))) "key"
         "Codex credential must be a JSON object with access_token and account_id"
     else []) ++
    check (negb ((f_type d =? 41) && is_str (vertex_key_type (f_typed d)) (js "json") &&
                 has_text (Some (f_key d)) && negb (isVertexJsonKey (Some (f_key d))))) "key"
      "Vertex AI service account key must be valid JSON" ++
    check (negb ((f_type d =? 41) && is_str (vertex_key_type (f_typed d)) (js "api_key") &&
                 notSingle (f_multi_key_mode d))) "multi_key_mode"
      "Vertex AI API Key mode does not support batch creation").

(** The form passes [channelFormSchema]. *)
Definition channelFormSchema (d : ChannelFormValues) : Prop :=
  fieldIssues d = [] /\ superRefineIssues d = Some [].
End Schema.

(** ** Loading a channel *)

(** [parsed.k || d] *)
Definition orField (parsed : json) (k : string) (d : json) : option json := Some (js_or (prop parsed (js k)) d).

Definition readExtra (setting : option jsstr) : ExtraSettings :=
  match setting with
  | None | Some [] => DEFAULT_EXTRA
  | Some s =>
      match JSON_parse s with
      | None | Some JNull => DEFAULT_EXTRA
      | Some parsed =>
          mkExtra (orField parsed "force_format" (JBool false)) (orField parsed "thinking_to_content" (JBool false))
            (orField parsed "proxy" (JStr [])) (orField parsed "pass_through_body_enabled" (JBool false))
            (orField parsed "system_prompt" (JStr [])) (orField parsed "system_prompt_override" (JBool false))
      end
  end.

(** [parsed.k === true] *)
Definition flag (parsed : json) (k : string) : option bool := Some (is_true (prop parsed (js k))).

(** The list of ignored models as a text, and the text of the advanced routes;
    an exception keeps the values from before it. *)
Definition readIgnored (parsed : json) : option jsstr :=
  match prop parsed (js "upstream_model_update_ignored_models") with
  | Some (JArr l) => String_of (JArr l)
  | _ => Some []
  end.

Definition readAdvanced (parsed : json) : jsstr :=
  match truthy_prop parsed (js "advanced_custom") with
  | Some c => or_empty (stringifyAdvancedCustomConfig c)
  | None => []
  end.

Definition readTyped (settings : jsstr) : TypeSettings :=
  match settings with
  | [] => DEFAULT_TYPED
  | _ =>
      match JSON_parse settings with
      | None | Some JNull => DEFAULT_TYPED
      | Some parsed =>
          mkTyped (flag parsed "openrouter_enterprise") (orField parsed "vertex_key_type" (text "json"))
            (orField parsed "aws_key_type" (text "ak_sk")) (orField parsed "azure_responses_version" (JStr []))
            (flag parsed "allow_service_tier") (flag parsed "disable_store") (flag parsed "allow_safety_identifier")
            (flag parsed "allow_include_obfuscation") (flag parsed "allow_inference_geo")
            (flag parsed "allow_speed") (flag parsed "claude_beta_query") (flag parsed "disable_task_polling_sleep")
            (flag parsed "upstream_model_update_check_enabled") (flag parsed "upstream_model_update_auto_sync_enabled")
            (Some (or_empty (readIgnored parsed)))
            (Some (match readIgnored parsed with Some _ => readAdvanced parsed | None => [] end))
      end
  end.

(** [s || d] on strings. *)
Definition or_text (s d : jsstr) : jsstr := if truthy s then s else d.

Definition transformChannelToFormDefaults (channel : Channel) : ChannelFormValues :=
  mkForm (c_name channel) (c_type channel) (Some (or_empty (c_base_url channel))) []
    (Some (or_empty (c_openai_organization channel))) (c_models channel)
    (parseGroups (or_text (c_group channel) (js "default"))) (Some (or_empty (c_model_mapping channel)))
    (Some (c_priority channel ?? 0)) (Some (c_weight channel ?? 0)) (Some (or_empty (c_test_model channel)))
    (Some (c_auto_ban channel ?? 1)) (c_status channel) (Some (or_empty (c_status_code_mapping channel)))
    (Some (or_empty (c_tag channel))) (Some (c_remark channel)) (Some (or_empty (c_setting channel)))
    (Some (or_empty (c_param_override channel))) (Some (or_empty (c_header_override channel)))
    (Some (or_text (c_settings channel) (js "{}"))) (Some (c_other channel)) (Some (js "single"))
    (Some (or_text (c_multi_key_mode channel) (js "random"))) (Some false) (Some (js "append"))
    (readExtra (c_setting channel)) (readTyped (c_settings channel)).

(** ** Building the two texts *)

Definition settingObject (d : ChannelFormValues) : json :=
  let x := f_extra d in
  JObj [ (js "force_format", js_or (force_format x) (JBool false));
         (js "thinking_to_content", js_or (thinking_to_content x) (JBool false));
         (js "proxy", js_or (proxy x) (JStr []));
         (js "pass_through_body_enabled", js_or (pass_through_body_enabled x) (JBool false));
         (js "system_prompt", js_or (system_prompt x) (JStr []));
         (js "system_prompt_override", js_or (system_prompt_override x) (JBool false)) ].

Definition buildSettingJSON (d : ChannelFormValues) : jsstr := JsonText.JSON_stringify (settingObject d).

Definition Fields : Type := list (jsstr * json).

Definition put (k : string) (v : json) (o : Fields) : Fields := map_set o (js k) v.
(** [if (k in o) delete o[k]] *)
Definition discard (k : string) (o : Fields) : Fields := map_delete o (js k).
Definition put_flag (k : string) (b : option bool) (o : Fields) : Fields := put k (JBool (bool_decide (b = Some true))) o.

Definition putVertex (d : ChannelFormValues) (o : Fields) : Fields :=
  if f_type d =? 41 then put "vertex_key_type" (js_or (vertex_key_type (f_typed d)) (text "json")) o
  else discard "vertex_key_type" o.

Definition putAzure (d : ChannelFormValues) (o : Fields) : Fields :=
  match azure_responses_version (f_typed d) with
  | Some v => if (f_type d =? 3) && json_truthy v then put "azure_responses_version" v o
              else discard "azure_responses_version" o
  | None => discard "azure_responses_version" o
  end.

Definition putEnterprise (d : ChannelFormValues) (o : Fields) : Fields :=
  if f_type d =? 20 then put_flag "openrouter_enterprise" (is_enterprise_account (f_typed d)) o
  else discard "openrouter_enterprise" o.

Definition putAws (d : ChannelFormValues) (o : Fields) : Fields :=
  if f_type d =? 33 then put "aws_key_type" (js_or (aws_key_type (f_typed d)) (text "ak_sk")) o
  else discard "aws_key_type" o.

Definition putServiceTier (d : ChannelFormValues) (o : Fields) : Fields :=
  if (f_type d =? 1) || (f_type d =? 14) then put_flag "allow_service_tier" (allow_service_tier (f_typed d)) o
  else discard "allow_service_tier" o.

Definition putOpenAI (d : ChannelFormValues) (o : Fields) : Fields :=
  let x := f_typed d in
  if f_type d =? 1 then
    put_flag "allow_inference_geo" (allow_inference_geo x)
      (put_flag "allow_include_obfuscation" (allow_include_obfuscation x)
        (put_flag "allow_safety_identifier" (allow_safety_identifier x)
          (put_flag "disable_store" (disable_store x) o)))
  else
    let o := discard "allow_include_obfuscation" (discard "allow_safety_identifier" (discard "disable_store" o)) in
    if negb (f_type d =? 14) then discard "allow_inference_geo" o else o.

Definition putAnthropic (d : ChannelFormValues) (o : Fields) : Fields :=
  let x := f_typed d in
  if f_type d =? 14 then
    put_flag "claude_beta_query" (claude_beta_query x)
      (put_flag "allow_speed" (allow_speed x) (put_flag "allow_inference_geo" (allow_inference_geo x) o))
  else discard "claude_beta_query" (discard "allow_speed" o).

(** The names of the comma-separated list, without repetitions. *)
Definition ignoredModels (d : ChannelFormValues) : list jsstr :=
  set_of (filter_truthy (map trim (split 44 (or_empty (upstream_model_update_ignored_models (f_typed d)))))).

Definition keepDetected (enabled : bool) (o : Fields) : Fields :=
  match map_get o (js "upstream_model_update_last_detected_models"), enabled with
  | Some (JArr _), true => o
  | _, _ => put "upstream_model_update_last_detected_models" (JArr []) o
  end.

Definition keepCheckTime (o : Fields) : Fields :=
  match map_get o (js "upstream_model_update_last_check_time") with
  | Some (JNum _) => o
  | _ => put "upstream_model_update_last_check_time" (JNum (mkNum 0 0)) o
  end.

Definition putUpstream (d : ChannelFormValues) (o : Fields) : Fields :=
  let x := f_typed d in
  let enabled := bool_decide (upstream_model_update_check_enabled x = Some true) in
  if bool_decide (f_type d ∈ MODEL_FETCHABLE_TYPES) then
    keepCheckTime (keepDetected enabled
      (put "upstream_model_update_ignored_models" (JArr (JStr <$> ignoredModels d))
        (put "upstream_model_update_auto_sync_enabled"
           (JBool (enabled && bool_decide (upstream_model_update_auto_sync_enabled x = Some true)))
          (put "upstream_model_update_check_enabled" (JBool enabled) o))))
  else o.

Definition putAdvanced (d : ChannelFormValues) (o : Fields) : Fields :=
  if f_type d =? CHANNEL_TYPE_ADVANCED_CUSTOM then
    match parseAdvancedCustomConfig (advanced_custom (f_typed d)) with
    | Some c => put "advanced_custom" c o
    | None => o
    end
  else discard "advanced_custom" o.

Definition settingsFields (d : ChannelFormValues) (o : Fields) : Fields :=
  putAdvanced d (putUpstream d (put_flag "disable_task_polling_sleep" (disable_task_polling_sleep (f_typed d))
    (putAnthropic d (putOpenAI d (putServiceTier d (putAws d (putEnterprise d (putAzure d (putVertex d o))))))))).

(** The object to start from: the parsed text, or an empty object. *)
Definition existingSettings (d : ChannelFormValues) : json :=
  match f_settings d with
  | Some s => if truthy s && negb (bool_decide (s = js "{}"))
              then match JSON_parse s with Some v => v | None => JObj [] end
              else JObj []
  | None => JObj []
  end.

(** Properties cannot be set on a primitive value; those set on an array are
    not part of its text. *)
Definition buildSettingsJSON (d : ChannelFormValues) : option jsstr :=
  match existingSettings d with
  | JObj o => Some (JsonText.JSON_stringify (JObj (settingsFields d o)))
  | JArr l => Some (JsonText.JSON_stringify (JArr l))
  | _ => None
  end.

(** ** Payloads *)

(** [.replace(/\/+$/, '')] *)
Fixpoint dropSlashes (s : jsstr) : jsstr :=
  match s with 47 :: s' => dropSlashes s' | _ => s end.

Definition normalizeBaseUrl (v : option jsstr) : jsstr :=
  rev (dropSlashes (rev (trim (or_empty v)))).

(** [s || null] *)
Definition text_or_null (s : option jsstr) : json :=
  match s with Some s => if truthy s then JStr s else JNull | None => JNull end.
Definition number_or_null (n : option Z) : json :=
  match n with Some n => if n =? 0 then JNull else JNum (mkNum n 0) | None => JNull end.
Definition number (n : Z) : json := JNum (mkNum n 0).

(** Empty strings become [null]. *)
Definition emptyToNull (o : Fields) : Fields :=
  map (fun '(k, v) => (k, match v with JStr [] => JNull | _ => v end)) o.

(** The fields both payloads share, in the order of the literals. *)
Definition createChannelObject (d : ChannelFormValues) (settings : jsstr) : Fields :=
  [ (js "name", JStr (f_name d)); (js "type", number (f_type d));
    (js "base_url", text_or_null (Some (normalizeBaseUrl (f_base_url d)))); (js "key", JStr (f_key d));
    (js "openai_organization", text_or_null (f_openai_organization d)); (js "models", JStr (f_models d));
    (js "group", JStr (formatGroups (f_group d))); (js "model_mapping", text_or_null (f_model_mapping d));
    (js "priority", number_or_null (f_priority d)); (js "weight", number_or_null (f_weight d));
    (js "test_model", text_or_null (f_test_model d)); (js "auto_ban", number (f_auto_ban d ?? 1));
    (js "status", number (f_status d)); (js "status_code_mapping", text_or_null (f_status_code_mapping d));
    (js "tag", text_or_null (f_tag d)); (js "remark", JStr (or_empty (f_remark d)));
    (js "setting", JStr (buildSettingJSON d)); (js "param_override", text_or_null (f_param_override d));
    (js "header_override", text_or_null (f_header_override d)); (js "settings", JStr settings);
    (js "other", JStr (or_empty (f_other d))) ].

Record CreatePayload := mkCreate {
  mode : jsstr; p_multi_key_mode : option jsstr; p_batch_prefix : option bool; p_channel : Fields }.

Definition transformFormDataToCreatePayload (d : ChannelFormValues) : option CreatePayload :=
  settings ← buildSettingsJSON d;
  let mode := or_text (or_empty (f_multi_key_mode d)) (js "single") in
  Some (mkCreate mode
    (if bool_decide (mode = js "multi_to_single") then f_multi_key_type d else None)
    (if bool_decide (mode = js "batch") then f_batch_add_set_key_prefix_2_name d else None)
    (emptyToNull (createChannelObject d settings))).

Definition updateChannelObject (d : ChannelFormValues) (channelId : Z) (settings : jsstr) : Fields :=
  [ (js "id", number channelId); (js "name", JStr (f_name d)); (js "type", number (f_type d));
    (js "base_url", text_or_null (Some (normalizeBaseUrl (f_base_url d))));
    (js "openai_organization", text_or_null (f_openai_organization d)); (js "models", JStr (f_models d));
    (js "group", JStr (formatGroups (f_group d))); (js "model_mapping", text_or_null (f_model_mapping d));
    (js "priority", number (f_priority d ?? 0)); (js "weight", number (f_weight d ?? 0));
    (js "test_model", text_or_null (f_test_model d)); (js "auto_ban", number (f_auto_ban d ?? 1));
    (js "status_code_mapping", text_or_null (f_status_code_mapping d));
    (js "tag", text_or_null (f_tag d)); (js "remark", JStr (or_empty (f_remark d)));
    (js "setting", JStr (buildSettingJSON d)); (js "param_override", text_or_null (f_param_override d));
    (js "header_override", text_or_null (f_header_override d)); (js "settings", JStr settings);
    (js "other", JStr (or_empty (f_other d))) ].

(** The assignments after the loop. *)
Definition explicitTexts (d : ChannelFormValues) : Fields :=
  [ (js "base_url", JStr (normalizeBaseUrl (f_base_url d)));
    (js "openai_organization", JStr (or_empty (f_openai_organization d)));
    (js "test_model", JStr (or_empty (f_test_model d))); (js "tag", JStr (or_empty (f_tag d)));
    (js "remark", JStr (or_empty (f_remark d))); (js "model_mapping", JStr (or_empty (f_model_mapping d)));
    (js "status_code_mapping", JStr (or_empty (f_status_code_mapping d)));
    (js "param_override", JStr (or_empty (f_param_override d)));
    (js "header_override", JStr (or_empty (f_header_override d))) ].

Definition transformFormDataToUpdatePayload (d : ChannelFormValues) (channelId : Z) : option Fields :=
  settings ← buildSettingsJSON d;
  let payload := updateChannelObject d channelId settings in
  let payload := if truthy (f_key d) && truthy (trim (f_key d))
                 then map_set payload (js "key") (JStr (f_key d)) else payload in
  Some (spread_onto (emptyToNull payload) (explicitTexts d)).

(** ** Other validators of the file *)

Definition validateJSON (v : jsstr) : bool :=
  if negb (truthy v) || negb (truthy (trim v)) then true
  else match JSON_parse v with Some _ => true | None => false end.

Definition validateModelMapping (v : jsstr) : bool :=
  if negb (truthy v) || negb (truthy (trim v)) then true else validateJSON v.

End ChannelForm.
