(* ===== verification/ChannelFormProperties.v ===== *)
(** * Channels: theorems on the channel form

    The sequence of assignments and deletions that builds [settings] against a
    table of the keys each channel type owns; stability of saving and loading;
    what the payloads always and never contain; and how the validators of the
    schema relate to those that run on submission. *)

From S2P Require Import Prelude JsString JsCollections Json JsonText JsonLocal JsValue ModelMapping StatusCodeRisk AdvancedCustom AdvancedCustomProperties ChannelForm.
Import Json JsValue AdvancedCustom AdvancedCustomProperties ChannelForm.

Module ChannelFormProperties.

#[local] Abbreviation text s := (JStr (js s)).

(** ** The keys of [settings] *)

Lemma get_put k v o k' : map_get (put k v o) k' = if decide (js k = k') then Some v else map_get o k'.
Proof. unfold put. case_decide; [subst; apply map_get_set_eq|by apply map_get_set_ne]. Qed.

Lemma get_discard k o k' : map_get (discard k o) k' = if decide (js k = k') then None else map_get o k'.
Proof. unfold discard. case_decide; [subst; apply map_get_delete_eq|by apply map_get_delete_ne]. Qed.

Definition is_on (b : option bool) : json := JBool (bool_decide (b = Some true)).

(** The value of the key after saving when the type of the channel is one of
    the owners of the key; the key is absent otherwise. *)
Definition owned (d : ChannelFormValues) (owners : list Z) (v : json) : option json :=
  if bool_decide (f_type d ∈ owners) then Some v else None.

(** The value of a key that only the types with fetchable models rewrite. *)
Definition fetched (d : ChannelFormValues) (v old : option json) : option json :=
  if bool_decide (f_type d ∈ MODEL_FETCHABLE_TYPES) then v else old.

(** The table: every key the form manages with its new value. *)
Definition managed (d : ChannelFormValues) (old : jsstr -> option json) : list (jsstr * option json) :=
  let x := f_typed d in
  let enabled := bool_decide (upstream_model_update_check_enabled x = Some true) in
  let detected := old (js "upstream_model_update_last_detected_models") in
  let time := old (js "upstream_model_update_last_check_time") in
  [ (js "vertex_key_type", owned d [41] (js_or (vertex_key_type x) (text "json")));
    (js "azure_responses_version",
      match azure_responses_version x with Some v => if json_truthy v then owned d [3] v else None | None => None end);
    (js "openrouter_enterprise", owned d [20] (is_on (is_enterprise_account x)));
    (js "aws_key_type", owned d [33] (js_or (aws_key_type x) (text "ak_sk")));
    (js "allow_service_tier", owned d [1; 14] (is_on (allow_service_tier x)));
    (js "disable_store", owned d [1] (is_on (disable_store x)));
    (js "allow_safety_identifier", owned d [1] (is_on (allow_safety_identifier x)));
    (js "allow_include_obfuscation", owned d [1] (is_on (allow_include_obfuscation x)));
    (js "allow_inference_geo", owned d [1; 14] (is_on (allow_inference_geo x)));
    (js "allow_speed", owned d [14] (is_on (allow_speed x)));
    (js "claude_beta_query", owned d [14] (is_on (claude_beta_query x)));
    (js "disable_task_polling_sleep", Some (is_on (disable_task_polling_sleep x)));
    (js "upstream_model_update_check_enabled",
      fetched d (Some (JBool enabled)) (old (js "upstream_model_update_check_enabled")));
    (js "upstream_model_update_auto_sync_enabled",
      fetched d (Some (JBool (enabled && bool_decide (upstream_model_update_auto_sync_enabled x = Some true))))
        (old (js "upstream_model_update_auto_sync_enabled")));
    (js "upstream_model_update_ignored_models",
      fetched d (Some (JArr (JStr <$> ignoredModels d))) (old (js "upstream_model_update_ignored_models")));
    (js "upstream_model_update_last_detected_models",
      fetched d (match detected with
                 | Some (JArr l) => Some (JArr (if enabled then l else [])) | _ => Some (JArr []) end) detected);
    (js "upstream_model_update_last_check_time",
      fetched d (match time with Some (JNum n) => Some (JNum n) | _ => Some (number 0) end) time);
    (js "advanced_custom",
      if f_type d =? CHANNEL_TYPE_ADVANCED_CUSTOM then
        match parseAdvancedCustomConfig (advanced_custom x) with
        | Some c => Some c
        | None => old (js "advanced_custom")
        end
      else None) ].

Lemma owned_one d t v : owned d [t] v = if f_type d =? t then Some v else None.
Proof.
  unfold owned. destruct (f_type d =? t) eqn:E; bool_hyps.
  - rewrite bool_decide_eq_true_2; [done|]. rewrite E. left.
  - rewrite bool_decide_eq_false_2; [done|]. rewrite list_elem_of_singleton. done.
Qed.

Lemma owned_two d t u v : owned d [t; u] v = if (f_type d =? t) || (f_type d =? u) then Some v else None.
Proof.
  unfold owned. destruct (_ || _) eqn:E.
  - rewrite bool_decide_eq_true_2; [done|]. rewrite elem_of_cons, list_elem_of_singleton.
    bool_hyps. destruct E; bool_hyps; auto.
  - rewrite bool_decide_eq_false_2; [done|]. rewrite elem_of_cons, list_elem_of_singleton.
    bool_hyps. naive_solver.
Qed.

(** One lemma per assignment. *)
Lemma get_vertex d o k : map_get (putVertex d o) k =
  if decide (js "vertex_key_type" = k) then owned d [41] (js_or (vertex_key_type (f_typed d)) (text "json"))
  else map_get o k.
Proof. rewrite owned_one. unfold putVertex. case_match; [apply get_put|apply get_discard]. Qed.

Lemma get_azure d o k : map_get (putAzure d o) k =
  if decide (js "azure_responses_version" = k) then
    match azure_responses_version (f_typed d) with
    | Some v => if json_truthy v then owned d [3] v else None | None => None end
  else map_get o k.
Proof.
  unfold putAzure. destruct (azure_responses_version _) as [v|]; [|apply get_discard]. rewrite owned_one.
  destruct (f_type d =? 3), (json_truthy v); cbn [andb]; first [apply get_put|apply get_discard].
Qed.

Lemma get_enterprise d o k : map_get (putEnterprise d o) k =
  if decide (js "openrouter_enterprise" = k) then owned d [20] (is_on (is_enterprise_account (f_typed d)))
  else map_get o k.
Proof. rewrite owned_one. unfold putEnterprise. case_match; [apply get_put|apply get_discard]. Qed.

Lemma get_aws d o k : map_get (putAws d o) k =
  if decide (js "aws_key_type" = k) then owned d [33] (js_or (aws_key_type (f_typed d)) (text "ak_sk"))
  else map_get o k.
Proof. rewrite owned_one. unfold putAws. case_match; [apply get_put|apply get_discard]. Qed.

Lemma get_tier d o k : map_get (putServiceTier d o) k =
  if decide (js "allow_service_tier" = k) then owned d [1; 14] (is_on (allow_service_tier (f_typed d)))
  else map_get o k.
Proof. rewrite owned_two. unfold putServiceTier. case_match; [apply get_put|apply get_discard]. Qed.

Lemma get_flags d o k : map_get (putAnthropic d (putOpenAI d o)) k =
  if decide (js "disable_store" = k) then owned d [1] (is_on (disable_store (f_typed d)))
  else if decide (js "allow_safety_identifier" = k) then owned d [1] (is_on (allow_safety_identifier (f_typed d)))
  else if decide (js "allow_include_obfuscation" = k) then owned d [1] (is_on (allow_include_obfuscation (f_typed d)))
  else if decide (js "allow_inference_geo" = k) then owned d [1; 14] (is_on (allow_inference_geo (f_typed d)))
  else if decide (js "allow_speed" = k) then owned d [14] (is_on (allow_speed (f_typed d)))
  else if decide (js "claude_beta_query" = k) then owned d [14] (is_on (claude_beta_query (f_typed d)))
  else map_get o k.
Proof.
  rewrite !owned_two, !owned_one. unfold putAnthropic, putOpenAI, put_flag, is_on.
  destruct (f_type d =? 1) eqn:E1, (f_type d =? 14) eqn:E14; bool_hyps; [lia|..]; cbn [negb orb];
    repeat first [rewrite get_put | rewrite get_discard];
    repeat (case_decide; [subst; reflexivity|]); done.
Qed.

Lemma get_detected b o k : map_get (keepDetected b o) k =
  if decide (js "upstream_model_update_last_detected_models" = k) then
    match map_get o (js "upstream_model_update_last_detected_models") with
    | Some (JArr l) => Some (JArr (if b then l else [])) | _ => Some (JArr []) end
  else map_get o k.
Proof.
  unfold keepDetected. destruct (map_get o (js "upstream_model_update_last_detected_models")) as [[]|] eqn:E;
    try apply get_put. destruct b; [|apply get_put]. case_decide; [by subst|done].
Qed.

Lemma get_time o k : map_get (keepCheckTime o) k =
  if decide (js "upstream_model_update_last_check_time" = k) then
    match map_get o (js "upstream_model_update_last_check_time") with
    | Some (JNum n) => Some (JNum n) | _ => Some (number 0) end
  else map_get o k.
Proof.
  unfold keepCheckTime. destruct (map_get o (js "upstream_model_update_last_check_time")) as [[]|] eqn:E;
    try apply get_put. case_decide; [by subst|done].
Qed.

Lemma get_upstream d o k : map_get (putUpstream d o) k =
  let x := f_typed d in
  let enabled := bool_decide (upstream_model_update_check_enabled x = Some true) in
  if decide (js "upstream_model_update_check_enabled" = k) then fetched d (Some (JBool enabled)) (map_get o k)
  else if decide (js "upstream_model_update_auto_sync_enabled" = k) then
    fetched d (Some (JBool (enabled && bool_decide (upstream_model_update_auto_sync_enabled x = Some true)))) (map_get o k)
  else if decide (js "upstream_model_update_ignored_models" = k) then
    fetched d (Some (JArr (JStr <$> ignoredModels d))) (map_get o k)
  else if decide (js "upstream_model_update_last_detected_models" = k) then
    fetched d (match map_get o k with
               | Some (JArr l) => Some (JArr (if enabled then l else [])) | _ => Some (JArr []) end) (map_get o k)
  else if decide (js "upstream_model_update_last_check_time" = k) then
    fetched d (match map_get o k with Some (JNum n) => Some (JNum n) | _ => Some (number 0) end) (map_get o k)
  else map_get o k.
Proof.
  unfold putUpstream, fetched. cbv zeta. destruct (bool_decide (f_type d ∈ _)); [|by repeat case_decide].
  rewrite get_time, !get_detected, !get_put.
  repeat (case_decide; [subst; reflexivity|]). done.
Qed.

Lemma get_advanced d o k : map_get (putAdvanced d o) k =
  if decide (js "advanced_custom" = k) then
    if f_type d =? CHANNEL_TYPE_ADVANCED_CUSTOM then
      match parseAdvancedCustomConfig (advanced_custom (f_typed d)) with Some c => Some c | None => map_get o k end
    else None
  else map_get o k.
Proof.
  unfold putAdvanced. destruct (f_type d =? _); [|apply get_discard].
  destruct (parseAdvancedCustomConfig _); [apply get_put|by case_decide].
Qed.

Lemma settings_table d o k :
  map_get (settingsFields d o) k
  = match map_get (managed d (map_get o)) k with Some v => v | None => map_get o k end.
Proof.
  unfold settingsFields, put_flag. rewrite get_advanced, get_upstream, get_put. cbv zeta.
  rewrite get_flags, get_tier, get_aws, get_enterprise, get_azure, get_vertex.
  unfold managed. cbn [map_get]. repeat (case_decide; [subst; reflexivity|]). done.
Qed.

(** C9: what saving does to the settings of a channel.  The keys the form
    manages get the value of the table, where a key that belongs to other
    channel types is taken away, and every other key keeps its value. *)
Theorem settings_follow_the_table d o k :
  map_get (settingsFields d o) k
  = match map_get (managed d (map_get o)) k with Some v => v | None => map_get o k end.
Proof. apply settings_table. Qed.

(** ** Saving, loading and saving again *)

Lemma put_same k v o : map_get o (js k) = Some v -> put k v o = o.
Proof. apply map_set_same. Qed.

Lemma discard_absent k o : map_get o (js k) = None -> discard k o = o.
Proof. apply map_delete_absent. Qed.

(** A key of the table, computed. *)
Ltac table k := rewrite (settings_table _ _ (js k)); reflexivity.

Section Stable.
Variables (d : ChannelFormValues) (o : Fields) (ch : Channel).

#[local] Abbreviation o1 := (settingsFields d o).
#[local] Abbreviation saved := (JsonText.JSON_stringify (JObj (settingsFields d o))).
#[local] Abbreviation d1 := (transformChannelToFormDefaults ch).

Hypothesis saved_wf : JsonText.wf_json (JObj o1).
Hypothesis loaded : c_settings ch = saved.
Hypothesis same_type : c_type ch = f_type d.
Hypothesis advanced_valid :
  f_type d = CHANNEL_TYPE_ADVANCED_CUSTOM -> parseAdvancedCustomConfig (advanced_custom (f_typed d)) <> None.

Lemma saved_parses : JSON_parse saved = Some (JObj o1).
Proof. by apply JsonText.parse_stringify. Qed.

Lemma saved_not_empty : saved <> [] /\ saved <> js "{}".
Proof.
  assert (JSON_parse [] = None /\ JSON_parse (js "{}") = Some (JObj [])) as [H0 H1] by (by vm_compute).
  pose proof saved_parses as H. split; intros E; rewrite E in H; [congruence|].
  assert (map_get o1 (js "disable_task_polling_sleep")
    = Some (is_on (disable_task_polling_sleep (f_typed d)))) as Hk by table "disable_task_polling_sleep".
  rewrite H1 in H. injection H as H. by rewrite <- H in Hk.
Qed.

Lemma typed_read : f_typed d1 =
  mkTyped (flag (JObj o1) "openrouter_enterprise") (orField (JObj o1) "vertex_key_type" (text "json"))
    (orField (JObj o1) "aws_key_type" (text "ak_sk")) (orField (JObj o1) "azure_responses_version" (JStr []))
    (flag (JObj o1) "allow_service_tier") (flag (JObj o1) "disable_store") (flag (JObj o1) "allow_safety_identifier")
    (flag (JObj o1) "allow_include_obfuscation") (flag (JObj o1) "allow_inference_geo")
    (flag (JObj o1) "allow_speed") (flag (JObj o1) "claude_beta_query") (flag (JObj o1) "disable_task_polling_sleep")
    (flag (JObj o1) "upstream_model_update_check_enabled") (flag (JObj o1) "upstream_model_update_auto_sync_enabled")
    (Some (or_empty (readIgnored (JObj o1))))
    (Some (match readIgnored (JObj o1) with Some _ => readAdvanced (JObj o1) | None => [] end)).
Proof.
  cbn [transformChannelToFormDefaults f_typed]. rewrite loaded. unfold readTyped. rewrite saved_parses.
  destruct saved_not_empty as [Hne _]. by destruct saved.
Qed.

Lemma type_read : f_type d1 = f_type d.
Proof. exact same_type. Qed.

(** A flag is read back and written again. *)
Lemma flag_again k b : map_get o1 (js k) = Some (is_on b) -> put_flag k (flag (JObj o1) k) o1 = o1.
Proof.
  intros H. unfold put_flag, flag. cbn [prop]. rewrite H. apply put_same. rewrite H. unfold is_on.
  by destruct (bool_decide (b = Some true)).
Qed.

Lemma vertex_again : putVertex d1 o1 = o1.
Proof.
  unfold putVertex. rewrite type_read, typed_read. cbn [vertex_key_type].
  assert (map_get o1 (js "vertex_key_type") = owned d [41] (js_or (vertex_key_type (f_typed d)) (text "json")))
    as H by table "vertex_key_type".
  rewrite owned_one in H. destruct (f_type d =? 41); [|by apply discard_absent].
  apply put_same. unfold orField. cbn [prop]. by rewrite H, !js_or_idemp.
Qed.

Lemma aws_again : putAws d1 o1 = o1.
Proof.
  unfold putAws. rewrite type_read, typed_read. cbn [aws_key_type].
  assert (map_get o1 (js "aws_key_type") = owned d [33] (js_or (aws_key_type (f_typed d)) (text "ak_sk")))
    as H by table "aws_key_type".
  rewrite owned_one in H. destruct (f_type d =? 33); [|by apply discard_absent].
  apply put_same. unfold orField. cbn [prop]. by rewrite H, !js_or_idemp.
Qed.

Lemma azure_again : putAzure d1 o1 = o1.
Proof.
  unfold putAzure. rewrite type_read, typed_read. cbn [azure_responses_version]. unfold orField.
  cbn [prop].
  assert (map_get o1 (js "azure_responses_version") =
    match azure_responses_version (f_typed d) with
    | Some v => if json_truthy v then owned d [3] v else None | None => None end) as H
    by table "azure_responses_version".
  rewrite H. destruct (azure_responses_version (f_typed d)) as [v|]; [|cbn; rewrite andb_false_r; by apply discard_absent].
  destruct (json_truthy v) eqn:Ev; [|cbn; rewrite andb_false_r; by apply discard_absent].
  rewrite owned_one in *. destruct (f_type d =? 3); [|by apply discard_absent].
  cbn [js_or]. rewrite Ev. cbn [andb]. rewrite Ev. by apply put_same.
Qed.

Lemma enterprise_again : putEnterprise d1 o1 = o1.
Proof.
  unfold putEnterprise. rewrite type_read, typed_read. cbn [is_enterprise_account].
  assert (map_get o1 (js "openrouter_enterprise") = owned d [20] (is_on (is_enterprise_account (f_typed d))))
    as H by table "openrouter_enterprise".
  rewrite owned_one in H. destruct (f_type d =? 20); [by eapply flag_again|by apply discard_absent].
Qed.

Lemma tier_again : putServiceTier d1 o1 = o1.
Proof.
  unfold putServiceTier. rewrite type_read, typed_read. cbn [allow_service_tier].
  assert (map_get o1 (js "allow_service_tier") = owned d [1; 14] (is_on (allow_service_tier (f_typed d))))
    as H by table "allow_service_tier".
  rewrite owned_two in H. destruct (_ || _); [by eapply flag_again|by apply discard_absent].
Qed.

Lemma openai_again : putOpenAI d1 o1 = o1.
Proof.
  assert (map_get o1 (js "disable_store") = owned d [1] (is_on (disable_store (f_typed d)))) as H1 by table "disable_store".
  assert (map_get o1 (js "allow_safety_identifier") = owned d [1] (is_on (allow_safety_identifier (f_typed d))))
    as H2 by table "allow_safety_identifier".
  assert (map_get o1 (js "allow_include_obfuscation") = owned d [1] (is_on (allow_include_obfuscation (f_typed d))))
    as H3 by table "allow_include_obfuscation".
  assert (map_get o1 (js "allow_inference_geo") = owned d [1; 14] (is_on (allow_inference_geo (f_typed d))))
    as H4 by table "allow_inference_geo".
  rewrite owned_one in H1, H2, H3. rewrite owned_two in H4.
  unfold putOpenAI. rewrite type_read, typed_read. cbv zeta.
  cbn [disable_store allow_safety_identifier allow_include_obfuscation allow_inference_geo].
  destruct (f_type d =? 1); cbn [orb] in H4.
  - by rewrite (flag_again _ _ H1), (flag_again _ _ H2), (flag_again _ _ H3), (flag_again _ _ H4).
  - rewrite (discard_absent _ _ H1), (discard_absent _ _ H2), (discard_absent _ _ H3).
    destruct (f_type d =? 14); [done|by apply discard_absent].
Qed.

Lemma anthropic_again : putAnthropic d1 o1 = o1.
Proof.
  assert (map_get o1 (js "allow_inference_geo") = owned d [1; 14] (is_on (allow_inference_geo (f_typed d))))
    as H1 by table "allow_inference_geo".
  assert (map_get o1 (js "allow_speed") = owned d [14] (is_on (allow_speed (f_typed d)))) as H2 by table "allow_speed".
  assert (map_get o1 (js "claude_beta_query") = owned d [14] (is_on (claude_beta_query (f_typed d))))
    as H3 by table "claude_beta_query".
  rewrite owned_one in H2, H3. rewrite owned_two in H1.
  unfold putAnthropic. rewrite type_read, typed_read. cbv zeta.
  cbn [allow_speed claude_beta_query allow_inference_geo]. destruct (f_type d =? 14).
  - rewrite orb_true_r in H1. by rewrite (flag_again _ _ H1), (flag_again _ _ H2), (flag_again _ _ H3).
  - by rewrite (discard_absent _ _ H2), (discard_absent _ _ H3).
Qed.

Lemma sleep_again :
  put_flag "disable_task_polling_sleep" (disable_task_polling_sleep (f_typed d1)) o1 = o1.
Proof.
  rewrite typed_read. cbn [disable_task_polling_sleep].
  apply (flag_again _ (disable_task_polling_sleep (f_typed d))). table "disable_task_polling_sleep".
Qed.

Lemma String_of_names ms : String_of (JArr (JStr <$> ms)) = Some (join [44] ms).
Proof.
  cbn [String_of]. assert (mapM (fun x => match x with JNull => Some [] | _ => String_of x end) (JStr <$> ms) = Some ms) as ->; [|done].
  apply mapM_Some. induction ms; constructor; done.
Qed.

Lemma parse_names s : filter_truthy (map trim (split 44 s)) = ModelMapping.parseModelsString s.
Proof. unfold ModelMapping.parseModelsString. by destruct s. Qed.

Lemma ignored_again ms :
  map_get o1 (js "upstream_model_update_ignored_models") = Some (JArr (JStr <$> ms)) ->
  ms = ignoredModels d -> ignoredModels d1 = ms.
Proof.
  intros H ->. unfold ignoredModels at 1. rewrite typed_read. cbn [upstream_model_update_ignored_models].
  unfold readIgnored. cbn [prop]. rewrite H, String_of_names. cbn [or_empty]. rewrite parse_names.
  unfold ignoredModels. rewrite parse_names. rewrite ModelMapping.parse_join.
  - apply set_of_id, set_of_nodup.
  - apply ModelMapping.set_of_clean, ModelMapping.parseModelsString_clean.
Qed.

Lemma upstream_again : putUpstream d1 o1 = o1.
Proof.
  pose (enabled := bool_decide (upstream_model_update_check_enabled (f_typed d) = Some true)).
  unfold putUpstream. rewrite type_read. cbv zeta. destruct (bool_decide (f_type d ∈ _)) eqn:Et; [|done].
  assert (map_get o1 (js "upstream_model_update_check_enabled") = fetched d (Some (JBool enabled)) (map_get o (js "upstream_model_update_check_enabled")))
    as H1 by table "upstream_model_update_check_enabled".
  assert (map_get o1 (js "upstream_model_update_auto_sync_enabled") =
    fetched d (Some (JBool (enabled && bool_decide (upstream_model_update_auto_sync_enabled (f_typed d) = Some true))))
      (map_get o (js "upstream_model_update_auto_sync_enabled"))) as H2 by table "upstream_model_update_auto_sync_enabled".
  assert (map_get o1 (js "upstream_model_update_ignored_models") =
    fetched d (Some (JArr (JStr <$> ignoredModels d))) (map_get o (js "upstream_model_update_ignored_models"))) as H3
    by table "upstream_model_update_ignored_models".
  assert (map_get o1 (js "upstream_model_update_last_detected_models") =
    fetched d (match map_get o (js "upstream_model_update_last_detected_models") with
               | Some (JArr l) => Some (JArr (if enabled then l else [])) | _ => Some (JArr []) end)
      (map_get o (js "upstream_model_update_last_detected_models"))) as H4 by table "upstream_model_update_last_detected_models".
  assert (map_get o1 (js "upstream_model_update_last_check_time") =
    fetched d (match map_get o (js "upstream_model_update_last_check_time") with
               | Some (JNum n) => Some (JNum n) | _ => Some (number 0) end)
      (map_get o (js "upstream_model_update_last_check_time"))) as H5 by table "upstream_model_update_last_check_time".
  unfold fetched in *. rewrite Et in *. rewrite (ignored_again _ H3 eq_refl). rewrite typed_read.
  cbn [upstream_model_update_check_enabled upstream_model_update_auto_sync_enabled]. unfold flag. cbn [prop].
  rewrite H1, H2.
  assert (bool_decide (Some (is_true (Some (JBool enabled))) = Some true) = enabled) as -> by (by destruct enabled).
  rewrite (put_same _ _ _ H1).
  match type of H2 with _ = Some (JBool ?b) => assert (enabled && bool_decide (Some (is_true (Some (JBool b))) = Some true) = b)
    as -> by (destruct enabled; [|done]; cbn [andb]; by case_bool_decide) end.
  rewrite (put_same _ _ _ H2), (put_same _ _ _ H3).
  assert (keepDetected enabled o1 = o1) as ->.
  { unfold keepDetected. rewrite H4. destruct (map_get o _) as [[]|]; destruct enabled; try done; by apply put_same. }
  unfold keepCheckTime. rewrite H5. destruct (map_get o (js "upstream_model_update_last_check_time")) as [[]|]; reflexivity.
Qed.

Lemma advanced_again : putAdvanced d1 o1 = o1.
Proof.
  assert (map_get o1 (js "advanced_custom") =
    if f_type d =? CHANNEL_TYPE_ADVANCED_CUSTOM then
      match parseAdvancedCustomConfig (advanced_custom (f_typed d)) with
      | Some c => Some c | None => map_get o (js "advanced_custom") end
    else None) as H by table "advanced_custom".
  unfold putAdvanced. rewrite type_read. destruct (f_type d =? _) eqn:Et; [|by apply discard_absent].
  bool_hyps. specialize (advanced_valid Et).
  destruct (parseAdvancedCustomConfig (advanced_custom (f_typed d))) as [c|] eqn:Ec; [|done].
  rewrite typed_read. cbn [advanced_custom]. destruct (readIgnored (JObj o1)) as [ig|]; [|done].
  unfold readAdvanced, truthy_prop. cbn [prop]. rewrite H.
  pose proof (parsed_normalized _ _ Ec) as Hn. pose proof Hn as (l & l' & _ & _ & El)%normalizeConfig_Some.
  assert (json_truthy c = true) as -> by (by rewrite El).
  unfold stringifyAdvancedCustomConfig. rewrite Hn. cbn [fmap option_fmap option_map or_empty].
  rewrite (roundtrip_text _ _ Hn); [by apply put_same|]. by eapply wf_get.
Qed.

Lemma fields_again : settingsFields d1 o1 = o1.
Proof.
  unfold settingsFields at 1. rewrite vertex_again, azure_again, enterprise_again, aws_again, tier_again,
    openai_again, anthropic_again, sleep_again, upstream_again. apply advanced_again.
Qed.

Lemma settings_again : buildSettingsJSON d1 = Some saved.
Proof.
  unfold buildSettingsJSON, existingSettings. cbn [transformChannelToFormDefaults f_settings].
  rewrite loaded. destruct saved_not_empty as [H1 H2]. unfold or_text.
  assert (truthy saved = true) as Ht by (by destruct saved). rewrite Ht, Ht.
  rewrite bool_decide_eq_false_2 by done. cbn [negb andb]. rewrite saved_parses.
  by rewrite fields_again.
Qed.
End Stable.

(** C10: saving is stable.  If a channel is saved, loaded again and saved without
    a change, its settings are the same text as after the first time, whatever
    other keys they hold. *)
Theorem saved_settings_are_stable d o saved ch :
  existingSettings d = JObj o -> buildSettingsJSON d = Some saved ->
  JsonText.wf_json (JObj (settingsFields d o)) ->
  (f_type d = CHANNEL_TYPE_ADVANCED_CUSTOM -> parseAdvancedCustomConfig (advanced_custom (f_typed d)) <> None) ->
  c_type ch = f_type d -> c_settings ch = saved ->
  buildSettingsJSON (transformChannelToFormDefaults ch) = Some saved.
Proof.
  intros Ho Hb Hw Ha Ht Hc. unfold buildSettingsJSON in Hb. rewrite Ho in Hb. injection Hb as <-.
  by apply settings_again.
Qed.

Definition sample_form : ChannelFormValues :=
  mkForm (js "c") 1 (Some (js " https://x// ")) (js "k") None (js "gpt-4") [js "default"] None None None None None 1
    None None None None None None (Some (jq "{'note':'kept','vertex_key_type':'json'}")) None None None None None
    DEFAULT_EXTRA DEFAULT_TYPED.

Definition sample_channel (settings : jsstr) : Channel :=
  mkChannel 7 (js "c") 1 None None (js "gpt-4") (js "default") None None None None None 1 None None [] None None None
    settings [] (js "random").

Definition sample_saved : jsstr := default [] (buildSettingsJSON sample_form).

Lemma saved_settings_are_stable_witness :
  buildSettingsJSON sample_form = Some sample_saved /\
  buildSettingsJSON (transformChannelToFormDefaults (sample_channel sample_saved)) = Some sample_saved.
Proof.
  split; [by vm_compute|].
  apply (saved_settings_are_stable sample_form
    [(js "note", text "kept"); (js "vertex_key_type", text "json")] sample_saved (sample_channel sample_saved));
    [by vm_compute|by vm_compute| |done|done|done].
  by apply JsonText.wf_jsonb_sound; vm_compute.
Defined.

(** ** Validators *)

(** the check of the schema and the check on submission agree on every
    model mapping, although they are written separately. *)
Theorem mapping_validators_agree m :
  isOptionalModelMapping (Some m) = ModelMapping.valid (ModelMapping.validateModelMappingJson m).
Proof.
  unfold isOptionalModelMapping, parseOptionalJson, ModelMapping.validateModelMappingJson, ModelMapping.blankMapping.
  cbn [has_text or_empty]. destruct m as [|c m]; [done|]. cbn [truthy negb orb].
  destruct (truthy (trim (c :: m))); cbn [negb]; [|done].
  destruct (JSON_parse (c :: m)) as [[| | | | |fields]|]; try done. cbn [fmap option_fmap option_map as_plain_object].
  assert (forall l, forallb (fun item => match item with JStr _ => true | _ => false end) l
    = negb (existsb (fun v => match v with JStr _ => false | _ => true end) l)) as ->.
  { induction l as [|x l IH]; [done|]. cbn [forallb existsb]. rewrite IH. by destruct x. }
  by destruct (existsb _ _).
Qed.

Lemma codeText_number s :
  StatusCodeRisk.isCodeText (trim s) = true ->
  num_of_text s = Some (mkNum (parseDec (trim s)) 0) /\ 100 <= parseDec (trim s) <= 599.
Proof.
  unfold num_of_text. destruct (trim s) as [|a [|b [|c [|]]]]; try done. cbn [StatusCodeRisk.isCodeText truthy negb].
  intros H. bool_hyps. assert (is_digit a = true) as Ha by (unfold is_digit; lia).
  cbn [radix_prefix]. replace (a =? 48) with false by lia. cbn [negb accept].
  replace (a =? 45) with false by lia. replace (a =? 43) with false by lia.
  cbn [take_digits]. rewrite Ha, H1, H0. cbn [prod_map fst snd id accept app truthy negb parse_exp length Z.of_nat].
  split; [by rewrite Z.sub_0_r|]. unfold is_digit in *. bool_hyps. unfold parseDec. cbn [fold_left]. lia.
Qed.

Lemma num_integer_of n : num_integer (mkNum n 0) = Some n.
Proof. unfold num_integer. cbn [expo mant Z.leb Z.compare]. rewrite Z.pow_0_r. by rewrite Z.mul_1_r. Qed.

Lemma key_accepted k c : StatusCodeRisk.parseStatusCodeKey k = Some c -> isStatusCode (num_of_text k) = true.
Proof.
  unfold StatusCodeRisk.parseStatusCodeKey. destruct (StatusCodeRisk.isCodeText (trim k)) eqn:E; [|done].
  intros _. destruct (codeText_number k E) as [-> H]. unfold isStatusCode. rewrite num_integer_of. lia.
Qed.

Lemma target_accepted v c :
  StatusCodeRisk.parseStatusCodeMappingTarget v = Some c -> exists n, Number_of v = Some n /\ isStatusCode n = true.
Proof.
  unfold StatusCodeRisk.parseStatusCodeMappingTarget, StatusCodeRisk.inCodeRange.
  destruct v as [| |n|s| |]; try done; cbn [Number_of].
  - intros H. exists (Some n). split; [done|]. unfold isStatusCode.
    destruct (num_integer n) as [z|]; [|done]. by destruct ((100 <=? z) && (z <=? 599)).
  - destruct (StatusCodeRisk.isCodeText (trim s)) eqn:E; [|done]. intros _.
    destruct (codeText_number s E) as [-> H]. eexists. split; [done|]. unfold isStatusCode.
    rewrite num_integer_of. lia.
Qed.

(** the guard on submission is the stricter one: a mapping in which it finds
    no invalid entry passes the schema. *)
Theorem guard_is_stricter s fields :
  ModelMapping.parseObject s = Some fields ->
  StatusCodeRisk.collectInvalidStatusCodeEntries s = Some [] -> isOptionalStatusCodeMapping (Some s) = true.
Proof.
  intros Hp. unfold StatusCodeRisk.collectInvalidStatusCodeEntries.
  rewrite (StatusCodeRisk.parseObject_not_blank _ _ Hp), Hp. cbn [negb]. intros H.
  unfold isOptionalStatusCodeMapping, parseOptionalJson. cbn [has_text or_empty].
  rewrite (StatusCodeRisk.parseObject_not_blank _ _ Hp). cbn [negb].
  unfold ModelMapping.parseObject in Hp. destruct (JSON_parse s) as [[| | | | |fs]|]; try done.
  injection Hp as ->. cbn [fmap option_fmap option_map].
  enough (everyEntry (Object_entries fields) = Some true) as -> by done. revert H.
  induction (Object_entries fields) as [|[k v] l IH]; [done|]. cbn [StatusCodeRisk.invalidEntries everyEntry].
  destruct (StatusCodeRisk.parseStatusCodeKey k) as [c|] eqn:Ek.
  - destruct (StatusCodeRisk.parseStatusCodeMappingTarget v) as [c'|] eqn:Ev.
    + intros H. destruct (target_accepted _ _ Ev) as (n & Hn & Hok). unfold isStatusCodeEntry. cbn [fst snd].
      rewrite Hn. cbn [mbind option_bind]. rewrite (key_accepted _ _ Ek), Hok. cbn [andb]. by apply IH.
    + destruct (StatusCodeRisk.invalidEntry k v); cbn [mbind option_bind]; [|done].
      by destruct (StatusCodeRisk.invalidEntries l).
  - destruct (StatusCodeRisk.invalidEntry k v); cbn [mbind option_bind]; [|done].
    by destruct (StatusCodeRisk.invalidEntries l).
Qed.

Lemma guard_is_stricter_witness :
  isOptionalStatusCodeMapping (Some (jq "{' 429 ':'503','500':4.04e2}")) = true.
Proof.
  apply (guard_is_stricter (jq "{' 429 ':'503','500':4.04e2}")
    [(js " 429 ", text "503"); (js "500", JNum (mkNum 404 0))]); by vm_compute.
Defined.

(** ** Payloads *)

Lemma check_nil b p m : check b p m = [] -> b = true.
Proof. by destruct b. Qed.

Lemma schema_settings parseURL d : channelFormSchema parseURL d -> isOptionalJsonObject (f_settings d) = true.
Proof.
  intros [H _]. unfold fieldIssues in H.
  do 10 apply app_eq_nil in H as [_ H]. apply app_eq_nil in H as [H _]. by apply check_nil in H.
Qed.

Lemma settings_build d : isOptionalJsonObject (f_settings d) = true -> exists o, existingSettings d = JObj o.
Proof.
  unfold isOptionalJsonObject, existingSettings, parseOptionalJson.
  destruct (f_settings d) as [s|]; [|eauto]. cbn [has_text or_empty].
  destruct (truthy s && negb (bool_decide (s = js "{}"))); [|eauto].
  destruct (truthy (trim s)) eqn:Et; cbn [negb].
  - destruct (JSON_parse s) as [[]|]; cbn; eauto; done.
  - intros _. destruct (JSON_parse s) as [v|] eqn:E; [|eauto].
    apply JsonLocal.parse_trim in E. by destruct (trim s).
Qed.

(** a form that passes the schema can be sent: building its payloads does
    not throw. *)
Theorem valid_form_can_be_sent parseURL d channelId :
  channelFormSchema parseURL d ->
  is_Some (transformFormDataToCreatePayload d) /\ is_Some (transformFormDataToUpdatePayload d channelId).
Proof.
  intros [o Ho]%schema_settings%settings_build.
  unfold transformFormDataToCreatePayload, transformFormDataToUpdatePayload, buildSettingsJSON. rewrite Ho.
  cbn [mbind option_bind]. by split; eexists.
Qed.

Lemma valid_form_can_be_sent_witness :
  is_Some (transformFormDataToCreatePayload sample_form) /\ is_Some (transformFormDataToUpdatePayload sample_form 7).
Proof. apply (valid_form_can_be_sent noURL sample_form 7). split; by vm_compute. Defined.

Lemma emptyToNull_get o k :
  map_get (emptyToNull o) k = (fun v => match v with JStr [] => JNull | _ => v end) <$> map_get o k.
Proof.
  unfold emptyToNull. induction o as [|[k' v] o IH]; [done|]. cbn [map map_get]. by case_decide.
Qed.

Lemma explicit_nodup d : NoDup (explicitTexts d).*1.
Proof. by apply (bool_decide_unpack _); vm_compute. Qed.

(** an update can clear a field and never sends a key that was not typed.
    The texts the server would ignore as null are sent as texts, empty ones
    included, and the key is sent exactly when there is one. *)
Theorem update_payload_is_explicit d channelId payload :
  transformFormDataToUpdatePayload d channelId = Some payload ->
  (forall k v, (k, v) ∈ explicitTexts d -> map_get payload k = Some v) /\
  map_get payload (js "key") = if truthy (trim (f_key d)) then Some (JStr (f_key d)) else None.
Proof.
  unfold transformFormDataToUpdatePayload. destruct (buildSettingsJSON d) as [st|]; cbn [mbind option_bind]; [|done].
  set (sent := spread_onto _ _). intros Hs. assert (payload = sent) as -> by congruence. subst sent. split.
  - intros k v H. rewrite spread_get by apply explicit_nodup.
    by rewrite (map_elem_get _ _ _ (explicit_nodup d) H).
  - rewrite spread_get by apply explicit_nodup.
    assert (map_get (explicitTexts d) (js "key") = None) as -> by reflexivity. rewrite emptyToNull_get.
    destruct (f_key d) as [|c key] eqn:Ek; [reflexivity|]. cbn [truthy andb].
    destruct (truthy (trim (c :: key))); [by rewrite map_get_set_eq|reflexivity].
Qed.

Lemma update_payload_is_explicit_witness :
  exists payload, transformFormDataToUpdatePayload sample_form 7 = Some payload /\
    map_get payload (js "tag") = Some (JStr []) /\ map_get payload (js "base_url") = Some (text "https://x").
Proof.
  destruct (transformFormDataToUpdatePayload sample_form 7) as [payload|] eqn:E; [|by vm_compute in E].
  exists payload. split; [done|]. destruct (update_payload_is_explicit sample_form 7 payload E) as [H _].
  split; apply H, map_get_Some_elem; by vm_compute.
Defined.

End ChannelFormProperties.
