(* ===== verification/AdminPermissions.v ===== *)
(** * Administrator permissions

    [lib/admin-permissions.ts] and the roles of [lib/roles.ts].  A permission
    matrix maps a resource to its actions and each action to a boolean. *)

From S2P Require Import Prelude JsString JsCollections JsValue.
Import JsValue.

Module AdminPermissions.

Definition AdminPermissionMatrix : Type := list (jsstr * list (jsstr * bool)).

(** ROLE.SUPER_ADMIN *)
Definition SUPER_ADMIN : Z := 100.

Definition CHANNEL : jsstr := js "channel".
Definition SENSITIVE_WRITE : jsstr := js "sensitive_write".
Definition ADMIN_ROLE_KEY : jsstr := js "admin".

(** The fields of the signed-in user that matter here. *)
Record AuthUser := mkUser { role : Z; admin_permissions : option AdminPermissionMatrix }.

Record PermissionResourceDef := mkResource { resource : jsstr; actions : list jsstr }.
Record PermissionRoleDef := mkRole { role_key : jsstr; grants : AdminPermissionMatrix }.
Record PermissionCatalog := mkCatalog { resources : list PermissionResourceDef; roles : list PermissionRoleDef }.

Definition EMPTY_PERMISSION_CATALOG : PermissionCatalog := mkCatalog [] [].

(** [m?.[resource]?.[action]] *)
Definition grant (m : option AdminPermissionMatrix) (r a : jsstr) : option bool :=
  m ≫= fun m => map_get m r ≫= fun acts => map_get acts a.

Definition hasPermission (user : option AuthUser) (r a : jsstr) : bool :=
  match user with
  | None => false
  | Some u => if role u =? SUPER_ADMIN then true
              else bool_decide (grant (admin_permissions u) r a = Some true)
  end.

Definition roleGrants (catalog : PermissionCatalog) (roleKey : jsstr) : AdminPermissionMatrix :=
  match List.find (fun r => bool_decide (role_key r = roleKey)) (roles catalog) with
  | Some r => grants r
  | None => []
  end.

(** The inner loop: the value, the baseline of administrators, or false. *)
Definition normalizedActions (value : option AdminPermissionMatrix) (baseline : AdminPermissionMatrix)
    (r : PermissionResourceDef) : list (jsstr * bool) :=
  fold_left (fun acc a => map_set acc a
    (grant value (resource r) a ?? grant (Some baseline) (resource r) a ?? false)) (actions r) [].

Definition normalizeAdminPermissions (value : option AdminPermissionMatrix) (catalog : PermissionCatalog)
    : AdminPermissionMatrix :=
  let baseline := roleGrants catalog ADMIN_ROLE_KEY in
  fold_left (fun acc r => map_set acc (resource r) (normalizedActions value baseline r)) (resources catalog) [].

(** ** Facts *)

Lemma normalized_resource value catalog r :
  NoDup (resource <$> resources catalog) -> r ∈ resources catalog ->
  map_get (normalizeAdminPermissions value catalog) (resource r)
  = Some (normalizedActions value (roleGrants catalog ADMIN_ROLE_KEY) r).
Proof.
  intros Hn Hr. set (f := normalizedActions value (roleGrants catalog ADMIN_ROLE_KEY)).
  set (g := fun k => match List.find (fun r => bool_decide (resource r = k)) (resources catalog) with
                     | Some r => f r | None => [] end).
  assert (forall x, x ∈ resources catalog -> f x = g (resource x)) as Hg.
  { intros x Hx. subst g. cbv beta. clear Hr. induction (resources catalog) as [|y l IH]; [set_solver|].
    cbn [List.find]. rewrite fmap_cons in Hn. apply NoDup_cons in Hn as [Hy Hn].
    apply elem_of_cons in Hx as [->|Hx]; [by rewrite bool_decide_eq_true_2|].
    rewrite bool_decide_eq_false_2; [by apply IH|]. intros E. apply Hy. rewrite E.
    by apply list_elem_of_fmap_2. }
  etrans; [apply (fold_set_get resource f g _ [] (resource r) Hg)|].
  rewrite decide_True by by apply list_elem_of_fmap_2. by rewrite Hg.
Qed.

(** Distinct resources: the matrix holds exactly the actions of the catalog,
    with the value, else the baseline, else false. *)
Lemma normalized_grant value catalog r a :
  NoDup (resource <$> resources catalog) -> r ∈ resources catalog ->
  grant (Some (normalizeAdminPermissions value catalog)) (resource r) a =
  if decide (a ∈ actions r) then
    Some (grant value (resource r) a ?? grant (Some (roleGrants catalog ADMIN_ROLE_KEY)) (resource r) a ?? false)
  else None.
Proof.
  intros Hn Hr. unfold grant at 1. cbn [mbind option_bind]. rewrite normalized_resource by done.
  cbn [mbind option_bind]. unfold normalizedActions.
  etrans; [apply (fold_set_get id _ (fun a => grant value (resource r) a
    ?? grant (Some (roleGrants catalog ADMIN_ROLE_KEY)) (resource r) a ?? false) _ [] a); done|].
  by rewrite list_fmap_id.
Qed.

Lemma normalized_unknown value catalog k :
  k ∉ resource <$> resources catalog -> map_get (normalizeAdminPermissions value catalog) k = None.
Proof.
  intros Hk. apply map_get_None. unfold normalizeAdminPermissions. revert Hk.
  apply (fold_left_cons_inv (fun acc => k ∉ resource <$> resources catalog -> k ∉ map_keys acc)); [set_solver|].
  intros acc r Hr IH Hk. rewrite <- map_get_None. rewrite map_get_set_ne; [by apply map_get_None, IH|].
  intros <-. apply Hk. by apply list_elem_of_fmap_2.
Qed.

(** C39: the shape of a normalized matrix is that of the catalog, whatever was
    stored: it has a switch for each action of each resource and nothing else,
    set to the stored value, else to what the role of administrators grants,
    else off; and normalizing again changes no switch. *)
Theorem normalized_matrix_fits_catalog value catalog :
  NoDup (resource <$> resources catalog) ->
  let m := normalizeAdminPermissions value catalog in
  (forall k a, k ∉ resource <$> resources catalog -> grant (Some m) k a = None) /\
  (forall r a, r ∈ resources catalog ->
    (is_Some (grant (Some m) (resource r) a) <-> a ∈ actions r) /\
    (a ∈ actions r -> grant (Some m) (resource r) a =
       Some (grant value (resource r) a ?? grant (Some (roleGrants catalog ADMIN_ROLE_KEY)) (resource r) a ?? false)) /\
    grant (Some (normalizeAdminPermissions (Some m) catalog)) (resource r) a = grant (Some m) (resource r) a).
Proof.
  intros Hn. cbv zeta. split.
  - intros k a Hk. unfold grant. cbn [mbind option_bind]. by rewrite normalized_unknown.
  - intros r a Hr. rewrite !normalized_grant by done. split; [|split].
    + case_decide; [by split|]. split; [by intros [? ?]|done].
    + intros Ha. by rewrite decide_True by done.
    + by case_decide.
Qed.

Definition sampleCatalog : PermissionCatalog :=
  mkCatalog [mkResource CHANNEL [js "read"; SENSITIVE_WRITE]]
    [mkRole ADMIN_ROLE_KEY [(CHANNEL, [(js "read", true)])]].

Lemma normalized_matrix_fits_catalog_witness :
  grant (Some (normalizeAdminPermissions (Some [(CHANNEL, [(SENSITIVE_WRITE, true)]); (js "old", [])]) sampleCatalog))
    CHANNEL (js "read") = Some true.
Proof.
  destruct (normalized_matrix_fits_catalog (Some [(CHANNEL, [(SENSITIVE_WRITE, true)]); (js "old", [])]) sampleCatalog)
    as [_ H]; [by apply (bool_decide_unpack _); vm_compute|].
  destruct (H (mkResource CHANNEL [js "read"; SENSITIVE_WRITE]) (js "read")) as (_ & Hg & _); [by left|].
  etrans; [apply Hg; by left|by vm_compute].
Defined.

End AdminPermissions.
