(* ===== verification/ChannelSubmit.v ===== *)
(** * Channels: submitting the form

    The submit handler of [components/drawers/channel-mutate-drawer.tsx] and
    the mutation of [hooks/use-channel-mutate-form.ts]: the checks in their
    order, the two dialogs, and the request that is sent.  The answers of the
    dialogs are parameters: [confirmRisk] whether the listed redirections are
    confirmed (closing the drawer declines), [confirmMissing] what to do about
    the listed models.  An exception is [None]. *)

From S2P Require Import Prelude JsString JsCollections Json JsonText JsonLocal JsValue ModelMapping StatusCodeRisk AdvancedCustom AdvancedCustomProperties ChannelForm ChannelFormProperties AdminPermissions.
Import Json JsValue ModelMapping StatusCodeRisk ChannelForm AdminPermissions.

Module ChannelSubmit.

(** ** The drawer *)

Inductive MissingModelsAction := Cancel | SubmitAnyway | Add.

(** What the drawer knows besides the form: whether a channel is edited, what
    the user may do, the dirty fields, and the values the channel had. *)
Record Drawer := mkDrawer {
  currentRow : option Channel;
  canEditSensitive : bool;
  dirtyFields : list jsstr;
  initialModels : list jsstr;
  initialModelMapping : jsstr;
  initialStatusCodeMapping : jsstr }.

Definition isEditing (w : Drawer) : bool := match currentRow w with Some _ => true | None => false end.
Definition sensitiveLocked (w : Drawer) : bool := isEditing w && negb (canEditSensitive w).

(** The effect that fills the form when the channel is loaded. *)
Definition loadDrawer (row : option Channel) (loaded : Channel) (canEdit : bool) (dirty : list jsstr) : Drawer :=
  match row with
  | Some _ =>
      mkDrawer row canEdit dirty (parseModelsString (c_models loaded)) (or_empty (c_model_mapping loaded))
        (or_empty (c_status_code_mapping loaded))
  | None => mkDrawer None canEdit dirty [] [] []
  end.

Definition SENSITIVE_FORM_FIELDS : list jsstr :=
  [ js "type"; js "base_url"; js "key"; js "openai_organization"; js "other"; js "key_mode"; js "param_override";
    js "header_override"; js "settings"; js "setting"; js "advanced_custom"; js "is_enterprise_account";
    js "vertex_key_type"; js "aws_key_type"; js "azure_responses_version"; js "force_format";
    js "thinking_to_content"; js "proxy"; js "pass_through_body_enabled"; js "system_prompt";
    js "system_prompt_override"; js "allow_service_tier"; js "disable_store"; js "allow_safety_identifier";
    js "allow_include_obfuscation"; js "allow_inference_geo"; js "allow_speed"; js "claude_beta_query";
    js "disable_task_polling_sleep"; js "upstream_model_update_check_enabled";
    js "upstream_model_update_auto_sync_enabled"; js "upstream_model_update_ignored_models" ].

(** [data.models = ...] *)
Definition setModels (d : ChannelFormValues) (models : jsstr) : ChannelFormValues :=
  mkForm (f_name d) (f_type d) (f_base_url d) (f_key d) (f_openai_organization d) models (f_group d)
    (f_model_mapping d) (f_priority d) (f_weight d) (f_test_model d) (f_auto_ban d) (f_status d)
    (f_status_code_mapping d) (f_tag d) (f_remark d) (f_setting d) (f_param_override d) (f_header_override d)
    (f_settings d) (f_other d) (f_multi_key_mode d) (f_multi_key_type d) (f_batch_add_set_key_prefix_2_name d)
    (f_key_mode d) (f_extra d) (f_typed d).

(** How a submission ends. *)
Inductive Outcome :=
| KeyRequired
| SensitiveRejected
| InvalidEntries (entries : list jsstr)
| RiskDeclined
| MappingRejected (msg : jsstr)
| MissingCancelled
| Submitted (data : ChannelFormValues).

Section Submit.
Variables (confirmRisk : list jsstr -> bool) (confirmMissing : list jsstr -> MissingModelsAction).

(** The checks of the status code mapping: how they end the submission. *)
Definition checkStatusCodes (w : Drawer) (d : ChannelFormValues) : option (option Outcome) :=
  if has_text (f_status_code_mapping d) then
    let mapping := or_empty (f_status_code_mapping d) in
    invalidEntries ← collectInvalidStatusCodeEntries mapping;
    if (0 <? length invalidEntries)%nat then Some (Some (InvalidEntries invalidEntries))
    else
      let riskyRedirects := collectNewDisallowedStatusCodeRedirects (initialStatusCodeMapping w) mapping in
      if (0 <? length riskyRedirects)%nat && negb (confirmRisk riskyRedirects) then Some (Some RiskDeclined)
      else Some None
  else Some None.

(** The checks of the model mapping: how they end the submission, or the data
    to send. *)
Definition checkModelMapping (w : Drawer) (d : ChannelFormValues) : Outcome :=
  let hasModelMapping := has_text (f_model_mapping d) in
  let modelMappingValue := or_empty (f_model_mapping d) in
  if hasModelMapping && negb (ModelMapping.valid (validateModelMappingJson modelMappingValue)) then
    MappingRejected (error (validateModelMappingJson modelMappingValue) ?? js "Invalid model mapping")
  else
    let normalizedModels := parseModelsString (f_models d) in
    if hasModelMapping then
      let missingModels := findMissingModelsInMapping modelMappingValue normalizedModels in
      if (0 <? length missingModels)%nat &&
         hasModelConfigChanged normalizedModels modelMappingValue (initialModels w) (initialModelMapping w)
      then
        match confirmMissing missingModels with
        | Cancel => MissingCancelled
        | Add => Submitted (setModels d (formatModelsArray (set_of (normalizedModels ++ missingModels))))
        | SubmitAnyway => Submitted d
        end
      else Submitted d
    else Submitted d.

Definition onSubmit (w : Drawer) (d : ChannelFormValues) : option Outcome :=
  if negb (isEditing w) && negb (truthy (trim (f_key d))) then Some KeyRequired
  else if sensitiveLocked w && existsb (fun f => bool_decide (f ∈ dirtyFields w)) SENSITIVE_FORM_FIELDS
  then Some SensitiveRejected
  else
    stop ← checkStatusCodes w d;
    Some (match stop with Some o => o | None => checkModelMapping w d end).

(** ** The request *)

Definition SENSITIVE_UPDATE_FIELDS : list jsstr :=
  [ js "type"; js "key"; js "base_url"; js "openai_organization"; js "param_override"; js "header_override";
    js "setting"; js "settings"; js "other" ].

Inductive Request :=
| UpdateRequest (id : Z) (payload : Fields)
| CreateRequest (payload : CreatePayload).

Definition mutationFn (row : option Channel) (isMultiKeyChannel canEdit : bool) (d : ChannelFormValues)
    : option Request :=
  match row with
  | Some row =>
      payload ← transformFormDataToUpdatePayload d (c_id row);
      let payload := if truthy (trim (f_key d)) then payload else map_delete payload (js "key") in
      let payload := if canEdit then payload else fold_left map_delete SENSITIVE_UPDATE_FIELDS payload in
      Some (UpdateRequest (c_id row)
        (match f_key_mode d with
         | Some m => if canEdit && isMultiKeyChannel && truthy (trim (f_key d)) && truthy m
                     then map_set payload (js "key_mode") (JStr m) else payload
         | None => payload
         end))
  | None => CreateRequest <$> transformFormDataToCreatePayload d
  end.

(** What pressing the button sends, if anything. *)
Definition submitAndSend (w : Drawer) (isMultiKeyChannel : bool) (d : ChannelFormValues) : option (option Request) :=
  outcome ← onSubmit w d;
  match outcome with
  | Submitted data => Some <$> mutationFn (currentRow w) isMultiKeyChannel (canEditSensitive w) data
  | _ => Some None
  end.
End Submit.

(** ** Theorems *)

(** C8: without the permission to edit sensitive settings an update sends none
    of them, and every other field as the form has it. *)
Theorem no_sensitive_update row multi d id payload :
  mutationFn (Some row) multi false d = Some (UpdateRequest id payload) ->
  exists full, transformFormDataToUpdatePayload d (c_id row) = Some full /\
  (forall k, k ∈ SENSITIVE_UPDATE_FIELDS -> map_get payload k = None) /\
  (forall k, k ∉ SENSITIVE_UPDATE_FIELDS -> map_get payload k = map_get full k).
Proof.
  unfold mutationFn. destruct (transformFormDataToUpdatePayload d (c_id row)) as [full|]; cbn [mbind option_bind]; [|done].
  cbn [andb]. intros H. exists full. split; [done|].
  set (p := if truthy (trim (f_key d)) then full else map_delete full (js "key")) in H.
  assert (payload = fold_left map_delete SENSITIVE_UPDATE_FIELDS p) as ->
    by (destruct (f_key_mode d); by injection H).
  assert (js "key" ∈ SENSITIVE_UPDATE_FIELDS) as Hk by (by apply (bool_decide_unpack _); vm_compute).
  clear H. split; intros k Hin; rewrite map_deletes_get; [by rewrite decide_True by done|].
  rewrite decide_False by done. subst p. case_match; [done|]. apply map_get_delete_ne. congruence.
Qed.

Section SubmitTheorems.
Variables (confirmRisk : list jsstr -> bool) (confirmMissing : list jsstr -> MissingModelsAction).

Lemma onSubmit_Submitted w d data :
  onSubmit confirmRisk confirmMissing w d = Some (Submitted data) ->
  (isEditing w = true \/ truthy (trim (f_key d)) = true) /\
  (sensitiveLocked w = true -> forall f, f ∈ SENSITIVE_FORM_FIELDS -> f ∉ dirtyFields w) /\
  checkStatusCodes confirmRisk w d = Some None /\ checkModelMapping confirmMissing w d = Submitted data.
Proof.
  unfold onSubmit. intros H. destruct (isEditing w) eqn:E1; destruct (truthy (trim (f_key d))) eqn:E2;
    cbn [negb andb] in H; try done.
  all: destruct (sensitiveLocked w) eqn:E3; cbn [andb] in H;
    [destruct (existsb _ SENSITIVE_FORM_FIELDS) eqn:E4; [done|]|].
  all: destruct (checkStatusCodes confirmRisk w d) as [[o|]|] eqn:E5; cbn [mbind option_bind] in H; [|injection H as H|done].
  all: try (exfalso; unfold checkStatusCodes in E5; injection H as ->;
    destruct (has_text _); [|done]; destruct (collectInvalidStatusCodeEntries _); [|done]; cbn [mbind option_bind] in E5;
    repeat case_match; done).
  all: split_and!; auto; try done.
  all: intros _ f Hf Hd; apply not_true_iff_false in E4; apply E4, existsb_exists; exists f;
    split; [by apply list_elem_of_In|by apply bool_decide_eq_true_2].
Qed.

(** The status codes of a submission that passes. *)
Lemma checkStatusCodes_pass w d :
  checkStatusCodes confirmRisk w d = Some None -> has_text (f_status_code_mapping d) = true ->
  collectInvalidStatusCodeEntries (or_empty (f_status_code_mapping d)) = Some [] /\
  forall fromCode toCode,
    fromCode ∈ NON_REDIRECTABLE_STATUS_CODES -> fromCode <> toCode -> 0 <= toCode ->
    redirects (or_empty (f_status_code_mapping d)) fromCode toCode ->
    redirects (initialStatusCodeMapping w) fromCode toCode \/
    exists listed, redirectText fromCode toCode ∈ listed /\ confirmRisk listed = true.
Proof.
  unfold checkStatusCodes. intros H Ht. rewrite Ht in H. set (m := or_empty _) in *. revert H.
  destruct (collectInvalidStatusCodeEntries m) as [[|e es]|]; cbn; [|done..].
  set (listed := collectNewDisallowedStatusCodeRedirects _ _). intros H. split; [done|].
  intros f c Hf Hne Hc Hr.
  destruct (redirect_known (initialStatusCodeMapping w) m f c Hf Hc Hne Hr) as [?|Hin]; [by left|right].
  exists listed. split; [done|]. fold listed in Hin. destruct listed; [set_solver|]. cbn in H.
  by destruct (confirmRisk _).
Qed.

(** What a status code mapping has to be: every entry maps a code to a code,
    and a redirection of 504 or 524 was in the mapping the channel had, or it
    was in a list that the user was shown and confirmed. *)
Definition soundStatusCodes (initial text : jsstr) : Prop :=
  (forall fields k v, parseObject text = Some fields -> (k, v) ∈ fields ->
     (exists c, codeText k c) /\ (exists c, codeValue v c)) /\
  (forall fromCode toCode, fromCode = 504 \/ fromCode = 524 -> fromCode <> toCode ->
     mapsCode text fromCode toCode ->
     mapsCode initial fromCode toCode \/
     exists listed, showZ fromCode ++ js " -> " ++ showZ toCode ∈ listed /\ confirmRisk listed = true).

Lemma checked_status_codes w d :
  checkStatusCodes confirmRisk w d = Some None -> has_text (f_status_code_mapping d) = true ->
  soundStatusCodes (initialStatusCodeMapping w) (or_empty (f_status_code_mapping d)).
Proof.
  intros Hc Ht. destruct (checkStatusCodes_pass w d Hc Ht) as [Hi Hr]. split.
  - intros fields k v Hp. by apply (no_invalid_entries _ _ Hi Hp).
  - intros f c Hf Hne Hm. rewrite <- redirects_mapsCode. apply Hr; [|done| |by apply redirects_mapsCode].
    + unfold NON_REDIRECTABLE_STATUS_CODES. set_solver.
    + destruct Hm as (? & ? & ? & _ & _ & _ & Hv & _). lia.
Qed.

(** The form has the models and the mapping of the channel. *)
Definition modelsUnchanged (w : Drawer) (d : ChannelFormValues) : Prop :=
  parseModelsString (f_models d) = initialModels w /\
  trim (or_empty (f_model_mapping d)) = trim (initialModelMapping w) /\
  (initialModels w <> [] \/ initialModelMapping w <> []).

Lemma unchanged_spec w d :
  hasModelConfigChanged (parseModelsString (f_models d)) (or_empty (f_model_mapping d)) (initialModels w)
    (initialModelMapping w) = false -> modelsUnchanged w d.
Proof.
  unfold hasModelConfigChanged, modelsUnchanged. rewrite !orb_false_iff. intros [[[H1 H2] H3] H4].
  apply negb_false_iff, bool_decide_eq_true in H4. split_and!; [|done|].
  - apply negb_false_iff, Nat.eqb_eq in H2. revert H2 H3. clear.
    generalize (initialModels w). induction (parseModelsString (f_models d)) as [|x l IH]; intros [|y l'] Hl H; try done.
    cbn in Hl, H. apply orb_false_iff in H as [Hx H]. apply negb_false_iff, bool_decide_eq_true in Hx as ->.
    f_equal. apply IH; [lia|done].
  - destruct (initialModels w); [|by left]. right. by destruct (initialModelMapping w).
Qed.

(** What is sent of the models.  Either the form as it is, because the list
    covers every source of the mapping, or the user was asked about exactly
    those that it does not cover and wants to submit anyway, or neither was
    changed; or the user, asked about exactly those, wants them added, and
    they come after the models of the form, none of which is dropped. *)
Definition soundModels (w : Drawer) (d data : ChannelFormValues) : Prop :=
  let misses k := uncoveredSource (or_empty (f_model_mapping d)) (f_models d) k in
  data = d /\
    ((forall k, ~ misses k) \/
     (exists missing, (forall k, k ∈ missing <-> misses k) /\ confirmMissing missing = SubmitAnyway) \/
     modelsUnchanged w d) \/
  exists missing, missing <> [] /\ NoDup missing /\ (forall k, k ∈ missing <-> misses k) /\
    confirmMissing missing = Add /\
    data = setModels d (join [44] (set_of (parseModelsString (f_models d)) ++ missing)) /\
    (Forall (fun k => 44 ∉ k) missing ->
     forall m, listsModel (f_models data) m <-> listsModel (f_models d) m \/ m ∈ missing).

(** The model mapping of a submission that passes. *)
Lemma checkModelMapping_pass w d data :
  checkModelMapping confirmMissing w d = Submitted data ->
  (has_text (f_model_mapping d) = true ->
   exists fields, parseObject (or_empty (f_model_mapping d)) = Some fields /\
     forall k v, (k, v) ∈ fields -> exists t, v = JStr t) /\
  soundModels w d data.
Proof.
  unfold checkModelMapping, soundModels. set (mapping := or_empty (f_model_mapping d)).
  destruct (has_text (f_model_mapping d)) eqn:Ht; cbn [andb negb].
  2:{ intros [= <-]. split; [done|]. left. split; [done|left]. intros k (_ & _ & fields & ? & ? & Hp & _).
      apply parseObject_not_blank in Hp. subst mapping.
      destruct (f_model_mapping d) as [t|]; [cbn [has_text or_empty] in *; congruence|done]. }
  destruct (ModelMapping.valid _) eqn:Ev; cbn [negb]; [|done]. intros H. split.
  { intros _. apply valid_cases in Ev as [Hb|(fs & Hp & _ & Hv)].
    - exfalso. subst mapping. destruct (f_model_mapping d) as [t|]; [|done]. unfold blankMapping in Hb.
      cbn [has_text or_empty] in *. rewrite Ht in Hb. by destruct t.
    - exists fs. split; [done|]. intros k v Hin. apply Hv. apply list_elem_of_fmap. exists (k, v).
      split; [done|by apply Object_entries_elem]. }
  pose proof (missing_uncovered mapping (f_models d)) as Hm.
  pose proof (missing_nodup mapping (parseModelsString (f_models d))) as Hn.
  set (missing := findMissingModelsInMapping _ _) in *.
  destruct (hasModelConfigChanged _ _ _ _) eqn:Ec; rewrite ?andb_false_r in H.
  2:{ injection H as <-. left. split; [done|]. right. right. by apply unchanged_spec. }
  destruct missing as [|k0 l] eqn:El; cbn [length Nat.ltb Nat.leb andb] in H; rewrite <- El in *.
  { injection H as <-. left. split; [done|left]. intros k Hk%Hm. rewrite El in Hk. set_solver. }
  destruct (confirmMissing missing) eqn:Ea; [done| |]; injection H as <-.
  { left. split; [done|]. right. left. by exists missing. }
  right. exists missing. split_and!; [by rewrite El|done|done|done| |].
  - rewrite added_text; [done|done|]. intros k [_ [Hk _]]%Hm. by rewrite parseModelsString_elem.
  - intros Hcomma m. rewrite added_text by (done || intros k [_ [Hk _]]%Hm; by rewrite parseModelsString_elem).
    cbn [f_models setModels]. rewrite added_models, parseModelsString_elem;
      [done|apply parseModelsString_clean|]. rewrite Forall_forall in Hcomma |- *.
    intros k Hk. pose proof (Hcomma k Hk). apply Hm in Hk as (Hne & _ & ? & key & ? & _ & _ & ->).
    split_and!; [done|apply trim_idemp|done].
Qed.

(** C7: what a submission that passes the handler guarantees.  A channel that
    is created has a key; without the permission no sensitive field was
    changed; when the status code mapping is an object every key and value of
    it is a code between 100 and 599, and each redirection of 504 or 524 is
    one the channel had or one the user was shown and confirmed; the model
    mapping is an object of texts; and the values sent are those of the form,
    where every source of the mapping is a model of the form unless the user
    insisted or changed nothing, or they are those of the form with exactly
    the missing models appended at the user's request, after which the text
    lists the models it listed and the missing ones, if no name has a comma. *)
Theorem submitted_is_sound w d data :
  onSubmit confirmRisk confirmMissing w d = Some (Submitted data) ->
  (isEditing w = true \/ truthy (trim (f_key d)) = true) /\
  (sensitiveLocked w = true -> forall f, f ∈ SENSITIVE_FORM_FIELDS -> f ∉ dirtyFields w) /\
  (has_text (f_status_code_mapping d) = true ->
   soundStatusCodes (initialStatusCodeMapping w) (or_empty (f_status_code_mapping d))) /\
  (has_text (f_model_mapping d) = true ->
   exists fields, parseObject (or_empty (f_model_mapping d)) = Some fields /\
     forall k v, (k, v) ∈ fields -> exists t, v = JStr t) /\
  soundModels w d data.
Proof.
  intros (Hk & Hs & Hc & Hm)%onSubmit_Submitted. apply checkModelMapping_pass in Hm as [Hm Hd].
  split_and!; [done|done|by apply checked_status_codes|done|done].
Qed.

End SubmitTheorems.

(** An editor without the permission edits the models of a channel: one
    redirection is confirmed and the missing model is added. *)
Definition edited_form : ChannelFormValues :=
  mkForm (js "c") 1 (Some (js "https://x")) (js "") None (js "gpt-4") [js "default"]
    (Some (jq "{'o1': 'gpt-4'}")) None None None None 1 (Some (jq "{'504': '200'}")) None None None None None None None
    None None None None DEFAULT_EXTRA DEFAULT_TYPED.

Definition edited_drawer : Drawer :=
  loadDrawer (Some (ChannelFormProperties.sample_channel (js "{}"))) (ChannelFormProperties.sample_channel (js "{}"))
    false [js "models"].

Definition confirms : list jsstr -> bool := fun l => bool_decide (l = [js "504 -> 200"]).
Definition adds : list jsstr -> MissingModelsAction := fun _ => Add.

Lemma no_sensitive_update_witness :
  exists payload,
    mutationFn (Some (ChannelFormProperties.sample_channel (js "{}"))) false false edited_form
      = Some (UpdateRequest 7 payload) /\
    map_get payload (js "base_url") = None /\ map_get payload (js "tag") = Some (JStr []).
Proof.
  destruct (mutationFn (Some (ChannelFormProperties.sample_channel (js "{}"))) false false edited_form)
    as [[id payload|]|] eqn:E; [|by vm_compute in E..].
  destruct (no_sensitive_update (ChannelFormProperties.sample_channel (js "{}")) false edited_form id payload E)
    as (full & Hf & Hdel & Hkeep).
  exists payload. split_and!.
  - by vm_compute in E |- *; injection E as <- <-.
  - apply Hdel. by apply (bool_decide_unpack _); vm_compute.
  - rewrite Hkeep by (by apply (bool_decide_unpack _); vm_compute).
    vm_compute in Hf. injection Hf as <-. by vm_compute.
Defined.

Lemma submitted_is_sound_witness :
  onSubmit confirms adds edited_drawer edited_form = Some (Submitted (setModels edited_form (js "gpt-4,o1"))) /\
  forall f, f ∈ SENSITIVE_FORM_FIELDS -> f ∉ dirtyFields edited_drawer.
Proof.
  assert (onSubmit confirms adds edited_drawer edited_form = Some (Submitted (setModels edited_form (js "gpt-4,o1"))))
    as H by (by vm_compute).
  split; [exact H|].
  destruct (submitted_is_sound confirms adds edited_drawer edited_form _ H) as (_ & Hs & _). by apply Hs.
Defined.

End ChannelSubmit.
