(* ===== verification/NavModules.v ===== *)
(** * Navigation modules

    [lib/nav-modules.ts]: which pages the administrator has switched on, read
    from the status document of the server or from its copy in the local
    storage; the guards of the routes [routes/pricing], [routes/rankings] and
    [routes/_authenticated/playground]; and the links of the top bar
    ([hooks/use-top-nav-links.ts]).

    A status is a parsed JSON value, [None] for null; an exception is an outer
    [None].  The answer of the server is a parameter. *)

From S2P Require Import Prelude JsString JsCollections Json JsonText JsonLocal JsValue.
Import Json JsValue.

Module NavModules.

Record ModuleAccess := mkAccess { enabled : bool; requireAuth : bool }.

Inductive HeaderNavModule := Rankings | Pricing.

(** The modules: two with their access, the others (home, console, docs, about
    and whatever the document names) switched on or off. *)
Record HeaderNavModules := mkModules {
  pricing : ModuleAccess;
  rankings : ModuleAccess;
  flags : list (jsstr * bool) }.

Definition DEFAULT_HEADER_NAV_MODULES : HeaderNavModules :=
  mkModules (mkAccess true false) (mkAccess true false)
    [(js "home", true); (js "console", true); (js "docs", true); (js "about", true)].

Definition access_of (m : HeaderNavModules) (module : HeaderNavModule) : ModuleAccess :=
  match module with Rankings => rankings m | Pricing => pricing m end.

Definition parseHeaderNavBoolean (raw : option json) (fallback : bool) : bool :=
  match raw with
  | Some (JBool b) => b
  | Some (JNum n) =>
      if bool_decide (num_integer n = Some 1) then true
      else if bool_decide (num_integer n = Some 0) then false
      else fallback
  | Some (JStr s) =>
      let normalized := toLowerCase (trim s) in
      if bool_decide (normalized = js "true") || bool_decide (normalized = js "1") then true
      else if bool_decide (normalized = js "false") || bool_decide (normalized = js "0") then false
      else fallback
  | _ => fallback
  end.

Definition parseAccess (raw : json) (fallback : ModuleAccess) : ModuleAccess :=
  match raw with
  | JBool _ | JNum _ | JStr _ =>
      mkAccess (parseHeaderNavBoolean (Some raw) (enabled fallback)) (requireAuth fallback)
  | JArr _ | JObj _ =>
      mkAccess (parseHeaderNavBoolean (prop raw (js "enabled")) (enabled fallback))
        (parseHeaderNavBoolean (prop raw (js "requireAuth")) (requireAuth fallback))
  | JNull => fallback
  end.

(** The value that holds the modules; [Some None] is null. *)
Definition parseHeaderNavRecord (raw : option json) : option (option json) :=
  match raw with
  | None => Some None
  | Some raw =>
      if negb (json_truthy raw) then Some None
      else
        s ← String_of raw;
        Some (if negb (truthy (trim s)) then None
              else match raw with JArr _ | JObj _ => Some raw | _ => JSON_parse s end)
  end.

(** One entry of the document.  Assigning a boolean to __proto__ does nothing. *)
Definition navEntry (result : HeaderNavModules) (entry : jsstr * json) : HeaderNavModules :=
  let '(key, value) := entry in
  if bool_decide (key = js "pricing") then
    mkModules (parseAccess value (pricing result)) (rankings result) (flags result)
  else if bool_decide (key = js "rankings") then
    mkModules (pricing result) (parseAccess value (rankings result)) (flags result)
  else if bool_decide (key = js "__proto__") then result
  else
    match map_get (flags result) key, value with
    | Some fallback, _ =>
        mkModules (pricing result) (rankings result)
          (map_set (flags result) key (parseHeaderNavBoolean (Some value) fallback))
    | None, (JBool _ | JNum _ | JStr _) =>
        mkModules (pricing result) (rankings result)
          (map_set (flags result) key (parseHeaderNavBoolean (Some value) true))
    | None, _ => result
    end.

Definition parseHeaderNavModules (raw : option json) : option HeaderNavModules :=
  parsed ← parseHeaderNavRecord raw;
  Some (match parsed with
        | Some parsed =>
            if json_truthy parsed then fold_left navEntry (own_entries parsed) DEFAULT_HEADER_NAV_MODULES
            else DEFAULT_HEADER_NAV_MODULES
        | None => DEFAULT_HEADER_NAV_MODULES
        end).

(** [status?.k] *)
Definition status_prop (status : option json) (k : jsstr) : option json := status ≫= fun s => prop s k.

Definition parseHeaderNavModulesFromStatus (status : option json) : option HeaderNavModules :=
  parseHeaderNavModules (status_prop status (js "HeaderNavModules")).

(** ** The cached status *)

(** The item of the local storage; null is no status. *)
Definition getCachedStatus (item : option jsstr) : option json :=
  match item with
  | Some raw =>
      if truthy raw then
        match JSON_parse raw with Some JNull | None => None | Some v => Some v end
      else None
  | None => None
  end.

(** Writing fails silently when the storage is full ([stored] is false). *)
Definition cacheStatus (stored : bool) (status : option json) (item : option jsstr) : option jsstr :=
  match status with
  | Some v => if json_truthy v && stored then Some (JsonText.JSON_stringify v) else item
  | None => item
  end.

Definition getModuleAccessFromStatus (status : option json) (module : HeaderNavModule) : option ModuleAccess :=
  (fun m => access_of m module) <$> parseHeaderNavModulesFromStatus status.

Definition getModuleAccess (item : option jsstr) (module : HeaderNavModule) : option ModuleAccess :=
  getModuleAccessFromStatus (getCachedStatus item) module.

Definition CLOSED : ModuleAccess := mkAccess false true.

(** [response] is what the request for the status gives, [None] if it fails. *)
Definition getFreshModuleAccess (response : option (option json)) (stored : bool) (module : HeaderNavModule)
    (item : option jsstr) : option jsstr * ModuleAccess :=
  match response with
  | None => (item, CLOSED)
  | Some status =>
      (cacheStatus stored status item, getModuleAccessFromStatus status module ?? CLOSED)
  end.

Definition isSidebarModuleEnabled (section module : jsstr) (item : option jsstr) : option bool :=
  match getCachedStatus item with
  | None => Some true
  | Some status =>
      if negb (json_truthy status) then Some true
      else
        match prop status (js "SidebarModulesAdmin") with
        | None => Some true
        | Some raw =>
            if negb (json_truthy raw) then Some true
            else
              s ← String_of raw;
              Some (if negb (truthy (trim s)) then true
                    else
                      match JSON_parse s with
                      | None => true
                      | Some parsed =>
                          match prop parsed section with
                          | None => true
                          | Some sectionConfig =>
                              if negb (json_truthy sectionConfig) then true
                              else if is_false (prop sectionConfig (js "enabled")) then false
                              else negb (is_false (prop sectionConfig module))
                          end
                      end)
        end
  end.

(** ** Guards and links *)

Inductive GuardResult := Pass | RedirectHome | RedirectSignIn.

(** [beforeLoad] of the pricing and rankings pages. *)
Definition moduleGuard (access : ModuleAccess) (isAuthed : bool) : GuardResult :=
  if negb (enabled access) then RedirectHome
  else if requireAuth access && negb isAuthed then RedirectSignIn
  else Pass.

(** [beforeLoad] of the playground: whether the page opens. *)
Definition playgroundGuard (item : option jsstr) : option bool :=
  isSidebarModuleEnabled (js "chat") (js "playground") item.

Record TopNavLink := mkLink { title : jsstr; href : jsstr; requiresAuth : option bool; external : bool }.

(** [modules?.[k] !== false] *)
Definition shown (m : HeaderNavModules) (k : string) : bool :=
  negb (bool_decide (map_get (flags m) (js k) = Some false)).

Section Links.
Variable t : jsstr -> jsstr.

Definition moduleLink (access : ModuleAccess) (isAuthed : bool) (name path : string) : list TopNavLink :=
  if enabled access
  then [mkLink (t (js name)) (js path) (Some (requireAuth access && negb isAuthed)) false]
  else [].

Definition topNavLinks (modules : HeaderNavModules) (docsLink : option jsstr) (isAuthed : bool) : list TopNavLink :=
  (if shown modules "home" then [mkLink (t (js "Home")) (js "/") None false] else []) ++
  (if shown modules "console" then [mkLink (t (js "Console")) (js "/dashboard") None false] else []) ++
  moduleLink (pricing modules) isAuthed "Model Square" "/pricing" ++
  moduleLink (rankings modules) isAuthed "Rankings" "/rankings" ++
  (if shown modules "docs" then
     [if truthy (or_empty docsLink) then mkLink (t (js "Docs")) (or_empty docsLink) None true
      else mkLink (t (js "Docs")) (js "/docs") None false] else []) ++
  (if shown modules "about" then [mkLink (t (js "About")) (js "/about") None false] else []).

(** The hook, for a status and the link to the documentation it holds. *)
Definition useTopNavLinks (status : option json) (docsLink : option jsstr) (isAuthed : bool)
    : option (list TopNavLink) :=
  (fun modules => topNavLinks modules docsLink isAuthed) <$> parseHeaderNavModulesFromStatus status.
End Links.

(** ** Reading the document *)

(** What an entry makes of a flag. *)
Definition flagAfter (old : option bool) (value : option json) : option bool :=
  match old, value with
  | _, None => old
  | Some fallback, Some v => Some (parseHeaderNavBoolean (Some v) fallback)
  | None, Some ((JBool _ | JNum _ | JStr _) as v) => Some (parseHeaderNavBoolean (Some v) true)
  | None, Some _ => None
  end.

Definition accessAfter (old : ModuleAccess) (value : option json) : ModuleAccess :=
  match value with Some v => parseAccess v old | None => old end.

Definition isFlag (k : jsstr) : Prop := k <> js "pricing" /\ k <> js "rankings" /\ k <> js "__proto__".

Lemma navEntry_spec m k v :
  let m' := navEntry m (k, v) in
  pricing m' = accessAfter (pricing m) (if decide (k = js "pricing") then Some v else None) /\
  rankings m' = accessAfter (rankings m) (if decide (k = js "rankings") then Some v else None) /\
  forall k', isFlag k' ->
    map_get (flags m') k' = flagAfter (map_get (flags m) k') (if decide (k = k') then Some v else None).
Proof.
  cbv zeta. unfold navEntry.
  assert (forall o : option bool, flagAfter o None = o) as Hn by (by intros []).
  case_bool_decide as E1; [subst k|case_bool_decide as E2; [subst k|case_bool_decide as E3; [subst k|]]].
  1-3: split_and!; [done|done|]; intros k' (? & ? & ?); rewrite decide_False by congruence; by rewrite Hn.
  rewrite (decide_False (P := k = js "pricing")), (decide_False (P := k = js "rankings")) by done.
  destruct (map_get (flags m) k) as [f|] eqn:Ek; [|destruct v].
  all: split_and!; [done|done|]; intros k' _; cbn [flags]; destruct (decide (k = k')) as [<-|Hk];
    rewrite ?map_get_set_eq, ?map_get_set_ne, ?Hn, ?Ek by done; done.
Qed.

Lemma navEntries_spec es m :
  NoDup es.*1 ->
  let m' := fold_left navEntry es m in
  pricing m' = accessAfter (pricing m) (map_get es (js "pricing")) /\
  rankings m' = accessAfter (rankings m) (map_get es (js "rankings")) /\
  forall k, isFlag k -> map_get (flags m') k = flagAfter (map_get (flags m) k) (map_get es k).
Proof.
  cbv zeta. revert m. induction es as [|[k v] es IH]; intros m Hn.
  { split_and!; [done|done|]. intros k _. cbn. by destruct (map_get (flags m) k). }
  rewrite fmap_cons in Hn. apply NoDup_cons in Hn as [Hk Hn]. cbn [fold_left fst] in *.
  destruct (IH (navEntry m (k, v)) Hn) as (-> & -> & Hf).
  destruct (navEntry_spec m k v) as (-> & -> & Hf').
  assert (forall k', k = k' -> map_get es k' = None) as Habs by (intros ? <-; by apply map_get_None).
  assert (forall o : option bool, flagAfter o None = o) as Hnone by (by intros []).
  split_and!; cbn [map_get]. 1-2: case_decide as E; [by rewrite Habs|done].
  intros k' Hk'. rewrite Hf, Hf' by done. case_decide as E; [by rewrite Habs, Hnone|by rewrite Hnone].
Qed.

(** the modules follow the document whatever the order of its entries:
    each access and each flag is the default one updated by the entry of its
    own name, and what the document does not mention keeps its default. *)
Theorem modules_follow_the_document s fields :
  JSON_parse s = Some (JObj fields) ->
  exists m, parseHeaderNavModules (Some (JStr s)) = Some m /\
    (forall module, access_of m module =
       accessAfter (mkAccess true false)
         (map_get fields (match module with Pricing => js "pricing" | Rankings => js "rankings" end))) /\
    forall k, isFlag k ->
      map_get (flags m) k = flagAfter (map_get (flags DEFAULT_HEADER_NAV_MODULES) k) (map_get fields k).
Proof.
  intros H. pose proof (parse_object_nodup _ _ H) as Hn. eexists. split.
  - unfold parseHeaderNavModules, parseHeaderNavRecord. cbn [json_truthy String_of].
    assert (truthy s = true /\ truthy (trim s) = true) as [-> Ht].
    { pose proof (JsonLocal.parse_trim _ _ H) as Ht. destruct s; [done|]. split; [done|]. by destruct (trim _). }
    cbn [negb mbind option_bind]. rewrite Ht, H. cbn [negb json_truthy]. reflexivity.
  - destruct (navEntries_spec (own_entries (JObj fields)) DEFAULT_HEADER_NAV_MODULES) as (Hp & Hr & Hf).
    { cbn [own_entries]. by rewrite js_sort_values_perm. }
    cbn [own_entries] in *. rewrite !entries_get in Hp, Hr by done. split.
    + intros []; cbn [access_of]; [by rewrite Hr|by rewrite Hp].
    + intros k Hk. rewrite Hf by done. by rewrite entries_get.
Qed.

Lemma modules_follow_the_document_witness :
  exists m, parseHeaderNavModules (Some (JStr (jq "{'docs': ' FALSE ', 'pricing': {'requireAuth': 1}}"))) = Some m /\
    map_get (flags m) (js "docs") = Some false /\ access_of m Pricing = mkAccess true true.
Proof.
  destruct (modules_follow_the_document (jq "{'docs': ' FALSE ', 'pricing': {'requireAuth': 1}}")
    [(js "docs", JStr (js " FALSE ")); (js "pricing", JObj [(js "requireAuth", JNum (mkNum 1 0))])])
    as (m & Hm & Ha & Hf); [by vm_compute|].
  exists m. split_and!; [exact Hm| |].
  - rewrite Hf; [by vm_compute|]. by split_and!.
  - rewrite Ha. by vm_compute.
Defined.

(** ** Links, guards and the cache *)

Definition modulePath (module : HeaderNavModule) : jsstr :=
  match module with Pricing => js "/pricing" | Rankings => js "/rankings" end.

Lemma moduleLink_elem t access isAuthed name path l :
  l ∈ moduleLink t access isAuthed name path <->
  enabled access = true /\ l = mkLink (t (js name)) (js path) (Some (requireAuth access && negb isAuthed)) false.
Proof. unfold moduleLink. case_match; set_solver. Qed.

Lemma topNavLinks_module t modules docsLink isAuthed module l :
  external l = false -> href l = modulePath module ->
  l ∈ topNavLinks t modules docsLink isAuthed <->
  enabled (access_of modules module) = true /\
  requiresAuth l = Some (requireAuth (access_of modules module) && negb isAuthed) /\
  title l = t (js (match module with Pricing => "Model Square" | Rankings => "Rankings" end)).
Proof.
  destruct l as [ti h r e]. cbn [external href requiresAuth title]. intros -> ->. unfold topNavLinks.
  rewrite !elem_of_app, !moduleLink_elem.
  destruct module; cbn [modulePath access_of]; repeat case_match; set_solver.
Qed.

(** the top bar and the guards of the routes agree: with the same status
    the bar links to a page exactly when its guard does not send the visitor
    home, and the link is marked as needing a login exactly when the guard
    asks for one. *)
Theorem links_agree_with_guards t status docsLink isAuthed links module :
  useTopNavLinks t status docsLink isAuthed = Some links ->
  exists access, getModuleAccessFromStatus status module = Some access /\
    ((exists l, l ∈ links /\ external l = false /\ href l = modulePath module)
       <-> moduleGuard access isAuthed <> RedirectHome) /\
    forall l, l ∈ links -> external l = false -> href l = modulePath module ->
      (requiresAuth l = Some true <-> moduleGuard access isAuthed = RedirectSignIn).
Proof.
  unfold useTopNavLinks, getModuleAccessFromStatus.
  destruct (parseHeaderNavModulesFromStatus status) as [modules|]; [|done]. intros [= <-].
  exists (access_of modules module). split; [done|]. unfold moduleGuard. split.
  - split.
    + intros (l & Hin & He & Hh). apply (topNavLinks_module _ _ _ _ module) in Hin as (-> & _); [|done|done].
      cbn [negb]. by case_match.
    + destruct (enabled _) eqn:E; [intros _|done].
      eexists (mkLink _ _ _ _). split_and!; [apply (topNavLinks_module _ _ _ _ module)|..]; cbn; done.
  - intros l Hin He Hh. apply (topNavLinks_module _ _ _ _ module) in Hin as (-> & -> & _); [|done|done].
    cbn [negb]. by destruct (requireAuth _ && negb isAuthed).
Qed.

Definition sampleStatus : json :=
  JObj [(js "HeaderNavModules", JStr (jq "{'pricing': {'requireAuth': true}, 'rankings': false}"))].

Lemma links_agree_with_guards_witness :
  exists links access,
    useTopNavLinks id (Some sampleStatus) None false = Some links /\
    getModuleAccessFromStatus (Some sampleStatus) Pricing = Some access /\
    (exists l, l ∈ links /\ external l = false /\ href l = js "/pricing") /\
    moduleGuard access false = RedirectSignIn.
Proof.
  destruct (useTopNavLinks id (Some sampleStatus) None false) as [links|] eqn:E; [|by vm_compute in E].
  destruct (links_agree_with_guards id (Some sampleStatus) None false links Pricing E) as (access & Ha & Hl & _).
  exists links, access. vm_compute in Ha. injection Ha as <-. split_and!; [done|by vm_compute|by apply Hl|done].
Defined.

(** a page that has just been guarded with a fresh status is guarded the
    same way from the cache: what was read is what was stored. *)
Theorem fresh_access_is_cached v module item :
  JsonText.wf_json v -> json_truthy v = true ->
  let '(item', access) := getFreshModuleAccess (Some (Some v)) true module item in
  (getModuleAccess item' module ?? CLOSED) = access.
Proof.
  intros Hw Ht. cbn [getFreshModuleAccess cacheStatus]. rewrite Ht. cbn [andb].
  unfold getModuleAccess, getCachedStatus. rewrite JsonText.parse_stringify by done.
  pose proof (JsonText.print_pos [] [] v (JsonText.wf_printable v Hw)) as Hpos. unfold JsonText.JSON_stringify.
  destruct (JsonText.print [] [] v); [cbn in Hpos; lia|]. cbn [truthy]. by destruct v.
Qed.

Lemma fresh_access_is_cached_witness :
  (getModuleAccess (getFreshModuleAccess (Some (Some sampleStatus)) true Rankings None).1 Rankings ?? CLOSED)
  = mkAccess false false.
Proof.
  pose proof (fresh_access_is_cached sampleStatus Rankings None) as H.
  cbn [getFreshModuleAccess] in H. etrans; [apply H; [by apply JsonText.wf_jsonb_sound; vm_compute|done]|].
  by vm_compute.
Defined.

End NavModules.
