(* ===== verification/Sidebar.v ===== *)
(** * The sidebar

    [hooks/use-sidebar-config.ts], [hooks/use-sidebar-data.ts] and the root view
    of [hooks/use-sidebar-view.ts]: which entries of the navigation a visitor
    sees, given the setting of the administrator, the preference of the user
    and the role.  Texts are parsed as JSON; paths start with a slash, so that
    none is the name of a built-in property. *)

From S2P Require Import Prelude JsString JsCollections Json JsonText JsonLocal JsValue AdminPermissions NavModules.
Import Json JsValue.

Module Sidebar.

Definition Fields : Type := list (jsstr * json).

Definition on (names : list string) : Fields := map (fun k => (js k, JBool true)) names.

Definition DEFAULT_SIDEBAR_MODULES : list (jsstr * Fields) :=
  [ (js "chat", on ["enabled"; "playground"; "chat"]);
    (js "console", on ["enabled"; "detail"; "token"; "log"; "midjourney"; "task"]);
    (js "personal", on ["enabled"; "topup"; "personal"]);
    (js "admin", on ["enabled"; "channel"; "models"; "redemption"; "user"; "setting"; "subscription"]) ]%string.

(** The defaults as a configuration. *)
Definition DEFAULT_SIDEBAR_CONFIG : Fields := map (fun '(k, section) => (k, JObj section)) DEFAULT_SIDEBAR_MODULES.

(** The loop that fills in what is undefined. *)
Definition fillUndefined (defaultSection section : Fields) : Fields :=
  fold_left (fun section '(moduleKey, v) =>
    match map_get section moduleKey with None => map_set section moduleKey v | Some _ => section end)
    defaultSection section.

Definition mergeSection (defaultSection : Fields) (existing : option json) : json :=
  match existing with
  | Some existingSection =>
      if json_truthy existingSection
      then JObj (fillUndefined defaultSection (spread_onto defaultSection (own_entries existingSection)))
      else JObj defaultSection
  | None => JObj defaultSection
  end.

Definition mergeWithDefaultSidebarModules (config : json) : Fields :=
  fold_left (fun merged '(sectionKey, defaultSection) =>
    map_set merged sectionKey (mergeSection defaultSection (map_get merged sectionKey)))
    DEFAULT_SIDEBAR_MODULES (spread_onto [] (own_entries config)).

Definition URL_TO_CONFIG_MAP : list (jsstr * (jsstr * jsstr)) :=
  map (fun '(url, section, module) => (js url, (js section, js module)))
    [ ("/playground", "chat", "playground"); ("/dashboard", "console", "detail");
      ("/dashboard/overview", "console", "detail"); ("/dashboard/models", "console", "detail");
      ("/dashboard/users", "console", "detail"); ("/keys", "console", "token");
      ("/usage-logs", "console", "log"); ("/usage-logs/common", "console", "log");
      ("/usage-logs/drawing", "console", "midjourney"); ("/usage-logs/task", "console", "task");
      ("/wallet", "personal", "topup"); ("/profile", "personal", "personal");
      ("/channels", "admin", "channel"); ("/models", "admin", "models");
      ("/models/metadata", "admin", "models"); ("/models/deployments", "admin", "models");
      ("/users", "admin", "user"); ("/redemption-codes", "admin", "redemption");
      ("/subscriptions", "admin", "subscription"); ("/system-settings", "admin", "setting");
      ("/system-settings/site", "admin", "setting") ]%string.

Definition parseSidebarConfig (value : option jsstr) : Fields :=
  if negb (has_text value) then DEFAULT_SIDEBAR_CONFIG
  else
    match JSON_parse (or_empty value) with
    | Some parsed => mergeWithDefaultSidebarModules parsed
    | None => DEFAULT_SIDEBAR_CONFIG
    end.

(** [None] is null: do not narrow. *)
Definition parseUserSidebarConfig (value : option jsstr) : option json :=
  if negb (has_text value) then None
  else
    match JSON_parse (or_empty value) with
    | Some ((JArr _ | JObj _) as parsed) => Some parsed
    | _ => None
    end.

(** The two layers for a module of a section. *)
Definition adminAllowed (adminConfig : Fields) (section module : jsstr) : bool :=
  match map_get adminConfig section with
  | Some adminSection =>
      json_truthy adminSection && json_truthy (prop adminSection (js "enabled") ?? JNull)
      && is_true (prop adminSection module)
  | None => false
  end.

Definition userAllows (userConfig : option json) (section module : jsstr) : bool :=
  match userConfig with
  | None => true
  | Some userConfig =>
      match prop userConfig section with
      | None => true
      | Some userSection =>
          if negb (json_truthy userSection) then true
          else if is_false (prop userSection (js "enabled")) then false
          else negb (is_false (prop userSection module))
      end
  end.

Definition isModuleEnabled (url : jsstr) (adminConfig : Fields) (userConfig : option json) : bool :=
  match map_get URL_TO_CONFIG_MAP url with
  | None => true
  | Some (section, module) => adminAllowed adminConfig section module && userAllows userConfig section module
  end.

(** ** Items *)

(** What an entry has besides its target; the icon is not modelled. *)
Record BaseNavItem := mkBase {
  title : jsstr;
  activeUrls : option (list jsstr);
  configUrls : option (list jsstr);
  requiredRole : option Z }.

Inductive NavItem :=
| NavLink (base : BaseNavItem) (url : jsstr)
| NavCollapsible (base : BaseNavItem) (items : list (BaseNavItem * jsstr))
| NavChatPresets (base : BaseNavItem).

Definition base_of (i : NavItem) : BaseNavItem :=
  match i with NavLink b _ | NavCollapsible b _ | NavChatPresets b => b end.

Record NavGroup := mkGroup { g_id : option jsstr; g_title : jsstr; g_items : list NavItem }.

Definition isNavItemVisible (item : NavItem) (adminConfig : Fields) (userConfig : option json) : bool :=
  match item with
  | NavChatPresets _ =>
      adminAllowed adminConfig (js "chat") (js "chat") && userAllows userConfig (js "chat") (js "chat")
  | NavLink base url =>
      if truthy url
      then existsb (fun url => isModuleEnabled url adminConfig userConfig) (configUrls base ?? [url])
      else true
  | NavCollapsible _ items => existsb (fun sub => isModuleEnabled sub.2 adminConfig userConfig) items
  end.

Definition filterSubItems (adminConfig : Fields) (userConfig : option json) (item : NavItem) : NavItem :=
  match item with
  | NavCollapsible base items =>
      NavCollapsible base (List.filter (fun sub => isModuleEnabled sub.2 adminConfig userConfig) items)
  | _ => item
  end.

Definition filterNavItems (items : list NavItem) (adminConfig : Fields) (userConfig : option json) : list NavItem :=
  List.filter (fun item => isNavItemVisible item adminConfig userConfig)
    (map (filterSubItems adminConfig userConfig) items).

(** The signed-in user as far as the sidebar looks. *)
Record SidebarUser := mkUser {
  role : option Z;
  sidebar_settings : option bool;
  sidebar_modules : option jsstr }.

Definition userConfigOf (user : SidebarUser) : option json :=
  if bool_decide (sidebar_settings user = Some false) then None
  else parseUserSidebarConfig (sidebar_modules user).

Definition useSidebarConfig (adminText : option jsstr) (user : SidebarUser) (navGroups : list NavGroup)
    : list NavGroup :=
  let adminConfig := parseSidebarConfig adminText in
  List.filter (fun g => (0 <? length (g_items g))%nat)
    (map (fun g => mkGroup (g_id g) (g_title g) (filterNavItems (g_items g) adminConfig (userConfigOf user))) navGroups).

Definition useIsSidebarModuleVisible (adminText : option jsstr) (user : SidebarUser) (url : jsstr) : bool :=
  isModuleEnabled url (parseSidebarConfig adminText) (userConfigOf user).

(** ** The root view *)

Definition GUEST : Z := 0.
Definition ADMIN : Z := 10.

Definition allowedFor (role : Z) (item : NavItem) : bool :=
  match requiredRole (base_of item) with None => true | Some r => r <=? role end.

Definition rootNavGroups (configFilteredRoot : list NavGroup) (userRole : option Z) : list NavGroup :=
  let role := userRole ?? GUEST in
  map (fun g =>
      let items := List.filter (allowedFor role) (g_items g) in
      if (length items =? length (g_items g))%nat then g else mkGroup (g_id g) (g_title g) items)
    (List.filter (fun g => if bool_decide (g_id g = Some (js "admin")) then ADMIN <=? role else true)
      configFilteredRoot).

Section Data.
Variable t : jsstr -> jsstr.

Definition link (name url : string) : NavItem := NavLink (mkBase (t (js name)) None None None) (js url).
Definition group (id name : string) (items : list NavItem) : NavGroup :=
  mkGroup (Some (js id)) (t (js name)) items.

Definition useSidebarData : list NavGroup :=
  [ group "chat" "Chat"
      [ link "Playground" "/playground"; NavChatPresets (mkBase (t (js "Chat")) None None None) ];
    group "general" "General"
      [ link "Overview" "/dashboard/overview"; link "Dashboard" "/dashboard/models"; link "API Keys" "/keys";
        link "Usage Logs" "/usage-logs/common";
        NavLink (mkBase (t (js "Task Logs")) (Some [js "/usage-logs/drawing"])
          (Some [js "/usage-logs/drawing"; js "/usage-logs/task"]) None) (js "/usage-logs/task") ];
    group "personal" "Personal" [ link "Wallet" "/wallet"; link "Profile" "/profile" ];
    group "admin" "Admin"
      [ link "Channels" "/channels"; link "Models" "/models/metadata"; link "Users" "/users";
        link "Redemption Codes" "/redemption-codes"; link "Subscriptions" "/subscriptions";
        NavLink (mkBase (t (js "System Info")) None None (Some AdminPermissions.SUPER_ADMIN)) (js "/system-info");
        NavLink (mkBase (t (js "System Settings")) (Some [js "/system-settings"]) None None)
          (js "/system-settings/site") ] ].

(** The groups of the root view. *)
Definition sidebarGroups (adminText : option jsstr) (user : SidebarUser) : list NavGroup :=
  rootNavGroups (useSidebarConfig adminText user useSidebarData) (role user).
End Data.

End Sidebar.
