(* ===== verification/SidebarProperties.v ===== *)
(** * Properties of the sidebar

    The closed form of the two layers, the agreement of the sidebar with the
    guard of the playground, that the preference of a user only narrows, and
    what the role does to the groups. *)

From S2P Require Import Prelude JsString JsCollections Json JsonText JsonLocal JsValue AdminPermissions NavModules Sidebar.
Import Json JsValue Sidebar.

Module SidebarProperties.

(** ** Merging with the defaults *)

Lemma fillUndefined_get d o k :
  map_get (fillUndefined d o) k = match map_get o k with Some v => Some v | None => map_get d k end.
Proof.
  unfold fillUndefined. revert o. induction d as [|[k' v] d IH]; intros o; [by cbn; destruct (map_get o k)|].
  cbn [fold_left map_get]. rewrite IH. destruct (map_get o k') as [v'|] eqn:E.
  - case_decide as Ek; [subst|done]. by rewrite E.
  - case_decide as Ek; [subst; by rewrite map_get_set_eq, E|by rewrite map_get_set_ne].
Qed.

(** A loop that rewrites distinct keys from their old values. *)
Lemma fold_update_get {A V} (f : A -> option V -> V) (l : list (jsstr * A)) m k :
  NoDup l.*1 ->
  map_get (fold_left (fun m '(k, a) => map_set m k (f a (map_get m k))) l m) k
  = match map_get l k with Some a => Some (f a (map_get m k)) | None => map_get m k end.
Proof.
  revert m. induction l as [|[k' a] l IH]; intros m Hn; [done|].
  rewrite fmap_cons in Hn. apply NoDup_cons in Hn as [Hk Hn]. cbn [fold_left map_get fst] in *. rewrite IH by done.
  case_decide as E; [subst|].
  - assert (map_get l k = None) as -> by by apply map_get_None. apply map_get_set_eq.
  - by rewrite map_get_set_ne.
Qed.

(** A section of the merged configuration. *)
Lemma merged_section config section d :
  distinct config -> map_get DEFAULT_SIDEBAR_MODULES section = Some d -> all_digits section = false ->
  map_get (mergeWithDefaultSidebarModules config) section = Some (mergeSection d (prop config section)).
Proof.
  intros Hd Hs Hk. unfold mergeWithDefaultSidebarModules.
  rewrite (fold_update_get mergeSection) by (by apply (bool_decide_unpack _); vm_compute).
  rewrite Hs, spread_get by by apply own_nodup. rewrite own_get by done. cbn [map_get]. by destruct (prop _ _).
Qed.

(** A module of a merged section: its own value, else the default. *)
Lemma merged_prop d existing k :
  (forall v, existing = Some v -> distinct v) -> all_digits k = false ->
  prop (mergeSection d existing) k =
  match existing with
  | Some s => if json_truthy s then match prop s k with Some v => Some v | None => map_get d k end else map_get d k
  | None => map_get d k
  end.
Proof.
  intros Hd Hk. unfold mergeSection. destruct existing as [s|]; [|done].
  destruct (json_truthy s); [|done]. specialize (Hd s eq_refl). cbn [prop].
  rewrite fillUndefined_get, spread_get by by apply own_nodup. rewrite own_get by done.
  by destruct (prop s k); [|destruct (map_get d k)].
Qed.

(** ** The layer of the administrator *)

(** What the text of the setting says of a module: a section that is missing or
    empty is open, in the others [enabled] must be truthy and the module true,
    where both count as true when they are missing. *)
Definition adminSays (text : option jsstr) (section module : jsstr) : bool :=
  match (if has_text text then JSON_parse (or_empty text) else None) with
  | None => true
  | Some v =>
      match prop v section with
      | Some s =>
          negb (json_truthy s) ||
          (json_truthy (prop s (js "enabled") ?? JBool true) && is_true (Some (prop s module ?? JBool true)))
      | None => true
      end
  end.

(** The names that the paths refer to. *)
Definition known (section module : jsstr) : Prop :=
  all_digits section = false /\ all_digits module = false /\
  exists d, map_get DEFAULT_SIDEBAR_MODULES section = Some d /\
    map_get d (js "enabled") = Some (JBool true) /\ map_get d module = Some (JBool true).

Lemma adminAllowed_says text section module :
  known section module -> adminAllowed (parseSidebarConfig text) section module = adminSays text section module.
Proof.
  intros (Hs & Hm & d & Hd & He & Ht). unfold adminSays, parseSidebarConfig, adminAllowed.
  assert (map_get DEFAULT_SIDEBAR_CONFIG section = Some (JObj d)) as Hdef.
  { unfold DEFAULT_SIDEBAR_CONFIG. revert Hd. generalize DEFAULT_SIDEBAR_MODULES.
    induction l as [|[k x] l IH]; [done|]. cbn. case_decide; [by intros [= ->]|done]. }
  destruct (has_text text); cbn [negb]; [|by rewrite Hdef; cbn [prop]; rewrite He, Ht].
  destruct (JSON_parse (or_empty text)) as [v|] eqn:Hp; [|by rewrite Hdef; cbn [prop]; rewrite He, Ht].
  apply parse_distinct in Hp as Hv. rewrite (merged_section v section d) by done.
  assert (forall s, prop v section = Some s -> distinct s) as Hx by (intros s; by apply distinct_prop).
  assert (json_truthy (mergeSection d (prop v section)) = true) as ->
    by (unfold mergeSection; repeat case_match; done).
  rewrite !merged_prop by done. rewrite He, Ht.
  destruct (prop v section) as [s|]; [|done]. destruct (json_truthy s); [|done].
  by destruct (prop s (js "enabled")), (prop s module).
Qed.

Lemma mapped_known url section module :
  map_get URL_TO_CONFIG_MAP url = Some (section, module) -> known section module.
Proof.
  assert (Forall (fun kv => known kv.2.1 kv.2.2) URL_TO_CONFIG_MAP) as H.
  { repeat (constructor; [split_and!; [done|done|eexists; split_and!; by vm_compute]|]). constructor. }
  intros Hin%map_get_Some_elem. rewrite Forall_forall in H. by apply (H (url, (section, module))).
Qed.

(** ** The layer of the user *)

(** What hides a module for a user: the account may configure the sidebar, and
    its stored text is JSON whose section for the module has [enabled] false or
    the module itself false. *)
Definition userHides (user : SidebarUser) (section module : jsstr) : Prop :=
  sidebar_settings user <> Some false /\
  exists text v s, sidebar_modules user = Some text /\ JSON_parse text = Some v /\ prop v section = Some s /\
    (prop s (js "enabled") = Some (JBool false) \/ prop s module = Some (JBool false)).

Lemma is_false_spec a : is_false a = true <-> a = Some (JBool false).
Proof. by destruct a as [[|[]| | | |]|]. Qed.

(** A text that parses is not blank. *)
Lemma parsed_has_text text v : JSON_parse text = Some v -> has_text (Some text) = true.
Proof. intros H%JsonLocal.parse_trim. cbn [has_text]. by destruct (trim text). Qed.

(** What the program keeps of the text: the same value, or nothing where no
    property can be read. *)
Lemma userConfig_prop user section s :
  (userConfigOf user ≫= fun c => prop c section) = Some s <->
  sidebar_settings user <> Some false /\
  exists text v, sidebar_modules user = Some text /\ JSON_parse text = Some v /\ prop v section = Some s.
Proof.
  unfold userConfigOf, parseUserSidebarConfig. case_bool_decide as Hp; [naive_solver|].
  destruct (sidebar_modules user) as [text|]; [|naive_solver]. cbn [or_empty].
  destruct (JSON_parse text) as [v|] eqn:Hv; [|destruct (negb _); naive_solver].
  rewrite (parsed_has_text _ _ Hv). cbn [negb]. destruct v; naive_solver.
Qed.

Lemma userAllows_hides user section module :
  userAllows (userConfigOf user) section module = true <-> ~ userHides user section module.
Proof.
  assert (userAllows (userConfigOf user) section module = false <-> userHides user section module) as H.
  { transitivity (exists s, (userConfigOf user ≫= fun c => prop c section) = Some s /\
      (prop s (js "enabled") = Some (JBool false) \/ prop s module = Some (JBool false))).
    - unfold userAllows. destruct (userConfigOf user) as [c|]; cbn; [|naive_solver].
      destruct (prop c section) as [s|]; [|naive_solver].
      pose proof (is_false_spec (prop s (js "enabled"))). pose proof (is_false_spec (prop s module)).
      destruct (json_truthy s) eqn:Es; cbn [negb].
      + destruct (is_false (prop s (js "enabled"))) eqn:Ee; [naive_solver|].
        destruct (is_false (prop s module)) eqn:Em; naive_solver.
      + split; [done|]. intros (s' & [= <-] & Hf). destruct s; naive_solver.
    - setoid_rewrite userConfig_prop. unfold userHides. naive_solver. }
  destruct (userAllows _ _ _); naive_solver.
Qed.

(** C36: a path is visible exactly when neither layer hides it, whatever the
    texts are: a path that the table does not map always, the others when the
    text of the administrator says so (missing sections and modules are open,
    and a blank text or one that is no JSON hides nothing) and the text of the
    user does not hide the module, which it does when the account may
    configure the sidebar and the section, or the module in it, is set to
    false. *)
Theorem visibility_follows_the_texts adminText user url :
  useIsSidebarModuleVisible adminText user url = true <->
  match map_get URL_TO_CONFIG_MAP url with
  | None => True
  | Some (section, module) => adminSays adminText section module = true /\ ~ userHides user section module
  end.
Proof.
  unfold useIsSidebarModuleVisible, isModuleEnabled.
  destruct (map_get URL_TO_CONFIG_MAP url) as [[section module]|] eqn:E; [|done].
  rewrite andb_true_iff, userAllows_hides, adminAllowed_says; [done|]. by eapply mapped_known.
Qed.

(** ** The guard of the playground *)

(** The text of a setting that the administration page writes: switches. *)
Definition switches (text section : jsstr) : Prop :=
  forall v s k x, JSON_parse text = Some v -> prop v section = Some s -> prop s k = Some x -> exists b, x = JBool b.

Lemma guard_says item status text section module :
  NavModules.getCachedStatus item = Some status ->
  prop status (js "SidebarModulesAdmin") = Some (JStr text) -> switches text section ->
  NavModules.isSidebarModuleEnabled section module item = Some (adminSays (Some text) section module).
Proof.
  intros Hc Hp Hs. unfold NavModules.isSidebarModuleEnabled, adminSays. rewrite Hc, Hp.
  destruct status as [| | | | |fields]; try done. cbn [json_truthy negb String_of mbind option_bind has_text or_empty].
  destruct (truthy text) eqn:Et; cbn [negb]; [|by destruct text].
  destruct (truthy (trim text)); cbn [negb]; [|done].
  destruct (JSON_parse text) as [v|] eqn:Ev; [|done].
  destruct (prop v section) as [s|] eqn:Es; [|done]. destruct (json_truthy s); cbn [negb orb]; [|done].
  destruct (prop s (js "enabled")) as [e|] eqn:Ee; [destruct (Hs v s _ e Ev Es Ee) as [[] ->]|];
    (destruct (prop s module) as [m|] eqn:Em; [destruct (Hs v s _ m Ev Es Em) as [[] ->]|]); done.
Qed.

(** the guard of the playground and the sidebar read the same setting the
    same way: when the setting holds switches, the page opens from its address
    exactly when the sidebar shows it to a user without preferences. *)
Theorem guard_agrees_with_sidebar item status text user :
  NavModules.getCachedStatus item = Some status ->
  prop status (js "SidebarModulesAdmin") = Some (JStr text) -> switches text (js "chat") ->
  userConfigOf user = None ->
  NavModules.playgroundGuard item = Some (useIsSidebarModuleVisible (Some text) user (js "/playground")).
Proof.
  intros Hc Hp Hs Hu. unfold NavModules.playgroundGuard. rewrite (guard_says _ status text) by done.
  unfold useIsSidebarModuleVisible, isModuleEnabled. rewrite Hu.
  change (map_get URL_TO_CONFIG_MAP (js "/playground")) with (Some (js "chat", js "playground")).
  cbn [userAllows]. rewrite andb_true_r. f_equal. symmetry. apply adminAllowed_says.
  by apply (mapped_known (js "/playground")).
Qed.

Definition nobody : SidebarUser := mkUser None None None.

Lemma guard_agrees_with_sidebar_witness :
  NavModules.playgroundGuard (Some (jq "{'SidebarModulesAdmin':'{\'chat\':{\'playground\':false}}'}")) = Some false.
Proof.
  rewrite (guard_agrees_with_sidebar _
    (JObj [(js "SidebarModulesAdmin", JStr (jq "{'chat':{'playground':false}}"))])
    (jq "{'chat':{'playground':false}}") nobody); [by vm_compute|by vm_compute|done| |done].
  intros v s k x Hv Hs Hx. vm_compute in Hv. injection Hv as <-. vm_compute in Hs. injection Hs as <-.
  cbn [prop map_get] in Hx. case_decide; [|done]. injection Hx as <-. by exists false.
Defined.

(** Other values divide them: the sidebar hides what is not true, the guard
    only what is false. *)
Lemma guard_differs_on_zero :
  NavModules.playgroundGuard (Some (jq "{'SidebarModulesAdmin':'{\'chat\':{\'playground\':0}}'}")) = Some true /\
  useIsSidebarModuleVisible (Some (jq "{'chat':{'playground':0}}")) nobody (js "/playground") = false.
Proof. by split; vm_compute. Qed.

(** ** The layer of the user *)

(** The same entry, with some of its sub-items. *)
Definition narrower (i j : NavItem) : Prop :=
  i = j \/ exists b subs subs', i = NavCollapsible b subs /\ j = NavCollapsible b subs' /\ sublist subs subs'.

Lemma enabled_without url admin user : isModuleEnabled url admin user = true -> isModuleEnabled url admin None = true.
Proof. unfold isModuleEnabled. case_match; [|done]. case_match. by intros [-> _]%andb_true_iff. Qed.

Lemma visible_without item admin user : isNavItemVisible item admin user = true -> isNavItemVisible item admin None = true.
Proof.
  destruct item as [b url|b items|b]; cbn [isNavItemVisible].
  - case_match; [|done]. apply existsb_mono. intros u. apply enabled_without.
  - apply existsb_mono. intros u. apply enabled_without.
  - by intros [-> _]%andb_true_iff.
Qed.

Lemma filterNavItems_elem i items admin user :
  i ∈ filterNavItems items admin user <->
  exists item, item ∈ items /\ i = filterSubItems admin user item /\ isNavItemVisible i admin user = true.
Proof.
  unfold filterNavItems. rewrite list_elem_of_In, List.filter_In, in_map_iff. split.
  - intros [(item & <- & Hin) Hv]. exists item. by rewrite list_elem_of_In.
  - intros (item & Hin & -> & Hv). split; [|done]. exists item. by rewrite <- list_elem_of_In.
Qed.

Lemma items_narrow i items admin user :
  i ∈ filterNavItems items admin user -> exists j, j ∈ filterNavItems items admin None /\ narrower i j.
Proof.
  intros (item & Hin & -> & Hv)%filterNavItems_elem. exists (filterSubItems admin None item).
  rewrite filterNavItems_elem. split.
  - exists item. split_and!; [done|done|]. destruct item as [b url|b subs|b]; try (by eapply visible_without).
    cbn [filterSubItems isNavItemVisible] in *. apply existsb_exists in Hv as (x & Hx & He). apply existsb_exists.
    exists x. apply enabled_without in He as He'. split; [|done]. rewrite List.filter_In in Hx |- *. tauto.
  - destruct item as [b url|b subs|b]; [by left| |by left]. right. eexists _, _, _. split_and!; [done|done|].
    apply filter_imp_sublist. intros x. apply enabled_without.
Qed.

Lemma useSidebarConfig_elem g adminText user groups :
  g ∈ useSidebarConfig adminText user groups <->
  exists g0, g0 ∈ groups /\ g_items g <> [] /\
    g = mkGroup (g_id g0) (g_title g0) (filterNavItems (g_items g0) (parseSidebarConfig adminText) (userConfigOf user)).
Proof.
  unfold useSidebarConfig. rewrite list_elem_of_In, List.filter_In, in_map_iff. split.
  - intros [(g0 & <- & Hin) Hl]. exists g0. rewrite list_elem_of_In. split_and!; [done| |done].
    intros E. cbn [g_items] in *. rewrite E in Hl. done.
  - intros (g0 & Hin & Hne & ->). split; [exists g0; by rewrite <- list_elem_of_In|].
    cbn [g_items] in *. by destruct (filterNavItems _ _ _).
Qed.

(** the preference of a user only narrows: every group that is shown has
    an entry and is shown to a user without preferences, and so is each of its
    entries, with at least the same sub-entries. *)
Theorem preferences_only_narrow adminText user groups g :
  g ∈ useSidebarConfig adminText user groups ->
  g_items g <> [] /\
  exists g', g' ∈ useSidebarConfig adminText nobody groups /\ g_id g' = g_id g /\ g_title g' = g_title g /\
    forall i, i ∈ g_items g -> exists j, j ∈ g_items g' /\ narrower i j.
Proof.
  intros (g0 & Hin & Hne & ->)%useSidebarConfig_elem. split; [done|].
  set (admin := parseSidebarConfig adminText) in *.
  exists (mkGroup (g_id g0) (g_title g0) (filterNavItems (g_items g0) admin None)).
  split_and!; [|done|done|intros i; apply items_narrow].
  apply useSidebarConfig_elem. exists g0. split_and!; [done| |done]. cbn [g_items] in *.
  destruct (filterNavItems (g_items g0) admin (userConfigOf user)) as [|i l] eqn:E; [done|].
  destruct (items_narrow i (g_items g0) admin (userConfigOf user)) as (j & Hj & _); [rewrite E; by left|].
  intros Hnil. rewrite Hnil in Hj. by apply elem_of_nil in Hj.
Qed.

Definition sampleUser : SidebarUser := mkUser (Some 1) None (Some (jq "{'console':{'log':false},'personal':{'enabled':false}}")).

Definition sampleGroup : NavGroup := nth 1 (useSidebarConfig None sampleUser (useSidebarData id)) (mkGroup None [] []).

Lemma preferences_only_narrow_witness :
  length (g_items sampleGroup) = 4%nat /\
  exists g', g' ∈ useSidebarConfig None nobody (useSidebarData id) /\ g_id g' = Some (js "general").
Proof.
  split; [by vm_compute|].
  destruct (preferences_only_narrow None sampleUser (useSidebarData id) sampleGroup) as (_ & g' & Hg' & Hid & _).
  - apply list_elem_of_In, nth_In. by vm_compute; repeat constructor.
  - exists g'. by rewrite Hid.
Defined.

(** ** Roles *)

(** no entry is shown below the role it requires, and the group of the
    administration is shown to administrators only. *)
Theorem roles_are_respected groups userRole g i :
  g ∈ rootNavGroups groups userRole ->
  (g_id g = Some (js "admin") -> ADMIN <= userRole ?? GUEST) /\
  (i ∈ g_items g -> forall r, requiredRole (base_of i) = Some r -> r <= userRole ?? GUEST) /\
  exists g0, g0 ∈ groups /\ g_id g0 = g_id g /\ sublist (g_items g) (g_items g0).
Proof.
  unfold rootNavGroups. set (role := userRole ?? GUEST).
  rewrite list_elem_of_In, in_map_iff. intros (g0 & Hg & Hin). apply List.filter_In in Hin as [Hin Ha].
  set (items := List.filter (allowedFor role) (g_items g0)) in *.
  assert (sublist items (g_items g0)) as Hsub.
  { subst items. clear. induction (g_items g0) as [|x l IH]; [constructor|]. cbn [List.filter].
    by case_match; constructor. }
  assert (g_id g = g_id g0 /\ g_items g = items) as [Hid Hitems].
  { subst g. cbv zeta. fold items. destruct (length items =? length (g_items g0))%nat eqn:E; [|done].
    split; [done|]. symmetry. apply filter_same_length. by apply Nat.eqb_eq. }
  rewrite Hid, Hitems. split_and!.
  - intros E. rewrite bool_decide_eq_true_2 in Ha by done. lia.
  - intros Hi r Hr. apply list_elem_of_In, List.filter_In in Hi as [_ Hi]. unfold allowedFor in Hi. rewrite Hr in Hi. lia.
  - exists g0. split_and!; [by apply list_elem_of_In|done|done].
Qed.

Definition adminGroup : NavGroup := nth 3 (rootNavGroups (useSidebarData id) (Some ADMIN)) (mkGroup None [] []).

Lemma roles_are_respected_witness :
  length (g_items adminGroup) = 6%nat /\
  exists g0, g0 ∈ useSidebarData id /\ g_id g0 = Some (js "admin") /\ sublist (g_items adminGroup) (g_items g0).
Proof.
  split; [by vm_compute|].
  apply (roles_are_respected (useSidebarData id) (Some ADMIN) adminGroup (NavChatPresets (mkBase [] None None None))).
  apply list_elem_of_In, nth_In. by vm_compute; repeat constructor.
Defined.

(** the role is checked after the empty groups were dropped.  When the
    administrator closes the section of the administration, an administrator
    who is not the root still gets the group, with its heading and no entry:
    the one entry left in it requires the root. *)
Theorem empty_group_is_shown t :
  exists g, g ∈ sidebarGroups t (Some (jq "{'admin':{'enabled':false}}")) (mkUser (Some ADMIN) None None) /\
    g_id g = Some (js "admin") /\ g_items g = [].
Proof.
  exists (mkGroup (Some (js "admin")) (t (js "Admin")) []). split_and!; [|done|done].
  unfold sidebarGroups. set (groups := useSidebarConfig _ _ _).
  assert (groups = firstn 3 (useSidebarData t) ++
    [group t "admin" "Admin"
       [NavLink (mkBase (t (js "System Info")) None None (Some AdminPermissions.SUPER_ADMIN)) (js "/system-info")]])
    as -> by (subst groups; vm_compute; reflexivity).
  do 3 right. left.
Qed.

End SidebarProperties.
