(* ===== verification/PriceSync.v ===== *)
(** * System settings: syncing prices with upstream channels

    [features/system-settings/models/upstream-ratio-sync.tsx] with its helpers,
    its table and its dialogs.  The server compares the local prices with those
    of the chosen channels; the administrator picks, model by model, which
    upstream values to take over, and the page writes them into the ten option
    texts that hold the local prices.

    An upstream value is a JSON value, in which null and the text same mean that
    there is nothing to take; a missing property is [None].  The keys of the
    maps by price field are no integers, so that they are listed in insertion
    order; model names may be, and [Object_entries] orders them.  A handler that
    throws is [None].  The translation [t] and [toLowerCase], as [lower], are
    parameters. *)

From S2P Require Import Prelude JsString JsCollections Json JsonText JsValue.
Import Json JsValue.

Module PriceSync.

(** ** Types *)

Inductive RatioType :=
| model_ratio | completion_ratio | cache_ratio | create_cache_ratio | image_ratio | audio_ratio
| audio_completion_ratio | model_price | billing_mode | billing_expr.

#[export] Instance RatioType_eq_dec : EqDecision RatioType.
Proof. solve_decision. Defined.

Definition rt_text (rt : RatioType) : jsstr :=
  match rt with
  | model_ratio => js "model_ratio" | completion_ratio => js "completion_ratio" | cache_ratio => js "cache_ratio"
  | create_cache_ratio => js "create_cache_ratio" | image_ratio => js "image_ratio" | audio_ratio => js "audio_ratio"
  | audio_completion_ratio => js "audio_completion_ratio" | model_price => js "model_price"
  | billing_mode => js "billing_mode" | billing_expr => js "billing_expr"
  end.

Record RatioDifference := mkDiff {
  current : json;
  upstreams : list (jsstr * json);
  confidence : list (jsstr * bool) }.

Definition ModelDiffs : Type := list (RatioType * RatioDifference).
Definition DifferencesMap : Type := list (jsstr * ModelDiffs).
Definition ModelResolutions : Type := list (RatioType * json).
Definition ResolutionsMap : Type := list (jsstr * ModelResolutions).

Record UpstreamChannel := mkChannel { ch_id : Z; ch_name : jsstr; ch_base_url : jsstr; ch_type : option Z }.
Record UpstreamConfig := mkUpstream { u_id : Z; u_name : jsstr; u_base_url : jsstr; u_endpoint : jsstr }.
Record ConflictItem := mkConflict { i_channel : jsstr; i_model : jsstr; i_current : jsstr; i_newVal : jsstr }.
Record ModelRow := mkRow { r_model : jsstr; ratioTypes : ModelDiffs; billingConflict : bool }.

(** ** Helpers *)

Definition RATIO_SYNC_FIELDS : list RatioType :=
  [model_ratio; completion_ratio; cache_ratio; create_cache_ratio; image_ratio; audio_ratio; audio_completion_ratio].
Definition SYNC_FIELD_ORDER : list RatioType := RATIO_SYNC_FIELDS ++ [model_price; billing_mode; billing_expr].
Definition NUMERIC_SYNC_FIELDS : list RatioType := RATIO_SYNC_FIELDS ++ [model_price].

Definition has {K V} `{EqDecision K} (m : list (K * V)) (k : K) : bool := bool_decide (k ∈ map_keys m).

Definition getOrderedRatioTypes (types : ModelDiffs) (filter : jsstr) : list RatioType :=
  let keys := map_keys types in
  let ordered := List.filter (fun f => bool_decide (f ∈ keys)) SYNC_FIELD_ORDER ++
                 List.filter (fun f => negb (bool_decide (f ∈ SYNC_FIELD_ORDER))) keys in
  if negb (truthy filter) || bool_decide (filter = js "__all__") then ordered
  else List.filter (fun f => bool_decide (rt_text f = filter)) ordered.

(** [types[rt]?.upstreams?.[source]] *)
Definition upstreamValue (types : ModelDiffs) (rt : RatioType) (source : jsstr) : option json :=
  d ← map_get types rt; map_get (upstreams d) source.

Definition isSelectableUpstreamValue (value : option json) : bool :=
  match value with
  | None | Some JNull => false
  | Some (JStr s) => negb (bool_decide (s = js "same"))
  | Some _ => true
  end.

Definition getPreferredSyncField (types : ModelDiffs) (rt : RatioType) (source : jsstr) : RatioType :=
  if negb (bool_decide (rt = billing_expr)) && isSelectableUpstreamValue (upstreamValue types billing_expr source)
  then billing_expr else rt.

Inductive Category := Price | Ratio | Tiered.

#[export] Instance Category_eq_dec : EqDecision Category.
Proof. solve_decision. Defined.

Definition getBillingCategory (rt : RatioType) : Category :=
  match rt with model_price => Price | billing_mode | billing_expr => Tiered | _ => Ratio end.

(** [word.charAt(0).toUpperCase() + word.slice(1)] for an ASCII word *)
Definition capitalize (word : jsstr) : jsstr :=
  match word with c :: w => (if (97 <=? c) && (c <=? 122) then c - 32 else c) :: w | [] => [] end.

Definition optionKeyBySyncField (rt : RatioType) : jsstr :=
  match rt with
  | billing_mode => js "billing_setting.billing_mode"
  | billing_expr => js "billing_setting.billing_expr"
  | _ => concat (map capitalize (split 95 (rt_text rt)))
  end.

(** [JSON.parse(raw || '{}')], an empty object where that throws *)
Definition parseJsonRecord (raw : jsstr) : json :=
  JSON_parse (if truthy raw then raw else js "{}") ?? JObj [].

Definition deleteResolutionField (res : ResolutionsMap) (model : jsstr) (rt : RatioType) : ResolutionsMap :=
  match map_get res model with
  | None => res
  | Some r =>
      let r := map_delete r rt in
      let r := if bool_decide (rt = billing_expr) then map_delete r billing_mode else r in
      let r := if bool_decide (rt = billing_mode) then map_delete r billing_expr else r in
      if (length (map_keys r) =? 0)%nat then map_delete res model else map_set res model r
  end.

(** [a === b] on parsed numbers and texts *)
Definition num_eqb (a b : jnum) : bool :=
  let e := Z.min (expo a) (expo b) in mant a * 10 ^ (expo a - e) =? mant b * 10 ^ (expo b - e).

Definition strict_eq (a b : json) : bool :=
  match a, b with
  | JNum a, JNum b => num_eqb a b
  | JStr a, JStr b => bool_decide (a = b)
  | JBool a, JBool b => Bool.eqb a b
  | JNull, JNull => true
  | _, _ => false
  end.

(** [v[k]] on a parsed value; reading from [null] throws. *)
Definition read (v : json) (k : jsstr) : option (option json) :=
  match v with JNull => None | _ => Some (map_get (own_entries v) k) end.

(** ** The local prices *)

Definition OPTION_KEYS : list jsstr :=
  [ js "ModelRatio"; js "CompletionRatio"; js "CacheRatio"; js "CreateCacheRatio"; js "ImageRatio"; js "AudioRatio";
    js "AudioCompletionRatio"; js "ModelPrice"; js "billing_setting.billing_mode"; js "billing_setting.billing_expr" ].

(** The texts of the options, by their keys. *)
Definition Texts : Type := list (jsstr * jsstr).
Definition ParsedRatios : Type := list (jsstr * json).

Definition parsedRatios (modelRatios : Texts) : ParsedRatios :=
  map (fun k => (k, parseJsonRecord (or_empty (map_get modelRatios k)))) OPTION_KEYS.

(** [currentRatios.Key] *)
Definition option_of (ratios : ParsedRatios) (k : jsstr) : json := map_get ratios k ?? JObj [].

Fixpoint anyDefined (ratios : ParsedRatios) (model : jsstr) (keys : list jsstr) : option bool :=
  match keys with
  | [] => Some false
  | k :: keys =>
      v ← read (option_of ratios k) model;
      match v with Some _ => Some true | None => anyDefined ratios model keys end
  end.

Definition getLocalBillingCategory (model : jsstr) (ratios : ParsedRatios) : option (option Category) :=
  price ← read (option_of ratios (js "ModelPrice")) model;
  match price with
  | Some _ => Some (Some Price)
  | None =>
      ratio ← anyDefined ratios model
        [ js "ModelRatio"; js "CompletionRatio"; js "CacheRatio"; js "CreateCacheRatio"; js "ImageRatio"; js "AudioRatio";
          js "AudioCompletionRatio" ];
      Some (if (ratio : bool) then Some Ratio else None)
  end.

(** ** Writing the selection *)

(** The options as they will be written. *)
Definition Final : Type := list (jsstr * list (jsstr * json)).

(** [delete final[key][model]] and [final[key][model] = v] *)
Definition deleteEntry (model : jsstr) (final : Final) (key : jsstr) : Final :=
  map_set final key (map_delete (map_get final key ?? []) model).
Definition setEntry (model : jsstr) (final : Final) (key : jsstr) (v : json) : Final :=
  map_set final key (map_set (map_get final key ?? []) model v).

(** [NUMERIC_SYNC_FIELDS.has(ratioType) ? Number(value) : value]; NaN is
    written as null. *)
Definition storedValue (rt : RatioType) (value : json) : json :=
  if bool_decide (rt ∈ NUMERIC_SYNC_FIELDS)
  then match Number_of value with Some (Some n) => JNum n | _ => JNull end
  else value.

Definition hasRatioField (ratios : ModelResolutions) : bool :=
  existsb (fun rt => bool_decide (rt ∈ RATIO_SYNC_FIELDS)) (map_keys ratios).

(** One model of the selection. *)
Definition syncModel (final : Final) (mr : jsstr * ModelResolutions) : Final :=
  let '(model, ratios) := mr in
  let final := if has ratios model_price
    then fold_left (deleteEntry model)
      [ js "ModelRatio"; js "CompletionRatio"; js "CacheRatio"; js "CreateCacheRatio"; js "ImageRatio"; js "AudioRatio";
        js "AudioCompletionRatio" ] final
    else final in
  let final := if hasRatioField ratios then deleteEntry model final (js "ModelPrice") else final in
  fold_left (fun final '(rt, value) => setEntry model final (optionKeyBySyncField rt) (storedValue rt value)) ratios final.

Definition finalRatios (ratios : ParsedRatios) (resolutions : ResolutionsMap) : Final :=
  fold_left syncModel (Object_entries resolutions)
    (map (fun k => (k, own_entries (option_of ratios k))) OPTION_KEYS).

Definition syncUpdates (ratios : ParsedRatios) (resolutions : ResolutionsMap) : list (jsstr * jsstr) :=
  map (fun '(key, value) => (key, JsonText.JSON_pretty (JObj value))) (finalRatios ratios resolutions).

(** ** Choosing channels *)

Definition DEFAULT_ENDPOINT : jsstr := js "/api/pricing".
Definition OFFICIAL_CHANNEL_ID : Z := -100.
Definition OFFICIAL_CHANNEL_ENDPOINT : jsstr := js "/llm-metadata/api/newapi/ratio_config-v1-base.json".
Definition MODELS_DEV_PRESET_ID : Z := -101.
Definition MODELS_DEV_PRESET_ENDPOINT : jsstr := js "https://models.dev/api.json".
Definition OPENROUTER_ENDPOINT : jsstr := js "openrouter".
Definition OPENROUTER_CHANNEL_TYPE : Z := 20.
Definition ENDPOINT_OPTIONS : list jsstr := [js "/api/pricing"; js "/api/ratio_config"; OPENROUTER_ENDPOINT; js "custom"].

Definition getDefaultEndpointForChannel (channel : UpstreamChannel) : jsstr :=
  if ch_id channel =? MODELS_DEV_PRESET_ID then MODELS_DEV_PRESET_ENDPOINT
  else if ch_id channel =? OFFICIAL_CHANNEL_ID then OFFICIAL_CHANNEL_ENDPOINT
  else if bool_decide (ch_type channel = Some OPENROUTER_CHANNEL_TYPE) then OPENROUTER_ENDPOINT
  else DEFAULT_ENDPOINT.

Definition Endpoints : Type := list (Z * jsstr).

(** The effect that gives every channel of the list an endpoint. *)
Definition fillEndpoints (channels : list UpstreamChannel) (prev : Endpoints) : Endpoints :=
  fold_left (fun next channel =>
    if truthy (or_empty (map_get next (ch_id channel))) then next
    else map_set next (ch_id channel) (getDefaultEndpointForChannel channel)) channels prev.

(** [channelEndpoints[id] || DEFAULT_ENDPOINT] *)
Definition endpointOf (endpoints : Endpoints) (id : Z) : jsstr :=
  let e := or_empty (map_get endpoints id) in if truthy e then e else DEFAULT_ENDPOINT.

Definition getEndpointType (endpoint : jsstr) : jsstr :=
  if bool_decide (endpoint ∈ ENDPOINT_OPTIONS) then endpoint else js "custom".

Definition updateEndpoint (endpoints : Endpoints) (id : Z) (endpoint : jsstr) : Endpoints := map_set endpoints id endpoint.

(** The selector of the endpoint in the dialog. *)
Definition handleTypeChange (endpoints : Endpoints) (id : Z) (value : jsstr) : Endpoints :=
  if bool_decide (value = js "custom") then updateEndpoint endpoints id [] else updateEndpoint endpoints id value.

Definition isOfficialChannel (channel : UpstreamChannel) : bool :=
  (ch_id channel =? OFFICIAL_CHANNEL_ID) || (ch_id channel =? MODELS_DEV_PRESET_ID).

Definition compareChannels (a b : UpstreamChannel) : Z :=
  if isOfficialChannel a && negb (isOfficialChannel b) then -1
  else if negb (isOfficialChannel a) && isOfficialChannel b then 1 else 0.

(** The channels that the dialog lists. *)
Definition sortedChannels (lower : jsstr -> jsstr) (channels : list UpstreamChannel) (search : jsstr) : list UpstreamChannel :=
  js_sort compareChannels
    (if truthy (trim search)
     then List.filter (fun ch => includes (lower (ch_name ch)) (lower search) || includes (lower (ch_base_url ch)) (lower search))
            channels
     else channels).

Definition selectedUpstreams (channels : list UpstreamChannel) (endpoints : Endpoints) (ids : list Z) : list UpstreamConfig :=
  map (fun ch => mkUpstream (ch_id ch) (ch_name ch) (ch_base_url ch) (endpointOf endpoints (ch_id ch)))
    (List.filter (fun ch => bool_decide (ch_id ch ∈ ids)) channels).

(** ** Selecting values *)

(** The updater of one selection in the resolutions of a model. *)
Definition selectField (modelDiffs : option ModelDiffs) (finalType : RatioType) (finalValue : json) (sourceName : jsstr)
    (r : ModelResolutions) : ModelResolutions :=
  let category := getBillingCategory finalType in
  let r := List.filter (fun kv => negb (negb (bool_decide (category = Tiered)) &&
                                        negb (bool_decide (getBillingCategory kv.1 = Tiered)) &&
                                        negb (bool_decide (getBillingCategory kv.1 = category)))) r in
  let r := map_set r finalType finalValue in
  match modelDiffs with
  | Some diffs =>
      if bool_decide (category = Tiered) && truthy sourceName then
        let modeVal := upstreamValue diffs billing_mode sourceName in
        let exprVal := upstreamValue diffs billing_expr sourceName in
        let r := if isSelectableUpstreamValue modeVal then map_set r billing_mode (modeVal ?? JNull)
                 else if bool_decide (finalType = billing_expr) then map_set r billing_mode (JStr (js "tiered_expr"))
                 else r in
        if isSelectableUpstreamValue exprVal then map_set r billing_expr (exprVal ?? JNull) else r
      else r
  | None => r
  end.

Definition handleSelectValue (differences : DifferencesMap) (res : ResolutionsMap)
    (model : jsstr) (rt : RatioType) (value : json) (sourceName : jsstr) : ResolutionsMap :=
  let modelDiffs := map_get differences model in
  let preferredType := if truthy sourceName then getPreferredSyncField (modelDiffs ?? []) rt sourceName else rt in
  let preferredValue :=
    if bool_decide (preferredType = rt) then value
    else match modelDiffs ≫= fun d => upstreamValue d preferredType sourceName with
         | None | Some JNull => value
         | Some v => v
         end in
  map_set res model (selectField modelDiffs preferredType preferredValue sourceName (map_get res model ?? [])).

(** ** The table *)

Section Table.
Variable lower : jsstr -> jsstr.

Definition dataSource (differences : DifferencesMap) : list ModelRow :=
  map (fun '(model, types) =>
    mkRow model types (has types model_price && existsb (has types) RATIO_SYNC_FIELDS)) (Object_entries differences).

Definition filteredData (differences : DifferencesMap) (search ratioTypeFilter : jsstr) : list ModelRow :=
  let data := dataSource differences in
  let data := if truthy (trim search)
    then List.filter (fun row => includes (lower (r_model row)) (lower search)) data else data in
  if truthy ratioTypeFilter && negb (bool_decide (ratioTypeFilter = js "__all__"))
  then List.filter (fun row => existsb (fun rt => bool_decide (rt_text rt = ratioTypeFilter)) (map_keys (ratioTypes row))) data
  else data.

Definition upstreamNames (rows : list ModelRow) (ratioTypeFilter : jsstr) : list jsstr :=
  set_of (concat (map (fun row =>
    concat (map (fun rt => match map_get (ratioTypes row) rt with Some d => Object_keys (upstreams d) | None => [] end)
      (getOrderedRatioTypes (ratioTypes row) ratioTypeFilter))) rows)).
End Table.

(** Whether a cell of the column of an upstream has a checkbox. *)
Definition offered (types : ModelDiffs) (upstream : jsstr) (rt : RatioType) : bool :=
  bool_decide (getPreferredSyncField types rt upstream = rt) && isSelectableUpstreamValue (upstreamValue types rt upstream).

(** The fields of a row that the header of the column selects. *)
Definition offeredFields (ratioTypeFilter upstream : jsstr) (row : ModelRow) : list RatioType :=
  List.filter (offered (ratioTypes row) upstream) (getOrderedRatioTypes (ratioTypes row) ratioTypeFilter).

Definition handleBulkSelect (differences : DifferencesMap) (ratioTypeFilter upstream : jsstr) (rows : list ModelRow)
    (res : ResolutionsMap) : ResolutionsMap :=
  fold_left (fun res row =>
    fold_left (fun res rt =>
      let upstreamVal := upstreamValue (ratioTypes row) rt upstream in
      if bool_decide (getPreferredSyncField (ratioTypes row) rt upstream = rt) && isSelectableUpstreamValue upstreamVal
      then handleSelectValue differences res (r_model row) rt (upstreamVal ?? JNull) upstream
      else res) (getOrderedRatioTypes (ratioTypes row) ratioTypeFilter) res) rows res.

Definition handleBulkUnselect (ratioTypeFilter upstream : jsstr) (rows : list ModelRow) (res : ResolutionsMap)
    : ResolutionsMap :=
  fold_left (fun res row =>
    fold_left (fun res rt =>
      match upstreamValue (ratioTypes row) rt upstream with
      | Some _ => deleteResolutionField res (r_model row) rt
      | None => res
      end) (getOrderedRatioTypes (ratioTypes row) ratioTypeFilter) res) rows res.

(** [resolutions[model]?.[ratioType] === upstreamVal] *)
Definition isSelected (res : ResolutionsMap) (model : jsstr) (rt : RatioType) (value : option json) : bool :=
  match map_get res model ≫= fun r => map_get r rt, value with
  | Some a, Some b => strict_eq a b
  | None, None => true
  | _, _ => false
  end.

(** The counts of the header of a column. *)
Definition selectableCount (ratioTypeFilter upstream : jsstr) (rows : list ModelRow) : nat :=
  length (concat (map (offeredFields ratioTypeFilter upstream) rows)).
Definition selectedCount (res : ResolutionsMap) (ratioTypeFilter upstream : jsstr) (rows : list ModelRow) : nat :=
  length (concat (map (fun row =>
    List.filter (fun rt => isSelected res (r_model row) rt (upstreamValue (ratioTypes row) rt upstream))
      (offeredFields ratioTypeFilter upstream row)) rows)).
Definition allSelected (res : ResolutionsMap) (ratioTypeFilter upstream : jsstr) (rows : list ModelRow) : bool :=
  (0 <? selectableCount ratioTypeFilter upstream rows)%nat &&
  (selectedCount res ratioTypeFilter upstream rows =? selectableCount ratioTypeFilter upstream rows)%nat.

(** ** Conflicts *)

(** [`${v ?? '-'}`] *)
Definition or_dash (v : option json) : option jsstr :=
  match v with None | Some JNull => Some (js "-") | Some v => String_of v end.

Definition findSourceChannel (differences : DifferencesMap) (model : jsstr) (rt : RatioType) (value : json) : jsstr :=
  match map_get differences model ≫= fun types => map_get types rt with
  | None => js "Unknown"
  | Some d =>
      match List.find (fun kv => strict_eq kv.2 value) (Object_entries (upstreams d)) with
      | Some (name, _) => name
      | None => js "Unknown"
      end
  end.

Definition newCategory (ratios : ModelResolutions) : Category :=
  if has ratios model_price then Price
  else if existsb (has ratios) RATIO_SYNC_FIELDS then Ratio else Tiered.

Section Conflicts.
Variable t : jsstr -> jsstr.

Definition ratioDesc (ratio completion : option json) : option jsstr :=
  a ← or_dash ratio; b ← or_dash completion;
  Some (t (js "Model ratio") ++ js ": " ++ a ++ [10] ++ t (js "Completion ratio") ++ js ": " ++ b).

Definition priceDesc (price : option json) : option jsstr :=
  a ← match price with Some v => String_of v | None => Some (js "undefined") end;
  Some (t (js "Fixed price") ++ js ": " ++ a).

Definition conflictOf (current : ParsedRatios) (differences : DifferencesMap) (model : jsstr) (ratios : ModelResolutions)
    : option (option ConflictItem) :=
  localCat ← getLocalBillingCategory model current;
  let newCat := newCategory ratios in
  match localCat with
  | Some localCat =>
      if negb (bool_decide (newCat = Tiered)) && negb (bool_decide (localCat = newCat)) then
        currentDesc ←
          (if bool_decide (localCat = Price)
           then v ← read (option_of current (js "ModelPrice")) model; priceDesc v
           else r ← read (option_of current (js "ModelRatio")) model;
                c ← read (option_of current (js "CompletionRatio")) model; ratioDesc r c);
        newDesc ←
          (if bool_decide (newCat = Price) then priceDesc (map_get ratios model_price)
           else ratioDesc (map_get ratios model_ratio) (map_get ratios completion_ratio));
        let channelNames := set_of (map (fun '(rt, v) => findSourceChannel differences model rt v) ratios) in
        Some (Some (mkConflict (join (js ", ") channelNames) model currentDesc newDesc))
      else Some None
  | None => Some None
  end.

(** The conflicts of the selection, in its order. *)
Fixpoint conflictsOf (current : ParsedRatios) (differences : DifferencesMap) (entries : ResolutionsMap)
    : option (list ConflictItem) :=
  match entries with
  | [] => Some []
  | (model, ratios) :: entries =>
      c ← conflictOf current differences model ratios;
      cs ← conflictsOf current differences entries;
      Some (match c with Some c => c :: cs | None => cs end)
  end.
End Conflicts.

(** One synced field leaves the table, with its row when it was the last. *)
Definition dropField (model : jsstr) (diffs : DifferencesMap) (rt : RatioType) : DifferencesMap :=
  match map_get diffs model with
  | Some types =>
      if has types rt then
        let types := map_delete types rt in
        if (length (map_keys types) =? 0)%nat then map_delete diffs model else map_set diffs model types
      else diffs
  | None => diffs
  end.

(** The differences that remain after a sync. *)
Definition dropSynced (resolutions : ResolutionsMap) (prevDiffs : DifferencesMap) : DifferencesMap :=
  fold_left (fun diffs '(model, ratios) => fold_left (dropField model) (map_keys ratios) diffs)
    (Object_entries resolutions) prevDiffs.

(** ** The page *)

Record SyncState := mkSync {
  channelDialogOpen : bool;
  conflictDialogOpen : bool;
  channels : list UpstreamChannel;
  selectedChannelIds : list Z;
  channelEndpoints : Endpoints;
  differences : DifferencesMap;
  resolutions : ResolutionsMap;
  conflictItems : list ConflictItem;
  fetching : option (list UpstreamConfig);       (* the request in flight *)
  syncing : option (list (jsstr * jsstr));       (* the updates in flight *)
  confirmLoading : bool;
  search : jsstr;
  ratioTypeFilter : jsstr;
  modelRatios : Texts }.

Definition initState (texts : Texts) : SyncState :=
  mkSync false false [] [] [] [] [] [] None None false [] [] texts.

Definition isLoading (s : SyncState) : bool :=
  match fetching s, syncing s with None, None => confirmLoading s | _, _ => true end.

Definition setResolutions (s : SyncState) (res : ResolutionsMap) : SyncState :=
  mkSync (channelDialogOpen s) (conflictDialogOpen s) (channels s) (selectedChannelIds s) (channelEndpoints s)
    (differences s) res (conflictItems s) (fetching s) (syncing s) (confirmLoading s) (search s) (ratioTypeFilter s)
    (modelRatios s).

(** Both maps, and what is in flight. *)
Definition settle (s : SyncState) (diffs : DifferencesMap) (res : ResolutionsMap)
    (fetching : option (list UpstreamConfig)) (syncing : option (list (jsstr * jsstr))) (dialog loading : bool) : SyncState :=
  mkSync (channelDialogOpen s) dialog (channels s) (selectedChannelIds s) (channelEndpoints s)
    diffs res (conflictItems s) fetching syncing loading (search s) (ratioTypeFilter s) (modelRatios s).

Definition setChannels (s : SyncState) (open : bool) (chs : list UpstreamChannel) (ids : list Z) (eps : Endpoints)
    (fetching : option (list UpstreamConfig)) : SyncState :=
  mkSync open (conflictDialogOpen s) chs ids eps
    (differences s) (resolutions s) (conflictItems s) fetching (syncing s) (confirmLoading s) (search s)
    (ratioTypeFilter s) (modelRatios s).

Definition setView (s : SyncState) (dialog : bool) (items : list ConflictItem) (search ratioTypeFilter : jsstr)
    (texts : Texts) : SyncState :=
  mkSync (channelDialogOpen s) dialog (channels s) (selectedChannelIds s) (channelEndpoints s)
    (differences s) (resolutions s) items (fetching s) (syncing s) (confirmLoading s) search ratioTypeFilter texts.

Section Page.
Variables (t lower : jsstr -> jsstr).

Definition handleOpenChannelDialog (s : SyncState) : SyncState :=
  setChannels s true (channels s) (selectedChannelIds s) (channelEndpoints s) (fetching s).

(** The list of channels arrives, and the effect that depends on it runs. *)
Definition onChannels (s : SyncState) (chs : list UpstreamChannel) : SyncState :=
  setChannels s (channelDialogOpen s) chs (selectedChannelIds s) (fillEndpoints chs (channelEndpoints s)) (fetching s).

(** [handleConfirm] of the dialog, with the handler of the page. *)
Definition handleConfirmChannelSelection (s : SyncState) (ids : list Z) : SyncState :=
  let upstreams := selectedUpstreams (channels s) (channelEndpoints s) ids in
  setChannels s false (channels s) ids (channelEndpoints s)
    (if (length upstreams =? 0)%nat then fetching s else Some upstreams).

Definition onFetched (s : SyncState) (diffs : DifferencesMap) : SyncState :=
  settle s diffs [] None (syncing s) (conflictDialogOpen s) (confirmLoading s).

(** An answer without success, or an error. *)
Definition onFetchFailed (s : SyncState) : SyncState :=
  settle s (differences s) (resolutions s) None (syncing s) (conflictDialogOpen s) (confirmLoading s).

Definition performSync (s : SyncState) (loading : bool) : SyncState :=
  settle s (differences s) (resolutions s) (fetching s)
    (Some (syncUpdates (parsedRatios (modelRatios s)) (resolutions s))) (conflictDialogOpen s) loading.

Definition handleApplySync (s : SyncState) : option SyncState :=
  conflicts ← conflictsOf t (parsedRatios (modelRatios s)) (differences s) (Object_entries (resolutions s));
  Some (if (0 <? length conflicts)%nat
        then setView s true conflicts (search s) (ratioTypeFilter s) (modelRatios s)
        else performSync s (confirmLoading s)).

Definition handleConfirmConflict (s : SyncState) : SyncState := performSync s true.

(** The updates are written, one after the other; or one of them fails.  Both
    end the wait of [handleConfirmConflict]. *)
Definition onSynced (s : SyncState) : SyncState :=
  settle s (dropSynced (resolutions s) (differences s)) [] (fetching s) None
    (if confirmLoading s then false else conflictDialogOpen s) false.
Definition onSyncFailed (s : SyncState) : SyncState :=
  settle s (differences s) (resolutions s) (fetching s) None (conflictDialogOpen s) false.

Definition rows (s : SyncState) : list ModelRow := filteredData lower (differences s) (search s) (ratioTypeFilter s).

(** What can happen on the page. *)
Inductive event :=
| EOpenDialog
| EChannels (chs : list UpstreamChannel)
| EEndpoint (id : Z) (endpoint : jsstr)
| EEndpointType (id : Z) (value : jsstr)
| EConfirmChannels (ids : list Z)
| EFetched (diffs : DifferencesMap)
| EFetchFailed
| ESelect (upstream : jsstr) (row : ModelRow) (rt : RatioType)
| EUnselect (upstream : jsstr) (row : ModelRow) (rt : RatioType)
| EBulk (upstream : jsstr) (checked : bool)
| EApply
| EConfirm
| ECloseConflicts
| ESynced
| ESyncFailed
| ESearch (text : jsstr)
| EFilter (value : jsstr)
| ETexts (texts : Texts).

(** A cell with a checkbox that is enabled. *)
Definition cell (s : SyncState) (upstream : jsstr) (row : ModelRow) (rt : RatioType) : Prop :=
  isLoading s = false /\ row ∈ rows s /\ upstream ∈ upstreamNames (rows s) (ratioTypeFilter s) /\
  rt ∈ offeredFields (ratioTypeFilter s) upstream row.

Inductive step : SyncState -> event -> SyncState -> Prop :=
| step_open s : isLoading s = false -> step s EOpenDialog (handleOpenChannelDialog s)
| step_channels s chs : step s (EChannels chs) (onChannels s chs)
| step_endpoint s id e :
    channelDialogOpen s = true ->
    step s (EEndpoint id e) (setChannels s true (channels s) (selectedChannelIds s)
      (updateEndpoint (channelEndpoints s) id e) (fetching s))
| step_endpoint_type s id v :
    channelDialogOpen s = true ->
    step s (EEndpointType id v) (setChannels s true (channels s) (selectedChannelIds s)
      (handleTypeChange (channelEndpoints s) id v) (fetching s))
| step_confirm_channels s ids :
    channelDialogOpen s = true -> step s (EConfirmChannels ids) (handleConfirmChannelSelection s ids)
| step_fetched s diffs : is_Some (fetching s) -> step s (EFetched diffs) (onFetched s diffs)
| step_fetch_failed s : is_Some (fetching s) -> step s EFetchFailed (onFetchFailed s)
| step_select s u row rt :
    cell s u row rt ->
    step s (ESelect u row rt) (setResolutions s
      (handleSelectValue (differences s) (resolutions s) (r_model row) rt (upstreamValue (ratioTypes row) rt u ?? JNull) u))
| step_unselect s u row rt :
    cell s u row rt ->
    step s (EUnselect u row rt) (setResolutions s (deleteResolutionField (resolutions s) (r_model row) rt))
| step_bulk_select s u :
    isLoading s = false -> u ∈ upstreamNames (rows s) (ratioTypeFilter s) ->
    (0 < selectableCount (ratioTypeFilter s) u (rows s))%nat ->
    step s (EBulk u true) (setResolutions s
      (handleBulkSelect (differences s) (ratioTypeFilter s) u (rows s) (resolutions s)))
| step_bulk_unselect s u :
    isLoading s = false -> u ∈ upstreamNames (rows s) (ratioTypeFilter s) ->
    (0 < selectableCount (ratioTypeFilter s) u (rows s))%nat ->
    step s (EBulk u false) (setResolutions s (handleBulkUnselect (ratioTypeFilter s) u (rows s) (resolutions s)))
| step_apply s s' :
    isLoading s = false -> (0 < length (resolutions s))%nat -> handleApplySync s = Some s' -> step s EApply s'
| step_confirm s :
    conflictDialogOpen s = true -> confirmLoading s = false -> step s EConfirm (handleConfirmConflict s)
| step_close s :
    step s ECloseConflicts (setView s false (conflictItems s) (search s) (ratioTypeFilter s) (modelRatios s))
| step_synced s : is_Some (syncing s) -> step s ESynced (onSynced s)
| step_sync_failed s : is_Some (syncing s) -> step s ESyncFailed (onSyncFailed s)
| step_search s text :
    isLoading s = false ->
    step s (ESearch text) (setView s (conflictDialogOpen s) (conflictItems s) text (ratioTypeFilter s) (modelRatios s))
| step_filter s v :
    isLoading s = false ->
    step s (EFilter v) (setView s (conflictDialogOpen s) (conflictItems s) (search s) v (modelRatios s))
| step_texts s texts :
    step s (ETexts texts) (setView s (conflictDialogOpen s) (conflictItems s) (search s) (ratioTypeFilter s) texts).

Inductive run : SyncState -> list event -> SyncState -> Prop :=
| run_nil s : run s [] s
| run_cons s e s1 es s2 : step s e s1 -> run s1 es s2 -> run s (e :: es) s2.
End Page.

End PriceSync.
