(* ===== verification/PriceSyncProperties.v ===== *)
(** * System settings: theorems on the price sync

    What a selection holds after any sequence of events, what the sync writes
    for every field of every model, when it runs without a confirmation, and
    that the header of a column selects its column. *)

From S2P Require Import Prelude JsString JsCollections Json JsonText JsValue PriceSync.
Import Json JsValue PriceSync.

Module PriceSyncProperties.

(** ** Selecting a field *)

Lemma map_get_delete {K V} `{EqDecision K} (m : list (K * V)) k k' :
  map_get (map_delete m k) k' = if decide (k = k') then None else map_get m k'.
Proof. case_decide; [subst; apply map_get_delete_eq|by apply map_get_delete_ne]. Qed.

Lemma map_get_set {K V} `{EqDecision K} (m : list (K * V)) k k' v :
  map_get (map_set m k v) k' = if decide (k = k') then Some v else map_get m k'.
Proof. case_decide; [subst; apply map_get_set_eq|by apply map_get_set_ne]. Qed.

Lemma has_get {K V} `{EqDecision K} (m : list (K * V)) k : has m k = true <-> is_Some (map_get m k).
Proof.
  unfold has. rewrite bool_decide_eq_true, <- not_eq_None_Some, map_get_None.
  split; [tauto|]. intros H. destruct (decide (k ∈ map_keys m)); tauto.
Qed.

Lemma has_false {K V} `{EqDecision K} (m : list (K * V)) k : has m k = false <-> map_get m k = None.
Proof.
  rewrite <- not_true_iff_false, has_get, <- not_eq_None_Some.
  destruct (map_get m k); split; [intros []|intros|intros|intros]; congruence.
Qed.

Lemma selectable_some v : isSelectableUpstreamValue v = true -> exists x, v = Some x /\ x <> JNull.
Proof. destruct v as [[]|]; try done; eauto. Qed.

(** The other side of a price or of a ratio. *)
Definition conflicting (rt k : RatioType) : bool :=
  negb (bool_decide (getBillingCategory rt = Tiered)) && negb (bool_decide (getBillingCategory k = Tiered)) &&
  negb (bool_decide (getBillingCategory k = getBillingCategory rt)).

(** The selection of a model after one more field. *)
Lemma selectField_get types rt v u r k :
  u <> [] -> upstreamValue types rt u = Some v -> isSelectableUpstreamValue (Some v) = true ->
  map_get (selectField (Some types) rt v u r) k =
  if decide (k = rt) then Some v
  else if bool_decide (getBillingCategory rt = Tiered) && bool_decide (getBillingCategory k = Tiered) then
    if isSelectableUpstreamValue (upstreamValue types k u) then upstreamValue types k u
    else if bool_decide (k = billing_mode) then Some (JStr (js "tiered_expr")) else map_get r k
  else if conflicting rt k then None else map_get r k.
Proof.
  intros Hu Hv Hs. unfold selectField.
  assert (truthy u = true) as -> by (by destruct u). rewrite andb_true_r.
  change (List.filter _ r) with (List.filter (fun kv => negb (conflicting rt kv.1)) r).
  pose proof (map_get_filter (fun k => negb (conflicting rt k)) r k) as Hr. cbn beta in Hr.
  set (r0 := List.filter _ r) in *.
  destruct (bool_decide (getBillingCategory rt = Tiered)) eqn:E; cbn [andb]; bool_hyps.
  - assert (conflicting rt k = false) as Hc by (unfold conflicting; by rewrite E). rewrite Hc in Hr |- *. cbn [negb] in Hr.
    destruct rt; try done; rewrite Hv; rewrite ?Hs.
    all: repeat case_match; rewrite ?map_get_set; destruct k; cbn; try done; congruence.
  - rewrite map_get_set, Hr. destruct (decide (k = rt)) as [->|Hne]; [by rewrite decide_True|].
    rewrite decide_False by done. by destruct (conflicting rt k).
Qed.

(** ** What a selection holds *)

(** The fetched differences: objects with distinct keys, no upstream without a
    name, numbers and texts as values. *)
Definition value_ok (v : json) : Prop := match v with JNum _ | JStr _ | JNull => True | _ => False end.

Definition types_ok (types : ModelDiffs) : Prop :=
  forall rt u v, upstreamValue types rt u = Some v -> u <> [] /\ value_ok v.

Definition diffs_ok (diffs : DifferencesMap) : Prop :=
  NoDup (map_keys diffs) /\ forall model types, map_get diffs model = Some types -> types_ok types.

Definition event_ok (e : event) : Prop := match e with EFetched diffs => diffs_ok diffs | _ => True end.

(** A value comes from an upstream, or it is the mode that goes with an
    expression. *)
Definition taken (types : ModelDiffs) (rt : RatioType) (v : json) : Prop :=
  (exists u, upstreamValue types rt u = Some v /\ isSelectableUpstreamValue (Some v) = true) \/
  (rt = billing_mode /\ v = JStr (js "tiered_expr")).

Record selection_ok (types : ModelDiffs) (r : ModelResolutions) : Prop := {
  sel_nodup : NoDup (map_keys r);
  sel_exclusive : forall rt, rt ∈ RATIO_SYNC_FIELDS -> map_get r model_price = None \/ map_get r rt = None;
  sel_pair : is_Some (map_get r billing_expr) -> is_Some (map_get r billing_mode);
  sel_taken : forall rt v, map_get r rt = Some v -> taken types rt v }.

Lemma selection_nil types : selection_ok types [].
Proof. split; [constructor|by left|by intros []|done]. Qed.

Lemma selectField_nodup d rt v u r : NoDup (map_keys r) -> NoDup (map_keys (selectField d rt v u r)).
Proof.
  intros H. unfold selectField.
  assert (forall f, NoDup (map_keys (map_set (List.filter f r) rt v))) as Hn
    by (intros f; by apply map_keys_set_nodup, map_filter_nodup).
  repeat case_match; repeat apply map_keys_set_nodup; by apply map_filter_nodup.
Qed.

Lemma selectField_ok types rt v u r :
  u <> [] -> upstreamValue types rt u = Some v -> isSelectableUpstreamValue (Some v) = true ->
  selection_ok types r -> selection_ok types (selectField (Some types) rt v u r).
Proof.
  intros Hu Hv Hs [Hn Hx Hp Ht]. pose proof (selectField_get types rt v u r) as Hget.
  split.
  - by apply selectField_nodup.
  - intros k Hk. rewrite !Hget by done. specialize (Hx k Hk). clear -Hx Hk.
    destruct k; try (exfalso; clear -Hk; set_solver); destruct rt; cbn; auto.
  - rewrite !Hget by done. destruct (decide (billing_mode = rt)) as [|Hm]; [by eexists|].
    destruct (decide (billing_expr = rt)) as [<-|He].
    + intros _. cbn [getBillingCategory]. rewrite !bool_decide_eq_true_2 by done. cbn [andb].
      destruct (isSelectableUpstreamValue (upstreamValue types billing_mode u)) eqn:E; [|by eexists].
      apply selectable_some in E as (x & -> & _). by eexists.
    + assert (getBillingCategory rt <> Tiered) as Hc by (by destruct rt).
      unfold conflicting. rewrite (bool_decide_eq_false_2 (_ rt = _)) by done.
      rewrite !(bool_decide_eq_true_2 (getBillingCategory _ = _)) by done. by cbn.
  - intros k x. rewrite Hget by done. destruct (decide (k = rt)) as [->|Hne]; [intros [= <-]; left; by eauto|].
    destruct (_ && _).
    + case_match eqn:E; [intros Hk; left; exists u; split; [done|]; by rewrite <- Hk|].
      destruct (bool_decide (k = billing_mode)) eqn:Ek; bool_hyps; [intros [= <-]; by right|apply Ht].
    + destruct (conflicting rt k); [done|apply Ht].
Qed.

(** ** The invariant *)

Lemma filter_elem {A} (f : A -> bool) l x : x ∈ List.filter f l -> x ∈ l /\ f x = true.
Proof. rewrite !list_elem_of_In, List.filter_In. tauto. Qed.

Lemma ordered_keys types f rt : rt ∈ getOrderedRatioTypes types f -> is_Some (map_get types rt).
Proof.
  unfold getOrderedRatioTypes. intros H.
  assert (rt ∈ map_keys types) as Hin.
  { destruct (negb (truthy f) || _); [|apply filter_elem in H as [H _]].
    all: apply elem_of_app in H as [H|H]; apply filter_elem in H as [H1 H2]; by bool_hyps. }
  by apply has_get, bool_decide_eq_true_2.
Qed.

Lemma rows_get lower diffs search f row :
  NoDup (map_keys diffs) -> row ∈ filteredData lower diffs search f -> map_get diffs (r_model row) = Some (ratioTypes row).
Proof.
  intros Hn H.
  assert (row ∈ dataSource diffs) as Hd.
  { unfold filteredData in H.
    destruct (truthy f && _); [apply filter_elem in H as [H _]|]; destruct (truthy (trim search)); try done.
    all: by apply filter_elem in H as [H _]. }
  unfold dataSource in Hd. apply list_elem_of_fmap in Hd as ([model types] & -> & Hin). cbn.
  apply (map_elem_get diffs); [done|]. by apply Object_entries_elem.
Qed.

Record Inv (s : SyncState) : Prop := {
  inv_diffs : diffs_ok (differences s);
  inv_nodup : NoDup (map_keys (resolutions s));
  inv_sel : forall model r, map_get (resolutions s) model = Some r ->
    r <> [] /\ selection_ok (map_get (differences s) model ?? []) r }.

(** One field of one row of the table. *)
Lemma select_ok s u row rt v :
  Inv s -> map_get (differences s) (r_model row) = Some (ratioTypes row) ->
  offered (ratioTypes row) u rt = true -> upstreamValue (ratioTypes row) rt u = Some v ->
  Inv (setResolutions s (handleSelectValue (differences s) (resolutions s) (r_model row) rt v u)).
Proof.
  intros [Hd Hn Hs] Hrow Ho Hv. unfold offered in Ho. bool_hyps. rewrite Hv in H0.
  destruct Hd as [Hdn Hdt]. destruct (Hdt _ _ Hrow rt u v Hv) as [Hu _].
  unfold handleSelectValue. split; cbn [differences resolutions setResolutions]; [done|by apply map_keys_set_nodup|].
  intros model r. rewrite map_get_set. case_decide as E; [subst model; intros [= <-]|apply Hs]. rewrite Hrow.
  assert (truthy u = true) as -> by (by destruct u). rewrite H, bool_decide_eq_true_2 by done.
  assert (selection_ok (ratioTypes row) (map_get (resolutions s) (r_model row) ?? [])) as Hr.
  { destruct (map_get (resolutions s) (r_model row)) as [r|] eqn:Er; [|apply selection_nil].
    apply Hs in Er as [_ Er]. by rewrite Hrow in Er. }
  pose proof (selectField_ok _ rt v u _ Hu Hv H0 Hr) as Hok. split; [|done].
  intros Hnil. pose proof (selectField_get (ratioTypes row) rt v u (map_get (resolutions s) (r_model row) ?? []) rt Hu Hv H0) as Hg.
  rewrite Hnil, decide_True in Hg by done. done.
Qed.

Lemma delete_field_get r rt k :
  map_get (let r := map_delete r rt in
           let r := if bool_decide (rt = billing_expr) then map_delete r billing_mode else r in
           if bool_decide (rt = billing_mode) then map_delete r billing_expr else r : ModelResolutions) k
  = if decide (k = rt \/ (rt = billing_expr /\ k = billing_mode) \/ (rt = billing_mode /\ k = billing_expr))
    then None else map_get r k.
Proof.
  cbv zeta. destruct (bool_decide (rt = billing_mode)) eqn:E1, (bool_decide (rt = billing_expr)) eqn:E2; bool_hyps;
    subst; try done; rewrite ?map_get_delete; repeat case_decide; subst; try done; naive_solver.
Qed.

Lemma unselect_ok s model rt : Inv s -> Inv (setResolutions s (deleteResolutionField (resolutions s) model rt)).
Proof.
  intros [Hd Hn Hs]. unfold deleteResolutionField.
  destruct (map_get (resolutions s) model) as [r|] eqn:Er; [|by split].
  pose proof (delete_field_get r rt) as Hg. cbv zeta in Hg |- *.
  set (r' := if bool_decide (rt = billing_mode) then _ else _) in *.
  assert (NoDup (map_keys r')) as Hn'.
  { subst r'. destruct (Hs _ _ Er) as [_ [Hr _ _ _]]. repeat case_match; by repeat apply map_delete_nodup. }
  destruct (length (map_keys r') =? 0)%nat eqn:E.
  - split; cbn [differences resolutions setResolutions]; [done|by apply map_delete_nodup|]. intros m r0.
    rewrite map_get_delete. destruct (decide (model = m)); [done|apply Hs].
  - split; cbn [differences resolutions setResolutions]; [done|by apply map_keys_set_nodup|]. intros m r0.
    rewrite map_get_set. destruct (decide (model = m)) as [<-|]; [intros [= <-]|apply Hs]. split; [by intros ->|]. destruct (Hs _ _ Er) as [_ [_ Hx Hp Ht]].
    split; [done|..].
    + intros k Hk. rewrite !Hg. clear Hg. destruct (Hx k Hk) as [Hz|Hz]; rewrite Hz; repeat case_decide; auto.
    + rewrite !Hg. clear Hg. case_decide as E1; [by intros []|]. case_decide as E2; [naive_solver|done].
    + intros k v. rewrite Hg. clear Hg. case_decide; [done|apply Ht].
Qed.

Lemma setResolutions_same s : setResolutions s (resolutions s) = s.
Proof. by destruct s. Qed.

(** A loop of updates of the selection. *)
Lemma fold_inv {A} s (f : ResolutionsMap -> A -> ResolutionsMap) l :
  Inv s -> (forall res a, a ∈ l -> Inv (setResolutions s res) -> Inv (setResolutions s (f res a))) ->
  Inv (setResolutions s (fold_left f l (resolutions s))).
Proof.
  intros H Hf. apply (fold_left_cons_inv (fun res => Inv (setResolutions s res))); [by rewrite setResolutions_same|].
  intros res a Hin Hr. by apply Hf.
Qed.

Lemma bulk_select_ok lower s u :
  Inv s -> Inv (setResolutions s (handleBulkSelect (differences s) (ratioTypeFilter s) u (rows lower s) (resolutions s))).
Proof.
  intros H. unfold handleBulkSelect. apply fold_inv; [done|]. intros res row Hrow Hres.
  pose proof (rows_get _ _ _ _ _ (proj1 (inv_diffs s H)) Hrow) as Hg.
  apply (fold_inv (setResolutions s res)); [done|]. intros res' rt _ Hres'. cbv zeta.
  destruct (_ && _) eqn:E; [|done].
  assert (exists v, upstreamValue (ratioTypes row) rt u = Some v) as [v Hv].
  { bool_hyps. apply selectable_some in H1 as (v & -> & _). by eexists. }
  rewrite Hv. by apply (select_ok (setResolutions s res')).
Qed.

Lemma bulk_unselect_ok lower s u :
  Inv s -> Inv (setResolutions s (handleBulkUnselect (ratioTypeFilter s) u (rows lower s) (resolutions s))).
Proof.
  intros H. unfold handleBulkUnselect. apply fold_inv; [done|]. intros res row _ Hres.
  apply (fold_inv (setResolutions s res)); [done|]. intros res' rt _ Hres'.
  destruct (upstreamValue _ _ _); [|done]. by apply (unselect_ok (setResolutions s res')).
Qed.

Lemma types_ok_delete types rt : types_ok types -> types_ok (map_delete types rt).
Proof.
  intros H k u v. unfold upstreamValue. rewrite map_get_delete. case_decide; [done|]. apply H.
Qed.

Lemma dropSynced_ok res diffs : diffs_ok diffs -> diffs_ok (dropSynced res diffs).
Proof.
  intros H. unfold dropSynced. apply fold_left_cons_inv; [done|]. intros d [model ratios] _ Hd.
  apply fold_left_cons_inv; [done|]. intros d' rt _ [Hn Ht]. unfold dropField.
  destruct (map_get d' model) as [types|] eqn:E; [|by split]. destruct (has types rt); [|by split]. cbv zeta.
  apply Ht in E. pose proof (types_ok_delete types rt E) as E'. destruct (_ =? _)%nat.
  - split; [by apply map_delete_nodup|]. intros m ty. rewrite map_get_delete. case_decide; [done|apply Ht].
  - split; [by apply map_keys_set_nodup|]. intros m ty. rewrite map_get_set. case_decide; [by intros [= <-]|apply Ht].
Qed.

Lemma Inv_ext s s' : differences s' = differences s -> resolutions s' = resolutions s -> Inv s -> Inv s'.
Proof. intros Hd Hr [H1 H2 H3]. split; rewrite ?Hd, ?Hr; done. Qed.

Lemma Inv_clear s diffs : diffs_ok diffs -> differences s = diffs -> resolutions s = [] -> Inv s.
Proof. intros H Hd Hr. split; rewrite ?Hd, ?Hr; [done|constructor|done]. Qed.

Section Runs.
Variables (t lower : jsstr -> jsstr).

Lemma step_inv s e s' : step t lower s e s' -> event_ok e -> Inv s -> Inv s'.
Proof.
  intros Hstep He H. destruct Hstep; try (by apply (Inv_ext s)).
  - by apply (Inv_clear _ diffs).
  - destruct H0 as (_ & Hrow & _ & Ho). unfold offeredFields in Ho. apply filter_elem in Ho as [_ Ho].
    assert (exists v, upstreamValue (ratioTypes row) rt u = Some v) as [v Hv].
    { unfold offered in Ho. bool_hyps. apply selectable_some in H1 as (v & -> & _). by eexists. }
    rewrite Hv. apply select_ok; [done| |done|done]. eapply rows_get; [apply H|exact Hrow].
  - by apply unselect_ok.
  - by apply bulk_select_ok.
  - by apply bulk_unselect_ok.
  - unfold handleApplySync in H2. destruct (conflictsOf _ _ _ _) as [cs|]; [|done]. cbn in H2.
    injection H2 as <-. case_match; by apply (Inv_ext s).
  - eapply Inv_clear; [|done|done]. apply dropSynced_ok, H.
Qed.

Lemma sync_run_inv s es s' : run t lower s es s' -> Forall event_ok es -> Inv s -> Inv s'.
Proof.
  induction 1 as [|s e s1 es s2 Hs _ IH]; [done|]. intros He H. inversion_clear He. eauto using step_inv.
Qed.

Lemma init_inv texts : Inv (initState texts).
Proof. apply (Inv_clear _ []); [|done|done]. split; [constructor|done]. Qed.

(** C23: whatever is clicked, fetched and synced, and in whatever order, the
    values chosen for a model never mix a fixed price with ratios, an expression
    comes with its mode, and every chosen value is one that an upstream offers
    for this field now, or the mode that goes with an expression. *)
Theorem selection_is_sound texts es s model r :
  run t lower (initState texts) es s -> Forall event_ok es -> map_get (resolutions s) model = Some r ->
  r <> [] /\ selection_ok (map_get (differences s) model ?? []) r.
Proof. intros Hrun He. apply inv_sel. eapply sync_run_inv; [exact Hrun|exact He|apply init_inv]. Qed.
End Runs.

(** ** What the sync writes *)

Lemma optionKey_inj rt rt' : optionKeyBySyncField rt = optionKeyBySyncField rt' -> rt = rt'.
Proof. destruct rt, rt'; try done; by vm_compute. Qed.

Lemma option_keys_fields : OPTION_KEYS = map optionKeyBySyncField SYNC_FIELD_ORDER.
Proof. by vm_compute. Qed.

(** The entry of a model in the option of a field. *)
Definition entryOf (final : Final) (rt : RatioType) (model : jsstr) : option json :=
  map_get (map_get final (optionKeyBySyncField rt) ?? []) model.

Definition localEntry (ratios : ParsedRatios) (rt : RatioType) (model : jsstr) : option json :=
  map_get (own_entries (option_of ratios (optionKeyBySyncField rt))) model.

(** What the selection of a model does to the entry of a field. *)
Definition written (r : ModelResolutions) (rt : RatioType) (old : option json) : option json :=
  match map_get r rt with
  | Some v => Some (storedValue rt v)
  | None =>
      if (bool_decide (rt ∈ RATIO_SYNC_FIELDS) && has r model_price) || (bool_decide (rt = model_price) && hasRatioField r)
      then None else old
  end.

Lemma entry_set final m rt v k model :
  entryOf (setEntry m final (optionKeyBySyncField rt) v) k model
  = if decide (rt = k /\ m = model) then Some v else entryOf final k model.
Proof.
  unfold entryOf, setEntry. rewrite map_get_set. destruct (decide (rt = k)) as [->|Hne].
  - rewrite decide_True by done. rewrite map_get_set. destruct (decide (m = model)).
    + by rewrite decide_True.
    + rewrite decide_False by tauto. done.
  - rewrite decide_False by (intros ?%optionKey_inj; done). rewrite decide_False by tauto. done.
Qed.

Lemma entry_delete final m rt k model :
  entryOf (deleteEntry m final (optionKeyBySyncField rt)) k model
  = if decide (rt = k /\ m = model) then None else entryOf final k model.
Proof.
  unfold entryOf, deleteEntry. rewrite map_get_set. destruct (decide (rt = k)) as [->|Hne].
  - rewrite decide_True by done. rewrite map_get_delete. destruct (decide (m = model)).
    + by rewrite decide_True.
    + rewrite decide_False by tauto. done.
  - rewrite decide_False by (intros ?%optionKey_inj; done). rewrite decide_False by tauto. done.
Qed.

Lemma entry_deletes rts final m k model :
  entryOf (fold_left (deleteEntry m) (map optionKeyBySyncField rts) final) k model
  = if decide (k ∈ rts /\ m = model) then None else entryOf final k model.
Proof.
  revert final. induction rts as [|rt rts IH]; intros final; cbn [map fold_left].
  - rewrite decide_False; [done|]. set_solver.
  - rewrite IH, entry_delete. repeat case_decide; set_solver.
Qed.

Lemma entry_sets r final m k model :
  NoDup (map_keys r) ->
  entryOf (fold_left (fun final '(rt, value) => setEntry m final (optionKeyBySyncField rt) (storedValue rt value)) r final) k model
  = match map_get r k with Some v => if decide (m = model) then Some (storedValue k v) else entryOf final k model
    | None => entryOf final k model end.
Proof.
  revert final. induction r as [|[rt v] r IH]; intros final Hn; [done|]. cbn [fold_left].
  apply NoDup_cons in Hn as [Hk Hn]. rewrite IH by done. cbn [map_get]. rewrite entry_set. cbn [fst] in Hk.
  destruct (decide (rt = k)) as [->|Hne].
  - assert (map_get r k = None) as -> by (by apply map_get_None). repeat case_decide; tauto.
  - rewrite (decide_False (P := rt = k /\ _)) by tauto. done.
Qed.

Lemma syncModel_get final m r k model :
  NoDup (map_keys r) ->
  entryOf (syncModel final (m, r)) k model
  = if decide (m = model) then written r k (entryOf final k model) else entryOf final k model.
Proof.
  intros Hn. unfold syncModel, written. rewrite entry_sets by done.
  change [js "ModelRatio"; js "CompletionRatio"; js "CacheRatio"; js "CreateCacheRatio"; js "ImageRatio"; js "AudioRatio";
          js "AudioCompletionRatio"] with (map optionKeyBySyncField RATIO_SYNC_FIELDS).
  change (js "ModelPrice") with (optionKeyBySyncField model_price).
  match goal with |- context [entryOf ?f k model] =>
    assert (entryOf f k model = if decide (m = model) then
      if (bool_decide (k ∈ RATIO_SYNC_FIELDS) && has r model_price) || (bool_decide (k = model_price) && hasRatioField r)
      then None else entryOf final k model else entryOf final k model) as -> end.
  { destruct (hasRatioField r), (has r model_price); rewrite ?entry_delete, ?entry_deletes, ?andb_true_r, ?andb_false_r;
      cbn [orb]; destruct (decide (m = model)); repeat case_bool_decide; cbn [orb]; repeat case_decide; try done; naive_solver. }
  by destruct (map_get r k), (decide (m = model)).
Qed.

Lemma syncModels_get l final k model :
  NoDup (map_keys l) -> (forall m r, (m, r) ∈ l -> NoDup (map_keys r)) ->
  entryOf (fold_left syncModel l final) k model
  = match map_get l model with Some r => written r k (entryOf final k model) | None => entryOf final k model end.
Proof.
  revert final. induction l as [|[m r] l IH]; intros final Hn Hr; [done|]. cbn [fold_left].
  apply NoDup_cons in Hn as [Hm Hn]. cbn [fst] in Hm.
  rewrite IH; [|done|intros m' r' Hin; eapply Hr; by right]. rewrite syncModel_get by (apply (Hr m); by left).
  cbn [map_get]. destruct (decide (m = model)) as [->|Hne]; [|done].
  assert (map_get l model = None) as -> by (by apply map_get_None). done.
Qed.

(** A selection as the page holds it. *)
Definition resolutions_ok (res : ResolutionsMap) : Prop :=
  NoDup (map_keys res) /\ forall model r, map_get res model = Some r -> NoDup (map_keys r).

Lemma Inv_resolutions s : Inv s -> resolutions_ok (resolutions s).
Proof. intros [_ Hn Hs]. split; [done|]. intros model r Hr. apply (Hs model r Hr). Qed.

Lemma final_get ratios res k model :
  resolutions_ok res ->
  entryOf (finalRatios ratios res) k model
  = match map_get res model with Some r => written r k (localEntry ratios k model) | None => localEntry ratios k model end.
Proof.
  intros [Hn Hr]. unfold finalRatios.
  assert (entryOf (map (fun k => (k, own_entries (option_of ratios k))) OPTION_KEYS) k model = localEntry ratios k model) as Hl
    by (by destruct k).
  rewrite syncModels_get.
  - rewrite Hl. by rewrite entries_get.
  - unfold map_keys. by rewrite js_sort_values_perm.
  - intros m r Hin. apply (Hr m). apply map_elem_get; [done|]. by apply Object_entries_elem.
Qed.

(** The sync writes all ten options, in their order. *)
Lemma option_key_known rt : optionKeyBySyncField rt ∈ OPTION_KEYS.
Proof. rewrite option_keys_fields. apply list_elem_of_fmap. exists rt. split; [done|]. destruct rt; set_solver. Qed.

Lemma entry_keys (final : Final) rt x : map_keys final = OPTION_KEYS -> map_keys (map_set final (optionKeyBySyncField rt) x) = OPTION_KEYS.
Proof. intros H. rewrite map_keys_set, H. by rewrite decide_True by apply option_key_known. Qed.

Lemma final_keys ratios res : map_keys (finalRatios ratios res) = OPTION_KEYS.
Proof.
  unfold finalRatios. apply fold_left_cons_inv; [by vm_compute|]. intros final [m r] _ H. unfold syncModel.
  change [js "ModelRatio"; js "CompletionRatio"; js "CacheRatio"; js "CreateCacheRatio"; js "ImageRatio"; js "AudioRatio";
          js "AudioCompletionRatio"] with (map optionKeyBySyncField RATIO_SYNC_FIELDS).
  change (js "ModelPrice") with (optionKeyBySyncField model_price).
  apply fold_left_cons_inv; [|intros f [rt v] _; apply entry_keys].
  assert (map_keys (if has r model_price
    then fold_left (deleteEntry m) (map optionKeyBySyncField RATIO_SYNC_FIELDS) final else final) = OPTION_KEYS) as Hd.
  { case_match; [|done]. apply fold_left_cons_inv; [done|].
    intros f k (rt & -> & _)%list_elem_of_fmap Hf. by apply entry_keys. }
  destruct (hasRatioField r); [by apply entry_keys|done].
Qed.

Lemma hasRatioField_spec r : hasRatioField r = true <-> exists rt, rt ∈ RATIO_SYNC_FIELDS /\ is_Some (map_get r rt).
Proof.
  unfold hasRatioField. rewrite existsb_exists. setoid_rewrite bool_decide_eq_true. split.
  - intros (rt & Hin & Hrt). exists rt. split; [done|]. apply has_get. by apply bool_decide_eq_true_2, list_elem_of_In.
  - intros (rt & Hrt & Hg). exists rt. split; [|done]. apply has_get in Hg. unfold has in Hg. bool_hyps.
    by apply list_elem_of_In.
Qed.

(** ** Conflicts *)

Lemma conflicts_none t cur diffs l m r :
  conflictsOf t cur diffs l = Some [] -> (m, r) ∈ l -> conflictOf t cur diffs m r = Some None.
Proof.
  induction l as [|[m' r'] l IH]; [set_solver|]. cbn [conflictsOf].
  destruct (conflictOf t cur diffs m' r') as [c|] eqn:E; cbn [mbind option_bind]; [|done].
  destruct (conflictsOf t cur diffs l) as [cs|]; cbn [mbind option_bind]; [|done].
  destruct c; [done|]. intros [= ->] [[= -> ->]|Hin]%elem_of_cons; [done|by apply IH].
Qed.

Lemma read_entry ratios rt model x : read (option_of ratios (optionKeyBySyncField rt)) model = Some x -> x = localEntry ratios rt model.
Proof. unfold read, localEntry. destruct (option_of _ _); [done|..]; by intros [= <-]. Qed.

Lemma anyDefined_spec ratios model rts b :
  anyDefined ratios model (map optionKeyBySyncField rts) = Some b ->
  forall rt, rt ∈ rts -> is_Some (localEntry ratios rt model) -> b = true.
Proof.
  induction rts as [|rt' rts IH]; [set_solver|]. cbn [map anyDefined].
  destruct (read _ model) as [x|] eqn:E; cbn [mbind option_bind]; [|done]. apply read_entry in E.
  destruct x; [by intros [= <-]|]. intros H rt [->|Hin]%elem_of_cons; [rewrite <- E; by intros []|by apply IH].
Qed.

(** The local category: a price wins over ratios. *)
Lemma local_category ratios model c :
  getLocalBillingCategory model ratios = Some c ->
  (is_Some (localEntry ratios model_price model) -> c = Some Price) /\
  (localEntry ratios model_price model = None ->
   forall rt, rt ∈ RATIO_SYNC_FIELDS -> is_Some (localEntry ratios rt model) -> c = Some Ratio).
Proof.
  unfold getLocalBillingCategory. change (js "ModelPrice") with (optionKeyBySyncField model_price).
  change [js "ModelRatio"; js "CompletionRatio"; js "CacheRatio"; js "CreateCacheRatio"; js "ImageRatio"; js "AudioRatio";
          js "AudioCompletionRatio"] with (map optionKeyBySyncField RATIO_SYNC_FIELDS).
  destruct (read _ model) as [x|] eqn:E; cbn [mbind option_bind]; [|done]. apply read_entry in E. rewrite <- E.
  destruct x as [p|]; [by intros [= <-]|]. destruct (anyDefined _ _ _) as [b|] eqn:Hb; cbn [mbind option_bind]; [|done].
  intros [= <-]. split; [by intros []|]. intros _ rt Hin Hl. by rewrite (anyDefined_spec _ _ _ _ Hb rt Hin Hl).
Qed.

Lemma no_conflict t cur diffs model r :
  conflictOf t cur diffs model r = Some None ->
  exists c, getLocalBillingCategory model cur = Some c /\
    match c with Some c => newCategory r = Tiered \/ c = newCategory r | None => True end.
Proof.
  unfold conflictOf. destruct (getLocalBillingCategory model cur) as [c|]; cbn [mbind option_bind]; [|done].
  intros H. exists c. split; [done|]. destruct c as [c|]; [|done].
  destruct (_ && _) eqn:E; [|bool_hyps; destruct E; bool_hyps; auto].
  exfalso. revert H. do 2 (match goal with |- option_bind _ _ _ _ = _ -> _ => fail | |- (?x ≫= _) = _ -> _ => destruct x end; cbn [mbind option_bind]; [|done]).
  done.
Qed.

Section Sync.
Variables (t lower : jsstr -> jsstr).
Context (texts : Texts) (es : list event) (s : SyncState).
Hypothesis Hrun : run t lower (initState texts) es s.
Hypothesis Hes : Forall event_ok es.

Lemma reached : Inv s.
Proof. eapply sync_run_inv; [exact Hrun|exact Hes|apply init_inv]. Qed.

#[local] Abbreviation local := (parsedRatios (modelRatios s)).
#[local] Abbreviation final := (finalRatios local (resolutions s)).

(** the sync sends the ten options in their order; in them the entry of a
    field of a model is the chosen value, as a number where the field is one;
    it is removed when a fixed price replaces a ratio or a ratio a fixed price;
    and every other entry, in particular of every other model, is as before. *)
Theorem sync_follows_the_selection loading :
  syncing (performSync s loading) = Some (map (fun '(key, value) => (key, JsonText.JSON_pretty (JObj value))) final) /\
  map_keys final = OPTION_KEYS /\
  forall rt model, entryOf final rt model =
    match map_get (resolutions s) model with
    | Some r => written r rt (localEntry local rt model)
    | None => localEntry local rt model
    end.
Proof.
  split_and!; [done|apply final_keys|]. intros rt model. apply final_get, Inv_resolutions, reached.
Qed.

(** after the sync no model whose price or ratios were chosen has both a
    fixed price and a ratio, whatever it had before. *)
Theorem synced_models_are_exclusive model r rt :
  map_get (resolutions s) model = Some r -> newCategory r <> Tiered -> rt ∈ RATIO_SYNC_FIELDS ->
  entryOf final model_price model = None \/ entryOf final rt model = None.
Proof.
  intros Hr Hc Hrt. rewrite !final_get by (apply Inv_resolutions, reached). rewrite Hr.
  destruct (inv_sel s reached model r Hr) as [_ [_ Hx _ _]]. unfold newCategory in Hc.
  destruct (has r model_price) eqn:Hp.
  - right. destruct (Hx rt Hrt) as [Hn|Hn]; [apply has_get in Hp; rewrite Hn in Hp; by destruct Hp|].
    unfold written. by rewrite Hn, Hp, bool_decide_eq_true_2.
  - left. apply has_false in Hp. destruct (existsb _ _) eqn:He; [|done].
    apply existsb_exists in He as (rt' & Hin & Hg%has_get). unfold written. rewrite Hp.
    assert (hasRatioField r = true) as -> by (apply hasRatioField_spec; exists rt'; by rewrite list_elem_of_In).
    by rewrite orb_true_r.
Qed.

(** a sync that runs without the dialog of conflicts removes an entry only
    where it cleans up: a ratio of a model that has a fixed price as well and
    for which a fixed price was chosen. *)
Theorem unconfirmed_sync_only_cleans s' rt model :
  handleApplySync t s = Some s' -> syncing s = None -> is_Some (syncing s') ->
  is_Some (localEntry local rt model) -> entryOf final rt model = None ->
  rt ∈ RATIO_SYNC_FIELDS /\ is_Some (localEntry local model_price model) /\
  exists r, map_get (resolutions s) model = Some r /\ is_Some (map_get r model_price).
Proof.
  unfold handleApplySync. destruct (conflictsOf _ _ _ _) as [cs|] eqn:Hc; cbn [mbind option_bind]; [|done].
  intros [= <-] Hs0 Hs1 Hl. destruct cs as [|c cs]; [|cbn in Hs1; rewrite Hs0 in Hs1; by destruct Hs1].
  rewrite final_get by (apply Inv_resolutions, reached).
  destruct (map_get (resolutions s) model) as [r|] eqn:Hr; [|by destruct Hl as [? ->]].
  assert (conflictOf t local (differences s) model r = Some None) as (c & Hcat & Hcc)%no_conflict.
  { eapply conflicts_none; [exact Hc|]. apply Object_entries_elem. by apply map_get_Some_elem. }
  apply local_category in Hcat as [HP HR]. unfold written. destruct (map_get r rt) eqn:Hrt; [done|].
  destruct (_ || _) eqn:E; [intros _|by destruct Hl as [? ->]]. bool_hyps. destruct E as [E|E]; bool_hyps.
  - split; [done|]. split; [|exists r; split; [done|by apply has_get]].
    destruct (localEntry local model_price model) eqn:Hp; [by eexists|].
    rewrite (HR eq_refl rt) in Hcc by done. unfold newCategory in Hcc. rewrite H0 in Hcc. by destruct Hcc.
  - subst rt. exfalso. rewrite (HP Hl) in Hcc. unfold newCategory in Hcc.
    assert (has r model_price = false) as Hn by (by apply has_false). rewrite Hn in Hcc.
    apply hasRatioField_spec in H0 as (rt & Hin & Hg).
    assert (existsb (has r) RATIO_SYNC_FIELDS = true) as He
      by (apply existsb_exists; exists rt; split; [by apply list_elem_of_In|by apply has_get]).
    rewrite He in Hcc. by destruct Hcc.
Qed.
End Sync.

(** ** The header of a column *)

Lemma filter_all_true {A} (g : A -> bool) l : (forall x, x ∈ l -> g x = true) -> List.filter g l = l.
Proof.
  induction l as [|x l IH]; intros H; [done|]. cbn [List.filter]. rewrite (H x) by (by left). rewrite IH; [done|].
  intros y Hy. apply H. by right.
Qed.

Lemma strict_eq_refl v : value_ok v -> strict_eq v v = true.
Proof.
  destruct v; try done; cbn; [|by rewrite bool_decide_eq_true]. intros _. unfold num_eqb. rewrite Z.min_id. apply Z.eqb_refl.
Qed.

(** A field of a row is selected from an upstream. *)
Definition chosen (u : jsstr) (row : ModelRow) (res : ResolutionsMap) (k : RatioType) : Prop :=
  map_get (map_get res (r_model row) ?? []) k = upstreamValue (ratioTypes row) k u.

Section Column.
Context (diffs : DifferencesMap) (u f : jsstr).
Hypothesis Hu : u <> [].

(** The body of the loop of [handleBulkSelect]. *)
Definition pick (row : ModelRow) (res : ResolutionsMap) (rt : RatioType) : ResolutionsMap :=
  if offered (ratioTypes row) u rt
  then handleSelectValue diffs res (r_model row) rt (upstreamValue (ratioTypes row) rt u ?? JNull) u
  else res.

Lemma bulk_pick rs res :
  handleBulkSelect diffs f u rs res
  = fold_left (fun res row => fold_left (pick row) (getOrderedRatioTypes (ratioTypes row) f) res) rs res.
Proof. done. Qed.

Lemma offered_value types rt : offered types u rt = true ->
  exists v, upstreamValue types rt u = Some v /\ isSelectableUpstreamValue (Some v) = true /\
    getPreferredSyncField types rt u = rt.
Proof.
  unfold offered. intros H. bool_hyps. destruct (selectable_some _ H0) as (v & E & _). rewrite E in H0 |- *. by exists v.
Qed.

Lemma pick_get row res rt model :
  map_get diffs (r_model row) = Some (ratioTypes row) -> offered (ratioTypes row) u rt = true ->
  map_get (pick row res rt) model =
  if decide (r_model row = model)
  then Some (selectField (Some (ratioTypes row)) rt (upstreamValue (ratioTypes row) rt u ?? JNull) u
               (map_get res (r_model row) ?? []))
  else map_get res model.
Proof.
  intros Hg Ho. unfold pick. rewrite Ho. apply offered_value in Ho as (v & -> & _ & Hp).
  unfold handleSelectValue. rewrite map_get_set, Hg. assert (truthy u = true) as -> by (by destruct u).
  by rewrite Hp, bool_decide_eq_true_2.
Qed.

Lemma pick_none row res rt : offered (ratioTypes row) u rt = false -> pick row res rt = res.
Proof. unfold pick. by intros ->. Qed.

(** Choosing a field keeps the others, unless they conflict. *)
Lemma pick_keeps row res rt k :
  map_get diffs (r_model row) = Some (ratioTypes row) -> offered (ratioTypes row) u rt = true ->
  offered (ratioTypes row) u k = true -> conflicting rt k = false ->
  k = rt \/ chosen u row res k -> chosen u row (pick row res rt) k.
Proof.
  intros Hg Hrt Hk Hc Hor. unfold chosen in *. rewrite pick_get, decide_True by done. cbv iota.
  destruct (offered_value _ _ Hrt) as (v & Hv & Hs & _). rewrite Hv. cbv iota.
  rewrite selectField_get by done. destruct (decide (k = rt)) as [->|Hne]; [done|].
  destruct (offered_value _ _ Hk) as (w & Hw & Hsw & _). rewrite Hw, Hsw, Hc.
  destruct (_ && _); [done|]. destruct Hor as [->|Hor]; [done|]. etrans; [exact Hor|exact Hw].
Qed.

(** No row offers both a fixed price and a ratio. *)
Definition unmixed (row : ModelRow) : Prop :=
  model_price ∈ offeredFields f u row -> forall rt, rt ∈ RATIO_SYNC_FIELDS -> rt ∉ offeredFields f u row.

Lemma unmixed_conflict row rt k :
  unmixed row -> rt ∈ offeredFields f u row -> k ∈ offeredFields f u row -> conflicting rt k = false.
Proof.
  intros Hm Hrt Hk. destruct (conflicting rt k) eqn:E; [exfalso|done]. unfold conflicting in E. bool_hyps.
  assert (forall x, x ∈ RATIO_SYNC_FIELDS -> model_price ∈ offeredFields f u row -> x ∈ offeredFields f u row -> False)
    as Hbad by (intros x Hx Hp; by apply Hm).
  destruct rt, k; try done; first [eapply Hbad; [|exact Hrt|exact Hk]; set_solver|eapply Hbad; [|exact Hk|exact Hrt]; set_solver].
Qed.

Lemma row_chosen row res l :
  map_get diffs (r_model row) = Some (ratioTypes row) -> unmixed row ->
  (forall rt, rt ∈ l -> rt ∈ getOrderedRatioTypes (ratioTypes row) f) ->
  forall k, k ∈ l -> offered (ratioTypes row) u k = true -> chosen u row (fold_left (pick row) l res) k.
Proof.
  intros Hg Hm. induction l as [|rt l IH] using rev_ind; [set_solver|]. intros Hl k Hk Ho. rewrite fold_left_app.
  cbn [fold_left].
  assert (forall k, k ∈ l ++ [rt] -> offered (ratioTypes row) u k = true -> k ∈ offeredFields f u row) as Hoff.
  { intros k' Hin Ho'. unfold offeredFields. apply list_elem_of_In, List.filter_In. split; [|done].
    apply list_elem_of_In. by apply Hl. }
  assert (k = rt \/ chosen u row (fold_left (pick row) l res) k) as Hor.
  { apply elem_of_app in Hk as [Hk|Hk%list_elem_of_singleton]; [right|by left].
    apply IH; [|done|done]. intros rt' Hin. apply Hl. set_solver. }
  destruct (offered (ratioTypes row) u rt) eqn:Hrt; [|rewrite pick_none by done; destruct Hor; [congruence|done]].
  apply pick_keeps; [done|done|done| |done]. apply (unmixed_conflict row); [done|apply Hoff|apply Hoff]; set_solver.
Qed.

Lemma row_others row res l model :
  map_get diffs (r_model row) = Some (ratioTypes row) -> model <> r_model row ->
  map_get (fold_left (pick row) l res) model = map_get res model.
Proof.
  intros Hg Hne. induction l as [|rt l IH] using rev_ind; [done|]. rewrite fold_left_app. cbn [fold_left].
  destruct (offered (ratioTypes row) u rt) eqn:Hrt; [|by rewrite pick_none].
  rewrite pick_get by done. by rewrite decide_False.
Qed.

Lemma column_chosen rs res :
  NoDup (map r_model rs) -> Forall (fun row => map_get diffs (r_model row) = Some (ratioTypes row) /\ unmixed row) rs ->
  forall row k, row ∈ rs -> k ∈ offeredFields f u row -> chosen u row (handleBulkSelect diffs f u rs res) k.
Proof.
  rewrite bulk_pick. induction rs as [|r0 rs IH] using rev_ind; [set_solver|].
  rewrite map_app, NoDup_app, Forall_app. intros (Hn & Hd & _) [Hrs Hr0] row k Hin Hk. rewrite fold_left_app.
  cbn [fold_left]. inversion_clear Hr0 as [|? ? [Hg Hm] _].
  destruct (filter_elem _ _ _ Hk) as [Hk1 Hk2].
  apply elem_of_app in Hin as [Hin|Hin]; [|apply list_elem_of_singleton in Hin as ->].
  - assert (r_model row <> r_model r0) as Hne.
    { intros E. apply (Hd (r_model row)); [apply list_elem_of_fmap; by exists row|]. rewrite E. by left. }
    unfold chosen. rewrite row_others by done. by apply IH.
  - by apply row_chosen.
Qed.
End Column.

Lemma rows_nodup lower diffs search f : NoDup (map_keys diffs) -> NoDup (map r_model (filteredData lower diffs search f)).
Proof.
  intros Hn. assert (NoDup (map r_model (dataSource diffs))) as Hd.
  { unfold dataSource. rewrite map_map.
    assert (map (fun x : jsstr * ModelDiffs => r_model (let '(model, types) := x in
      mkRow model types (has types model_price && existsb (has types) RATIO_SYNC_FIELDS))) (Object_entries diffs)
      = (Object_entries diffs).*1) as -> by (apply map_ext; by intros []).
    by rewrite js_sort_values_perm. }
  assert (forall g l, NoDup (map r_model l) -> NoDup (map r_model (List.filter g l))) as Hf.
  { intros g l H. eapply sublist_NoDup; [exact H|]. clear H. induction l as [|x l IH]; [constructor|]. cbn [List.filter].
    destruct (g x); by constructor. }
  unfold filteredData. destruct (truthy f && _), (truthy (trim search)); auto.
Qed.

Section Header.
Variables (t lower : jsstr -> jsstr).

(** checking the header of a column selects every value the column offers,
    and the header shows it, unless a row offers both a fixed price and a ratio
    from this upstream, which cannot be chosen together. *)
Theorem header_selects_its_column texts es s u :
  run t lower (initState texts) es s -> Forall event_ok es ->
  (0 < selectableCount (ratioTypeFilter s) u (rows lower s))%nat ->
  Forall (unmixed u (ratioTypeFilter s)) (rows lower s) ->
  allSelected (handleBulkSelect (differences s) (ratioTypeFilter s) u (rows lower s) (resolutions s))
    (ratioTypeFilter s) u (rows lower s) = true.
Proof.
  intros Hrun Hes Hpos Hm. pose proof (reached t lower texts es s Hrun Hes) as [[Hdn Hdt] _ _].
  assert (forall row, row ∈ rows lower s -> map_get (differences s) (r_model row) = Some (ratioTypes row)) as Hg
    by (intros row; by apply rows_get).
  assert (forall row k, row ∈ rows lower s -> k ∈ offeredFields (ratioTypeFilter s) u row ->
    exists v, upstreamValue (ratioTypes row) k u = Some v /\ u <> [] /\ value_ok v) as Hval.
  { intros row k Hrow [_ Hk]%filter_elem. apply offered_value in Hk as (v & Hv & _). exists v. split; [done|].
    by apply (Hdt _ _ (Hg row Hrow) k u v). }
  unfold allSelected. apply andb_true_iff. split; [by apply Nat.ltb_lt|]. apply Nat.eqb_eq.
  unfold selectedCount, selectableCount. f_equal. f_equal. apply map_ext_in. intros row Hrow%list_elem_of_In.
  apply filter_all_true. intros k Hk. destruct (Hval row k Hrow Hk) as (v & Hv & Hu & Hok).
  pose proof (column_chosen (differences s) u (ratioTypeFilter s) Hu (rows lower s) (resolutions s)
    (rows_nodup _ _ _ _ Hdn)) as Hc.
  unfold chosen in Hc. specialize (Hc ltac:(apply Forall_forall; intros r Hr; split; [by apply Hg|by apply (proj1 (Forall_forall _ _) Hm)]) row k Hrow Hk).
  rewrite Hv in Hc |- *. unfold isSelected. destruct (map_get (handleBulkSelect _ _ _ _ _) (r_model row)) as [r|]; [|done].
  cbn [mbind option_bind]. rewrite Hc. by apply strict_eq_refl.
Qed.
End Header.

(** ** After the sync *)

Definition diffOf (diffs : DifferencesMap) (model : jsstr) (rt : RatioType) : option RatioDifference :=
  map_get diffs model ≫= fun types => map_get types rt.

Lemma drop_field diffs model rt m k :
  diffOf (dropField model diffs rt) m k
  = if decide (m = model /\ k = rt) then None else diffOf diffs m k.
Proof.
  unfold diffOf, dropField. destruct (map_get diffs model) as [types|] eqn:E.
  2:{ case_decide as H; [|done]. destruct H as [-> ->]. by rewrite E. }
  destruct (has types rt) eqn:Eh.
  2:{ case_decide as H; [|done]. destruct H as [-> ->]. rewrite E. cbn. by apply has_false. }
  cbv zeta. pose proof (map_get_delete types rt) as Hd. destruct (_ =? _)%nat eqn:El.
  - rewrite map_get_delete. destruct (decide (model = m)) as [<-|Hne].
    + rewrite E. cbn. apply Nat.eqb_eq in El. specialize (Hd k).
      destruct (map_delete types rt); [|done]. cbn in Hd. rewrite Hd. repeat case_decide; naive_solver.
    + by rewrite decide_False by naive_solver.
  - rewrite map_get_set. destruct (decide (model = m)) as [<-|Hne]; [|by rewrite decide_False by naive_solver].
    rewrite E. cbn. rewrite Hd. repeat case_decide; naive_solver.
Qed.

Lemma drop_fields rts diffs model m k :
  diffOf (fold_left (dropField model) rts diffs) m k = if decide (m = model /\ k ∈ rts) then None else diffOf diffs m k.
Proof.
  revert diffs. induction rts as [|rt rts IH]; intros diffs; cbn [fold_left].
  - by rewrite decide_False by set_solver.
  - rewrite IH, drop_field. repeat case_decide; set_solver.
Qed.

(** a successful sync clears the selection and removes from the table
    exactly the fields that were chosen. *)
Theorem synced_fields_are_gone s model rt :
  NoDup (map_keys (resolutions s)) ->
  resolutions (onSynced s) = [] /\
  diffOf (differences (onSynced s)) model rt =
    if has (map_get (resolutions s) model ?? []) rt then None else diffOf (differences s) model rt.
Proof.
  intros Hn. split; [done|]. cbn [onSynced settle differences]. unfold dropSynced.
  rewrite <- (entries_get _ model Hn).
  assert (NoDup (map_keys (Object_entries (resolutions s)))) as Hn' by (unfold map_keys; by rewrite js_sort_values_perm).
  revert Hn'. generalize (differences s). generalize (Object_entries (resolutions s)). clear Hn.
  induction l as [|[m r] l IH]; intros diffs Hn; [done|]. apply NoDup_cons in Hn as [Hm Hn]. cbn [fold_left map_get].
  rewrite IH, drop_fields by done. cbn [fst] in Hm. destruct (decide (m = model)) as [->|Hne].
  - assert (map_get l model = None) as -> by (by apply map_get_None). unfold has.
    rewrite bool_decide_eq_false_2 by set_solver. cbv iota.
    repeat case_decide; repeat case_bool_decide; tauto.
  - by rewrite (decide_False (P := _ /\ _)) by naive_solver.
Qed.

(** ** The dialog of channels *)

#[export] Instance compareChannels_comparator : Comparator compareChannels.
Proof.
  unfold compareChannels. split; intros; repeat destruct (isOfficialChannel _); cbn in *; lia.
Qed.

(** The presets come first, and the others keep their order. *)
Lemma presets_first lower channels search :
  StronglySorted (fun a b => isOfficialChannel b = true -> isOfficialChannel a = true) (sortedChannels lower channels search).
Proof.
  unfold sortedChannels. set (l := if truthy (trim search) then _ else _). clearbody l.
  pose proof (js_sort_sorted compareChannels l) as H. induction H as [|x xs _ IH Hx]; constructor; [done|].
  eapply Forall_impl; [exact Hx|]. unfold compareChannels. intros y Hy Ho. rewrite Ho in Hy.
  by destruct (isOfficialChannel x).
Qed.

(** Choosing a custom endpoint shows the default one, and no field to type it
    in: the dialog reads the empty endpoint that the choice writes as none. *)
Lemma custom_endpoint_is_ignored endpoints id :
  endpointOf (handleTypeChange endpoints id (js "custom")) id = DEFAULT_ENDPOINT /\
  getEndpointType (endpointOf (handleTypeChange endpoints id (js "custom")) id) = js "/api/pricing".
Proof.
  assert (endpointOf (handleTypeChange endpoints id (js "custom")) id = DEFAULT_ENDPOINT) as ->; [|by vm_compute].
  unfold handleTypeChange. rewrite bool_decide_eq_true_2 by done. unfold endpointOf, updateEndpoint.
  by rewrite map_get_set_eq.
Qed.

(** ** A run *)

Definition sampleTexts : Texts :=
  [ (js "ModelPrice", jq "{'img': 1}"); (js "ModelRatio", jq "{'img': 2, 'gpt': 1}") ].

Definition sampleNum (z : Z) : json := JNum (mkNum z 0).

Definition sampleDiffs : DifferencesMap :=
  [ (js "gpt", [(model_ratio, mkDiff (sampleNum 1) [(js "A", sampleNum 3)] []);
                (cache_ratio, mkDiff JNull [(js "A", JStr (js "0.5")); (js "B", JStr (js "same"))] [])]);
    (js "img", [(model_price, mkDiff (sampleNum 1) [(js "A", sampleNum 5)] [])]);
    (js "o1", [(billing_expr, mkDiff JNull [(js "B", JStr (js "p * 2"))] [])]) ].

Definition sample1 : SyncState := onChannels (handleOpenChannelDialog (initState sampleTexts)) [mkChannel 7 (js "A") (js "http://a") None].
Definition sample2 : SyncState := onFetched (handleConfirmChannelSelection sample1 [7]) sampleDiffs.
Definition sample3 : SyncState :=
  setResolutions sample2 (handleBulkSelect sampleDiffs [] (js "A") (rows id sample2) []).

Lemma sampleDiffs_ok : diffs_ok sampleDiffs.
Proof.
  split; [by apply (bool_decide_unpack _); vm_compute|]. intros model types H%map_get_Some_elem.
  intros rt u v Hv. unfold upstreamValue in Hv. destruct (map_get types rt) as [d|] eqn:E; [|done].
  apply map_get_Some_elem in E. cbn [mbind option_bind] in Hv. apply map_get_Some_elem in Hv.
  repeat match goal with
  | H : _ ∈ [] |- _ => by apply elem_of_nil in H
  | H : _ ∈ _ :: _ |- _ => apply elem_of_cons in H as [[= -> ->]|H]; cbn [upstreams] in *
  | H : _ ∈ sampleDiffs |- _ => unfold sampleDiffs in H
  end; done.
Qed.

Lemma sample_events_ok (b : list event) : Forall event_ok b ->
  Forall event_ok ([EOpenDialog; EChannels [mkChannel 7 (js "A") (js "http://a") None]; EConfirmChannels [7]; EFetched sampleDiffs] ++ b).
Proof. intros H. do 3 (apply Forall_cons; split; [done|]). apply Forall_cons. split; [apply sampleDiffs_ok|done]. Qed.

Lemma sample_run2 : run id id (initState sampleTexts)
  [EOpenDialog; EChannels [mkChannel 7 (js "A") (js "http://a") None]; EConfirmChannels [7]; EFetched sampleDiffs] sample2.
Proof.
  eapply run_cons; [by constructor|]. eapply run_cons; [by constructor|]. eapply run_cons; [by constructor|].
  eapply run_cons; [constructor; by eexists|]. constructor.
Qed.

Lemma sample_run3 : run id id (initState sampleTexts)
  ([EOpenDialog; EChannels [mkChannel 7 (js "A") (js "http://a") None]; EConfirmChannels [7]; EFetched sampleDiffs]
   ++ [EBulk (js "A") true]) sample3.
Proof.
  eapply run_cons; [by constructor|]. eapply run_cons; [by constructor|]. eapply run_cons; [by constructor|].
  eapply run_cons; [constructor; by eexists|]. cbn [app]. eapply run_cons; [|constructor].
  constructor; [done|by apply (bool_decide_unpack _); vm_compute|apply Nat.ltb_lt; by vm_compute].
Qed.

Lemma selection_is_sound_witness :
  exists r, map_get (resolutions sample3) (js "gpt") = Some r /\ r <> [] /\
    selection_ok (map_get (differences sample3) (js "gpt") ?? []) r.
Proof.
  eexists. split; [reflexivity|].
  apply (selection_is_sound id id sampleTexts _ sample3 (js "gpt") _ sample_run3); [|reflexivity].
  apply sample_events_ok. by repeat constructor.
Defined.

Lemma sync_follows_the_selection_witness :
  map_keys (finalRatios (parsedRatios sampleTexts) (resolutions sample3)) = OPTION_KEYS.
Proof.
  refine (proj1 (proj2 (sync_follows_the_selection id id sampleTexts _ sample3 sample_run3 _ false))).
  apply sample_events_ok. by repeat constructor.
Defined.

Lemma synced_models_are_exclusive_witness :
  entryOf (finalRatios (parsedRatios sampleTexts) (resolutions sample3)) model_price (js "img") = None \/
  entryOf (finalRatios (parsedRatios sampleTexts) (resolutions sample3)) model_ratio (js "img") = None.
Proof.
  eapply (synced_models_are_exclusive id id sampleTexts _ sample3 sample_run3); [|reflexivity|done|by left].
  apply sample_events_ok. by repeat constructor.
Defined.

Lemma unconfirmed_sync_only_cleans_witness :
  is_Some (localEntry (parsedRatios sampleTexts) model_price (js "img")).
Proof.
  refine (proj1 (proj2 (unconfirmed_sync_only_cleans id id sampleTexts _ sample3 sample_run3 _
    (performSync sample3 false) model_ratio (js "img") _ _ _ _ _))); try (by vm_compute); try (by eexists).
  apply sample_events_ok. by repeat constructor.
Defined.

Lemma header_selects_its_column_witness :
  allSelected (handleBulkSelect sampleDiffs [] (js "A") (rows id sample2) []) [] (js "A") (rows id sample2) = true.
Proof.
  apply (header_selects_its_column id id sampleTexts _ sample2 (js "A") sample_run2).
  - apply (sample_events_ok []). constructor.
  - apply Nat.ltb_lt. by vm_compute.
  - repeat constructor; intros Hin; try (exfalso; revert Hin; apply (bool_decide_unpack _); by vm_compute).
    apply Forall_forall. by apply (bool_decide_unpack _); vm_compute.
Defined.

Lemma synced_fields_are_gone_witness :
  resolutions (onSynced sample3) = [] /\ diffOf (differences (onSynced sample3)) (js "img") model_price = None.
Proof.
  apply (synced_fields_are_gone sample3 (js "img") model_price). by apply (bool_decide_unpack _); vm_compute.
Defined.

End PriceSyncProperties.
