(* ===== verification/BillingExpr.v ===== *)
(** * Request rules of billing expressions

    Model of the request-rule part of [features/pricing/lib/billing-expr.ts]:
    the conditions on headers, parameters and the time of day that multiply a
    price, the expression text the editor builds from them, the parser that
    reads the text back, and how a price expression and its rules are combined
    and split.

    Each regular expression of the source is anchored at both ends and reads
    its input in one way; it is written as the sequence of its literals and
    character runs, a run being as long as possible because what follows it
    cannot start with a character of the run.  The outer option of a parser is
    an exception of [JSON.parse], the inner one [null]. *)

From S2P Require Import Prelude JsString Json JsonText.
#[local] Open Scope Z_scope.

Module BillingExpr.
Import Json JsonText.

(** ** Constants and types *)

Definition SOURCE_PARAM : jsstr := js "param".
Definition SOURCE_HEADER : jsstr := js "header".
Definition SOURCE_TIME : jsstr := js "time".

Definition MATCH_EQ : jsstr := js "eq".
Definition MATCH_CONTAINS : jsstr := js "contains".
Definition MATCH_GT : jsstr := js "gt".
Definition MATCH_GTE : jsstr := js "gte".
Definition MATCH_LT : jsstr := js "lt".
Definition MATCH_LTE : jsstr := js "lte".
Definition MATCH_EXISTS : jsstr := js "exists".
Definition MATCH_RANGE : jsstr := js "range".

Inductive TimeFunc := FHour | FMinute | FWeekday | FMonth | FDay.

Definition TIME_FUNCS : list TimeFunc := [FHour; FMinute; FWeekday; FMonth; FDay].

Definition time_func_text (f : TimeFunc) : jsstr :=
  match f with
  | FHour => js "hour" | FMinute => js "minute" | FWeekday => js "weekday" | FMonth => js "month"
  | FDay => js "day"
  end.

Inductive PHSource := SParam | SHeader.

Definition ph_source_text (s : PHSource) : jsstr :=
  match s with SParam => SOURCE_PARAM | SHeader => SOURCE_HEADER end.

Record ParamHeaderCondition := mkPH {
  ph_source : PHSource; ph_path : jsstr; ph_mode : jsstr; ph_value : jsstr }.

Record TimeCondition := mkTime {
  timeFunc : TimeFunc; timezone : jsstr; t_mode : jsstr; t_value : jsstr; rangeStart : jsstr;
  rangeEnd : jsstr }.

Inductive RequestCondition := CTime (t : TimeCondition) | CParamHeader (c : ParamHeaderCondition).

Record RequestRuleGroup := mkGroup { conditions : list RequestCondition; multiplier : jsstr }.

(** ** Matching text *)

(** The text after a literal. *)
Definition lit (p s : jsstr) : option jsstr := if startsWith s p then Some (drop (length p) s) else None.

(** The longest prefix of characters of a class. *)
Fixpoint span (P : Z -> bool) (s : jsstr) : jsstr * jsstr :=
  match s with
  | [] => ([], [])
  | c :: s' => if P c then let r := span P s' in (c :: r.1, r.2) else ([], s)
  end.

(** A class repeated at least once. *)
Definition run1 (P : Z -> bool) (s : jsstr) : option (jsstr * jsstr) :=
  let r := span P s in if truthy r.1 then Some r else None.

(** Digits, point, exponent and signs. *)
Definition num_char (c : Z) : bool := is_digit c || bool_decide (c ∈ [46; 101; 69; 43; 45]).

Definition not_quote (c : Z) : bool := negb (c =? 34).

(** What the dot does not match. *)
Definition line_terminator (c : Z) : bool := bool_decide (c ∈ [10; 13; 8232; 8233]).

(** A call of [name] on a quoted text without quotes, and the rest. *)
Definition quoted_call (name s : jsstr) : option (jsstr * jsstr) :=
  s ← lit (name ++ jq "('") s;
  r ← run1 not_quote s;
  s ← lit (jq "')") r.2;
  Some (r.1, s).

(** An optional sign or point. *)
Definition skip_opt (P : Z -> bool) (s : jsstr) : jsstr :=
  match s with c :: s' => if P c then s' else s | [] => [] end.

(** An optional exponent at the end. *)
Definition exponent_end (s : jsstr) : bool :=
  match s with
  | [] => true
  | c :: s' =>
      ((c =? 101) || (c =? 69)) && all_digits (skip_opt (fun c => (c =? 43) || (c =? 45)) s')
  end.

(** [NUMERIC_LITERAL_REGEX] *)
Definition NUMERIC_LITERAL_REGEX (s : jsstr) : bool :=
  let s := skip_opt (Z.eqb 45) s in
  let r := span is_digit s in
  if truthy r.1 then exponent_end (span is_digit (skip_opt (Z.eqb 46) r.2)).2
  else match s with
       | c :: s' => (c =? 46) && (let r := span is_digit s' in truthy r.1 && exponent_end r.2)
       | [] => false
       end.

(** ** Versions *)

(** [stripExprVersion] *)
Definition stripExprVersion (exprStr : jsstr) : Z * jsstr :=
  match (s ← lit (js "v") exprStr; r ← run1 is_digit s; s ← lit (js ":") r.2; Some (parseDec r.1, s)) with
  | Some (v, body) => (v, body)
  | None => (1, exprStr)
  end.

(** ** Splitting at the top level *)

Definition depth_step (depth c : Z) : Z :=
  if c =? 40 then depth + 1 else if c =? 41 then depth - 1 else depth.

(** The loop of the two splitters: [skip] characters of a separator are left to
    pass over, [cur] is the text since the last one. *)
Fixpoint split_loop (sep s : jsstr) (skip : nat) (depth : Z) (cur : jsstr) : list jsstr :=
  match s with
  | [] => [trim cur]
  | c :: s' =>
      match skip with
      | S k => split_loop sep s' k depth cur
      | O =>
          let depth := depth_step depth c in
          if (depth =? 0) && startsWith s sep
          then trim cur :: split_loop sep s' (length sep - 1) depth []
          else split_loop sep s' 0 depth (cur ++ [c])
      end
  end.

Definition splitTopLevelMultiply (expr : jsstr) : list jsstr :=
  filter_truthy (split_loop (js " * ") expr 0 0 []).

Definition splitTopLevelAnd (expr : jsstr) : list jsstr :=
  filter_truthy (split_loop (js " && ") expr 0 0 []).

(** ** Parsing *)

(** [String(v)] of a parsed value; [null] in an array prints as nothing. *)
Fixpoint String_of_json (v : json) : jsstr :=
  match v with
  | JNull => js "null"
  | JBool b => if b then js "true" else js "false"
  | JNum n => num_text n
  | JStr s => s
  | JArr l => join (js ",") (map (fun v => match v with JNull => [] | _ => String_of_json v end) l)
  | JObj _ => js "[object Object]"
  end.

Definition parseExprLiteral (raw : jsstr) : option json :=
  let text := trim raw in
  if bool_decide (text = js "true") || bool_decide (text = js "false") then Some (JStr text)
  else if NUMERIC_LITERAL_REGEX text then Some (JStr text)
  else match JSON_parse text with Some JNull | None => None | Some v => Some v end.

(** A call of a time function on a quoted zone, and the rest. *)
Definition time_call (s : jsstr) : option (TimeFunc * jsstr * jsstr) :=
  f ← List.find (fun f => startsWith s (time_func_text f ++ jq "('")) TIME_FUNCS;
  r ← quoted_call (time_func_text f) s;
  Some (f, r.1, r.2).

(** [f(tz) >= a || f(tz) < b] and the rest of the text. *)
Definition time_range (s : jsstr) : option (TimeCondition * jsstr) :=
  '(f, tz, s) ← time_call s;
  s ← lit (js " >= ") s;
  a ← run1 num_char s;
  s ← lit (js " || " ++ time_func_text f ++ jq "('" ++ tz ++ jq "') < ") a.2;
  b ← run1 num_char s;
  Some (mkTime f tz MATCH_RANGE [] a.1 b.1, b.2).

(** [(==|>=|<)], with the modes they stand for. *)
Definition time_op (s : jsstr) : option (jsstr * jsstr) :=
  match lit (js " == ") s, lit (js " >= ") s, lit (js " < ") s with
  | Some s, _, _ => Some (MATCH_EQ, s)
  | _, Some s, _ => Some (MATCH_GTE, s)
  | _, _, Some s => Some (MATCH_LT, s)
  | _, _, _ => None
  end.

Definition time_compare (s : jsstr) : option TimeCondition :=
  '(f, tz, s) ← time_call s;
  o ← time_op s;
  v ← run1 num_char o.2;
  if truthy v.2 then None else Some (mkTime f tz o.1 v.1 [] []).

Definition tryParseTimeCondition (expr : jsstr) : option TimeCondition :=
  match time_range expr with
  | Some (t, []) => Some t
  | _ =>
      match lit (js "(") expr ≫= time_range with
      | Some (t, [41]) => Some t
      | _ => time_compare expr
      end
  end.

(** A string literal with escapes, after its first quote, and the rest. *)
Fixpoint string_body (s : jsstr) : option (jsstr * jsstr) :=
  match s with
  | [] => None
  | c :: s' =>
      if c =? 34 then Some ([34], s')
      else if c =? 92 then
        match s' with
        | [] => None
        | d :: s'' => if line_terminator d then None else prod_map (app [c; d]) id <$> string_body s''
        end
      else prod_map (cons c) id <$> string_body s'
  end.

(** A string literal, then the closing parenthesis at the end. *)
Definition string_argument (s : jsstr) : option jsstr :=
  s ← lit [34] s;
  r ← string_body s;
  if bool_decide (r.2 = [41]) then Some (34 :: r.1) else None.

(** [(>|>=|<|<=)], with the modes they stand for. *)
Definition compare_op (s : jsstr) : option (jsstr * jsstr) :=
  match lit (js " > ") s, lit (js " >= ") s, lit (js " < ") s, lit (js " <= ") s with
  | Some s, _, _, _ => Some (MATCH_GT, s)
  | _, Some s, _, _ => Some (MATCH_GTE, s)
  | _, _, Some s, _ => Some (MATCH_LT, s)
  | _, _, _, Some s => Some (MATCH_LTE, s)
  | _, _, _, _ => None
  end.

Definition header_exists (s : jsstr) : option jsstr :=
  r ← quoted_call SOURCE_HEADER s; if bool_decide (r.2 = jq " != ''") then Some r.1 else None.

Definition param_exists (s : jsstr) : option jsstr :=
  r ← quoted_call SOURCE_PARAM s; if bool_decide (r.2 = js " != nil") then Some r.1 else None.

Definition header_contains (s : jsstr) : option (jsstr * jsstr) :=
  s ← lit (js "has(") s;
  r ← quoted_call SOURCE_HEADER s;
  s ← lit (js ", ") r.2;
  v ← string_argument s;
  Some (r.1, v).

(** With [m[1] === m[2]]. *)
Definition param_contains (s : jsstr) : option (jsstr * jsstr) :=
  p ← quoted_call SOURCE_PARAM s;
  s ← lit (js " != nil && has(") p.2;
  q ← quoted_call SOURCE_PARAM s;
  s ← lit (js ", ") q.2;
  v ← string_argument s;
  if bool_decide (p.1 = q.1) then Some (p.1, v) else None.

(** With [m[1] === m[2]]: path, mode and number. *)
Definition param_compare (s : jsstr) : option (jsstr * jsstr * jsstr) :=
  p ← quoted_call SOURCE_PARAM s;
  s ← lit (js " != nil && ") p.2;
  q ← quoted_call SOURCE_PARAM s;
  o ← compare_op q.2;
  v ← run1 num_char o.2;
  if negb (truthy v.2) && bool_decide (p.1 = q.1) then Some (p.1, o.1, v.1) else None.

(** A parameter or a header, [==] and a literal up to the end of the line. *)
Definition equals (s : jsstr) : option (PHSource * jsstr * jsstr) :=
  let go src :=
    r ← quoted_call (ph_source_text src) s;
    v ← lit (js " == ") r.2;
    if truthy v && forallb (fun c => negb (line_terminator c)) v then Some (src, r.1, v) else None in
  match go SParam with Some r => Some r | None => go SHeader end.

(** [JSON.parse(m) as string] *)
Definition parse_as_string (raw : jsstr) : option jsstr := String_of_json <$> JSON_parse raw.

Definition tryParseRequestCondition (expr : jsstr) : option (option RequestCondition) :=
  match tryParseTimeCondition expr with
  | Some t => Some (Some (CTime t))
  | None =>
  match header_exists expr with
  | Some p => Some (Some (CParamHeader (mkPH SHeader p MATCH_EXISTS [])))
  | None =>
  match param_exists expr with
  | Some p => Some (Some (CParamHeader (mkPH SParam p MATCH_EXISTS [])))
  | None =>
  match header_contains expr with
  | Some (p, raw) => (fun v => Some (CParamHeader (mkPH SHeader p MATCH_CONTAINS v))) <$> parse_as_string raw
  | None =>
  match param_contains expr with
  | Some (p, raw) => (fun v => Some (CParamHeader (mkPH SParam p MATCH_CONTAINS v))) <$> parse_as_string raw
  | None =>
  match param_compare expr with
  | Some (p, mode, v) => Some (Some (CParamHeader (mkPH SParam p mode v)))
  | None =>
  match equals expr with
  | Some (src, p, raw) =>
      Some ((fun v => CParamHeader (mkPH src p MATCH_EQ (String_of_json v))) <$> parseExprLiteral raw)
  | None => Some None
  end end end end end end end.

(** The loops that stop at the first [null]. *)
Fixpoint parse_all {A} (f : jsstr -> option (option A)) (parts : list jsstr) : option (option (list A)) :=
  match parts with
  | [] => Some (Some [])
  | p :: ps =>
      match f p with
      | None => None
      | Some None => Some None
      | Some (Some a) =>
          match parse_all f ps with
          | Some (Some l) => Some (Some (a :: l))
          | r => r
          end
      end
  end.

(** [(conditions ? number : 1)], read from its end. *)
Definition rule_factor (part : jsstr) : option (jsstr * jsstr) :=
  s ← lit (js "(") part;
  r ← lit (rev (js " : 1)")) (rev s);
  x ← run1 num_char r;
  r ← lit (rev (js " ? ")) x.2;
  if truthy r then Some (rev r, rev x.1) else None.

Definition tryParseRuleGroupFactor (part : jsstr) : option (option RequestRuleGroup) :=
  match rule_factor part with
  | None => Some None
  | Some (conditionStr, m) =>
      match parse_all (fun ap => tryParseRequestCondition (trim ap)) (splitTopLevelAnd conditionStr) with
      | None => None
      | Some None | Some (Some []) => Some None
      | Some (Some cs) => Some (Some (mkGroup cs m))
      end
  end.

Definition tryParseRequestRuleExpr (expr : jsstr) : option (option (list RequestRuleGroup)) :=
  let trimmed := trim expr in
  if negb (truthy trimmed) then Some (Some [])
  else parse_all tryParseRuleGroupFactor (splitTopLevelMultiply trimmed).

(** ** Combining and splitting *)

Fixpoint outer_loop (s : jsstr) (depth : Z) : bool :=
  match s with
  | [] => depth =? 0
  | c :: s' =>
      let depth := depth_step depth c in
      if (depth =? 0) && truthy s' then false else outer_loop s' depth
  end.

Definition hasFullOuterParens (expr : jsstr) : bool :=
  startsWith expr (js "(") && endsWith expr (js ")") && outer_loop expr 0.

(** The loop of [unwrapOuterParens]; each turn removes two characters. *)
Fixpoint unwrap_loop (fuel : nat) (current : jsstr) : jsstr :=
  match fuel with
  | O => current
  | S fuel' =>
      if hasFullOuterParens current then unwrap_loop fuel' (trim (slice current 1 (length current - 1)))
      else current
  end.

Definition unwrapOuterParens (expr : jsstr) : jsstr := unwrap_loop (length expr) (trim expr).

(** The loop of [splitBillingExprAndRequestRules]: rule parts and base parts. *)
Fixpoint sort_parts (parts : list jsstr) : option (list jsstr * list jsstr) :=
  match parts with
  | [] => Some ([], [])
  | p :: ps =>
      match tryParseRequestRuleExpr p, sort_parts ps with
      | Some (Some (_ :: _)), Some (rules, bases) => Some (p :: rules, bases)
      | Some _, Some (rules, bases) => Some (rules, p :: bases)
      | _, _ => None
      end
  end.

Record SplitExpr := mkSplit { billingExpr : jsstr; requestRuleExpr : jsstr }.

Definition splitBillingExprAndRequestRules (expr : jsstr) : option SplitExpr :=
  let trimmed := trim expr in
  if negb (truthy trimmed) then Some (mkSplit [] [])
  else
    let parts := splitTopLevelMultiply trimmed in
    if (length parts <=? 1)%nat then Some (mkSplit trimmed [])
    else
      match sort_parts parts with
      | None => None
      | Some (rules, bases) =>
          match rules, bases with
          | _ :: _, [base] => Some (mkSplit (unwrapOuterParens base) (join (js " * ") rules))
          | _, _ => Some (mkSplit trimmed [])
          end
      end.

Definition combineBillingExpr (baseExpr requestRuleExpr : jsstr) : jsstr :=
  let base := trim baseExpr in
  let rules := trim requestRuleExpr in
  if negb (truthy base) then []
  else if negb (truthy rules) then base
  else js "(" ++ base ++ js ") * " ++ rules.

(** ** The editor *)

Definition createEmptyCondition : ParamHeaderCondition := mkPH SParam [] MATCH_EQ [].
Definition createEmptyTimeCondition : TimeCondition := mkTime FHour (js "Asia/Shanghai") MATCH_GTE [] [] [].
Definition createEmptyRuleGroup : RequestRuleGroup := mkGroup [CParamHeader createEmptyCondition] [].
Definition createEmptyTimeRuleGroup : RequestRuleGroup := mkGroup [CTime createEmptyTimeCondition] [].

Record MatchOption := mkMatch { mo_value : jsstr; mo_labelKey : jsstr }.

Definition getRequestRuleMatchOptions (source : jsstr) : list MatchOption :=
  if bool_decide (source = SOURCE_TIME) then
    [mkMatch MATCH_EQ (js "Equals"); mkMatch MATCH_GTE (js "Greater than or equal");
     mkMatch MATCH_LT (js "Less than"); mkMatch MATCH_RANGE (js "Overnight range")]
  else
    let base := [mkMatch MATCH_EQ (js "Equals"); mkMatch MATCH_CONTAINS (js "Contains");
                 mkMatch MATCH_EXISTS (js "Exists")] in
    if bool_decide (source = SOURCE_HEADER) then base
    else base ++ [mkMatch MATCH_GT (js "Greater than"); mkMatch MATCH_GTE (js "Greater than or equal");
                  mkMatch MATCH_LT (js "Less than"); mkMatch MATCH_LTE (js "Less than or equal")].

(** [Partial<RequestCondition>] *)
Record PartialCondition := mkPartial {
  pc_source : option jsstr; pc_timeFunc : option jsstr; pc_timezone : option jsstr; pc_path : option jsstr;
  pc_mode : option jsstr; pc_value : option jsstr; pc_rangeStart : option jsstr; pc_rangeEnd : option jsstr }.

(** A whole condition as a partial one. *)
Definition partial_of (c : RequestCondition) : PartialCondition :=
  match c with
  | CTime t => mkPartial (Some SOURCE_TIME) (Some (time_func_text (timeFunc t))) (Some (timezone t)) None
      (Some (t_mode t)) (Some (t_value t)) (Some (rangeStart t)) (Some (rangeEnd t))
  | CParamHeader c => mkPartial (Some (ph_source_text (ph_source c))) None None (Some (ph_path c))
      (Some (ph_mode c)) (Some (ph_value c)) None None
  end.

(** [isTimeFunc], with the function the text names. *)
Definition isTimeFunc (value : option jsstr) : option TimeFunc :=
  v ← value; List.find (fun f => bool_decide (time_func_text f = v)) TIME_FUNCS.

(** A mode that the source offers, or the default. *)
Definition offered_mode (source : jsstr) (mode : option jsstr) (default : jsstr) : jsstr :=
  if existsb (fun item => bool_decide (Some (mo_value item) = mode)) (getRequestRuleMatchOptions source)
  then mode ?? default else default.

Definition normalizeCondition (cond : PartialCondition) : RequestCondition :=
  if bool_decide (pc_source cond = Some SOURCE_TIME) then
    CTime (mkTime (isTimeFunc (pc_timeFunc cond) ?? FHour)
      (match pc_timezone cond with Some z => if truthy z then z else js "Asia/Shanghai" | None => js "Asia/Shanghai" end)
      (offered_mode SOURCE_TIME (pc_mode cond) MATCH_GTE)
      (pc_value cond ?? []) (pc_rangeStart cond ?? []) (pc_rangeEnd cond ?? []))
  else
    let source := if bool_decide (pc_source cond = Some SOURCE_HEADER) then SHeader else SParam in
    CParamHeader (mkPH source (pc_path cond ?? [])
      (offered_mode (ph_source_text source) (pc_mode cond) MATCH_EQ) (pc_value cond ?? [])).

Definition buildExprLiteral (mode value : jsstr) : jsstr :=
  let text := trim value in
  if bool_decide (mode = MATCH_CONTAINS) then quote text
  else if bool_decide (text = js "true") || bool_decide (text = js "false") then text
  else if NUMERIC_LITERAL_REGEX text then text
  else quote text.

(** The operator of a time mode, [==] for the others. *)
Definition time_op_text (mode : jsstr) : jsstr :=
  if bool_decide (mode = MATCH_GTE) then js ">=" else if bool_decide (mode = MATCH_LT) then js "<" else js "==".

Definition buildTimeConditionExpr (cond : TimeCondition) : jsstr :=
  match normalizeCondition (partial_of (CTime cond)) with
  | CTime n =>
      let fn := time_func_text (timeFunc n) ++ js "(" ++ quote (timezone n) ++ js ")" in
      if bool_decide (t_mode n = MATCH_RANGE) then
        let s := trim (rangeStart n) in
        let e := trim (rangeEnd n) in
        if negb (NUMERIC_LITERAL_REGEX s) || negb (NUMERIC_LITERAL_REGEX e) then []
        else fn ++ js " >= " ++ s ++ js " || " ++ fn ++ js " < " ++ e
      else
        let v := trim (t_value n) in
        if negb (NUMERIC_LITERAL_REGEX v) then []
        else fn ++ js " " ++ time_op_text (t_mode n) ++ js " " ++ v
  | CParamHeader _ => []
  end.

(** The operator of a comparison mode. *)
Definition compare_op_text (mode : jsstr) : option jsstr :=
  if bool_decide (mode = MATCH_GT) then Some (js ">") else if bool_decide (mode = MATCH_GTE) then Some (js ">=")
  else if bool_decide (mode = MATCH_LT) then Some (js "<") else if bool_decide (mode = MATCH_LTE) then Some (js "<=")
  else None.

Definition buildRequestConditionExpr (cond : RequestCondition) : jsstr :=
  match cond with
  | CTime t => buildTimeConditionExpr t
  | CParamHeader _ =>
      match normalizeCondition (partial_of cond) with
      | CParamHeader n =>
          let path := trim (ph_path n) in
          if negb (truthy path) then []
          else
            let sourceExpr := ph_source_text (ph_source n) ++ js "(" ++ quote path ++ js ")" in
            if bool_decide (ph_mode n = MATCH_EXISTS) then
              match ph_source n with
              | SHeader => sourceExpr ++ jq " != ''"
              | SParam => sourceExpr ++ js " != nil"
              end
            else if bool_decide (ph_mode n = MATCH_CONTAINS) then
              let has := js "has(" ++ sourceExpr ++ js ", " ++ buildExprLiteral (ph_mode n) (ph_value n) ++ js ")" in
              match ph_source n with
              | SHeader => has
              | SParam => sourceExpr ++ js " != nil && " ++ has
              end
            else
              match compare_op_text (ph_mode n) with
              | Some op =>
                  let numText := trim (ph_value n) in
                  if negb (NUMERIC_LITERAL_REGEX numText) then []
                  else sourceExpr ++ js " != nil && " ++ sourceExpr ++ js " " ++ op ++ js " " ++ numText
              | None => sourceExpr ++ js " == " ++ buildExprLiteral (ph_mode n) (ph_value n)
              end
      | CTime _ => []
      end
  end.

Definition parenthesize (e : jsstr) : jsstr := if includes e (js " || ") then js "(" ++ e ++ js ")" else e.

Definition buildRuleGroupFactor (group : RequestRuleGroup) : jsstr :=
  let m := trim (multiplier group) in
  if negb (NUMERIC_LITERAL_REGEX m) then []
  else
    match filter_truthy (map buildRequestConditionExpr (conditions group)) with
    | [] => []
    | condExprs =>
        let combined :=
          match condExprs with
          | [e] => e
          | _ => join (js " && ") (map parenthesize condExprs)
          end in
        js "(" ++ combined ++ js " ? " ++ m ++ js " : 1)"
    end.

Definition buildRequestRuleExpr (groups : list RequestRuleGroup) : jsstr :=
  join (js " * ") (filter_truthy (map buildRuleGroupFactor groups)).

(** ** A sample *)

Definition sample_groups : list RequestRuleGroup :=
  [mkGroup [CParamHeader (mkPH SHeader (js "x-tier") MATCH_EQ (js "gold")); 
            CTime (mkTime FHour (js "UTC") MATCH_RANGE [] (js "22") (js "6"))] (js "0.5");
   mkGroup [CParamHeader (mkPH SParam (js "stream") MATCH_EXISTS [])] (js "1.2")].

Example build_sample :
  buildRequestRuleExpr sample_groups =
  jq "(header('x-tier') == 'gold' && (hour('UTC') >= 22 || hour('UTC') < 6) ? 0.5 : 1) * (param('stream') != nil ? 1.2 : 1)".
Proof. vm_compute. reflexivity. Qed.

Example parse_sample_groups :
  tryParseRequestRuleExpr (buildRequestRuleExpr sample_groups) = Some (Some sample_groups).
Proof. vm_compute. reflexivity. Qed.

Example param_compare_lost :
  tryParseRequestRuleExpr (buildRequestRuleExpr
    [mkGroup [CParamHeader (mkPH SParam (js "n") MATCH_GT (js "3"))] (js "2")]) = Some None.
Proof. vm_compute. reflexivity. Qed.

End BillingExpr.
