(* ===== verification/BillingExprFacts.v ===== *)
(** * Request rules are read back

    The parser of [BillingExpr.v] on the text that its builder writes. *)

From S2P Require Import Prelude JsString Json JsonText BillingExpr.
#[local] Open Scope Z_scope.

Module BillingExprFacts.
Import Json JsonText BillingExpr.

(** ** Matching *)

Lemma lit_app p s : lit p (p ++ s) = Some s.
Proof. unfold lit. by rewrite startsWith_app, drop_app_length. Qed.

Lemma bind_some {A B} (x : A) (f : A -> option B) : Some x ≫= f = f x.
Proof. done. Qed.

(** The class stops at the end or at another character. *)
Definition stops_at (P : Z -> bool) (s : jsstr) : Prop := match s with [] => True | c :: _ => P c = false end.

Lemma span_app P a s : Forall (fun c => P c = true) a -> stops_at P s -> span P (a ++ s) = (a, s).
Proof.
  intros Ha Hs. induction Ha as [|c a Hc _ IH]; cbn.
  - destruct s as [|c s]; [done|]. cbn in *. by rewrite Hs.
  - by rewrite Hc, IH.
Qed.

Lemma run1_app P a s : Forall (fun c => P c = true) a -> a <> [] -> stops_at P s -> run1 P (a ++ s) = Some (a, s).
Proof. intros Ha Hn Hs. unfold run1. rewrite span_app by done. by destruct a. Qed.

(** ** Texts without special characters *)

Definition plain_char (c : Z) : bool :=
  (32 <=? c) && (c <? 55296) && negb (bool_decide (c ∈ [34; 38; 40; 41; 92; 124; 8232; 8233])).

Definition plain (s : jsstr) : bool := forallb plain_char s.

Lemma plain_Forall s : plain s = true -> Forall (fun c => plain_char c = true) s.
Proof. unfold plain. rewrite forallb_forall, Forall_forall. intros H c Hc. by apply H, list_elem_of_In. Qed.

Lemma plain_char_spec c :
  plain_char c = true -> 32 <= c < 55296 /\ c ∉ [34; 38; 40; 41; 92; 124; 8232; 8233].
Proof. unfold plain_char. intros H. bool_hyps. done. Qed.

Lemma quote_plain s : plain s = true -> quote s = 34 :: s ++ [34].
Proof.
  intros Hp. apply plain_Forall in Hp. unfold quote. f_equal. f_equal.
  induction Hp as [|c s Hc _ IH]; [done|]. cbn [quote_chars].
  apply plain_char_spec in Hc as [Hr Hn].
  assert (is_lead c = false /\ is_trail c = false) as [Hl Ht].
  { unfold is_lead, is_trail. split; apply andb_false_iff; left; lia. }
  assert (quote_char c = [c]) as Hq.
  { unfold quote_char. rewrite !not_elem_of_cons in Hn.
    repeat match goal with |- context [if c =? ?k then _ else _] =>
      replace (c =? k) with false by lia end.
    by replace (c <? 32) with false by lia. }
  rewrite Hl, Ht, Hq. destruct s as [|d s]; [done|]. cbn [andb orb app]. by rewrite IH.
Qed.

Lemma plain_trim s : plain s = true -> plain (trim s) = true.
Proof.
  intros Hp. destruct (trim_infix s) as (l & r & Hs & _). revert Hs. generalize (trim s). intros u ->.
  unfold plain in *. rewrite !forallb_app, !andb_true_iff in Hp. tauto.
Qed.

Lemma plain_wf s : plain s = true -> wf_str s.
Proof.
  intros Hp. apply plain_Forall in Hp. eapply Forall_impl; [exact Hp|]. intros c Hc.
  apply plain_char_spec in Hc as [Hc _]. lia.
Qed.

(** A quoted plain text is read back. *)
Lemma quoted_call_app name p s :
  plain p = true -> p <> [] ->
  quoted_call name (name ++ js "(" ++ quote p ++ js ")" ++ s) = Some (p, s).
Proof.
  intros Hp Hn. rewrite quote_plain by done. unfold quoted_call.
  replace (name ++ js "(" ++ (34 :: p ++ [34]) ++ js ")" ++ s)
    with ((name ++ jq "('") ++ p ++ jq "')" ++ s).
  2:{ rewrite <- !app_assoc. cbn. by rewrite <- app_assoc. }
  rewrite lit_app, bind_some. rewrite run1_app; [| |done|done].
  - rewrite bind_some. cbn [fst snd]. by rewrite lit_app.
  - eapply Forall_impl; [by apply plain_Forall|]. intros c Hc. apply plain_char_spec in Hc as [_ Hc].
    unfold not_quote. rewrite not_elem_of_cons in Hc. destruct Hc as [Hc _].
    by replace (c =? 34) with false by lia.
Qed.

(** ** Numeric literals *)

Lemma span_eq P s : s = (span P s).1 ++ (span P s).2 /\ Forall (fun c => P c = true) (span P s).1.
Proof.
  induction s as [|c s [IH1 IH2]]; [done|]. cbn. destruct (P c) eqn:E; cbn; [|done].
  split; [by rewrite <- IH1|by constructor].
Qed.

Lemma digit_num c : is_digit c = true -> num_char c = true.
Proof. intros H. unfold num_char. by rewrite H. Qed.

Lemma digits_num s : Forall (fun c => is_digit c = true) s -> Forall (fun c => num_char c = true) s.
Proof. intros H. eapply Forall_impl; [exact H|]. intros c. apply digit_num. Qed.

(** A skipped character is one of the class. *)
Lemma skip_opt_num P s :
  (forall c, P c = true -> num_char c = true) ->
  Forall (fun c => num_char c = true) (skip_opt P s) -> Forall (fun c => num_char c = true) s.
Proof.
  intros HP H. destruct s as [|c s]; [done|]. cbn in H. destruct (P c) eqn:E; [|done].
  constructor; auto.
Qed.

Lemma exponent_num s : exponent_end s = true -> Forall (fun c => num_char c = true) s.
Proof.
  destruct s as [|c s]; [constructor|]. cbn. intros H. apply andb_true_iff in H as [Hc Hd]. constructor.
  - apply orb_true_iff in Hc as [Hc|Hc]; bool_hyps; subst c; reflexivity.
  - eapply (skip_opt_num (fun c => (c =? 43) || (c =? 45))).
    + intros d Hd'. apply orb_true_iff in Hd' as [Hd'|Hd']; bool_hyps; subst d; reflexivity.
    + apply all_digits_spec in Hd as [_ Hd]. by apply digits_num.
Qed.

Lemma numeric_chars s : NUMERIC_LITERAL_REGEX s = true -> s <> [] /\ Forall (fun c => num_char c = true) s.
Proof.
  intros H. split; [by intros ->|]. unfold NUMERIC_LITERAL_REGEX in H. cbv zeta in H.
  apply (skip_opt_num (Z.eqb 45)); [intros c Hc; bool_hyps; by subst c|].
  set (t := skip_opt (Z.eqb 45) s) in *. destruct (span_eq is_digit t) as [Ht Hd].
  destruct (truthy (span is_digit t).1).
  - rewrite Ht. apply Forall_app. split; [by apply digits_num|].
    apply (skip_opt_num (Z.eqb 46)); [intros c Hc; bool_hyps; by subst c|].
    set (u := skip_opt (Z.eqb 46) _) in *. destruct (span_eq is_digit u) as [Hu Hdu]. rewrite Hu.
    apply Forall_app. split; [by apply digits_num|by apply exponent_num].
  - clear Ht Hd. destruct t as [|c t]; [done|]. apply andb_true_iff in H as [Hc H]. bool_hyps. subst c.
    constructor; [done|]. destruct (span_eq is_digit t) as [Ht Hd]. rewrite Ht. apply Forall_app.
    split; [by apply digits_num|by apply exponent_num].
Qed.

Lemma num_char_spec c : num_char c = true -> c ∈ [46; 101; 69; 43; 45] \/ 48 <= c <= 57.
Proof. unfold num_char, is_digit. intros H. apply orb_true_iff in H as [H|H]; bool_hyps; [right; lia|by left]. Qed.

Lemma num_char_not_space c : num_char c = true -> is_space c = false.
Proof.
  intros [H|H]%num_char_spec.
  - repeat (apply elem_of_cons in H as [->|H]; [reflexivity|]). by apply not_elem_of_nil in H.
  - apply digit_not_space. unfold is_digit. apply andb_true_iff. split; lia.
Qed.

Lemma numeric_trim s : NUMERIC_LITERAL_REGEX s = true -> trim s = s.
Proof.
  intros [_ H]%numeric_chars. apply trim_no_space. eapply Forall_impl; [exact H|]. apply num_char_not_space.
Qed.

Lemma run1_numeric s rest :
  NUMERIC_LITERAL_REGEX s = true -> stops_at num_char rest -> run1 num_char (s ++ rest) = Some (s, rest).
Proof. intros [Hn H]%numeric_chars Hr. by apply run1_app. Qed.

(** ** Ends *)

Definition start_ok (s : jsstr) : Prop := match s with c :: _ => is_space c = false | [] => False end.
Definition end_ok (s : jsstr) : Prop := start_ok (rev s).

Lemma start_ok_app a b : start_ok a -> start_ok (a ++ b).
Proof. by destruct a. Qed.

Lemma end_ok_app a b : end_ok b -> end_ok (a ++ b).
Proof. unfold end_ok. rewrite rev_app_distr. apply start_ok_app. Qed.

Lemma trim_ends s : start_ok s -> end_ok s -> trim s = s.
Proof.
  assert (forall s, start_ok s -> trimStart s = s) as H.
  { intros [|c s0]; [done|]. cbn. by intros ->. }
  intros Hs He. unfold trim, trimEnd. rewrite (H s Hs), (H (rev s) He). apply rev_involutive.
Qed.

Lemma start_not_nil s : start_ok s -> s <> [].
Proof. by destruct s. Qed.

Lemma num_start s : s <> [] -> Forall (fun c => num_char c = true) s -> start_ok s.
Proof. destruct 2 as [|c s Hc _]; [done|]. by apply num_char_not_space. Qed.

Lemma numeric_ends s : NUMERIC_LITERAL_REGEX s = true -> start_ok s /\ end_ok s.
Proof.
  intros [Hn H]%numeric_chars. split; [by apply num_start|].
  apply num_start; [|by apply Forall_rev]. intros Hr. apply Hn. by rewrite <- (rev_involutive s), Hr.
Qed.

(** ** Depth *)

Definition depth_after (s : jsstr) (d : Z) : Z := fold_left depth_step s d.

(** The depth stays positive. *)
Fixpoint stays_inside (s : jsstr) (d : Z) : Prop :=
  match s with [] => True | c :: s' => 1 <= depth_step d c /\ stays_inside s' (depth_step d c) end.

Lemma depth_after_app a b d : depth_after (a ++ b) d = depth_after b (depth_after a d).
Proof. apply fold_left_app. Qed.

Lemma stays_inside_app a b d : stays_inside (a ++ b) d <-> stays_inside a d /\ stays_inside b (depth_after a d).
Proof.
  revert d. induction a as [|c a IH]; intros d; cbn; [tauto|]. rewrite IH. cbn. tauto.
Qed.

(** A text with balanced parentheses. *)
Definition level (s : jsstr) : Prop :=
  (forall d, depth_after s d = d) /\ (forall d, 1 <= d -> stays_inside s d).

Lemma level_app a b : level a -> level b -> level (a ++ b).
Proof.
  intros (A2 & A3) (B2 & B3). split.
  - intros d. rewrite depth_after_app. by rewrite A2.
  - intros d Hd. apply stays_inside_app. rewrite A2. auto.
Qed.

Lemma level_join sep ps : level sep -> Forall level ps -> level (join sep ps).
Proof.
  intros Hs H. induction H as [|p ps Hp Hps IH]; [by split|]. destruct ps as [|q ps]; [done|].
  change (join sep (p :: q :: ps)) with (p ++ sep ++ join sep (q :: ps)). by repeat apply level_app.
Qed.

(** A text with balanced parentheses and no conjunction. *)
Definition tame (s : jsstr) : Prop := 38 ∉ s /\ level s.

Definition calm (s : jsstr) : bool := forallb (fun c => negb (bool_decide (c ∈ [38; 40; 41]))) s.

Lemma tame_calm s : calm s = true -> tame s.
Proof.
  unfold calm, tame, level. induction s as [|c s IH]; cbn [forallb]; intros H.
  { split_and!; [apply not_elem_of_nil|done|done]. }
  apply andb_true_iff in H as [Hc Hs]. bool_hyps. rewrite !not_elem_of_cons in Hc.
  destruct Hc as (H1 & H2 & H3 & _). destruct (IH Hs) as (I1 & I2 & I3).
  assert (forall d, depth_step d c = d) as Hd.
  { intros d. unfold depth_step. replace (c =? 40) with false by lia. by replace (c =? 41) with false by lia. }
  split_and!.
  - rewrite not_elem_of_cons. split; [done|done].
  - intros d. cbn. rewrite Hd. apply I2.
  - intros d Hle. cbn. rewrite Hd. split; [done|by apply I3].
Qed.

Lemma tame_app a b : tame a -> tame b -> tame (a ++ b).
Proof.
  intros [A1 A2] [B1 B2]. split; [by rewrite not_elem_of_app|by apply level_app].
Qed.

Lemma tame_parens a : tame a -> tame (js "(" ++ a ++ js ")").
Proof.
  unfold tame, level. intros (A1 & A2 & A3). split_and!.
  - rewrite !not_elem_of_app. split_and!; [|done|]; by apply (bool_decide_eq_true_1 (_ ∉ _)).
  - intros d. rewrite !depth_after_app, A2. change (d + 1 - 1 = d). lia.
  - intros d Hd. rewrite !stays_inside_app. change (depth_after (js "(") d) with (d + 1). rewrite A2.
    split_and!; [|apply A3; lia|].
    + change (1 <= d + 1 /\ True). lia.
    + change (1 <= d + 1 - 1 /\ True). lia.
Qed.

Lemma calm_plain s : plain s = true -> calm (quote s) = true.
Proof.
  intros Hp. rewrite quote_plain by done. unfold calm. cbn [forallb]. rewrite forallb_app. cbn.
  rewrite andb_true_r. apply forallb_forall. intros c Hc. apply list_elem_of_In in Hc.
  apply plain_Forall in Hp. rewrite Forall_forall in Hp. apply Hp, plain_char_spec in Hc as [_ Hc].
  apply negb_true_iff, bool_decide_eq_false_2. rewrite !not_elem_of_cons in *. naive_solver.
Qed.

Lemma calm_numeric s : NUMERIC_LITERAL_REGEX s = true -> calm s = true.
Proof.
  intros [_ H]%numeric_chars. unfold calm. apply forallb_forall. intros c Hc. apply list_elem_of_In in Hc.
  rewrite Forall_forall in H. apply H, num_char_spec in Hc.
  apply negb_true_iff, bool_decide_eq_false_2. rewrite !not_elem_of_cons.
  rewrite !elem_of_cons, elem_of_nil in Hc. split_and!; [lia..|apply not_elem_of_nil].
Qed.

(** ** Splitting *)

(** The splitter passes over the text. *)
Definition passes (sep s : jsstr) : Prop :=
  forall rest cur, split_loop sep (s ++ rest) 0 0 cur = split_loop sep rest 0 0 (cur ++ s).

Lemma split_flat x sep s rest d cur :
  x ∉ s -> end_ok s ->
  split_loop (32 :: x :: sep) (s ++ rest) 0 d cur = split_loop (32 :: x :: sep) rest 0 (depth_after s d) (cur ++ s).
Proof.
  intros Hx He. assert (last s <> Some 32) as Hl.
  { intros Hl. apply last_snoc_inv in Hl as [s' ->]. unfold end_ok in He. rewrite rev_app_distr in He. done. }
  clear He. revert d cur. induction s as [|c s IH]; intros d cur; [by rewrite app_nil_r|].
  cbn [app split_loop]. apply not_elem_of_cons in Hx as [Hxc Hx].
  assert (startsWith (c :: s ++ rest) (32 :: x :: sep) = false) as Hw.
  { destruct (startsWith _ _) eqn:E; [|done]. apply startsWith_spec in E as [k Hk]. injection Hk as -> Hk.
    destruct s as [|y s]; [done|]. injection Hk as -> _. apply not_elem_of_cons in Hx as [Hy _]. done. }
  rewrite Hw, andb_false_r, IH; [|done|].
  - by rewrite <- app_assoc.
  - by destruct s.
Qed.

Lemma split_inside sep s rest d cur :
  stays_inside s d -> split_loop sep (s ++ rest) 0 d cur = split_loop sep rest 0 (depth_after s d) (cur ++ s).
Proof.
  revert d cur. induction s as [|c s IH]; intros d cur Hs; [by rewrite app_nil_r|].
  cbn [app split_loop]. destruct Hs as [Hd Hs]. replace (depth_step d c =? 0) with false by lia.
  cbn [andb]. rewrite IH by done. by rewrite <- app_assoc.
Qed.

Lemma passes_flat x sep s : x ∉ s -> end_ok s -> depth_after s 0 = 0 -> passes (32 :: x :: sep) s.
Proof. intros Hx He Hd rest cur. by rewrite split_flat, Hd. Qed.

Lemma passes_parens sep s :
  stays_inside s 1 -> depth_after s 1 = 1 -> passes (32 :: sep) (js "(" ++ s ++ js ")").
Proof.
  intros Hs Hd rest cur. change (js "(" ++ s ++ js ")") with (40 :: s ++ [41]).
  change ((40 :: s ++ [41]) ++ rest) with (40 :: (s ++ [41]) ++ rest). cbn [split_loop].
  change (depth_step 0 40) with 1. cbn [Z.eqb andb]. rewrite <- app_assoc, split_inside, Hd by done.
  cbn [app split_loop]. change (depth_step 1 41) with 0. cbn. by rewrite <- !app_assoc.
Qed.

(** Joining and splitting again. *)
Lemma split_joined sep0 sep ps p :
  let full := 32 :: sep0 :: sep in
  Forall (passes full) (p :: ps) -> Forall (fun q => trim q = q) (p :: ps) ->
  split_loop full (join full (p :: ps)) 0 0 [] = p :: ps.
Proof.
  cbv zeta. set (full := 32 :: sep0 :: sep). revert p. induction ps as [|q ps IH]; intros p Hp Ht.
  - apply Forall_cons in Hp as [Hp _]. apply Forall_cons in Ht as [Ht _]. cbn [join].
    rewrite <- (app_nil_r p) at 1. rewrite Hp. cbn [app split_loop]. by rewrite Ht.
  - apply Forall_cons in Hp as [Hp Hps]. apply Forall_cons in Ht as [Ht Hts].
    change (join full (p :: q :: ps)) with (p ++ full ++ join full (q :: ps)).
    rewrite Hp. cbn [app]. set (J := join full (q :: ps)).
    assert (forall k s cur, (k <= length s)%nat -> split_loop full s k 0 cur = split_loop full (drop k s) 0 0 cur) as Hskip.
    { induction k as [|k IHk]; intros s cur Hk; [by rewrite drop_0|]. destruct s as [|c s]; cbn in Hk; [lia|].
      cbn [split_loop drop]. apply IHk. lia. }
    unfold full at 2. cbn [app split_loop]. change (depth_step 0 32) with 0. cbn [Z.eqb andb].
    replace (startsWith (32 :: sep0 :: sep ++ J) full) with true by (symmetry; apply (startsWith_app full J)).
    rewrite Ht. f_equal. change (split_loop full (sep ++ J) (length sep) 0 [] = q :: ps).
    rewrite Hskip by (rewrite length_app; lia). rewrite drop_app_length. by apply IH.
Qed.

(** ** Conditions that are read back *)

Definition trimmed (s : jsstr) : bool := bool_decide (trim s = s).

Definition readable_ph (c : ParamHeaderCondition) : bool :=
  truthy (ph_path c) && plain (ph_path c) && trimmed (ph_path c) &&
  (bool_decide (ph_mode c = MATCH_EXISTS) && negb (truthy (ph_value c))
   || plain (ph_value c) && trimmed (ph_value c) &&
      (bool_decide (ph_mode c = MATCH_EQ)
       || bool_decide (ph_mode c = MATCH_CONTAINS) && match ph_source c with SHeader => true | SParam => false end)).

Definition readable_time (t : TimeCondition) : bool :=
  truthy (timezone t) && plain (timezone t) &&
  (bool_decide (t_mode t = MATCH_RANGE) && negb (truthy (t_value t)) && NUMERIC_LITERAL_REGEX (rangeStart t)
     && NUMERIC_LITERAL_REGEX (rangeEnd t)
   || bool_decide (t_mode t ∈ [MATCH_EQ; MATCH_GTE; MATCH_LT]) && NUMERIC_LITERAL_REGEX (t_value t)
      && negb (truthy (rangeStart t)) && negb (truthy (rangeEnd t))).

Definition readable (c : RequestCondition) : bool :=
  match c with CTime t => readable_time t | CParamHeader c => readable_ph c end.

Definition readable_group (g : RequestRuleGroup) : bool :=
  NUMERIC_LITERAL_REGEX (multiplier g) && negb (length (conditions g) =? 0)%nat && forallb readable (conditions g).

Lemma not_truthy_nil (s : jsstr) : truthy s = false -> s = [].
Proof. by destruct s. Qed.

(** A call on a quoted text. *)
Definition call (name p : jsstr) : jsstr := name ++ js "(" ++ quote p ++ js ")".

Lemma call_read name p s : plain p = true -> p <> [] -> quoted_call name (call name p ++ s) = Some (p, s).
Proof. intros. unfold call. rewrite <- !app_assoc. by apply quoted_call_app. Qed.

Lemma call_tame name p : calm name = true -> plain p = true -> tame (call name p).
Proof.
  intros Hn Hp. apply tame_app; [by apply tame_calm|]. apply tame_parens, tame_calm. by apply calm_plain.
Qed.

Lemma source_calm src : calm (ph_source_text src) = true.
Proof. by destruct src. Qed.

Lemma func_calm f : calm (time_func_text f) = true.
Proof. by destruct f. Qed.

(** *** Headers and parameters *)

(** No time function is called. *)
Lemma not_time src p s : tryParseTimeCondition (call (ph_source_text src) p ++ s) = None.
Proof. by destruct src. Qed.

(** A call of the other source is not read. *)
Lemma other_call p s :
  quoted_call SOURCE_HEADER (call SOURCE_PARAM p ++ s) = None /\
  quoted_call SOURCE_PARAM (call SOURCE_HEADER p ++ s) = None.
Proof. done. Qed.

Lemma read_exists src p :
  plain p = true -> p <> [] ->
  tryParseRequestCondition (call (ph_source_text src) p ++ match src with SHeader => jq " != ''" | SParam => js " != nil" end)
  = Some (Some (CParamHeader (mkPH src p MATCH_EXISTS []))).
Proof.
  intros Hp Hn. unfold tryParseRequestCondition. rewrite not_time. unfold header_exists, param_exists.
  destruct src; cbn [ph_source_text].
  - rewrite (proj1 (other_call _ _)). rewrite call_read by done. rewrite bind_some. cbn [fst snd].
    by rewrite bool_decide_eq_true_2.
  - rewrite call_read by done. rewrite bind_some. cbn [fst snd]. by rewrite bool_decide_eq_true_2.
Qed.

Lemma string_body_plain s rest : plain s = true -> string_body (s ++ 34 :: rest) = Some (s ++ [34], rest).
Proof.
  intros Hp. apply plain_Forall in Hp. induction Hp as [|c s Hc _ IH]; [done|]. cbn [app string_body].
  apply plain_char_spec in Hc as [_ Hc]. rewrite !not_elem_of_cons in Hc.
  replace (c =? 34) with false by lia. replace (c =? 92) with false by lia. by rewrite IH.
Qed.

Lemma parse_quoted v : plain v = true -> JSON_parse (quote v) = Some (JStr v).
Proof. intros Hv. apply (parse_stringify (JStr v)). by apply plain_wf. Qed.

Lemma read_contains p v :
  plain p = true -> p <> [] -> plain v = true ->
  tryParseRequestCondition (js "has(" ++ call SOURCE_HEADER p ++ js ", " ++ quote v ++ js ")")
  = Some (Some (CParamHeader (mkPH SHeader p MATCH_CONTAINS v))).
Proof.
  intros Hp Hn Hv. unfold tryParseRequestCondition.
  set (s := js "has(" ++ _). assert (tryParseTimeCondition s = None) as -> by reflexivity.
  assert (header_exists s = None) as -> by reflexivity. assert (param_exists s = None) as -> by reflexivity.
  assert (header_contains s = Some (p, quote v)) as ->.
  { unfold header_contains. subst s. rewrite lit_app, bind_some, call_read by done. rewrite bind_some.
    cbn [fst snd]. rewrite lit_app, bind_some. unfold string_argument. rewrite quote_plain by done.
    change ((34 :: v ++ [34]) ++ js ")") with ([34] ++ ((v ++ [34]) ++ js ")")).
    rewrite lit_app, bind_some, <- app_assoc. cbn [app]. rewrite string_body_plain by done. rewrite bind_some.
    cbn [fst snd]. by rewrite bool_decide_eq_true_2. }
  unfold parse_as_string. by rewrite parse_quoted.
Qed.

Lemma literal_read v :
  plain v = true -> trim v = v ->
  parseExprLiteral (buildExprLiteral MATCH_EQ v) = Some (JStr v) /\ buildExprLiteral MATCH_EQ v <> [] /\
  forallb (fun c => negb (line_terminator c)) (buildExprLiteral MATCH_EQ v) = true /\
  end_ok (buildExprLiteral MATCH_EQ v) /\ calm (buildExprLiteral MATCH_EQ v) = true /\
  124 ∉ buildExprLiteral MATCH_EQ v.
Proof.
  intros Hp Ht. unfold buildExprLiteral. rewrite Ht. rewrite bool_decide_eq_false_2 by done.
  destruct (bool_decide (v = js "true") || bool_decide (v = js "false")) eqn:E1.
  { apply orb_true_iff in E1 as [E|E]; bool_hyps; subst v; split_and!; try done;
      by apply (bool_decide_eq_true_1 (_ ∉ _)). }
  destruct (NUMERIC_LITERAL_REGEX v) eqn:E2.
  { pose proof (numeric_chars v E2) as [Hn Hc]. split_and!.
    - unfold parseExprLiteral. by rewrite Ht, E1, E2.
    - done.
    - apply forallb_forall. intros c Hin. apply list_elem_of_In in Hin. rewrite Forall_forall in Hc.
      apply Hc, num_char_spec in Hin. apply negb_true_iff, bool_decide_eq_false_2.
      rewrite !elem_of_cons, elem_of_nil in *. lia.
    - by apply numeric_ends.
    - by apply calm_numeric.
    - intros Hin. rewrite Forall_forall in Hc. by apply Hc in Hin. }
  pose proof (plain_Forall v Hp) as Hf. rewrite Forall_forall in Hf. split_and!.
  - unfold parseExprLiteral. rewrite trim_ends.
    + rewrite quote_plain by done. cbn [orb bool_decide]. rewrite !bool_decide_eq_false_2 by done. cbn [orb].
      change (NUMERIC_LITERAL_REGEX (34 :: v ++ [34])) with false. cbn iota.
      rewrite <- quote_plain by done. by rewrite parse_quoted.
    + by rewrite quote_plain.
    + rewrite quote_plain by done. by apply (end_ok_app (34 :: v)).
  - by rewrite quote_plain.
  - rewrite quote_plain by done. cbn [forallb]. rewrite forallb_app. cbn. rewrite andb_true_r.
    apply forallb_forall. intros c Hc. apply list_elem_of_In, Hf, plain_char_spec in Hc as [Hr Hc].
    apply negb_true_iff, bool_decide_eq_false_2. rewrite !elem_of_cons, elem_of_nil in *. lia.
  - rewrite quote_plain by done. by apply (end_ok_app (34 :: v)).
  - by apply calm_plain.
  - rewrite quote_plain by done. rewrite not_elem_of_cons, not_elem_of_app, list_elem_of_singleton.
    split_and!; [done| |done]. intros Hc. apply Hf, plain_char_spec in Hc as [_ Hc]. set_solver.
Qed.

Lemma read_equals src p v :
  plain p = true -> p <> [] -> plain v = true -> trim v = v ->
  tryParseRequestCondition (call (ph_source_text src) p ++ js " == " ++ buildExprLiteral MATCH_EQ v)
  = Some (Some (CParamHeader (mkPH src p MATCH_EQ v))).
Proof.
  intros Hp Hn Hv Ht. destruct (literal_read v Hv Ht) as (Hl & Hne & Hlines & _).
  set (w := buildExprLiteral MATCH_EQ v) in *.
  unfold tryParseRequestCondition. rewrite not_time.
  assert (header_exists (call (ph_source_text src) p ++ js " == " ++ w) = None) as ->.
  { unfold header_exists. destruct src; [done|]. cbn [ph_source_text]. rewrite call_read by done.
    rewrite bind_some. cbn [fst snd]. by rewrite bool_decide_eq_false_2. }
  assert (param_exists (call (ph_source_text src) p ++ js " == " ++ w) = None) as ->.
  { unfold param_exists. destruct src; [|done]. cbn [ph_source_text]. rewrite call_read by done.
    rewrite bind_some. cbn [fst snd]. by rewrite bool_decide_eq_false_2. }
  assert (header_contains (call (ph_source_text src) p ++ js " == " ++ w) = None) as -> by (by destruct src).
  assert (param_contains (call (ph_source_text src) p ++ js " == " ++ w) = None) as ->.
  { unfold param_contains. destruct src; [|done]. cbn [ph_source_text]. by rewrite call_read. }
  assert (param_compare (call (ph_source_text src) p ++ js " == " ++ w) = None) as ->.
  { unfold param_compare. destruct src; [|done]. cbn [ph_source_text]. by rewrite call_read. }
  assert (equals (call (ph_source_text src) p ++ js " == " ++ w) = Some (src, p, w)) as ->.
  { unfold equals. destruct src; cbn [ph_source_text].
    - rewrite call_read by done. rewrite bind_some. cbn [fst snd]. rewrite lit_app, bind_some, Hlines.
      by destruct w.
    - rewrite (proj2 (other_call _ _)). rewrite call_read by done. rewrite bind_some. cbn [fst snd].
      rewrite lit_app, bind_some, Hlines. by destruct w. }
  by rewrite Hl.
Qed.

(** *** The time of day *)

Lemma time_call_read f tz s :
  plain tz = true -> tz <> [] -> time_call (call (time_func_text f) tz ++ s) = Some (f, tz, s).
Proof.
  intros Hp Hn. unfold time_call.
  assert (startsWith (call (time_func_text f) tz ++ s) (time_func_text f ++ jq "('") = true) as H.
  { unfold call. rewrite quote_plain by done. replace (_ ++ s)
      with ((time_func_text f ++ jq "('") ++ (tz ++ [34]) ++ js ")" ++ s); [apply startsWith_app|].
    rewrite <- !app_assoc. cbn. by rewrite <- app_assoc. }
  assert (List.find (fun g => startsWith (call (time_func_text f) tz ++ s) (time_func_text g ++ jq "('")) TIME_FUNCS
    = Some f) as -> by (destruct f; unfold TIME_FUNCS; cbn [List.find]; rewrite H; reflexivity).
  rewrite bind_some, call_read by done. done.
Qed.

(** The text of a range. *)
Definition range_text (f : TimeFunc) (tz a b : jsstr) : jsstr :=
  call (time_func_text f) tz ++ js " >= " ++ a ++ js " || " ++ call (time_func_text f) tz ++ js " < " ++ b.

Lemma time_range_read f tz a b rest :
  plain tz = true -> tz <> [] -> NUMERIC_LITERAL_REGEX a = true -> NUMERIC_LITERAL_REGEX b = true ->
  stops_at num_char rest ->
  time_range (range_text f tz a b ++ rest) = Some (mkTime f tz MATCH_RANGE [] a b, rest).
Proof.
  intros Hp Hn Ha Hb Hr. unfold time_range, range_text. rewrite <- !app_assoc, time_call_read by done.
  rewrite bind_some, lit_app, bind_some. rewrite run1_numeric by done. rewrite bind_some. cbn [fst snd].
  replace (js " || " ++ call (time_func_text f) tz ++ js " < " ++ b ++ rest)
    with ((js " || " ++ time_func_text f ++ jq "('" ++ tz ++ jq "') < ") ++ b ++ rest).
  2:{ unfold call. rewrite quote_plain by done. rewrite <- !app_assoc. do 2 f_equal. cbn.
      by rewrite <- !app_assoc. }
  rewrite lit_app, bind_some. rewrite run1_numeric by done. done.
Qed.

Lemma read_range f tz a b :
  plain tz = true -> tz <> [] -> NUMERIC_LITERAL_REGEX a = true -> NUMERIC_LITERAL_REGEX b = true ->
  tryParseRequestCondition (range_text f tz a b) = Some (Some (CTime (mkTime f tz MATCH_RANGE [] a b))) /\
  tryParseRequestCondition (js "(" ++ range_text f tz a b ++ js ")")
    = Some (Some (CTime (mkTime f tz MATCH_RANGE [] a b))).
Proof.
  intros Hp Hn Ha Hb. unfold tryParseRequestCondition, tryParseTimeCondition. split.
  - pose proof (time_range_read f tz a b [] Hp Hn Ha Hb I) as H. rewrite app_nil_r in H. by rewrite H.
  - assert (time_range (js "(" ++ range_text f tz a b ++ js ")") = None) as -> by reflexivity.
    rewrite lit_app, bind_some. by rewrite time_range_read.
Qed.

Lemma read_time f tz mode v :
  plain tz = true -> tz <> [] -> NUMERIC_LITERAL_REGEX v = true -> mode ∈ [MATCH_EQ; MATCH_GTE; MATCH_LT] ->
  tryParseRequestCondition (call (time_func_text f) tz ++ js " " ++ time_op_text mode ++ js " " ++ v)
  = Some (Some (CTime (mkTime f tz mode v [] []))).
Proof.
  intros Hp Hn Hv Hm. unfold tryParseRequestCondition, tryParseTimeCondition.
  set (s := call _ _ ++ _).
  assert (time_range s = None) as ->.
  { subst s. unfold time_range. rewrite time_call_read by done. rewrite bind_some.
    rewrite !elem_of_cons, elem_of_nil in Hm. destruct Hm as [->|[->|[->|[]]]]; [done| |done].
    change (js " " ++ time_op_text MATCH_GTE ++ js " " ++ v) with (js " >= " ++ v).
    rewrite lit_app, bind_some. pose proof (run1_numeric v [] Hv I) as Hr. rewrite app_nil_r in Hr.
    by rewrite Hr. }
  assert (lit (js "(") s = None) as -> by (subst s; by destruct f). cbn [mbind option_bind].
  assert (time_compare s = Some (mkTime f tz mode v [] [])) as ->; [|done].
  subst s. unfold time_compare. rewrite time_call_read by done. rewrite bind_some.
  pose proof (run1_numeric v [] Hv I) as Hr. rewrite app_nil_r in Hr.
  assert (time_op (js " " ++ time_op_text mode ++ js " " ++ v) = Some (mode, v)) as ->.
  { rewrite !elem_of_cons, elem_of_nil in Hm. unfold time_op. destruct Hm as [->|[->|[->|[]]]].
    - change (js " " ++ time_op_text MATCH_EQ ++ js " " ++ v) with (js " == " ++ v). by rewrite lit_app.
    - change (js " " ++ time_op_text MATCH_GTE ++ js " " ++ v) with (js " >= " ++ v). by rewrite lit_app.
    - change (js " " ++ time_op_text MATCH_LT ++ js " " ++ v) with (js " < " ++ v). by rewrite lit_app. }
  rewrite bind_some. cbn [fst snd]. by rewrite Hr.
Qed.

(** ** A readable condition *)

(** What the group reader needs of the text of a condition. *)
Definition reads_as (e : jsstr) (c : RequestCondition) : Prop :=
  start_ok e /\ end_ok e /\ tame e /\ tryParseRequestCondition e = Some (Some c).

Lemma parenthesize_id e : 124 ∉ e -> parenthesize e = e.
Proof.
  intros H. unfold parenthesize. destruct (includes e (js " || ")) eqn:E; [|done].
  apply includes_spec in E as (l & r & ->). destruct H. rewrite !elem_of_app. right. left.
  by apply (bool_decide_eq_true_1 (_ ∈ _)).
Qed.

Lemma plain_no_bar s : plain s = true -> 124 ∉ quote s.
Proof.
  intros Hp. rewrite quote_plain by done. rewrite not_elem_of_cons, not_elem_of_app, list_elem_of_singleton.
  split_and!; [done| |done]. intros Hc. apply plain_Forall in Hp. rewrite Forall_forall in Hp.
  apply Hp, plain_char_spec in Hc as [_ Hc]. set_solver.
Qed.

Lemma call_no_bar name p : 124 ∉ name -> plain p = true -> 124 ∉ call name p.
Proof.
  intros Hn Hp. unfold call. rewrite !not_elem_of_app. split_and!; [done| |by apply plain_no_bar|];
    by apply (bool_decide_eq_true_1 (_ ∉ _)).
Qed.

Lemma numeric_no_bar v : NUMERIC_LITERAL_REGEX v = true -> 124 ∉ v.
Proof. intros [_ H]%numeric_chars Hin. rewrite Forall_forall in H. by apply H in Hin. Qed.

Lemma normalize_time f tz mode v a b :
  truthy tz = true -> mode ∈ [MATCH_EQ; MATCH_GTE; MATCH_LT; MATCH_RANGE] ->
  normalizeCondition (partial_of (CTime (mkTime f tz mode v a b))) = CTime (mkTime f tz mode v a b).
Proof.
  intros Ht Hm. unfold normalizeCondition. cbn [partial_of pc_source]. rewrite bool_decide_eq_true_2 by done.
  cbn [pc_timeFunc pc_timezone pc_mode pc_value pc_rangeStart pc_rangeEnd timeFunc timezone t_mode t_value
    rangeStart rangeEnd]. rewrite Ht.
  replace (isTimeFunc (Some (time_func_text f))) with (Some f) by (by destruct f).
  replace (offered_mode SOURCE_TIME (Some mode) MATCH_GTE) with mode; [done|].
  rewrite !elem_of_cons, elem_of_nil in Hm. destruct Hm as [->|[->|[->|[->|[]]]]]; reflexivity.
Qed.

Lemma normalize_ph src p mode v :
  mode ∈ [MATCH_EQ; MATCH_CONTAINS; MATCH_EXISTS] \/
  src = SParam /\ mode ∈ [MATCH_GT; MATCH_GTE; MATCH_LT; MATCH_LTE] ->
  normalizeCondition (partial_of (CParamHeader (mkPH src p mode v))) = CParamHeader (mkPH src p mode v).
Proof.
  intros Hm. unfold normalizeCondition. cbn [partial_of pc_source ph_source pc_path pc_mode pc_value ph_path ph_mode ph_value].
  assert (bool_decide (Some (ph_source_text src) = Some SOURCE_TIME) = false) as -> by (by destruct src).
  cbv zeta. assert ((if bool_decide (Some (ph_source_text src) = Some SOURCE_HEADER) then SHeader else SParam) = src)
    as -> by (by destruct src).
  replace (offered_mode (ph_source_text src) (Some mode) MATCH_EQ) with mode; [done|].
  rewrite !elem_of_cons, !elem_of_nil in Hm.
  destruct Hm as [[->|[->|[->|[]]]]|[-> [->|[->|[->|[->|[]]]]]]]; try destruct src; reflexivity.
Qed.

Lemma build_ph_text src p mode v :
  truthy p = true -> trim p = p ->
  mode ∈ [MATCH_EQ; MATCH_CONTAINS; MATCH_EXISTS] \/
  src = SParam /\ mode ∈ [MATCH_GT; MATCH_GTE; MATCH_LT; MATCH_LTE] ->
  buildRequestConditionExpr (CParamHeader (mkPH src p mode v))
  = let s := call (ph_source_text src) p in
    if bool_decide (mode = MATCH_EXISTS) then s ++ match src with SHeader => jq " != ''" | SParam => js " != nil" end
    else if bool_decide (mode = MATCH_CONTAINS) then
      let has := js "has(" ++ s ++ js ", " ++ buildExprLiteral mode v ++ js ")" in
      match src with SHeader => has | SParam => s ++ js " != nil && " ++ has end
    else match compare_op_text mode with
         | Some op => if negb (NUMERIC_LITERAL_REGEX (trim v)) then []
                      else s ++ js " != nil && " ++ s ++ js " " ++ op ++ js " " ++ trim v
         | None => s ++ js " == " ++ buildExprLiteral mode v
         end.
Proof.
  intros Hp Ht Hm. unfold buildRequestConditionExpr. rewrite normalize_ph by done.
  cbn [ph_path ph_source ph_mode ph_value]. cbv zeta. rewrite Ht, Hp. cbn [negb]. fold (call (ph_source_text src) p).
  by destruct src.
Qed.

(** A text built of calls, numbers and literals is tame. *)
Ltac tame_tac :=
  first [ apply call_tame; [first [apply func_calm | apply source_calm | reflexivity]|assumption]
        | apply tame_calm; first [assumption | apply calm_numeric; assumption | apply calm_plain; assumption | reflexivity]
        | apply tame_app; tame_tac ].

Lemma func_call_start f tz : start_ok (call (time_func_text f) tz).
Proof. by destruct f. Qed.

Lemma source_call_start src p : start_ok (call (ph_source_text src) p).
Proof. by destruct src. Qed.

Lemma func_no_bar f : 124 ∉ time_func_text f.
Proof. destruct f; by apply (bool_decide_eq_true_1 (_ ∉ _)). Qed.

Lemma source_no_bar src : 124 ∉ ph_source_text src.
Proof. destruct src; by apply (bool_decide_eq_true_1 (_ ∉ _)). Qed.

(** The same for the bar. *)
Ltac no_bar_tac :=
  first [ apply call_no_bar; [first [apply func_no_bar | apply source_no_bar]|assumption]
        | assumption | apply numeric_no_bar; assumption | apply plain_no_bar; assumption
        | apply (bool_decide_eq_true_1 (_ ∉ _)); reflexivity
        | apply not_elem_of_app; split; no_bar_tac ].

Lemma readable_time_build t :
  readable_time t = true ->
  reads_as (buildTimeConditionExpr t) (CTime t) /\ reads_as (parenthesize (buildTimeConditionExpr t)) (CTime t).
Proof.
  destruct t as [f tz mode v a b]. unfold readable_time. cbn [timezone t_mode t_value rangeStart rangeEnd].
  intros H. apply andb_true_iff in H as [H Hc]. apply andb_true_iff in H as [Hz Hp].
  pose proof (truthy_not_nil _ Hz) as Hn. unfold buildTimeConditionExpr.
  apply orb_true_iff in Hc as [Hc|Hc]; rewrite !andb_true_iff in Hc; destruct Hc as [[[Hm Hv] Ha] Hb].
  - apply bool_decide_eq_true_1 in Hm as ->. apply negb_true_iff, not_truthy_nil in Hv as ->. rewrite normalize_time by (done || set_solver).
    cbn [t_mode rangeStart rangeEnd timeFunc timezone]. rewrite bool_decide_eq_true_2 by done. cbv zeta.
    rewrite !numeric_trim by done. rewrite Ha, Hb. cbn [negb orb].
    change (_ ++ _) with (range_text f tz a b).
    destruct (read_range f tz a b Hp Hn Ha Hb) as [R1 R2].
    assert (tame (range_text f tz a b)) as Htame.
    { unfold range_text. tame_tac. }
    assert (parenthesize (range_text f tz a b) = js "(" ++ range_text f tz a b ++ js ")") as ->.
    { unfold parenthesize. replace (includes _ _) with true; [done|]. symmetry. apply includes_spec.
      exists (call (time_func_text f) tz ++ js " >= " ++ a), (call (time_func_text f) tz ++ js " < " ++ b).
      unfold range_text. by rewrite <- !app_assoc. }
    split; (split_and!; [| | |done]).
    + unfold range_text. apply start_ok_app, func_call_start.
    + unfold range_text. rewrite !app_assoc. by apply end_ok_app, numeric_ends.
    + done.
    + done.
    + rewrite app_assoc. by apply end_ok_app.
    + by apply tame_parens.
  - apply bool_decide_eq_true_1 in Hm. apply negb_true_iff, not_truthy_nil in Ha as ->.
    apply negb_true_iff, not_truthy_nil in Hb as ->.
    rewrite normalize_time by (done || set_solver).
    cbn [t_mode t_value timeFunc timezone]. rewrite bool_decide_eq_false_2.
    2:{ intros ->. revert Hm. by apply (bool_decide_eq_true_1 (_ ∉ _)). }
    rewrite !numeric_trim by done. rewrite Hv. cbn [negb].
    change (_ ++ _) with (call (time_func_text f) tz ++ js " " ++ time_op_text mode ++ js " " ++ v).
    rewrite parenthesize_id.
    + enough (reads_as (call (time_func_text f) tz ++ js " " ++ time_op_text mode ++ js " " ++ v)
        (CTime (mkTime f tz mode v [] []))) by done. split_and!.
      * apply start_ok_app, func_call_start.
      * rewrite !app_assoc. by apply end_ok_app, numeric_ends.
      * assert (calm (time_op_text mode) = true) by (unfold time_op_text; by repeat case_match). tame_tac.
      * by apply read_time.
    + assert (124 ∉ time_op_text mode).
      { unfold time_op_text. repeat case_match; by apply (bool_decide_eq_true_1 (_ ∉ _)). }
      no_bar_tac.
Qed.

Lemma readable_ph_build c :
  readable_ph c = true ->
  reads_as (buildRequestConditionExpr (CParamHeader c)) (CParamHeader c) /\
  124 ∉ buildRequestConditionExpr (CParamHeader c).
Proof.
  destruct c as [src p mode v]. unfold readable_ph. cbn [ph_path ph_mode ph_value ph_source]. intros H.
  rewrite !andb_true_iff in H. destruct H as [[[Htp Hp] Ht] Hc]. apply bool_decide_eq_true_1 in Ht.
  pose proof (truthy_not_nil _ Htp) as Hn. pose proof (source_call_start src p) as Hstart.
  apply orb_true_iff in Hc as [Hc|Hc].
  { apply andb_true_iff in Hc as [Hm Hv]. apply bool_decide_eq_true_1 in Hm as ->.
    apply negb_true_iff, not_truthy_nil in Hv as ->. rewrite build_ph_text by (done || set_solver).
    cbv zeta. rewrite bool_decide_eq_true_2 by done. split; [split_and!|].
    - by apply start_ok_app.
    - apply end_ok_app. by destruct src.
    - destruct src; tame_tac.
    - by apply read_exists.
    - destruct src; no_bar_tac. }
  rewrite !andb_true_iff in Hc. destruct Hc as [[Hv Htv] Hc]. apply bool_decide_eq_true_1 in Htv.
  apply orb_true_iff in Hc as [Hm|Hm].
  - apply bool_decide_eq_true_1 in Hm as ->. rewrite build_ph_text by (done || set_solver). cbv zeta.
    rewrite !bool_decide_eq_false_2 by done. change (compare_op_text MATCH_EQ) with (@None jsstr). cbv iota.
    destruct (literal_read v Hv Htv) as (_ & _ & _ & Hend & Hcalm & Hbar). split; [split_and!|].
    + by apply start_ok_app.
    + by do 2 apply end_ok_app.
    + tame_tac.
    + by apply read_equals.
    + no_bar_tac.
  - apply andb_true_iff in Hm as [Hm Hsrc]. apply bool_decide_eq_true_1 in Hm as ->. destruct src; [done|].
    rewrite build_ph_text by (done || set_solver). cbv zeta.
    rewrite bool_decide_eq_false_2 by done. rewrite bool_decide_eq_true_2 by done.
    assert (buildExprLiteral MATCH_CONTAINS v = quote v) as ->.
    { unfold buildExprLiteral. rewrite Htv. by rewrite bool_decide_eq_true_2. }
    cbn [ph_source_text]. split; [split_and!|].
    + by apply start_ok_app.
    + rewrite !app_assoc. by apply end_ok_app.
    + change (js "has(") with (js "has" ++ js "("). rewrite <- app_assoc. apply tame_app; [tame_tac|].
      replace (js "(" ++ call SOURCE_HEADER p ++ js ", " ++ quote v ++ js ")")
        with (js "(" ++ (call SOURCE_HEADER p ++ js ", " ++ quote v) ++ js ")") by (by rewrite <- !app_assoc).
      apply tame_parens. pose proof (source_calm SHeader). tame_tac.
    + by apply read_contains.
    + pose proof (source_no_bar SHeader). no_bar_tac.
Qed.

Lemma readable_build c :
  readable c = true ->
  reads_as (buildRequestConditionExpr c) c /\ reads_as (parenthesize (buildRequestConditionExpr c)) c.
Proof.
  destruct c as [t|c]; cbn [readable]; [apply readable_time_build|].
  intros [H Hb]%readable_ph_build. by rewrite parenthesize_id.
Qed.

(** ** A readable group *)

Lemma rule_factor_read c m :
  c <> [] -> NUMERIC_LITERAL_REGEX m = true -> rule_factor (js "(" ++ c ++ js " ? " ++ m ++ js " : 1)") = Some (c, m).
Proof.
  intros Hc Hm. unfold rule_factor. rewrite lit_app, bind_some. rewrite !rev_app_distr, <- !app_assoc.
  rewrite lit_app, bind_some. destruct (numeric_chars m Hm) as [Hn Hch]. rewrite run1_app.
  - rewrite bind_some. cbn [fst snd]. rewrite lit_app, bind_some. rewrite !rev_involutive.
    destruct (rev c) eqn:E; [|done]. destruct Hc. by rewrite <- (rev_involutive c), E.
  - by apply Forall_rev.
  - intros E. apply Hn. by rewrite <- (rev_involutive m), E.
  - done.
Qed.

(** The texts of the conditions of a group. *)
Definition pieces (g : RequestRuleGroup) : list jsstr :=
  match conditions g with
  | [c] => [buildRequestConditionExpr c]
  | cs => map (fun c => parenthesize (buildRequestConditionExpr c)) cs
  end.

Lemma readable_pieces g : readable_group g = true -> Forall2 reads_as (pieces g) (conditions g).
Proof.
  unfold readable_group. rewrite !andb_true_iff. intros [_ H]. rewrite forallb_forall in H.
  assert (forall c, c ∈ conditions g -> readable c = true) as Hr by (intros c Hc; by apply H, list_elem_of_In).
  clear H. unfold pieces. destruct (conditions g) as [|c [|c' cs]]; [constructor| |].
  - constructor; [|constructor]. apply readable_build, Hr. left.
  - revert Hr. generalize (c :: c' :: cs). clear. intros cs Hr. induction cs as [|c cs IH]; [constructor|].
    constructor; [apply readable_build, Hr; left|]. apply IH. intros d Hd. apply Hr. by right.
Qed.

Lemma build_group g :
  readable_group g = true ->
  buildRuleGroupFactor g = js "(" ++ join (js " && ") (pieces g) ++ js " ? " ++ multiplier g ++ js " : 1)".
Proof.
  intros Hg. pose proof (readable_pieces g Hg) as Hp. unfold readable_group in Hg.
  rewrite !andb_true_iff in Hg. destruct Hg as [[Hm Hlen] Hr]. unfold buildRuleGroupFactor.
  rewrite numeric_trim, Hm by done. cbn [negb].
  assert (filter_truthy (map buildRequestConditionExpr (conditions g)) = map buildRequestConditionExpr (conditions g)) as ->.
  { apply filter_truthy_all, Forall_fmap, Forall_forall. intros c Hc. rewrite forallb_forall in Hr.
    destruct (readable_build c) as [(Hs & _) _]; [by apply Hr, list_elem_of_In|]. by apply start_not_nil. }
  unfold pieces. destruct (conditions g) as [|c [|c' cs]]; [done|done|]. cbn [map].
  rewrite map_map. done.
Qed.

Lemma readable_split g : readable_group g = true -> splitTopLevelAnd (join (js " && ") (pieces g)) = pieces g.
Proof.
  intros Hg. pose proof (readable_pieces g Hg) as Hp.
  assert (Forall (fun e => start_ok e /\ end_ok e /\ tame e) (pieces g)) as He.
  { clear Hg. induction Hp as [|e c es cs (? & ? & ? & _) _ IH]; constructor; auto. }
  assert (pieces g <> []) as Hne.
  { unfold readable_group in Hg. rewrite !andb_true_iff in Hg. destruct Hg as [[_ Hl] _].
    unfold pieces. by destruct (conditions g) as [|? [|? ?]]. }
  unfold splitTopLevelAnd. destruct (pieces g) as [|p ps]; [done|].
  change (js " && ") with (32 :: 38 :: js "& ").
  rewrite (split_joined 38 (js "& ") ps p).
  - apply filter_truthy_all. eapply Forall_impl; [exact He|]. intros e (Hs & _). by apply start_not_nil.
  - eapply Forall_impl; [exact He|]. intros e (Hs & Hend & Hx & Hd & _). by apply passes_flat.
  - eapply Forall_impl; [exact He|]. intros e (Hs & Hend & _). by apply trim_ends.
Qed.

Lemma parse_pieces es cs :
  Forall2 reads_as es cs -> parse_all (fun ap => tryParseRequestCondition (trim ap)) es = Some (Some cs).
Proof.
  induction 1 as [|e c es cs (Hs & He & _ & Hp) _ IH]; [done|]. cbn [parse_all].
  by rewrite trim_ends, Hp, IH by done.
Qed.

(** What the reader of rules needs of the text of a group. *)
Definition factor_ok (e : jsstr) (g : RequestRuleGroup) : Prop :=
  start_ok e /\ end_ok e /\ passes (js " * ") e /\ tryParseRuleGroupFactor e = Some (Some g).

Lemma readable_factor g : readable_group g = true -> factor_ok (buildRuleGroupFactor g) g.
Proof.
  intros Hg. rewrite build_group by done. pose proof (readable_pieces g Hg) as Hp.
  set (c := join (js " && ") (pieces g)) in *.
  assert (NUMERIC_LITERAL_REGEX (multiplier g) = true /\ conditions g <> []) as [Hm Hne].
  { unfold readable_group in Hg. rewrite !andb_true_iff in Hg. destruct Hg as [[? Hl] _]. split; [done|].
    by destruct (conditions g). }
  assert (level c /\ start_ok c) as [Hl Hs].
  { split.
    - apply level_join.
      + split; [done|]. intros d Hd. change (1 <= d /\ 1 <= d /\ 1 <= d /\ 1 <= d /\ True). done.
      + clear -Hp. induction Hp as [|e d es ds (_ & _ & [_ He] & _) _ IH]; [by apply Forall_nil|by apply Forall_cons].
    - subst c. destruct Hp as [|e d es ds (He & _) _]; [done|]. destruct es; [done|]. by apply start_ok_app. }
  split_and!.
  - done.
  - rewrite !app_assoc. by apply end_ok_app.
  - replace (js "(" ++ c ++ js " ? " ++ multiplier g ++ js " : 1)")
      with (js "(" ++ (c ++ js " ? " ++ multiplier g ++ js " : 1") ++ js ")") by (by rewrite <- !app_assoc).
    assert (level (c ++ js " ? " ++ multiplier g ++ js " : 1")) as [H1 H2].
    { apply level_app; [done|]. apply (tame_app (js " ? ")); [by apply tame_calm|].
      apply tame_app; [by apply tame_calm, calm_numeric|by apply tame_calm]. }
    apply passes_parens; [by apply H2|by apply H1].
  - unfold tryParseRuleGroupFactor. rewrite rule_factor_read; [|by apply start_not_nil|done].
    subst c. rewrite readable_split, (parse_pieces _ _ Hp) by done. destruct g as [cs m]. cbn in *.
    by destruct cs.
Qed.

End BillingExprFacts.
