(* ===== verification/BillingExprProperties.v ===== *)
(** * Properties of request rules

    Round trips of the texts of [BillingExpr.v], and the conditions that are
    lost. *)

From S2P Require Import Prelude JsString Json JsonText BillingExpr BillingExprFacts.
#[local] Open Scope Z_scope.

Module BillingExprProperties.
Import Json JsonText BillingExpr BillingExprFacts.

(** ** Rules *)

Lemma join_ends sep ps :
  ps <> [] -> Forall (fun e => start_ok e /\ end_ok e) ps -> start_ok (join sep ps) /\ end_ok (join sep ps).
Proof.
  intros Hn H. induction H as [|p ps [Hs He] Hps IH]; [done|]. destruct ps as [|q ps]; [done|].
  change (join sep (p :: q :: ps)) with (p ++ sep ++ join sep (q :: ps)). destruct IH as [_ IH]; [done|].
  split; [by apply start_ok_app|by do 2 apply end_ok_app].
Qed.

(** The factors of a product are found again. *)
Lemma split_product es :
  es <> [] -> Forall (fun e => start_ok e /\ end_ok e /\ passes (js " * ") e) es ->
  splitTopLevelMultiply (join (js " * ") es) = es /\ trim (join (js " * ") es) = join (js " * ") es /\
  join (js " * ") es <> [].
Proof.
  intros Hn H. destruct (join_ends (js " * ") es Hn) as [Hs He].
  { eapply Forall_impl; [exact H|]. by intros e (? & ? & _). }
  split_and!; [|by apply trim_ends|by apply start_not_nil].
  unfold splitTopLevelMultiply. destruct es as [|p ps]; [done|]. change (js " * ") with (32 :: 42 :: js " ").
  rewrite (split_joined 42 (js " ") ps p).
  - apply filter_truthy_all. eapply Forall_impl; [exact H|]. intros e (? & _). by apply start_not_nil.
  - eapply Forall_impl; [exact H|]. by intros e (_ & _ & ?).
  - eapply Forall_impl; [exact H|]. intros e (? & ? & _). by apply trim_ends.
Qed.

Lemma parse_factors es gs : Forall2 factor_ok es gs -> parse_all tryParseRuleGroupFactor es = Some (Some gs).
Proof. induction 1 as [|e g es gs (_ & _ & _ & Hp) _ IH]; [done|]. cbn [parse_all]. by rewrite Hp, IH. Qed.

Lemma readable_factors groups :
  forallb readable_group groups = true -> Forall2 factor_ok (map buildRuleGroupFactor groups) groups.
Proof.
  induction groups as [|g groups IH]; cbn [forallb map]; [constructor|]. rewrite andb_true_iff. intros [Hg H].
  constructor; [by apply readable_factor|by apply IH].
Qed.

Lemma factors_shape es gs :
  Forall2 factor_ok es gs -> Forall (fun e => start_ok e /\ end_ok e /\ passes (js " * ") e) es.
Proof. induction 1 as [|e g es gs (? & ? & ? & _) _ IH]; by constructor. Qed.

Lemma build_rules groups :
  forallb readable_group groups = true ->
  buildRequestRuleExpr groups = join (js " * ") (map buildRuleGroupFactor groups).
Proof.
  intros H. unfold buildRequestRuleExpr. rewrite filter_truthy_all; [done|].
  eapply Forall_impl; [exact (factors_shape _ _ (readable_factors groups H))|].
  intros e (? & _). by apply start_not_nil.
Qed.

Lemma rules_read groups :
  forallb readable_group groups = true ->
  tryParseRequestRuleExpr (buildRequestRuleExpr groups) = Some (Some groups).
Proof.
  intros H. rewrite build_rules by done. pose proof (readable_factors groups H) as Hf.
  destruct groups as [|g groups]; [done|].
  destruct (split_product (map buildRuleGroupFactor (g :: groups))) as (Hs & Ht & Hn);
    [done|by eapply factors_shape|].
  unfold tryParseRequestRuleExpr. rewrite Ht. destruct (truthy (join _ _)) eqn:E.
  - cbn [negb]. rewrite Hs. by apply parse_factors.
  - by apply not_truthy_nil in E.
Qed.

(** What the rule editor writes it reads back: for rules on headers,
    on equality and existence of parameters and on the time of day, whose texts
    hold no quote, backslash, parenthesis, bar or ampersand, parsing the built
    expression gives the rules. *)
Theorem rules_roundtrip groups :
  forallb readable_group groups = true ->
  tryParseRequestRuleExpr (buildRequestRuleExpr groups) = Some (Some groups).
Proof. apply rules_read. Qed.

Lemma rules_roundtrip_witness :
  tryParseRequestRuleExpr (buildRequestRuleExpr sample_groups) = Some (Some sample_groups).
Proof. apply rules_roundtrip. vm_compute. reflexivity. Defined.

(** ** Unwrapping *)

Lemma full_length s : hasFullOuterParens s = true -> exists m, s = js "(" ++ m ++ js ")".
Proof.
  unfold hasFullOuterParens. rewrite !andb_true_iff. intros [[Hs He] _].
  apply startsWith_spec in Hs as [m ->]. unfold endsWith in He. apply startsWith_spec in He as [k Hk].
  rewrite rev_app_distr in Hk. destruct (rev m) as [|c m'] eqn:E; [done|].
  injection Hk as -> _. exists (rev m'). f_equal. rewrite <- (rev_involutive m), E. done.
Qed.

Lemma slice_parens m : slice (js "(" ++ m ++ js ")") 1 (length (js "(" ++ m ++ js ")") - 1) = m.
Proof.
  unfold slice. rewrite !length_app. change (length (js "(")) with 1%nat. change (length (js ")")) with 1%nat.
  change (drop 1 (js "(" ++ m ++ js ")")) with (m ++ js ")").
  replace (1 + (length m + 1) - 1 - 1)%nat with (length m) by lia. apply take_app_length.
Qed.

Lemma unwrap_full fuel m :
  hasFullOuterParens (js "(" ++ m ++ js ")") = true ->
  unwrap_loop (S fuel) (js "(" ++ m ++ js ")") = unwrap_loop fuel (trim m).
Proof. intros H. cbn [unwrap_loop]. by rewrite H, slice_parens. Qed.

Lemma parens_length m : length (js "(" ++ m ++ js ")") = (length m + 2)%nat.
Proof. rewrite !length_app. change (length (js "(")) with 1%nat. change (length (js ")")) with 1%nat. lia. Qed.

(** The fuel is enough: the loop stops at a text without outer parentheses. *)
Lemma unwrap_enough n m s :
  (length s <= n)%nat -> (length s <= m)%nat ->
  unwrap_loop n s = unwrap_loop m s /\ hasFullOuterParens (unwrap_loop n s) = false.
Proof.
  revert m s. induction n as [|n IH]; intros m s Hn Hm.
  - destruct s; [|cbn in Hn; lia]. by destruct m.
  - destruct (hasFullOuterParens s) eqn:E.
    + destruct (full_length s E) as [k ->]. rewrite parens_length in Hn, Hm. destruct m as [|m]; [lia|].
      rewrite !unwrap_full by done. pose proof (trim_length k). apply IH; lia.
    + cbn [unwrap_loop]. rewrite E. split; [|done]. destruct m; [done|]. cbn [unwrap_loop]. by rewrite E.
Qed.

(** ** Combining and splitting *)

(** A text with balanced parentheses, inside one more pair. *)
Definition balanced (s : jsstr) : Prop := stays_inside s 1 /\ depth_after s 1 = 1.

Lemma outer_inside s d : stays_inside s d -> depth_after s d = 1 -> outer_loop (s ++ js ")") d = true.
Proof.
  revert d. induction s as [|c s IH]; intros d Hs Hd; cbn in Hd.
  - subst d. done.
  - cbn [app outer_loop]. destruct Hs as [Hc Hs]. replace (depth_step d c =? 0) with false by lia.
    cbn [andb]. by apply IH.
Qed.

Lemma parens_full s : balanced s -> hasFullOuterParens (js "(" ++ s ++ js ")") = true.
Proof.
  intros [Hs Hd]. unfold hasFullOuterParens. rewrite !andb_true_iff. split_and!.
  - apply startsWith_app.
  - unfold endsWith. rewrite !rev_app_distr, <- app_assoc. apply startsWith_app.
  - change (js "(" ++ s ++ js ")") with (40 :: s ++ js ")"). cbn [outer_loop].
    change (depth_step 0 40) with 1. cbn [Z.eqb andb]. by apply outer_inside.
Qed.

Lemma unwrap_parens s : balanced s -> unwrapOuterParens (js "(" ++ s ++ js ")") = unwrapOuterParens s.
Proof.
  intros Hb. unfold unwrapOuterParens. rewrite trim_ends; [|done|rewrite app_assoc; by apply end_ok_app].
  rewrite parens_length. replace (length s + 2)%nat with (S (S (length s))) by lia.
  rewrite unwrap_full by (by apply parens_full). pose proof (trim_length s). apply unwrap_enough; lia.
Qed.

(** A text in parentheses that does not end as a rule is no rule. *)
Lemma base_not_rule base :
  balanced base -> endsWith base (js " : 1") = false ->
  tryParseRequestRuleExpr (js "(" ++ base ++ js ")") = Some None.
Proof.
  intros [Hs Hd] He. destruct (split_product [js "(" ++ base ++ js ")"]) as (Hsp & Ht & Hn); [done| |].
  { constructor; [|constructor]. split_and!; [done|rewrite app_assoc; by apply end_ok_app|].
    by apply passes_parens. }
  cbn [join] in Hsp, Ht, Hn. unfold tryParseRequestRuleExpr. rewrite Ht.
  change (truthy (js "(" ++ base ++ js ")")) with true. cbn [negb]. rewrite Hsp. cbn [parse_all].
  assert (rule_factor (js "(" ++ base ++ js ")") = None) as Hr; [|unfold tryParseRuleGroupFactor; by rewrite Hr].
  unfold rule_factor. rewrite lit_app, bind_some. assert (lit (rev (js " : 1)")) (rev (base ++ js ")")) = None) as ->; [|done].
  unfold lit. rewrite rev_app_distr. unfold endsWith in He.
  change (rev (js " : 1)")) with (41 :: rev (js " : 1")). change (rev (js ")") ++ rev base) with (41 :: rev base).
  cbn [startsWith]. by rewrite He.
Qed.

Lemma sort_factors es gs base :
  Forall2 factor_ok es gs -> tryParseRequestRuleExpr base = Some None ->
  sort_parts (base :: es) = Some (es, [base]).
Proof.
  intros Hf Hb. cbn [sort_parts]. rewrite Hb.
  assert (sort_parts es = Some (es, [])) as ->; [|done].
  induction Hf as [|e g es gs (Hs & He & Hp & Hg) _ IH]; [done|]. cbn [sort_parts].
  assert (tryParseRequestRuleExpr e = Some (Some [g])) as ->; [|by rewrite IH].
  destruct (split_product [e]) as (Hsp & Ht & Hn); [done|by constructor|]. cbn [join] in *.
  unfold tryParseRequestRuleExpr. rewrite Ht. destruct (truthy e) eqn:E; [|by apply not_truthy_nil in E].
  cbn [negb]. rewrite Hsp. cbn [parse_all]. by rewrite Hg.
Qed.

(** Splitting undoes combining: a price expression with balanced
    parentheses that does not itself end as a rule, combined with readable
    rules, is split into the expression, without its outer parentheses, and the
    text of the rules. *)
Theorem split_undoes_combine base groups :
  base <> [] -> trim base = base -> balanced base -> endsWith base (js " : 1") = false ->
  groups <> [] -> forallb readable_group groups = true ->
  let rules := buildRequestRuleExpr groups in
  splitBillingExprAndRequestRules (combineBillingExpr base rules)
    = Some (mkSplit (unwrapOuterParens base) rules) /\
  hasFullOuterParens (unwrapOuterParens base) = false /\
  (hasFullOuterParens base = false -> unwrapOuterParens base = base).
Proof.
  intros Hn Ht Hb He Hg Hr. cbv zeta. split_and!.
  - pose proof (readable_factors groups Hr) as Hf. pose proof (factors_shape _ _ Hf) as Hshape.
    destruct (split_product (map buildRuleGroupFactor groups)) as (_ & Htr & Hnr); [by destruct groups|done|].
    unfold combineBillingExpr. rewrite build_rules, Ht, Htr by done.
    destruct base as [|b base]; [done|]. cbn [truthy negb]. set (rules := join _ _) in *.
    destruct (truthy rules) eqn:Etr; [|by apply not_truthy_nil in Etr]. cbn [negb].
    set (B := b :: base) in *.
    assert (js "(" ++ B ++ js ") * " ++ rules = join (js " * ") ((js "(" ++ B ++ js ")") :: map buildRuleGroupFactor groups)) as ->.
    { subst rules. destruct groups as [|g groups]; [done|]. cbn [map join].
      change (js ") * ") with (js ")" ++ js " * "). by rewrite <- !app_assoc. }
    destruct (split_product ((js "(" ++ B ++ js ")") :: map buildRuleGroupFactor groups)) as (Hs & Htc & Hnc); [done| |].
    { constructor; [|done]. destruct Hb. split_and!; [done|rewrite app_assoc; by apply end_ok_app|by apply passes_parens]. }
    unfold splitBillingExprAndRequestRules. rewrite Htc.
    destruct (truthy (join _ _)) eqn:E; [|by apply not_truthy_nil in E]. cbn [negb]. rewrite Hs.
    rewrite (sort_factors _ _ _ Hf (base_not_rule B Hb He)).
    destruct groups as [|g groups]; [done|]. cbn [map length Nat.leb]. rewrite unwrap_parens by done. done.
  - unfold unwrapOuterParens. rewrite Ht. by eapply (unwrap_enough _ (length base)).
  - intros Hf. unfold unwrapOuterParens. rewrite Ht. destruct (length base); [done|]. cbn [unwrap_loop].
    by rewrite Hf.
Qed.

Definition sample_base : jsstr := jq "tier('base', p * 2 + c * 8)".

Lemma split_undoes_combine_witness :
  splitBillingExprAndRequestRules (combineBillingExpr sample_base (buildRequestRuleExpr sample_groups))
  = Some (mkSplit sample_base (buildRequestRuleExpr sample_groups)).
Proof.
  destruct (split_undoes_combine sample_base sample_groups) as (H & _ & Hu);
    [discriminate|reflexivity| |reflexivity|discriminate|reflexivity|].
  - split; [|reflexivity]. cbn. repeat split; vm_compute; discriminate.
  - rewrite H, Hu by reflexivity. reflexivity.
Defined.

(** ** Conditions that are lost *)

(** What is left of the text of such a condition after its test for [nil]. *)
Lemma rest_not_read p s :
  plain p = true -> p <> [] -> startsWith s (js " == ") = false -> startsWith s (js " != ") = false ->
  tryParseRequestCondition (call SOURCE_PARAM p ++ s) = Some None.
Proof.
  intros Hp Hn H1 H2. unfold tryParseRequestCondition. rewrite (not_time SParam).
  assert (forall t, lit (js " != " ++ t) s = None) as Hl.
  { intros t. unfold lit. destruct (startsWith s (js " != " ++ t)) eqn:E; [|done].
    apply startsWith_spec in E as [k ->]. rewrite <- app_assoc, startsWith_app in H2. done. }
  assert (header_exists (call SOURCE_PARAM p ++ s) = None) as -> by done.
  assert (param_exists (call SOURCE_PARAM p ++ s) = None) as ->.
  { unfold param_exists. rewrite call_read by done. rewrite bind_some. cbn [fst snd].
    rewrite bool_decide_eq_false_2; [done|]. intros ->. done. }
  assert (header_contains (call SOURCE_PARAM p ++ s) = None) as -> by done.
  assert (param_contains (call SOURCE_PARAM p ++ s) = None) as ->.
  { unfold param_contains. rewrite call_read by done. rewrite bind_some. cbn [fst snd].
    change (js " != nil && has(") with (js " != " ++ js "nil && has("). by rewrite Hl. }
  assert (param_compare (call SOURCE_PARAM p ++ s) = None) as ->.
  { unfold param_compare. rewrite call_read by done. rewrite bind_some. cbn [fst snd].
    change (js " != nil && ") with (js " != " ++ js "nil && "). by rewrite Hl. }
  assert (equals (call SOURCE_PARAM p ++ s) = None) as ->; [|done].
  unfold equals. cbn [ph_source_text]. rewrite call_read by done. rewrite bind_some. cbn [fst snd].
  unfold lit. by rewrite H1.
Qed.

Lemma has_not_read p v : tryParseRequestCondition (js "has(" ++ call SOURCE_PARAM p ++ js ", " ++ quote v ++ js ")") = Some None.
Proof. reflexivity. Qed.

(** A condition whose text is a conjunction of an existence test and a text
    that is not read alone. *)
Lemma conjunction_lost p rest m :
  plain p = true -> p <> [] -> NUMERIC_LITERAL_REGEX m = true -> start_ok rest -> end_ok rest -> tame rest ->
  tryParseRequestCondition rest = Some None ->
  tryParseRequestRuleExpr (js "(" ++ (call SOURCE_PARAM p ++ js " != nil && " ++ rest) ++ js " ? " ++ m ++ js " : 1)")
  = Some None.
Proof.
  intros Hp Hn Hm Hs He Hr Hnone. set (A := call SOURCE_PARAM p ++ js " != nil").
  assert (call SOURCE_PARAM p ++ js " != nil && " ++ rest = join (js " && ") [A; rest]) as ->.
  { subst A. cbn [join]. change (js " != nil && ") with (js " != nil" ++ js " && "). by rewrite <- !app_assoc. }
  assert (start_ok A /\ end_ok A /\ tame A) as (HsA & HeA & HtA).
  { split_and!; [done|by apply end_ok_app|]. apply tame_app; [by apply call_tame|by apply tame_calm]. }
  assert (level (join (js " && ") [A; rest])) as Hlev.
  { apply level_join; [split; [done|intros d Hd; change (1 <= d /\ 1 <= d /\ 1 <= d /\ 1 <= d /\ True); done]|].
    constructor; [apply HtA|]. constructor; [apply Hr|constructor]. }
  set (c := join (js " && ") [A; rest]) in *.
  assert (level (c ++ js " ? " ++ m ++ js " : 1")) as [H1 H2].
  { apply level_app; [done|]. apply (tame_app (js " ? ")); [by apply tame_calm|].
    apply tame_app; [by apply tame_calm, calm_numeric|by apply tame_calm]. }
  destruct (split_product [js "(" ++ c ++ js " ? " ++ m ++ js " : 1)"]) as (Hsp & Ht & Hne); [done| |].
  { constructor; [|constructor]. split_and!; [done|rewrite !app_assoc; by apply end_ok_app|].
    replace (js "(" ++ c ++ js " ? " ++ m ++ js " : 1)")
      with (js "(" ++ (c ++ js " ? " ++ m ++ js " : 1") ++ js ")") by (by rewrite <- !app_assoc).
    apply passes_parens; [by apply H2|by apply H1]. }
  cbn [join] in Hsp, Ht, Hne. unfold tryParseRequestRuleExpr. rewrite Ht.
  change (truthy (js "(" ++ c ++ js " ? " ++ m ++ js " : 1)")) with true. cbn [negb]. rewrite Hsp.
  cbn [parse_all]. unfold tryParseRuleGroupFactor. rewrite rule_factor_read; [|by apply start_not_nil, start_ok_app|done].
  assert (splitTopLevelAnd c = [A; rest]) as ->.
  { unfold splitTopLevelAnd. subst c. change (js " && ") with (32 :: 38 :: js "& ").
    rewrite (split_joined 38 (js "& ") [rest] A).
    - apply filter_truthy_all. repeat constructor; by apply start_not_nil.
    - destruct HtA as (X1 & X2 & _), Hr as (Y1 & Y2 & _). repeat constructor; by apply passes_flat.
    - repeat constructor; by apply trim_ends. }
  cbn [parse_all]. rewrite !trim_ends by done.
  assert (tryParseRequestCondition A = Some (Some (CParamHeader (mkPH SParam p MATCH_EXISTS [])))) as ->
    by (by apply (read_exists SParam)).
  by rewrite Hnone.
Qed.

(** A rule that compares a parameter with a number, or looks for a text in
    it, cannot be read back: its expression is a conjunction, which the parser
    splits before it reads the condition. *)
Theorem param_conditions_are_lost p mode v m :
  truthy p = true -> plain p = true -> trim p = p -> NUMERIC_LITERAL_REGEX m = true ->
  mode ∈ [MATCH_GT; MATCH_GTE; MATCH_LT; MATCH_LTE] /\ NUMERIC_LITERAL_REGEX v = true \/
  mode = MATCH_CONTAINS /\ plain v = true ->
  let group := mkGroup [CParamHeader (mkPH SParam p mode v)] m in
  buildRequestRuleExpr [group] <> [] /\ tryParseRequestRuleExpr (buildRequestRuleExpr [group]) = Some None.
Proof.
  intros Htp Hp Ht Hm Hc. cbv zeta. pose proof (truthy_not_nil _ Htp) as Hn.
  assert (exists rest, buildRequestConditionExpr (CParamHeader (mkPH SParam p mode v))
    = call SOURCE_PARAM p ++ js " != nil && " ++ rest /\ start_ok rest /\ end_ok rest /\ tame rest /\
    tryParseRequestCondition rest = Some None) as (rest & Hbuild & Hs & He & Hr & Hnone).
  { destruct Hc as [[Hmode Hv]|[-> Hv]].
    - rewrite build_ph_text by (done || (right; done)). cbv zeta. cbn [ph_source_text].
      rewrite numeric_trim, Hv by done. cbn [negb].
      assert (exists op, compare_op_text mode = Some op /\ mode <> MATCH_EXISTS /\ mode <> MATCH_CONTAINS /\
        op ∈ [js ">"; js ">="; js "<"; js "<="]) as (op & -> & H1 & H2 & Hop).
      { rewrite !elem_of_cons, elem_of_nil in Hmode.
        destruct Hmode as [->|[->|[->|[->|[]]]]]; eexists; (split_and!; [reflexivity|done|done|set_solver]). }
      rewrite !bool_decide_eq_false_2 by done. exists (call SOURCE_PARAM p ++ js " " ++ op ++ js " " ++ v).
      split_and!; [done|done|rewrite !app_assoc; by apply end_ok_app, numeric_ends| |].
      + assert (calm op = true) by (rewrite !elem_of_cons, elem_of_nil in Hop; destruct Hop as [->|[->|[->|[->|[]]]]]; done).
        pose proof (source_calm SParam). apply tame_app; [by apply call_tame|].
        repeat apply tame_app; apply tame_calm; try done. by apply calm_numeric.
      + apply rest_not_read; try done; rewrite !elem_of_cons, elem_of_nil in Hop;
          destruct Hop as [->|[->|[->|[->|[]]]]]; done.
    - rewrite build_ph_text by (done || (left; set_solver)). cbv zeta. cbn [ph_source_text].
      rewrite bool_decide_eq_false_2 by done. rewrite bool_decide_eq_true_2 by done.
      assert (exists w, buildExprLiteral MATCH_CONTAINS v = quote w /\ plain w = true) as (w & -> & Hw).
      { exists (trim v). split; [|by apply plain_trim]. unfold buildExprLiteral. by rewrite bool_decide_eq_true_2. }
      eexists. split_and!; [reflexivity|done|rewrite !app_assoc; by apply end_ok_app| |apply has_not_read].
      change (js "has(") with (js "has" ++ js "("). rewrite <- app_assoc. apply tame_app; [by apply tame_calm|].
      replace (js "(" ++ call SOURCE_PARAM p ++ js ", " ++ quote w ++ js ")")
        with (js "(" ++ (call SOURCE_PARAM p ++ js ", " ++ quote w) ++ js ")") by (by rewrite <- !app_assoc).
      apply tame_parens, tame_app; [by apply call_tame|]. apply tame_app; [by apply tame_calm|].
      by apply tame_calm, calm_plain. }
  assert (buildRequestRuleExpr [mkGroup [CParamHeader (mkPH SParam p mode v)] m]
    = js "(" ++ (call SOURCE_PARAM p ++ js " != nil && " ++ rest) ++ js " ? " ++ m ++ js " : 1)") as ->.
  { unfold buildRequestRuleExpr, buildRuleGroupFactor. cbn [map conditions multiplier].
    rewrite Hbuild, numeric_trim, Hm by done. done. }
  split; [done|]. by apply conjunction_lost.
Qed.

Lemma param_conditions_are_lost_witness :
  tryParseRequestRuleExpr (buildRequestRuleExpr
    [mkGroup [CParamHeader (mkPH SParam (js "max_tokens") MATCH_GT (js "4096"))] (js "2")]) = Some None.
Proof.
  apply (param_conditions_are_lost (js "max_tokens") MATCH_GT (js "4096") (js "2"));
    [reflexivity..|]. left. split; [|reflexivity]. apply (bool_decide_eq_true_1 (_ ∈ _)). reflexivity.
Defined.

End BillingExprProperties.
