(* ===== verification/Regex.v ===== *)
(** * Regular expressions

    The backtracking matcher of ECMA-262 for the constructs that the sources
    use: literals, classes, sequence, alternatives in order, greedy repetition,
    options, groups and the assertions for the start and the end of the text
    and for the edge of a word.  A pattern is matched with a continuation; the
    first success in the order of the standard wins.  No group of a source
    stands under a repetition, so the captures need no reset. *)

From S2P Require Import Prelude JsString JsCollections.

Module Regex.

Inductive re :=
| Lit (w : jsstr)                (* pattern characters *)
| Cls (P : Z -> bool)            (* a class *)
| Seq (r1 r2 : re)
| Alt (r1 r2 : re)               (* r1|r2 *)
| Star (r : re)                  (* greedy *)
| Opt (r : re)                   (* greedy *)
| Grp (i : nat) (r : re)         (* capturing *)
| Bol | Eol                      (* ^ and $, without the flag m *)
| WordB.                         (* \b *)

Definition Plus (r : re) : re := Seq r (Star r).
Definition seqs (rs : list re) : re := foldr Seq (Lit []) rs.

(** The character before the position and the text after it. *)
Definition pos : Type := option Z * jsstr.
Definition captures : Type := list (nat * jsstr).

(** The position after a text. *)
Fixpoint adv (w : jsstr) (p : pos) : pos :=
  match w with [] => p | x :: w' => adv w' (Some x, tail p.2) end.

Definition word_char (c : Z) : bool :=
  is_digit c || ((65 <=? c) && (c <=? 90)) || ((97 <=? c) && (c <=? 122)) || (c =? 95).

Definition is_word (c : option Z) : bool := match c with Some c => word_char c | None => false end.

Section Match.
Context {R : Type}.

(** Greedy repetition of a matcher; an iteration has to consume something. *)
Fixpoint repeat_greedy (one : pos -> captures -> (pos -> captures -> option R) -> option R)
    (fuel : nat) (p : pos) (c : captures) (k : pos -> captures -> option R) : option R :=
  match fuel with
  | O => k p c
  | S fuel' =>
      match one p c (fun p' c' =>
        if (length p'.2 <? length p.2)%nat then repeat_greedy one fuel' p' c' k else None) with
      | Some x => Some x
      | None => k p c
      end
  end.

Fixpoint m (r : re) (p : pos) (c : captures) (k : pos -> captures -> option R) {struct r} : option R :=
  match r with
  | Lit w => if startsWith p.2 w then k (adv w p) c else None
  | Cls P => match p.2 with x :: s => if P x then k (Some x, s) c else None | [] => None end
  | Seq r1 r2 => m r1 p c (fun p c => m r2 p c k)
  | Alt r1 r2 => match m r1 p c k with Some x => Some x | None => m r2 p c k end
  | Star r => repeat_greedy (m r) (length p.2) p c k
  | Opt r => match m r p c k with Some x => Some x | None => k p c end
  | Grp i r => m r p c (fun p' c' => k p' (map_set c' i (take (length p.2 - length p'.2) p.2)))
  | Bol => match p.1 with Some _ => None | None => k p c end
  | Eol => match p.2 with [] => k p c | _ => None end
  | WordB => if bool_decide (is_word p.1 = is_word (head p.2)) then None else k p c
  end.
End Match.

(** A match at a position: the position after it and the captures. *)
Definition match_at (r : re) (p : pos) : option (pos * captures) := m r p [] (fun p c => Some (p, c)).

(** The first match at or after a position, as [exec] finds it. *)
Fixpoint search (r : re) (pr : option Z) (s : jsstr) : option (pos * captures) :=
  match match_at r (pr, s) with
  | Some x => Some x
  | None => match s with [] => None | c :: s' => search r (Some c) s' end
  end.

(** [s.match(r)] *)
Definition match_ (r : re) (s : jsstr) : option captures := snd <$> search r None s.
Definition test (r : re) (s : jsstr) : bool := match search r None s with Some _ => true | None => false end.

(** [while ((m = r.exec(s)) !== null)] with the flag g, for patterns that match
    no empty text. *)
Fixpoint exec_loop (r : re) (fuel : nat) (p : pos) : list captures :=
  match fuel with
  | O => []
  | S fuel' =>
      match search r p.1 p.2 with
      | Some (p', c) => c :: exec_loop r fuel' p'
      | None => []
      end
  end.

Definition exec_all (r : re) (s : jsstr) : list captures := exec_loop r (S (length s)) (None, s).

(** [m[i]] *)
Definition group (c : captures) (i : nat) : option jsstr := map_get c i.

(** ** Rules for symbolic runs *)

Section Rules.
Context {R : Type}.
Implicit Types (k : pos -> captures -> option R) (p : pos) (c : captures) (s w : jsstr).

Lemma adv_app w pr s : exists pr', adv w (pr, w ++ s) = (pr', s).
Proof. revert pr. induction w as [|x w IH]; intros pr; [by exists pr|]. apply IH. Qed.

Lemma adv_cons x w pr s : adv (x :: w) (pr, x :: s) = adv w (Some x, s).
Proof. done. Qed.

Lemma m_Seq r1 r2 p c k : m (Seq r1 r2) p c k = m r1 p c (fun p c => m r2 p c k).
Proof. done. Qed.

Lemma m_Lit w pr s c k : m (Lit w) (pr, w ++ s) c k = k (adv w (pr, w ++ s)) c.
Proof. cbn [m snd]. by rewrite startsWith_app. Qed.

Lemma m_Lit_fail w p c k : startsWith p.2 w = false -> m (Lit w) p c k = None.
Proof. intros H. cbn [m]. by rewrite H. Qed.

Lemma m_Alt_l r1 r2 p c k x : m r1 p c k = Some x -> m (Alt r1 r2) p c k = Some x.
Proof. intros H. cbn [m]. by rewrite H. Qed.

Lemma m_Alt_r r1 r2 p c k : m r1 p c k = None -> m (Alt r1 r2) p c k = m r2 p c k.
Proof. intros H. cbn [m]. by rewrite H. Qed.

Lemma m_Opt_some r p c k x : m r p c k = Some x -> m (Opt r) p c k = Some x.
Proof. intros H. cbn [m]. by rewrite H. Qed.

Lemma m_Opt_none r p c k : m r p c k = None -> m (Opt r) p c k = k p c.
Proof. intros H. cbn [m]. by rewrite H. Qed.

(** Repetition of a class: the longest run is tried first. *)
Lemma star_cls_stop P pr s c k :
  match s with x :: _ => P x = false | [] => True end -> m (Star (Cls P)) (pr, s) c k = k (pr, s) c.
Proof. destruct s as [|x s]; [done|]. cbn. by intros ->. Qed.

Lemma star_cls_step P pr x s c k :
  P x = true ->
  m (Star (Cls P)) (pr, x :: s) c k =
  match m (Star (Cls P)) (Some x, s) c k with Some y => Some y | None => k (pr, x :: s) c end.
Proof.
  intros H. cbn [m snd length repeat_greedy]. rewrite H. cbn [snd length].
  by replace (length s <? S (length s))%nat with true by (symmetry; apply Nat.ltb_lt; lia).
Qed.

Lemma star_cls_some P pr w s c k y :
  Forall (fun x => P x = true) w -> match s with x :: _ => P x = false | [] => True end ->
  k (adv w (pr, w ++ s)) c = Some y -> m (Star (Cls P)) (pr, w ++ s) c k = Some y.
Proof.
  intros Hw Hs. revert pr. induction Hw as [|x w Hx _ IH]; intros pr Hk.
  - cbn [app] in *. by rewrite star_cls_stop.
  - cbn [app]. rewrite star_cls_step by done. by rewrite IH.
Qed.

Lemma plus_cls_some P pr x w s c k y :
  P x = true -> Forall (fun x => P x = true) w -> match s with x :: _ => P x = false | [] => True end ->
  k (adv (x :: w) (pr, x :: w ++ s)) c = Some y -> m (Plus (Cls P)) (pr, x :: w ++ s) c k = Some y.
Proof.
  intros Hx Hw Hs Hk. unfold Plus. rewrite m_Seq. cbn [m snd]. rewrite Hx. by apply star_cls_some.
Qed.

Lemma plus_cls_fail P pr s c k :
  match s with x :: _ => P x = false | [] => True end -> m (Plus (Cls P)) (pr, s) c k = None.
Proof. destruct s as [|x s]; [done|]. cbn. by intros ->. Qed.
End Rules.

(** What the continuation returns is passed through. *)
Lemma repeat_greedy_map {A B} (f : A -> B) one one' fuel p c k k' :
  (forall p c k k', (forall p c, k' p c = f <$> k p c) -> one' p c k' = f <$> one p c k) ->
  (forall p c, k' p c = f <$> k p c) ->
  repeat_greedy one' fuel p c k' = f <$> repeat_greedy one fuel p c k.
Proof.
  intros Hone. revert p c. induction fuel as [|fuel IH]; intros p c Hk; cbn [repeat_greedy]; [apply Hk|].
  rewrite (Hone p c (fun p' c' => if (length p'.2 <? length p.2)%nat then repeat_greedy one fuel p' c' k else None))
    by (intros p' c'; case_match; [by apply IH|done]).
  destruct (one p c _); [done|apply Hk].
Qed.

Lemma m_map {A B} (f : A -> B) r p c (k : pos -> captures -> option A) k' :
  (forall p c, k' p c = f <$> k p c) -> m r p c k' = f <$> m r p c k.
Proof.
  revert p c k k'. induction r as [w|P|r1 IH1 r2 IH2|r1 IH1 r2 IH2|r IH|r IH|i r IH| | |]; intros p c k k' Hk; cbn [m].
  - case_match; [apply Hk|done].
  - repeat case_match; try done; apply Hk.
  - apply IH1. intros p' c'. by apply IH2.
  - rewrite (IH1 p c k k') by exact Hk. destruct (m r1 p c k); [done|]. by apply IH2.
  - by apply repeat_greedy_map.
  - rewrite (IH p c k k') by exact Hk. destruct (m r p c k); [done|apply Hk].
  - apply IH. intros p' c'. apply Hk.
  - case_match; [done|apply Hk].
  - case_match; [apply Hk|done].
  - case_match; [done|apply Hk].
Qed.

(** A match, whatever the character before its end is. *)
Lemma match_at_some r pr s s' c :
  m r (pr, s) [] (fun p c => Some (p.2, c)) = Some (s', c) -> exists pr', match_at r (pr, s) = Some ((pr', s'), c).
Proof.
  rewrite (m_map (fun x => (x.1.2, x.2)) r _ _ (fun p c => Some (p, c))) by done. unfold match_at.
  destruct (m r (pr, s) [] _) as [[[pr' s1] c1]|]; [|done]. cbn. intros [= <- <-]. by exists pr'.
Qed.

(** The search moves on while nothing matches. *)
Lemma search_here r pr s x : match_at r (pr, s) = Some x -> search r pr s = Some x.
Proof. intros H. destruct s; cbn [search]; by rewrite H. Qed.

Lemma search_next r pr ch s : match_at r (pr, ch :: s) = None -> search r pr (ch :: s) = search r (Some ch) s.
Proof. intros H. cbn [search]. by rewrite H. Qed.

End Regex.
