(* ===== verification/TierExpr.v ===== *)
(** * Tiered prices

    The registry of billing variables and the tier parser of
    [features/pricing/lib/billing-expr.ts], and the visual configuration of
    tiers of [features/pricing/lib/tier-expr.ts] with its generator and its
    parser.  The regular expressions are written out in [Regex.v].  A number is
    a decimal and [None] where it is NaN. *)

From S2P Require Import Prelude JsString JsCollections Json JsonNumber JsonText JsValue BillingExpr Regex.
Import Json JsValue Regex.

Module TierExpr.

(** ** The registry *)

Inductive Side := SideInput | SideOutput | SideCondition.

Record BillingVar := mkVar {
  key : jsstr;
  field : option jsstr;
  tierField : option jsstr;
  v_label : jsstr;
  shortLabel : jsstr;
  side : Side;
  isBase : bool;
  isConditionOnly : bool;
  group_ : option jsstr }.

Definition priceVar (k f tf l sl : string) (s : Side) (base : bool) (g : option jsstr) : BillingVar :=
  mkVar (js k) (Some (js f)) (Some (js tf)) (js l) (js sl) s base false g.

Definition BILLING_VARS : list BillingVar :=
  [ priceVar "p" "inputPrice" "input_unit_cost" "Input price" "Input" SideInput true None;
    priceVar "c" "outputPrice" "output_unit_cost" "Completion price" "Output" SideOutput true None;
    mkVar (js "len") None None (js "Input length") (js "Length") SideCondition false true None;
    priceVar "cr" "cacheReadPrice" "cache_read_unit_cost" "Cache read price" "Cache Read" SideInput false (Some (js "cache"));
    priceVar "cc" "cacheCreatePrice" "cache_create_unit_cost" "Cache create price" "Cache Write" SideInput false
      (Some (js "cache"));
    priceVar "cc1h" "cacheCreate1hPrice" "cache_create_1h_unit_cost" "Cache create (1h) price" "Cache Write (1h)"
      SideInput false (Some (js "cache"));
    priceVar "img" "imagePrice" "image_unit_cost" "Image input price" "Image In" SideInput false (Some (js "media"));
    priceVar "img_o" "imageOutputPrice" "image_output_unit_cost" "Image output price" "Image Out" SideOutput false
      (Some (js "media"));
    priceVar "ai" "audioInputPrice" "audio_input_unit_cost" "Audio input price" "Audio In" SideInput false
      (Some (js "media"));
    priceVar "ao" "audioOutputPrice" "audio_output_unit_cost" "Audio output price" "Audio Out" SideOutput false
      (Some (js "media")) ].

Definition BILLING_PRICING_VARS : list BillingVar := List.filter (fun v => negb (isConditionOnly v)) BILLING_VARS.

Definition BILLING_CONDITION_VARS : list jsstr :=
  map key (List.filter (fun v => isBase v || isConditionOnly v) BILLING_VARS).

Definition BILLING_VAR_KEY_TO_FIELD : list (jsstr * jsstr) :=
  map (fun v => (key v, or_empty (field v))) BILLING_PRICING_VARS.

Definition BILLING_EXTRA_VARS : list BillingVar :=
  List.filter (fun v => negb (isBase v) && negb (isConditionOnly v)) BILLING_VARS.

(** The field of a tier and the variable of the expression. *)
Definition BILLING_CACHE_VAR_MAP : list (jsstr * jsstr) :=
  map (fun v => (or_empty (tierField v), key v)) BILLING_EXTRA_VARS.

(** ** Patterns *)

Definition ws : re := Star (Cls is_space).
Definition num_re : re := Plus (Cls BillingExpr.num_char).

(** The class without the minus sign. *)
Definition cond_char (c : Z) : bool := is_digit c || bool_decide (c ∈ [46; 101; 69; 43]).
Definition cond_num : re := Plus (Cls cond_char).

Definition alts (ws : list jsstr) : re :=
  match ws with w :: ws => fold_left (fun r w => Alt r (Lit w)) ws (Lit w) | [] => Cls (fun _ => false) end.

Definition var_re : re := alts [js "p"; js "c"; js "len"].
Definition op_re : re := alts [js "<"; js "<="; js ">"; js ">="].

(** A coefficient: the variable, a star and the number, as group [i]. *)
Definition times (v : jsstr) (i : nat) : list re := [Lit v; ws; Lit (js "*"); ws; Grp i num_re].

Definition BILLING_VAR_REGEX : re :=
  seqs [WordB; Grp 1 (alts (map key BILLING_PRICING_VARS)); ws; Lit (js "*"); ws; Grp 2 num_re].

Definition condition_re : re := seqs [var_re; ws; op_re; ws; cond_num].

Definition condGroup : re :=
  Grp 1 (Seq condition_re (Star (seqs [ws; Lit (js "&&"); ws; condition_re]))).

(** [/^(p|c|len)\s*(<|<=|>|>=)\s*([\d.eE+]+)$/] *)
Definition one_condition : re := seqs [Bol; Grp 1 var_re; ws; Grp 2 op_re; ws; Grp 3 cond_num; Eol].

Definition and_re : re := seqs [ws; Lit (js "&&"); ws].

(** The start of a tier, whose label is group [i]. *)
Definition tier_head (i : nat) : list re :=
  [Lit (jq "tier('"); Grp i (Star (Cls BillingExpr.not_quote)); Lit (jq "',"); ws].

Definition optCache (i : nat) (v : jsstr) : re :=
  Opt (seqs ([ws; Lit (js "+"); ws] ++ times v i)).

(** The prices as groups from [i] on. *)
Definition bodyPat (i : nat) : list re :=
  times (js "p") i ++ [ws; Lit (js "+"); ws] ++ times (js "c") (i + 1) ++
  imap (fun n fv => optCache (i + 2 + n) fv.2) BILLING_CACHE_VAR_MAP.

Definition singleRe : re := seqs (Bol :: tier_head 1 ++ bodyPat 2 ++ [Lit (js ")"); Eol]).

Definition opt_condition : re := Opt (seqs [condGroup; ws; Lit (js "?"); ws]).

Definition visualTierRe : re := seqs (opt_condition :: tier_head 2 ++ bodyPat 3 ++ [Lit (js ")")]).

(** The looser pattern of the price breakdown: anything up to a parenthesis. *)
Definition parsedTierRe : re :=
  seqs (opt_condition :: tier_head 2 ++ [Grp 3 (Plus (Cls (fun c => negb (c =? 41)))); Lit (js ")")]).

(** [s.split(r)] for a pattern that matches no empty text *)
Fixpoint split_re (r : re) (fuel : nat) (s cur : jsstr) : list jsstr :=
  match fuel with
  | O => [cur]
  | S fuel' =>
      match match_at r (None, s) with
      | Some ((_, s'), _) => cur :: split_re r fuel' s' []
      | None => match s with [] => [cur] | x :: s' => split_re r fuel' s' (cur ++ [x]) end
      end
  end.

(** ** Conditions *)

Inductive TierVar := VarP | VarC | VarLen.
Inductive TierOp := Lt | Le | Gt | Ge.

Definition var_text (v : TierVar) : jsstr := match v with VarP => js "p" | VarC => js "c" | VarLen => js "len" end.
Definition op_text (o : TierOp) : jsstr := match o with Lt => js "<" | Le => js "<=" | Gt => js ">" | Ge => js ">=" end.

Definition var_of (s : jsstr) : option TierVar :=
  if bool_decide (s = js "p") then Some VarP else if bool_decide (s = js "c") then Some VarC
  else if bool_decide (s = js "len") then Some VarLen else None.

Definition op_of (s : jsstr) : option TierOp :=
  if bool_decide (s = js "<") then Some Lt else if bool_decide (s = js "<=") then Some Le
  else if bool_decide (s = js ">") then Some Gt else if bool_decide (s = js ">=") then Some Ge else None.

(** The value is a number, or the text of an input. *)
Inductive CondValue := VNum (n : option jnum) | VText (s : jsstr).

Record TierConditionInput := mkCond { c_var : TierVar; c_op : TierOp; c_value : CondValue }.

(** [${n}] *)
Definition number_text (n : option jnum) : jsstr :=
  match n with Some n => JsonNumber.num_text n | None => js "NaN" end.

Definition value_text (v : CondValue) : jsstr := match v with VNum n => number_text n | VText s => s end.

Definition parseCondition (cp : jsstr) : option TierConditionInput :=
  cm ← match_ one_condition (trim cp);
  v ← group cm 1 ≫= var_of;
  o ← group cm 2 ≫= op_of;
  Some (mkCond v o (VNum (num_of_text (or_empty (group cm 3))))).

(** The conditions of the first group. *)
Definition parseConditions (condStr : jsstr) : list TierConditionInput :=
  if truthy condStr then omap parseCondition (split_re and_re (S (length condStr)) condStr []) else [].

(** ** The price breakdown *)

Record ParsedTier := mkParsed {
  pt_label : jsstr;
  pt_conditions : list TierConditionInput;
  pt_prices : list (jsstr * jnum) }.

Definition zero : jnum := mkNum 0 0.

(** [v || 0] *)
Definition or_zero (v : option jnum) : jnum :=
  match v with Some n => if mant n =? 0 then zero else n | None => zero end.

(** The first coefficient of each variable. *)
Definition addCoeff (coeffs : list (jsstr * option jnum)) (m : captures) : list (jsstr * option jnum) :=
  let v := or_empty (group m 1) in
  match map_get coeffs v with
  | None => map_set coeffs v (num_of_text (or_empty (group m 2)))
  | Some _ => coeffs
  end.

Definition parseTierBody (bodyStr : jsstr) : list (jsstr * jnum) :=
  let coeffs := fold_left addCoeff (exec_all BILLING_VAR_REGEX bodyStr) [] in
  map (fun '(varName, field) => (field, or_zero (map_get coeffs varName ≫= id))) BILLING_VAR_KEY_TO_FIELD.

Definition parsedTier (m : captures) : ParsedTier :=
  mkParsed (or_empty (group m 2)) (parseConditions (or_empty (group m 1))) (parseTierBody (or_empty (group m 3))).

Definition parseTiersFromExpr (exprStr : jsstr) : list ParsedTier :=
  if truthy exprStr then map parsedTier (exec_all parsedTierRe (BillingExpr.stripExprVersion exprStr).2) else [].

(** ** The visual configuration *)

Inductive CacheMode := CACHE_MODE_TIMED | CACHE_MODE_GENERIC.

(** A tier of which some fields may be missing; [costs] holds the prices of the
    cache and of the media by the name of their field. *)
Record VisualTier := mkTier {
  label : option jsstr;
  conditions : option (list TierConditionInput);
  input_unit_cost : option (option jnum);
  output_unit_cost : option (option jnum);
  cache_mode : option CacheMode;
  costs : list (jsstr * option jnum) }.

(** [Number(v) || 0] *)
Definition cost (v : option (option jnum)) : jnum := or_zero (v ≫= id).

Definition COST_FIELDS : list jsstr :=
  [ js "cache_read_unit_cost"; js "cache_create_unit_cost"; js "cache_create_1h_unit_cost"; js "image_unit_cost";
    js "image_output_unit_cost"; js "audio_input_unit_cost"; js "audio_output_unit_cost" ].

(** [Number(v) > 0] *)
Definition positive (v : option (option jnum)) : bool :=
  match v with Some (Some n) => 0 <? mant n | _ => false end.

Definition getTierCacheMode (tier : VisualTier) : CacheMode :=
  match cache_mode tier with
  | Some mode => mode
  | None =>
      if positive (map_get (costs tier) (js "cache_create_1h_unit_cost"))
      then CACHE_MODE_TIMED else CACHE_MODE_GENERIC
  end.

(** The spread of the tier keeps the fields that it has. *)
Definition normalizeVisualTier (tier : VisualTier) : VisualTier :=
  mkTier (Some (label tier ?? [])) (Some (conditions tier ?? []))
    (Some (input_unit_cost tier ?? Some zero)) (Some (output_unit_cost tier ?? Some zero))
    (Some (getTierCacheMode tier))
    (fold_left (fun cs f => map_set cs f (Some (cost (map_get (costs tier) f)))) COST_FIELDS (costs tier)).

Definition createDefaultVisualConfig : list VisualTier :=
  [normalizeVisualTier
     (mkTier (Some (js "base")) (Some []) (Some (Some zero)) (Some (Some zero)) (Some CACHE_MODE_GENERIC) [])].

(** A configuration is its list of tiers; [None] is a missing one. *)
Definition normalizeVisualConfig (config : option (list VisualTier)) : list VisualTier :=
  match config with
  | None | Some [] => createDefaultVisualConfig
  | Some tiers => map normalizeVisualTier tiers
  end.

(** ** Generating *)

Definition conditionText (c : TierConditionInput) : jsstr :=
  var_text (c_var c) ++ js " " ++ op_text (c_op c) ++ js " " ++ value_text (c_value c).

(** [c.value !== ''] *)
Definition has_value (c : TierConditionInput) : bool :=
  match c_value c with VText [] => false | _ => true end.

Definition buildConditionStr (cs : option (list TierConditionInput)) : jsstr :=
  join (js " && ") (map conditionText (List.filter has_value (cs ?? []))).

Definition coefficient (v : jsstr) (n : jnum) : jsstr := v ++ js " * " ++ JsonNumber.num_text n.

Definition buildTierBodyExpr (tier : VisualTier) : jsstr :=
  join (js " + ")
    ([coefficient (js "p") (cost (input_unit_cost tier)); coefficient (js "c") (cost (output_unit_cost tier))] ++
     omap (fun '(field, exprVar) =>
       let v := cost (map_get (costs tier) field) in
       if mant v =? 0 then None else Some (coefficient exprVar v)) BILLING_CACHE_VAR_MAP).

Definition or_label (l : option jsstr) (d : jsstr) : jsstr := if truthy (or_empty l) then or_empty l else d.

Definition tierText (l : jsstr) (tier : VisualTier) : jsstr :=
  jq "tier('" ++ l ++ jq "', " ++ buildTierBodyExpr tier ++ js ")".

(** The part of the tier at index [i]; only the last one drops its conditions. *)
Fixpoint tierParts (i : nat) (tiers : list VisualTier) : list jsstr :=
  match tiers with
  | [] => []
  | tier :: tiers' =>
      let body := tierText (or_label (label tier) (js "tier_" ++ showZ (Z.of_nat i + 1))) tier in
      let cond := buildConditionStr (conditions tier) in
      (if negb (length tiers' =? 0)%nat && truthy cond then cond ++ js " ? " ++ body else body)
      :: tierParts (S i) tiers'
  end.

Definition generateExprFromVisualConfig (config : option (list VisualTier)) : jsstr :=
  match config with
  | None | Some [] => js "p * 0 + c * 0"
  | Some [tier] =>
      let body := tierText (or_label (label tier) (js "default")) tier in
      let cond := buildConditionStr (conditions tier) in
      if truthy cond then cond ++ js " ? " ++ body ++ js " : p * 0 + c * 0" else body
  | Some tiers => join (js " : ") (tierParts 0 tiers)
  end.

(** ** Parsing *)

(** The tier of a match whose label is group [i]. *)
Definition matchedTier (m : captures) (i : nat) (cs : list TierConditionInput) : VisualTier :=
  mkTier (Some (or_empty (group m i))) (Some cs)
    (Some (num_of_text (or_empty (group m (i + 1))))) (Some (num_of_text (or_empty (group m (i + 2)))))
    None
    (omap id (imap (fun n fv => (fun t => (fv.1, num_of_text t)) <$> group m (i + 3 + n)) BILLING_CACHE_VAR_MAP)).

(** [s.replace(/\s+/g, '')] *)
Definition remove_space (s : jsstr) : jsstr := List.filter (fun c => negb (is_space c)) s.

Definition tryParseVisualConfig (exprStr : option jsstr) : option (list VisualTier) :=
  let exprStr := or_empty exprStr in
  if negb (truthy exprStr) then None
  else
    let body := (BillingExpr.stripExprVersion exprStr).2 in
    match match_ singleRe body with
    | Some simple => Some (normalizeVisualConfig (Some [normalizeVisualTier (matchedTier simple 1 [])]))
    | None =>
        let tiers := map (fun m => normalizeVisualTier (matchedTier m 2 (parseConditions (or_empty (group m 1)))))
                       (exec_all visualTierRe body) in
        if (length tiers =? 0)%nat then None
        else
          let cfg := normalizeVisualConfig (Some tiers) in
          if negb (bool_decide (remove_space (generateExprFromVisualConfig (Some cfg)) = remove_space body)) then None
          else Some cfg
    end.

(** ** The estimator *)

Definition ESTIMATOR_VARS : list (jsstr * jsstr) :=
  [ (js "cr", js "cacheReadTokens"); (js "cc", js "cacheCreateTokens"); (js "cc1h", js "cacheCreate1hTokens");
    (js "img", js "imageTokens"); (js "img_o", js "imageOutputTokens"); (js "ai", js "audioInputTokens");
    (js "ao", js "audioOutputTokens") ].

Definition exprUsesExtraVars (exprStr : jsstr) : bool :=
  truthy exprStr && test (seqs [WordB; Grp 1 (alts (map fst ESTIMATOR_VARS)); WordB]) exprStr.

End TierExpr.
