(* ===== verification/TierExprFacts.v ===== *)
(** * Facts on tiers: running the patterns on generated text

    How the patterns of [TierExpr.v] run on the text that the generator writes:
    numbers, conditions, prices, one tier and the whole expression. *)

From S2P Require Import Prelude JsString JsCollections Json JsonNumber JsonText JsValue BillingExpr BillingExprFacts Regex TierExpr.
Import Json JsValue Regex TierExpr.

Module TierExprFacts.

(** ** Numbers *)

#[local] Abbreviation allb P s := (Forall (fun x => P x = true) s) (only parsing).

Lemma digit_num_char c : is_digit c = true -> BillingExpr.num_char c = true.
Proof. unfold BillingExpr.num_char. by intros ->. Qed.

Lemma zeros_digits n : allb is_digit (JsonNumber.zeros n).
Proof. unfold JsonNumber.zeros. by apply Forall_replicate. Qed.

Lemma strip_zeros_digits s : allb is_digit s -> allb is_digit (JsonNumber.strip_zeros s).
Proof.
  intros H. induction H as [|c s Hc _ IH]; [constructor|]. cbn [JsonNumber.strip_zeros]. case_match; [constructor|].
  by constructor.
Qed.

Lemma num_text_chars n : allb BillingExpr.num_char (JsonNumber.num_text n).
Proof.
  assert (forall s, allb is_digit s -> allb BillingExpr.num_char s) as Hd
    by (intros s H; eapply Forall_impl; [exact H|apply digit_num_char]).
  pose proof (strip_zeros_digits _ (showZ_digits (Z.abs (mant n)) ltac:(lia))) as Hs.
  unfold JsonNumber.num_text. case_match; [by repeat constructor|]. cbv zeta.
  set (s := JsonNumber.strip_zeros _) in *. apply Forall_app. split; [case_match; by repeat constructor|].
  repeat case_match.
  all: repeat first [apply Forall_app; split | apply Forall_cons; split | apply Forall_nil_2 | done].
  all: try (by apply Hd, zeros_digits). all: try (by apply Hd, Forall_take). all: try (by apply Hd, Forall_drop).
  all: try (by apply Hd). all: try (apply Hd, showZ_digits; lia).
Qed.


(** A number that its text gives back. *)
Definition readable (n : jnum) : Prop := num_of_text (JsonNumber.num_text n) = Some n.

#[export] Instance readable_dec n : Decision (readable n).
Proof. unfold readable. apply _. Defined.

Lemma readable_zero : readable zero.
Proof. by vm_compute. Qed.

Lemma readable_not_nil n : readable n -> JsonNumber.num_text n <> [].
Proof. intros H E. unfold readable in H. rewrite E in H. injection H as <-. by vm_compute in E. Qed.

(** ** Spaces and literals *)

Section Runs.
Context {R : Type}.
Implicit Types (k : pos -> captures -> option R) (c : captures) (s : jsstr).

Lemma ws_zero pr s c k : match s with x :: _ => is_space x = false | [] => True end -> m ws (pr, s) c k = k (pr, s) c.
Proof. apply star_cls_stop. Qed.

Lemma ws_one pr x y s c k :
  is_space x = true -> is_space y = false ->
  m ws (pr, x :: y :: s) c k = match k (Some x, y :: s) c with Some r => Some r | None => k (pr, x :: y :: s) c end.
Proof. intros Hx Hy. unfold ws. rewrite star_cls_step by done. by rewrite star_cls_stop. Qed.

(** A space, if the rest matches. *)
Lemma ws_some pr y s c k r :
  is_space y = false -> k (Some 32, y :: s) c = Some r -> m ws (pr, 32 :: y :: s) c k = Some r.
Proof. intros Hy Hk. rewrite ws_one by done. by rewrite Hk. Qed.

Lemma lit_some w pr s c k r : k (adv w (pr, w ++ s)) c = Some r -> m (Lit w) (pr, w ++ s) c k = Some r.
Proof. by rewrite m_Lit. Qed.

(** A run of a class as a group. *)
Lemma grp_plus_some P i pr w s c k r :
  w <> [] -> allb P w -> match s with x :: _ => P x = false | [] => True end ->
  k (adv w (pr, w ++ s)) (map_set c i w) = Some r -> m (Grp i (Plus (Cls P))) (pr, w ++ s) c k = Some r.
Proof.
  intros Hne Hw Hs Hk. cbn [m]. destruct w as [|x w]; [done|]. inversion_clear Hw as [|? ? Hx Hw'].
  cbn [app]. apply plus_cls_some; [done|done|done|]. cbn [snd].
  destruct (adv_app (x :: w) pr s) as [pr' Ha]. cbn [app] in Ha. rewrite Ha. cbn [snd].
  rewrite <- Hk. cbn [app] in *. rewrite Ha. f_equal. f_equal.
  change (x :: w ++ s) with ((x :: w) ++ s). rewrite length_app. rewrite take_app_le by lia.
  rewrite take_ge by lia. done.
Qed.

Lemma seqs_cons r0 rs pr s c k : m (seqs (r0 :: rs)) (pr, s) c k = m r0 (pr, s) c (fun p c => m (seqs rs) p c k).
Proof. done. Qed.

Lemma seqs_nil p c k : m (seqs []) p c k = k p c.
Proof. cbn. by rewrite startsWith_nil_r. Qed.

(** A literal in a sequence. *)
Lemma seqs_lit w rs pr s c k r :
  (forall pr', m (seqs rs) (pr', s) c k = Some r) -> m (seqs (Lit w :: rs)) (pr, w ++ s) c k = Some r.
Proof.
  intros H. rewrite seqs_cons, m_Lit. destruct (adv_app w pr s) as [pr' ->]. apply H.
Qed.

(** An optional space in a sequence. *)
Lemma seqs_ws rs pr y s c k r :
  is_space y = false -> (forall pr', m (seqs rs) (pr', y :: s) c k = Some r) ->
  m (seqs (ws :: rs)) (pr, 32 :: y :: s) c k = Some r.
Proof. intros Hy H. rewrite seqs_cons. by apply ws_some. Qed.

Lemma seqs_ws0 rs pr s c k r :
  match s with x :: _ => is_space x = false | [] => True end -> m (seqs rs) (pr, s) c k = Some r ->
  m (seqs (ws :: rs)) (pr, s) c k = Some r.
Proof. intros Hs H. rewrite seqs_cons. by rewrite ws_zero. Qed.

Lemma seqs_grp_plus P i rs pr w s c k r :
  w <> [] -> allb P w -> match s with x :: _ => P x = false | [] => True end ->
  (forall pr', m (seqs rs) (pr', s) (map_set c i w) k = Some r) ->
  m (seqs (Grp i (Plus (Cls P)) :: rs)) (pr, w ++ s) c k = Some r.
Proof.
  intros Hne Hw Hs H. rewrite seqs_cons. apply grp_plus_some; [done..|].
  destruct (adv_app w pr s) as [pr' ->]. apply H.
Qed.

(** ** Prices *)

Definition stops (s : jsstr) : Prop := match s with x :: _ => BillingExpr.num_char x = false | [] => True end.

Lemma times_some v i n rs pr s c k r :
  readable n -> stops s -> (forall pr', m (seqs rs) (pr', s) (map_set c i (JsonNumber.num_text n)) k = Some r) ->
  m (seqs (times v i ++ rs)) (pr, coefficient v n ++ s) c k = Some r.
Proof.
  intros Hn Hs H. unfold times, coefficient. cbn [app]. rewrite <- !app_assoc. apply seqs_lit. intros pr1.
  cbn [js app]. change (js " * ") with [32; 42; 32]. cbn [app]. apply seqs_ws; [done|]. intros pr2.
  apply (seqs_lit (js "*") _ _ (32 :: _)). intros pr3.
  pose proof (num_text_chars n) as Hc. pose proof (readable_not_nil n Hn) as Hne.
  destruct (JsonNumber.num_text n) as [|x w] eqn:E; [done|]. cbn [app].
  inversion Hc as [|? ? Hx _]; subst. apply seqs_ws; [by apply BillingExprFacts.num_char_not_space|]. intros pr4.
  change (x :: w ++ s) with ((x :: w) ++ s). by apply seqs_grp_plus.
Qed.

(** A variable that cannot be read where another one stands. *)
Fixpoint clashb (v v' : jsstr) : bool :=
  match v, v' with
  | [], x :: _ => negb (is_space x) && negb (x =? 42)
  | [], [] => false
  | a :: v, b :: v' => if a =? b then clashb v v' else true
  | a :: _, [] => negb (a =? 32)
  end.

Lemma clash_lit v v' pr s c k :
  (forall pr x s, is_space x = false -> x <> 42 -> k (pr, x :: s) c = None) ->
  clashb v v' = true -> m (Lit v) (pr, v' ++ 32 :: s) c k = None.
Proof.
  intros Hk. revert v' pr. induction v as [|a v IH]; intros v' pr H.
  - destruct v' as [|x v']; [done|]. cbn [clashb] in H. apply andb_true_iff in H as [Hx Hs]. bool_hyps.
    cbn [m snd startsWith adv]. rewrite startsWith_nil_r. cbn [app]. by apply Hk; [|lia].
  - destruct v' as [|b v']; cbn [clashb] in H.
    + cbn. destruct (a =? 32); done.
    + cbn [app]. cbn [m snd startsWith]. destruct (a =? b) eqn:E; [|done]. cbn [andb adv snd tail].
      apply (IH v' (Some a) H).
Qed.

Lemma star_fails rs pr x s c k :
  is_space x = false -> x <> 42 -> m (seqs (ws :: Lit (js "*") :: rs)) (pr, x :: s) c k = None.
Proof.
  intros Hx Hn. rewrite seqs_cons, ws_zero by done. rewrite seqs_cons. apply m_Lit_fail. change (js "*") with [42].
  cbn [snd startsWith]. destruct (42 =? x) eqn:E; [|done]. bool_hyps. lia.
Qed.

Lemma clash_fails v v' i pr s c k : clashb v v' = true -> m (seqs (times v i)) (pr, v' ++ 32 :: s) c k = None.
Proof. unfold times. rewrite seqs_cons. apply clash_lit. intros. by apply star_fails. Qed.

(** The prices of the optional variables. *)
Definition extra (g : jsstr -> jnum) (l : list (jsstr * jsstr)) : jsstr :=
  concat (omap (fun '(f, v) => if mant (g f) =? 0 then None else Some (js " + " ++ coefficient v (g f))) l).

Fixpoint opts (i : nat) (l : list (jsstr * jsstr)) : list re :=
  match l with [] => [] | fv :: l => optCache i fv.2 :: opts (S i) l end.

Fixpoint extra_caps (g : jsstr -> jnum) (i : nat) (l : list (jsstr * jsstr)) (c : captures) : captures :=
  match l with
  | [] => c
  | (f, _) :: l => extra_caps g (S i) l (if mant (g f) =? 0 then c else map_set c i (JsonNumber.num_text (g f)))
  end.

(** No variable can be read in the place of a later one. *)
Fixpoint vars_ok (l : list (jsstr * jsstr)) : bool :=
  match l with
  | [] => true
  | (_, v) :: l => forallb (fun fv => clashb v fv.2) l && match v with x :: _ => negb (is_space x) | [] => false end && vars_ok l
  end.

Lemma extra_shape g l s :
  extra g l ++ 41 :: s = 41 :: s \/
  exists fv n s', fv ∈ l /\ extra g l ++ 41 :: s = js " + " ++ coefficient fv.2 n ++ s'.
Proof.
  unfold extra. induction l as [|[f v] l IH]; [by left|]. cbn [omap list_omap]. destruct (mant (g f) =? 0) eqn:E.
  - destruct IH as [IH|(fv & n & s' & Hin & IH)]; [by left|right]. exists fv, n, s'. split; [by right|done].
  - right. eexists (f, v), (g f), _. split; [by left|]. cbn [concat]. by rewrite <- !app_assoc.
Qed.

Lemma extra_stops g l s : stops (extra g l ++ 41 :: s).
Proof. destruct (extra_shape g l s) as [-> | (fv & n & s' & _ & ->)]; [done|]. by change (js " + ") with [32; 43; 32]. Qed.

Lemma coefficient_space v n s : exists s', coefficient v n ++ s = v ++ 32 :: s'.
Proof. unfold coefficient. rewrite <- !app_assoc. by eexists. Qed.

Definition starts_black (v : jsstr) : bool := match v with x :: _ => negb (is_space x) | [] => false end.

Lemma vars_ok_elem l fv : vars_ok l = true -> fv ∈ l -> starts_black fv.2 = true.
Proof.
  induction l as [|[f w] l IH]; [set_solver|]. cbn [vars_ok]. intros Hok. bool_hyps.
  intros [-> | Hin]%elem_of_cons; [done|by apply IH].
Qed.

Lemma plus_black v w s pr c k i :
  starts_black v = true -> clashb v w = true -> starts_black w = true ->
  m (seqs ([ws; Lit (js "+"); ws] ++ times v i)) (pr, [32; 43; 32] ++ w ++ 32 :: s) c k = None.
Proof.
  intros Hv Hcl Hw. destruct w as [|y w]; [done|]. cbn [starts_black] in Hw. bool_hyps. cbn [app].
  rewrite seqs_cons, ws_one by done. rewrite !seqs_cons. rewrite (m_Lit_fail _ (pr, _)) by done.
  rewrite (m_Lit (js "+") (Some 32) (32 :: y :: w ++ 32 :: s)). cbn [adv js]. 
  change (adv (js "+") (Some 32, js "+" ++ 32 :: y :: w ++ 32 :: s)) with (Some 43, 32 :: y :: w ++ 32 :: s).
  rewrite seqs_cons, ws_one by done. change (y :: w ++ 32 :: s) with ((y :: w) ++ 32 :: s).
  rewrite clash_fails by done. unfold times. rewrite seqs_cons, m_Lit_fail; [done|].
  destruct v as [|a v]; [done|]. cbn [starts_black] in Hv. cbn. destruct (a =? 32) eqn:E; [|done].
  bool_hyps. subst a. done.
Qed.

(** An option is skipped where its variable does not come next. *)
Lemma optCache_skip g i v l pr s c k :
  starts_black v = true -> forallb (fun fv => clashb v fv.2) l = true -> vars_ok l = true ->
  m (optCache i v) (pr, extra g l ++ 41 :: s) c k = k (pr, extra g l ++ 41 :: s) c.
Proof.
  intros Hv Hcl Hok. apply m_Opt_none. destruct (extra_shape g l s) as [-> | (fv & n & s' & Hin & ->)].
  - cbn [app]. rewrite seqs_cons, ws_zero by done. rewrite seqs_cons. by apply m_Lit_fail.
  - destruct (coefficient_space fv.2 n s') as [s'' ->]. change (js " + ") with [32; 43; 32].
    apply plus_black; [done| |by eapply vars_ok_elem]. rewrite forallb_forall in Hcl.
    by apply list_elem_of_In, Hcl in Hin.
Qed.

Lemma optCache_take i v n pr s c k r :
  starts_black v = true -> readable n -> stops s ->
  (forall pr', k (pr', s) (map_set c i (JsonNumber.num_text n)) = Some r) ->
  m (optCache i v) (pr, js " + " ++ coefficient v n ++ s) c k = Some r.
Proof.
  intros Hv Hn Hs H. apply m_Opt_some. change (js " + ") with [32; 43; 32]. cbn [app].
  apply seqs_ws; [done|]. intros pr1. apply (seqs_lit (js "+") _ _ (32 :: _)). intros pr2.
  assert (exists y s', coefficient v n ++ s = y :: s' /\ is_space y = false) as (y & s' & E & Hy).
  { destruct v as [|y v]; [done|]. cbn [starts_black] in Hv. bool_hyps. by eexists y, _. }
  rewrite E. apply seqs_ws; [done|]. intros pr3. rewrite <- E, <- (app_nil_r (times v i)).
  apply times_some; [done|done|]. intros pr4. rewrite seqs_nil. apply H.
Qed.

Lemma opts_some g l i rs pr s c k r :
  vars_ok l = true -> (forall f v, (f, v) ∈ l -> mant (g f) <> 0 -> readable (g f)) ->
  (forall pr', m (seqs rs) (pr', 41 :: s) (extra_caps g i l c) k = Some r) ->
  m (seqs (opts i l ++ rs)) (pr, extra g l ++ 41 :: s) c k = Some r.
Proof.
  revert i pr c. induction l as [|[f v] l IH]; intros i pr c Hok Hr H; [apply H|].
  cbn [vars_ok] in Hok. apply andb_true_iff in Hok as [Hok Hok']. apply andb_true_iff in Hok as [Hcl Hv].
  cbn [opts app snd extra_caps] in *. rewrite seqs_cons.
  assert (forall c' pr', (forall pr', m (seqs rs) (pr', 41 :: s) (extra_caps g (S i) l c') k = Some r) ->
    m (seqs (opts (S i) l ++ rs)) (pr', extra g l ++ 41 :: s) c' k = Some r) as IH'.
  { intros c' pr' H'. apply IH; [done| |done]. intros f' v' Hin. apply (Hr f' v'). by right. }
  assert (extra g ((f, v) :: l) = (if mant (g f) =? 0 then [] else js " + " ++ coefficient v (g f)) ++ extra g l) as ->.
  { unfold extra. cbn [omap list_omap]. by destruct (mant (g f) =? 0). }
  destruct (mant (g f) =? 0) eqn:E; bool_hyps.
  - cbn [app]. rewrite optCache_skip by done. by apply IH'.
  - rewrite <- !app_assoc. apply optCache_take; [done|apply (Hr f v); [by left|done]|apply extra_stops|].
    intros pr'. by apply IH'.
Qed.

(** ** One tier *)

Lemma imap_opts (l : list (jsstr * jsstr)) i : imap (fun n fv => optCache (i + n) fv.2) l = opts i l.
Proof.
  revert i. induction l as [|fv l IH]; intros i; [done|]. cbn [opts]. rewrite imap_cons, Nat.add_0_r. f_equal.
  rewrite <- IH. apply imap_ext. intros n x _. cbn. f_equal. lia.
Qed.

Definition bodyText (a b : jnum) (g : jsstr -> jnum) : jsstr :=
  coefficient (js "p") a ++ js " + " ++ coefficient (js "c") b ++ extra g BILLING_CACHE_VAR_MAP.

Definition body_caps (a b : jnum) (g : jsstr -> jnum) (i : nat) (c : captures) : captures :=
  extra_caps g (i + 2) BILLING_CACHE_VAR_MAP
    (map_set (map_set c i (JsonNumber.num_text a)) (i + 1)%nat (JsonNumber.num_text b)).

Lemma body_some a b g i rs pr s c k r :
  readable a -> readable b ->
  (forall f v, (f, v) ∈ BILLING_CACHE_VAR_MAP -> mant (g f) <> 0 -> readable (g f)) ->
  (forall pr', m (seqs rs) (pr', 41 :: s) (body_caps a b g i c) k = Some r) ->
  m (seqs (bodyPat i ++ rs)) (pr, bodyText a b g ++ 41 :: s) c k = Some r.
Proof.
  intros Ha Hb Hg H. unfold bodyPat, bodyText. rewrite (imap_opts _ (i + 2)%nat), <- !app_assoc.
  apply times_some; [done|done|]. intros pr1. change (js " + ") with [32; 43; 32]. cbn [app].
  apply seqs_ws; [done|]. intros pr2. apply (seqs_lit (js "+") _ _ (32 :: _)). intros pr3.
  apply seqs_ws; [done|]. intros pr4.
  apply (times_some (js "c") (i + 1)%nat b); [done|apply extra_stops|]. intros pr5.
  apply opts_some; [by vm_compute|exact Hg|exact H].
Qed.

Definition tier_caps (l : jsstr) (a b : jnum) (g : jsstr -> jnum) (i : nat) (c : captures) : captures :=
  body_caps a b g (i + 1) (map_set c i l).

Definition tierPrefix (l : jsstr) : jsstr := jq "tier('" ++ l ++ jq "', ".

Lemma grp_star_some P i pr w s c k r :
  allb P w -> match s with x :: _ => P x = false | [] => True end ->
  (forall pr', k (pr', s) (map_set c i w) = Some r) -> m (Grp i (Star (Cls P))) (pr, w ++ s) c k = Some r.
Proof.
  intros Hw Hs Hk. change (m (Star (Cls P)) (pr, w ++ s) c
    (fun p' c' => k p' (map_set c' i (take (length (w ++ s) - length p'.2) (w ++ s)))) = Some r).
  apply star_cls_some; [done|done|]. destruct (adv_app w pr s) as [pr' ->]. cbn [snd].
  rewrite length_app, take_app_le, take_ge by lia. apply Hk.
Qed.

Lemma head_some l i rs pr y s c k r :
  allb BillingExpr.not_quote l -> is_space y = false ->
  (forall pr', m (seqs rs) (pr', y :: s) (map_set c i l) k = Some r) ->
  m (seqs (tier_head i ++ rs)) (pr, tierPrefix l ++ y :: s) c k = Some r.
Proof.
  intros Hl Hy H. unfold tierPrefix, tier_head. rewrite <- !app_assoc. cbn [app]. apply seqs_lit. intros pr1.
  rewrite seqs_cons. change (jq "', " ++ y :: s) with (34 :: 44 :: 32 :: y :: s).
  apply grp_star_some; [done|done|]. intros pr2.
  apply (seqs_lit (jq "',") _ _ (32 :: y :: s)). intros pr3. by apply seqs_ws.
Qed.

Lemma tier_some l a b g i rs pr s c k r :
  allb BillingExpr.not_quote l -> readable a -> readable b ->
  (forall f v, (f, v) ∈ BILLING_CACHE_VAR_MAP -> mant (g f) <> 0 -> readable (g f)) ->
  (forall pr', m (seqs rs) (pr', s) (tier_caps l a b g i c) k = Some r) ->
  m (seqs (tier_head i ++ bodyPat (i + 1) ++ Lit (js ")") :: rs)) (pr, tierPrefix l ++ bodyText a b g ++ 41 :: s) c k
  = Some r.
Proof.
  intros Hl Ha Hb Hg H.
  assert (exists s', bodyText a b g ++ 41 :: s = 112 :: s') as [s' E] by (by eexists).
  rewrite E. apply head_some; [done|done|]. intros pr1. rewrite <- E.
  apply body_some; [done..|]. intros pr2. by apply (seqs_lit (js ")")).
Qed.

(** ** Conditions *)

(** A condition on a number that its text, which has no sign, gives back. *)
Definition cond_ok (cd : TierConditionInput) : Prop :=
  exists n, c_value cd = VNum (Some n) /\ readable n /\ allb cond_char (JsonNumber.num_text n).

Definition cond_stops (s : jsstr) : Prop := match s with x :: _ => cond_char x = false | [] => True end.

Lemma cond_char_num x : cond_char x = true -> BillingExpr.num_char x = true.
Proof.
  unfold cond_char, BillingExpr.num_char. rewrite !orb_true_iff, !bool_decide_eq_true. set_solver.
Qed.

Lemma var_some v pr s c k r : (forall pr', k (pr', s) c = Some r) -> m var_re (pr, var_text v ++ s) c k = Some r.
Proof.
  intros H. unfold var_re, alts. cbn [fold_left]. destruct v; cbn [var_text].
  - do 2 apply m_Alt_l. apply lit_some. apply H.
  - apply m_Alt_l. rewrite m_Alt_r by (by apply m_Lit_fail). apply lit_some. apply H.
  - rewrite m_Alt_r; [apply lit_some; apply H|]. rewrite m_Alt_r by (by apply m_Lit_fail). by apply m_Lit_fail.
Qed.

Lemma op_some o pr s c k r :
  (forall pr', k (pr', s) c = Some r) -> (forall pr', k (pr', 61 :: s) c = None) ->
  m op_re (pr, op_text o ++ s) c k = Some r.
Proof.
  intros H Hn. unfold op_re, alts. cbn [fold_left].
  assert (forall pr, m (Lit (js "<")) (pr, op_text Le ++ s) c k = None) as H1.
  { intros pr0. change (op_text Le ++ s) with (js "<" ++ 61 :: s). rewrite m_Lit. apply Hn. }
  assert (forall pr, m (Lit (js ">")) (pr, op_text Ge ++ s) c k = None) as H2.
  { intros pr0. change (op_text Ge ++ s) with (js ">" ++ 61 :: s). rewrite m_Lit. apply Hn. }
  destruct o.
  - do 3 apply m_Alt_l. apply (lit_some (js "<")). apply H.
  - do 2 apply m_Alt_l. rewrite m_Alt_r by apply H1. apply (lit_some (js "<=")). apply H.
  - apply m_Alt_l. rewrite m_Alt_r; [apply (lit_some (js ">")); apply H|].
    rewrite m_Alt_r by (by apply m_Lit_fail). by apply m_Lit_fail.
  - rewrite m_Alt_r; [apply (lit_some (js ">=")); apply H|]. rewrite m_Alt_r by (
      rewrite m_Alt_r by (by apply m_Lit_fail); by apply m_Lit_fail). apply H2.
Qed.

Lemma m_Grp i re0 p c k :
  m (Grp i re0) p c k = m re0 p c (fun p' c' => k p' (map_set c' i (take (length p.2 - length p'.2) p.2))).
Proof. done. Qed.

Lemma grp_some re0 i pr w s c k r :
  m re0 (pr, w ++ s) c (fun p' c' => k p' (map_set c' i (take (length (w ++ s) - length p'.2) (w ++ s)))) = Some r ->
  m (Grp i re0) (pr, w ++ s) c k = Some r.
Proof. done. Qed.

Lemma take_back (w s : jsstr) : take (length (w ++ s) - length s) (w ++ s) = w.
Proof. by rewrite length_app, take_app_le, take_ge by lia. Qed.

(** The end of a condition, which cannot start with the second half of an
    operator. *)
Lemma value_fails hd rs pr s c k :
  (forall k', m hd (pr, 61 :: s) c k' = None) -> m (seqs (ws :: hd :: rs)) (pr, 61 :: s) c k = None.
Proof. intros H. rewrite seqs_cons, ws_zero by done. by rewrite seqs_cons. Qed.

Lemma cond_value n : readable n -> allb cond_char (JsonNumber.num_text n) ->
  exists x w, JsonNumber.num_text n = x :: w /\ is_space x = false.
Proof.
  intros Hr Hc. destruct (JsonNumber.num_text n) as [|x w] eqn:E; [by apply readable_not_nil in E|].
  exists x, w. split; [done|]. inversion Hc as [|? ? Hx _]; subst. by apply BillingExprFacts.num_char_not_space, cond_char_num.
Qed.

Lemma condition_some cd pr s c k r :
  cond_ok cd -> cond_stops s -> (forall pr', k (pr', s) c = Some r) ->
  m condition_re (pr, conditionText cd ++ s) c k = Some r.
Proof.
  intros (n & Hv & Hn & Hc) Hs H. unfold condition_re, conditionText. rewrite Hv. cbn [value_text number_text].
  destruct (cond_value n Hn Hc) as (x & w & E & Hx). rewrite <- !app_assoc, seqs_cons.
  apply var_some. intros pr1. change (js " ") with [32]. cbn [app].
  assert (exists y s', op_text (c_op cd) ++ 32 :: JsonNumber.num_text n ++ s = y :: s' /\ is_space y = false)
    as (y & s' & Eo & Hy) by (destruct (c_op cd); by eexists _, _).
  rewrite Eo. apply seqs_ws; [done|]. intros pr2. rewrite <- Eo, seqs_cons. apply op_some.
  - intros pr3. rewrite E. cbn [app]. apply seqs_ws; [done|]. intros pr4. rewrite seqs_cons.
    change (x :: w ++ s) with ((x :: w) ++ s). rewrite <- E in *.
    destruct (JsonNumber.num_text n) as [|x' w'] eqn:E'; [done|]. inversion_clear Hc.
    cbn [app]. apply plus_cls_some; [done|done|done|]. destruct (adv_app (x' :: w') pr4 s) as [pr5 Ha].
    cbn [app] in Ha. rewrite Ha. rewrite seqs_nil. apply H.
  - intros pr3. apply value_fails. intros k'. by apply plus_cls_fail.
Qed.

(** ** Several conditions *)

Definition moreText (cds : list TierConditionInput) : jsstr :=
  concat (map (fun cd => js " && " ++ conditionText cd) cds).

#[local] Abbreviation and_condition := (seqs [ws; Lit (js "&&"); ws; condition_re]).

Lemma conditionText_black cd s : exists y s', conditionText cd ++ s = y :: s' /\ is_space y = false /\ (y =? 38) = false.
Proof. unfold conditionText. destruct (c_var cd); by eexists _, _. Qed.

Lemma and_condition_some cd pr s c k r :
  cond_ok cd -> cond_stops s -> (forall pr', k (pr', s) c = Some r) ->
  m and_condition (pr, js " && " ++ conditionText cd ++ s) c k = Some r.
Proof.
  intros Hc Hs H. change (js " && ") with [32; 38; 38; 32]. cbn [app]. apply seqs_ws; [done|]. intros pr1.
  apply (seqs_lit (js "&&") _ _ (32 :: _)). intros pr2.
  destruct (conditionText_black cd s) as (y & s' & E & Hy & _). rewrite E. apply seqs_ws; [done|]. intros pr3.
  rewrite <- E, seqs_cons. apply condition_some; [done|done|]. intros pr4. rewrite seqs_nil. apply H.
Qed.

(** A space that no conjunction follows. *)
Lemma and_fails rs pr x y s c k :
  is_space x = true -> is_space y = false -> (y =? 38) = false -> m (seqs (ws :: Lit (js "&&") :: rs)) (pr, x :: y :: s) c k = None.
Proof.
  intros Hx Hy Hn. rewrite seqs_cons, ws_one by done. rewrite !seqs_cons.
  rewrite !m_Lit_fail; [done| |]; change (js "&&") with [38; 38]; cbn [snd startsWith].
  - destruct (38 =? x) eqn:E; [|done]. bool_hyps. subst x. done.
  - destruct (38 =? y) eqn:E; [|done]. bool_hyps. lia.
Qed.

Lemma more_some cds fuel pr s c k r :
  Forall cond_ok cds -> (length cds <= fuel)%nat -> (forall pr', k (pr', 32 :: 63 :: s) c = Some r) ->
  repeat_greedy (m and_condition) fuel (pr, moreText cds ++ 32 :: 63 :: s) c k = Some r.
Proof.
  intros Hc. revert fuel pr. induction Hc as [|cd cds Hcd _ IH]; intros fuel pr Hf H.
  - destruct fuel; cbn [repeat_greedy]; [apply H|]. change (moreText []) with (@nil Z). cbn [app].
    rewrite and_fails by done. apply H.
  - destruct fuel as [|fuel]; [cbn in Hf; lia|]. cbn [repeat_greedy]. unfold moreText. cbn [map concat].
    fold (moreText cds). rewrite <- !app_assoc.
    rewrite (and_condition_some cd pr (moreText cds ++ 32 :: 63 :: s) c _ r); [done|done| |].
    + destruct cds; done.
    + intros pr'. cbn [snd]. rewrite (proj2 (Nat.ltb_lt _ _)).
      * apply IH; [cbn in Hf; lia|done].
      * rewrite !length_app. change (length (js " && ")) with 4%nat. lia.
Qed.

Lemma moreText_length cds : (length cds <= length (moreText cds))%nat.
Proof.
  induction cds as [|cd cds IH]; [done|]. unfold moreText in *. cbn [map concat]. rewrite !length_app.
  change (length (js " && ")) with 4%nat. cbn [length]. lia.
Qed.

Definition condsText (cd : TierConditionInput) (cds : list TierConditionInput) : jsstr :=
  conditionText cd ++ moreText cds.

Lemma condGroup_some cd cds pr s c k r :
  Forall cond_ok (cd :: cds) -> (forall pr', k (pr', 32 :: 63 :: s) (map_set c 1%nat (condsText cd cds)) = Some r) ->
  m condGroup (pr, condsText cd cds ++ 32 :: 63 :: s) c k = Some r.
Proof.
  intros Hc H. inversion_clear Hc as [|? ? Hcd Hcds]. apply grp_some. rewrite m_Seq. unfold condsText at 1.
  rewrite <- app_assoc. apply condition_some; [done| |].
  - destruct cds; done.
  - intros pr1. change (repeat_greedy (m and_condition) (length (moreText cds ++ 32 :: 63 :: s))
      (pr1, moreText cds ++ 32 :: 63 :: s) c
      (fun p' c' => k p' (map_set c' 1%nat (take (length (condsText cd cds ++ 32 :: 63 :: s) - length p'.2)
                                            (condsText cd cds ++ 32 :: 63 :: s)))) = Some r).
    apply more_some; [done| |].
    + rewrite length_app. pose proof (moreText_length cds). lia.
    + intros pr2. cbn [snd]. rewrite take_back. apply H.
Qed.

Lemma opt_condition_some cd cds pr y s c k r :
  Forall cond_ok (cd :: cds) -> is_space y = false ->
  (forall pr', k (pr', y :: s) (map_set c 1%nat (condsText cd cds)) = Some r) ->
  m opt_condition (pr, condsText cd cds ++ js " ? " ++ y :: s) c k = Some r.
Proof.
  intros Hc Hy H. change (js " ? ") with [32; 63; 32]. cbn [app]. apply m_Opt_some. rewrite seqs_cons.
  apply condGroup_some; [done|]. intros pr1. apply seqs_ws; [done|]. intros pr2.
  apply (seqs_lit (js "?") _ _ (32 :: _)). intros pr3. apply seqs_ws; [done|]. intros pr4. rewrite seqs_nil. apply H.
Qed.

(** Where no condition starts. *)
Definition not_var (x : Z) : bool := negb (bool_decide (x ∈ [112; 99; 108])).

Lemma opt_condition_skip pr x s c k :
  not_var x = true -> m opt_condition (pr, x :: s) c k = k (pr, x :: s) c.
Proof.
  intros Hx. apply m_Opt_none. rewrite seqs_cons.
  unfold condGroup. rewrite m_Grp, m_Seq. unfold condition_re. rewrite seqs_cons. unfold var_re, alts. cbn [fold_left].
  unfold not_var in Hx. apply negb_true_iff, bool_decide_eq_false in Hx.
  assert (forall w k', head w ∈ [Some 112; Some 99; Some 108] -> m (Lit w) (pr, x :: s) c k' = None) as Hl.
  { intros w k' Hw. apply m_Lit_fail. cbn [snd]. destruct w as [|a w]; [set_solver|]. cbn [head] in Hw. cbn [startsWith].
    destruct (a =? x) eqn:E; [|done]. bool_hyps. subst a. exfalso. apply Hx. set_solver. }
  rewrite m_Alt_r; [apply Hl; set_solver|]. rewrite m_Alt_r; apply Hl; set_solver.
Qed.
End Runs.

End TierExprFacts.
