(* ===== verification/TierExprProperties.v ===== *)
(** * Properties of tiers

    The visual editor of tiered prices: the expression it writes is read back
    as the same tiers, by the editor and by the price breakdown. *)

From S2P Require Import Prelude JsString JsCollections Json JsonNumber JsonText JsValue BillingExpr BillingExprFacts Regex TierExpr TierExprFacts.
Import Json JsValue Regex TierExpr TierExprFacts.

Module TierExprProperties.

(** ** Tiers that can be written *)

Definition conds (t : VisualTier) : list TierConditionInput := conditions t ?? [].
Definition price (t : VisualTier) (f : jsstr) : jnum := cost (map_get (costs t) f).

(** A label without quotes, prices and bounds that their texts give back. *)
Record tier_ok (t : VisualTier) : Prop := {
  ok_label : exists x l, label t = Some (x :: l) /\ Forall (fun c => BillingExpr.not_quote c = true) (x :: l);
  ok_input : readable (cost (input_unit_cost t));
  ok_output : readable (cost (output_unit_cost t));
  ok_prices : Forall (fun f => readable (price t f)) COST_FIELDS;
  ok_conds : Forall cond_ok (conds t) }.

(** Every tier has conditions, except the last of several, which has none. *)
Fixpoint tiers_ok (tiers : list VisualTier) : Prop :=
  match tiers with
  | [] => False
  | [t] => tier_ok t /\ conds t = []
  | t :: tiers' => tier_ok t /\ conds t <> [] /\ tiers_ok tiers'
  end.

(** ** The text of a tier *)

Lemma join_concat sep x xs : join sep (x :: xs) = x ++ concat (map (fun y => sep ++ y) xs).
Proof.
  revert x. induction xs as [|y xs IH]; intros x; [by cbn; rewrite app_nil_r|].
  change (join sep (x :: y :: xs)) with (x ++ sep ++ join sep (y :: xs)). rewrite IH. cbn [map concat].
  by rewrite <- app_assoc.
Qed.

Lemma cond_has_value cds : Forall cond_ok cds -> List.filter has_value cds = cds.
Proof.
  intros H. induction H as [|cd cds (n & Hv & _) _ IH]; [done|]. cbn [List.filter]. unfold has_value at 1.
  by rewrite Hv, IH.
Qed.

Lemma buildConditionStr_text t cd cds :
  conds t = cd :: cds -> Forall cond_ok (conds t) -> buildConditionStr (conditions t) = condsText cd cds.
Proof.
  intros E H. unfold buildConditionStr. fold (conds t). rewrite cond_has_value, E by done. cbn [map].
  rewrite join_concat. unfold condsText, moreText. by rewrite map_map.
Qed.

Lemma buildConditionStr_nil t : conds t = [] -> buildConditionStr (conditions t) = [].
Proof. intros E. unfold buildConditionStr. fold (conds t). by rewrite E. Qed.

Lemma buildTierBodyExpr_text t :
  buildTierBodyExpr t = bodyText (cost (input_unit_cost t)) (cost (output_unit_cost t)) (price t).
Proof.
  unfold buildTierBodyExpr. cbn [app]. rewrite join_concat. cbn [map concat]. unfold bodyText. f_equal.
  rewrite <- !app_assoc. do 2 f_equal. unfold extra. clear. induction BILLING_CACHE_VAR_MAP as [|[f v] l IH]; [done|].
  cbn [omap list_omap]. fold (price t f). destruct (mant (price t f) =? 0); [done|]. cbn [map concat].
  rewrite <- !app_assoc. do 2 f_equal. exact IH.
Qed.

Definition labelText (t : VisualTier) : jsstr := label t ?? [].

Definition partText (t : VisualTier) : jsstr :=
  match conds t with [] => [] | cd :: cds => condsText cd cds ++ js " ? " end ++ tierText (labelText t) t.

(** The group of the conditions. *)
Definition cond_caps (t : VisualTier) : captures :=
  match conds t with [] => [] | cd :: cds => [(1%nat, condsText cd cds)] end.

Definition part_caps (t : VisualTier) : captures :=
  tier_caps (labelText t) (cost (input_unit_cost t)) (cost (output_unit_cost t)) (price t) 2 (cond_caps t).

Lemma tierText_split l t s :
  tierText l t ++ s = tierPrefix l ++ bodyText (cost (input_unit_cost t)) (cost (output_unit_cost t)) (price t) ++ 41 :: s.
Proof. unfold tierText, tierPrefix. rewrite buildTierBodyExpr_text, <- !app_assoc. done. Qed.

Lemma prices_readable t f v : tier_ok t -> (f, v) ∈ BILLING_CACHE_VAR_MAP -> mant (price t f) <> 0 -> readable (price t f).
Proof.
  intros Ht Hin _. pose proof (ok_prices t Ht) as Hp. rewrite Forall_forall in Hp. apply Hp.
  assert (BILLING_CACHE_VAR_MAP.*1 = COST_FIELDS) as <- by (by vm_compute).
  apply list_elem_of_fmap. by exists (f, v).
Qed.

Lemma label_quotes t : tier_ok t -> Forall (fun c => BillingExpr.not_quote c = true) (labelText t).
Proof. intros [(x & l & E & H) _ _ _ _]. unfold labelText. by rewrite E. Qed.

(** A pattern that starts like the two tier patterns matches a part when the
    rest of it matches the tier. *)
Lemma part_match_with rs (caps : captures -> captures) t pr s :
  tier_ok t ->
  (forall pr c, m (seqs (tier_head 2 ++ rs)) (pr, tierText (labelText t) t ++ s) c (fun p c => Some (p.2, c))
    = Some (s, caps c)) ->
  exists pr', match_at (seqs (opt_condition :: tier_head 2 ++ rs)) (pr, partText t ++ s) = Some ((pr', s), caps (cond_caps t)).
Proof.
  intros Ht H. apply match_at_some. unfold partText, cond_caps. pose proof (ok_conds t Ht) as Hc.
  rewrite <- app_assoc, seqs_cons. destruct (conds t) as [|cd cds].
  - cbn [app]. change (tierText (labelText t) t ++ s) with (116 :: tail (tierText (labelText t) t ++ s)).
    rewrite opt_condition_skip by done. apply (H pr []).
  - rewrite <- app_assoc. change (tierText (labelText t) t ++ s) with (116 :: tail (tierText (labelText t) t ++ s)).
    apply opt_condition_some; [done|done|]. intros pr'. apply (H pr' [(1%nat, condsText cd cds)]).
Qed.

Lemma part_match t pr s :
  tier_ok t -> exists pr', match_at visualTierRe (pr, partText t ++ s) = Some ((pr', s), part_caps t).
Proof.
  intros Ht. apply (part_match_with (bodyPat 3 ++ [Lit (js ")")])
    (tier_caps (labelText t) (cost (input_unit_cost t)) (cost (output_unit_cost t)) (price t) 2)); [done|].
  intros pr0 c. rewrite tierText_split.
  apply (tier_some (labelText t) _ _ (price t) 2); [by apply label_quotes|apply Ht|apply Ht| |].
  - intros f v. by apply prices_readable.
  - intros pr1. by rewrite seqs_nil.
Qed.

(** ** Scanning the tiers *)

(** No tier starts with this character. *)
Definition not_tier (x : Z) : bool := not_var x && negb (x =? 116).

Lemma not_tier_fails pr x s rs :
  not_tier x = true -> match_at (seqs (opt_condition :: tier_head 2 ++ rs)) (pr, x :: s) = None.
Proof.
  unfold not_tier. intros H. apply andb_true_iff in H as [Hv Ht]. bool_hyps. unfold match_at. rewrite seqs_cons.
  rewrite opt_condition_skip by done. unfold tier_head. cbn [app]. rewrite seqs_cons. apply m_Lit_fail.
  change (jq "tier('") with (116 :: tail (jq "tier('")). cbn [snd startsWith].
  destruct (116 =? x) eqn:E; [|done]. bool_hyps. lia.
Qed.

(** The text of several tiers after a tail that holds none. *)
Definition sepText (tiers : list VisualTier) : jsstr := concat (map (fun t => js " : " ++ partText t) tiers).

Section Scan.
Variables (r : re) (caps : VisualTier -> captures) (tl : jsstr).
Hypothesis Hpart : forall t pr s, tier_ok t -> exists pr', match_at r (pr, partText t ++ s) = Some ((pr', s), caps t).
Hypothesis Hnone : forall pr x s, not_tier x = true -> match_at r (pr, x :: s) = None.
Hypothesis Htl : forall pr, search r pr tl = None.

Lemma exec_more tiers fuel pr :
  Forall tier_ok tiers -> (length tiers < fuel)%nat -> exec_loop r fuel (pr, sepText tiers ++ tl) = map caps tiers.
Proof.
  intros Hok. revert fuel pr. induction Hok as [|t tiers Ht _ IH]; intros fuel pr Hf; destruct fuel as [|fuel];
    try (cbn in Hf; lia).
  - cbn. by rewrite Htl.
  - cbn [exec_loop fst snd]. unfold sepText. cbn [map concat]. fold (sepText tiers). rewrite <- !app_assoc.
    change (js " : ") with [32; 58; 32]. cbn [app].
    do 3 rewrite search_next by (by apply Hnone).
    destruct (Hpart t (Some 32) (sepText tiers ++ tl) Ht) as [pr' Hm].
    rewrite (search_here _ _ _ _ Hm). f_equal. apply IH. cbn in Hf. lia.
Qed.

Lemma sepText_length tiers : (length tiers <= length (sepText tiers))%nat.
Proof.
  induction tiers as [|t tiers IH]; [done|]. unfold sepText in *. cbn [map concat]. rewrite !length_app.
  change (length (js " : ")) with 3%nat. cbn [length]. lia.
Qed.

Lemma exec_parts t tiers :
  Forall tier_ok (t :: tiers) -> exec_all r (partText t ++ sepText tiers ++ tl) = map caps (t :: tiers).
Proof.
  intros Hok. inversion_clear Hok as [|? ? Ht Hts]. unfold exec_all. cbn [exec_loop fst snd].
  destruct (Hpart t None (sepText tiers ++ tl) Ht) as [pr' Hm].
  rewrite (search_here _ _ _ _ Hm). cbn [map]. f_equal. apply exec_more; [done|]. rewrite !length_app.
  pose proof (sepText_length tiers).
  assert (0 < length (partText t))%nat; [|lia].
  unfold partText, tierText. rewrite !length_app. change (length (jq "tier('")) with 6%nat. lia.
Qed.
End Scan.

Lemma tail_nil pr : search visualTierRe pr [] = None.
Proof. destruct pr; by vm_compute. Qed.

Lemma tail_zero pr : search visualTierRe pr (js " : p * 0 + c * 0") = None.
Proof. destruct pr; by vm_compute. Qed.

(** ** Reading the conditions back *)

(** Single spaces that no conjunction follows. *)
Fixpoint tame (u : jsstr) : bool :=
  match u with
  | [] => true
  | x :: u' =>
      negb (x =? 38) && tame u' &&
      (negb (is_space x) || match u' with y :: _ => negb (is_space y) && negb (y =? 38) | [] => false end)
  end.

Lemma and_re_fails x s : is_space x = false -> (x =? 38) = false -> match_at and_re (None, x :: s) = None.
Proof.
  intros Hx Hn. unfold match_at, and_re. rewrite seqs_cons, ws_zero by done. rewrite seqs_cons. apply m_Lit_fail.
  change (js "&&") with [38; 38]. cbn [snd startsWith]. destruct (38 =? x) eqn:E; [|done]. bool_hyps. lia.
Qed.

Lemma split_tame u fuel s cur :
  tame u = true -> (length u <= fuel)%nat -> match u with [] => True | _ => s = [] \/ exists s', s = 32 :: 38 :: s' end ->
  split_re and_re fuel (u ++ s) cur = split_re and_re (fuel - length u) s (cur ++ u).
Proof.
  revert fuel cur. induction u as [|x u IH]; intros fuel cur Ht Hf Hs.
  { rewrite app_nil_r. cbn [app length]. by rewrite Nat.sub_0_r. }
  cbn [tame] in Ht. apply andb_true_iff in Ht as [Ht Hx]. apply andb_true_iff in Ht as [Hn Ht]. bool_hyps.
  destruct fuel as [|fuel]; [cbn in Hf; lia|]. cbn [app split_re length].
  assert (match_at and_re (None, x :: u ++ s) = None) as ->.
  { destruct (is_space x) eqn:E; [|by apply and_re_fails; [|lia]].
    destruct u as [|y u]; [by destruct Hx|]. destruct Hx as [Hx|Hx]; [done|]. bool_hyps. cbn [app].
    apply and_fails; [done|done|lia]. }
  rewrite IH; [|done|cbn in Hf; lia|by destruct u]. replace (S fuel - S (length u))%nat with (fuel - length u)%nat by lia.
  by rewrite <- app_assoc.
Qed.

Lemma black_tame w v :
  Forall (fun x => is_space x = false /\ (x =? 38) = false) w -> tame v = true -> tame (w ++ v) = true.
Proof.
  intros H Hv. induction H as [|x w [Hx Hn] _ IH]; [done|]. cbn [app tame]. by rewrite Hx, Hn, IH.
Qed.

Lemma cond_char_black x : cond_char x = true -> is_space x = false /\ (x =? 38) = false.
Proof.
  intros Hx. split; [by apply BillingExprFacts.num_char_not_space, cond_char_num|].
  destruct (x =? 38) eqn:E; [|done]. bool_hyps. subst x. by vm_compute in Hx.
Qed.

Lemma cond_shape cd :
  cond_ok cd -> exists n x w, c_value cd = VNum (Some n) /\ readable n /\ JsonNumber.num_text n = x :: w /\
    Forall (fun x => cond_char x = true) (x :: w) /\
    conditionText cd = var_text (c_var cd) ++ [32] ++ op_text (c_op cd) ++ [32] ++ x :: w.
Proof.
  intros (n & Hv & Hn & Hc). destruct (cond_value n Hn Hc) as (x & w & E & _). exists n, x, w. rewrite <- E.
  split_and!; [done..|]. unfold conditionText. by rewrite Hv.
Qed.

Lemma conditionText_tame cd : cond_ok cd -> tame (conditionText cd) = true.
Proof.
  intros (n & x & w & _ & _ & _ & Hc & ->)%cond_shape. inversion Hc as [|? ? Hx Hw]; subst.
  assert (tame (x :: w) = true) as Htw.
  { rewrite <- (app_nil_r (x :: w)). apply black_tame; [|done]. eapply Forall_impl; [exact Hc|]. apply cond_char_black. }
  destruct (cond_char_black x Hx) as [Hsx Hnx].
  assert (tame ([32] ++ x :: w) = true) as H1.
  { cbn [app]. change (tame (32 :: x :: w)) with
      (negb (32 =? 38) && tame (x :: w) && (negb (is_space 32) || (negb (is_space x) && negb (x =? 38)))).
    by rewrite Htw, Hsx, Hnx. }
  assert (tame (op_text (c_op cd) ++ [32] ++ x :: w) = true) as H2
    by (apply black_tame; [destruct (c_op cd); by repeat constructor|done]).
  apply black_tame; [destruct (c_var cd); by repeat constructor|].
  destruct (c_op cd); cbn [op_text] in *; cbn [app tame] in *; by rewrite H2.
Qed.

Lemma and_re_match cd s : exists pr, match_at and_re (None, js " && " ++ conditionText cd ++ s) = Some ((pr, conditionText cd ++ s), []).
Proof.
  apply match_at_some. destruct (conditionText_black cd s) as (y & s' & E & Hy & _). rewrite E.
  change (js " && ") with [32; 38; 38; 32]. cbn [app]. apply seqs_ws; [done|]. intros pr1.
  apply (seqs_lit (js "&&") _ _ (32 :: _)). intros pr2. apply seqs_ws; [done|]. intros pr3. by rewrite seqs_nil.
Qed.

Lemma split_conds cds cd fuel :
  Forall cond_ok (cd :: cds) -> (length (condsText cd cds) < fuel)%nat ->
  split_re and_re fuel (condsText cd cds) [] = map conditionText (cd :: cds).
Proof.
  revert cd fuel. induction cds as [|cd' cds IH]; intros cd fuel Hok Hf; inversion_clear Hok as [|? ? Hcd Hcds].
  - unfold condsText in *. change (moreText []) with (@nil Z) in *. rewrite length_app in Hf.
    rewrite split_tame; [|by apply conditionText_tame|lia|by destruct (conditionText cd); [|left]].
    destruct (fuel - length (conditionText cd))%nat eqn:E; [cbn in Hf; lia|done].
  - unfold condsText in Hf |- *. rewrite length_app in Hf.
    rewrite split_tame; [|by apply conditionText_tame|lia|destruct (conditionText cd); [done|right; by eexists]].
    destruct (fuel - length (conditionText cd))%nat as [|fuel'] eqn:E; [lia|]. cbn [split_re app].
    unfold moreText. cbn [map concat]. fold (moreText cds). rewrite <- app_assoc.
    destruct (and_re_match cd' (moreText cds)) as [pr ->]. f_equal.
    fold (condsText cd' cds). apply IH; [done|].
    unfold moreText in Hf. cbn [map concat] in Hf. fold (moreText cds) in Hf. rewrite !length_app in Hf.
    change (length (js " && ")) with 4%nat in Hf. unfold condsText. rewrite length_app. lia.
Qed.

Lemma parseCondition_text cd : cond_ok cd -> parseCondition (conditionText cd) = Some cd.
Proof.
  intros Hok. pose proof (cond_shape cd Hok) as (n & x & w & Hv & Hn & E & Hc & Ht).
  assert (Forall (fun c => BillingExpr.num_char c = true) (x :: w)) as Hnum
    by (eapply Forall_impl; [exact Hc|]; apply cond_char_num).
  unfold parseCondition.
  assert (trim (conditionText cd) = conditionText cd) as ->.
  { apply BillingExprFacts.trim_ends; rewrite Ht.
    - destruct (c_var cd); done.
    - do 4 apply BillingExprFacts.end_ok_app. apply BillingExprFacts.num_start; [|by apply Forall_rev].
      intros Hr. apply (f_equal length) in Hr. by rewrite length_rev in Hr. }
  assert (exists pr, match_at one_condition (None, conditionText cd)
    = Some ((pr, []), [(1%nat, var_text (c_var cd)); (2%nat, op_text (c_op cd)); (3%nat, x :: w)])) as [pr Hm].
  { apply match_at_some. rewrite Ht. unfold one_condition. rewrite seqs_cons. cbn [m fst].
    change ([32] ++ op_text (c_op cd) ++ [32] ++ x :: w) with (32 :: op_text (c_op cd) ++ 32 :: x :: w).
    rewrite seqs_cons. apply grp_some, var_some. intros pr1. cbn [snd]. rewrite take_back. cbn [map_set].
    assert (exists y s', op_text (c_op cd) ++ 32 :: x :: w = y :: s' /\ is_space y = false) as (y & s' & Eo & Hy)
      by (destruct (c_op cd); by eexists _, _).
    rewrite Eo. apply seqs_ws; [done|]. intros pr2. rewrite <- Eo, seqs_cons. apply grp_some, op_some.
    - intros pr3. cbn [snd]. rewrite take_back. apply seqs_ws.
      { inversion Hnum; subst. by apply BillingExprFacts.num_char_not_space. }
      intros pr4. rewrite <- (app_nil_r (x :: w)) at 1. apply seqs_grp_plus; [done|done|done|]. intros pr5.
      cbn [seqs foldr]. done.
    - intros pr3. apply value_fails. intros k'. rewrite m_Grp. by apply plus_cls_fail. }
  unfold match_. rewrite (search_here _ _ _ _ Hm). cbn [fmap option_fmap option_map snd mbind option_bind group].
  change (group _ 1) with (Some (var_text (c_var cd))). change (group _ 2) with (Some (op_text (c_op cd))).
  change (group _ 3) with (Some (x :: w)). cbn [mbind option_bind or_empty].
  assert (var_of (var_text (c_var cd)) = Some (c_var cd)) as -> by (by destruct (c_var cd)).
  assert (op_of (op_text (c_op cd)) = Some (c_op cd)) as -> by (by destruct (c_op cd)).
  cbn [mbind option_bind]. rewrite <- E, Hn, <- Hv. by destruct cd.
Qed.

Lemma parseConditions_text cd cds : Forall cond_ok (cd :: cds) -> parseConditions (condsText cd cds) = cd :: cds.
Proof.
  intros Hok. unfold parseConditions.
  assert (truthy (condsText cd cds) = true) as -> by (unfold condsText, conditionText; by destruct (c_var cd)).
  rewrite split_conds by (done || lia). clear -Hok. induction Hok as [|c cs Hc _ IH]; [done|].
  cbn [map omap list_omap]. rewrite parseCondition_text by done. f_equal. exact IH.
Qed.

(** ** Reading a tier back *)

Lemma extra_caps_below g l i c j : (j < i)%nat -> map_get (extra_caps g i l c) j = map_get c j.
Proof.
  revert i c. induction l as [|[f v] l IH]; intros i c Hj; [done|]. cbn [extra_caps]. rewrite IH by lia.
  case_match; [done|]. apply map_get_set_ne. lia.
Qed.

Lemma extra_caps_at g l i c n f v :
  l !! n = Some (f, v) ->
  map_get (extra_caps g i l c) (i + n)%nat
  = if mant (g f) =? 0 then map_get c (i + n)%nat else Some (JsonNumber.num_text (g f)).
Proof.
  revert i c n. induction l as [|[f' v'] l IH]; intros i c n Hl; [done|]. destruct n as [|n]; cbn in Hl.
  - injection Hl as -> ->. cbn [extra_caps]. rewrite Nat.add_0_r, extra_caps_below by lia.
    case_match; [done|]. apply map_get_set_eq.
  - cbn [extra_caps]. rewrite <- Nat.add_succ_comm, (IH (S i) _ n Hl). case_match; [|done]. case_match; [done|].
    apply map_get_set_ne. lia.
Qed.

Section TierCaps.
Variables (l : jsstr) (a b : jnum) (g : jsstr -> jnum) (i : nat) (c : captures).

Lemma tier_caps_below j : (j < i)%nat -> group (tier_caps l a b g i c) j = group c j.
Proof.
  intros Hj. unfold group, tier_caps, body_caps. rewrite extra_caps_below by lia. by rewrite !map_get_set_ne by lia.
Qed.

Lemma tier_caps_label : group (tier_caps l a b g i c) i = Some l.
Proof.
  unfold group, tier_caps, body_caps. rewrite extra_caps_below by lia. rewrite !map_get_set_ne by lia.
  apply map_get_set_eq.
Qed.

Lemma tier_caps_input : group (tier_caps l a b g i c) (i + 1)%nat = Some (JsonNumber.num_text a).
Proof.
  unfold group, tier_caps, body_caps. rewrite extra_caps_below by lia. rewrite map_get_set_ne by lia.
  apply map_get_set_eq.
Qed.

Lemma tier_caps_output : group (tier_caps l a b g i c) (i + 2)%nat = Some (JsonNumber.num_text b).
Proof.
  unfold group, tier_caps, body_caps. rewrite extra_caps_below by lia.
  replace (i + 2)%nat with (i + 1 + 1)%nat by lia. apply map_get_set_eq.
Qed.

Lemma tier_caps_extra n f v :
  group c (i + 3 + n)%nat = None -> BILLING_CACHE_VAR_MAP !! n = Some (f, v) ->
  group (tier_caps l a b g i c) (i + 3 + n)%nat = if mant (g f) =? 0 then None else Some (JsonNumber.num_text (g f)).
Proof.
  unfold group, tier_caps, body_caps. intros Hc Hn. replace (i + 3 + n)%nat with (i + 1 + 2 + n)%nat in * by lia.
  rewrite (extra_caps_at _ _ _ _ n f v Hn). case_match; [|done]. by rewrite !map_get_set_ne by lia.
Qed.
End TierCaps.

(** The prices of a matched tier, one by one. *)
Definition costsOf (get : nat -> option jsstr) (l : list (jsstr * jsstr)) : list (jsstr * option jnum) :=
  omap id (imap (fun n fv => (fun t => (fv.1, num_of_text t)) <$> get n) l).

Lemma costsOf_cons get fv l :
  costsOf get (fv :: l) =
  match get 0%nat with Some t => (fv.1, num_of_text t) :: costsOf (get ∘ S) l | None => costsOf (get ∘ S) l end.
Proof. unfold costsOf. rewrite imap_cons. by destruct (get 0%nat). Qed.

Lemma costs_get (get : nat -> option jsstr) (g : jsstr -> jnum) (l : list (jsstr * jsstr)) f :
  NoDup l.*1 -> (forall n f v, l !! n = Some (f, v) -> readable (g f) /\
    get n = if mant (g f) =? 0 then None else Some (JsonNumber.num_text (g f))) ->
  map_get (costsOf get l) f
  = if decide (f ∈ l.*1) then (if mant (g f) =? 0 then None else Some (Some (g f))) else None.
Proof.
  revert get. induction l as [|[f' v'] l IH]; intros get Hn Hg; [done|].
  rewrite fmap_cons in Hn |- *. apply NoDup_cons in Hn as [Hf Hn]. cbn [fst] in *.
  rewrite costsOf_cons. destruct (Hg 0%nat f' v' eq_refl) as [Hr H0]. rewrite H0. cbn [fst].
  assert (map_get (costsOf (get ∘ S) l) f
    = if decide (f ∈ l.*1) then (if mant (g f) =? 0 then None else Some (Some (g f))) else None) as IH'.
  { apply (IH (get ∘ S) Hn). intros n f0 v0 Hl. by apply (Hg (S n) f0 v0). }
  destruct (decide (f = f')) as [->|Hne].
  - rewrite decide_True by set_solver. rewrite decide_False in IH' by done.
    destruct (mant (g f') =? 0); [exact IH'|]. cbn [map_get]. rewrite decide_True by done. by rewrite Hr.
  - transitivity (map_get (costsOf (get ∘ S) l) f).
    + destruct (mant (g f') =? 0); [done|]. cbn [map_get]. by rewrite decide_False.
    + rewrite IH'. destruct (decide (f ∈ l.*1)); [by rewrite decide_True by set_solver|by rewrite decide_False by set_solver].
Qed.

Lemma or_zero_idemp v : or_zero (Some (or_zero v)) = or_zero v.
Proof. destruct v as [n|]; [|done]. cbn. destruct (mant n =? 0) eqn:E; [done|]. cbn. by rewrite E. Qed.

Lemma price_zero t f : mant (price t f) = 0 -> price t f = zero.
Proof.
  unfold price, cost, or_zero. case_match; [|done]. case_match; [done|]. bool_hyps. lia.
Qed.

(** The same tier, as far as the expression shows it. *)
Record sameTier (t t' : VisualTier) : Prop := {
  same_label : label t' = label t;
  same_conds : conditions t' = Some (conds t);
  same_input : cost (input_unit_cost t') = cost (input_unit_cost t);
  same_output : cost (output_unit_cost t') = cost (output_unit_cost t);
  same_prices : forall f, f ∈ COST_FIELDS -> price t' f = price t f }.

Lemma sameTier_normalize t t' : sameTier t t' -> is_Some (label t) -> sameTier t (normalizeVisualTier t').
Proof.
  intros [Hl Hc Hi Ho Hp] [l Es]. split.
  - cbn. by rewrite Hl, Es.
  - cbn. by rewrite Hc.
  - rewrite <- Hi. cbn. by destruct (input_unit_cost t').
  - rewrite <- Ho. cbn. by destruct (output_unit_cost t').
  - intros f Hf. rewrite <- (Hp f Hf). unfold price. cbn [normalizeVisualTier costs].
    rewrite (fold_set_get id _ (fun f => Some (cost (map_get (costs t') f)))) by done.
    rewrite decide_True by (by rewrite list_fmap_id). unfold cost. cbn [mbind option_bind id]. apply or_zero_idemp.
Qed.

Lemma matched_same t i c :
  tier_ok t -> (forall n, group c (i + 3 + n)%nat = None) ->
  sameTier t (matchedTier (tier_caps (labelText t) (cost (input_unit_cost t)) (cost (output_unit_cost t)) (price t) i c)
    i (conds t)).
Proof.
  intros Ht Hc. unfold matchedTier. rewrite tier_caps_label, tier_caps_input, tier_caps_output.
  destruct Ht as [(x & l & El & _) Hi Ho Hp _]. split; cbn [label conditions input_unit_cost output_unit_cost costs or_empty].
  - unfold labelText. by rewrite El.
  - done.
  - rewrite Hi. apply or_zero_idemp.
  - rewrite Ho. apply or_zero_idemp.
  - intros f Hf. unfold price at 1. cbn [costs].
    assert (BILLING_CACHE_VAR_MAP.*1 = COST_FIELDS) as Hfields by (by vm_compute).
    match goal with |- cost (map_get ?cs f) = _ =>
      change cs with (costsOf (fun n => group (tier_caps (labelText t) (cost (input_unit_cost t))
        (cost (output_unit_cost t)) (price t) i c) (i + 3 + n)%nat) BILLING_CACHE_VAR_MAP) end.
    rewrite (costs_get _ (price t)).
    + rewrite Hfields, decide_True by done. destruct (mant (price t f) =? 0) eqn:E; bool_hyps.
      * symmetry. by apply price_zero.
      * apply or_zero_idemp.
    + rewrite Hfields. by apply (bool_decide_unpack _); vm_compute.
    + intros n f' v' Hn. split; [|by eapply tier_caps_extra].
      rewrite Forall_forall in Hp. apply Hp. rewrite <- Hfields. apply list_elem_of_fmap.
      exists (f', v'). split; [done|]. by eapply list_elem_of_lookup_2.
Qed.

Lemma cond_caps_conds t : tier_ok t -> parseConditions (or_empty (group (cond_caps t) 1)) = conds t.
Proof.
  intros Ht. pose proof (ok_conds t Ht) as Hc. unfold cond_caps. destruct (conds t) as [|cd cds]; [done|]. cbn.
  by apply parseConditions_text.
Qed.

(** The tiers of a match of the whole expression. *)
Lemma part_same t :
  tier_ok t ->
  sameTier t (normalizeVisualTier (matchedTier (part_caps t) 2 (parseConditions (or_empty (group (part_caps t) 1))))).
Proof.
  intros Ht. apply sameTier_normalize; [|destruct Ht as [(x & l & -> & _) _ _ _ _]; by eexists].
  unfold part_caps. rewrite tier_caps_below by lia.
  rewrite cond_caps_conds by done. apply matched_same; [done|]. intros n. unfold cond_caps. by destruct (conds t).
Qed.

(** ** The generator sees only that *)

Lemma extra_ext g g' l : (forall f v, (f, v) ∈ l -> g f = g' f) -> extra g l = extra g' l.
Proof.
  unfold extra. induction l as [|[f v] l IH]; intros H; [done|]. cbn [omap list_omap]. rewrite (H f v) by (by left).
  assert (forall f v, (f, v) ∈ l -> g f = g' f) as H' by (intros f' v' Hin; apply (H f' v'); by right).
  case_match; cbn [concat]; by rewrite IH.
Qed.

Lemma same_tierText l t t' : sameTier t t' -> tierText l t' = tierText l t.
Proof.
  intros [_ _ Hi Ho Hp]. unfold tierText. rewrite !buildTierBodyExpr_text, Hi, Ho. unfold bodyText.
  rewrite (extra_ext (price t') (price t)); [done|]. intros f v Hin. apply Hp.
  assert (BILLING_CACHE_VAR_MAP.*1 = COST_FIELDS) as <- by (by vm_compute). apply list_elem_of_fmap. by exists (f, v).
Qed.

Lemma same_condition t t' : sameTier t t' -> buildConditionStr (conditions t') = buildConditionStr (conditions t).
Proof. intros [_ Hc _ _ _]. rewrite Hc. done. Qed.

Lemma same_parts i tiers tiers' : Forall2 sameTier tiers tiers' -> tierParts i tiers' = tierParts i tiers.
Proof.
  intros H. revert i. induction H as [|t t' ts ts' Ht Hts IH]; intros i; [done|]. cbn [tierParts].
  rewrite (same_label t t' Ht), (same_tierText _ t t' Ht), (same_condition t t' Ht), IH.
  by rewrite (Forall2_length _ _ _ Hts).
Qed.

Lemma same_generate tiers tiers' :
  Forall2 sameTier tiers tiers' -> generateExprFromVisualConfig (Some tiers') = generateExprFromVisualConfig (Some tiers).
Proof.
  intros H. destruct H as [|t t' ts ts' Ht Hts]; [done|]. destruct Hts as [|u u' us us' Hu Hus].
  - cbn [generateExprFromVisualConfig]. by rewrite (same_label t t' Ht), (same_tierText _ t t' Ht), (same_condition t t' Ht).
  - cbn [generateExprFromVisualConfig]. rewrite (same_parts 0 (t :: u :: us) (t' :: u' :: us')); [done|].
    constructor; [done|by constructor].
Qed.

(** ** The whole expression *)

Lemma partText_cond t cd cds :
  conds t = cd :: cds -> tier_ok t ->
  buildConditionStr (conditions t) = condsText cd cds /\ truthy (condsText cd cds) = true.
Proof.
  intros E Ht. split; [apply buildConditionStr_text; [done|apply Ht]|]. unfold condsText, conditionText.
  by destruct (c_var cd).
Qed.

Lemma or_label_text t d : tier_ok t -> or_label (label t) d = labelText t.
Proof. intros [(x & l & E & _) _ _ _ _]. unfold or_label, labelText. by rewrite E. Qed.

Lemma tierParts_text i tiers : tiers_ok tiers -> tierParts i tiers = map partText tiers.
Proof.
  revert i. induction tiers as [|t tiers IH]; intros i H; [done|]. destruct tiers as [|u tiers].
  - destruct H as [Ht Hc]. cbn [tierParts map length Nat.eqb negb andb]. rewrite or_label_text by done.
    unfold partText. by rewrite Hc.
  - destruct H as (Ht & Hc & Hok).
    change (tierParts i (t :: u :: tiers)) with
      ((if negb (length (u :: tiers) =? 0)%nat && truthy (buildConditionStr (conditions t))
        then buildConditionStr (conditions t) ++ js " ? " ++
             tierText (or_label (label t) (js "tier_" ++ showZ (Z.of_nat i + 1))) t
        else tierText (or_label (label t) (js "tier_" ++ showZ (Z.of_nat i + 1))) t)
       :: tierParts (S i) (u :: tiers)).
    rewrite IH by done. cbn [map]. f_equal. rewrite or_label_text by done. unfold partText.
    destruct (conds t) as [|cd cds] eqn:E; [done|]. destruct (partText_cond t cd cds E Ht) as [-> ->].
    cbn [length Nat.eqb negb andb]. by rewrite <- app_assoc.
Qed.

Lemma tiers_ok_all tiers : tiers_ok tiers -> Forall tier_ok tiers.
Proof.
  induction tiers as [|t tiers IH]; [done|]. destruct tiers as [|u tiers]; intros H.
  - constructor; [apply H|constructor].
  - constructor; [apply H|]. apply IH, H.
Qed.

Lemma generate_text t tiers :
  tiers_ok (t :: tiers) -> generateExprFromVisualConfig (Some (t :: tiers)) = partText t ++ sepText tiers.
Proof.
  intros H. destruct tiers as [|u tiers].
  - destruct H as [Ht Hc]. cbn [generateExprFromVisualConfig]. rewrite buildConditionStr_nil by done.
    rewrite or_label_text by done. unfold partText, sepText. rewrite Hc. cbn. by rewrite app_nil_r.
  - cbn [generateExprFromVisualConfig]. rewrite tierParts_text by done. cbn [map]. rewrite join_concat.
    unfold sepText. f_equal. cbn [map concat]. by rewrite map_map.
Qed.

Lemma generate_single t :
  tier_ok t -> conds t <> [] ->
  generateExprFromVisualConfig (Some [t]) = partText t ++ sepText [] ++ js " : p * 0 + c * 0".
Proof.
  intros Ht Hc. cbn [generateExprFromVisualConfig]. rewrite or_label_text by done.
  destruct (conds t) as [|cd cds] eqn:E; [done|]. destruct (partText_cond t cd cds E Ht) as [-> ->].
  unfold partText, sepText. rewrite E. cbn [map concat app]. by rewrite <- !app_assoc.
Qed.

(** The first character of a part. *)
Lemma part_head t s : tier_ok t -> exists x s', partText t ++ s = x :: s' /\ (118 =? x) = false /\
  (conds t <> [] -> (116 =? x) = false).
Proof.
  intros Ht. unfold partText. destruct (conds t) as [|cd cds].
  - by eexists _, _.
  - unfold condsText, conditionText. destruct (c_var cd); by eexists _, _.
Qed.

Lemma strip_none x s : (118 =? x) = false -> (BillingExpr.stripExprVersion (x :: s)).2 = x :: s.
Proof.
  intros H. unfold BillingExpr.stripExprVersion, BillingExpr.lit. change (js "v") with [118]. cbn [startsWith].
  by rewrite H.
Qed.

Lemma search_bol rs ch s : search (seqs (Bol :: rs)) (Some ch) s = None.
Proof. revert ch. induction s as [|x s IH]; intros ch; [done|]. apply IH. Qed.

Lemma single_none x s : (116 =? x) = false -> match_ singleRe (x :: s) = None.
Proof.
  intros H. unfold match_, singleRe. rewrite search_next.
  - by rewrite search_bol.
  - unfold match_at. rewrite seqs_cons. cbn [m fst]. unfold tier_head. cbn [app]. rewrite seqs_cons. apply m_Lit_fail.
    change (jq "tier('") with (116 :: tail (jq "tier('")). cbn [snd startsWith]. by rewrite H.
Qed.

Lemma single_match t :
  tier_ok t -> match_ singleRe (tierText (labelText t) t)
  = Some (tier_caps (labelText t) (cost (input_unit_cost t)) (cost (output_unit_cost t)) (price t) 1 []).
Proof.
  intros Ht. unfold match_.
  destruct (match_at_some singleRe None (tierText (labelText t) t) []
    (tier_caps (labelText t) (cost (input_unit_cost t)) (cost (output_unit_cost t)) (price t) 1 [])) as [pr Hm].
  - unfold singleRe. rewrite seqs_cons. cbn [m fst]. rewrite <- (app_nil_r (tierText _ _)), tierText_split.
    apply (tier_some (labelText t) _ _ (price t) 1); [by apply label_quotes|apply Ht|apply Ht| |].
    + intros f v. by apply prices_readable.
    + intros pr1. done.
  - by rewrite (search_here _ _ _ _ Hm).
Qed.

Definition readTier (m : captures) : VisualTier :=
  normalizeVisualTier (matchedTier m 2 (parseConditions (or_empty (group m 1)))).

Lemma read_parts tiers : Forall tier_ok tiers ->
  Forall2 sameTier tiers (map readTier (map part_caps tiers)) /\
  Forall2 sameTier tiers (map normalizeVisualTier (map readTier (map part_caps tiers))).
Proof.
  intros H. induction H as [|t tiers Ht _ [IH1 IH2]]; [by split; constructor|]. cbn [map].
  pose proof (part_same t Ht) as Hs. split; constructor; [done|done| |done].
  apply sameTier_normalize; [done|]. destruct Ht as [(x & l & -> & _) _ _ _ _]. by eexists.
Qed.

(** An expression that does not start with a tier is scanned. *)
Lemma scanned t tiers tl :
  Forall tier_ok (t :: tiers) -> conds t <> [] -> (forall pr, search visualTierRe pr tl = None) ->
  generateExprFromVisualConfig (Some (t :: tiers)) = partText t ++ sepText tiers ++ tl ->
  exists cfg, tryParseVisualConfig (Some (generateExprFromVisualConfig (Some (t :: tiers)))) = Some cfg /\
    Forall2 sameTier (t :: tiers) cfg.
Proof.
  intros Hok Hc Htl Hg. inversion Hok as [|? ? Ht _]; subst.
  destruct (part_head t (sepText tiers ++ tl) Ht) as (x & s & Ex & Hv & Htx).
  destruct (read_parts (t :: tiers) Hok) as [Hr Hn].
  exists (map normalizeVisualTier (map readTier (map part_caps (t :: tiers)))). split; [|done].
  unfold tryParseVisualConfig. cbn [or_empty]. rewrite Hg, Ex. cbn [truthy negb]. rewrite strip_none by done.
  rewrite single_none by (by apply Htx). rewrite <- Ex.
  assert (exec_all visualTierRe (partText t ++ sepText tiers ++ tl) = map part_caps (t :: tiers)) as ->.
  { apply exec_parts; [intros; by apply part_match|intros; by apply not_tier_fails|done|done]. }
  change (map (fun m => normalizeVisualTier (matchedTier m 2 (parseConditions (or_empty (group m 1))))))
    with (map readTier).
  cbn [map length Nat.eqb normalizeVisualConfig].
  rewrite bool_decide_eq_true_2; [done|]. f_equal. etrans; [apply (same_generate _ _ Hn)|exact Hg].
Qed.

(** A configuration that the editor can write: several tiers, the last without
    conditions, or a single tier. *)
Definition visual_ok (tiers : list VisualTier) : Prop :=
  tiers_ok tiers \/ exists t, tiers = [t] /\ tier_ok t /\ conds t <> [].

(** What the generator writes is read back as the same tiers. *)
Lemma generated_read tiers :
  visual_ok tiers ->
  exists cfg, tryParseVisualConfig (Some (generateExprFromVisualConfig (Some tiers))) = Some cfg /\
    Forall2 sameTier tiers cfg.
Proof.
  intros [H|(t & -> & Ht & Hc)].
  - destruct tiers as [|t tiers]; [done|]. pose proof (tiers_ok_all _ H) as Hall.
    destruct tiers as [|u tiers].
    + destruct H as [Ht Hc]. rewrite generate_text by done. unfold partText, sepText. rewrite Hc. cbn [app map concat].
      rewrite app_nil_r. unfold tryParseVisualConfig. cbn [or_empty].
      change (tierText (labelText t) t) with (116 :: tail (tierText (labelText t) t)) at 1.
      cbn [truthy negb]. change (tierText (labelText t) t) with (116 :: tail (tierText (labelText t) t)) at 1.
      rewrite strip_none by done.
      change (116 :: tail (tierText (labelText t) t)) with (tierText (labelText t) t).
      rewrite single_match by done. eexists. split; [done|]. constructor; [|constructor].
      assert (is_Some (label t)) as Hl by (destruct Ht as [(x & l & -> & _) _ _ _ _]; by eexists).
      do 2 (apply sameTier_normalize; [|done]). rewrite <- Hc. apply matched_same; [done|]. done.
    + apply (scanned t (u :: tiers) []); [done|apply H|apply tail_nil|]. rewrite generate_text by done.
      by rewrite app_nil_r.
  - apply (scanned t [] (js " : p * 0 + c * 0")); [by constructor|done|apply tail_zero|].
    by apply generate_single.
Qed.

(** the expression that the editor of tiered prices writes is read back by
    the editor as the same tiers: the labels, the conditions in their order
    and every price, whatever prices of the cache and the media a tier has. *)
Theorem visual_config_roundtrip tiers :
  visual_ok tiers ->
  exists cfg, tryParseVisualConfig (Some (generateExprFromVisualConfig (Some tiers))) = Some cfg /\
    Forall2 sameTier tiers cfg.
Proof. apply generated_read. Qed.

(** Two tiers: up to 200000 tokens with a price for the hourly cache, and the
    rest. *)
Definition shortTier : VisualTier :=
  mkTier (Some (js "short")) (Some [mkCond VarLen Le (VNum (Some (mkNum 200000 0))); mkCond VarP Gt (VNum (Some (mkNum 5 0)))])
    (Some (Some (mkNum 25 (-1)))) (Some (Some (mkNum 3 0))) None [(js "cache_create_1h_unit_cost", Some (mkNum 7 0))].
Definition longTier : VisualTier :=
  mkTier (Some (js "long")) None (Some (Some (mkNum 5 0))) (Some (Some (mkNum 6 0))) None
    [(js "image_output_unit_cost", Some (mkNum 7 (-7)))].

Lemma sample_cond_ok v o n : readable n -> forallb cond_char (JsonNumber.num_text n) = true -> cond_ok (mkCond v o (VNum (Some n))).
Proof.
  intros Hn Hc. exists n. split_and!; [done|done|]. rewrite forallb_forall in Hc. apply Forall_forall.
  intros x Hx. by apply Hc, list_elem_of_In.
Qed.

Lemma sample_ok : visual_ok [shortTier; longTier].
Proof.
  left. split; [|split; [done|split; [|done]]].
  - constructor; [|by vm_compute|by vm_compute|by apply (bool_decide_unpack _); vm_compute|].
    + exists 115, (js "hort"). split; [done|]. by repeat constructor.
    + repeat (constructor; [by apply sample_cond_ok; vm_compute|]). constructor.
  - constructor; [|by vm_compute|by vm_compute|by apply (bool_decide_unpack _); vm_compute|constructor].
    exists 108, (js "ong"). split; [done|]. by repeat constructor.
Qed.

Lemma visual_config_roundtrip_witness :
  exists cfg,
    tryParseVisualConfig (Some (jq "len <= 200000 && p > 5 ? tier('short', p * 2.5 + c * 3 + cc1h * 7) : tier('long', p * 5 + c * 6 + img_o * 7e-7)"))
      = Some cfg /\ Forall2 sameTier [shortTier; longTier] cfg.
Proof. apply (visual_config_roundtrip [shortTier; longTier] sample_ok). Defined.

(** A single tier is accepted without the comparison with the regenerated text
    that several tiers get: a coefficient which is no number is shown as NaN
    and written back as zero. *)
Lemma single_tier_price_lost :
  exists t,
    tryParseVisualConfig (Some (jq "tier('x', p * 1-2 + c * 3)")) = Some [t] /\
    input_unit_cost t = Some None /\
    generateExprFromVisualConfig (Some [t]) = jq "tier('x', p * 0 + c * 3)" /\
    tryParseVisualConfig (Some (jq "p > 1 ? tier('x', p * 1-2 + c * 3) : tier('y', p * 1 + c * 1)")) = None.
Proof. eexists. split_and!; [vm_compute; reflexivity|by vm_compute|by vm_compute|by vm_compute]. Qed.

End TierExprProperties.
