(* ===== verification/TierBreakdown.v ===== *)
(** * The price breakdown reads what the editor writes

    The tier parser of [features/pricing/lib/billing-expr.ts], which feeds the
    price breakdown, runs looser patterns than the editor of tiered prices: a
    body is anything up to a parenthesis, and its coefficients are searched one
    by one.  On the text that the editor writes it finds the same tiers. *)

From S2P Require Import Prelude JsString JsCollections Json JsonNumber JsonText JsValue BillingExpr BillingExprFacts Regex TierExpr TierExprFacts TierExprProperties.
Import Json JsValue Regex TierExpr TierExprFacts TierExprProperties.

Module TierBreakdown.

(** ** Coefficients *)

Lemma alts_first {R} w ws p c (k : pos -> captures -> option R) :
  m (alts (w :: ws)) p c k =
  foldr (fun w acc => match m (Lit w) p c k with Some x => Some x | None => acc end) None (w :: ws).
Proof.
  unfold alts. cbn [foldr]. generalize (Lit w). induction ws as [|w' ws IH]; intros r.
  - cbn [fold_left foldr]. by destruct (m r p c k).
  - cbn [fold_left foldr]. rewrite IH. cbn [m]. by destruct (m r p c k).
Qed.

(** No variable before [v] can be read where [v] stands. *)
Fixpoint first_ok (ws : list jsstr) (v : jsstr) : bool :=
  match ws with
  | [] => false
  | w :: ws => bool_decide (w = v) || clashb w v && first_ok ws v
  end.

Lemma alts_some {R} ws v pr s c (k : pos -> captures -> option R) r :
  first_ok ws v = true -> (forall pr x s, is_space x = false -> x <> 42 -> k (pr, x :: s) c = None) ->
  (forall pr, k (pr, 32 :: s) c = Some r) -> m (alts ws) (pr, v ++ 32 :: s) c k = Some r.
Proof.
  intros Hok Hn Hs. destruct ws as [|w ws]; [done|]. rewrite alts_first.
  induction (w :: ws) as [|u us IH]; [done|]. cbn [foldr]. cbn [first_ok] in Hok.
  destruct (decide (u = v)) as [->|Hne].
  - rewrite m_Lit. destruct (adv_app v pr (32 :: s)) as [pr' ->]. by rewrite Hs.
  - rewrite bool_decide_eq_false_2 in Hok by done. cbn [orb] in Hok. bool_hyps. rewrite clash_lit by done. by apply IH.
Qed.

Definition pricing_key (v : jsstr) : Prop := v ∈ map key BILLING_PRICING_VARS.

Lemma pricing_key_ok v : pricing_key v ->
  first_ok (map key BILLING_PRICING_VARS) v = true /\ exists x w, v = x :: w /\ word_char x = true.
Proof.
  intros H. unfold pricing_key in H.
  assert (forallb (fun v => first_ok (map key BILLING_PRICING_VARS) v &&
    match v with x :: _ => word_char x | [] => false end) (map key BILLING_PRICING_VARS) = true) as Hall by (by vm_compute).
  rewrite forallb_forall in Hall. apply list_elem_of_In, Hall in H. bool_hyps. split; [done|].
  destruct v as [|x w]; [done|]. by exists x, w.
Qed.

Definition term_caps (vn : jsstr * jnum) : captures := [(1%nat, vn.1); (2%nat, JsonNumber.num_text vn.2)].

(** One coefficient, after a space or at the start. *)
Lemma term_match v n pr s :
  pricing_key v -> readable n -> is_word pr = false -> stops s ->
  exists pr', match_at BILLING_VAR_REGEX (pr, coefficient v n ++ s) = Some ((pr', s), term_caps (v, n)).
Proof.
  intros Hv Hn Hpr Hs. destruct (pricing_key_ok v Hv) as (Hok & x & w & Ev & Hx).
  apply match_at_some. unfold BILLING_VAR_REGEX. rewrite seqs_cons. cbn [m fst snd].
  assert (head (coefficient v n ++ s) = Some x) as -> by (by rewrite Ev).
  rewrite bool_decide_eq_false_2 by (cbn; congruence).
  unfold coefficient. rewrite <- !app_assoc, seqs_cons. change (js " * ") with [32; 42; 32]. cbn [app].
  rewrite m_Grp. apply alts_some; [done|intros; by apply star_fails|]. intros pr1.
  cbn [snd]. rewrite take_back. cbn [map_set]. apply seqs_ws; [done|]. intros pr2.
  apply (seqs_lit (js "*") _ _ (32 :: _)). intros pr3.
  pose proof (num_text_chars n) as Hc. pose proof (readable_not_nil n Hn) as Hne.
  destruct (JsonNumber.num_text n) as [|y u] eqn:E; [done|]. cbn [app]. inversion Hc as [|? ? Hy _]; subst.
  apply seqs_ws; [by apply BillingExprFacts.num_char_not_space|]. intros pr4.
  change (y :: u ++ s) with ((y :: u) ++ s). apply seqs_grp_plus; [done..|]. intros pr5. rewrite seqs_nil.
  unfold term_caps. cbn [fst snd]. by rewrite E.
Qed.

(** Between the coefficients nothing matches. *)
Lemma gap_fails pr x s : x = 32 \/ x = 43 -> match_at BILLING_VAR_REGEX (pr, x :: s) = None.
Proof.
  intros H. unfold match_at, BILLING_VAR_REGEX. rewrite seqs_cons. cbn [m]. case_match; [done|].
  rewrite seqs_cons, m_Grp. destruct H as [-> | ->]; by vm_compute.
Qed.

Definition termsText (l : list (jsstr * jnum)) : jsstr := concat (map (fun vn => js " + " ++ coefficient vn.1 vn.2) l).

Definition term_ok (vn : jsstr * jnum) : Prop := pricing_key vn.1 /\ readable vn.2.

Lemma no_term pr : search BILLING_VAR_REGEX pr [] = None.
Proof.
  cbn [search]. unfold match_at, BILLING_VAR_REGEX. rewrite seqs_cons. cbn [m snd]. destruct (bool_decide _); [done|].
  rewrite seqs_cons, m_Grp. by vm_compute.
Qed.

Lemma termsText_stops l : stops (termsText l).
Proof. destruct l as [|vn l]; [done|]. unfold termsText. cbn [map concat]. by change (js " + ") with [32; 43; 32]. Qed.

Lemma exec_terms l fuel pr :
  Forall term_ok l -> (length l < fuel)%nat -> exec_loop BILLING_VAR_REGEX fuel (pr, termsText l) = map term_caps l.
Proof.
  intros Hok. revert fuel pr. induction Hok as [|[v n] l [Hv Hn] _ IH]; intros fuel pr Hf; destruct fuel as [|fuel];
    try (cbn in Hf; lia).
  - cbn [exec_loop fst snd termsText map concat]. by rewrite no_term.
  - cbn [exec_loop fst snd]. unfold termsText. cbn [map concat]. fold (termsText l). rewrite <- !app_assoc.
    change (js " + ") with [32; 43; 32]. cbn [app].
    do 3 rewrite search_next by (apply gap_fails; auto).
    destruct (term_match v n (Some 32) (termsText l) Hv Hn eq_refl (termsText_stops l)) as [pr' Hm].
    cbn [fst snd]. rewrite (search_here _ _ _ _ Hm). f_equal. apply IH. cbn in Hf. lia.
Qed.

(** ** One body *)

(** What a body charges for a variable. *)
Definition fieldCost (t : VisualTier) (f : jsstr) : jnum :=
  if bool_decide (f = js "input_unit_cost") then cost (input_unit_cost t)
  else if bool_decide (f = js "output_unit_cost") then cost (output_unit_cost t)
  else price t f.

Definition extraTerms (g : jsstr -> jnum) (l : list (jsstr * jsstr)) : list (jsstr * jnum) :=
  omap (fun '(f, v) => if mant (g f) =? 0 then None else Some (v, g f)) l.

Definition bodyTerms (t : VisualTier) : list (jsstr * jnum) :=
  (js "c", cost (output_unit_cost t)) :: extraTerms (price t) BILLING_CACHE_VAR_MAP.

Lemma extra_terms g l : extra g l = termsText (extraTerms g l).
Proof.
  unfold extra, extraTerms, termsText. induction l as [|[f v] l IH]; [done|]. cbn [omap list_omap].
  destruct (mant (g f) =? 0); [done|]. cbn [map concat]. by rewrite IH.
Qed.

Lemma body_terms t :
  buildTierBodyExpr t = coefficient (js "p") (cost (input_unit_cost t)) ++ termsText (bodyTerms t).
Proof.
  rewrite buildTierBodyExpr_text. unfold bodyText, bodyTerms. rewrite extra_terms. unfold termsText at 2.
  cbn [map concat fst snd]. by rewrite <- !app_assoc.
Qed.

Lemma extraTerms_elem g l v n : (v, n) ∈ extraTerms g l -> exists f, (f, v) ∈ l /\ n = g f /\ mant (g f) <> 0.
Proof.
  unfold extraTerms. rewrite list_elem_of_omap. intros ([f w] & Hin & H). destruct (mant (g f) =? 0) eqn:E; [done|].
  injection H as <- <-. bool_hyps. by exists f.
Qed.

Lemma bodyTerms_ok t : tier_ok t -> Forall term_ok ((js "p", cost (input_unit_cost t)) :: bodyTerms t).
Proof.
  intros Ht. do 2 (apply Forall_cons; split; [split; [by apply (bool_decide_unpack _); vm_compute|apply Ht]|]).
  apply Forall_forall. intros [v n] (f & Hin & -> & Hne)%extraTerms_elem. split; [|by eapply prices_readable].
  cbn [fst]. assert (Forall (fun v => pricing_key v) (map snd BILLING_CACHE_VAR_MAP)) as Hk
    by (by apply (bool_decide_unpack _); vm_compute).
  rewrite Forall_forall in Hk. apply Hk. apply list_elem_of_fmap. by exists (f, v).
Qed.

Lemma exec_body t :
  tier_ok t -> exec_all BILLING_VAR_REGEX (buildTierBodyExpr t)
  = map term_caps ((js "p", cost (input_unit_cost t)) :: bodyTerms t).
Proof.
  intros Ht. pose proof (bodyTerms_ok t Ht) as H. inversion_clear H as [|? ? [Hp Hr] Hts]. rewrite body_terms.
  unfold exec_all. cbn [exec_loop fst snd].
  destruct (term_match (js "p") (cost (input_unit_cost t)) None (termsText (bodyTerms t)) Hp Hr eq_refl (termsText_stops _)) as [pr Hm].
  rewrite (search_here _ _ _ _ Hm). cbn [map]. f_equal. apply exec_terms; [done|]. rewrite length_app.
  assert (forall l, length l <= length (termsText l))%nat as Hl.
  { induction l as [|vn l IH]; [done|]. unfold termsText in *. cbn [map concat length]. rewrite !length_app.
    change (length (js " + ")) with 3%nat. lia. }
  specialize (Hl (bodyTerms t)). unfold coefficient. rewrite length_app. change (length (js "p")) with 1%nat. lia.
Qed.

(** The first coefficient of each variable, when there are no others. *)
Lemma coeffs_get l cs v :
  NoDup (map fst l) -> Forall (fun vn => readable vn.2) l ->
  map_get (fold_left addCoeff (map term_caps l) cs) v
  = match map_get cs v with Some x => Some x | None => Some <$> map_get l v end.
Proof.
  intros Hn Hr. revert cs. induction l as [|[w n] l IH]; intros cs.
  { cbn. by destruct (map_get cs v). }
  cbn [map fst] in Hn. apply NoDup_cons in Hn as [Hw Hn]. inversion_clear Hr as [|? ? Hrn Hrl]. cbn [snd] in Hrn.
  cbn [map fold_left]. rewrite IH by done. unfold addCoeff.
  change (group (term_caps (w, n)) 1) with (Some w). change (group (term_caps (w, n)) 2) with (Some (JsonNumber.num_text n)).
  cbn [or_empty]. rewrite Hrn. cbn [map_get].
  destruct (map_get cs w) as [x|] eqn:E.
  - destruct (decide (w = v)) as [<-|Hne]; [by rewrite E|done].
  - destruct (decide (w = v)) as [<-|Hne].
    + rewrite map_get_set_eq. by rewrite E.
    + rewrite map_get_set_ne by done. done.
Qed.

Lemma extraTerms_sublist g l : sublist (map fst (extraTerms g l)) (map snd l).
Proof.
  unfold extraTerms. induction l as [|[f v] l IH]; [constructor|]. cbn [omap list_omap map snd].
  destruct (mant (g f) =? 0); by constructor.
Qed.

Lemma extraTerms_get g l f v :
  NoDup (map snd l) -> (f, v) ∈ l -> map_get (extraTerms g l) v = if mant (g f) =? 0 then None else Some (g f).
Proof.
  unfold extraTerms. induction l as [|[f' v'] l IH]; [set_solver|]. cbn [map snd]. intros [Hv Hn]%NoDup_cons.
  cbn [omap list_omap]. intros [[= <- <-]|Hin]%elem_of_cons.
  - destruct (mant (g f) =? 0) eqn:E; [|cbn [map_get]; by rewrite decide_True].
    apply map_get_None. intros Hin. apply Hv. eapply elem_of_sublist; [exact Hin|]. apply extraTerms_sublist.
  - assert (v' <> v) as Hne by (intros ->; apply Hv; apply list_elem_of_fmap; by exists (f, v)).
    rewrite <- (IH Hn Hin). destruct (mant (g f') =? 0); [done|]. cbn [map_get]. by rewrite decide_False.
Qed.

(** The prices of the body, by the names of the breakdown. *)
Definition tierPrices (t : VisualTier) : list (jsstr * jnum) :=
  map (fun v => (or_empty (field v), fieldCost t (or_empty (tierField v)))) BILLING_PRICING_VARS.

Lemma cache_vars_nodup : NoDup (map snd BILLING_CACHE_VAR_MAP).
Proof. by apply (bool_decide_unpack _); vm_compute. Qed.

Lemma bodyTerms_nodup t : NoDup (map fst ((js "p", cost (input_unit_cost t)) :: bodyTerms t)).
Proof.
  apply (sublist_NoDup _ (js "p" :: js "c" :: map snd BILLING_CACHE_VAR_MAP)).
  - by apply (bool_decide_unpack _); vm_compute.
  - unfold bodyTerms. cbn [map fst]. do 2 apply sublist_skip. apply extraTerms_sublist.
Qed.

(** The other variables have prices of their own. *)
Lemma extra_var v :
  v ∈ BILLING_EXTRA_VARS ->
  key v <> js "p" /\ key v <> js "c" /\ (or_empty (tierField v), key v) ∈ BILLING_CACHE_VAR_MAP /\
  forall t, fieldCost t (or_empty (tierField v)) = price t (or_empty (tierField v)).
Proof.
  intros Hin.
  assert (forallb (fun v => negb (bool_decide (key v ∈ [js "p"; js "c"])) &&
    negb (bool_decide (or_empty (tierField v) ∈ [js "input_unit_cost"; js "output_unit_cost"]))) BILLING_EXTRA_VARS = true)
    as H by (by vm_compute).
  rewrite forallb_forall in H. pose proof (proj1 (list_elem_of_In _ _) Hin) as Hv. apply H in Hv. bool_hyps.
  split_and!; [set_solver|set_solver| |].
  - unfold BILLING_CACHE_VAR_MAP. apply list_elem_of_fmap. by exists v.
  - intros t. unfold fieldCost. rewrite !bool_decide_eq_false_2 by set_solver. done.
Qed.

Lemma pricing_var v :
  v ∈ BILLING_PRICING_VARS ->
  (key v = js "p" /\ tierField v = Some (js "input_unit_cost")) \/
  (key v = js "c" /\ tierField v = Some (js "output_unit_cost")) \/ v ∈ BILLING_EXTRA_VARS.
Proof.
  assert (exists vp vc, BILLING_PRICING_VARS = vp :: vc :: BILLING_EXTRA_VARS /\
    key vp = js "p" /\ tierField vp = Some (js "input_unit_cost") /\
    key vc = js "c" /\ tierField vc = Some (js "output_unit_cost")) as (vp & vc & -> & Hvp & Htp & Hvc & Htc)
    by (by eexists _, _).
  intros [->|[->|H]%elem_of_cons]%elem_of_cons; auto.
Qed.

Lemma parseTierBody_text t : tier_ok t -> parseTierBody (buildTierBodyExpr t) = tierPrices t.
Proof.
  intros Ht. pose proof (bodyTerms_ok t Ht) as Hok. unfold parseTierBody, tierPrices. rewrite exec_body by done.
  unfold BILLING_VAR_KEY_TO_FIELD. rewrite map_map. apply map_ext_in. intros v Hin%list_elem_of_In. f_equal.
  rewrite coeffs_get; [|apply bodyTerms_nodup|by eapply Forall_impl; [exact Hok|intros vn [_ H]]]. cbn [map_get].
  unfold bodyTerms. cbn [map_get]. apply pricing_var in Hin as [[-> ->]|[[-> ->]|Hin]].
  - rewrite decide_True by done. apply or_zero_idemp.
  - rewrite decide_False, decide_True by done. apply or_zero_idemp.
  - destruct (extra_var v Hin) as (Hp & Hc & Hm & ->). rewrite !decide_False by congruence.
    rewrite (extraTerms_get _ _ _ _ cache_vars_nodup Hm).
    destruct (mant (price t (or_empty (tierField v))) =? 0) eqn:E; bool_hyps.
    + symmetry. by apply price_zero.
    + apply or_zero_idemp.
Qed.

(** ** The tiers *)

(** The breakdown shows the label, the conditions and the prices of a tier. *)
Record sameParsed (t : VisualTier) (pt : ParsedTier) : Prop := {
  parsed_label : Some (pt_label pt) = label t;
  parsed_conds : pt_conditions pt = conds t;
  parsed_prices : pt_prices pt = tierPrices t }.

Definition parsed_caps (t : VisualTier) : captures :=
  map_set (map_set (cond_caps t) 2%nat (labelText t)) 3%nat (buildTierBodyExpr t).

Lemma body_no_paren t : tier_ok t -> Forall (fun x => negb (x =? 41) = true) (buildTierBodyExpr t).
Proof.
  intros Ht.
  assert (forall v n, pricing_key v -> Forall (fun x => negb (x =? 41) = true) (coefficient v n)) as Hcoef.
  { intros v n Hv. unfold coefficient. rewrite !Forall_app. split_and!; [|by repeat constructor|].
    - assert (Forall (Forall (fun x => negb (x =? 41) = true)) (map key BILLING_PRICING_VARS)) as H
        by (by apply (bool_decide_unpack _); vm_compute).
      rewrite Forall_forall in H. by apply H.
    - eapply Forall_impl; [apply num_text_chars|]. intros x Hx. destruct (x =? 41) eqn:E; [|done].
      bool_hyps. subst x. by vm_compute in Hx. }
  rewrite body_terms, Forall_app. pose proof (bodyTerms_ok t Ht) as H. inversion_clear H as [|? ? [Hp _] Hts].
  split; [by apply Hcoef|]. clear Hp. induction Hts as [|[v n] l [Hv _] _ IH]; [constructor|].
  unfold termsText in *. cbn [map concat]. rewrite !Forall_app. split_and!; [by repeat constructor|by apply Hcoef|done].
Qed.

Lemma parsed_match t pr s :
  tier_ok t -> exists pr', match_at parsedTierRe (pr, partText t ++ s) = Some ((pr', s), parsed_caps t).
Proof.
  intros Ht. apply (part_match_with [Grp 3 (Plus (Cls (fun c => negb (c =? 41)))); Lit (js ")")]
    (fun c => map_set (map_set c 2%nat (labelText t)) 3%nat (buildTierBodyExpr t))); [done|].
  intros pr0 c. rewrite tierText_split, <- buildTierBodyExpr_text.
  assert (exists s', buildTierBodyExpr t = 112 :: s') as [s' E] by (rewrite body_terms; by eexists).
  rewrite E. cbn [app]. apply head_some; [by apply label_quotes|done|]. intros pr1.
  change (112 :: s' ++ 41 :: s) with ((112 :: s') ++ 41 :: s). rewrite <- E.
  apply seqs_grp_plus; [by rewrite E|by apply body_no_paren|done|]. intros pr2.
  apply (seqs_lit (js ")")). intros pr3. by rewrite seqs_nil.
Qed.

Lemma parsed_same t : tier_ok t -> sameParsed t (parsedTier (parsed_caps t)).
Proof.
  intros Ht. unfold parsedTier, parsed_caps, group. rewrite map_get_set_eq.
  rewrite !(map_get_set_ne _ 3%nat) by done. rewrite map_get_set_eq, map_get_set_ne by done. cbn [or_empty].
  split; cbn [pt_label pt_conditions pt_prices].
  - destruct Ht as [(x & l & E & _) _ _ _ _]. unfold labelText. by rewrite E.
  - by apply cond_caps_conds.
  - by apply parseTierBody_text.
Qed.

(** What the generator writes, and what follows the last tier. *)
Lemma generate_shape tiers :
  visual_ok tiers ->
  exists t ts tl, tiers = t :: ts /\ Forall tier_ok tiers /\ (tl = [] \/ tl = js " : p * 0 + c * 0") /\
    generateExprFromVisualConfig (Some tiers) = partText t ++ sepText ts ++ tl.
Proof.
  intros [H|(t & -> & Ht & Hc)].
  - pose proof (tiers_ok_all _ H) as Hall. destruct tiers as [|t ts]; [done|]. exists t, ts, [].
    split_and!; [done|done|by left|]. by rewrite app_nil_r, generate_text.
  - exists t, [], (js " : p * 0 + c * 0"). split_and!; [done|by constructor|by right|].
    by apply generate_single.
Qed.

(** the price breakdown reads the expression that the editor of tiered
    prices writes as the same tiers as the editor: the same labels, the same
    conditions in their order and the same price for every variable, zero where
    the tier has none. *)
Theorem breakdown_agrees tiers :
  visual_ok tiers ->
  Forall2 sameParsed tiers (parseTiersFromExpr (generateExprFromVisualConfig (Some tiers))).
Proof.
  intros H. destruct (generate_shape tiers H) as (t & ts & tl & -> & Hok & Htl & ->).
  inversion Hok as [|? ? Ht _]; subst. destruct (part_head t (sepText ts ++ tl) Ht) as (x & s & Ex & Hv & _).
  unfold parseTiersFromExpr. rewrite Ex. cbn [truthy]. rewrite strip_none by done. rewrite <- Ex.
  rewrite (exec_parts _ parsed_caps); [|intros; by apply parsed_match|intros; by apply not_tier_fails| |done].
  - rewrite map_map. clear -Hok. induction Hok as [|u us Hu _ IH]; constructor; [by apply parsed_same|exact IH].
  - intros pr. destruct Htl as [-> | ->]; destruct pr; by vm_compute.
Qed.

Lemma breakdown_agrees_witness :
  Forall2 sameParsed [shortTier; longTier]
    (parseTiersFromExpr (jq "len <= 200000 && p > 5 ? tier('short', p * 2.5 + c * 3 + cc1h * 7) : tier('long', p * 5 + c * 6 + img_o * 7e-7)")).
Proof. apply (breakdown_agrees [shortTier; longTier] sample_ok). Defined.

End TierBreakdown.
