(* ===== verification/ModelPricing.v ===== *)
(** * Model prices

    The data of the page for model prices: the number format of
    [pricing-format.ts], the lanes of [model-pricing-core.ts], the snapshots of
    [model-pricing-snapshots.ts], and from [model-ratio-visual-editor.tsx] the
    rows of the table and what saving, copying and deleting prices write.  The
    ten options are texts of JSON objects; [None] is an exception.  Properties
    that an object inherits are not modelled. *)

From S2P Require Import Prelude JsString JsCollections Json JsonNumber JsonText JsValue JsDouble BillingExpr.
Import Json JsonNumber JsValue JsDouble BillingExpr.

Module ModelPricing.

(** ** Numbers *)

(** [Number(value)] when it is finite and the text is not empty. *)
Definition toNumberOrNull (value : jsstr) : option double :=
  if negb (truthy value) then None
  else n ← num_of_text value; let x := of_num n in if is_finite x then Some x else None.

Definition DISPLAY_DECIMALS : Z := 12.
Definition SNAP_DECIMALS : nat := 8.
Definition SNAP_EPSILON : double := of_num (mkNum 1 (-12)).
Definition EPSILON : double := of_ratio false 1 (2 ^ 52).

Definition roundToDecimals (value : double) (decimals : Z) : double :=
  let factor := of_Z (10 ^ decimals) in div (Math_round (mul value factor)) factor.

Fixpoint snapFrom (fuel : nat) (decimals : Z) (tolerance value : double) : double :=
  let rounded := roundToDecimals value decimals in
  if leb (abs (sub value rounded)) tolerance then rounded
  else match fuel with S fuel => snapFrom fuel (decimals + 1) tolerance value | O => value end.

Definition snapFloatDrift (value : double) : double :=
  let tolerance := max SNAP_EPSILON (mul (mul (abs value) EPSILON) (of_Z 8)) in
  snapFrom SNAP_DECIMALS 0 tolerance value.

Definition formatPricingNumber (value : double) : jsstr :=
  if is_finite value then double_text (fixed DISPLAY_DECIMALS (snapFloatDrift value)) else [].

(** ** Fields *)

Inductive PriceField := Price | Ratio | CacheRatio | CreateCacheRatio | CompletionRatio | ImageRatio | AudioRatio | AudioCompletionRatio.

#[export] Instance PriceField_eq_dec : EqDecision PriceField.
Proof. solve_decision. Defined.

Definition priceFields : list PriceField :=
  [Price; Ratio; CacheRatio; CreateCacheRatio; CompletionRatio; ImageRatio; AudioRatio; AudioCompletionRatio].

(** The texts of the eight prices of a model. *)
Definition Prices : Type := PriceField -> jsstr.

(** The options that hold the prices of all models. *)
Inductive OptionField := OfPrice (f : PriceField) | BillingMode | BillingExpr.

#[export] Instance OptionField_eq_dec : EqDecision OptionField.
Proof. solve_decision. Defined.

(** In the order in which the snapshots collect the names. *)
Definition optionFields : list OptionField := map OfPrice priceFields ++ [BillingMode; BillingExpr].

Definition Options (A : Type) : Type := OptionField -> A.

Inductive PricingMode := PerToken | PerRequest | TieredExpr.

#[export] Instance PricingMode_eq_dec : EqDecision PricingMode.
Proof. solve_decision. Defined.

Definition mode_text (m : PricingMode) : jsstr :=
  match m with PerToken => js "per-token" | PerRequest => js "per-request" | TieredExpr => js "tiered_expr" end.

Record ModelRatioData := mkData {
  d_name : jsstr; d_prices : Prices; d_billingMode : PricingMode; d_billingExpr : jsstr; d_requestRuleExpr : jsstr }.

(** ** Objects as maps *)

(** [safeJsonParse(value, { fallback: {} })] *)
Definition safeJsonParse (value : jsstr) : json :=
  if negb (truthy (trim value)) then JObj []
  else match JSON_parse (trim value) with Some v => v | None => JObj [] end.

(** The own property [length] of arrays and strings. *)
Definition lengthOf (v : json) : option json :=
  match v with
  | JArr l => Some (JNum (mkNum (Z.of_nat (length l)) 0))
  | JStr s => Some (JNum (mkNum (Z.of_nat (length s)) 0))
  | _ => None
  end.

(** [v[k]] for a [v] that is not null. *)
Definition member (v : json) (k : jsstr) : option json :=
  match v with
  | JObj fields => map_get fields k
  | _ => if decide (k = js "length") then lengthOf v else map_get (own_entries v) k
  end.

(** [Object.keys(v)]; null throws. *)
Definition keysOf (v : json) : option (list jsstr) := match v with JNull => None | _ => Some (own_entries v).*1 end.

(** [delete v[k]] *)
Definition deleteProp (v : json) (k : jsstr) : option json :=
  match v with
  | JNull => None
  | JObj fields => Some (JObj (map_delete fields k))
  | JArr l =>
      if bool_decide (k = js "length") then None
      else if is_index_key k then Some (JArr (<[Z.to_nat (parseDec k) := JNull]> l)) else Some v
  | JStr s => if bool_decide (is_Some (member v k)) then None else Some v
  | _ => Some v
  end.

(** [v[k] = x]; a primitive value throws. *)
Definition assignProp (v : json) (k : jsstr) (x : json) : option json :=
  match v with
  | JObj fields => Some (JObj (map_set fields k x))
  | JArr l =>
      if bool_decide (k = js "length") then
        n ← Number_of x; n ← n; i ← num_integer n;
        if (0 <=? i) && (i <? 4294967296) then
          Some (JArr (take (Z.to_nat i) l ++ replicate (Z.to_nat i - length l) JNull))
        else None
      else if is_index_key k then
        let i := Z.to_nat (parseDec k) in
        Some (JArr (if (i <? length l)%nat then <[i := x]> l else l ++ replicate (i - length l) JNull ++ [x]))
      else Some v
  | _ => None
  end.

(** ** Snapshots *)

Record ModelPricingSnapshot := mkSnapshot {
  s_name : jsstr; s_prices : Prices; s_mode : PricingMode;
  s_billingExpr : option jsstr; s_requestRuleExpr : option jsstr; s_hasConflict : bool }.

Definition parseMaps (texts : Options jsstr) : Options json := fun o => safeJsonParse (texts o).

(** [map[name]?.toString() || ''] *)
Definition priceText (v : option json) : option jsstr :=
  match v with None | Some JNull => Some [] | Some x => String_of x end.

(** The eight texts, or the exception of one of them. *)
Definition pricesOf (read : PriceField -> option jsstr) : option Prices :=
  price ← read Price; ratio ← read Ratio; cache ← read CacheRatio; createCache ← read CreateCacheRatio;
  completion ← read CompletionRatio; image ← read ImageRatio; audio ← read AudioRatio;
  audioCompletion ← read AudioCompletionRatio;
  Some (fun f => match f with
    | Price => price | Ratio => ratio | CacheRatio => cache | CreateCacheRatio => createCache
    | CompletionRatio => completion | ImageRatio => image | AudioRatio => audio | AudioCompletionRatio => audioCompletion
    end).

(** A model without an expression. *)
Definition plainSnapshot (name : jsstr) (p : Prices) : ModelPricingSnapshot :=
  mkSnapshot name p (if truthy (p Price) then PerRequest else PerToken) None None
    (truthy (p Price) && existsb (fun f => truthy (p f))
       [Ratio; CompletionRatio; CacheRatio; CreateCacheRatio; ImageRatio; AudioRatio; AudioCompletionRatio]).

Definition isTiered (v : option json) : bool :=
  match v with Some (JStr m) => bool_decide (m = js "tiered_expr") | _ => false end.

Definition snapshotOf (maps : Options json) (name : jsstr) : option ModelPricingSnapshot :=
  p ← pricesOf (fun f => priceText (member (maps (OfPrice f)) name));
  if isTiered (member (maps BillingMode) name) then
    e ← match js_or (member (maps BillingExpr) name) (JStr []) with
        | JStr full => splitBillingExprAndRequestRules full
        | _ => None
        end;
    Some (mkSnapshot name p TieredExpr (Some (billingExpr e)) (Some (requestRuleExpr e)) false)
  else Some (plainSnapshot name p).

Definition modelNames (maps : Options json) : option (list jsstr) :=
  keys ← mapM (fun o => keysOf (maps o)) optionFields; Some (set_of (concat keys)).

Definition buildModelSnapshots (texts : Options jsstr) : option (list ModelPricingSnapshot) :=
  let maps := parseMaps texts in
  names ← modelNames maps; mapM (snapshotOf maps) names.

Definition signatureKey (f : PriceField) : jsstr :=
  match f with
  | Price => js "price" | Ratio => js "ratio" | CacheRatio => js "cacheRatio" | CreateCacheRatio => js "createCacheRatio"
  | CompletionRatio => js "completionRatio" | ImageRatio => js "imageRatio" | AudioRatio => js "audioRatio"
  | AudioCompletionRatio => js "audioCompletionRatio"
  end.

Definition signatureOf (s : ModelPricingSnapshot) : list (jsstr * json) :=
  map (fun f => (signatureKey f, JStr (s_prices s f))) priceFields
  ++ [ (js "billingMode", JStr (mode_text (s_mode s))); (js "billingExpr", JStr (s_billingExpr s ?? []));
       (js "requestRuleExpr", JStr (s_requestRuleExpr s ?? [])) ].

Definition getSnapshotSignature (snapshot : option ModelPricingSnapshot) : jsstr :=
  match snapshot with None => [] | Some s => JsonText.JSON_stringify (JObj (signatureOf s)) end.

(** ** The table *)

Record ModelRow := mkRow {
  r_displayed : ModelPricingSnapshot; r_saved : option ModelPricingSnapshot; r_draft : option ModelPricingSnapshot;
  isDraftChanged : bool; isDraftDeleted : bool; isDraftNew : bool }.

(** [new Map(rows.map((row) => [row.name, row]))] *)
Definition byName (rows : list ModelPricingSnapshot) : list (jsstr * ModelPricingSnapshot) :=
  fold_left (fun m row => map_set m (s_name row) row) rows [].

Definition rowOf (savedByName draftByName : list (jsstr * ModelPricingSnapshot)) (name : jsstr) : option ModelRow :=
  let saved := map_get savedByName name in
  let draft := map_get draftByName name in
  displayed ← match saved with Some s => Some s | None => draft end;
  Some (mkRow displayed saved draft (negb (bool_decide (getSnapshotSignature saved = getSnapshotSignature draft)))
          (match saved, draft with Some _, None => true | _, _ => false end)
          (match saved, draft with None, Some _ => true | _, _ => false end)).

(** The rows of the table; [localeCompare] is that of the platform. *)
Definition modelRows (localeCompare : jsstr -> jsstr -> Z) (saved draft : Options jsstr) : option (list ModelRow) :=
  savedRows ← buildModelSnapshots saved;
  draftRows ← buildModelSnapshots draft;
  let savedByName := byName savedRows in
  let draftByName := byName draftRows in
  let names := set_of (savedByName.*1 ++ draftByName.*1) in
  Some (js_sort (fun a b => localeCompare (s_name (r_displayed a)) (s_name (r_displayed b)))
          (List.filter (fun row => negb (isDraftDeleted row)) (omap (rowOf savedByName draftByName) names))).

(** [modeCounts[mode]] *)
Definition modeCount (models : list ModelRow) (m : PricingMode) : Z :=
  fold_left (fun n row => if bool_decide (s_mode (r_displayed row) = m) then n + 1 else n) models 0.

(** ** What a row shows of its prices *)

Definition hasPricingValue (v : jsstr) : bool := truthy v.

(** Without a denominator a ratio of one is a price of two. *)
Definition ratioToPrice (ratio : jsstr) (denominator : jsstr) : jsstr :=
  match toNumberOrNull ratio, (if truthy denominator then toNumberOrNull denominator else Some (of_Z 2)) with
  | Some r, Some d => formatPricingNumber (mul r d)
  | _, _ => []
  end.

Definition getModeLabel (m : PricingMode) : jsstr :=
  match m with PerRequest => js "Per-request" | TieredExpr => js "Expression" | PerToken => js "Per-token" end.

(** The number of matches of [/tier\(/g]; two of them never overlap. *)
Fixpoint tierCount (s : jsstr) : Z :=
  match s with
  | [] => 0
  | _ :: s' => (if startsWith s (js "tier(") then 1 else 0) + tierCount s'
  end.

Definition dot : jsstr := [32; 183; 32].

Definition getExpressionSummary (row : ModelPricingSnapshot) (t : jsstr -> jsstr) : jsstr :=
  let n := tierCount (s_billingExpr row ?? []) in
  if 0 <? n then t (js "Tiered pricing") ++ dot ++ showZ n ++ 32 :: t (js "tiers") else t (js "Expression pricing").

Definition getPriceSummary (row : ModelPricingSnapshot) (t : jsstr -> jsstr) : jsstr :=
  match s_mode row with
  | TieredExpr => getExpressionSummary row t
  | PerRequest =>
      if truthy (s_prices row Price) then 36 :: s_prices row Price ++ js " / " ++ t (js "request") else t (js "Unset price")
  | PerToken =>
      let inputPrice := ratioToPrice (s_prices row Ratio) [] in
      if negb (truthy inputPrice) then t (js "Unset price")
      else
        let extraCount := length (List.filter (fun f => hasPricingValue (s_prices row f))
          [CompletionRatio; CacheRatio; CreateCacheRatio; ImageRatio; AudioRatio; AudioCompletionRatio]) in
        let input := t (js "Input") ++ js " $" ++ inputPrice in
        if (0 <? extraCount)%nat then input ++ dot ++ showZ (Z.of_nat extraCount) ++ 32 :: t (js "extras") else input
  end.

Definition getPriceDetail (row : ModelPricingSnapshot) (t : jsstr -> jsstr) : jsstr :=
  match s_mode row with
  | TieredExpr => if truthy (s_requestRuleExpr row ?? []) then t (js "Includes request rules") else t (js "Expression based")
  | PerRequest => t (js "Fixed request price")
  | PerToken =>
      let inputPrice := ratioToPrice (s_prices row Ratio) [] in
      if negb (truthy inputPrice) then t (js "No base input price")
      else
        let detail f label :=
          if truthy (s_prices row f) then t (js label) ++ js " $" ++ ratioToPrice (s_prices row f) inputPrice else [] in
        let details := take 2 (filter_truthy
          [detail CompletionRatio "Output"; detail CacheRatio "Cache"; detail CreateCacheRatio "Cache write"]) in
        match details with [] => t (js "Base input price only") | _ => join dot details end
  end.

(** ** Writing prices *)

(** What [persistPricingData] stores of [data] in an option: [setIfPresent] and the assignments. *)
Definition numberEntry (value : jsstr) : option json :=
  if negb (truthy value) then None else JNum <$> parseFloat value.

Definition entryOf (data : ModelRatioData) (o : OptionField) : option json :=
  match d_billingMode data with
  | TieredExpr =>
      let combined := combineBillingExpr (d_billingExpr data) (d_requestRuleExpr data) in
      match o with
      | OfPrice f => numberEntry (d_prices data f)
      | BillingMode => if truthy combined then Some (JStr (js "tiered_expr")) else None
      | BillingExpr => if truthy combined then Some (JStr combined) else None
      end
  | _ =>
      match o with
      | OfPrice Price => numberEntry (d_prices data Price)
      | OfPrice f => if truthy (d_prices data Price) then None else numberEntry (d_prices data f)
      | _ => None
      end
  end.

(** The body of the loop over the target names, for the map of one option. *)
Definition writeEntry (data : ModelRatioData) (o : OptionField) (m : json) (name : jsstr) : option json :=
  m ← deleteProp m name;
  match entryOf data o with Some v => assignProp m name v | None => Some m end.

Fixpoint foldlM {A B} (f : A -> B -> option A) (a : A) (l : list B) : option A :=
  match l with [] => Some a | x :: l => a ← f a x; foldlM f a l end.

(** All ten options, or the exception of one. *)
Definition allOptions {A} (read : OptionField -> option A) : option (Options A) :=
  price ← read (OfPrice Price); ratio ← read (OfPrice Ratio); cache ← read (OfPrice CacheRatio);
  createCache ← read (OfPrice CreateCacheRatio); completion ← read (OfPrice CompletionRatio);
  image ← read (OfPrice ImageRatio); audio ← read (OfPrice AudioRatio);
  audioCompletion ← read (OfPrice AudioCompletionRatio); mode ← read BillingMode; expr ← read BillingExpr;
  Some (fun o => match o with
    | OfPrice Price => price | OfPrice Ratio => ratio | OfPrice CacheRatio => cache
    | OfPrice CreateCacheRatio => createCache | OfPrice CompletionRatio => completion | OfPrice ImageRatio => image
    | OfPrice AudioRatio => audio | OfPrice AudioCompletionRatio => audioCompletion
    | BillingMode => mode | BillingExpr => expr
    end).

(** The texts given to [onChange]. *)
Definition persistPricingData (texts : Options jsstr) (data : ModelRatioData) (targetNames : list jsstr)
  : option (Options jsstr) :=
  maps ← allOptions (fun o => foldlM (writeEntry data o) (safeJsonParse (texts o)) targetNames);
  Some (fun o => JsonText.JSON_pretty (maps o)).

Definition handleDelete (texts : Options jsstr) (name : jsstr) : option (Options jsstr) :=
  maps ← allOptions (fun o => deleteProp (safeJsonParse (texts o)) name);
  Some (fun o => JsonText.JSON_pretty (maps o)).

End ModelPricing.
