(* ===== verification/ModelPricingPanel.v ===== *)
(** * Model prices: the editor of one model

    The panel of [model-pricing-sheet.tsx] with the lanes of
    [model-pricing-core.ts]: its state, the callbacks of its controls with the
    conditions under which a control is enabled, and the data it commits.  The
    editor of expressions reports its texts as events. *)

From S2P Require Import Prelude JsString JsCollections Json JsonNumber JsonText JsValue JsDouble BillingExpr ModelPricing.
Import Json JsonNumber JsValue JsDouble BillingExpr ModelPricing.

Module ModelPricingPanel.

(** ** Lanes *)

Inductive LaneKey := LCompletion | LCache | LCreateCache | LImage | LAudioInput | LAudioOutput.

#[export] Instance LaneKey_eq_dec : EqDecision LaneKey.
Proof. solve_decision. Defined.

(** The keys of [laneConfigs]. *)
Definition laneKeys : list LaneKey := [LCompletion; LCache; LCreateCache; LImage; LAudioInput; LAudioOutput].

Definition ratioFieldByLane (l : LaneKey) : PriceField :=
  match l with
  | LCompletion => CompletionRatio | LCache => CacheRatio | LCreateCache => CreateCacheRatio | LImage => ImageRatio
  | LAudioInput => AudioRatio | LAudioOutput => AudioCompletionRatio
  end.

(** [{ ...record, [key]: value }] *)
Definition put {K A} `{EqDecision K} (k : K) (x : A) (m : K -> A) : K -> A := fun j => if decide (j = k) then x else m j.

(** [hasValue] on a text. *)
Definition hasValue (value : jsstr) : bool := truthy value.

Definition ratioToBasePrice (ratio : jsstr) : jsstr :=
  match toNumberOrNull ratio with Some n => formatPricingNumber (mul n (of_Z 2)) | None => [] end.

Definition deriveLanePrice (ratio denominator : jsstr) : jsstr :=
  match toNumberOrNull ratio, toNumberOrNull denominator with
  | Some r, Some d => formatPricingNumber (mul r d)
  | _, _ => []
  end.

Record LaneState := mkLanes { promptPrice_of : jsstr; prices_of : LaneKey -> jsstr; enabled_of : LaneKey -> bool }.

Definition createInitialLaneState (data : option ModelRatioData) : LaneState :=
  match data with
  | None => mkLanes [] (fun _ => []) (fun _ => false)
  | Some data =>
      let p := d_prices data in
      let promptPrice := ratioToBasePrice (p Ratio) in
      let audioInputPrice := deriveLanePrice (p AudioRatio) promptPrice in
      mkLanes promptPrice
        (fun l => match l with
          | LAudioInput => audioInputPrice
          | LAudioOutput => deriveLanePrice (p AudioCompletionRatio) audioInputPrice
          | _ => deriveLanePrice (p (ratioFieldByLane l)) promptPrice
          end)
        (fun l => hasValue (p (ratioFieldByLane l)))
  end.

(** [/^(\d+(\.\d* )?|\.\d* )?$/] *)
Definition numericDraft (s : jsstr) : bool :=
  let r := (take_digits s).2 in
  match r with
  | [] => true
  | c :: r' => (c =? 46) && negb (truthy (take_digits r').2)
  end.

(** ** State *)

Record Panel := mkPanel {
  pricingMode : PricingMode; promptPrice : jsstr; lanePrices : LaneKey -> jsstr; laneEnabled : LaneKey -> bool;
  p_billingExpr : jsstr; p_requestRuleExpr : jsstr;
  formName : jsstr; formPrices : Prices }.

Definition setMode (m : PricingMode) (p : Panel) : Panel :=
  mkPanel m (promptPrice p) (lanePrices p) (laneEnabled p) (p_billingExpr p) (p_requestRuleExpr p) (formName p) (formPrices p).
Definition setPromptPrice (x : jsstr) (p : Panel) : Panel :=
  mkPanel (pricingMode p) x (lanePrices p) (laneEnabled p) (p_billingExpr p) (p_requestRuleExpr p) (formName p) (formPrices p).
Definition setLanePrices (x : LaneKey -> jsstr) (p : Panel) : Panel :=
  mkPanel (pricingMode p) (promptPrice p) x (laneEnabled p) (p_billingExpr p) (p_requestRuleExpr p) (formName p) (formPrices p).
Definition setLaneEnabled (x : LaneKey -> bool) (p : Panel) : Panel :=
  mkPanel (pricingMode p) (promptPrice p) (lanePrices p) x (p_billingExpr p) (p_requestRuleExpr p) (formName p) (formPrices p).
Definition setBillingExpr (x : jsstr) (p : Panel) : Panel :=
  mkPanel (pricingMode p) (promptPrice p) (lanePrices p) (laneEnabled p) x (p_requestRuleExpr p) (formName p) (formPrices p).
Definition setRequestRuleExpr (x : jsstr) (p : Panel) : Panel :=
  mkPanel (pricingMode p) (promptPrice p) (lanePrices p) (laneEnabled p) (p_billingExpr p) x (formName p) (formPrices p).
Definition setName (x : jsstr) (p : Panel) : Panel :=
  mkPanel (pricingMode p) (promptPrice p) (lanePrices p) (laneEnabled p) (p_billingExpr p) (p_requestRuleExpr p) x (formPrices p).
Definition setFormValue (f : PriceField) (x : jsstr) (p : Panel) : Panel :=
  mkPanel (pricingMode p) (promptPrice p) (lanePrices p) (laneEnabled p) (p_billingExpr p) (p_requestRuleExpr p) (formName p)
    (put f x (formPrices p)).

(** The effect that loads [editData]. *)
Definition loadPanel (editData : option ModelRatioData) : Panel :=
  let lanes := createInitialLaneState editData in
  match editData with
  | Some d =>
      mkPanel (match d_billingMode d with
               | TieredExpr => TieredExpr
               | _ => if truthy (d_prices d Price) then PerRequest else PerToken
               end)
        (promptPrice_of lanes) (prices_of lanes) (enabled_of lanes) (d_billingExpr d) (d_requestRuleExpr d) (d_name d) (d_prices d)
  | None => mkPanel PerToken (promptPrice_of lanes) (prices_of lanes) (enabled_of lanes) [] [] [] (fun _ => [])
  end.

(** ** Callbacks *)

(** [priceNumber / base] as a text, unless the base is missing or zero. *)
Definition quotientText (priceNumber : double) (base : option double) : jsstr :=
  match base with
  | Some d => if SpecFloat.SFeqb d (of_Z 0) then [] else formatPricingNumber (div priceNumber d)
  | None => []
  end.

Definition deriveLaneRatio (lane : LaneKey) (price nextPromptPrice : jsstr) (nextLanePrices : LaneKey -> jsstr) : jsstr :=
  match toNumberOrNull price with
  | None => []
  | Some priceNumber =>
      quotientText priceNumber
        (toNumberOrNull (if decide (lane = LAudioOutput) then nextLanePrices LAudioInput else nextPromptPrice))
  end.

Definition syncLaneRatios (nextPromptPrice : jsstr) (nextLanePrices : LaneKey -> jsstr) (nextLaneEnabled : LaneKey -> bool)
  (p : Panel) : Panel :=
  let p := setFormValue Ratio
    (match toNumberOrNull nextPromptPrice with Some n => formatPricingNumber (div n (of_Z 2)) | None => [] end) p in
  fold_left (fun p key =>
    setFormValue (ratioFieldByLane key)
      (if nextLaneEnabled key then deriveLaneRatio key (nextLanePrices key) nextPromptPrice nextLanePrices else []) p)
    laneKeys p.

Definition handlePromptPriceChange (value : jsstr) (p : Panel) : Panel :=
  if numericDraft value then syncLaneRatios value (lanePrices p) (laneEnabled p) (setPromptPrice value p) else p.

Definition handleLanePriceChange (lane : LaneKey) (value : jsstr) (p : Panel) : Panel :=
  if negb (numericDraft value) then p
  else
    let nextLanePrices := put lane value (lanePrices p) in
    let p := setLanePrices nextLanePrices p in
    let p :=
      if laneEnabled p lane
      then setFormValue (ratioFieldByLane lane) (deriveLaneRatio lane value (promptPrice p) nextLanePrices) p else p in
    if bool_decide (lane = LAudioInput) && laneEnabled p LAudioOutput
    then setFormValue AudioCompletionRatio
           (deriveLaneRatio LAudioOutput (nextLanePrices LAudioOutput) (promptPrice p) nextLanePrices) p
    else p.

Definition handleLaneToggle (lane : LaneKey) (checked : bool) (p : Panel) : Panel :=
  let nextEnabled := put lane checked (laneEnabled p) in
  if checked then
    p |> setLaneEnabled nextEnabled |> setLanePrices (lanePrices p)
      |> setFormValue (ratioFieldByLane lane) (deriveLaneRatio lane (lanePrices p lane) (promptPrice p) (lanePrices p))
  else
    let nextPrices := put lane [] (lanePrices p) in
    let p := setFormValue (ratioFieldByLane lane) [] p in
    if decide (lane = LAudioInput) then
      p |> setFormValue AudioCompletionRatio [] |> setLaneEnabled (put LAudioOutput false nextEnabled)
        |> setLanePrices (put LAudioOutput [] nextPrices)
    else p |> setLaneEnabled nextEnabled |> setLanePrices nextPrices.

Definition handleModeChange (nextMode : PricingMode) (p : Panel) : Panel :=
  let q := setMode nextMode p in
  if bool_decide (nextMode = TieredExpr) && negb (truthy (p_billingExpr p))
  then setBillingExpr (Json.jq "tier('base', p * 0 + c * 0)") q else q.

(** ** Committing *)

Definition dependentPrices (p : Panel) : bool :=
  existsb (fun key => laneEnabled p key && hasValue (lanePrices p key)) laneKeys.

(** The two conditions of [warnings] and [validatePricingValues]. *)
Definition lacksInputPrice (p : Panel) : bool :=
  bool_decide (pricingMode p = PerToken) && negb (bool_decide (is_Some (toNumberOrNull (promptPrice p)))) && dependentPrices p.

Definition lacksAudioInput (p : Panel) : bool :=
  bool_decide (pricingMode p = PerToken) && laneEnabled p LAudioOutput && negb (hasValue (lanePrices p LAudioInput)).

Definition validatePricingValues (p : Panel) : bool := negb (lacksInputPrice p) && negb (lacksAudioInput p).

Definition buildSubmitData (p : Panel) : ModelRatioData :=
  mkData (trim (formName p)) (formPrices p) (pricingMode p)
    (if bool_decide (pricingMode p = TieredExpr) then p_billingExpr p else [])
    (if bool_decide (pricingMode p = TieredExpr) then p_requestRuleExpr p else []).

(** [form.trigger()] asks for a name. *)
Definition commitDraft (p : Panel) : option ModelRatioData :=
  if truthy (formName p) && validatePricingValues p then Some (buildSubmitData p) else None.

(** ** Events *)

Inductive PanelEvent :=
| TypeName (x : jsstr)
| TypePromptPrice (x : jsstr)
| TypeLanePrice (l : LaneKey) (x : jsstr)
| ToggleLane (l : LaneKey) (checked : bool)
| TypePrice (x : jsstr)
| ChangeMode (m : PricingMode)
| ChangeExpr (x : jsstr)
| ChangeRules (x : jsstr).

(** A lane for audio output needs one for audio input. *)
Definition laneDisabled (p : Panel) (l : LaneKey) : bool :=
  bool_decide (l = LAudioOutput) && (negb (laneEnabled p LAudioInput) || negb (hasValue (lanePrices p LAudioInput))).

(** An event of a disabled control does not happen. *)
Definition panelStep (isEditMode : bool) (p : Panel) (e : PanelEvent) : Panel :=
  match e with
  | TypeName x => if isEditMode then p else setName x p
  | TypePromptPrice x => handlePromptPriceChange x p
  | TypeLanePrice l x => if laneDisabled p l || negb (laneEnabled p l) then p else handleLanePriceChange l x p
  | ToggleLane l b => if laneDisabled p l then p else handleLaneToggle l b p
  | TypePrice x => if numericDraft x then setFormValue Price x p else p
  | ChangeMode m => handleModeChange m p
  | ChangeExpr x => setBillingExpr x p
  | ChangeRules x => setRequestRuleExpr x p
  end.

(** ** The preview *)

Record PreviewRow := mkPreview { v_key : jsstr; v_label : jsstr; v_value : jsstr; v_multiline : bool }.

Definition lanePreview (t : jsstr -> jsstr) (p : Panel) (key label : jsstr) (l : LaneKey) : PreviewRow :=
  mkPreview key (t label)
    (if laneEnabled p l && truthy (lanePrices p l) then 36 :: lanePrices p l else t (js "Empty")) false.

Definition buildPreviewRows (t : jsstr -> jsstr) (p : Panel) : list PreviewRow :=
  match pricingMode p with
  | TieredExpr =>
      let effectiveExpr := combineBillingExpr (p_billingExpr p) (p_requestRuleExpr p) in
      [ mkPreview (js "mode") (js "BillingMode") (js "tiered_expr") false;
        mkPreview (js "expr") (t (js "Expression")) (if truthy effectiveExpr then effectiveExpr else t (js "Empty")) true ]
  | PerRequest =>
      [ mkPreview (js "price") (js "ModelPrice")
          (if truthy (formPrices p Price) then formPrices p Price else t (js "Empty")) false ]
  | PerToken =>
      [ mkPreview (js "inputPrice") (t (js "Input price"))
          (if truthy (promptPrice p) then 36 :: promptPrice p else t (js "Empty")) false;
        lanePreview t p (js "completion") (js "Completion price") LCompletion;
        lanePreview t p (js "cache") (js "Cache read price") LCache;
        lanePreview t p (js "createCache") (js "Cache write price") LCreateCache;
        lanePreview t p (js "image") (js "Image input price") LImage;
        lanePreview t p (js "audio") (js "Audio input price") LAudioInput;
        lanePreview t p (js "audioCompletion") (js "Audio output price") LAudioOutput ]
  end.

(** ** Samples *)

(** A ratio of 1.25 is an input price of 2.5; a completion price of 10 is four times as much. *)
Example panel_sample :
  let p := fold_left (panelStep false) [TypeName (js "m"); TypePromptPrice (js "2.5"); ToggleLane LCompletion true; TypeLanePrice LCompletion (js "10")]
             (loadPanel None) in
  formPrices p Ratio = js "1.25" /\ formPrices p CompletionRatio = js "4" /\
  lanePrices (loadPanel (Some (buildSubmitData p))) LCompletion = js "10".
Proof. vm_compute. repeat split. Qed.

Example drift_sample :
  formatPricingNumber (div (of_num (mkNum 3 (-1))) (of_num (mkNum 1 (-1)))) = js "3" /\ deriveLanePrice (js "0.1") (js "3") = js "0.3".
Proof. vm_compute. split; reflexivity. Qed.

End ModelPricingPanel.
