(* ===== verification/ModelPricingPage.v ===== *)
(** * Model prices: the page

    [ModelRatioForm], its visual editor and the settings card that keeps the
    form and saves it ([model-ratio-form.tsx], [model-ratio-visual-editor.tsx],
    [ratio-settings-card.tsx]), on a wide screen: the drafts of the ten options,
    what is taken for saved, the open editor and what the server holds, as events
    of a state machine.  The answers of the server are part of the events. *)

From S2P Require Import Prelude JsString JsCollections Json JsonNumber JsonText JsValue JsDouble BillingExpr ModelPricing ModelPricingPanel.
Import Json JsValue ModelPricing ModelPricingPanel.

Module ModelPricingPage.

(** ** Texts of JSON *)

Definition formatJsonForTextarea (value : jsstr) : jsstr :=
  if negb (truthy (trim value)) then []
  else match JSON_parse value with Some v => JsonText.JSON_pretty v | None => value end.

Definition normalizeJsonString (value : jsstr) : jsstr :=
  let trimmed := trim value in
  if negb (truthy trimmed) then []
  else match JSON_parse trimmed with Some v => JsonText.JSON_stringify v | None => trimmed end.

(** [validateJsonString(value).valid] *)
Definition validJsonString (value : jsstr) : bool :=
  let trimmed := trim value in
  negb (truthy trimmed) || match JSON_parse trimmed with Some _ => true | None => false end.

(** ** State *)

(** The values of the form: the ten texts and a switch. *)
Record ModelFormValues := mkForm { texts : Options jsstr; exposeRatioEnabled : bool }.

Inductive FormKey := Text (o : OptionField) | ExposeRatioEnabled.

#[export] Instance FormKey_eq_dec : EqDecision FormKey.
Proof. solve_decision. Defined.

(** [Object.keys(normalized)] *)
Definition formKeys : list FormKey :=
  map (fun f => Text (OfPrice f)) priceFields ++ [ExposeRatioEnabled; Text BillingMode; Text BillingExpr].

(** The value of an option. *)
Inductive Stored := StoredText (x : jsstr) | StoredFlag (b : bool).

#[export] Instance Stored_eq_dec : EqDecision Stored.
Proof. solve_decision. Defined.

Definition valueAt (v : ModelFormValues) (k : FormKey) : Stored :=
  match k with Text o => StoredText (texts v o) | ExposeRatioEnabled => StoredFlag (exposeRatioEnabled v) end.

Definition priceKey (f : PriceField) : jsstr :=
  match f with
  | Price => js "ModelPrice" | Ratio => js "ModelRatio" | CacheRatio => js "CacheRatio" | CreateCacheRatio => js "CreateCacheRatio"
  | CompletionRatio => js "CompletionRatio" | ImageRatio => js "ImageRatio" | AudioRatio => js "AudioRatio"
  | AudioCompletionRatio => js "AudioCompletionRatio"
  end.

(** [apiKeyMap[key] || key] *)
Definition apiKey (k : FormKey) : jsstr :=
  match k with
  | Text (OfPrice f) => priceKey f
  | ExposeRatioEnabled => js "ExposeRatioEnabled"
  | Text BillingMode => js "billing_setting.billing_mode"
  | Text BillingExpr => js "billing_setting.billing_expr"
  end.

Definition normalizeForm (v : ModelFormValues) : ModelFormValues :=
  mkForm (fun o => normalizeJsonString (texts v o)) (exposeRatioEnabled v).

Definition formatForm (v : ModelFormValues) : ModelFormValues :=
  mkForm (fun o => formatJsonForTextarea (texts v o)) (exposeRatioEnabled v).

Inductive ViewMode := VisualView | JsonView.

Record Page := mkPage {
  savedModelValues : ModelFormValues;      (* also [modelNormalizedDefaults.current] *)
  modelForm : ModelFormValues;
  viewMode : ViewMode;
  editData : option ModelRatioData;
  panel : option Panel;                    (* [None]: the editor is closed *)
  globalFilter : jsstr;
  server : FormKey -> Stored }.

Definition setSaved (x : ModelFormValues) (s : Page) : Page :=
  mkPage x (modelForm s) (viewMode s) (editData s) (panel s) (globalFilter s) (server s).
Definition setForm (x : ModelFormValues) (s : Page) : Page :=
  mkPage (savedModelValues s) x (viewMode s) (editData s) (panel s) (globalFilter s) (server s).
Definition setEditor (d : option ModelRatioData) (p : option Panel) (s : Page) : Page :=
  mkPage (savedModelValues s) (modelForm s) (viewMode s) d p (globalFilter s) (server s).
Definition setView (v : ViewMode) (s : Page) : Page :=
  mkPage (savedModelValues s) (modelForm s) v (editData s) (panel s) (globalFilter s) (server s).
Definition setFilter (x : jsstr) (s : Page) : Page :=
  mkPage (savedModelValues s) (modelForm s) (viewMode s) (editData s) (panel s) x (server s).
Definition setServer (x : FormKey -> Stored) (s : Page) : Page :=
  mkPage (savedModelValues s) (modelForm s) (viewMode s) (editData s) (panel s) (globalFilter s) x.

Definition setTexts (x : Options jsstr) (s : Page) : Page := setForm (mkForm x (exposeRatioEnabled (modelForm s))) s.

(** The page on the settings [defaults]. *)
Definition initPage (defaults : ModelFormValues) : Page :=
  mkPage (normalizeForm defaults) (formatForm defaults) VisualView None None [] (valueAt defaults).

(** The effect that follows new settings; a text in the settings is what the server holds. *)
Definition onDefaults (defaults : ModelFormValues) (s : Page) : Page :=
  s |> setSaved (normalizeForm defaults) |> setForm (formatForm defaults).

Section Page.
Variable localeCompare : jsstr -> jsstr -> Z.

Definition models (s : Page) : option (list ModelRow) := modelRows localeCompare (texts (savedModelValues s)) (texts (modelForm s)).

(** ** The visual editor *)

(** [setEditData(data)] and [setEditorOpen(true)]: the panel loads new data, and
    data when it is mounted; it keeps its state when there were no data before. *)
Definition openEditor (data : option ModelRatioData) (s : Page) : Page :=
  let keeps := match data, editData s with None, None => true | _, _ => false end in
  setEditor data (Some (match panel s with
    | Some p => if keeps then p else loadPanel data
    | None => loadPanel data
    end)) s.

Definition closeEditor (s : Page) : Page := setEditor None None s.

Definition dataOfSnapshot (e : ModelPricingSnapshot) : ModelRatioData :=
  mkData (s_name e) (s_prices e)
    (if bool_decide (s_mode e = TieredExpr) then TieredExpr else if truthy (s_prices e Price) then PerRequest else PerToken)
    (s_billingExpr e ?? []) (s_requestRuleExpr e ?? []).

Definition handleEdit (model : ModelRow) (s : Page) : Page :=
  let editableModel :=
    match r_draft model, r_saved model with Some d, _ => d | None, Some d => d | None, None => r_displayed model end in
  openEditor (Some (dataOfSnapshot editableModel)) s.

Definition handleAdd (s : Page) : Page := openEditor None s.

Definition handleGlobalFilterChange (next : jsstr) (s : Page) : Page :=
  setFilter next (if bool_decide (next = globalFilter s) then s else closeEditor s).

Definition deleteModel (name : jsstr) (s : Page) : option Page :=
  texts' ← handleDelete (texts (modelForm s)) name;
  let s := setTexts texts' s in
  Some (match editData s with
        | Some d => if bool_decide (d_name d = name) then closeEditor s else s
        | None => s
        end).

(** [persistPricingData(data, targetNames)] *)
Definition persist (data : ModelRatioData) (targetNames : list jsstr) (s : Page) : option Page :=
  texts' ← persistPricingData (texts (modelForm s)) data targetNames; Some (setTexts texts' s).

Definition handleBatchCopy (targetNames : list jsstr) (s : Page) : option Page :=
  match editData s, targetNames with
  | Some data, _ :: _ => persist data targetNames s
  | _, _ => Some s
  end.

(** [commitOpenEditor()] *)
Definition commitOpenEditor (s : Page) : option (bool * Page) :=
  match panel s with
  | None => Some (true, s)
  | Some p =>
      match commitDraft p with
      | None => Some (false, s)
      | Some data =>
          s ← persist data [d_name data] s; Some (true, setEditor (Some data) (Some (loadPanel (Some data))) s)
      end
  end.

(** ** Saving *)

(** The answer to an update: a success, a refusal in the answer, or an error that is thrown. *)
Inductive Answer := Accepted | Refused | Thrown.

Definition updates (saved normalized : ModelFormValues) : list FormKey :=
  List.filter (fun k => negb (bool_decide (valueAt normalized k = valueAt saved k))) formKeys.

(** [useUpdateOption] resolves also when the answer is a refusal. *)
Fixpoint sendUpdates (normalized : ModelFormValues) (keys : list FormKey) (answers : list Answer) (srv : FormKey -> Stored)
  : bool * (FormKey -> Stored) :=
  match keys, answers with
  | [], _ => (true, srv)
  | k :: keys, Accepted :: answers => sendUpdates normalized keys answers (put k (valueAt normalized k) srv)
  | _ :: keys, Refused :: answers => sendUpdates normalized keys answers srv
  | _ :: _, _ => (false, srv)
  end.

Definition saveModelRatios (answers : list Answer) (s : Page) : Page :=
  let normalized := normalizeForm (modelForm s) in
  let keys := updates (savedModelValues s) normalized in
  let '(done, srv) := sendUpdates normalized keys answers (server s) in
  let s := setServer srv s in
  if done then setSaved normalized s else s.

Definition validForm (v : ModelFormValues) : bool := forallb (fun o => validJsonString (texts v o)) optionFields.

(** [form.handleSubmit(onSave)()] *)
Definition submit (answers : list Answer) (s : Page) : Page :=
  if validForm (modelForm s) then saveModelRatios answers s else s.

Definition handleSave (answers : list Answer) (s : Page) : option Page :=
  match viewMode s with
  | VisualView =>
      match commitOpenEditor s with
      | Some (committed, s) => Some (if committed then submit answers s else s)
      | None => None
      end
  | JsonView => Some (submit answers s)
  end.

(** The visual editor and its state go with its view. *)
Definition toggleEditMode (s : Page) : Page :=
  match viewMode s with
  | VisualView => s |> closeEditor |> setFilter [] |> setView JsonView
  | JsonView => setView VisualView s
  end.

(** ** Events *)

Inductive Event :=
| EditRow (i : nat)
| Add
| Filter (x : jsstr)
| Delete (name : jsstr)
| BatchCopy (names : list jsstr)
| InPanel (e : PanelEvent)
| TypeJson (f : PriceField) (x : jsstr)
| SetExpose (b : bool)
| ToggleView
| Save (answers : list Answer)
| Refetched.

(** The settings as the server holds them. *)
Definition serverForm (s : Page) : ModelFormValues :=
  mkForm (fun o => match server s (Text o) with StoredText x => x | _ => [] end)
    (match server s ExposeRatioEnabled with StoredFlag b => b | _ => false end).

Definition handle (s : Page) (e : Event) : option Page :=
  match e with
  | EditRow i =>
      match viewMode s with
      | VisualView => rows ← models s; row ← rows !! i; Some (handleEdit row s)
      | JsonView => None
      end
  | Add => match viewMode s with VisualView => Some (handleAdd s) | JsonView => None end
  | Filter x => match viewMode s with VisualView => Some (handleGlobalFilterChange x s) | JsonView => None end
  | Delete name => match viewMode s with VisualView => deleteModel name s | JsonView => None end
  | BatchCopy names => match viewMode s with VisualView => handleBatchCopy names s | JsonView => None end
  | InPanel e =>
      p ← panel s;
      Some (setEditor (editData s) (Some (panelStep (bool_decide (is_Some (editData s))) p e)) s)
  | TypeJson f x =>
      match viewMode s with
      | JsonView => Some (setTexts (put (OfPrice f) x (texts (modelForm s))) s)
      | VisualView => None
      end
  | SetExpose b => Some (setForm (mkForm (texts (modelForm s)) b) s)
  | ToggleView => Some (toggleEditMode s)
  | Save answers => handleSave answers s
  | Refetched => Some (onDefaults (serverForm s) s)
  end.

Inductive reachable : Page -> Prop :=
| reach_init defaults : reachable (initPage defaults)
| reach_step s e s' : reachable s -> handle s e = Some s' -> reachable s'.

End Page.
End ModelPricingPage.
