(* ===== verification/ModelPricingFacts.v ===== *)
(** * Model prices: what is written and read back

    The maps that saving, copying and deleting prices write, and what the
    snapshots read from their texts. *)

From S2P Require Import Prelude JsString JsCollections Json JsonNumber JsonText JsonLocal JsValue JsonCanon JsDouble BillingExpr ModelPricing.
Import Json JsonNumber JsonText JsonLocal JsValue JsonCanon JsDouble ModelPricing.

Module ModelPricingFacts.

(** The text is empty, unreadable or an object, in units of UTF-16. *)
Definition objectText (x : jsstr) : Prop := wf_str x /\ exists fields, safeJsonParse x = JObj fields.

Lemma parsed_printable x : wf_str x -> printable (safeJsonParse x).
Proof.
  intros Hx. assert (printable (JObj [])) as He by (constructor; constructor).
  unfold safeJsonParse. destruct (truthy (trim x)); cbn [negb]; [|done].
  destruct (JSON_parse (trim x)) as [v|] eqn:E; [|done]. eapply parse_printable; [|exact E]. by apply trim_wf.
Qed.

Lemma parsed_pretty v : printable v -> safeJsonParse (JSON_pretty v) = canon v.
Proof.
  intros Hv. pose proof (parse_trim _ _ (pretty_reads _ Hv)) as Hp. unfold safeJsonParse. by rewrite (parse_truthy _ _ Hp), Hp.
Qed.

Lemma canon_field fs k : printable (JObj fs) -> member (canon (JObj fs)) k = canon <$> map_get fs k.
Proof. intros H. apply canon_get. by inversion H. Qed.

(** ** Folds of writes *)

(** Deleting and perhaps setting a name. *)
Definition rewritten (e : option json) (fs : list (jsstr * json)) (name : jsstr) : list (jsstr * json) :=
  let fs := map_delete fs name in match e with Some v => map_set fs name v | None => fs end.

Lemma writeEntry_obj data o fs name : writeEntry data o (JObj fs) name = Some (JObj (rewritten (entryOf data o) fs name)).
Proof. unfold writeEntry, rewritten. cbn. by destruct (entryOf data o). Qed.

Lemma writes_obj data o fs names :
  foldlM (writeEntry data o) (JObj fs) names = Some (JObj (fold_left (rewritten (entryOf data o)) names fs)).
Proof.
  revert fs. induction names as [|n ns IH]; intros fs; [done|]. cbn [foldlM fold_left]. rewrite writeEntry_obj. apply IH.
Qed.

Lemma rewritten_get e fs name k :
  map_get (rewritten e fs name) k = if decide (k = name) then e else map_get fs k.
Proof.
  unfold rewritten. destruct e as [v|]; case_decide as Hk; subst.
  - apply map_get_set_eq.
  - rewrite map_get_set_ne by done. by apply map_get_delete_ne.
  - apply map_get_delete_eq.
  - by apply map_get_delete_ne.
Qed.

Lemma writes_get e names fs k :
  map_get (fold_left (rewritten e) names fs) k = if decide (k ∈ names) then e else map_get fs k.
Proof.
  revert fs. induction names as [|n ns IH]; intros fs; [done|]. cbn [fold_left]. rewrite IH, rewritten_get.
  destruct (decide (k ∈ ns)); [by rewrite decide_True by (by right)|].
  destruct (decide (k = n)) as [-> |]; [by rewrite decide_True by left|]. rewrite decide_False; [done|].
  rewrite elem_of_cons. naive_solver.
Qed.

Lemma writes_printable e names fs :
  Forall wf_str names -> (forall v, e = Some v -> printable v) -> printable (JObj fs) ->
  printable (JObj (fold_left (rewritten e) names fs)).
Proof.
  intros Hn He. revert fs. induction Hn as [|n ns Hn _ IH]; intros fs Hf; [done|]. cbn [fold_left]. apply IH.
  unfold rewritten. destruct e as [v|]; [apply printable_set; [done|by apply He|]|]; by apply printable_delete.
Qed.

(** ** All options *)

Lemma allOptions_total {A} (read : OptionField -> option A) (g : OptionField -> A) :
  (forall o, read o = Some (g o)) -> exists opts, allOptions read = Some opts /\ forall o, opts o = g o.
Proof.
  intros H. unfold allOptions. rewrite !H. eexists. split; [done|]. by intros [[]| |].
Qed.

Lemma pricesOf_total (read : PriceField -> option jsstr) g :
  (forall f, read f = Some (g f)) -> exists p, pricesOf read = Some p /\ forall f, p f = g f.
Proof. intros H. unfold pricesOf. rewrite !H. eexists. split; [done|]. by intros []. Qed.

Lemma pricesOf_ext r r' : (forall f, r f = r' f) -> pricesOf r = pricesOf r'.
Proof. intros H. unfold pricesOf. by rewrite !H. Qed.

(** ** What is read back *)

(** The data have texts in units of UTF-16. *)
Definition dataUnits (data : ModelRatioData) : Prop := wf_str (d_billingExpr data) /\ wf_str (d_requestRuleExpr data).

Lemma entry_printable data o v : dataUnits data -> entryOf data o = Some v -> printable v.
Proof.
  intros [He Hr]. assert (forall x w, numberEntry x = Some w -> printable w) as Hnum.
  { intros x w. unfold numberEntry. destruct (truthy x); [|done]. cbn. destruct (parseFloat x); [|done]. intros [= <-]. constructor. }
  assert (wf_str (BillingExpr.combineBillingExpr (d_billingExpr data) (d_requestRuleExpr data))) as Hc.
  { unfold BillingExpr.combineBillingExpr. cbv zeta. destruct (truthy (trim (d_billingExpr data))); [|constructor].
    destruct (truthy (trim (d_requestRuleExpr data))); cbn [negb]; [|by apply trim_wf].
    repeat (apply Forall_app; split); try (by apply trim_wf); apply (bool_decide_unpack _); vm_compute; reflexivity. }
  unfold entryOf. destruct (d_billingMode data), o as [f| |]; try done; try (destruct f; try case_match; eauto; done).
  - destruct (truthy _); [|done]. intros [= <-]. constructor. apply (bool_decide_unpack _). vm_compute. reflexivity.
  - destruct (truthy _); [|done]. intros [= <-]. by constructor.
Qed.

(** The texts after a write, entry by entry. *)
Lemma persist_reads texts data names :
  (forall o, objectText (texts o)) -> dataUnits data -> Forall wf_str names ->
  exists texts', persistPricingData texts data names = Some texts' /\
    forall o, objectText (texts' o) /\
      forall n, member (safeJsonParse (texts' o)) n
                = if decide (n ∈ names) then canon <$> entryOf data o else canon <$> member (safeJsonParse (texts o)) n.
Proof.
  intros Ht Hd Hn. unfold persistPricingData.
  destruct (allOptions_total (fun o => foldlM (writeEntry data o) (safeJsonParse (texts o)) names)
    (fun o => JObj (fold_left (rewritten (entryOf data o)) names
                      (match safeJsonParse (texts o) with JObj fs => fs | _ => [] end)))) as (maps & -> & Hm).
  { intros o. destruct (Ht o) as (_ & fs & ->). apply writes_obj. }
  eexists. split; [done|]. intros o. cbn beta. rewrite Hm. destruct (Ht o) as (Hx & fs & E).
  pose proof (parsed_printable (texts o) Hx) as Hp. rewrite E in *.
  pose proof (writes_printable (entryOf data o) names fs Hn (fun v => entry_printable data o v Hd) Hp) as Hw.
  assert (safeJsonParse (JSON_pretty (JObj (fold_left (rewritten (entryOf data o)) names fs)))
          = canon (JObj (fold_left (rewritten (entryOf data o)) names fs))) as Er by by apply parsed_pretty.
  split; [split; [by apply (pretty_wf _ Hw)|rewrite Er; cbn [canon]; eauto]|]. intros n. rewrite Er, canon_field by done.
  rewrite writes_get. by destruct (decide (n ∈ names)).
Qed.

Lemma delete_reads texts name :
  (forall o, objectText (texts o)) ->
  exists texts', handleDelete texts name = Some texts' /\
    forall o, objectText (texts' o) /\
      forall n, member (safeJsonParse (texts' o)) n = if decide (n = name) then None else canon <$> member (safeJsonParse (texts o)) n.
Proof.
  intros Ht. unfold handleDelete.
  destruct (allOptions_total (fun o => deleteProp (safeJsonParse (texts o)) name)
    (fun o => JObj (map_delete (match safeJsonParse (texts o) with JObj fs => fs | _ => [] end) name))) as (maps & -> & Hm).
  { intros o. by destruct (Ht o) as (_ & fs & ->). }
  eexists. split; [done|]. intros o. cbn beta. rewrite Hm. destruct (Ht o) as (Hx & fs & E).
  pose proof (parsed_printable (texts o) Hx) as Hp. rewrite E in *. pose proof (printable_delete fs name Hp) as Hw.
  assert (safeJsonParse (JSON_pretty (JObj (map_delete fs name))) = canon (JObj (map_delete fs name))) as Er by by apply parsed_pretty.
  split; [split; [by apply (pretty_wf _ Hw)|rewrite Er; cbn [canon]; eauto]|]. intros n. rewrite Er, canon_field by done.
  case_decide as Hk; [subst; by rewrite map_get_delete_eq|]. by rewrite map_get_delete_ne.
Qed.

(** A text in its canonical form gives the same snapshot. *)
Lemma snapshot_canon maps maps' n :
  (forall o, member (maps' o) n = canon <$> member (maps o) n) ->
  (forall o v, member (maps o) n = Some v -> distinct v) ->
  snapshotOf maps' n = snapshotOf maps n.
Proof.
  intros Hm Hd. unfold snapshotOf.
  assert (forall f, priceText (member (maps' (OfPrice f)) n) = priceText (member (maps (OfPrice f)) n)) as Hp.
  { intros f. rewrite Hm. destruct (member (maps (OfPrice f)) n) as [v|] eqn:E; [|done]. apply Hd in E. cbn.
    pose proof (String_of_canon v E) as Hs. by destruct v. }
  rewrite (pricesOf_ext _ _ Hp), !Hm. destruct (pricesOf _) as [p|]; [|done]. cbn.
  assert (isTiered (canon <$> member (maps BillingMode) n) = isTiered (member (maps BillingMode) n)) as ->
    by (by destruct (member (maps BillingMode) n) as [[]|]).
  destruct (isTiered _); [|done].
  assert (js_or (canon <$> member (maps BillingExpr) n) (JStr []) = canon (js_or (member (maps BillingExpr) n) (JStr []))) as ->
    by apply (js_or_canon _ (JStr [])).
  by destruct (js_or (member (maps BillingExpr) n) (JStr [])).
Qed.

(** How a number that was typed is shown: a text that is no number is not. *)
Definition shownNumber (x : jsstr) : jsstr := match parseFloat x with Some n => num_text n | None => [] end.

(** The prices that are shown of what was written: each is the number that was
    entered for it; a fixed price excludes the token prices, unless the model
    has an expression. *)
Definition writtenPrices (data : ModelRatioData) : Prices := fun f =>
  if decide (d_billingMode data = TieredExpr \/ f = Price \/ d_prices data Price = [])
  then shownNumber (d_prices data f) else [].

Lemma numberEntry_text x : priceText (canon <$> numberEntry x) = Some (shownNumber x).
Proof.
  unfold numberEntry, shownNumber. destruct x as [|c x]; [done|]. cbn [truthy negb].
  destruct (parseFloat (c :: x)) as [n|]; [|done]. cbn. f_equal. apply num_text_renum.
Qed.

Lemma entry_text data f : priceText (canon <$> entryOf data (OfPrice f)) = Some (writtenPrices data f).
Proof.
  unfold writtenPrices, entryOf. destruct (d_billingMode data).
  3: by rewrite decide_True by (by left); apply numberEntry_text.
  all: destruct (d_prices data Price) as [|c x] eqn:E; cbn [truthy].
  all: destruct f; (rewrite decide_True by tauto) || rewrite decide_False by naive_solver.
  all: rewrite ?E; try apply numberEntry_text; done.
Qed.

Lemma entry_member_distinct texts o n v :
  objectText (texts o) -> member (parseMaps texts o) n = Some v -> distinct v.
Proof.
  intros [Hx (fs & E)]. unfold parseMaps. rewrite E. cbn [member]. intros Hm. pose proof (parsed_printable _ Hx) as Hp.
  rewrite E in Hp. apply printable_distinct. by eapply printable_get.
Qed.

(** ** Names *)

Lemma mapM_total {A B} (f : A -> option B) g l : (forall x, f x = Some (g x)) -> mapM f l = Some (map g l).
Proof. intros H. induction l as [|x l IH]; [done|]. cbn [mapM map]. rewrite H. cbn. by rewrite IH. Qed.

Lemma names_spec texts :
  (forall o, objectText (texts o)) ->
  exists names, modelNames (parseMaps texts) = Some names /\ NoDup names /\
    forall n, n ∈ names <-> exists o, is_Some (member (safeJsonParse (texts o)) n).
Proof.
  intros Ht. unfold modelNames.
  assert (forall o, keysOf (parseMaps texts o) = Some (own_entries (safeJsonParse (texts o))).*1) as Hk.
  { intros o. unfold parseMaps. by destruct (Ht o) as (_ & fs & ->). }
  rewrite (mapM_total _ _ _ Hk). eexists. split; [done|]. split; [apply set_of_nodup|]. intros n.
  rewrite (set_of_concat (fun o => (own_entries (safeJsonParse (texts o))).*1)).
  assert (forall o, n ∈ (own_entries (safeJsonParse (texts o))).*1 <-> is_Some (member (safeJsonParse (texts o)) n)) as He.
  { intros o. destruct (Ht o) as (_ & fs & ->). cbn [own_entries member]. rewrite list_elem_of_fmap. split.
    - intros ([k v] & -> & Hin). apply (proj1 (Object_entries_elem _ _)) in Hin. cbn.
      destruct (map_get fs k) eqn:E; [done|]. exfalso. apply map_get_None in E. apply E, list_elem_of_fmap. by exists (k, v).
    - intros [v Hv]. exists (n, v). split; [done|]. apply (proj2 (Object_entries_elem _ _)). by apply map_get_Some_elem. }
  split; [intros (o & _ & Ho); exists o; by apply He|]. intros [o Ho]. exists o. split; [|by apply He].
  destruct o as [[]| |]; set_solver.
Qed.

End ModelPricingFacts.
