(* ===== verification/ModelPricingProperties.v ===== *)
(** * Model prices: what the page guarantees

    The panel shows the prices it saves; what is saved, copied or deleted is what
    the table shows afterwards, for these models and no other; a change is marked
    exactly when there is one; what counts as saved is what the server holds.
    Where the sources fail to do what they mean to do, a theorem says how. *)

From S2P Require Import Prelude JsString JsCollections Json JsonNumber JsonText JsonLocal JsValue JsonCanon JsDouble BillingExpr ModelPricing ModelPricingPanel ModelPricingPage ModelPricingFacts.
Import Json JsonNumber JsonText JsonLocal JsValue JsonCanon JsDouble ModelPricing ModelPricingPanel ModelPricingPage ModelPricingFacts.

Module ModelPricingProperties.

(** ** The panel *)

(** The price a lane is relative to. *)
Definition basePrice (p : Panel) (l : LaneKey) : jsstr :=
  if decide (l = LAudioOutput) then lanePrices p LAudioInput else promptPrice p.

(** A lane that is off has no price and no ratio; of one that is on, the ratio is
    computed from the price that is shown, or the price from the ratio that was loaded. *)
Definition laneOk (p : Panel) (l : LaneKey) : Prop :=
  if laneEnabled p l then
    formPrices p (ratioFieldByLane l) = deriveLaneRatio l (lanePrices p l) (promptPrice p) (lanePrices p) \/
    lanePrices p l = deriveLanePrice (formPrices p (ratioFieldByLane l)) (basePrice p l)
  else lanePrices p l = [] /\ formPrices p (ratioFieldByLane l) = [].

Definition inputOk (p : Panel) : Prop :=
  formPrices p Ratio = match toNumberOrNull (promptPrice p) with Some n => formatPricingNumber (div n (of_Z 2)) | None => [] end \/
  promptPrice p = ratioToBasePrice (formPrices p Ratio).

Lemma load_ok data : inputOk (loadPanel data) /\ forall l, laneOk (loadPanel data) l.
Proof.
  destruct data as [d|]; [|split; [by left|done]]. split; [by right|]. intros l. unfold laneOk, basePrice.
  cbn [loadPanel laneEnabled formPrices lanePrices promptPrice createInitialLaneState enabled_of prices_of promptPrice_of].
  destruct (hasValue (d_prices d (ratioFieldByLane l))) eqn:E; [right; by destruct l|].
  destruct (d_prices d (ratioFieldByLane l)) as [|c x] eqn:Ep; [|done]. split; [|done].
  destruct l; cbn [ratioFieldByLane] in *; rewrite ?Ep; reflexivity.
Qed.

Lemma sync_lane x prices enabled p l :
  formPrices (syncLaneRatios x prices enabled p) (ratioFieldByLane l)
  = if enabled l then deriveLaneRatio l (prices l) x prices else [].
Proof. by destruct l. Qed.

Lemma sync_rest x prices enabled p :
  laneEnabled (syncLaneRatios x prices enabled p) = laneEnabled p /\ lanePrices (syncLaneRatios x prices enabled p) = lanePrices p /\
  promptPrice (syncLaneRatios x prices enabled p) = promptPrice p /\ pricingMode (syncLaneRatios x prices enabled p) = pricingMode p.
Proof. done. Qed.

Lemma prompt_ok x p : (forall l, laneOk p l) -> inputOk p -> inputOk (handlePromptPriceChange x p) /\ forall l, laneOk (handlePromptPriceChange x p) l.
Proof.
  intros Hl Hi. unfold handlePromptPriceChange. destruct (numericDraft x); [|done]. split; [by left|].
  intros l. specialize (Hl l). unfold laneOk, basePrice in *. rewrite sync_lane.
  destruct (sync_rest x (lanePrices p) (laneEnabled p) (setPromptPrice x p)) as (-> & -> & -> & _).
  cbn [laneEnabled lanePrices promptPrice setPromptPrice]. destruct (laneEnabled p l); [by left|]. split; [apply Hl|done].
Qed.

Lemma lane_price_ok l x p :
  laneEnabled p l = true -> (forall k, laneOk p k) -> forall k, laneOk (handleLanePriceChange l x p) k.
Proof.
  intros El Hl k. unfold handleLanePriceChange. destruct (numericDraft x); [|done]. cbn [negb]. cbv zeta.
  cbn [laneEnabled setLanePrices]. rewrite El. specialize (Hl k). unfold laneOk, basePrice in *.
  assert (bool_decide (l = LAudioInput) = match l with LAudioInput => true | _ => false end) as -> by by destruct l.
  cbn [laneEnabled setFormValue setLanePrices]. destruct l; cbn [andb];
    try (destruct k; cbn [laneEnabled setFormValue setLanePrices] in *; first [exact Hl | rewrite El; left; reflexivity]).
  destruct (laneEnabled p LAudioOutput) eqn:Eo; destruct k; cbn [laneEnabled setFormValue setLanePrices] in *;
    first [exact Hl | rewrite El; left; reflexivity | rewrite Eo in *; first [left; reflexivity | exact Hl]].
Qed.

Lemma lane_toggle_ok l b p : (forall k, laneOk p k) -> forall k, laneOk (handleLaneToggle l b p) k.
Proof.
  intros Hl k. specialize (Hl k). unfold handleLaneToggle, laneOk, basePrice in *.
  destruct b, l, k; first [exact Hl | left; reflexivity | split; reflexivity].
Qed.

Lemma input_kept p q : formPrices q Ratio = formPrices p Ratio -> promptPrice q = promptPrice p -> inputOk p -> inputOk q.
Proof. unfold inputOk. by intros -> ->. Qed.

Lemma lanes_kept p q :
  laneEnabled q = laneEnabled p -> lanePrices q = lanePrices p -> promptPrice q = promptPrice p ->
  (forall l, formPrices q (ratioFieldByLane l) = formPrices p (ratioFieldByLane l)) -> (forall l, laneOk p l) -> forall l, laneOk q l.
Proof. unfold laneOk, basePrice. intros -> -> -> Hf Hl l. rewrite Hf. apply Hl. Qed.

Lemma panel_step_ok b p e : inputOk p -> (forall l, laneOk p l) -> inputOk (panelStep b p e) /\ forall l, laneOk (panelStep b p e) l.
Proof.
  intros Hi Hl. destruct e as [x|x|l x|l c|x|m|x|x]; cbn [panelStep].
  - destruct b; done.
  - by apply prompt_ok.
  - destruct (laneDisabled p l || negb (laneEnabled p l)) eqn:E; [done|]. apply orb_false_iff in E as [_ E%negb_false_iff].
    split; [|by apply lane_price_ok]. eapply input_kept; [| |exact Hi]; unfold handleLanePriceChange;
      destruct (numericDraft x); try done; cbn [negb laneEnabled setLanePrices]; cbv zeta; rewrite E;
      destruct (bool_decide (l = LAudioInput)), (laneEnabled p LAudioOutput) eqn:Eo; destruct l; cbn; rewrite ?Eo; reflexivity.
  - destruct (laneDisabled p l); [done|]. split; [|by apply lane_toggle_ok].
    eapply input_kept; [| |exact Hi]; by destruct c, l.
  - destruct (numericDraft x); [|done]. split; [by apply (input_kept p)|].
    apply (lanes_kept p); [done|done|done| |exact Hl]. by intros [].
  - unfold handleModeChange. by destruct (bool_decide (m = TieredExpr) && negb (truthy (p_billingExpr p))).
  - done.
  - done.
Qed.

(** C17: Whatever is typed and switched in the panel for the prices of a model:
    the ratio of a lane is always computed from the price that is shown, or is
    the loaded ratio the shown price was computed from; a lane that is switched
    off has no price and no ratio; and the same of the input price and its ratio. *)
Theorem panel_shows_what_it_saves editMode data events :
  let p := fold_left (panelStep editMode) events (loadPanel data) in
  inputOk p /\ forall l, laneOk p l.
Proof.
  cbv zeta. induction events as [|e es IH] using rev_ind; [apply load_ok|]. rewrite fold_left_app. destruct IH as [Hi Hl].
  by apply panel_step_ok.
Qed.

(** An input price of zero leaves the other lanes without a ratio, and the panel commits it. *)
Theorem zero_input_price_drops_lanes p l :
  l <> LAudioOutput ->
  let q := handlePromptPriceChange (js "0") p in
  formPrices q (ratioFieldByLane l) = [] /\ lanePrices q l = lanePrices p l /\ lacksInputPrice q = false.
Proof.
  intros Hl. cbv zeta. unfold handlePromptPriceChange.
  destruct (numericDraft (js "0")) eqn:En; [|vm_compute in En; discriminate En].
  destruct (sync_rest (js "0") (lanePrices p) (laneEnabled p) (setPromptPrice (js "0") p)) as (_ & Hp & Ht & _).
  split_and!; [|by rewrite Hp|].
  - rewrite sync_lane. destruct (laneEnabled p l); [|done]. unfold deriveLaneRatio. rewrite decide_False by done.
    destruct (toNumberOrNull (lanePrices p l)); [|done]. unfold quotientText.
    destruct (toNumberOrNull (js "0")) as [z|] eqn:Ez; [|done].
    assert (SpecFloat.SFeqb z (of_Z 0) = true) as ->; [|done]. vm_compute in Ez. injection Ez as <-. vm_compute. reflexivity.
  - unfold lacksInputPrice. rewrite Ht. cbn [promptPrice setPromptPrice].
    rewrite (bool_decide_eq_true_2 (is_Some (toNumberOrNull (js "0")))); [cbn [negb]; by rewrite andb_false_r|].
    exists (SpecFloat.S754_zero false). vm_compute. reflexivity.
Qed.

(** ** Writing prices *)

(** The prices per token. *)
Definition tokenLanes : list PriceField :=
  [Ratio; CompletionRatio; CacheRatio; CreateCacheRatio; ImageRatio; AudioRatio; AudioCompletionRatio].

(** What the table shows of a model after [data] were written for it: the
    numbers; with an expression the two parts of the text that joins it to the
    rules; without one the mode that the fixed price decides, and the mark of a
    conflict when there are token prices besides the fixed one. *)
Definition shownAs (data : ModelRatioData) (n : jsstr) (snap : option ModelPricingSnapshot) : Prop :=
  let base := trim (d_billingExpr data) in
  let rules := trim (d_requestRuleExpr data) in
  exists p, (forall f, p f = writtenPrices data f) /\
    snap = if decide (d_billingMode data = TieredExpr /\ base <> []) then
             e ← BillingExpr.splitBillingExprAndRequestRules
                   (if decide (rules = []) then base else js "(" ++ base ++ js ") * " ++ rules);
             Some (mkSnapshot n p TieredExpr (Some (BillingExpr.billingExpr e)) (Some (BillingExpr.requestRuleExpr e)) false)
           else
             Some (mkSnapshot n p (if decide (p Price = []) then PerToken else PerRequest) None None
               (bool_decide (p Price <> [] /\ Exists (fun f => p f <> []) tokenLanes))).

Lemma truthy_decide (x : jsstr) : truthy x = bool_decide (x <> []).
Proof. by destruct x. Qed.

Lemma plain_shown n p :
  plainSnapshot n p = mkSnapshot n p (if decide (p Price = []) then PerToken else PerRequest) None None
    (bool_decide (p Price <> [] /\ Exists (fun f => p f <> []) tokenLanes)).
Proof.
  unfold plainSnapshot. f_equal; [by destruct (p Price)|]. rewrite bool_decide_and, <- truthy_decide. f_equal.
  fold tokenLanes. induction tokenLanes as [|f l IH]; [done|]. cbn [existsb]. rewrite IH, truthy_decide.
  apply eq_bool_prop_intro. rewrite orb_True, !bool_decide_spec, Exists_cons. done.
Qed.

Lemma combined_spec base rules :
  BillingExpr.combineBillingExpr base rules =
  if decide (trim base = []) then []
  else if decide (trim rules = []) then trim base else js "(" ++ trim base ++ js ") * " ++ trim rules.
Proof.
  unfold BillingExpr.combineBillingExpr. destruct (trim base); [done|]. cbn [truthy negb]. by destruct (trim rules).
Qed.

Lemma written_snapshot data maps n :
  (forall o, member (maps o) n = canon <$> entryOf data o) -> shownAs data n (snapshotOf maps n).
Proof.
  intros Hm. unfold snapshotOf.
  destruct (pricesOf_total (fun f => priceText (member (maps (OfPrice f)) n)) (writtenPrices data)) as (p & -> & Hp).
  { intros f. rewrite Hm. apply entry_text. }
  exists p. split; [done|]. cbn [mbind option_bind]. rewrite !Hm, <- plain_shown. unfold entryOf.
  destruct (d_billingMode data); [by rewrite decide_False by naive_solver..|].
  rewrite combined_spec. destruct (decide (trim (d_billingExpr data) = [])) as [Eb|Eb].
  { rewrite decide_False by naive_solver. done. }
  set (full := if decide (trim (d_requestRuleExpr data) = []) then _ else _). rewrite decide_True by done.
  assert (full <> []) as Hf by (subst full; case_decide; [exact Eb|]; by intros [[=] _]%app_eq_nil).
  by destruct full.
Qed.

Lemma written texts data names :
  (forall o, objectText (texts o)) -> dataUnits data -> Forall wf_str names ->
  exists texts', persistPricingData texts data names = Some texts' /\ (forall o, objectText (texts' o)) /\
    (forall n, n ∈ names -> shownAs data n (snapshotOf (parseMaps texts') n)) /\
    (forall n, n ∉ names -> snapshotOf (parseMaps texts') n = snapshotOf (parseMaps texts) n).
Proof.
  intros Ht Hd Hn. destruct (persist_reads texts data names Ht Hd Hn) as (texts' & -> & Hr). exists texts'.
  split; [done|]. split; [intros o; apply Hr|]. split; intros n Hin.
  - apply written_snapshot. intros o. unfold parseMaps. rewrite (proj2 (Hr o)). by rewrite decide_True.
  - apply snapshot_canon; [|intros o v; by apply entry_member_distinct]. intros o. unfold parseMaps. rewrite (proj2 (Hr o)).
    by rewrite decide_False.
Qed.

(** C16: Saving the prices of a model, or copying them to the models that are
    selected, writes them to these models and to no other: afterwards the table
    shows for each of them, in every lane, the number that was entered for it
    (with a fixed price and no expression only the fixed price) and, in the
    mode with an expression, the parts of the expression joined with its rules;
    every other model shows what it showed before. *)
Theorem prices_are_written texts data names :
  (forall o, objectText (texts o)) -> dataUnits data -> Forall wf_str names ->
  exists texts', persistPricingData texts data names = Some texts' /\ (forall o, objectText (texts' o)) /\
    (forall n, n ∈ names -> shownAs data n (snapshotOf (parseMaps texts') n)) /\
    (forall n, n ∉ names -> snapshotOf (parseMaps texts') n = snapshotOf (parseMaps texts) n).
Proof. apply written. Qed.

(** Deleting a model takes it out of the table, and the other models stay as
    they were. *)
Theorem deleted_model_is_gone texts name :
  (forall o, objectText (texts o)) ->
  exists texts' names names',
    handleDelete texts name = Some texts' /\ modelNames (parseMaps texts) = Some names /\ modelNames (parseMaps texts') = Some names' /\
    (forall n, n ∈ names' <-> n ∈ names /\ n <> name) /\
    (forall n, n <> name -> snapshotOf (parseMaps texts') n = snapshotOf (parseMaps texts) n).
Proof.
  intros Ht. destruct (delete_reads texts name Ht) as (texts' & Hdel & Hr).
  destruct (names_spec texts Ht) as (names & Hnames & _ & Hn).
  destruct (names_spec texts' (fun o => proj1 (Hr o))) as (names' & Hnames' & _ & Hn').
  exists texts', names, names'. split_and!; try done.
  - intros n. rewrite Hn', Hn. split.
    + intros [o Ho]. rewrite (proj2 (Hr o)) in Ho. case_decide; [by apply is_Some_None in Ho|].
      split; [|done]. exists o. by apply fmap_is_Some in Ho.
    + intros [[o Ho] Hne]. exists o. rewrite (proj2 (Hr o)), decide_False by done. by apply fmap_is_Some.
  - intros n Hne. apply snapshot_canon; [|intros o v; by apply entry_member_distinct].
    intros o. unfold parseMaps. rewrite (proj2 (Hr o)). by rewrite decide_False.
Qed.

(** ** Changing from a fixed price *)

Lemma price_kept b p e : (forall x, e <> TypePrice x) -> formPrices (panelStep b p e) Price = formPrices p Price.
Proof.
  intros He. destruct e as [x|x|l x|l c|x|m|x|x]; cbn [panelStep]; try done.
  - by destruct b.
  - unfold handlePromptPriceChange. by destruct (numericDraft x).
  - destruct (laneDisabled p l || _); [done|]. unfold handleLanePriceChange. destruct (numericDraft x); [|done]. cbn [negb]. cbv zeta.
    destruct (laneEnabled _ l), (bool_decide (l = LAudioInput) && _); by destruct l.
  - destruct (laneDisabled p l); [done|]. by destruct c, l.
  - by destruct (He x).
  - unfold handleModeChange. by destruct (bool_decide (m = TieredExpr) && negb (truthy (p_billingExpr p))).
Qed.

Lemma price_kept_by b es p :
  Forall (fun e => forall x, e <> TypePrice x) es -> formPrices (fold_left (panelStep b) es p) Price = formPrices p Price.
Proof. intros He. revert p. induction He as [|e es He _ IH]; intros p; [done|]. cbn [fold_left]. by rewrite IH, price_kept. Qed.

(** A model with a fixed price cannot be changed to prices per token.  When
    the panel is opened on it, the mode is set to per token and any token prices
    are entered, but the hidden field of the fixed price is not emptied first,
    then saving writes the fixed price again and none of the token prices: the
    table shows the model per request as before. *)
Theorem fixed_price_outlives_mode_change data events texts n d' :
  parseFloat (d_prices data Price) = Some n -> Forall (fun e => forall x, e <> TypePrice x) events ->
  let p := fold_left (panelStep true) events (loadPanel (Some data)) in
  pricingMode p = PerToken -> commitDraft p = Some d' -> (forall o, objectText (texts o)) -> wf_str (d_name d') ->
  exists texts' snap,
    persistPricingData texts d' [d_name d'] = Some texts' /\ snapshotOf (parseMaps texts') (d_name d') = Some snap /\
    s_mode snap = PerRequest /\ s_prices snap Price = num_text n /\ forall f, f <> Price -> s_prices snap f = [].
Proof.
  intros Hn He p Hm Hc Ht Hw. pose proof (price_kept_by true events (loadPanel (Some data)) He) as Hp. fold p in Hp.
  cbn [loadPanel formPrices] in Hp.
  unfold commitDraft in Hc. destruct (truthy (formName p) && validatePricingValues p); [|done]. injection Hc as <-.
  assert (truthy (d_prices data Price) = true) as Htr by (by destruct (d_prices data Price)).
  destruct (written texts (buildSubmitData p) [d_name (buildSubmitData p)]) as (texts' & Hper & _ & Hin & _); [done| |by constructor|].
  { unfold buildSubmitData. rewrite Hm. split; constructor. }
  destruct (Hin (d_name (buildSubmitData p)) ltac:(by left)) as (q & Hq & Hs).
  assert (d_billingMode (buildSubmitData p) = PerToken) as Hmode by (cbn [buildSubmitData d_billingMode]; by rewrite Hm).
  assert (d_prices (buildSubmitData p) Price = d_prices data Price) as Hpr by (cbn [buildSubmitData d_prices]; by rewrite Hp).
  assert (q Price = num_text n) as Hqp.
  { rewrite Hq. unfold writtenPrices, shownNumber. rewrite decide_True by tauto. by rewrite Hpr, Hn. }
  rewrite decide_False, <- plain_shown in Hs by (rewrite Hmode; naive_solver).
  exists texts', (plainSnapshot (d_name (buildSubmitData p)) q). split_and!; [done|done| |done|].
  - cbn [plainSnapshot s_mode]. rewrite Hqp. by destruct (num_text_head n) as (c & x & -> & _).
  - intros f Hf. cbn [plainSnapshot s_prices]. rewrite Hq. unfold writtenPrices.
    rewrite decide_False; [done|]. rewrite Hmode, Hpr. by destruct (d_prices data Price); [|naive_solver].
Qed.

(** ** Marks *)

(** The texts of a snapshot are in units of UTF-16. *)
Definition snapshotUnits (s : ModelPricingSnapshot) : Prop :=
  (forall f, wf_str (s_prices s f)) /\ wf_str (s_billingExpr s ?? []) /\ wf_str (s_requestRuleExpr s ?? []).

(** The same prices. *)
Definition samePricing (a b : option ModelPricingSnapshot) : Prop :=
  match a, b with
  | Some a, Some b =>
      (forall f, s_prices a f = s_prices b f) /\ s_mode a = s_mode b /\
      s_billingExpr a ?? [] = s_billingExpr b ?? [] /\ s_requestRuleExpr a ?? [] = s_requestRuleExpr b ?? []
  | None, None => True
  | _, _ => False
  end.

Lemma signature_printable s : snapshotUnits s -> printable (JObj (signatureOf s)).
Proof.
  intros (Hp & He & Hr). constructor.
  - apply (bool_decide_unpack _). vm_compute. reflexivity.
  - apply (bool_decide_unpack _). vm_compute. reflexivity.
  - unfold signatureOf. rewrite fmap_app. apply Forall_app. split.
    + apply Forall_fmap, Forall_fmap, Forall_forall. intros f _. constructor. apply Hp.
    + cbn [fmap list_fmap snd]. rewrite !Forall_cons. split_and!; [constructor|by constructor|by constructor|constructor].
      destruct (s_mode s); apply (bool_decide_unpack _); vm_compute; reflexivity.
Qed.

Lemma mode_text_inj a b : mode_text a = mode_text b -> a = b.
Proof. by destruct a, b. Qed.

Lemma signature_inj a b :
  snapshotUnits a -> snapshotUnits b ->
  JSON_stringify (JObj (signatureOf a)) = JSON_stringify (JObj (signatureOf b)) -> samePricing (Some a) (Some b).
Proof.
  intros Ha%signature_printable Hb%signature_printable E. pose proof (stringify_reads _ Ha) as Pa. rewrite E, (stringify_reads _ Hb) in Pa.
  injection Pa. intros. split_and!; [by intros []|by apply mode_text_inj|done|done].
Qed.

Lemma signature_same a b : samePricing a b -> getSnapshotSignature a = getSnapshotSignature b.
Proof.
  destruct a as [a|], b as [b|]; try done. intros (Hp & Hm & He & Hr). cbn [getSnapshotSignature]. do 2 f_equal. unfold signatureOf.
  rewrite Hm, He, Hr. f_equal. apply map_ext. intros f. by rewrite Hp.
Qed.

(** A row of the table is marked as changed exactly when the draft and the
    saved prices of the model differ in a price, in the mode or in an expression,
    or only one of them is there. *)
Theorem change_is_marked_exactly savedByName draftByName name row :
  (forall s, r_saved row = Some s \/ r_draft row = Some s -> snapshotUnits s) ->
  rowOf savedByName draftByName name = Some row ->
  isDraftChanged row = false <-> samePricing (r_saved row) (r_draft row).
Proof.
  intros Hu Hr. unfold rowOf in Hr.
  destruct (match map_get savedByName name with Some s => Some s | None => map_get draftByName name end) as [d|]; [|done].
  injection Hr as <-. cbn [isDraftChanged r_saved r_draft] in *. rewrite negb_false_iff, bool_decide_eq_true.
  split; [|apply signature_same].
  destruct (map_get savedByName name) as [a|], (map_get draftByName name) as [b|]; cbn [getSnapshotSignature]; try done.
  apply signature_inj; apply Hu; auto.
Qed.

(** ** Saving *)

Lemma normalize_idemp x : wf_str x -> normalizeJsonString (normalizeJsonString x) = normalizeJsonString x.
Proof.
  intros Hx. unfold normalizeJsonString at 2 3. cbv zeta. destruct (truthy (trim x)) eqn:Et; cbn [negb]; [|done].
  destruct (JSON_parse (trim x)) as [v|] eqn:E.
  - assert (printable v) as Hv by (eapply parse_printable; [|exact E]; by apply trim_wf).
    pose proof (parse_trim _ _ (stringify_reads _ Hv)) as Hp. unfold normalizeJsonString. cbv zeta.
    rewrite (parse_truthy _ _ Hp), Hp. cbn [negb]. apply stringify_canon.
  - unfold normalizeJsonString. cbv zeta. by rewrite trim_idemp, Et, E.
Qed.

Definition normalizeStored (v : Stored) : Stored :=
  match v with StoredText x => StoredText (normalizeJsonString x) | _ => v end.

(** What is taken for saved is what the server holds. *)
Definition inSync (s : Page) : Prop := forall k, normalizeStored (server s k) = valueAt (savedModelValues s) k.

(** A save is answered with a success for each update. *)
Definition allAccepted (e : Event) : Prop :=
  match e with Save answers => Forall (fun a => a = Accepted) answers /\ (length formKeys <= length answers)%nat | _ => True end.

Definition formUnits (s : Page) : Prop := forall o, wf_str (texts (modelForm s) o).

Lemma accepted_updates v keys answers srv :
  Forall (fun a => a = Accepted) answers -> (length keys <= length answers)%nat ->
  (sendUpdates v keys answers srv).1 = true /\
  forall k, (sendUpdates v keys answers srv).2 k = if decide (k ∈ keys) then valueAt v k else srv k.
Proof.
  intros Ha. revert keys srv. induction Ha as [|a answers -> _ IH]; intros [|k keys] srv Hl; cbn [sendUpdates length] in *; try done; [lia|].
  destruct (IH keys (put k (valueAt v k) srv) ltac:(lia)) as [-> H2]. split; [done|]. intros j. rewrite H2. unfold put.
  destruct (decide (j ∈ keys)); [by rewrite decide_True by (by right)|].
  destruct (decide (j = k)) as [-> |]; [by rewrite decide_True by left|]. rewrite decide_False; [done|]. rewrite elem_of_cons. naive_solver.
Qed.

Lemma key_listed k : k ∈ formKeys.
Proof. destruct k as [[[]| |]|]; apply (bool_decide_unpack _); vm_compute; reflexivity. Qed.

Lemma saved_stored answers s :
  inSync s -> formUnits s -> Forall (fun a => a = Accepted) answers -> (length formKeys <= length answers)%nat ->
  let s' := saveModelRatios answers s in
  savedModelValues s' = normalizeForm (modelForm s) /\ inSync s'.
Proof.
  intros Hs Hu Ha Hl. cbv zeta. unfold saveModelRatios.
  set (v := normalizeForm (modelForm s)). set (keys := updates (savedModelValues s) v).
  assert (length keys <= length answers)%nat as Hk by (etrans; [apply List.filter_length_le|done]).
  destruct (accepted_updates v keys answers (server s) Ha Hk) as [Hd Hsrv].
  destruct (sendUpdates v keys answers (server s)) as [done_ srv]. cbn [fst snd] in *. subst done_. split; [done|].
  intros k. cbn [server savedModelValues setSaved setServer]. rewrite Hsrv. case_decide as Hin.
  - destruct k as [o|]; [|done]. cbn [valueAt normalizeStored]. subst v. cbn [normalizeForm texts]. by rewrite normalize_idemp by apply Hu.
  - rewrite Hs. destruct (bool_decide (valueAt v k = valueAt (savedModelValues s) k)) eqn:E; [by apply bool_decide_eq_true in E|].
    destruct Hin. apply list_elem_of_In, List.filter_In. rewrite E. split; [apply list_elem_of_In, key_listed|done].
Qed.

Section Runs.
Variable localeCompare : jsstr -> jsstr -> Z.

(** Runs in which every update is accepted. *)
Inductive run : Page -> Prop :=
| run_init defaults : run (initPage defaults)
| run_step s e s' : run s -> handle localeCompare s e = Some s' -> allAccepted e -> formUnits s' -> run s'.

Lemma kept_sync s s' : server s' = server s -> savedModelValues s' = savedModelValues s -> inSync s -> inSync s'.
Proof. unfold inSync. by intros -> ->. Qed.

Lemma committed_sync s b s' : commitOpenEditor s = Some (b, s') -> server s' = server s /\ savedModelValues s' = savedModelValues s.
Proof.
  unfold commitOpenEditor, persist. destruct (panel s) as [p|]; [|by intros [= <- <-]].
  destruct (commitDraft p) as [d|]; [|by intros [= <- <-]]. destruct (persistPricingData _ d _); [|done]. by intros [= <- <-].
Qed.

Lemma submit_sync answers s : inSync s -> formUnits s -> allAccepted (Save answers) -> inSync (submit answers s).
Proof. intros Hs Hu [Ha Hl]. unfold submit. destruct (validForm (modelForm s)); [by apply saved_stored|done]. Qed.

Lemma submit_units answers s : formUnits (submit answers s) -> formUnits s.
Proof.
  unfold submit, saveModelRatios. destruct (validForm (modelForm s)); [|done]. destruct (sendUpdates _ _ _ _) as [[] srv]; done.
Qed.

(** C18: As long as the server accepts the updates, what the page takes for saved
    is, up to the layout of the JSON, what the server holds: through all edits,
    deletions, copies, changes of the view, saves and new settings. *)
Theorem saved_values_are_stored s : run s -> inSync s.
Proof.
  induction 1 as [defaults|s e s' _ IH H Ha Hu]; [by intros []|].
  destruct e as [i| |x|name|names|e|f x|b| |answers|]; cbn [handle] in H.
  - destruct (viewMode s); [|done]. destruct (models localeCompare s) as [rows|]; [|done]. cbn in H.
    destruct (rows !! i); [|done]. injection H as <-. by apply (kept_sync s).
  - destruct (viewMode s); [|done]. injection H as <-. by apply (kept_sync s).
  - destruct (viewMode s); [|done]. injection H as <-. unfold handleGlobalFilterChange. case_match; by apply (kept_sync s).
  - destruct (viewMode s); [|done]. unfold deleteModel in H. destruct (handleDelete _ name); [|done]. injection H as <-.
    destruct (editData _); [case_match|]; by apply (kept_sync s).
  - destruct (viewMode s); [|done]. unfold handleBatchCopy, persist in H.
    destruct (editData s), names; try (injection H as <-; by apply (kept_sync s)).
    destruct (persistPricingData _ _ _); [|done]. injection H as <-. by apply (kept_sync s).
  - destruct (panel s); [|done]. injection H as <-. by apply (kept_sync s).
  - destruct (viewMode s); [done|]. injection H as <-. by apply (kept_sync s).
  - injection H as <-. by apply (kept_sync s).
  - injection H as <-. unfold toggleEditMode. case_match; by apply (kept_sync s).
  - unfold handleSave in H. destruct (viewMode s).
    + destruct (commitOpenEditor s) as [[b s1]|] eqn:E; [|done]. injection H as <-. apply committed_sync in E as [E1 E2].
      assert (inSync s1) as Hs1 by by apply (kept_sync s). destruct b; [|done]. apply submit_sync; [done| |done]. by eapply submit_units.
    + injection H as <-. apply submit_sync; [done| |done]. by eapply submit_units.
  - injection H as <-. intros k. cbn [server onDefaults setForm setSaved savedModelValues]. specialize (IH k). destruct k as [o|];
      cbn [valueAt normalizeForm serverForm texts exposeRatioEnabled].
    + by destruct (server s (Text o)).
    + by destruct (server s ExposeRatioEnabled).
Qed.
End Runs.

(** An update that the server refuses is taken for saved: [mutateAsync]
    resolves with the refusal and the page goes on.  The server keeps its values,
    the page takes those of the form for saved, and saving again sends nothing. *)
Theorem refused_update_is_taken_for_saved answers s :
  validForm (modelForm s) = true -> Forall (fun a => a = Refused) answers -> (length formKeys <= length answers)%nat ->
  let s' := submit answers s in
  server s' = server s /\ savedModelValues s' = normalizeForm (modelForm s) /\
  updates (savedModelValues s') (normalizeForm (modelForm s')) = [].
Proof.
  intros Hv Ha Hl. cbv zeta. unfold submit, saveModelRatios. rewrite Hv.
  set (v := normalizeForm (modelForm s)). set (keys := updates (savedModelValues s) v).
  assert (length keys <= length answers)%nat as Hk by (etrans; [apply List.filter_length_le|done]).
  assert (sendUpdates v keys answers (server s) = (true, server s)) as ->.
  { clear Hl. revert Hk. generalize keys as ks. clear keys. induction Ha as [|a answers -> _ IH]; intros [|k ks] Hk; cbn [sendUpdates length] in *; try done; [lia|].
    apply IH. lia. }
  split_and!; [done|done|]. cbn [savedModelValues setSaved modelForm setServer]. fold v. unfold updates.
  generalize formKeys as ks. intros ks. induction ks as [|k ks IH]; [done|]. cbn [List.filter]. by rewrite bool_decide_eq_true_2.
Qed.

(** ** The table *)

Lemma byName_spec rows n :
  match map_get (byName rows) n with Some s => s_name s = n /\ s ∈ rows | None => n ∉ map s_name rows end.
Proof.
  unfold byName. induction rows as [|r rows IH] using rev_ind; [cbn; set_solver|]. rewrite fold_left_app. cbn [fold_left].
  destruct (decide (s_name r = n)) as [<- | Hne].
  - rewrite map_get_set_eq. split; [done|]. set_solver.
  - rewrite map_get_set_ne by done. destruct (map_get _ n) as [s|]; [set_solver|]. rewrite map_app. set_solver.
Qed.

Lemma byName_keys rows n : n ∈ (byName rows).*1 <-> n ∈ map s_name rows.
Proof.
  pose proof (byName_spec rows n) as H. pose proof (map_get_None (byName rows) n) as Hn. unfold map_keys in Hn.
  destruct (map_get (byName rows) n) as [s|] eqn:E.
  - destruct H as [<- Hin]. split; intros _; [by apply list_elem_of_In, in_map, list_elem_of_In|].
    apply map_get_Some_elem in E. apply list_elem_of_fmap. by exists (s_name s, s).
  - split; [|done]. intros Hin. by destruct (proj1 Hn eq_refl).
Qed.

Lemma snapshot_name maps n s : snapshotOf maps n = Some s -> s_name s = n.
Proof.
  unfold snapshotOf. destruct (pricesOf _) as [p|]; [|done]. cbn. destruct (isTiered _); [|by intros [= <-]].
  destruct (match js_or _ _ with JStr full => _ | _ => None end); [|done]. by intros [= <-].
Qed.

Lemma snapshots_names texts rows :
  buildModelSnapshots texts = Some rows -> modelNames (parseMaps texts) = Some (map s_name rows).
Proof.
  unfold buildModelSnapshots. cbv zeta. destruct (modelNames (parseMaps texts)) as [names|]; [|done]. cbn. intros H. f_equal.
  revert rows H. induction names as [|n names IH]; intros rows; cbn [mapM]; [by intros [= <-]|].
  destruct (snapshotOf (parseMaps texts) n) as [s|] eqn:E; [|done]. cbn. destruct (mapM _ names) as [ss|]; [|done]. cbn.
  intros [= <-]. cbn [map]. by rewrite (snapshot_name _ _ _ E), (IH ss eq_refl).
Qed.

Lemma rowOf_spec saved draft n row :
  rowOf (byName saved) (byName draft) n = Some row ->
  s_name (r_displayed row) = n /\ (isDraftDeleted row = false <-> n ∈ map s_name draft).
Proof.
  unfold rowOf. pose proof (byName_spec saved n) as Hs. pose proof (byName_spec draft n) as Hd.
  assert (forall s, s_name s = n /\ s ∈ draft -> n ∈ map s_name draft) as Hin
    by (intros s [<- Hs']; by apply list_elem_of_In, in_map, list_elem_of_In).
  destruct (map_get (byName saved) n) as [a|], (map_get (byName draft) n) as [b|]; cbn [mbind option_bind]; intros E; try discriminate E;
    injection E as <-; cbn [r_displayed isDraftDeleted].
  - split; [apply Hs|]. split; [intros _; by apply (Hin b)|done].
  - split; [apply Hs|]. split; [done|]. by intros ?.
  - split; [apply Hd|]. split; [intros _; by apply (Hin b)|done].
Qed.

(** A name has a row that is kept. *)
Definition keptRow (f : jsstr -> option ModelRow) (keep : ModelRow -> bool) (n : jsstr) : Prop :=
  exists row, f n = Some row /\ keep row = true.

(** Rows made of distinct names have distinct names. *)
Lemma rows_of_names (f : jsstr -> option ModelRow) (keep : ModelRow -> bool) names :
  (forall n row, f n = Some row -> s_name (r_displayed row) = n) -> NoDup names ->
  let rows := List.filter keep (omap f names) in
  NoDup (map (fun r => s_name (r_displayed r)) rows) /\
  forall n, n ∈ map (fun r => s_name (r_displayed r)) rows <-> n ∈ names /\ keptRow f keep n.
Proof.
  intros Hf. cbv zeta. induction 1 as [|n names Hn Hd [IHd IHn]].
  { split; [constructor|]. intros n. cbn. rewrite elem_of_nil. tauto. }
  assert (forall m, ~ keptRow f keep n -> m ∈ n :: names /\ keptRow f keep m <-> m ∈ names /\ keptRow f keep m) as Hskip.
  { intros m Hk. rewrite elem_of_cons. split; [|tauto]. intros [[-> | Hm] Hq]; tauto. }
  cbn [omap list_omap]. destruct (f n) as [row|] eqn:E; cbn [List.filter].
  - pose proof (Hf _ _ E) as Hname. destruct (keep row) eqn:Ek; cbn [map].
    + assert (keptRow f keep n) as Hq by by exists row. rewrite Hname. split; [constructor; [rewrite IHn; tauto|done]|].
      intros m. rewrite !elem_of_cons, IHn. split; [|tauto]. intros [-> | ?]; tauto.
    + split; [done|]. intros m. rewrite IHn, Hskip; [done|]. intros (row' & Hr & Hk). congruence.
  - split; [done|]. intros m. rewrite IHn, Hskip; [done|]. intros (row' & Hr & Hk). congruence.
Qed.

Lemma modeCount_fold rows m k :
  fold_left (fun n row => if bool_decide (s_mode (r_displayed row) = m) then n + 1 else n) rows k
  = k + modeCount rows m.
Proof.
  unfold modeCount. revert k. induction rows as [|r rows IH]; intros k; cbn [fold_left]; [lia|].
  destruct (bool_decide _); rewrite IH, ?(IH 1); rewrite ?(IH (0 + 1)); lia.
Qed.

Lemma modeCount_cons r rows m :
  modeCount (r :: rows) m = (if decide (s_mode (r_displayed r) = m) then 1 else 0) + modeCount rows m.
Proof.
  unfold modeCount at 1. cbn [fold_left]. rewrite modeCount_fold. case_bool_decide; [by rewrite decide_True|by rewrite decide_False].
Qed.

Lemma modeCount_total rows :
  modeCount rows PerToken + modeCount rows PerRequest + modeCount rows TieredExpr = Z.of_nat (length rows).
Proof.
  induction rows as [|r rows IH]; [done|]. rewrite !modeCount_cons. cbn [length].
  destruct (s_mode (r_displayed r)); repeat (first [rewrite decide_True by done | rewrite decide_False by done]); lia.
Qed.

(** The table has one row for each model of the draft, whatever the platform
    compares names by, and the counts next to the modes add up to its length. *)
Theorem table_lists_the_draft localeCompare saved draft rows :
  modelRows localeCompare saved draft = Some rows ->
  exists names, modelNames (parseMaps draft) = Some names /\ NoDup (map (fun r => s_name (r_displayed r)) rows) /\
    (forall n, n ∈ map (fun r => s_name (r_displayed r)) rows <-> n ∈ names) /\
    modeCount rows PerToken + modeCount rows PerRequest + modeCount rows TieredExpr = Z.of_nat (length rows).
Proof.
  unfold modelRows. destruct (buildModelSnapshots saved) as [sv|] eqn:Es; [|done]. cbn [mbind option_bind].
  destruct (buildModelSnapshots draft) as [dr|] eqn:Ed; [|done]. cbn [mbind option_bind]. intros E. injection E as <-.
  exists (map s_name dr). split; [by apply snapshots_names|].
  set (names := set_of ((byName sv).*1 ++ (byName dr).*1)).
  destruct (rows_of_names (rowOf (byName sv) (byName dr)) (fun row => negb (isDraftDeleted row)) names) as [Hd Hn].
  { intros n row H. by apply rowOf_spec in H as [? _]. }
  { apply set_of_nodup. }
  split; [by rewrite js_sort_perm|]. split; [|apply modeCount_total]. intros n. rewrite js_sort_perm, Hn. split.
  - intros (_ & row & Hr & Hk). apply rowOf_spec in Hr as [_ Hr]. apply Hr. by apply negb_true_iff.
  - intros Hin. assert (is_Some (map_get (byName dr) n)) as [s Hs].
    { pose proof (byName_spec dr n) as H. by destruct (map_get (byName dr) n). }
    split; [apply set_of_elem, elem_of_app; right; by apply byName_keys|].
    assert (is_Some (rowOf (byName sv) (byName dr) n)) as [row Hr].
    { unfold rowOf. rewrite Hs. destruct (map_get (byName sv) n); by eexists. }
    exists row. split; [done|]. apply rowOf_spec in Hr as [_ Hr]. by apply negb_true_iff, Hr.
Qed.

(** ** Opening and saving *)

(** A text that a number is printed as. *)
Definition numericText (x : jsstr) : Prop := x = [] \/ exists n, parseFloat x = Some n /\ num_text n = x.

Lemma numeric_shown x : numericText x -> shownNumber x = x.
Proof. unfold shownNumber. intros [-> | (n & -> & Hx)]; done. Qed.

(** Opening a model in the panel and saving it without a change writes the
    prices it had, unless it has both a fixed price and token prices; the prices
    are the texts of numbers and the name has no spaces around it. *)
Theorem reopened_prices_are_kept name p d :
  s_hasConflict (plainSnapshot name p) = false -> (forall f, numericText (p f)) -> trim name = name ->
  commitDraft (loadPanel (Some (dataOfSnapshot (plainSnapshot name p)))) = Some d ->
  d_name d = name /\ entryOf d BillingMode = None /\ forall f, writtenPrices d f = p f.
Proof.
  intros Hc Hn Ht Hd.
  assert (pricingMode (loadPanel (Some (dataOfSnapshot (plainSnapshot name p)))) <> TieredExpr) as Hm.
  { cbn. by destruct (truthy (p Price)). }
  set (q := loadPanel (Some (dataOfSnapshot (plainSnapshot name p)))) in *.
  assert (formName q = name) as Hq by reflexivity. assert (formPrices q = p) as Hf by reflexivity. clearbody q.
  unfold commitDraft in Hd. destruct (_ && _); [|done]. injection Hd as <-.
  unfold buildSubmitData, writtenPrices, entryOf. cbn [d_name d_billingMode d_prices]. rewrite Hq, Hf.
  split_and!; [done|by destruct (pricingMode q)|]. intros f. case_decide as Hk; [by apply numeric_shown|].
  rewrite plain_shown in Hc. cbn [s_hasConflict] in Hc. apply bool_decide_eq_false in Hc.
  destruct (p f) as [|c x] eqn:Ef; [done|]. destruct Hc. split; [naive_solver|]. apply Exists_exists. exists f.
  split; [|by rewrite Ef]. unfold tokenLanes. destruct f; set_solver.
Qed.

(** ** Samples *)

Definition sampleTexts : Options jsstr := fun o =>
  match o with
  | OfPrice Price => Json.jq "{'draw':0.5}"
  | OfPrice Ratio => Json.jq "{'gpt':1.25,'mini':0.1}"
  | OfPrice CompletionRatio => Json.jq "{'gpt':4}"
  | _ => []
  end.

Definition sampleData : ModelRatioData :=
  mkData (js "gpt") (fun f => match f with Ratio => js "2.5" | CompletionRatio => js "5" | _ => [] end) PerToken [] [].

Definition fixedData : ModelRatioData :=
  mkData (js "draw") (fun f => match f with Price => js "0.5" | _ => [] end) PerRequest [] [].

(** A price per token instead of a fixed one. *)
Definition changeToTokens : list PanelEvent := [ChangeMode PerToken; TypePromptPrice (js "3")].

Lemma sample_object o : objectText (sampleTexts o).
Proof.
  split; [destruct o as [[]| |]; apply (bool_decide_unpack _); vm_compute; reflexivity|].
  destruct o as [[]| |]; eexists; vm_compute; reflexivity.
Qed.

Lemma prices_are_written_witness :
  exists texts', persistPricingData sampleTexts sampleData [js "gpt"; js "mini"] = Some texts' /\
    shownAs sampleData (js "mini") (snapshotOf (parseMaps texts') (js "mini")) /\
    snapshotOf (parseMaps texts') (js "draw") = snapshotOf (parseMaps sampleTexts) (js "draw").
Proof.
  destruct (prices_are_written sampleTexts sampleData [js "gpt"; js "mini"]) as (texts' & Hp & _ & Hin & Hout).
  - apply sample_object.
  - split; constructor.
  - apply (bool_decide_unpack _). vm_compute. reflexivity.
  - exists texts'. split; [exact Hp|]. split; [apply Hin; by right; left|apply Hout].
    apply (bool_decide_unpack _). vm_compute. reflexivity.
Defined.

Lemma deleted_model_is_gone_witness :
  exists texts' names', handleDelete sampleTexts (js "gpt") = Some texts' /\ modelNames (parseMaps texts') = Some names' /\ js "gpt" ∉ names'.
Proof.
  destruct (deleted_model_is_gone sampleTexts (js "gpt") sample_object) as (texts' & names & names' & Hd & _ & Hn' & Hin & _).
  exists texts', names'. split; [exact Hd|]. split; [exact Hn'|]. intros [_ []]%Hin. reflexivity.
Defined.

Lemma fixed_price_outlives_mode_change_witness :
  pricingMode (fold_left (panelStep true) changeToTokens (loadPanel (Some fixedData))) = PerToken /\
  exists texts' snap,
    persistPricingData sampleTexts (buildSubmitData (fold_left (panelStep true) changeToTokens (loadPanel (Some fixedData)))) [js "draw"] = Some texts' /\
    snapshotOf (parseMaps texts') (js "draw") = Some snap /\ s_mode snap = PerRequest.
Proof.
  split; [vm_compute; reflexivity|].
  destruct (fixed_price_outlives_mode_change fixedData changeToTokens sampleTexts (mkNum 5 (-1))
    (buildSubmitData (fold_left (panelStep true) changeToTokens (loadPanel (Some fixedData))))) as (texts' & snap & Hp & Hs & Hm & _).
  - vm_compute. reflexivity.
  - unfold changeToTokens. rewrite !Forall_cons. split_and!; [done|done|apply Forall_nil_2].
  - vm_compute. reflexivity.
  - unfold commitDraft.
    assert (truthy (formName (fold_left (panelStep true) changeToTokens (loadPanel (Some fixedData))))
      && validatePricingValues (fold_left (panelStep true) changeToTokens (loadPanel (Some fixedData))) = true) as E
      by (vm_compute; reflexivity).
    rewrite E. reflexivity.
  - apply sample_object.
  - apply (bool_decide_unpack _). vm_compute. reflexivity.
  - exists texts', snap. split; [exact Hp|]. split; [exact Hs|exact Hm].
Defined.

Definition snapOf (p : jsstr) : ModelPricingSnapshot :=
  plainSnapshot (js "gpt") (fun f => match f with Ratio => p | _ => [] end).

Lemma change_is_marked_exactly_witness :
  exists row, rowOf [(js "gpt", snapOf (js "1"))] [(js "gpt", snapOf (js "2"))] (js "gpt") = Some row /\ isDraftChanged row = true.
Proof.
  assert (forall x, wf_str x -> snapshotUnits (snapOf x)) as Hu.
  { intros x Hx. split; [intros []; first [exact Hx | constructor]|split; constructor]. }
  assert (wf_str (js "1") /\ wf_str (js "2")) as [H1 H2] by (split; apply (bool_decide_unpack _); vm_compute; reflexivity).
  destruct (rowOf [(js "gpt", snapOf (js "1"))] [(js "gpt", snapOf (js "2"))] (js "gpt")) as [row|] eqn:E.
  2:{ exfalso. unfold rowOf in E. cbn [map_get] in E. rewrite decide_True in E by done. discriminate E. }
  exists row. split; [done|]. assert (r_saved row = Some (snapOf (js "1")) /\ r_draft row = Some (snapOf (js "2"))) as [Hs Hd].
  { unfold rowOf in E. cbn [map_get] in E. rewrite decide_True in E by done. cbn [mbind option_bind] in E. by injection E as <-. }
  destruct (isDraftChanged row) eqn:Ec; [done|]. exfalso.
  apply (change_is_marked_exactly _ _ _ _ ltac:(intros s [H|H]; rewrite ?Hs, ?Hd in H; injection H as <-; auto) E) in Ec.
  rewrite Hs, Hd in Ec. destruct Ec as [Hp _]. specialize (Hp Ratio). vm_compute in Hp. discriminate Hp.
Defined.

Definition samplePage : Page := initPage (mkForm sampleTexts false).

Definition allAnswers (a : Answer) : list Answer := replicate 11 a.

Lemma saved_values_are_stored_witness :
  exists s', handle (fun _ _ => 0) samplePage (Save (allAnswers Accepted)) = Some s' /\ inSync s'.
Proof.
  destruct (handle (fun _ _ => 0) samplePage (Save (allAnswers Accepted))) as [s'|] eqn:E.
  2:{ cbn [handle handleSave viewMode samplePage initPage commitOpenEditor panel] in E. discriminate E. }
  exists s'. split; [done|]. apply (saved_values_are_stored (fun _ _ => 0)).
  eapply run_step; [apply (run_init _ (mkForm sampleTexts false))|exact E| |].
  - split; [apply Forall_replicate; reflexivity|vm_compute; lia].
  - cbn [handle handleSave viewMode samplePage initPage commitOpenEditor panel] in E. injection E as <-.
    assert (forall s, modelForm (submit (allAnswers Accepted) s) = modelForm s) as Hf.
    { intros s. unfold submit, saveModelRatios. destruct (validForm _); [|done]. by destruct (sendUpdates _ _ _ _) as [[] ?]. }
    intros o. rewrite Hf. destruct o as [[]| |]; apply (bool_decide_unpack _); vm_compute; reflexivity.
Defined.

Lemma refused_update_is_taken_for_saved_witness :
  validForm (modelForm samplePage) = true /\ server (submit (allAnswers Refused) samplePage) = server samplePage.
Proof.
  split; [vm_compute; reflexivity|].
  apply (refused_update_is_taken_for_saved (allAnswers Refused) samplePage);
    [vm_compute; reflexivity|apply Forall_replicate; reflexivity|vm_compute; lia].
Defined.

Lemma table_lists_the_draft_witness :
  exists rows names, modelRows compareUnits sampleTexts sampleTexts = Some rows /\
    modelNames (parseMaps sampleTexts) = Some names /\ NoDup (map (fun r => s_name (r_displayed r)) rows).
Proof.
  destruct (modelRows compareUnits sampleTexts sampleTexts) as [rows|] eqn:E.
  - destruct (table_lists_the_draft compareUnits sampleTexts sampleTexts rows E) as (names & Hn & Hd & _). by exists rows, names.
  - exfalso. assert (is_Some (modelRows compareUnits sampleTexts sampleTexts)) as [r Hr]; [|by rewrite E in Hr].
    apply (bool_decide_unpack _). vm_compute. reflexivity.
Defined.

Lemma reopened_prices_are_kept_witness :
  exists d, commitDraft (loadPanel (Some (dataOfSnapshot (snapOf (js "1.25"))))) = Some d /\ writtenPrices d Ratio = js "1.25".
Proof.
  assert (truthy (formName (loadPanel (Some (dataOfSnapshot (snapOf (js "1.25"))))))
    && validatePricingValues (loadPanel (Some (dataOfSnapshot (snapOf (js "1.25"))))) = true) as E by (vm_compute; reflexivity).
  exists (buildSubmitData (loadPanel (Some (dataOfSnapshot (snapOf (js "1.25")))))).
  assert (commitDraft (loadPanel (Some (dataOfSnapshot (snapOf (js "1.25")))))
    = Some (buildSubmitData (loadPanel (Some (dataOfSnapshot (snapOf (js "1.25"))))))) as Hc by (unfold commitDraft; by rewrite E).
  split; [exact Hc|].
  apply (reopened_prices_are_kept (js "gpt") (fun f => match f with Ratio => js "1.25" | _ => [] end));
    [vm_compute; reflexivity| |vm_compute; reflexivity|exact Hc].
  intros f. destruct f; [left; reflexivity| |left; reflexivity..]. right. exists (mkNum 125 (-2)). split; vm_compute; reflexivity.
Defined.
End ModelPricingProperties.
