(* ===== verification/GroupRatio.v ===== *)
(** * Group ratios

    The functions of [group-ratio-visual-editor.tsx] and
    [group-special-usable-editor.tsx]: the table of groups with its two texts,
    the lists under it, the rules on usable groups with their text, and what each
    handler writes.  The six settings are texts of JSON; [None] is an exception.
    Properties that an object inherits are not modelled. *)

From S2P Require Import Prelude JsString JsCollections Json JsonNumber JsonText JsValue JsDouble ModelPricing.
Import Json JsonNumber JsValue JsDouble ModelPricing.

Module GroupRatio.

Inductive GroupField := GroupRatioText | TopupGroupRatio | UserUsableGroups | GroupGroupRatio | AutoGroups | GroupSpecialUsableGroup.

#[export] Instance GroupField_eq_dec : EqDecision GroupField.
Proof. solve_decision. Defined.

(** ** Numbers *)

(** [Number.isFinite] of the double a decimal stands for. *)
Definition finite (n : jnum) : bool := is_finite (of_num (renum n)).

Definition one : jnum := mkNum 1 0.

(** [normalizeRatio(v)], where [None] is undefined. *)
Definition normalizeRatio (v : option json) : option jnum :=
  match v with
  | None => Some one
  | Some v => n ← Number_of v; Some (match n with Some n => if finite n then n else one | None => one end)
  end.

(** [Number.parseFloat(s)] as it is stored: NaN and the infinities become null. *)
Definition parsedNumber (s : jsstr) : json := match parseFloat s with Some n => JNum n | None => JNull end.

(** [isNaN(Number.parseFloat(s))] *)
Definition parsesToNaN (s : jsstr) : bool :=
  let t := trimStart s in
  let u := match accept 45 t, accept 43 t with Some u, _ => u | None, Some u => u | None, None => t end in
  match decimal_prefix s with Some _ => false | None => negb (startsWith u (js "Infinity")) end.

(** [safeJsonParse(value, { fallback: [] })] *)
Definition safeJsonParseList (value : jsstr) : json :=
  if negb (truthy (trim value)) then JArr []
  else match JSON_parse (trim value) with Some v => v | None => JArr [] end.

(** ** The table of groups *)

Record GroupPricingRow := mkGroup {
  g_id : jsstr; g_name : jsstr; g_ratio : jnum; g_selectable : bool; g_description : jsstr }.

(** The id number [n]. *)
Definition groupId (n : nat) : jsstr := js "gpr_" ++ showZ (Z.of_nat n).

(** Each row takes the next id; [n] are made already. *)
Definition rowOfName (ratioMap usableMap : json) (n : nat) (name : jsstr) : option GroupPricingRow :=
  ratio ← normalizeRatio (member ratioMap name);
  description ← match member usableMap name with None | Some JNull => Some [] | Some v => String_of v end;
  Some (mkGroup (groupId (S n)) name ratio (bool_decide (is_Some (member usableMap name))) description).

Fixpoint rowsOfNames (ratioMap usableMap : json) (n : nat) (names : list jsstr) : option (list GroupPricingRow) :=
  match names with
  | [] => Some []
  | name :: names =>
      row ← rowOfName ratioMap usableMap n name; rows ← rowsOfNames ratioMap usableMap (S n) names; Some (row :: rows)
  end.

Definition groupNames (ratioMap usableMap : json) : option (list jsstr) :=
  a ← keysOf ratioMap; b ← keysOf usableMap; Some (set_of (a ++ b)).

Definition buildGroupPricingRows (n : nat) (groupRatio userUsableGroups : jsstr) : option (list GroupPricingRow) :=
  let ratioMap := safeJsonParse groupRatio in
  let usableMap := safeJsonParse userUsableGroups in
  names ← groupNames ratioMap usableMap; rowsOfNames ratioMap usableMap n names.

(** The body of the loop of [serializeGroupPricingRows]; the ratio of a row is finite. *)
Definition serializeRow (maps : list (jsstr * json) * list (jsstr * json)) (row : GroupPricingRow)
  : list (jsstr * json) * list (jsstr * json) :=
  let name := trim (g_name row) in
  if negb (truthy name) then maps
  else (map_set maps.1 name (JNum (g_ratio row)),
        if g_selectable row then map_set maps.2 name (JStr (g_description row)) else maps.2).

Definition serializedMaps (rows : list GroupPricingRow) : list (jsstr * json) * list (jsstr * json) :=
  fold_left serializeRow rows ([], []).

Definition serializeGroupPricingRows (rows : list GroupPricingRow) : jsstr * jsstr :=
  let maps := serializedMaps rows in (JsonText.JSON_pretty (JObj maps.1), JsonText.JSON_pretty (JObj maps.2)).

Definition sourceGroupPricingSignature (groupRatio userUsableGroups : jsstr) : jsstr :=
  JsonText.JSON_stringify (JObj
    [(js "groupRatio", safeJsonParse groupRatio); (js "userUsableGroups", safeJsonParse userUsableGroups)]).

Definition groupPricingSignature (rows : list GroupPricingRow) : jsstr :=
  let '(groupRatio, userUsableGroups) := serializeGroupPricingRows rows in
  JsonText.JSON_stringify (JObj
    [(js "groupRatio", safeJsonParse groupRatio); (js "userUsableGroups", safeJsonParse userUsableGroups)]).

(** A change of one cell.  The controls of the ratio and of the switch give a number and a truth value. *)
Inductive RowPatch := RName (x : jsstr) | RRatio (n : jnum) | RSelectable (b : bool) | RDescription (x : jsstr).

Definition patchRow (p : RowPatch) (r : GroupPricingRow) : GroupPricingRow :=
  match p with
  | RName x => mkGroup (g_id r) x (g_ratio r) (g_selectable r) (g_description r)
  | RRatio n => mkGroup (g_id r) (g_name r) n (g_selectable r) (g_description r)
  | RSelectable b => mkGroup (g_id r) (g_name r) (g_ratio r) b (g_description r)
  | RDescription x => mkGroup (g_id r) (g_name r) (g_ratio r) (g_selectable r) x
  end.

Definition updateRow (id : jsstr) (p : RowPatch) (rows : list GroupPricingRow) : list GroupPricingRow :=
  map (fun r => if bool_decide (g_id r = id) then patchRow p r else r) rows.

Definition groupName (index : nat) : jsstr := js "group_" ++ showZ (Z.of_nat index).

(** The loop of [addRow]; it stops within as many rounds as there are names, and one more. *)
Fixpoint freshIndex (fuel index : nat) (existing : list jsstr) : nat :=
  match fuel with
  | O => index
  | S fuel => if bool_decide (groupName index ∈ existing) then freshIndex fuel (S index) existing else index
  end.

Definition freshName (rows : list GroupPricingRow) : jsstr :=
  let existing := map g_name rows in groupName (freshIndex (S (length existing)) 1 existing).

Definition addRow (n : nat) (rows : list GroupPricingRow) : list GroupPricingRow :=
  rows ++ [mkGroup (groupId (S n)) (freshName rows) one true []].

Definition removeRow (id : jsstr) (rows : list GroupPricingRow) : list GroupPricingRow :=
  List.filter (fun r => negb (bool_decide (g_id r = id))) rows.

Definition countNames (rows : list GroupPricingRow) : list (jsstr * Z) :=
  fold_left (fun counts row =>
    let name := trim (g_name row) in
    if negb (truthy name) then counts else map_set counts name ((map_get counts name ?? 0) + 1)) rows [].

Definition duplicateNames (rows : list GroupPricingRow) : list jsstr :=
  (List.filter (fun kv => 1 <? kv.2) (countNames rows)).*1.

(** ** The lists under the table *)

Record SimpleGroup := mkSimple { sg_name : jsstr; sg_value : jsstr }.

Definition topupRatioList (topupGroupRatio : jsstr) : option (list SimpleGroup) :=
  match safeJsonParse topupGroupRatio with
  | JNull => None
  | v => mapM (fun '(name, value) => value ← String_of value; Some (mkSimple name value)) (own_entries v)
  end.

(** [handleSimpleSave(name, value)] on the text of the edited map. *)
Definition saveSimple (editData : option SimpleGroup) (name value text : jsstr) : option jsstr :=
  let m := safeJsonParse text in
  m ← match editData with
      | Some e => if bool_decide (sg_name e = name) then Some m else deleteProp m (sg_name e)
      | None => Some m
      end;
  m ← assignProp m name (parsedNumber value);
  Some (JsonText.JSON_pretty m).

Definition handleSimpleDelete (name text : jsstr) : option jsstr :=
  m ← deleteProp (safeJsonParse text) name; Some (JsonText.JSON_pretty m).

(** The code points of a string, which is what spreading it gives. *)
Fixpoint codePoints (s : jsstr) : list jsstr :=
  match s with
  | [] => []
  | c :: s' =>
      match s' with
      | d :: s'' => if JsonText.is_lead c && JsonText.is_trail d then [c; d] :: codePoints s'' else [c] :: codePoints s'
      | [] => [[c]]
      end
  end.

(** [[...v]] *)
Definition spreadArray (v : json) : option (list json) :=
  match v with JArr l => Some l | JStr s => Some (map JStr (codePoints s)) | _ => None end.

(** The text that [handleAutoGroupSave] writes. *)
Definition appendAutoGroup (autoGroupInput text : jsstr) : option jsstr :=
  l ← spreadArray (safeJsonParseList text);
  Some (JsonText.JSON_pretty (JArr (l ++ [JStr (trim autoGroupInput)]))).

(** [v.filter((_, i) => i !== index)]; only an array has the method. *)
Definition handleAutoGroupDelete (index : nat) (text : jsstr) : option jsstr :=
  match safeJsonParseList text with
  | JArr l => Some (JsonText.JSON_pretty (JArr (delete index l)))
  | _ => None
  end.

Inductive Direction := Up | Down.

(** The elements [i] and [j] of a list, both in it, are exchanged. *)
Definition swap (i j : nat) (l : list json) : list json :=
  <[i := l !! j ?? JNull]> (<[j := l !! i ?? JNull]> l).

(** [None] in the result: nothing is written. *)
Definition handleAutoGroupMove (index : nat) (direction : Direction) (text : jsstr) : option (option jsstr) :=
  l ← spreadArray (safeJsonParseList text);
  let newIndex := match direction with Up => Z.of_nat index - 1 | Down => Z.of_nat index + 1 end in
  if (newIndex <? 0) || (Z.of_nat (length l) <=? newIndex) then Some None
  else Some (Some (JsonText.JSON_pretty (JArr (swap index (Z.to_nat newIndex) l)))).

(** ** Ratios between groups *)

Record GroupOverride := mkOverride { o_targetGroup : jsstr; o_ratio : json }.

Definition groupGroupRatioList (text : jsstr) : option (list (jsstr * list GroupOverride)) :=
  match safeJsonParse text with
  | JNull => None
  | v => mapM (fun '(userGroup, overrides) =>
           match overrides with
           | JNull => None
           | _ => Some (userGroup, map (fun '(targetGroup, ratio) => mkOverride targetGroup ratio) (own_entries overrides))
           end) (own_entries v)
  end.

(** [v[k]] for any [v]. *)
Definition readMember (v : json) (k : jsstr) : option (option json) :=
  match v with JNull => None | _ => Some (member v k) end.

(** [if (!map[k]) map[k] = {}] *)
Definition ensureGroup (m : json) (k : jsstr) : option json :=
  v ← readMember m k;
  if match v with Some v => json_truthy v | None => false end then Some m else assignProp m k (JObj []).

Definition addUserGroup (userGroupInput text : jsstr) : option jsstr :=
  m ← ensureGroup (safeJsonParse text) (trim userGroupInput); Some (JsonText.JSON_pretty m).

Definition handleUserGroupDelete (userGroup text : jsstr) : option jsstr :=
  m ← deleteProp (safeJsonParse text) userGroup; Some (JsonText.JSON_pretty m).

(** A change of the object [map[k]] in place; what is no object has no place of its own. *)
Definition updateMember (m : json) (k : jsstr) (f : json -> option json) : option json :=
  v ← readMember m k;
  inner ← v;
  inner ← f inner;
  assignProp m k inner.

Definition saveOverride (userGroup targetGroup : jsstr) (ratio : json) (oldTargetGroup : option jsstr) (text : jsstr)
  : option jsstr :=
  m ← ensureGroup (safeJsonParse text) userGroup;
  m ← updateMember m userGroup (fun inner =>
        inner ← match oldTargetGroup with
                | Some old => if truthy old && negb (bool_decide (old = targetGroup)) then deleteProp inner old else Some inner
                | None => Some inner
                end;
        assignProp inner targetGroup ratio);
  Some (JsonText.JSON_pretty m).

Definition handleOverrideDelete (userGroup targetGroup text : jsstr) : option jsstr :=
  let m := safeJsonParse text in
  v ← readMember m userGroup;
  m ← match v with
      | Some inner =>
          if json_truthy inner then
            inner ← deleteProp inner targetGroup;
            if bool_decide (own_entries inner = []) then deleteProp m userGroup else assignProp m userGroup inner
          else Some m
      | None => Some m
      end;
  Some (JsonText.JSON_pretty m).

(** ** Rules on usable groups *)

Inductive OpType := OP_ADD | OP_REMOVE | OP_APPEND.

#[export] Instance OpType_eq_dec : EqDecision OpType.
Proof. solve_decision. Defined.

Record Rule := mkRule { ru_id : jsstr; ru_userGroup : jsstr; ru_op : OpType; ru_targetGroup : jsstr; ru_description : jsstr }.

Definition ruleId (n : nat) : jsstr := js "gsu_" ++ showZ (Z.of_nat n).

Definition parsePrefix (rawKey : jsstr) : OpType * jsstr :=
  if startsWith rawKey (js "+:") then (OP_ADD, drop 2 rawKey)
  else if startsWith rawKey (js "-:") then (OP_REMOVE, drop 2 rawKey)
  else (OP_APPEND, rawKey).

Definition toRawKey (op : OpType) (groupName : jsstr) : jsstr :=
  match op with OP_ADD => js "+:" ++ groupName | OP_REMOVE => js "-:" ++ groupName | OP_APPEND => groupName end.

Definition safeParseJson (str : jsstr) : json :=
  if negb (truthy (trim str)) then JObj [] else match JSON_parse str with Some v => v | None => JObj [] end.

(** The text that stands for a removal. *)
Definition removeText : jsstr := js "remove".

(** The pairs of user group, key and value that are rules. *)
Definition ruleEntries (nested : json) : list (jsstr * jsstr * json) :=
  flat_map (fun '(userGroup, inner) =>
    match inner with
    | JArr _ | JObj _ => map (fun '(rawKey, desc) => (userGroup, rawKey, desc)) (own_entries inner)
    | _ => []
    end) (own_entries nested).

Definition ruleOf (n : nat) (e : jsstr * jsstr * json) : Rule :=
  let '(userGroup, rawKey, desc) := e in
  let '(op, groupName) := parsePrefix rawKey in
  mkRule (ruleId (S n)) userGroup op groupName
    (match op, desc with OP_REMOVE, _ => removeText | _, JStr s => s | _, _ => [] end).

(** Each rule takes the next id; [n] are made already. *)
Fixpoint rulesOfEntries (n : nat) (entries : list (jsstr * jsstr * json)) : list Rule :=
  match entries with [] => [] | e :: entries => ruleOf n e :: rulesOfEntries (S n) entries end.

Definition flattenRules (n : nat) (nested : json) : option (list Rule) :=
  match nested with JNull => None | _ => Some (rulesOfEntries n (ruleEntries nested)) end.

Definition nestRule (result : list (jsstr * list (jsstr * jsstr))) (r : Rule) : list (jsstr * list (jsstr * jsstr)) :=
  if negb (truthy (ru_userGroup r)) || negb (truthy (ru_targetGroup r)) then result
  else map_set result (ru_userGroup r)
         (map_set (map_get result (ru_userGroup r) ?? []) (toRawKey (ru_op r) (ru_targetGroup r)) (ru_description r)).

Definition nestRules (rules : list Rule) : list (jsstr * list (jsstr * jsstr)) := fold_left nestRule rules [].

Definition nestedJson (nested : list (jsstr * list (jsstr * jsstr))) : json :=
  JObj (map (prod_map id (fun inner => JObj (map (prod_map id JStr) inner))) nested).

Definition serializeRules (rules : list Rule) : jsstr :=
  let nested := nestRules rules in
  match nested with [] => js "{}" | _ => JsonText.JSON_pretty (nestedJson nested) end.

(** The fields with a control. *)
Inductive RulePatch := RuOp (op : OpType) | RuTarget (x : jsstr) | RuDescription (x : jsstr).

Definition patchRule (p : RulePatch) (r : Rule) : Rule :=
  match p with
  | RuOp op =>
      mkRule (ru_id r) (ru_userGroup r) op (ru_targetGroup r)
        (if decide (op = OP_REMOVE) then removeText
         else if decide (ru_op r = OP_REMOVE) then if decide (ru_description r = removeText) then [] else ru_description r
         else ru_description r)
  | RuTarget x => mkRule (ru_id r) (ru_userGroup r) (ru_op r) x (ru_description r)
  | RuDescription x => mkRule (ru_id r) (ru_userGroup r) (ru_op r) (ru_targetGroup r) x
  end.

Definition updateRule (id : jsstr) (p : RulePatch) (rules : list Rule) : list Rule :=
  map (fun r => if bool_decide (ru_id r = id) then patchRule p r else r) rules.

Definition removeRule (id : jsstr) (rules : list Rule) : list Rule :=
  List.filter (fun r => negb (bool_decide (ru_id r = id))) rules.

Definition removeGroup (groupName : jsstr) (rules : list Rule) : list Rule :=
  List.filter (fun r => negb (bool_decide (ru_userGroup r = groupName))) rules.

Definition addRuleToGroup (n : nat) (groupName : jsstr) (rules : list Rule) : list Rule :=
  rules ++ [mkRule (ruleId (S n)) groupName OP_APPEND [] []].

(** The sections of the editor. *)
Definition grouped (rules : list Rule) : list (jsstr * list Rule) :=
  fold_left (fun m r =>
    if negb (truthy (ru_userGroup r)) then m
    else map_set m (ru_userGroup r) ((map_get m (ru_userGroup r) ?? []) ++ [r])) rules [].

End GroupRatio.
