(* ===== verification/GroupRatioPage.v ===== *)
(** * Group ratios: the page

    [GroupRatioForm] with its two visual editors and their dialogs, the part of
    [ratio-settings-card.tsx] that keeps and saves its form, and the server, as
    events of a state machine.  A visual editor lives as long as its view is
    shown.  Dialogs are modal: one of them at most is open, and its fields are
    set when it opens.  [None]: there is no such control, a handler throws, or
    the page cannot be drawn.  A page that cannot be drawn has thus no successor
    and is not among the reachable ones: [null_ratios_cannot_be_shown] shows how
    the view of the texts gets there, and [group_page_invariant] that the visual
    view does not, from texts of the kinds it is made for. *)

From S2P Require Import Prelude JsString JsCollections Json JsonNumber JsonText JsValue JsDouble ModelPricing ModelPricingPanel ModelPricingPage GroupRatio.
Import Json JsValue ModelPricing GroupRatio.
Import ModelPricingPage (formatJsonForTextarea, normalizeJsonString, validJsonString, Stored, StoredText, StoredFlag, Answer, Accepted, Refused, Thrown).
Import ModelPricingPanel (put).

Module GroupRatioPage.

#[local] Existing Instance ModelPricingPage.Stored_eq_dec.

(** ** The form *)

Record GroupFormValues := mkGroups { groupTexts : GroupField -> jsstr; defaultUseAutoGroup : bool }.

Inductive GroupKey := GText (f : GroupField) | DefaultUseAutoGroup.

#[export] Instance GroupKey_eq_dec : EqDecision GroupKey.
Proof. solve_decision. Defined.

(** [Object.keys(normalized)] *)
Definition groupKeys : list GroupKey :=
  [GText GroupRatioText; GText TopupGroupRatio; GText UserUsableGroups; GText GroupGroupRatio; GText AutoGroups;
   DefaultUseAutoGroup; GText GroupSpecialUsableGroup].

Definition groupValueAt (v : GroupFormValues) (k : GroupKey) : Stored :=
  match k with GText f => StoredText (groupTexts v f) | DefaultUseAutoGroup => StoredFlag (defaultUseAutoGroup v) end.

(** [apiKeyMap[key] || key] *)
Definition groupApiKey (k : GroupKey) : jsstr :=
  match k with
  | GText GroupRatioText => js "GroupRatio" | GText TopupGroupRatio => js "TopupGroupRatio"
  | GText UserUsableGroups => js "UserUsableGroups" | GText GroupGroupRatio => js "GroupGroupRatio"
  | GText AutoGroups => js "AutoGroups" | DefaultUseAutoGroup => js "DefaultUseAutoGroup"
  | GText GroupSpecialUsableGroup => js "group_ratio_setting.group_special_usable_group"
  end.

Definition normalizeGroupForm (v : GroupFormValues) : GroupFormValues :=
  mkGroups (fun f => normalizeJsonString (groupTexts v f)) (defaultUseAutoGroup v).

Definition formatGroupForm (v : GroupFormValues) : GroupFormValues :=
  mkGroups (fun f => formatJsonForTextarea (groupTexts v f)) (defaultUseAutoGroup v).

Definition isString (v : json) : bool := match v with JStr _ => true | _ => false end.

(** The predicate on the auto groups. *)
Definition validAutoGroups (value : jsstr) : bool :=
  let trimmed := trim value in
  negb (truthy trimmed) || match JSON_parse trimmed with Some (JArr l) => forallb isString l | _ => false end.

Definition validGroups (v : GroupFormValues) : bool :=
  forallb (fun f => validJsonString (groupTexts v f))
    [GroupRatioText; TopupGroupRatio; UserUsableGroups; GroupGroupRatio; GroupSpecialUsableGroup]
  && validAutoGroups (groupTexts v AutoGroups).

(** ** State *)

Inductive SimpleType := SimpleRatio | SimpleTopup.

Inductive Dialog :=
| NoDialog
| SimpleGroupDialog (type : SimpleType) (editData : option SimpleGroup) (name value : jsstr)
| AutoGroupDialog (autoGroupInput : jsstr)
| UserGroupDialog (userGroupInput : jsstr)
| GroupOverrideDialog (userGroup : jsstr) (editData : option GroupOverride) (targetGroup ratio : jsstr).

(** The state of the two visual editors. *)
Record Visual := mkVisual { rows : list GroupPricingRow; rules : list Rule; newGroupName : jsstr; dialog : Dialog }.

Record GroupPage := mkGroupPage {
  groupNormalizedDefaults : GroupFormValues;
  groupForm : GroupFormValues;
  visual : option Visual;               (* [None]: the texts are shown *)
  groupPricingIdCounter : nat;
  ruleIdCounter : nat;
  groupServer : GroupKey -> Stored }.

Definition setGroupForm (x : GroupFormValues) (s : GroupPage) : GroupPage :=
  mkGroupPage (groupNormalizedDefaults s) x (visual s) (groupPricingIdCounter s) (ruleIdCounter s) (groupServer s).
Definition setDefaults (x : GroupFormValues) (s : GroupPage) : GroupPage :=
  mkGroupPage x (groupForm s) (visual s) (groupPricingIdCounter s) (ruleIdCounter s) (groupServer s).
Definition setVisual (x : option Visual) (s : GroupPage) : GroupPage :=
  mkGroupPage (groupNormalizedDefaults s) (groupForm s) x (groupPricingIdCounter s) (ruleIdCounter s) (groupServer s).
Definition setRowIds (n : nat) (s : GroupPage) : GroupPage :=
  mkGroupPage (groupNormalizedDefaults s) (groupForm s) (visual s) n (ruleIdCounter s) (groupServer s).
Definition setRuleIds (n : nat) (s : GroupPage) : GroupPage :=
  mkGroupPage (groupNormalizedDefaults s) (groupForm s) (visual s) (groupPricingIdCounter s) n (groupServer s).
Definition setGroupServer (x : GroupKey -> Stored) (s : GroupPage) : GroupPage :=
  mkGroupPage (groupNormalizedDefaults s) (groupForm s) (visual s) (groupPricingIdCounter s) (ruleIdCounter s) x.

Definition textOf (s : GroupPage) (f : GroupField) : jsstr := groupTexts (groupForm s) f.

(** [handleFieldChange(field, value)] *)
Definition handleFieldChange (f : GroupField) (x : jsstr) (s : GroupPage) : GroupPage :=
  setGroupForm (mkGroups (put f x (groupTexts (groupForm s))) (defaultUseAutoGroup (groupForm s))) s.

Definition onVisual (f : Visual -> Visual) (s : GroupPage) : GroupPage := setVisual (f <$> visual s) s.
Definition setRows (x : list GroupPricingRow) (v : Visual) : Visual := mkVisual x (rules v) (newGroupName v) (dialog v).
Definition setRules (x : list Rule) (v : Visual) : Visual := mkVisual (rows v) x (newGroupName v) (dialog v).
Definition setNewGroupName (x : jsstr) (v : Visual) : Visual := mkVisual (rows v) (rules v) x (dialog v).
Definition setDialog (x : Dialog) (v : Visual) : Visual := mkVisual (rows v) (rules v) (newGroupName v) x.

(** ** Drawing *)

(** What React accepts as a child. *)
Fixpoint isChild (v : json) : bool :=
  match v with JObj _ => false | JArr l => forallb isChild l | _ => true end.

Definition autoGroupsDraw (text : jsstr) : bool :=
  match safeJsonParseList text with
  | JNull => false
  | JStr s => negb (truthy s)
  | JArr l => forallb isChild l
  | _ => true
  end.

(** The lists of the visual view can be drawn. *)
Definition draws (texts : GroupField -> jsstr) : bool :=
  bool_decide (is_Some (topupRatioList (texts TopupGroupRatio)))
  && bool_decide (is_Some (groupGroupRatioList (texts GroupGroupRatio)))
  && autoGroupsDraw (texts AutoGroups).

(** ** Life of the visual editors *)

(** Rows that are built take new ids. *)
Definition rebuildRows (s : GroupPage) : option GroupPage :=
  rs ← buildGroupPricingRows (groupPricingIdCounter s) (textOf s GroupRatioText) (textOf s UserUsableGroups);
  Some (s |> setRowIds (groupPricingIdCounter s + length rs) |> onVisual (setRows rs)).

(** The effect of [GroupPricingTable]. *)
Definition rowsEffect (s : GroupPage) : option GroupPage :=
  match visual s with
  | None => Some s
  | Some v =>
      if bool_decide (groupPricingSignature (rows v)
                      = sourceGroupPricingSignature (textOf s GroupRatioText) (textOf s UserUsableGroups))
      then Some s else rebuildRows s
  end.

(** The editors are mounted: their first states, then the effect.  [None] is the
    exception of a list that cannot be drawn or of a setting that cannot be read. *)
Definition mountVisual (s : GroupPage) : option GroupPage :=
  if draws (groupTexts (groupForm s)) then
    rus ← flattenRules (ruleIdCounter s) (safeParseJson (textOf s GroupSpecialUsableGroup));
    s ← rebuildRows (s |> setRuleIds (ruleIdCounter s + length rus) |> setVisual (Some (mkVisual [] rus [] NoDialog)));
    rowsEffect s
  else None.

(** After a change of the form the page is drawn again and the effect runs when its texts are new; [None] is
    the exception of drawing a list. *)
Definition redraw (before s : GroupPage) : option GroupPage :=
  match visual s with
  | None => Some s
  | Some _ =>
      if negb (draws (groupTexts (groupForm s))) then None
      else if bool_decide (textOf s GroupRatioText = textOf before GroupRatioText)
              && bool_decide (textOf s UserUsableGroups = textOf before UserUsableGroups)
      then Some s else rowsEffect s
  end.

Definition toggleEditMode (s : GroupPage) : option GroupPage :=
  match visual s with Some _ => Some (setVisual None s) | None => mountVisual s end.

(** The page on the settings [defaults]. *)
Definition initGroups (defaults : GroupFormValues) : option GroupPage :=
  mountVisual (mkGroupPage (normalizeGroupForm defaults) (formatGroupForm defaults) None 0 0 (groupValueAt defaults)).

(** The effect that follows new settings. *)
Definition onGroupDefaults (defaults : GroupFormValues) (s : GroupPage) : GroupPage :=
  s |> setDefaults (normalizeGroupForm defaults) |> setGroupForm (formatGroupForm defaults).

(** ** Handlers *)

Definition emitRows (nextRows : list GroupPricingRow) (s : GroupPage) : GroupPage :=
  let '(groupRatio, userUsableGroups) := serializeGroupPricingRows nextRows in
  s |> onVisual (setRows nextRows) |> handleFieldChange GroupRatioText groupRatio
    |> handleFieldChange UserUsableGroups userUsableGroups.

Definition emitChange (newRules : list Rule) (s : GroupPage) : GroupPage :=
  s |> onVisual (setRules newRules) |> handleFieldChange GroupSpecialUsableGroup (serializeRules newRules).

(** What is typed or switched in a cell. *)
Inductive RowInput := InName (x : jsstr) | InRatio (x : jsstr) | InSelectable (b : bool) | InDescription (x : jsstr).

Definition patchOf (i : RowInput) : option RowPatch :=
  match i with
  | InName x => Some (RName x)
  | InRatio x => n ← normalizeRatio (Some (JStr x)); Some (RRatio n)
  | InSelectable b => Some (RSelectable b)
  | InDescription x => Some (RDescription x)
  end.

Definition closeDialog (s : GroupPage) : GroupPage := onVisual (setDialog NoDialog) s.

Definition simpleField (type : SimpleType) : GroupField :=
  match type with SimpleRatio => GroupRatioText | SimpleTopup => TopupGroupRatio end.

(** [handleSave] of the dialog and [handleSimpleSave] *)
Definition handleSimpleSave (type : SimpleType) (editData : option SimpleGroup) (name value : jsstr) (s : GroupPage)
  : option GroupPage :=
  if negb (truthy (trim name)) || negb (truthy (trim value)) then Some s
  else
    x ← saveSimple editData (trim name) (trim value) (textOf s (simpleField type));
    Some (s |> handleFieldChange (simpleField type) x |> closeDialog).

Definition handleAutoGroupSave (autoGroupInput : jsstr) (s : GroupPage) : option GroupPage :=
  if negb (truthy (trim autoGroupInput)) then Some s
  else
    x ← appendAutoGroup autoGroupInput (textOf s AutoGroups);
    Some (s |> handleFieldChange AutoGroups x |> closeDialog).

Definition handleUserGroupSave (userGroupInput : jsstr) (s : GroupPage) : option GroupPage :=
  if negb (truthy (trim userGroupInput)) then Some s
  else
    x ← addUserGroup userGroupInput (textOf s GroupGroupRatio);
    Some (s |> handleFieldChange GroupGroupRatio x |> closeDialog).

(** [handleSave] of the dialog and [handleOverrideSave] *)
Definition handleOverrideSave (userGroup : jsstr) (editData : option GroupOverride) (targetGroup ratio : jsstr) (s : GroupPage)
  : option GroupPage :=
  if negb (truthy (trim targetGroup)) || negb (truthy (trim ratio)) || parsesToNaN ratio then Some s
  else if negb (truthy userGroup) then Some (onVisual (setDialog (GroupOverrideDialog userGroup editData [] [])) s)
  else
    x ← saveOverride userGroup (trim targetGroup) (parsedNumber ratio) (o_targetGroup <$> editData) (textOf s GroupGroupRatio);
    Some (s |> handleFieldChange GroupGroupRatio x |> closeDialog).

(** The inputs of the open dialog. *)
Inductive DialogInput := InFirst (x : jsstr) | InSecond (x : jsstr).

(** A number input takes a text that is empty or starts with a number. *)
Definition acceptsNumber (x : jsstr) : bool := negb (truthy x) || negb (parsesToNaN x).

Definition typeInDialog (i : DialogInput) (d : Dialog) : option Dialog :=
  match d, i with
  | SimpleGroupDialog ty None _ v, InFirst x => Some (SimpleGroupDialog ty None x v)
  | SimpleGroupDialog ty e n v, InSecond x => Some (SimpleGroupDialog ty e n (if acceptsNumber x then x else v))
  | AutoGroupDialog _, InFirst x => Some (AutoGroupDialog x)
  | UserGroupDialog _, InFirst x => Some (UserGroupDialog x)
  | GroupOverrideDialog u None _ r, InFirst x => Some (GroupOverrideDialog u None x r)
  | GroupOverrideDialog u e g r, InSecond x => Some (GroupOverrideDialog u e g (if acceptsNumber x then x else r))
  | _, _ => None
  end.

Definition saveDialog (d : Dialog) (s : GroupPage) : option GroupPage :=
  match d with
  | NoDialog => None
  | SimpleGroupDialog type editData name value => handleSimpleSave type editData name value s
  | AutoGroupDialog x => handleAutoGroupSave x s
  | UserGroupDialog x => handleUserGroupSave x s
  | GroupOverrideDialog userGroup editData targetGroup ratio => handleOverrideSave userGroup editData targetGroup ratio s
  end.

Definition writeField (f : GroupField) (x : option jsstr) (s : GroupPage) : option GroupPage :=
  x ← x; Some (handleFieldChange f x s).

Definition addNewGroup (v : Visual) (s : GroupPage) : GroupPage :=
  let name := trim (newGroupName v) in
  if negb (truthy name) then s
  else s |> setRuleIds (S (ruleIdCounter s)) |> emitChange (addRuleToGroup (ruleIdCounter s) name (rules v))
         |> onVisual (setNewGroupName []).

(** ** Saving *)

Definition groupUpdates (saved normalized : GroupFormValues) : list GroupKey :=
  List.filter (fun k => negb (bool_decide (groupValueAt normalized k = groupValueAt saved k))) groupKeys.

Fixpoint sendGroupUpdates (normalized : GroupFormValues) (keys : list GroupKey) (answers : list Answer)
  (srv : GroupKey -> Stored) : GroupKey -> Stored :=
  match keys, answers with
  | k :: keys, Accepted :: answers => sendGroupUpdates normalized keys answers (put k (groupValueAt normalized k) srv)
  | _ :: keys, Refused :: answers => sendGroupUpdates normalized keys answers srv
  | _, _ => srv
  end.

Definition saveGroupRatios (answers : list Answer) (s : GroupPage) : GroupPage :=
  let normalized := normalizeGroupForm (groupForm s) in
  setGroupServer
    (sendGroupUpdates normalized (groupUpdates (groupNormalizedDefaults s) normalized) answers (groupServer s)) s.

(** [form.handleSubmit(onSave)] *)
Definition submitGroups (answers : list Answer) (s : GroupPage) : GroupPage :=
  if validGroups (groupForm s) then saveGroupRatios answers s else s.

Definition serverGroups (s : GroupPage) : GroupFormValues :=
  mkGroups (fun f => match groupServer s (GText f) with StoredText x => x | _ => [] end)
    (match groupServer s DefaultUseAutoGroup with StoredFlag b => b | _ => false end).

(** ** Events *)

(** The controls of the visual view. *)
Inductive VisualEvent :=
| UpdateRow (id : jsstr) (i : RowInput)
| AddRow
| RemoveRow (id : jsstr)
| SimpleAdd
| SimpleEdit (i : nat)
| SimpleDelete (name : jsstr)
| AutoAdd
| AutoDelete (i : nat)
| AutoMove (i : nat) (d : Direction)
| UserGroupAdd
| UserGroupDelete (g : jsstr)
| OverrideAdd (g : jsstr)
| OverrideEdit (i j : nat)
| OverrideDelete (g target : jsstr)
| UpdateRule (id : jsstr) (p : RulePatch)
| RemoveRule (id : jsstr)
| AddRule (g : jsstr)
| RemoveRuleGroup (g : jsstr)
| TypeNewGroup (x : jsstr)
| AddNewGroup.

(** The input of a description is there for a selectable group, and for a rule that does not remove. *)
Definition rowInputShown (v : Visual) (id : jsstr) (i : RowInput) : bool :=
  match i with
  | InDescription _ => existsb (fun r => bool_decide (g_id r = id) && g_selectable r) (rows v)
  | _ => true
  end.
Definition ruleInputShown (v : Visual) (id : jsstr) (p : RulePatch) : bool :=
  match p with
  | RuDescription _ => existsb (fun r => bool_decide (ru_id r = id) && negb (bool_decide (ru_op r = OP_REMOVE))) (rules v)
  | _ => true
  end.

Definition handleVisual (s : GroupPage) (v : Visual) (e : VisualEvent) : option GroupPage :=
  match e with
  | UpdateRow id i =>
      if rowInputShown v id i then p ← patchOf i; Some (emitRows (updateRow id p (rows v)) s) else None
  | AddRow =>
      Some (s |> setRowIds (S (groupPricingIdCounter s)) |> emitRows (addRow (groupPricingIdCounter s) (rows v)))
  | RemoveRow id => Some (emitRows (removeRow id (rows v)) s)
  | SimpleAdd => Some (onVisual (setDialog (SimpleGroupDialog SimpleTopup None [] [])) s)
  | SimpleEdit i =>
      l ← topupRatioList (textOf s TopupGroupRatio); g ← l !! i;
      Some (onVisual (setDialog (SimpleGroupDialog SimpleTopup (Some g) (sg_name g) (sg_value g))) s)
  | SimpleDelete name => writeField TopupGroupRatio (handleSimpleDelete name (textOf s TopupGroupRatio)) s
  | AutoAdd => Some (onVisual (setDialog (AutoGroupDialog [])) s)
  | AutoDelete i => writeField AutoGroups (handleAutoGroupDelete i (textOf s AutoGroups)) s
  | AutoMove i d =>
      x ← handleAutoGroupMove i d (textOf s AutoGroups);
      Some (match x with Some x => handleFieldChange AutoGroups x s | None => s end)
  | UserGroupAdd => Some (onVisual (setDialog (UserGroupDialog [])) s)
  | UserGroupDelete g => writeField GroupGroupRatio (handleUserGroupDelete g (textOf s GroupGroupRatio)) s
  | OverrideAdd g => Some (onVisual (setDialog (GroupOverrideDialog g None [] [])) s)
  | OverrideEdit i j =>
      l ← groupGroupRatioList (textOf s GroupGroupRatio); g ← l !! i; o ← snd g !! j; x ← String_of (o_ratio o);
      Some (onVisual (setDialog (GroupOverrideDialog (fst g) (Some o) (o_targetGroup o) x)) s)
  | OverrideDelete g target => writeField GroupGroupRatio (handleOverrideDelete g target (textOf s GroupGroupRatio)) s
  | UpdateRule id p => if ruleInputShown v id p then Some (emitChange (updateRule id p (rules v)) s) else None
  | RemoveRule id => Some (emitChange (removeRule id (rules v)) s)
  | AddRule g => Some (s |> setRuleIds (S (ruleIdCounter s)) |> emitChange (addRuleToGroup (ruleIdCounter s) g (rules v)))
  | RemoveRuleGroup g => Some (emitChange (removeGroup g (rules v)) s)
  | TypeNewGroup x => Some (onVisual (setNewGroupName x) s)
  | AddNewGroup => Some (addNewGroup v s)
  end.

Inductive Event :=
| InVisual (e : VisualEvent)
| TypeInDialog (i : DialogInput)
| SaveDialog
| CancelDialog
| SetAuto (b : bool)
| TypeJson (f : GroupField) (x : jsstr)
| ToggleView
| Save (answers : list Answer)
| Refetched.

(** No dialog covers the page. *)
Definition uncovered (s : GroupPage) : bool :=
  match visual s with Some (mkVisual _ _ _ NoDialog) | None => true | _ => false end.

Definition handleGroups (s : GroupPage) (e : Event) : option GroupPage :=
  match e with
  | InVisual e => v ← visual s; if uncovered s then s' ← handleVisual s v e; redraw s s' else None
  | TypeInDialog i => v ← visual s; d ← typeInDialog i (dialog v); Some (onVisual (setDialog d) s)
  | SaveDialog => v ← visual s; s' ← saveDialog (dialog v) s; redraw s s'
  | CancelDialog => v ← visual s; if uncovered s then None else Some (closeDialog s)
  | SetAuto b => if uncovered s then Some (setGroupForm (mkGroups (groupTexts (groupForm s)) b) s) else None
  | TypeJson f x => match visual s with None => Some (handleFieldChange f x s) | Some _ => None end
  | ToggleView => if uncovered s then toggleEditMode s else None
  | Save answers => if uncovered s then Some (submitGroups answers s) else None
  | Refetched => redraw s (onGroupDefaults (serverGroups s) s)
  end.

Inductive reachableGroups : GroupPage -> Prop :=
| groups_init defaults s : initGroups defaults = Some s -> reachableGroups s
| groups_step s e s' : reachableGroups s -> handleGroups s e = Some s' -> reachableGroups s'.

End GroupRatioPage.
