(* ===== verification/GroupRatioFacts.v ===== *)
(** * Group ratios: what the texts hold

    What the table and the rules write, entry by entry, and what is read from it:
    the rows and the rules that a saved text is opened as. *)

From S2P Require Import Prelude JsString JsCollections Json JsonNumber JsonText JsonLocal JsValue JsonCanon JsDouble ModelPricing ModelPricingFacts GroupRatio.
Import Json JsonNumber JsonText JsonLocal JsValue JsonCanon ModelPricing ModelPricingFacts GroupRatio.

Module GroupRatioFacts.

Lemma nodup_map_inj {A B} (f : A -> B) l x y : NoDup (map f l) -> x ∈ l -> y ∈ l -> f x = f y -> x = y.
Proof.
  induction l as [|z l IH]; [by intros _ ?%elem_of_nil|]. cbn [map]. rewrite NoDup_cons.
  intros [Hz Hn] [->|Hx]%elem_of_cons [->|Hy]%elem_of_cons E; try done; [| |by apply IH]; exfalso; apply Hz.
  - rewrite E. apply list_elem_of_fmap. eauto.
  - rewrite <- E. apply list_elem_of_fmap. eauto.
Qed.

(** ** Rows *)

Definition rowUnits (r : GroupPricingRow) : Prop := wf_str (g_name r) /\ wf_str (g_description r).

(** The rows that are written under a name. *)
Definition named (n : jsstr) (r : GroupPricingRow) : bool := bool_decide (trim (g_name r) = n).

Lemma serialized_snoc rows r : serializedMaps (rows ++ [r]) = serializeRow (serializedMaps rows) r.
Proof. apply fold_left_app. Qed.

Lemma serialize_row_get maps r n :
  n <> [] ->
  map_get (serializeRow maps r).1 n = (if named n r then Some (JNum (g_ratio r)) else map_get maps.1 n) /\
  map_get (serializeRow maps r).2 n = (if named n r && g_selectable r then Some (JStr (g_description r)) else map_get maps.2 n).
Proof.
  intros Hn. unfold serializeRow, named. destruct (decide (trim (g_name r) = n)) as [E|E].
  - rewrite bool_decide_eq_true_2 by done. rewrite E. assert (truthy n = true) as -> by (by destruct n). cbn [negb fst snd andb].
    split; [apply map_get_set_eq|]. destruct (g_selectable r); [apply map_get_set_eq|done].
  - rewrite bool_decide_eq_false_2 by done. destruct (truthy (trim (g_name r))); cbn [negb fst snd andb]; [|done].
    split; [by apply map_get_set_ne|]. destruct (g_selectable r); [by apply map_get_set_ne|done].
Qed.

(** The last row of a name gives its ratio, the last selectable one its description. *)
Lemma serialized_get rows n :
  n <> [] ->
  map_get (serializedMaps rows).1 n = (fun r => JNum (g_ratio r)) <$> last (List.filter (named n) rows) /\
  map_get (serializedMaps rows).2 n
  = (fun r => JStr (g_description r)) <$> last (List.filter (fun r => named n r && g_selectable r) rows).
Proof.
  intros Hn. induction rows as [|r rows [IH1 IH2]] using rev_ind; [done|].
  rewrite serialized_snoc, !List.filter_app. destruct (serialize_row_get (serializedMaps rows) r n Hn) as [-> ->].
  rewrite IH1, IH2. cbn [List.filter]. split; case_match; rewrite ?app_nil_r; try done; by rewrite last_snoc.
Qed.

Lemma serialize_row_printable maps r :
  rowUnits r -> printable (JObj maps.1) /\ printable (JObj maps.2) ->
  printable (JObj (serializeRow maps r).1) /\ printable (JObj (serializeRow maps r).2).
Proof.
  intros [Hn Hd] [H1 H2]. unfold serializeRow. destruct (truthy (trim (g_name r))); cbn [negb fst snd]; [|done].
  apply trim_wf in Hn. split; [apply printable_set; [done|constructor|done]|].
  destruct (g_selectable r); [apply printable_set; [done|by constructor|done]|done].
Qed.

Lemma printable_empty : printable (JObj []).
Proof. constructor; constructor. Qed.

Lemma serialized_printable rows :
  Forall rowUnits rows -> printable (JObj (serializedMaps rows).1) /\ printable (JObj (serializedMaps rows).2).
Proof.
  intros H. induction rows as [|r rows IH] using rev_ind; [split; apply printable_empty|].
  apply Forall_app in H as [H Hr]. apply Forall_inv in Hr. rewrite serialized_snoc.
  apply serialize_row_printable; [done|]. by apply IH.
Qed.

(** ** Distinct names *)

(** A row whose name is written as it is. *)
Definition plainName (r : GroupPricingRow) : Prop := trim (g_name r) = g_name r /\ g_name r <> [].

Lemma map_set_absent {V} (m : list (jsstr * V)) k v : k ∉ m.*1 -> map_set m k v = m ++ [(k, v)].
Proof.
  induction m as [|[k' x] m IH]; intros Hk; [done|]. rewrite fmap_cons, not_elem_of_cons in Hk. cbn [fst] in Hk.
  cbn [map_set fst]. rewrite decide_False by naive_solver. cbn [app]. f_equal. apply IH, (proj2 Hk).
Qed.

Lemma serialized_plain rows :
  Forall plainName rows -> NoDup (map g_name rows) ->
  serializedMaps rows
  = (map (fun r => (g_name r, JNum (g_ratio r))) rows,
     map (fun r => (g_name r, JStr (g_description r))) (List.filter g_selectable rows)).
Proof.
  induction rows as [|r rows IH] using rev_ind; [done|]. intros [Hp Hr]%Forall_app Hn. apply Forall_inv in Hr as [Ht Hne].
  rewrite map_app in Hn. apply NoDup_app in Hn as (Hn & Hd & _). rewrite serialized_snoc, IH by done. unfold serializeRow.
  rewrite Ht. assert (truthy (g_name r) = true) as -> by (by destruct (g_name r)). cbn [negb fst snd].
  assert (forall k, k ∈ map g_name rows -> k <> g_name r) as Hneq.
  { intros k Hk ->. apply (Hd _ Hk). by left. }
  rewrite List.filter_app, !map_app. cbn [List.filter map]. f_equal.
  - apply map_set_absent. intros Hin. apply list_elem_of_fmap in Hin as ([k x] & E & Hin).
    apply list_elem_of_In, in_map_iff in Hin as (r' & [= <- <-] & Hin). cbn in E.
    apply (Hneq (g_name r')); [|done]. apply list_elem_of_In, in_map_iff. eauto.
  - destruct (g_selectable r); cbn [map]; [|by rewrite app_nil_r]. apply map_set_absent. intros Hin.
    apply list_elem_of_fmap in Hin as ([k x] & E & Hin).
    apply list_elem_of_In, in_map_iff in Hin as (r' & [= <- <-] & Hin). cbn in E. apply filter_In in Hin as [Hin _].
    apply (Hneq (g_name r')); [|done]. apply list_elem_of_In, in_map_iff. eauto.
Qed.

Lemma set_of_app_known {A} `{EqDecision A} (a b : list A) : NoDup a -> (forall x, x ∈ b -> x ∈ a) -> set_of (a ++ b) = a.
Proof.
  intros Ha Hb. induction b as [|x b IH] using rev_ind; [rewrite app_nil_r; by apply set_of_id|].
  rewrite app_assoc, set_of_snoc, IH by (intros y Hy; apply Hb; set_solver). unfold set_add.
  rewrite decide_True; [done|]. apply Hb. set_solver.
Qed.

(** ** Opening rows *)

(** What a row shows. *)
Definition shown (r : GroupPricingRow) : jsstr * jsstr * bool * jsstr :=
  (g_name r, num_text (g_ratio r), g_selectable r, if g_selectable r then g_description r else []).

Lemma finite_renum n : finite (renum n) = finite n.
Proof. unfold finite. by rewrite renum_idemp. Qed.

Lemma rowsOfNames_total {A} ratioMap usableMap (g : A -> jsstr * jsstr * bool * jsstr) (E : list (jsstr * A)) :
  (forall n x i, (n, x) ∈ E -> exists r, rowOfName ratioMap usableMap i n = Some r /\ shown r = g x) ->
  forall i, exists rs, rowsOfNames ratioMap usableMap i E.*1 = Some rs /\ map shown rs = map g E.*2.
Proof.
  induction E as [|[n x] E IH]; intros H i; [by exists []|]. rewrite !fmap_cons. cbn [rowsOfNames map fst snd].
  destruct (H n x i ltac:(by left)) as (r & -> & Hr).
  destruct (IH (fun m y j Hm => H m y j ltac:(by right)) (S i)) as (rs & -> & Hrs).
  exists (r :: rs). cbn [map mbind option_bind]. by rewrite Hr, Hrs.
Qed.

(** An object with a member for each of the rows that are chosen. *)
Definition objectOf (f : GroupPricingRow -> json) (rows : list GroupPricingRow) : list (jsstr * json) :=
  map (fun r => (g_name r, f r)) rows.

Lemma objectOf_keys f rows : (objectOf f rows).*1 = map g_name rows.
Proof. unfold objectOf. induction rows as [|r rows IH]; [done|]. cbn [map]. by rewrite fmap_cons, IH. Qed.

Lemma objectOf_get f rows r : NoDup (map g_name rows) -> r ∈ rows -> map_get (objectOf f rows) (g_name r) = Some (f r).
Proof.
  intros Hn Hr. apply map_elem_get; [unfold map_keys; by rewrite objectOf_keys|].
  apply list_elem_of_In, in_map_iff. exists r. split; [done|by apply list_elem_of_In].
Qed.

(** Under distinct names a row that is not chosen has no member. *)
Lemma objectOf_filtered f (c : GroupPricingRow -> bool) rows r :
  NoDup (map g_name rows) -> r ∈ rows ->
  map_get (objectOf f (List.filter c rows)) (g_name r) = if c r then Some (f r) else None.
Proof.
  intros Hn Hr. destruct (c r) eqn:Ec.
  - apply objectOf_get; [by apply filter_map_nodup|]. apply list_elem_of_In, filter_In. split; [by apply list_elem_of_In|done].
  - apply map_get_None. unfold map_keys. rewrite objectOf_keys. intros (r' & E & Hin)%list_elem_of_fmap.
    apply list_elem_of_In, filter_In in Hin as [Hin Hc]. assert (r' = r) as ->; [|congruence].
    eapply nodup_map_inj; [exact Hn|by apply list_elem_of_In|done|done].
Qed.

Lemma open_row ratioMap usableMap i r d :
  finite (g_ratio r) = true -> member ratioMap (g_name r) = Some (JNum (renum (g_ratio r))) ->
  member usableMap (g_name r) = d -> d = (if g_selectable r then Some (JStr (g_description r)) else None) ->
  exists r', rowOfName ratioMap usableMap i (g_name r) = Some r' /\ shown r' = shown r.
Proof.
  intros Hf Hr Hu ->. unfold rowOfName. rewrite Hr, Hu. cbn [normalizeRatio Number_of mbind option_bind]. rewrite finite_renum, Hf.
  unfold shown. destruct (g_selectable r); eexists; (split; [reflexivity|]); cbn [g_name g_ratio g_selectable g_description];
    rewrite num_text_renum; reflexivity.
Qed.

Lemma objectOf_printable f rows :
  NoDup (map g_name rows) -> Forall (fun r => wf_str (g_name r)) rows -> Forall (fun r => printable (f r)) rows -> printable (JObj (objectOf f rows)).
Proof.
  intros Hn Hw Hp. constructor; [by rewrite objectOf_keys|rewrite objectOf_keys; by apply Forall_fmap|].
  unfold objectOf. apply Forall_forall. rewrite Forall_forall in Hp. intros v ([k x] & -> & Hin)%list_elem_of_fmap.
  apply list_elem_of_In, in_map_iff in Hin as (r & [= <- <-] & Hin). by apply Hp, list_elem_of_In.
Qed.

(** Rows with names that are distinct, not blank and without surrounding space are opened as they were; the
    names that are array indices come first, as in every object. *)
Lemma rows_reopen rows i :
  Forall plainName rows -> NoDup (map g_name rows) -> Forall rowUnits rows -> Forall (fun r => finite (g_ratio r) = true) rows ->
  exists rs, buildGroupPricingRows i (serializeGroupPricingRows rows).1 (serializeGroupPricingRows rows).2 = Some rs /\
    map shown rs = map shown (Object_entries (map (fun r => (g_name r, r)) rows)).*2.
Proof.
  intros Hp Hn Hu Hf. unfold buildGroupPricingRows, serializeGroupPricingRows. rewrite serialized_plain by done. cbn [fst snd].
  set (m1 := objectOf (fun r => JNum (g_ratio r)) rows).
  set (m2 := objectOf (fun r => JStr (g_description r)) (List.filter g_selectable rows)).
  change (map (fun r => (g_name r, JNum (g_ratio r))) rows) with m1.
  change (map (fun r => (g_name r, JStr (g_description r))) _) with m2.
  assert (Forall (fun r => wf_str (g_name r)) rows) as Hw by (eapply Forall_impl; [exact Hu|]; by intros r []).
  assert (printable (JObj m1)) as H1 by (apply objectOf_printable; [done|done|apply Forall_true; constructor]).
  assert (printable (JObj m2)) as H2.
  { apply objectOf_printable; [by apply filter_map_nodup|by apply filter_Forall|]. apply filter_Forall.
    eapply Forall_impl; [exact Hu|]. intros r []. by constructor. }
  rewrite !parsed_pretty by done. set (E := Object_entries (map (fun r => (g_name r, r)) rows)).
  assert (forall f : GroupPricingRow -> json, Object_entries (objectOf f rows) = map (prod_map Datatypes.id f) E) as He.
  { intros f. unfold E. rewrite <- Object_entries_map. f_equal. unfold objectOf. by rewrite map_map. }
  assert (keysOf (canon (JObj m1)) = Some E.*1) as K1.
  { cbn [canon keysOf own_entries]. rewrite Object_entries_idemp. f_equal. unfold m1.
    rewrite Object_entries_map, He, map_map. clear. induction E as [|[n r] E' IH]; [done|]. cbn [map]. by rewrite fmap_cons, IH. }
  assert (exists k2, keysOf (canon (JObj m2)) = Some k2 /\ forall n, n ∈ k2 -> n ∈ E.*1) as (k2 & K2 & Hk2).
  { eexists. split; [reflexivity|]. intros n. cbn [own_entries canon]. rewrite Object_entries_idemp.
    intros ([k v] & -> & Hin)%list_elem_of_fmap. apply (proj1 (Object_entries_elem _ _)) in Hin.
    apply list_elem_of_In, in_map_iff in Hin as ([k' v'] & [= <- _] & Hin). unfold m2, objectOf in Hin.
    apply in_map_iff in Hin as (r & [= <- _] & Hin). apply filter_In in Hin as [Hin _].
    apply list_elem_of_fmap. exists (g_name r, r). split; [done|]. apply (proj2 (Object_entries_elem _ _)).
    apply list_elem_of_In, in_map_iff. eauto. }
  assert (NoDup E.*1) as HE.
  { unfold E. rewrite js_sort_values_perm. replace (map _ rows).*1 with (map g_name rows); [done|].
    clear. induction rows as [|r rows IH]; [done|]. cbn [map]. by rewrite fmap_cons, IH. }
  unfold groupNames. rewrite K1, K2. cbn [mbind option_bind]. rewrite set_of_app_known by done.
  apply rowsOfNames_total. intros n r j Hin. apply (proj1 (Object_entries_elem _ _)) in Hin.
  apply list_elem_of_In, in_map_iff in Hin as (r' & [= <- ->] & Hin%list_elem_of_In). rewrite Forall_forall in Hf.
  eapply open_row; [by apply Hf|rewrite canon_field by done; unfold m1; by rewrite objectOf_get|reflexivity|].
  rewrite canon_field by done. unfold m2. rewrite objectOf_filtered by done. by destruct (g_selectable r).
Qed.

(** ** New names *)

Lemma groupName_inj i j : groupName i = groupName j -> i = j.
Proof. unfold groupName. intros E%app_inv_head%showZ_inj; lia. Qed.

Lemma freshIndex_spec fuel index existing :
  let k := freshIndex fuel index existing in
  (index <= k <= index + fuel)%nat /\ (forall i, (index <= i < k)%nat -> groupName i ∈ existing) /\
  (groupName k ∉ existing \/ k = (index + fuel)%nat).
Proof.
  revert index. induction fuel as [|fuel IH]; intros index; cbn [freshIndex]; [split; [lia|]; split; [lia|right; lia]|].
  destruct (bool_decide (groupName index ∈ existing)) eqn:E; [apply bool_decide_eq_true in E|apply bool_decide_eq_false in E].
  - destruct (IH (S index)) as (Hk & Hi & Hend). split; [lia|]. split; [|destruct Hend; [by left|right; lia]].
    intros i Hlt. destruct (decide (i = index)) as [->|]; [done|]. apply Hi. lia.
  - split; [lia|]. split; [lia|by left].
Qed.

(** The loop ends at the first number whose name is free. *)
Lemma freshName_spec rows :
  exists k, freshName rows = groupName k /\ groupName k ∉ map g_name rows /\
    forall i, (1 <= i < k)%nat -> groupName i ∈ map g_name rows.
Proof.
  unfold freshName. set (existing := map g_name rows).
  destruct (freshIndex_spec (S (length existing)) 1 existing) as (Hk & Hi & Hend). eexists. split; [done|]. split; [|done].
  destruct Hend as [|Hend]; [done|]. exfalso.
  assert (length (map groupName (seq 1 (S (length existing)))) <= length existing)%nat as Hlen; [|rewrite length_map, length_seq in Hlen; lia].
  apply NoDup_incl_length.
  - apply NoDup_ListNoDup, NoDup_fmap_2_strong; [|apply NoDup_seq]. intros i j _ _. apply groupName_inj.
  - intros x (i & <- & Hin%in_seq)%in_map_iff. apply list_elem_of_In, Hi. lia.
Qed.

(** ** Rules *)

Definition ruleUnits (r : Rule) : Prop := wf_str (ru_userGroup r) /\ wf_str (ru_targetGroup r) /\ wf_str (ru_description r).

(** A removal has its fixed text, and the name of an appended group does not read as another operation. *)
Definition ruleOk (r : Rule) : Prop :=
  match ru_op r with
  | OP_REMOVE => ru_description r = removeText
  | OP_APPEND => parsePrefix (ru_targetGroup r) = (OP_APPEND, ru_targetGroup r)
  | OP_ADD => True
  end.

(** An entry under a user group that is opened as a rule and written as the same entry. *)
Definition entryOk (e : jsstr * jsstr) : Prop :=
  let '(op, target) := parsePrefix e.1 in target <> [] /\ (op = OP_REMOVE -> e.2 = removeText).

Lemma rawKey_parse key : toRawKey (parsePrefix key).1 (parsePrefix key).2 = key.
Proof.
  unfold parsePrefix. destruct (startsWith key (js "+:")) eqn:E1; [symmetry; by apply startsWith_drop in E1|].
  destruct (startsWith key (js "-:")) eqn:E2; [symmetry; by apply startsWith_drop in E2|done].
Qed.

Lemma parse_rawKey r : ruleOk r -> parsePrefix (toRawKey (ru_op r) (ru_targetGroup r)) = (ru_op r, ru_targetGroup r).
Proof.
  unfold ruleOk. destruct (ru_op r); cbn [toRawKey]; [| |done]; intros _; unfold parsePrefix.
  - by rewrite startsWith_app.
  - assert (startsWith (js "-:" ++ ru_targetGroup r) (js "+:") = false) as -> by reflexivity. by rewrite startsWith_app.
Qed.

Lemma rule_entry r : ruleOk r -> ru_targetGroup r <> [] -> entryOk (toRawKey (ru_op r) (ru_targetGroup r), ru_description r).
Proof.
  intros Hr Ht. unfold entryOk. cbn [fst snd]. rewrite parse_rawKey by done. split; [done|]. intros E. unfold ruleOk in Hr.
  by rewrite E in Hr.
Qed.

(** The groups as rules are written: distinct, none of them empty, with distinct and readable keys. *)
Definition groupOk (g : jsstr * list (jsstr * jsstr)) : Prop :=
  g.1 <> [] /\ g.2 <> [] /\ NoDup g.2.*1 /\ Forall entryOk g.2.

Definition nestedOk (nested : list (jsstr * list (jsstr * jsstr))) : Prop := NoDup nested.*1 /\ Forall groupOk nested.

Lemma map_set_Forall {V} (P : jsstr * V -> Prop) m k v : Forall P m -> P (k, v) -> Forall P (map_set m k v).
Proof.
  intros Hm Hv. apply Forall_forall. intros [k' v'] [[-> ->]|Hin]%map_set_elem; [done|]. rewrite Forall_forall in Hm. by apply Hm.
Qed.

Lemma nestRule_ok nested r : ruleOk r -> nestedOk nested -> nestedOk (nestRule nested r).
Proof.
  intros Hr [Hn Hg]. unfold nestRule.
  destruct (truthy (ru_userGroup r)) eqn:Eu, (truthy (ru_targetGroup r)) eqn:Et; cbn [negb orb]; try done.
  apply truthy_not_nil in Eu, Et. split; [by apply map_keys_set_nodup|]. apply map_set_Forall; [done|].
  assert (NoDup (map_get nested (ru_userGroup r) ?? []).*1 /\ Forall entryOk (map_get nested (ru_userGroup r) ?? [])) as [Hd He].
  { destruct (map_get nested (ru_userGroup r)) as [inner|] eqn:E; [|split; constructor]. apply map_get_Some_elem in E.
    rewrite Forall_forall in Hg. by destruct (Hg _ E) as (_ & _ & ? & ?). }
  split_and!; cbn [fst snd]; [done| |by apply map_keys_set_nodup|].
  - intros Ee. assert (map_get (map_set (map_get nested (ru_userGroup r) ?? []) (toRawKey (ru_op r) (ru_targetGroup r)) (ru_description r))
      (toRawKey (ru_op r) (ru_targetGroup r)) = Some (ru_description r)) as H by apply map_get_set_eq. by rewrite Ee in H.
  - apply map_set_Forall; [done|]. by apply rule_entry.
Qed.

Lemma nestRules_ok rules : Forall ruleOk rules -> nestedOk (nestRules rules).
Proof.
  intros H. unfold nestRules. apply (fold_left_cons_inv nestedOk); [split; constructor|].
  intros nested r Hin. apply nestRule_ok. rewrite Forall_forall in H. by apply H.
Qed.

(** ** Opening rules *)

Definition nestEntry (nested : list (jsstr * list (jsstr * jsstr))) (e : jsstr * jsstr * jsstr) : list (jsstr * list (jsstr * jsstr)) :=
  let '(g, k, d) := e in map_set nested g (map_set (map_get nested g ?? []) k d).

Definition entriesOf (nested : list (jsstr * list (jsstr * jsstr))) : list (jsstr * jsstr * jsstr) :=
  flat_map (fun g => map (fun e => (g.1, e.1, e.2)) g.2) nested.

Lemma nest_opened nested n g k d :
  g <> [] -> entryOk (k, d) -> nestRule nested (ruleOf n (g, k, JStr d)) = nestEntry nested (g, k, d).
Proof.
  intros Hg. unfold entryOk, ruleOf, nestRule. cbn [fst snd]. pose proof (rawKey_parse k) as Hk.
  destruct (parsePrefix k) as [op target]. cbn [fst snd] in Hk. intros [Ht Hr].
  cbn [ru_userGroup ru_targetGroup ru_op ru_description]. rewrite Hk.
  destruct g as [|c g]; [done|]. destruct target as [|c' target]; [done|]. cbn [truthy negb orb nestEntry].
  destruct op; try done. by rewrite Hr.
Qed.

Lemma nest_opened_all es n nested :
  Forall (fun e => e.1.1 <> [] /\ entryOk (e.1.2, e.2)) es ->
  fold_left nestRule (rulesOfEntries n (map (fun e => (e.1, JStr e.2)) es)) nested = fold_left nestEntry es nested.
Proof.
  intros H. revert n nested. induction H as [|[[g k] d] es [Hg He] _ IH]; intros n nested; [done|].
  cbn [map rulesOfEntries fold_left fst snd] in *. rewrite nest_opened by done. apply IH.
Qed.

Lemma map_get_app_last {V} (m : list (jsstr * V)) k v : k ∉ m.*1 -> map_get (m ++ [(k, v)]) k = Some v.
Proof. intros H. rewrite <- map_set_absent by done. apply map_get_set_eq. Qed.

Lemma map_set_app_last {V} (m : list (jsstr * V)) k v w : k ∉ m.*1 -> map_set (m ++ [(k, v)]) k w = m ++ [(k, w)].
Proof. intros H. rewrite <- map_set_absent, map_set_set by done. by apply map_set_absent. Qed.

Lemma nest_inner inner pre g nested :
  g ∉ nested.*1 -> NoDup (pre ++ inner).*1 ->
  fold_left nestEntry (map (fun e => (g, e.1, e.2)) inner) (nested ++ [(g, pre)]) = nested ++ [(g, pre ++ inner)].
Proof.
  intros Hg. revert pre. induction inner as [|[k d] inner IH]; intros pre Hn; [by rewrite app_nil_r|].
  cbn [map fold_left nestEntry fst snd]. rewrite map_get_app_last, map_set_app_last by done.
  rewrite map_set_absent; [rewrite IH; [by rewrite <- app_assoc|by rewrite <- app_assoc]|].
  rewrite fmap_app, fmap_cons in Hn. apply NoDup_app in Hn as (_ & Hd & _). intros Hk. apply (Hd k Hk). by left.
Qed.

Lemma nest_group g inner nested :
  g ∉ nested.*1 -> inner <> [] -> NoDup inner.*1 ->
  fold_left nestEntry (map (fun e => (g, e.1, e.2)) inner) nested = nested ++ [(g, inner)].
Proof.
  intros Hg Hi Hn. destruct inner as [|[k d] inner]; [done|]. cbn [map fold_left nestEntry fst snd].
  assert (map_get nested g = None) as -> by by apply map_get_None. rewrite map_set_absent by done. cbn [map_set].
  by apply (nest_inner inner [(k, d)]).
Qed.

Lemma nest_entries nested acc :
  NoDup (acc ++ nested).*1 -> Forall groupOk nested -> fold_left nestEntry (entriesOf nested) acc = acc ++ nested.
Proof.
  revert acc. induction nested as [|[g inner] nested IH]; intros acc Hn Hg; [by rewrite app_nil_r|].
  apply Forall_cons in Hg as [(_ & Hi & Hd & _) Hg]. cbn [fst snd] in *. unfold entriesOf. cbn [flat_map fst snd].
  rewrite fold_left_app, nest_group; [|rewrite fmap_app, fmap_cons in Hn; apply NoDup_app in Hn as (_ & Hx & _);
    intros Hin; apply (Hx g Hin); by left|done|done].
  change (acc ++ (g, inner) :: nested) with (acc ++ [(g, inner)] ++ nested). rewrite app_assoc.
  apply (IH (acc ++ [(g, inner)])); [by rewrite <- app_assoc|done].
Qed.

(** Groups and keys in the order that a text gives them. *)
Definition canonNested (nested : list (jsstr * list (jsstr * jsstr))) : list (jsstr * list (jsstr * jsstr)) :=
  Object_entries (map (prod_map id Object_entries) nested).

Lemma nested_canon nested : canon (nestedJson nested) = nestedJson (canonNested nested).
Proof.
  unfold nestedJson, canonNested. cbn [canon]. f_equal. rewrite map_map, <- Object_entries_map, map_map. f_equal.
  apply map_ext. intros [g inner]. unfold prod_map, id. cbn [fst snd canon]. do 2 f_equal.
  rewrite map_map. change (map (fun p => (p.1, JStr p.2)) (Object_entries inner)) with (map (prod_map id JStr) (Object_entries inner)).
  by rewrite <- Object_entries_map.
Qed.

Lemma canonNested_ok nested : nestedOk nested -> nestedOk (canonNested nested).
Proof.
  intros [Hn Hg]. unfold canonNested. split.
  - rewrite js_sort_values_perm. by rewrite (keys_map Object_entries nested).
  - apply Forall_forall. intros [g inner] Hin. apply (proj1 (Object_entries_elem _ _)) in Hin.
    apply list_elem_of_In, in_map_iff in Hin as ([g' inner'] & [= <- <-] & Hin%list_elem_of_In).
    rewrite Forall_forall in Hg. destruct (Hg _ Hin) as (H1 & H2 & H3 & H4). split_and!; cbn [fst snd] in *; [done| | |].
    + intros E. apply H2. apply Permutation_nil_r. by rewrite <- js_sort_values_perm, E.
    + by rewrite js_sort_values_perm.
    + by rewrite js_sort_values_perm.
Qed.

Lemma opened_entries nested :
  ruleEntries (nestedJson (canonNested nested)) = map (fun e => (e.1, JStr e.2)) (entriesOf (canonNested nested)).
Proof.
  assert (Object_entries (canonNested nested) = canonNested nested) as Ho by apply Object_entries_idemp.
  assert (Forall (fun g => Object_entries g.2 = g.2) (canonNested nested)) as Hi.
  { apply Forall_forall. intros [g inner] Hin. apply (proj1 (Object_entries_elem _ _)) in Hin.
    apply list_elem_of_In, in_map_iff in Hin as ([g' inner'] & [= <- <-] & _). apply Object_entries_idemp. }
  unfold ruleEntries, nestedJson. cbn [own_entries]. rewrite Object_entries_map, Ho. clear Ho.
  unfold entriesOf. induction Hi as [|[g inner] l Hin _ IH]; [done|]. cbn [map flat_map prod_map fst snd own_entries] in *.
  rewrite Object_entries_map, Hin, map_app, IH. f_equal. rewrite !map_map. apply map_ext. by intros [k d].
Qed.

(** The strings of the groups are in units of UTF-16. *)
Definition nestedUnits (nested : list (jsstr * list (jsstr * jsstr))) : Prop :=
  Forall (fun g => wf_str g.1 /\ Forall (fun e => wf_str e.1 /\ wf_str e.2) g.2) nested.

Lemma toRawKey_wf op x : wf_str x -> wf_str (toRawKey op x).
Proof. intros H. destruct op; cbn [toRawKey]; [| |done]; apply Forall_app; (split; [|done]); apply (bool_decide_unpack _); vm_compute; reflexivity. Qed.

Lemma nestRules_units rules : Forall ruleUnits rules -> nestedUnits (nestRules rules).
Proof.
  intros H. unfold nestRules. apply (fold_left_cons_inv nestedUnits); [constructor|]. intros nested r Hin Hn.
  rewrite Forall_forall in H. destruct (H r Hin) as (Hu & Ht & Hd). unfold nestRule.
  destruct (_ || _); [done|]. apply map_set_Forall; [done|]. cbn [fst snd]. split; [done|].
  apply map_set_Forall; [|cbn [fst snd]; split; [by apply toRawKey_wf|done]].
  destruct (map_get nested (ru_userGroup r)) as [inner|] eqn:E; [|constructor]. apply map_get_Some_elem in E.
  unfold nestedUnits in Hn. rewrite Forall_forall in Hn. by destruct (Hn _ E).
Qed.

Lemma nested_printable nested : nestedOk nested -> nestedUnits nested -> printable (nestedJson nested).
Proof.
  intros [Hn Hg] Hu. unfold nestedJson. constructor.
  - by rewrite (keys_map (fun inner => JObj (map (prod_map id JStr) inner)) nested).
  - rewrite (keys_map (fun inner => JObj (map (prod_map id JStr) inner)) nested). apply Forall_fmap.
    eapply Forall_impl; [exact Hu|]. by intros g [].
  - apply Forall_fmap, Forall_fmap, Forall_forall. intros [g inner] Hin. cbn [compose prod_map snd].
    rewrite Forall_forall in Hg. unfold nestedUnits in Hu. rewrite Forall_forall in Hu.
    destruct (Hg _ Hin) as (_ & _ & Hd & _), (Hu _ Hin) as [_ Hi]. cbn [fst snd] in *. constructor.
    + by rewrite (keys_map JStr inner).
    + rewrite (keys_map JStr inner). apply Forall_fmap. eapply Forall_impl; [exact Hi|]. by intros e [].
    + apply Forall_fmap, Forall_fmap. eapply Forall_impl; [exact Hi|]. intros e []. by constructor.
Qed.

Lemma serialize_pretty rules : serializeRules rules = JSON_pretty (nestedJson (nestRules rules)).
Proof. unfold serializeRules. cbv zeta. by destruct (nestRules rules). Qed.

Lemma parse_special v : printable v -> safeParseJson (JSON_pretty v) = canon v.
Proof.
  intros Hv. pose proof (pretty_reads _ Hv) as Hp. unfold safeParseJson. by rewrite (parse_truthy _ _ (parse_trim _ _ Hp)), Hp.
Qed.

Lemma canon_entries_ok nested :
  nestedOk nested -> Forall (fun e => e.1.1 <> [] /\ entryOk (e.1.2, e.2)) (entriesOf (canonNested nested)).
Proof.
  intros [_ Hcg]%canonNested_ok. apply Forall_forall. intros [[g k] d] Hin. unfold entriesOf in Hin.
  apply list_elem_of_In, in_flat_map in Hin as ([g' inner] & Hg & Hin).
  apply in_map_iff in Hin as ([k' d'] & [= <- <- <-] & Hin). cbn [fst snd] in *. rewrite Forall_forall in Hcg.
  destruct (Hcg _ (proj2 (list_elem_of_In _ _) Hg)) as (H1 & _ & _ & H4). split; [done|]. rewrite Forall_forall in H4.
  by apply (H4 (k', d')), list_elem_of_In.
Qed.

(** What is written is opened as the rules of its entries, and these are written as the same text. *)
Lemma usable_rules_reopen rules n :
  Forall ruleOk rules -> Forall ruleUnits rules ->
  let rules' := rulesOfEntries n (map (fun e => (e.1, JStr e.2)) (entriesOf (canonNested (nestRules rules)))) in
  flattenRules n (safeParseJson (serializeRules rules)) = Some rules' /\ serializeRules rules' = serializeRules rules.
Proof.
  intros Hr Hu. pose proof (nestRules_ok _ Hr) as Hok. pose proof (nestRules_units _ Hu) as Hun. cbv zeta.
  pose proof (canonNested_ok _ Hok) as [Hcn Hcg]. split.
  - rewrite serialize_pretty, parse_special, nested_canon by by apply nested_printable.
    unfold flattenRules. cbn [nestedJson]. by rewrite <- opened_entries.
  - rewrite !serialize_pretty. unfold nestRules at 1. rewrite nest_opened_all by by apply canon_entries_ok.
    rewrite (nest_entries _ []) by done. cbn [app]. rewrite <- nested_canon. unfold JSON_pretty. apply print_canon.
Qed.

(** Opened rules are written as they are opened. *)
Lemma opened_rule_ok n e : ruleOk (ruleOf n e).
Proof.
  destruct e as [[g k] d]. unfold ruleOf, ruleOk, parsePrefix.
  destruct (startsWith k (js "+:")) eqn:E1; [done|]. destruct (startsWith k (js "-:")) eqn:E2; [done|].
  cbn [ru_op ru_targetGroup]. by rewrite E1, E2.
Qed.

Lemma opened_rules_ok n es : Forall ruleOk (rulesOfEntries n es).
Proof. revert n. induction es as [|e es IH]; intros n; constructor; [apply opened_rule_ok|apply IH]. Qed.

(** ** What opened rules say *)

Definition ruleKey (r : Rule) : jsstr * OpType * jsstr := (ru_userGroup r, ru_op r, ru_targetGroup r).

(** The description that is kept for a user group, an operation and a target: that of the last such rule. *)
Definition keptDescription (rules : list Rule) (key : jsstr * OpType * jsstr) : option jsstr :=
  ru_description <$> last (List.filter (fun r => bool_decide (ruleKey r = key)) rules).

Definition nestedAt (nested : list (jsstr * list (jsstr * jsstr))) (g k : jsstr) : option jsstr :=
  inner ← map_get nested g; map_get inner k.

(** The rules that are written under a user group and a key. *)
Definition writtenUnder (g k : jsstr) (r : Rule) : bool :=
  bool_decide (ru_userGroup r = g) && truthy (ru_targetGroup r) && bool_decide (toRawKey (ru_op r) (ru_targetGroup r) = k).

Lemma nestRules_at rules g k :
  g <> [] -> nestedAt (nestRules rules) g k = ru_description <$> last (List.filter (writtenUnder g k) rules).
Proof.
  intros Hg. induction rules as [|r rules IH] using rev_ind; [done|].
  unfold nestRules. rewrite fold_left_app, List.filter_app. cbn [fold_left List.filter]. fold (nestRules rules).
  unfold nestRule, writtenUnder at 2, nestedAt. destruct (decide (ru_userGroup r = g)) as [E|E].
  - rewrite (bool_decide_eq_true_2 (ru_userGroup r = g)) by done. subst g. destruct (ru_userGroup r) as [|c u]; [done|].
    cbn [truthy negb orb andb]. destruct (truthy (ru_targetGroup r)); cbn [negb andb]; [|by rewrite app_nil_r].
    rewrite map_get_set_eq. cbn [mbind option_bind]. case_bool_decide as Ek; [subst k; by rewrite map_get_set_eq, last_snoc|].
    rewrite map_get_set_ne, app_nil_r, <- IH by done. unfold nestedAt. by destruct (map_get (nestRules rules) (c :: u)).
  - rewrite (bool_decide_eq_false_2 (ru_userGroup r = g)) by done. cbn [andb]. rewrite app_nil_r, <- IH. unfold nestedAt.
    destruct (_ || _); [done|]. by rewrite map_get_set_ne.
Qed.

(** A key reads as one operation and one target only. *)
Lemma written_kept rules g op t :
  Forall ruleOk rules -> t <> [] -> parsePrefix (toRawKey op t) = (op, t) ->
  List.filter (writtenUnder g (toRawKey op t)) rules = List.filter (fun r => bool_decide (ruleKey r = (g, op, t))) rules.
Proof.
  intros Hr Ht Hp. rewrite Forall_forall in Hr. apply filter_ext_in. intros r Hin%list_elem_of_In. unfold writtenUnder, ruleKey.
  case_bool_decide as Eg; cbn [andb]; [|rewrite bool_decide_eq_false_2 by congruence; done].
  destruct (truthy (ru_targetGroup r)) eqn:Et; cbn [andb].
  - apply bool_decide_ext. split; [|congruence]. intros E. pose proof (parse_rawKey r (Hr r Hin)) as Hk. rewrite E, Hp in Hk. congruence.
  - rewrite bool_decide_eq_false_2; [done|]. intros [= _ _ E]. rewrite E in Et. by destruct t.
Qed.

Lemma kept_written rules g op t :
  Forall ruleOk rules -> g <> [] -> t <> [] -> parsePrefix (toRawKey op t) = (op, t) ->
  nestedAt (nestRules rules) g (toRawKey op t) = keptDescription rules (g, op, t).
Proof. intros Hr Hg Ht Hp. rewrite nestRules_at, written_kept by done. done. Qed.

Lemma entriesOf_elem nested g k d :
  (g, k, d) ∈ entriesOf nested <-> exists inner, (g, inner) ∈ nested /\ (k, d) ∈ inner.
Proof.
  unfold entriesOf. rewrite list_elem_of_In, in_flat_map. setoid_rewrite in_map_iff. split.
  - intros ([g' inner] & Hg & [k' d'] & [= <- <- <-] & Hin). exists inner. by rewrite !list_elem_of_In.
  - intros (inner & Hg%list_elem_of_In & Hk%list_elem_of_In). exists (g, inner). split; [done|]. by exists (k, d).
Qed.

Lemma canonNested_elem nested g k d :
  nestedOk nested -> (g, k, d) ∈ entriesOf (canonNested nested) <-> nestedAt nested g k = Some d.
Proof.
  intros [Hn Hg]. rewrite entriesOf_elem. unfold canonNested, nestedAt. setoid_rewrite Object_entries_elem. split.
  - intros (inner & Hin & Hk). apply list_elem_of_In, in_map_iff in Hin as ([g' inner'] & [= <- <-] & Hin%list_elem_of_In).
    rewrite (map_elem_get _ _ _ Hn Hin). cbn [mbind option_bind]. rewrite Forall_forall in Hg. destruct (Hg _ Hin) as (_ & _ & Hd & _).
    apply map_elem_get; [done|]. by apply (proj1 (Object_entries_elem _ _)) in Hk.
  - intros (inner & Hin%map_get_Some_elem & Hk%map_get_Some_elem)%bind_Some. exists (Object_entries inner).
    split; [|by apply (proj2 (Object_entries_elem _ _))]. apply list_elem_of_In, in_map_iff. exists (g, inner). split; [done|].
    by apply list_elem_of_In.
Qed.

(** What the rule of an entry says. *)
Definition entrySays (e : jsstr * jsstr * jsstr) : jsstr * OpType * jsstr * jsstr :=
  let '(g, k, d) := e in (g, (parsePrefix k).1, (parsePrefix k).2, d).

Lemma opened_say es n :
  Forall (fun e => entryOk (e.1.2, e.2)) es ->
  map (fun r => (ruleKey r, ru_description r)) (rulesOfEntries n (map (fun e => (e.1, JStr e.2)) es)) = map entrySays es.
Proof.
  intros H. revert n. induction H as [|[[g k] d] es He _ IH]; intros n; [done|]. cbn [map rulesOfEntries fst snd] in *. rewrite IH.
  f_equal. unfold entryOk, ruleOf, ruleKey, entrySays in *. cbn [fst snd] in He. destruct (parsePrefix k) as [op t].
  cbn [fst snd ru_userGroup ru_op ru_targetGroup ru_description]. destruct He as [_ He]. f_equal. destruct op; try done. by rewrite He.
Qed.

(** The opened rules: one for each user group, operation and target that was written, with the kept description. *)
Lemma reopened_say rules n :
  Forall ruleOk rules ->
  let rules' := rulesOfEntries n (map (fun e => (e.1, JStr e.2)) (entriesOf (canonNested (nestRules rules)))) in
  forall g op t d, (exists r, r ∈ rules' /\ ruleKey r = (g, op, t) /\ ru_description r = d) <->
    g <> [] /\ t <> [] /\ keptDescription rules (g, op, t) = Some d.
Proof.
  intros Hr. cbv zeta. pose proof (nestRules_ok _ Hr) as Hok. pose proof (canon_entries_ok _ Hok) as He.
  set (es := entriesOf _) in *. intros g op t d. set (rules' := rulesOfEntries n _).
  assert (map (fun r => (ruleKey r, ru_description r)) rules' = map entrySays es) as Hsay.
  { apply opened_say. eapply Forall_impl; [exact He|]. by intros e []. }
  transitivity ((g, op, t, d) ∈ map entrySays es).
  { rewrite <- Hsay, list_elem_of_In, in_map_iff. setoid_rewrite <- list_elem_of_In. split.
    - intros (r & Hin & <- & <-). by exists r.
    - intros (r & [= <- <- <- <-] & Hin). by exists r. }
  rewrite list_elem_of_In, in_map_iff. setoid_rewrite <- list_elem_of_In. split.
  - intros ([[g' k] d'] & [= <- Eo Et <-] & Hin). rewrite Forall_forall in He. destruct (He _ Hin) as [Hg Hk]. cbn [fst snd] in Hg, Hk.
    unfold entryOk in Hk. cbn [fst snd] in Hk. pose proof (rawKey_parse k) as Ek. destruct (parsePrefix k) as [o x] eqn:Ep. cbn [fst snd] in *.
    subst o x. destruct Hk as [Ht _]. split_and!; [done|done|]. rewrite <- kept_written; [|done..|by rewrite Ek].
    rewrite Ek. by apply canonNested_elem.
  - intros (Hg & Ht & Hd). assert (parsePrefix (toRawKey op t) = (op, t)) as Hp.
    { unfold keptDescription in Hd. apply fmap_Some in Hd as (r & Hl & _). apply last_Some_elem_of in Hl.
      apply list_elem_of_In, filter_In in Hl as [Hin Hb]. apply bool_decide_eq_true in Hb. injection Hb as _ <- <-.
      apply parse_rawKey. rewrite Forall_forall in Hr. by apply Hr, list_elem_of_In. }
    exists (g, toRawKey op t, d). cbn [entrySays]. rewrite Hp. split; [done|]. apply canonNested_elem; [done|].
    by rewrite kept_written.
Qed.

(** ** Sections *)

Lemma grouped_snoc rules r :
  grouped (rules ++ [r]) = if negb (truthy (ru_userGroup r)) then grouped rules
    else map_set (grouped rules) (ru_userGroup r) ((map_get (grouped rules) (ru_userGroup r) ?? []) ++ [r]).
Proof. unfold grouped. by rewrite fold_left_app. Qed.

(** The section of a group holds its rules, in their order. *)
Lemma grouped_get rules g :
  g <> [] ->
  map_get (grouped rules) g
  = let items := List.filter (fun r => bool_decide (ru_userGroup r = g)) rules in if bool_decide (items = []) then None else Some items.
Proof.
  intros Hg. cbv zeta. induction rules as [|r rules IH] using rev_ind; [done|]. rewrite grouped_snoc, List.filter_app. cbn [List.filter].
  destruct (decide (ru_userGroup r = g)) as [E|E].
  - rewrite (bool_decide_eq_true_2 (ru_userGroup r = g)) by done. rewrite E. assert (truthy g = true) as -> by (by destruct g). cbn [negb].
    rewrite map_get_set_eq, IH. rewrite (bool_decide_eq_false_2 (_ ++ [r] = [])) by (intros H; by apply app_eq_nil in H as [_ ?]).
    destruct (bool_decide (_ = [])) eqn:Eb; [|done]. apply bool_decide_eq_true in Eb. by rewrite Eb.
  - rewrite (bool_decide_eq_false_2 (ru_userGroup r = g)) by done. rewrite app_nil_r, <- IH.
    destruct (truthy (ru_userGroup r)); cbn [negb]; [|done]. by apply map_get_set_ne.
Qed.

End GroupRatioFacts.
