(* ===== verification/GroupRatioKinds.v ===== *)
(** * Group ratios: the kinds of the texts

    Three of the settings are drawn as lists: the ratios of top-ups, an object of
    plain values; the ratios between groups, an object of such objects; and the
    auto groups, an array of names.  Texts of these kinds can be drawn, and every
    handler of the lists accepts them and writes a text of the same kind. *)

From S2P Require Import Prelude JsString JsCollections Json JsonNumber JsonText JsonLocal JsValue JsonCanon JsDouble ModelPricing ModelPricingFacts GroupRatio GroupRatioPage GroupRatioFacts.
Import Json JsonNumber JsonText JsonLocal JsValue JsonCanon ModelPricing ModelPricingFacts GroupRatio GroupRatioPage GroupRatioFacts.

Module GroupRatioKinds.

(** ** Kinds *)

(** Neither an array nor an object. *)
Definition scalar (v : json) : Prop := match v with JArr _ | JObj _ => False | _ => True end.

(** An object all of whose values satisfy [P]. *)
Definition recordOf (P : json -> Prop) (v : json) : Prop := exists fs, v = JObj fs /\ Forall (fun kv => P kv.2) fs.

(** The texts of such an object and of an array of strings, in units of UTF-16. *)
Definition textRecord (P : json -> Prop) (x : jsstr) : Prop := wf_str x /\ recordOf P (safeJsonParse x).
Definition textNames (x : jsstr) : Prop := wf_str x /\ exists l, safeJsonParseList x = JArr (map JStr l).

Record kinds (texts : GroupField -> jsstr) : Prop := {
  topups : textRecord scalar (texts TopupGroupRatio);
  overrides : textRecord (recordOf scalar) (texts GroupGroupRatio);
  autos : textNames (texts AutoGroups) }.

Lemma kinds_ext texts texts' :
  kinds texts -> texts' TopupGroupRatio = texts TopupGroupRatio -> texts' GroupGroupRatio = texts GroupGroupRatio ->
  texts' AutoGroups = texts AutoGroups -> kinds texts'.
Proof. intros [] E1 E2 E3. constructor; by rewrite ?E1, ?E2, ?E3. Qed.

Lemma parsed_list v : printable v -> safeJsonParseList (JSON_pretty v) = canon v.
Proof.
  intros Hv. pose proof (parse_trim _ _ (pretty_reads _ Hv)) as Hp. unfold safeJsonParseList. by rewrite (parse_truthy _ _ Hp), Hp.
Qed.

Lemma list_printable text l : wf_str text -> safeJsonParseList text = JArr l -> printable (JArr l).
Proof.
  unfold safeJsonParseList. intros Hw. destruct (negb _); [intros [= <-]; constructor; constructor|].
  destruct (JSON_parse (trim text)) as [v|] eqn:E; [|intros [= <-]; constructor; constructor]. intros ->.
  eapply parse_printable; [|exact E]. by apply trim_wf.
Qed.

(** ** Drawing *)

Lemma scalar_text v : scalar v -> is_Some (String_of v).
Proof. by destruct v as [|[]| | | |]. Qed.

Lemma entries_Forall (P : jsstr * json -> Prop) fs : Forall P fs -> Forall P (Object_entries fs).
Proof. rewrite !Forall_forall. intros H kv Hkv. apply H. by apply (proj1 (Object_entries_elem _ _)) in Hkv. Qed.

(** Texts of these kinds can be drawn. *)
Lemma kinds_draw texts : kinds texts -> draws texts = true.
Proof.
  intros [(_ & fs & E1 & H1) (_ & gs & E2 & H2) (_ & l & E3)]. unfold draws, topupRatioList, groupGroupRatioList, autoGroupsDraw.
  rewrite E1, E2, E3. cbn [own_entries]. rewrite !bool_decide_eq_true_2.
  - apply forallb_forall. by intros v (s & <- & _)%in_map_iff.
  - apply mapM_is_Some_2, entries_Forall. eapply Forall_impl; [exact H2|]. intros [k v] (inner & E & _). cbn [snd] in E. subst v. by eexists.
  - apply mapM_is_Some_2, entries_Forall. eapply Forall_impl; [exact H1|]. intros [k v] [s Hs]%scalar_text. cbn [snd] in Hs.
    unfold compose. rewrite Hs. by eexists.
Qed.

(** ** Writing *)

Lemma scalar_canon v : scalar v -> scalar (canon v).
Proof. by destruct v. Qed.

Lemma record_canon P v : (forall x, P x -> P (canon x)) -> recordOf P v -> recordOf P (canon v).
Proof.
  intros HP (fs & -> & Hf). eexists. split; [reflexivity|]. apply entries_Forall. apply Forall_fmap. eapply Forall_impl; [exact Hf|].
  intros [k x]. apply HP.
Qed.

Lemma records_canon v : recordOf scalar v -> recordOf scalar (canon v).
Proof. apply record_canon, scalar_canon. Qed.

Section Records.
Context (P : json -> Prop) (P_canon : forall x, P x -> P (canon x)).

Lemma kind_fields x :
  textRecord P x -> exists fs, safeJsonParse x = JObj fs /\ printable (JObj fs) /\ Forall (fun kv => P kv.2) fs.
Proof.
  intros (Hw & fs & E & Hf). exists fs. split_and!; [done| |done]. rewrite <- E. by apply parsed_printable.
Qed.

Lemma written_record fs : printable (JObj fs) -> Forall (fun kv => P kv.2) fs -> textRecord P (JSON_pretty (JObj fs)).
Proof.
  intros Hp Hf. split; [by apply pretty_wf|]. rewrite parsed_pretty by done. apply record_canon; [done|]. by exists fs.
Qed.

Lemma remaining_Forall (fs : list (jsstr * json)) k : Forall (fun kv => P kv.2) fs -> Forall (fun kv => P kv.2) (map_delete fs k).
Proof. rewrite !Forall_forall. intros H kv [Hin _]%map_delete_elem. by apply H. Qed.

(** Deleting a member. *)
Lemma delete_kind x k :
  textRecord P x -> exists y, (m ← deleteProp (safeJsonParse x) k; Some (JSON_pretty m)) = Some y /\ textRecord P y.
Proof.
  intros (fs & -> & Hp & Hf)%kind_fields. cbn [deleteProp mbind option_bind]. eexists. split; [done|].
  apply written_record; [by apply printable_delete|by apply remaining_Forall].
Qed.
End Records.

Lemma parsedNumber_kind x : scalar (parsedNumber x) /\ printable (parsedNumber x).
Proof. unfold parsedNumber. case_match; (split; [done|constructor]). Qed.

(** ** The handlers of the lists *)

Lemma saveSimple_kind e name value x :
  textRecord scalar x -> wf_str name -> exists y, saveSimple e name value x = Some y /\ textRecord scalar y.
Proof.
  intros (fs & E & Hp & Hf)%kind_fields Hn. unfold saveSimple. rewrite E. destruct (parsedNumber_kind value) as [Hs Hv].
  assert (exists fs', match e with
      | Some e => if bool_decide (sg_name e = name) then Some (JObj fs) else deleteProp (JObj fs) (sg_name e)
      | None => Some (JObj fs) end = Some (JObj fs') /\ printable (JObj fs') /\ Forall (fun kv => scalar kv.2) fs')
    as (fs' & -> & Hp' & Hf').
  { destruct e as [e|]; [|by eauto]. case_bool_decide; [by eauto|]. eexists.
    split_and!; [done|by apply printable_delete|by apply remaining_Forall]. }
  cbn [mbind option_bind assignProp]. eexists. split; [done|].
  apply (written_record _ scalar_canon); [by apply printable_set|by apply map_set_Forall].
Qed.

Lemma written_names l : Forall wf_str l -> textNames (JSON_pretty (JArr (map JStr l))).
Proof.
  intros Hl. assert (printable (JArr (map JStr l))) as Hp.
  { constructor. apply Forall_fmap. eapply Forall_impl; [exact Hl|]. intros s. by constructor. }
  split; [by apply pretty_wf|]. exists l. rewrite parsed_list by done. cbn [canon]. f_equal. rewrite map_map. done.
Qed.

Lemma text_names x : textNames x -> exists l, safeJsonParseList x = JArr (map JStr l) /\ Forall wf_str l.
Proof.
  intros (Hw & l & E). exists l. split; [done|]. pose proof (list_printable _ _ Hw E) as Hp.
  inversion Hp as [| | | |? Hl|]; subst. rewrite Forall_forall in Hl. apply Forall_forall. intros s Hs.
  assert (printable (JStr s)) as Hps by (apply Hl, list_elem_of_fmap; by exists s). by inversion Hps.
Qed.

Lemma appendAutoGroup_kind a x :
  textNames x -> wf_str a -> exists y, appendAutoGroup a x = Some y /\ textNames y.
Proof.
  intros (l & E & Hl)%text_names Ha. unfold appendAutoGroup. rewrite E. cbn [spreadArray mbind option_bind]. eexists. split; [done|].
  change [JStr (trim a)] with (map JStr [trim a]). rewrite <- map_app. apply written_names, Forall_app. split; [done|].
  constructor; [by apply trim_wf|constructor].
Qed.

Lemma delete_map_JStr i l : delete i (map JStr l) = map JStr (delete i l).
Proof. revert i. induction l as [|s l IH]; intros [|i]; [done..|]. cbn. f_equal. apply IH. Qed.

Lemma handleAutoGroupDelete_kind i x :
  textNames x -> exists y, handleAutoGroupDelete i x = Some y /\ textNames y.
Proof.
  intros (l & E & Hl)%text_names. unfold handleAutoGroupDelete. rewrite E, delete_map_JStr. eexists. split; [done|].
  apply written_names. by apply Forall_delete.
Qed.

Lemma swap_names i j l :
  (i < length l)%nat -> (j < length l)%nat -> Forall wf_str l ->
  exists l', swap i j (map JStr l) = map JStr l' /\ Forall wf_str l'.
Proof.
  intros Hi Hj Hl. destruct (lookup_lt_is_Some_2 l i Hi) as [a Ha], (lookup_lt_is_Some_2 l j Hj) as [b Hb].
  exists (<[i := b]> (<[j := a]> l)). split.
  - unfold swap. rewrite !list_lookup_fmap, Ha, Hb. cbn [fmap option_fmap option_map]. by rewrite !list_fmap_insert.
  - apply Forall_insert; [apply Forall_insert; [done|]|]; by eapply Forall_lookup_1.
Qed.

Lemma handleAutoGroupMove_kind i d x l :
  textNames x -> safeJsonParseList x = JArr l -> (i < length l)%nat ->
  exists r, handleAutoGroupMove i d x = Some r /\ forall y, r = Some y -> textNames y.
Proof.
  intros (l' & E & Hl)%text_names El Hi. rewrite E in El. injection El as <-. rewrite length_map in Hi.
  unfold handleAutoGroupMove. rewrite E. cbn [spreadArray mbind option_bind]. cbv zeta. rewrite length_map.
  destruct (_ || _) eqn:Eb; eexists; (split; [done|]); [done|]. intros y [= <-]. apply orb_false_iff in Eb as [Eb1 Eb2].
  destruct (swap_names i (Z.to_nat (match d with Up => Z.of_nat i - 1 | Down => Z.of_nat i + 1 end)) l') as (l2 & -> & Hl2);
    [done|lia|done|]. by apply written_names.
Qed.

Lemma ensureGroup_kind fs k :
  printable (JObj fs) -> Forall (fun kv => recordOf scalar kv.2) fs -> wf_str k ->
  exists fs' inner, ensureGroup (JObj fs) k = Some (JObj fs') /\ printable (JObj fs') /\
    Forall (fun kv => recordOf scalar kv.2) fs' /\
    map_get fs' k = Some (JObj inner) /\ printable (JObj inner) /\ Forall (fun kv => scalar kv.2) inner.
Proof.
  intros Hp Hf Hk. unfold ensureGroup. cbn [readMember member mbind option_bind].
  destruct (map_get fs k) as [v|] eqn:E.
  - pose proof (printable_get _ _ _ Hp E) as Hv. apply map_get_Some_elem in E as Hin. rewrite Forall_forall in Hf.
    destruct (Hf _ Hin) as (inner & Ev & Hi). cbn [snd] in Ev. subst v. exists fs, inner. cbn [json_truthy].
    split_and!; try done. by apply Forall_forall.
  - cbn [assignProp]. eexists _, [].
    split_and!; [done|apply printable_set; [done|apply printable_empty|done]| |apply map_get_set_eq|apply printable_empty|constructor].
    apply map_set_Forall; [done|]. by exists [].
Qed.

Lemma addUserGroup_kind g x :
  textRecord (recordOf scalar) x -> wf_str g -> exists y, addUserGroup g x = Some y /\ textRecord (recordOf scalar) y.
Proof.
  intros (fs & E & Hp & Hf)%kind_fields Hg%trim_wf. unfold addUserGroup. rewrite E.
  destruct (ensureGroup_kind fs _ Hp Hf Hg) as (fs' & inner & -> & Hp' & Hf' & _). cbn [mbind option_bind]. eexists. split; [done|].
  by apply (written_record _ records_canon).
Qed.

Lemma saveOverride_kind u t r old x :
  textRecord (recordOf scalar) x -> wf_str u -> wf_str t -> scalar r -> printable r ->
  exists y, saveOverride u t r old x = Some y /\ textRecord (recordOf scalar) y.
Proof.
  intros (fs & E & Hp & Hf)%kind_fields Hu Ht Hr Hpr. unfold saveOverride. rewrite E.
  destruct (ensureGroup_kind fs _ Hp Hf Hu) as (fs' & inner & -> & Hp' & Hf' & Eg & Hpi & Hi). cbn [mbind option_bind].
  unfold updateMember. cbn [readMember member mbind option_bind]. rewrite Eg. cbn [mbind option_bind].
  assert (exists inner', match old with
      | Some old => if truthy old && negb (bool_decide (old = t)) then deleteProp (JObj inner) old else Some (JObj inner)
      | None => Some (JObj inner) end = Some (JObj inner') /\ printable (JObj inner') /\ Forall (fun kv => scalar kv.2) inner')
    as (inner' & -> & Hpi' & Hi').
  { destruct old as [old|]; [|by eauto]. destruct (_ && _); [|by eauto]. eexists.
    split_and!; [done|by apply printable_delete|by apply remaining_Forall]. }
  cbn [mbind option_bind assignProp]. eexists. split; [done|]. apply (written_record _ records_canon).
  - apply printable_set; [done|by apply printable_set|done].
  - apply map_set_Forall; [done|]. eexists. split; [done|]. by apply map_set_Forall.
Qed.

Lemma handleOverrideDelete_kind u t x :
  textRecord (recordOf scalar) x -> wf_str u -> exists y, handleOverrideDelete u t x = Some y /\ textRecord (recordOf scalar) y.
Proof.
  intros (fs & E & Hp & Hf)%kind_fields Hu. unfold handleOverrideDelete. rewrite E. cbv zeta. cbn [readMember member mbind option_bind].
  destruct (map_get fs u) as [v|] eqn:Eg.
  - pose proof (printable_get _ _ _ Hp Eg) as Hv. apply map_get_Some_elem in Eg as Hin. pose proof Hf as Hf0. rewrite Forall_forall in Hf0.
    destruct (Hf0 _ Hin) as (inner & Ev & Hi). cbn [snd] in Ev. subst v. cbn [json_truthy deleteProp mbind option_bind assignProp].
    destruct (bool_decide _); cbn [mbind option_bind]; eexists; (split; [done|]); apply (written_record _ records_canon).
    + by apply printable_delete.
    + by apply remaining_Forall.
    + apply printable_set; [done|by apply printable_delete|done].
    + apply map_set_Forall; [done|]. eexists. split; [done|]. by apply remaining_Forall.
  - cbn [mbind option_bind]. eexists. split; [done|]. by apply (written_record _ records_canon).
Qed.

End GroupRatioKinds.
