(* ===== verification/GroupRatioProperties.v ===== *)
(** * Group ratios: what the page guarantees

    Over every run the table shows the two texts it edits, with distinct ids, and
    keeps the rows as they are typed; what is saved is opened again as the same
    groups and rules.  Where the sources fail to do what they mean to do, a
    theorem says how: the editor of rules does not follow new settings, a change
    that is undone before the settings are fetched again is not sent, and some
    texts that can be saved cannot be shown. *)

From S2P Require Import Prelude JsString JsCollections Json JsonNumber JsonText JsonLocal JsValue JsonCanon JsDouble ModelPricing ModelPricingPanel ModelPricingPage ModelPricingFacts ModelPricingProperties GroupRatio GroupRatioPage GroupRatioFacts GroupRatioKinds.
Import Json JsonNumber JsonText JsonLocal JsValue JsonCanon ModelPricing ModelPricingFacts GroupRatio GroupRatioPage GroupRatioFacts GroupRatioKinds.
Import ModelPricingPage (formatJsonForTextarea, normalizeJsonString, validJsonString, Stored, StoredText, StoredFlag, Answer, Accepted, Refused, Thrown).
Import ModelPricingPanel (put).

Module GroupRatioProperties.

#[local] Existing Instance ModelPricingPage.Stored_eq_dec.

(** ** Ids *)

(** Distinct ids, made from the numbers up to [n]. *)
Definition idsOk (mk : nat -> jsstr) (n : nat) (ids : list jsstr) : Prop :=
  NoDup ids /\ Forall (fun i => exists k, (1 <= k <= n)%nat /\ i = mk k) ids.

Lemma groupId_inj i j : groupId i = groupId j -> i = j.
Proof. unfold groupId. intros E%app_inv_head%showZ_inj; lia. Qed.

Lemma ruleId_inj i j : ruleId i = ruleId j -> i = j.
Proof. unfold ruleId. intros E%app_inv_head%showZ_inj; lia. Qed.

Section Ids.
Context (mk : nat -> jsstr) (mk_inj : forall i j, mk i = mk j -> i = j).

Lemma idsOk_seq n k : idsOk mk (n + k) (map mk (seq (S n) k)).
Proof.
  split.
  - apply NoDup_fmap_2_strong; [|apply NoDup_seq]. intros i j _ _. apply mk_inj.
  - apply Forall_fmap, Forall_forall. intros i Hi%elem_of_seq. exists i. split; [lia|done].
Qed.

Lemma idsOk_snoc n ids : idsOk mk n ids -> idsOk mk (S n) (ids ++ [mk (S n)]).
Proof.
  intros [Hn Hf]. split.
  - apply NoDup_app. split_and!; [done| |apply NoDup_singleton]. intros x Hx ->%list_elem_of_singleton.
    rewrite Forall_forall in Hf. destruct (Hf _ Hx) as (k & Hk & E%mk_inj). lia.
  - apply Forall_app. split; [eapply Forall_impl; [exact Hf|]; intros x (k & Hk & ->); exists k; split; [lia|done]|].
    constructor; [|constructor]. exists (S n). split; [lia|done].
Qed.

Lemma idsOk_filter {A} (id : A -> jsstr) (c : A -> bool) n l : idsOk mk n (map id l) -> idsOk mk n (map id (List.filter c l)).
Proof.
  intros [Hn Hf]. split; [by apply filter_map_nodup|]. rewrite Forall_forall in Hf |- *.
  intros x (a & -> & [Ha _]%list_elem_of_In%filter_In)%list_elem_of_fmap. apply Hf, list_elem_of_fmap. exists a. split; [done|by apply list_elem_of_In].
Qed.
End Ids.

Lemma rowsOfNames_ids ratioMap usableMap n names rs :
  rowsOfNames ratioMap usableMap n names = Some rs -> map g_id rs = map groupId (seq (S n) (length rs)).
Proof.
  revert n rs. induction names as [|name names IH]; intros n rs; cbn [rowsOfNames]; [by intros [= <-]|].
  intros (r & Hr & (rs' & Hrs & [= <-])%bind_Some)%bind_Some. cbn [map length seq]. rewrite (IH _ _ Hrs).
  unfold rowOfName in Hr. apply bind_Some in Hr as (x & _ & (d & _ & [= <-])%bind_Some). done.
Qed.

Lemma rulesOfEntries_ids n es : map ru_id (rulesOfEntries n es) = map ruleId (seq (S n) (length (rulesOfEntries n es))).
Proof.
  revert n. induction es as [|[[g k] d] es IH]; intros n; [done|]. cbn [rulesOfEntries map length seq]. rewrite IH.
  unfold ruleOf. by destruct (parsePrefix k).
Qed.

Lemma flatten_some n v rus : flattenRules n v = Some rus -> rus = rulesOfEntries n (ruleEntries v).
Proof. destruct v; by intros [= <-]. Qed.

(** ** The invariant *)

Definition ratioOk (r : GroupPricingRow) : Prop := finite (g_ratio r) = true.
Definition removalOk (r : Rule) : Prop := ru_op r = OP_REMOVE -> ru_description r = removeText.

Record coreOk (s : GroupPage) (v : Visual) : Prop := {
  row_ids : idsOk groupId (groupPricingIdCounter s) (map g_id (rows v));
  rule_ids : idsOk ruleId (ruleIdCounter s) (map ru_id (rules v));
  ratios : Forall ratioOk (rows v);
  removals : Forall removalOk (rules v) }.

(** The rows are written as the texts are, or they are the rows of the texts. *)
Definition rowsShow (s : GroupPage) (rs : list GroupPricingRow) : Prop :=
  groupPricingSignature rs = sourceGroupPricingSignature (textOf s GroupRatioText) (textOf s UserUsableGroups) \/
  exists n, buildGroupPricingRows n (textOf s GroupRatioText) (textOf s UserUsableGroups) = Some rs.

Definition pageOk (s : GroupPage) : Prop :=
  match visual s with
  | None => True
  | Some v => coreOk s v /\ draws (groupTexts (groupForm s)) = true /\ rowsShow s (rows v)
  end.

Lemma normalizeRatio_finite v n : normalizeRatio v = Some n -> finite n = true.
Proof.
  unfold normalizeRatio. destruct v as [v|]; [|by intros [= <-]]. intros (m & _ & [= <-])%bind_Some.
  destruct m as [m|]; [|done]. by destruct (finite m) eqn:E.
Qed.

Lemma built_rows n a b rs :
  buildGroupPricingRows n a b = Some rs -> idsOk groupId (n + length rs) (map g_id rs) /\ Forall ratioOk rs.
Proof.
  intros (names & _ & H)%bind_Some. split.
  - rewrite (rowsOfNames_ids _ _ _ _ _ H). apply idsOk_seq, groupId_inj.
  - revert n rs H. induction names as [|name names IH]; intros n rs; cbn [rowsOfNames]; [by intros [= <-]|].
    intros (r & Hr & (rs' & Hrs & [= <-])%bind_Some)%bind_Some. constructor; [|by eapply IH].
    unfold rowOfName in Hr. apply bind_Some in Hr as (x & Hx & (d & _ & [= <-])%bind_Some). by eapply normalizeRatio_finite.
Qed.

Lemma rebuild_ok s v s' :
  visual s = Some v -> coreOk s v -> draws (groupTexts (groupForm s)) = true -> rebuildRows s = Some s' -> pageOk s'.
Proof.
  intros Hv Hc Hd (rs & Hb & [= <-])%bind_Some. unfold pageOk. cbn [visual setVisual onVisual setRowIds]. rewrite Hv. cbn [fmap option_fmap option_map].
  destruct (built_rows _ _ _ _ Hb) as [Hi Hr]. split_and!; [|done|right; by exists (groupPricingIdCounter s)].
  destruct Hc. by constructor.
Qed.

Lemma effect_ok s v s' :
  visual s = Some v -> coreOk s v -> draws (groupTexts (groupForm s)) = true -> rowsEffect s = Some s' -> pageOk s'.
Proof.
  intros Hv Hc Hd. unfold rowsEffect. rewrite Hv. case_bool_decide as E; [|by apply (rebuild_ok s v)].
  intros [= <-]. unfold pageOk. rewrite Hv. split_and!; [done|done|by left].
Qed.

Lemma mount_ok s s' : mountVisual s = Some s' -> pageOk s'.
Proof.
  unfold mountVisual. destruct (draws (groupTexts (groupForm s))) eqn:Hd; [|done].
  intros (rus & Hru & (s1 & Hs1 & He)%bind_Some)%bind_Some.
  assert (pageOk s1) as Hok.
  { eapply rebuild_ok; [| | |exact Hs1]; [reflexivity| |exact Hd]. apply flatten_some in Hru as ->.
    constructor; cbn [rows rules visual setVisual ruleIdCounter setRuleIds groupPricingIdCounter map].
    - split; constructor.
    - rewrite rulesOfEntries_ids. apply idsOk_seq, ruleId_inj.
    - constructor.
    - eapply Forall_impl; [apply opened_rules_ok|]. intros r Hr E. unfold ruleOk in Hr. by rewrite E in Hr. }
  unfold pageOk in Hok. destruct (visual s1) as [v|] eqn:Hv; [|unfold rowsEffect in He; rewrite Hv in He; injection He as <-; unfold pageOk; by rewrite Hv].
  destruct Hok as (Hc & Hdr & _). by eapply effect_ok.
Qed.

(** ** Handlers *)

(** What a handler may do to the table: nothing, or to write what it shows. *)
Definition handled (s s' : GroupPage) : Prop :=
  forall v, visual s = Some v -> exists v', visual s' = Some v' /\ coreOk s' v' /\
    (rows v' = rows v \/ groupPricingSignature (rows v')
                         = sourceGroupPricingSignature (textOf s' GroupRatioText) (textOf s' UserUsableGroups)).

Lemma redraw_ok s s' s'' : pageOk s -> handled s s' -> is_Some (visual s) -> redraw s s' = Some s'' -> pageOk s''.
Proof.
  intros Hok Hh [v Hv]. destruct (Hh v Hv) as (v' & Hv' & Hc & Hr). unfold redraw. rewrite Hv'.
  unfold pageOk in Hok. rewrite Hv in Hok. destruct Hok as (_ & _ & Hshow).
  destruct (draws (groupTexts (groupForm s'))) eqn:Hd; cbn [negb]; [|done].
  destruct (_ && _) eqn:E; [|by eapply effect_ok]. intros [= <-]. apply andb_true_iff in E as [E1%bool_decide_eq_true E2%bool_decide_eq_true].
  unfold pageOk. rewrite Hv'. split_and!; [done|done|]. destruct Hr as [->|Hsig]; [|by left].
  unfold rowsShow. by rewrite E1, E2.
Qed.

Lemma coreOk_form s v x : coreOk s v -> coreOk (setGroupForm x s) v.
Proof. by intros []. Qed.

Lemma emitRows_handled s v rs n :
  visual s = Some v -> coreOk s v -> idsOk groupId n (map g_id rs) -> Forall ratioOk rs ->
  handled s (emitRows rs (setRowIds n s)).
Proof.
  intros Hv Hc Hi Hr v0 Hv0. rewrite Hv in Hv0. injection Hv0 as <-. exists (setRows rs v). unfold emitRows.
  unfold serializeGroupPricingRows. cbv zeta. cbn [visual setGroupForm handleFieldChange onVisual setVisual setRowIds]. rewrite Hv.
  split; [done|]. split; [destruct Hc; by constructor|]. by right.
Qed.

Lemma emitChange_handled s v rus n :
  visual s = Some v -> coreOk s v -> idsOk ruleId n (map ru_id rus) -> Forall removalOk rus ->
  handled s (emitChange rus (setRuleIds n s)).
Proof.
  intros Hv Hc Hi Hr v0 Hv0. rewrite Hv in Hv0. injection Hv0 as <-. exists (setRules rus v). unfold emitChange.
  cbn [visual setGroupForm handleFieldChange onVisual setVisual setRuleIds]. rewrite Hv.
  split; [done|]. split; [destruct Hc; by constructor|]. by left.
Qed.

(** A handler that leaves rows and rules alone. *)
Lemma other_handled s s' :
  (forall v, visual s = Some v -> coreOk s v) ->
  groupPricingIdCounter s' = groupPricingIdCounter s -> ruleIdCounter s' = ruleIdCounter s ->
  (forall v, visual s = Some v -> exists v', visual s' = Some v' /\ rows v' = rows v /\ rules v' = rules v) -> handled s s'.
Proof.
  intros Hc E1 E2 Hv v Hs. destruct (Hv v Hs) as (v' & Hv' & Er & Eu). exists v'. split; [done|]. split; [|by left].
  destruct (Hc v Hs). constructor; by rewrite ?Er, ?Eu, ?E1, ?E2.
Qed.

Lemma map_update_ids {A} (id : A -> jsstr) (c : A -> bool) (f : A -> A) l :
  (forall x, id (f x) = id x) -> map id (map (fun x => if c x then f x else x) l) = map id l.
Proof. intros H. rewrite map_map. apply map_ext. intros x. by destruct (c x). Qed.

Lemma patchRow_ratio p r i : patchOf i = Some p -> ratioOk r -> ratioOk (patchRow p r).
Proof.
  intros Hp Hr. destruct i as [x|x|b|x]; cbn [patchOf] in Hp; try (injection Hp as <-; done).
  apply bind_Some in Hp as (n & Hn & [= <-]). by eapply normalizeRatio_finite.
Qed.

Lemma map_Forall_if {A} (P : A -> Prop) (c : A -> bool) f l :
  (forall x, x ∈ l -> c x = true -> P x -> P (f x)) -> Forall P l -> Forall P (map (fun x => if c x then f x else x) l).
Proof.
  intros H Hl. apply Forall_fmap, Forall_forall. intros x Hx. rewrite Forall_forall in Hl. specialize (Hl x Hx). cbn.
  destruct (c x) eqn:E; [by apply H|done].
Qed.

(** Under distinct ids the input of a description belongs to the rule it changes. *)
Lemma patchRule_removal s v id p :
  coreOk s v -> ruleInputShown v id p = true -> Forall removalOk (updateRule id p (rules v)).
Proof.
  intros Hc Hs. apply map_Forall_if; [|apply Hc]. intros r Hr Hid%bool_decide_eq_true Hok.
  destruct p as [op|x|x]; unfold removalOk; cbn [patchRule ru_op ru_description]; [by intros ->; rewrite decide_True|done|].
  cbn [ruleInputShown] in Hs. apply existsb_exists in Hs as (r' & Hin & E). apply andb_true_iff in E as [E1%bool_decide_eq_true E2].
  intros Eop. assert (r' = r) as ->; [|by rewrite Eop in E2].
  eapply nodup_map_inj; [apply (rule_ids _ _ Hc)|by apply list_elem_of_In|done|congruence].
Qed.

Lemma setRowIds_same s : setRowIds (groupPricingIdCounter s) s = s.
Proof. by destruct s. Qed.
Lemma setRuleIds_same s : setRuleIds (ruleIdCounter s) s = s.
Proof. by destruct s. Qed.

Lemma emit_edited s v rs :
  visual s = Some v -> coreOk s v -> map g_id rs = map g_id (rows v) -> Forall ratioOk rs -> handled s (emitRows rs s).
Proof.
  intros Hv Hc E Hr. rewrite <- (setRowIds_same s) at 2. apply (emitRows_handled s v); try done. rewrite E. apply Hc.
Qed.

Lemma emit_changed s v rus :
  visual s = Some v -> coreOk s v -> idsOk ruleId (ruleIdCounter s) (map ru_id rus) -> Forall removalOk rus ->
  handled s (emitChange rus s).
Proof. intros Hv Hc Hi Hr. rewrite <- (setRuleIds_same s) at 2. by apply (emitChange_handled s v). Qed.

Lemma write_handled s v f x s' : visual s = Some v -> coreOk s v -> writeField f x s = Some s' -> handled s s'.
Proof.
  intros Hv Hc (y & _ & [= <-])%bind_Some. apply other_handled; [|done|done|by eauto]. intros w Hw. by simplify_eq.
Qed.

Lemma visual_handled s v f :
  visual s = Some v -> coreOk s v -> (forall w, rows (f w) = rows w /\ rules (f w) = rules w) -> handled s (onVisual f s).
Proof.
  intros Hv Hc Hf. apply other_handled; [intros w Hw; by simplify_eq|done|done|]. intros w Hw. exists (f w).
  unfold onVisual. cbn [visual setVisual]. rewrite Hw. split; [done|apply Hf].
Qed.

Lemma add_rule_handled s v g :
  visual s = Some v -> coreOk s v ->
  handled s (emitChange (addRuleToGroup (ruleIdCounter s) g (rules v)) (setRuleIds (S (ruleIdCounter s)) s)).
Proof.
  intros Hv Hc. eapply emitChange_handled; [done|done| |].
  - unfold addRuleToGroup. rewrite map_app. apply (idsOk_snoc _ ruleId_inj), Hc.
  - apply Forall_app. split; [apply Hc|]. by constructor.
Qed.

Lemma handleVisual_handled s v e s' :
  visual s = Some v -> coreOk s v -> handleVisual s v e = Some s' -> handled s s'.
Proof.
  intros Hv Hc. pose proof (write_handled s v) as Hw. destruct e; cbn [handleVisual]; intros H.
  - destruct (rowInputShown v id i); [|done]. apply bind_Some in H as (p & Hp & [= <-]). eapply emit_edited; [done|done| |].
    + apply map_update_ids. by intros r; destruct p.
    + apply map_Forall_if; [|apply Hc]. intros r _ _. by apply patchRow_ratio with i.
  - injection H as <-. eapply emitRows_handled; [done|done| |].
    + unfold addRow. rewrite map_app. apply (idsOk_snoc _ groupId_inj), Hc.
    + apply Forall_app. split; [apply Hc|]. by constructor.
  - injection H as <-. rewrite <- (setRowIds_same s) at 2. eapply emitRows_handled; [done|done| |].
    + apply idsOk_filter, Hc.
    + apply filter_Forall, Hc.
  - injection H as <-. by eapply visual_handled.
  - apply bind_Some in H as (l & _ & (g & _ & [= <-])%bind_Some). by eapply visual_handled.
  - by eapply Hw.
  - injection H as <-. by eapply visual_handled.
  - by eapply Hw.
  - apply bind_Some in H as ([x|] & _ & [= <-]); [|by apply other_handled; [intros w Hw'; simplify_eq| | |eauto]].
    by eapply (Hw AutoGroups (Some x)).
  - injection H as <-. by eapply visual_handled.
  - by eapply Hw.
  - injection H as <-. by eapply visual_handled.
  - apply bind_Some in H as (l & _ & (g & _ & (o & _ & (x & _ & [= <-])%bind_Some)%bind_Some)%bind_Some). by eapply visual_handled.
  - by eapply Hw.
  - destruct (ruleInputShown v id p) eqn:Es; [|done]. injection H as <-. eapply emit_changed; [done|done| |by eapply patchRule_removal].
    unfold updateRule. rewrite map_update_ids; [apply Hc|]. by intros r; destruct p.
  - injection H as <-. eapply emit_changed; [done|done|apply idsOk_filter, Hc|apply filter_Forall, Hc].
  - injection H as <-. by apply add_rule_handled.
  - injection H as <-. eapply emit_changed; [done|done|apply idsOk_filter, Hc|apply filter_Forall, Hc].
  - injection H as <-. by eapply visual_handled.
  - injection H as <-. unfold addNewGroup. destruct (truthy (trim (newGroupName v))); cbn [negb].
    + intros w Hw'. destruct (add_rule_handled s v (trim (newGroupName v)) Hv Hc w Hw') as (v' & Hv' & Hc' & Hr).
      exists (setNewGroupName [] v'). unfold onVisual at 1. cbn [visual setVisual]. rewrite Hv'. split; [done|].
      split; [destruct Hc'; by constructor|done].
    + by apply other_handled; [intros w Hw'; simplify_eq| | |eauto].
Qed.

Lemma same_handled s v : visual s = Some v -> coreOk s v -> handled s s.
Proof. intros Hv Hc. apply other_handled; [intros w Hw; by simplify_eq|done|done|eauto]. Qed.

Lemma close_handled s v f x : visual s = Some v -> coreOk s v -> handled s (closeDialog (handleFieldChange f x s)).
Proof.
  intros Hv Hc. apply other_handled; [intros w Hw; by simplify_eq|done|done|]. intros w Hw. exists (setDialog NoDialog w).
  unfold closeDialog, onVisual. cbn [visual setVisual handleFieldChange setGroupForm]. by rewrite Hw.
Qed.

Lemma saveDialog_handled s v d s' : visual s = Some v -> coreOk s v -> saveDialog d s = Some s' -> handled s s'.
Proof.
  intros Hv Hc. pose proof (same_handled s v Hv Hc) as Hs. pose proof (close_handled s v) as Hcl.
  destruct d as [|ty e n x|x|x|u e g r]; cbn [saveDialog]; [done|..].
  - unfold handleSimpleSave. destruct (_ || _); [by intros [= <-]|]. intros (y & _ & [= <-])%bind_Some. by apply Hcl.
  - unfold handleAutoGroupSave. destruct (negb _); [by intros [= <-]|]. intros (y & _ & [= <-])%bind_Some. by apply Hcl.
  - unfold handleUserGroupSave. destruct (negb _); [by intros [= <-]|]. intros (y & _ & [= <-])%bind_Some. by apply Hcl.
  - unfold handleOverrideSave. destruct (_ || _); [by intros [= <-]|]. destruct (negb _); [intros [= <-]; by eapply visual_handled|].
    intros (y & _ & [= <-])%bind_Some. by apply Hcl.
Qed.

Lemma pageOk_core s v : pageOk s -> visual s = Some v -> coreOk s v.
Proof. unfold pageOk. intros H Hv. rewrite Hv in H. apply H. Qed.

Lemma pageOk_visual s f :
  pageOk s -> (forall w, rows (f w) = rows w /\ rules (f w) = rules w) -> pageOk (onVisual f s).
Proof.
  unfold pageOk, onVisual. intros H Hf. cbn [visual setVisual groupForm]. destruct (visual s) as [v|]; [|done]. cbn.
  destruct (Hf v) as [Er Eu]. destruct H as ([] & Hd & Hs). split_and!; [constructor; by rewrite ?Er, ?Eu|done|by rewrite Er].
Qed.

Lemma defaults_handled s d : pageOk s -> handled s (onGroupDefaults d s).
Proof. intros Hok. apply other_handled; [intros v; by apply pageOk_core|done|done|eauto]. Qed.

Lemma step_ok s e s' : pageOk s -> handleGroups s e = Some s' -> pageOk s'.
Proof.
  intros Hok. destruct e; cbn [handleGroups]; intros H.
  - apply bind_Some in H as (v & Hv & H). destruct (uncovered s); [|done]. apply bind_Some in H as (s1 & H1 & H).
    eapply redraw_ok; [done| |by eauto|exact H]. eapply handleVisual_handled; [done| |done]. by apply pageOk_core.
  - apply bind_Some in H as (v & _ & (d & _ & [= <-])%bind_Some). by apply pageOk_visual.
  - apply bind_Some in H as (v & Hv & (s1 & H1 & H)%bind_Some). eapply redraw_ok; [done| |by eauto|exact H].
    eapply saveDialog_handled; [done| |done]. by apply pageOk_core.
  - apply bind_Some in H as (v & _ & H). destruct (uncovered s); [done|]. injection H as <-. by apply pageOk_visual.
  - destruct (uncovered s); [|done]. injection H as <-. unfold pageOk in *. cbn [visual setGroupForm groupForm groupTexts] in *.
    destruct (visual s) as [v|]; [|done]. destruct Hok as (Hc & Hd & Hr). split_and!; [by apply coreOk_form|done|done].
  - destruct (visual s) eqn:Hv; [done|]. injection H as <-. unfold pageOk. cbn. by rewrite Hv.
  - destruct (uncovered s); [|done]. unfold toggleEditMode in H. destruct (visual s); [by injection H as <-|]. by apply mount_ok in H.
  - destruct (uncovered s); [|done]. injection H as <-. unfold submitGroups. destruct (validGroups _); [|done].
    unfold pageOk in *. cbn [visual saveGroupRatios setGroupServer]. destruct (visual s) as [v|]; [|done].
    destruct Hok as ([] & Hd & Hr). by split_and!.
  - destruct (visual s) as [v|] eqn:Hv.
    + eapply redraw_ok; [done|by apply defaults_handled|by eauto|exact H].
    + unfold redraw in H. cbn [visual onGroupDefaults setGroupForm setDefaults] in H. rewrite Hv in H. injection H as <-.
      unfold pageOk. cbn. by rewrite Hv.
Qed.

Lemma reachable_ok s : reachableGroups s -> pageOk s.
Proof. induction 1 as [d s H|s e s' _ IH H]; [by apply mount_ok in H|by eapply step_ok]. Qed.

(** ** Editing the table *)

(** The rows after a change in the table. *)
Definition editedRows (s : GroupPage) (v : Visual) (e : VisualEvent) : option (list GroupPricingRow) :=
  match e with
  | UpdateRow id i => if rowInputShown v id i then p ← patchOf i; Some (updateRow id p (rows v)) else None
  | AddRow => Some (addRow (groupPricingIdCounter s) (rows v))
  | RemoveRow id => Some (removeRow id (rows v))
  | _ => None
  end.

Lemma emit_facts s v rs :
  visual s = Some v ->
  visual (emitRows rs s) = Some (setRows rs v) /\
  draws (groupTexts (groupForm (emitRows rs s))) = draws (groupTexts (groupForm s)) /\
  (textOf (emitRows rs s) GroupRatioText, textOf (emitRows rs s) UserUsableGroups) = serializeGroupPricingRows rs /\
  forall f, f <> GroupRatioText -> f <> UserUsableGroups -> textOf (emitRows rs s) f = textOf s f.
Proof.
  intros Hv. unfold emitRows, serializeGroupPricingRows. cbv zeta.
  cbn [visual setGroupForm handleFieldChange onVisual setVisual]. rewrite Hv. split_and!; [done|done|done|].
  intros f H1 H2. unfold textOf. cbn [groupForm handleFieldChange setGroupForm groupTexts setVisual onVisual].
  unfold put. by rewrite !decide_False.
Qed.

Lemma emit_redraw s s0 v rs :
  visual s0 = Some v -> draws (groupTexts (groupForm s0)) = true ->
  redraw s (emitRows rs s0) = Some (emitRows rs s0).
Proof.
  intros Hv Hd. destruct (emit_facts s0 v rs Hv) as (Hv' & Hd' & Ht & _). unfold redraw. rewrite Hv', Hd', Hd. cbn [negb].
  destruct (_ && _); [done|]. unfold rowsEffect. rewrite Hv', bool_decide_eq_true_2; [done|]. cbn [rows setRows].
  unfold groupPricingSignature. rewrite <- Ht. reflexivity.
Qed.

(** ** Progress *)

(** What is typed in a dialog is in units of UTF-16, and the dialog of a simple ratio is that of the top-ups. *)
Definition dialogOk (d : Dialog) : Prop :=
  match d with
  | NoDialog => True
  | SimpleGroupDialog ty _ name _ => ty = SimpleTopup /\ wf_str name
  | AutoGroupDialog x | UserGroupDialog x => wf_str x
  | GroupOverrideDialog u _ target _ => wf_str u /\ wf_str target
  end.

(** The texts are of the kinds that the lists show. *)
Definition wellKinded (s : GroupPage) : Prop :=
  kinds (groupTexts (groupForm s)) /\ forall v, visual s = Some v -> dialogOk (dialog v).

(** The controls of the visual view: a description can be typed where there is an input for it, and an entry
    of a list can be edited or moved when the list has it. *)
Definition control (s : GroupPage) (v : Visual) (e : VisualEvent) : Prop :=
  match e with
  | UpdateRow id i => rowInputShown v id i = true
  | UpdateRule id p => ruleInputShown v id p = true
  | SimpleEdit i => exists fs, safeJsonParse (textOf s TopupGroupRatio) = JObj fs /\ (i < length fs)%nat
  | AutoMove i _ => exists l, safeJsonParseList (textOf s AutoGroups) = JArr l /\ (i < length l)%nat
  | OverrideEdit i j => exists fs g inner, safeJsonParse (textOf s GroupGroupRatio) = JObj fs /\
      Object_entries fs !! i = Some (g, JObj inner) /\ (j < length inner)%nat
  | OverrideAdd g | OverrideDelete g _ => wf_str g
  | _ => True
  end.

(** The inputs of a dialog; a name that is edited cannot be changed. *)
Definition dialogInput (d : Dialog) (i : DialogInput) : Prop :=
  match i, d with
  | InFirst x, (SimpleGroupDialog _ None _ _ | AutoGroupDialog _ | UserGroupDialog _ | GroupOverrideDialog _ None _ _) => wf_str x
  | InSecond _, (SimpleGroupDialog _ _ _ _ | GroupOverrideDialog _ _ _ _) => True
  | _, _ => False
  end.

(** What the user can do in the visual view. *)
Definition visualOffers (s : GroupPage) (e : Event) : Prop :=
  exists v, visual s = Some v /\
  match e with
  | InVisual e => dialog v = NoDialog /\ control s v e
  | TypeInDialog i => dialogInput (dialog v) i
  | SaveDialog | CancelDialog => dialog v <> NoDialog
  | SetAuto _ | Save _ | ToggleView => dialog v = NoDialog
  | TypeJson _ _ | Refetched => False
  end.

(** Drawing again after a change that leaves the texts of the table alone. *)
Lemma redraw_quiet s s' :
  kinds (groupTexts (groupForm s')) -> textOf s' GroupRatioText = textOf s GroupRatioText ->
  textOf s' UserUsableGroups = textOf s UserUsableGroups -> redraw s s' = Some s'.
Proof.
  intros Hk%kinds_draw E1 E2. unfold redraw. destruct (visual s'); [|done]. by rewrite Hk, E1, E2, !bool_decide_eq_true_2.
Qed.

(** The page goes on from [s] with [s']. *)
Definition goesOn (s s' : GroupPage) : Prop := redraw s s' = Some s' /\ wellKinded s'.

Lemma goesOn_form s s' f x :
  wellKinded s -> f <> GroupRatioText -> f <> UserUsableGroups ->
  kinds (put f x (groupTexts (groupForm s))) -> groupForm s' = groupForm (handleFieldChange f x s) ->
  (forall v, visual s' = Some v -> dialogOk (dialog v)) -> goesOn s s'.
Proof.
  intros Hs H1 H2 Hk E Hd. assert (kinds (groupTexts (groupForm s'))) as Hk' by by rewrite E.
  split; [|by split]. apply redraw_quiet; [done|..]; unfold textOf; rewrite E; cbn; unfold put; by rewrite decide_False.
Qed.

Lemma goesOn_same s s' :
  wellKinded s -> groupForm s' = groupForm s -> (forall v, visual s' = Some v -> dialogOk (dialog v)) -> goesOn s s'.
Proof.
  intros [Hk Hd] E Hd'. split; [|split; [by rewrite E|done]]. apply redraw_quiet; [by rewrite E|..]; unfold textOf; by rewrite E.
Qed.

Section KindsOfChanges.
Context (s : GroupPage) (Hs : wellKinded s).

Lemma kinds_topup x : textRecord scalar x -> kinds (put TopupGroupRatio x (groupTexts (groupForm s))).
Proof. intros Hx. destruct Hs as [[] _]. by constructor. Qed.
Lemma kinds_override x : textRecord (recordOf scalar) x -> kinds (put GroupGroupRatio x (groupTexts (groupForm s))).
Proof. intros Hx. destruct Hs as [[] _]. by constructor. Qed.
Lemma kinds_auto x : textNames x -> kinds (put AutoGroups x (groupTexts (groupForm s))).
Proof. intros Hx. destruct Hs as [[] _]. by constructor. Qed.

(** A list is changed by one of its buttons. *)
Lemma write_goes_on f w y :
  f <> GroupRatioText -> f <> UserUsableGroups -> w = Some y -> kinds (put f y (groupTexts (groupForm s))) ->
  exists s', writeField f w s = Some s' /\ goesOn s s'.
Proof.
  intros H1 H2 -> Hk. eexists. split; [done|]. apply (goesOn_form s _ f y); [done..|apply Hs].
Qed.

(** A list is changed by a dialog, which closes. *)
Lemma close_goes_on f y :
  f <> GroupRatioText -> f <> UserUsableGroups -> kinds (put f y (groupTexts (groupForm s))) ->
  goesOn s (closeDialog (handleFieldChange f y s)).
Proof.
  intros H1 H2 Hk. apply (goesOn_form s _ f y); [done..|]. intros v. cbn. destruct (visual s); [|done]. by intros [= <-].
Qed.

(** A dialog is opened, or its fields change. *)
Lemma dialog_goes_on d : dialogOk d -> goesOn s (onVisual (setDialog d) s).
Proof. intros Hd. apply goesOn_same; [done..|]. intros v. cbn. destruct (visual s); [|done]. by intros [= <-]. Qed.

Lemma rules_go_on n rus : goesOn s (emitChange rus (setRuleIds n s)).
Proof.
  eapply (goesOn_form s _ GroupSpecialUsableGroup (serializeRules rus)); [done..| |done|].
  - eapply kinds_ext; [apply Hs|done..].
  - intros v. cbn. destruct (visual s) eqn:Hv; [|done]. intros [= <-]. exact (proj2 Hs _ Hv).
Qed.
End KindsOfChanges.

Lemma rows_go_on s s0 v rs :
  wellKinded s0 -> visual s0 = Some v -> redraw s (emitRows rs s0) = Some (emitRows rs s0) /\ wellKinded (emitRows rs s0).
Proof.
  intros [Hk Hd] Hv. split; [by apply (emit_redraw s s0 v), kinds_draw|].
  destruct (emit_facts s0 v rs Hv) as (Hv' & _ & _ & Ht). split; [by eapply kinds_ext; [exact Hk|apply Ht..]|].
  intros w. rewrite Hv'. intros [= <-]. exact (Hd _ Hv).
Qed.

Lemma patchOf_total i : is_Some (patchOf i).
Proof. by destruct i. Qed.

(** The name of an entry that is listed. *)
Lemma entry_name_wf fs i k x : printable (JObj fs) -> Object_entries fs !! i = Some (k, x) -> wf_str k /\ printable x.
Proof.
  intros Hp H%list_elem_of_lookup_2. apply (proj1 (Object_entries_elem _ _)) in H. inversion Hp as [| | | | |fs0 _ Hk Hv E]; subst.
  rewrite Forall_forall in Hk. rewrite Forall_forall in Hv. split; [apply Hk|apply Hv]; apply list_elem_of_fmap; by exists (k, x).
Qed.

Lemma entries_length {A} (fs : list (jsstr * A)) : length (Object_entries fs) = length fs.
Proof. apply Permutation_length, js_sort_values_perm. Qed.

(** The buttons that open a dialog on an entry. *)
Lemma simpleEdit_goes_on s v i :
  wellKinded s -> control s v (SimpleEdit i) -> exists s', handleVisual s v (SimpleEdit i) = Some s' /\ goesOn s s'.
Proof.
  intros Hs (fs & E & Hi). destruct (kind_fields _ _ (topups _ (proj1 Hs))) as (fs' & E' & Hp & Hf).
  fold (textOf s TopupGroupRatio) in E'. rewrite E in E'. injection E' as <-. cbn [handleVisual]. unfold topupRatioList. rewrite E.
  cbn [own_entries]. rewrite <- entries_length in Hi. apply lookup_lt_is_Some_2 in Hi as [[k x] Hx].
  destruct (entry_name_wf _ _ _ _ Hp Hx) as [Hk _].
  destruct (mapM_is_Some_2 (fun '(name, value) => value ← String_of value; Some (mkSimple name value)) (Object_entries fs)) as [l Hl].
  { apply entries_Forall. eapply Forall_impl; [exact Hf|]. intros [n y] [t Ht]%scalar_text. cbn [snd] in Ht. unfold compose.
    rewrite Ht. by eexists. }
  rewrite Hl. apply mapM_Some in Hl. destruct (Forall2_lookup_l _ _ _ _ _ Hl Hx) as (g & Hg & (t & _ & [= <-])%bind_Some).
  cbn [mbind option_bind]. rewrite Hg. cbn [mbind option_bind]. eexists. split; [done|]. by apply dialog_goes_on.
Qed.

Lemma overrideEdit_goes_on s v i j :
  wellKinded s -> control s v (OverrideEdit i j) -> exists s', handleVisual s v (OverrideEdit i j) = Some s' /\ goesOn s s'.
Proof.
  intros Hs (fs & g & inner & E & Hi & Hj). destruct (kind_fields _ _ (overrides _ (proj1 Hs))) as (fs' & E' & Hp & Hf).
  fold (textOf s GroupGroupRatio) in E'. rewrite E in E'. injection E' as <-. cbn [handleVisual]. unfold groupGroupRatioList. rewrite E.
  cbn [own_entries]. rewrite <- entries_length in Hj. apply lookup_lt_is_Some_2 in Hj as [[t r] Hr].
  destruct (entry_name_wf _ _ _ _ Hp Hi) as [Hg Hpi], (entry_name_wf _ _ _ _ Hpi Hr) as [Ht _].
  assert (recordOf scalar (JObj inner)) as (inner' & [= <-] & Hin).
  { rewrite Forall_forall in Hf. apply list_elem_of_lookup_2 in Hi. apply (proj1 (Object_entries_elem _ _)) in Hi. exact (Hf _ Hi). }
  assert (is_Some (String_of r)) as [x Hx].
  { apply scalar_text. rewrite Forall_forall in Hin. apply list_elem_of_lookup_2 in Hr. apply (proj1 (Object_entries_elem _ _)) in Hr. exact (Hin _ Hr). }
  match goal with |- context [mapM ?f _] => destruct (mapM_is_Some_2 f (Object_entries fs)) as [l Hl] end.
  { apply entries_Forall. eapply Forall_impl; [exact Hf|]. intros [n y] (fy & Ey & _). cbn [snd] in Ey. subst y. by eexists. }
  rewrite Hl. apply mapM_Some in Hl. destruct (Forall2_lookup_l _ _ _ _ _ Hl Hi) as (o & Ho & [= <-]).
  cbn [mbind option_bind]. rewrite Ho. cbn [mbind option_bind snd fst own_entries]. rewrite list_lookup_fmap, Hr.
  cbn [fmap option_fmap option_map mbind option_bind o_ratio o_targetGroup]. rewrite Hx. cbn [mbind option_bind].
  eexists. split; [done|]. by apply dialog_goes_on.
Qed.

(** Every control of the visual view. *)
Lemma visual_goes_on s v e :
  wellKinded s -> visual s = Some v -> control s v e -> exists s', handleVisual s v e = Some s' /\ goesOn s s'.
Proof.
  intros Hs Hv Hc. pose proof (proj1 Hs) as [Ht Ho Ha].
  pose proof (fun f w y => write_goes_on s Hs f w y) as Hw. pose proof (fun d => dialog_goes_on s Hs d) as Hd.
  pose proof (rules_go_on s Hs) as Hr. pose proof (Hr (ruleIdCounter s)) as Hr0. rewrite setRuleIds_same in Hr0.
  destruct e.
  - cbn [handleVisual]. rewrite Hc. destruct (patchOf_total i) as [p ->]. eexists. split; [done|]. by apply (rows_go_on s s v).
  - eexists. split; [done|]. by apply (rows_go_on s (setRowIds _ s) v).
  - eexists. split; [done|]. by apply (rows_go_on s s v).
  - eexists. split; [done|]. apply Hd. by split; [|constructor].
  - by apply simpleEdit_goes_on.
  - destruct (delete_kind _ scalar_canon _ name Ht) as (y & E & Hy). eapply Hw; [done..|exact E|by apply kinds_topup].
  - eexists. split; [done|]. apply Hd. constructor.
  - destruct (handleAutoGroupDelete_kind i _ Ha) as (y & E & Hy). eapply Hw; [done..|exact E|by apply kinds_auto].
  - destruct Hc as (l & El & Hi). destruct (handleAutoGroupMove_kind i d _ l Ha El Hi) as ([y|] & E & Hy);
      cbn [handleVisual]; unfold textOf; rewrite E; cbn [mbind option_bind].
    + apply (Hw AutoGroups (Some y) y); [done..|]. by apply kinds_auto, Hy.
    + eexists. split; [done|]. apply goesOn_same; [done..|apply Hs].
  - eexists. split; [done|]. apply Hd. constructor.
  - destruct (delete_kind _ records_canon _ g Ho) as (y & E & Hy). eapply Hw; [done..|exact E|by apply kinds_override].
  - eexists. split; [done|]. apply Hd. by split; [|constructor].
  - by apply overrideEdit_goes_on.
  - destruct (handleOverrideDelete_kind g target _ Ho Hc) as (y & E & Hy). eapply Hw; [done..|exact E|by apply kinds_override].
  - cbn [handleVisual control] in *. rewrite Hc. eexists. split; [done|]. apply Hr0.
  - eexists. split; [done|]. apply Hr0.
  - eexists. split; [done|]. apply Hr.
  - eexists. split; [done|]. apply Hr0.
  - eexists. split; [done|]. apply goesOn_same; [done..|]. intros w. cbn. rewrite Hv. intros [= <-]. exact (proj2 Hs _ Hv).
  - eexists. split; [done|]. unfold addNewGroup. destruct (negb _); [apply goesOn_same; [done..|apply Hs]|].
    destruct (Hr (S (ruleIdCounter s)) (addRuleToGroup (ruleIdCounter s) (trim (newGroupName v)) (rules v))) as [_ [Hk Hdi]].
    split; [apply redraw_quiet; done|]. split; [done|]. intros w. cbn. rewrite Hv. intros [= <-]. exact (proj2 Hs _ Hv).
Qed.

Lemma saveDialog_goes_on s v :
  wellKinded s -> visual s = Some v -> dialog v <> NoDialog -> exists s', saveDialog (dialog v) s = Some s' /\ goesOn s s'.
Proof.
  intros Hs Hv Hn. pose proof (proj1 Hs) as [Ht Ho Ha]. pose proof (proj2 Hs v Hv) as Hd.
  pose proof (fun f y => close_goes_on s Hs f y) as Hc.
  assert (goesOn s s) as Hsame by (apply goesOn_same; [done..|apply Hs]).
  destruct (dialog v) as [|ty e n x|x|x|u e g r]; cbn [saveDialog dialogOk] in *; [done|..].
  - destruct Hd as [-> Hw]. unfold handleSimpleSave. destruct (_ || _); [by exists s|].
    destruct (saveSimple_kind e (trim n) (trim x) _ Ht) as (y & E & Hy); [by apply trim_wf|]. unfold textOf. cbn [simpleField].
    rewrite E. eexists. split; [done|]. apply Hc; [done..|]. by apply kinds_topup.
  - unfold handleAutoGroupSave. destruct (negb _); [by exists s|].
    destruct (appendAutoGroup_kind x _ Ha Hd) as (y & E & Hy). unfold textOf. rewrite E. eexists. split; [done|].
    apply Hc; [done..|]. by apply kinds_auto.
  - unfold handleUserGroupSave. destruct (negb _); [by exists s|].
    destruct (addUserGroup_kind x _ Ho Hd) as (y & E & Hy). unfold textOf. rewrite E. eexists. split; [done|].
    apply Hc; [done..|]. by apply kinds_override.
  - destruct Hd as [Hu Hg]. unfold handleOverrideSave. destruct (_ || _); [by exists s|].
    destruct (negb _); [eexists; split; [done|]; apply dialog_goes_on; [done|]; by split; [|constructor]|].
    destruct (parsedNumber_kind r) as [Hr Hp].
    destruct (saveOverride_kind u (trim g) (parsedNumber r) (o_targetGroup <$> e) _ Ho Hu) as (y & E & Hy); [by apply trim_wf|done|done|].
    unfold textOf. rewrite E. eexists. split; [done|]. apply Hc; [done..|]. by apply kinds_override.
Qed.

Lemma typeInDialog_total i d : dialogOk d -> dialogInput d i -> exists d', typeInDialog i d = Some d' /\ dialogOk d'.
Proof.
  intros Hd Hi. destruct i as [x|x], d as [|ty [e|] n y|y|y|u [e|] g r]; try done; eexists; (split; [done|]); cbn [dialogOk dialogInput] in *; naive_solver.
Qed.

(** Whatever the user can do in the visual view is done, and the texts keep their kinds. *)
Lemma progress s e : wellKinded s -> visualOffers s e -> exists s', handleGroups s e = Some s' /\ wellKinded s'.
Proof.
  intros Hs (v & Hv & He). assert (uncovered s = true <-> dialog v = NoDialog) as Hu.
  { unfold uncovered. rewrite Hv. by destruct v as [? ? ? []]. }
  destruct e; cbn [handleGroups]; rewrite ?Hv; cbn [mbind option_bind].
  - destruct He as [Hd Hc]. apply Hu in Hd as ->. destruct (visual_goes_on s v e Hs Hv Hc) as (s' & -> & Hr & Hk). by exists s'.
  - destruct (typeInDialog_total i _ (proj2 Hs v Hv) He) as (d & -> & Hd). eexists. split; [done|]. by apply dialog_goes_on.
  - destruct (saveDialog_goes_on s v Hs Hv He) as (s' & -> & Hr & Hk). by exists s'.
  - destruct (uncovered s); [by destruct He; apply Hu|]. eexists. split; [done|]. by apply dialog_goes_on.
  - apply Hu in He as ->. eexists. split; [done|]. split; [apply Hs|]. apply Hs.
  - done.
  - apply Hu in He as ->. unfold toggleEditMode. rewrite Hv. eexists. split; [done|]. by split; [apply Hs|].
  - apply Hu in He as ->. eexists. split; [done|]. unfold submitGroups. destruct (validGroups _); [|done]. by split; apply Hs.
  - done.
Qed.

(** C19: Whatever is done on the page, in any order and with any answers of the
    server: the rows of the table have distinct ids and finite ratios, the rules
    have distinct ids and a removal has its fixed text, and the table shows the two
    texts of the form: its rows are written as these texts, or are the rows that
    are read from them.  And when the ratios of top-ups are an object of plain
    values, the ratios between groups an object of such objects and the auto
    groups an array of names, then everything the visual view offers can be
    done, no handler and no drawing of the lists throws, and the three texts are
    of these kinds again.  Texts that are typed are 16-bit units; typing JSON in
    the view of the texts, coming back from it and fetching the settings are not
    part of this, since they can bring texts of any kind. *)
Theorem group_page_invariant s v :
  reachableGroups s -> visual s = Some v ->
  NoDup (map g_id (rows v)) /\ NoDup (map ru_id (rules v)) /\
  Forall (fun r => finite (g_ratio r) = true) (rows v) /\
  Forall (fun r => ru_op r = OP_REMOVE -> ru_description r = removeText) (rules v) /\
  rowsShow s (rows v) /\
  (wellKinded s -> forall e, visualOffers s e -> exists s', handleGroups s e = Some s' /\ wellKinded s').
Proof.
  intros Hr%reachable_ok Hv. unfold pageOk in Hr. rewrite Hv in Hr. destruct Hr as ([[] [] ? ?] & ? & ?).
  split_and!; try done. intros Hk e. by apply progress.
Qed.

(** C20: A change in the table of groups is never taken back by the table itself,
    whatever the names are on the way, blank, padded or used twice: the rows stay
    as they were edited, with their ids, the form gets the two texts of these rows
    and no other text changes. *)
Theorem edited_rows_are_kept s v e rs :
  reachableGroups s -> visual s = Some v -> uncovered s = true -> editedRows s v e = Some rs ->
  exists s', handleGroups s (InVisual e) = Some s' /\ visual s' = Some (setRows rs v) /\
    (textOf s' GroupRatioText, textOf s' UserUsableGroups) = serializeGroupPricingRows rs /\
    forall f, f <> GroupRatioText -> f <> UserUsableGroups -> textOf s' f = textOf s f.
Proof.
  intros Hr%reachable_ok Hv Hu He. pose proof Hr as Hd. unfold pageOk in Hd. rewrite Hv in Hd. destruct Hd as (_ & Hd & _).
  assert (exists s0, handleVisual s v e = Some (emitRows rs s0) /\ visual s0 = Some v /\ groupForm s0 = groupForm s) as (s0 & Hs0 & Hv0 & Hf).
  { destruct e; try done; cbn [editedRows handleVisual] in *.
    - destruct (rowInputShown v id i); [|done]. apply bind_Some in He as (p & -> & [= <-]). by exists s.
    - injection He as <-. by eexists.
    - injection He as <-. by exists s. }
  exists (emitRows rs s0). cbn [handleGroups]. rewrite Hv. cbn [mbind option_bind]. rewrite Hu, Hs0. cbn [mbind option_bind].
  rewrite (emit_redraw s s0 v) by (by rewrite ?Hf). destruct (emit_facts s0 v rs Hv0) as (H1 & _ & H2 & H3).
  split_and!; [done|done|done|]. intros f Hf1 Hf2. rewrite H3 by done. unfold textOf. by rewrite Hf.
Qed.

(** The groups of a table with distinct names, none of them blank or padded,
    are opened again as they were: name, ratio, whether users may select it, and
    its description if they may.  The order is kept, except that names that are
    numbers come first, as in every object. *)
Theorem saved_groups_reopen rows n :
  Forall plainName rows -> NoDup (map g_name rows) -> Forall rowUnits rows -> Forall (fun r => finite (g_ratio r) = true) rows ->
  exists rs, buildGroupPricingRows n (serializeGroupPricingRows rows).1 (serializeGroupPricingRows rows).2 = Some rs /\
    map shown rs = map shown (Object_entries (map (fun r => (g_name r, r)) rows)).*2.
Proof. apply rows_reopen. Qed.

(** What the two texts of the table hold, for any rows: the ratio of a name is
    that of its last row, and a name is selectable exactly when one of its rows
    is, with the description of the last one. *)
Theorem groups_are_written rows n :
  Forall rowUnits rows -> n <> [] ->
  member (safeJsonParse (serializeGroupPricingRows rows).1) n
  = (fun r => JNum (renum (g_ratio r))) <$> last (List.filter (named n) rows) /\
  member (safeJsonParse (serializeGroupPricingRows rows).2) n
  = (fun r => JStr (g_description r)) <$> last (List.filter (fun r => named n r && g_selectable r) rows).
Proof.
  intros Hu Hn. destruct (serialized_printable rows Hu) as [H1 H2], (serialized_get rows n Hn) as [G1 G2].
  unfold serializeGroupPricingRows. cbv zeta. cbn [fst snd]. rewrite !parsed_pretty, !canon_field, G1, G2 by done.
  clear G1 G2. split; by destruct (last _).
Qed.

(** The search for the name of a new group ends, and it takes the first of the
    names group_1, group_2, ... that no row has. *)
Theorem new_group_has_free_name n rows :
  exists k, addRow n rows = rows ++ [mkGroup (groupId (S n)) (groupName k) one true []] /\
    groupName k ∉ map g_name rows /\ forall i, (1 <= i < k)%nat -> groupName i ∈ map g_name rows.
Proof. destruct (freshName_spec rows) as (k & E & Hk). exists k. unfold addRow. by rewrite E. Qed.

(** The comparison is with the names as they are typed: a group that is typed with
    a space is written under the name that the new group gets. *)
Theorem new_group_can_replace_padded_one rows r n :
  trim (g_name r) = freshName rows -> r ∈ rows -> Forall rowUnits rows ->
  member (safeJsonParse (serializeGroupPricingRows (addRow n rows)).1) (freshName rows) = Some (JNum one).
Proof.
  intros Ht Hr Hu. destruct (freshName_spec rows) as (k & Ek & _).
  assert (freshName rows <> []) as Hne by (by rewrite Ek).
  assert (trim (freshName rows) = freshName rows) as Htr.
  { rewrite Ek. apply trim_no_space. unfold groupName. apply Forall_app.
    split; [apply (bool_decide_unpack _); vm_compute; reflexivity|].
    eapply Forall_impl; [apply showZ_digits; lia|]. apply digit_not_space. }
  assert (Forall rowUnits (addRow n rows)) as Hu'.
  { apply Forall_app. split; [done|]. constructor; [|constructor]. split; [|constructor]. cbn [g_name]. rewrite Ek.
    unfold groupName. apply Forall_app. split; [apply (bool_decide_unpack _); vm_compute; reflexivity|].
    apply digits_wf, showZ_digits. lia. }
  destruct (serialized_printable _ Hu') as [H1 _], (serialized_get (addRow n rows) _ Hne) as [G1 _].
  unfold serializeGroupPricingRows. cbv zeta. cbn [fst]. rewrite parsed_pretty, canon_field, G1 by done.
  unfold addRow. rewrite List.filter_app. cbn [List.filter]. unfold named at 2. cbn [g_name]. rewrite bool_decide_eq_true_2 by done.
  by rewrite last_snoc.
Qed.

(** ** The rules *)


(** An appended group whose name starts with the mark of a removal is opened as a
    removal of the rest of the name, and its description is lost. *)
Example marked_append_is_reread :
  (fun rules' => map (fun r => (ruleKey r, ru_description r)) rules')
    <$> flattenRules 1 (safeParseJson (serializeRules [mkRule (ruleId 1) (js "vip") OP_APPEND (js "-:x") (js "Extra")]))
  = Some [(js "vip", OP_REMOVE, js "x", removeText)].
Proof. vm_compute. reflexivity. Qed.

(** What drawing the page again leaves alone. *)
Lemma rebuild_rest s s' :
  rebuildRows s = Some s' ->
  groupForm s' = groupForm s /\ ruleIdCounter s' = ruleIdCounter s /\ rules <$> visual s' = rules <$> visual s /\
  groupServer s' = groupServer s /\ uncovered s' = uncovered s.
Proof.
  intros (rs & _ & [= <-])%bind_Some. unfold uncovered, onVisual. cbn [visual setVisual setRowIds groupForm ruleIdCounter groupServer].
  by destruct (visual s) as [[? ? ? []]|].
Qed.

Lemma redraw_rest s s' s'' :
  redraw s s' = Some s'' ->
  groupForm s'' = groupForm s' /\ ruleIdCounter s'' = ruleIdCounter s' /\ rules <$> visual s'' = rules <$> visual s' /\
  groupServer s'' = groupServer s' /\ uncovered s'' = uncovered s'.
Proof.
  unfold redraw, rowsEffect. destruct (visual s') as [v|] eqn:Hv; [|by intros [= <-]; rewrite Hv].
  destruct (negb _); [done|]. destruct (_ && _); [by intros [= <-]; rewrite Hv|].
  destruct (bool_decide _); [by intros [= <-]; rewrite Hv|]. rewrite <- Hv. apply rebuild_rest.
Qed.

(** The editor of the rules on usable groups does not follow new settings.
    After the settings were fetched again it still shows the rules from before,
    whatever the server holds, and the next change writes those rules with the
    change over the text that was fetched. *)
Theorem new_settings_do_not_reach_the_rules s v g s1 s2 :
  visual s = Some v -> handleGroups s Refetched = Some s1 -> handleGroups s1 (InVisual (AddRule g)) = Some s2 ->
  (forall x, groupServer s (GText GroupSpecialUsableGroup) = StoredText x ->
     textOf s1 GroupSpecialUsableGroup = formatJsonForTextarea x) /\
  rules <$> visual s1 = Some (rules v) /\
  textOf s2 GroupSpecialUsableGroup = serializeRules (addRuleToGroup (ruleIdCounter s) g (rules v)).
Proof.
  intros Hv H1 H2. cbn [handleGroups] in H1. apply redraw_rest in H1 as (Hf & Hi & Hr & _ & _).
  cbn [visual onGroupDefaults setGroupForm setDefaults ruleIdCounter groupForm] in *. rewrite Hv in Hr.
  cbn [handleGroups] in H2. apply bind_Some in H2 as (v1 & Hv1 & H2). rewrite Hv1 in Hr. injection Hr as Hr.
  destruct (uncovered s1); [|done]. cbn [handleVisual] in H2. apply bind_Some in H2 as (s' & [= <-] & H2).
  apply redraw_rest in H2 as (Hf2 & _). split_and!.
  - intros x Hx. unfold textOf. rewrite Hf. cbn [formatGroupForm groupTexts serverGroups]. by rewrite Hx.
  - rewrite Hv1. cbn. by rewrite Hr.
  - unfold textOf. rewrite Hf2, Hi, Hr. reflexivity.
Qed.

(** ** Saving *)

Fixpoint runGroups (es : list Event) (s : GroupPage) : option GroupPage :=
  match es with [] => Some s | e :: es => s ← handleGroups s e; runGroups es s end.

Lemma updates_none a b : (forall k, groupValueAt b k = groupValueAt a k) -> groupUpdates a b = [].
Proof.
  intros H. unfold groupUpdates. apply list_nil_elem. intros k [_ Hk]%list_elem_of_In%filter_In. by rewrite bool_decide_eq_true_2 in Hk.
Qed.

Lemma updates_one a b k0 :
  (forall k, k <> k0 -> groupValueAt b k = groupValueAt a k) -> groupValueAt b k0 <> groupValueAt a k0 -> groupUpdates a b = [k0].
Proof.
  intros H Hne. unfold groupUpdates. transitivity (List.filter (fun k => bool_decide (k = k0)) groupKeys).
  - apply filter_ext. intros k. destruct (decide (k = k0)) as [->|Hk].
    + by rewrite bool_decide_eq_false_2, bool_decide_eq_true_2.
    + rewrite (bool_decide_eq_true_2 (groupValueAt b k = _)), bool_decide_eq_false_2 by auto. done.
  - by destruct k0 as [[]|].
Qed.

Lemma valid_put s f x :
  f <> AutoGroups -> validGroups (groupForm s) = true -> validJsonString x = true ->
  validGroups (groupForm (handleFieldChange f x s)) = true.
Proof.
  unfold validGroups. intros Hf H Hx. apply andb_true_iff in H as [H Ha]. rewrite forallb_forall in H. apply andb_true_iff. split.
  - apply forallb_forall. intros k Hk. cbn [handleFieldChange setGroupForm groupForm groupTexts]. unfold put.
    case_decide; [done|]. by apply H.
  - cbn [handleFieldChange setGroupForm groupForm groupTexts]. unfold put. by rewrite decide_False by congruence.
Qed.

Lemma typed_value s f x k :
  groupValueAt (normalizeGroupForm (groupForm (handleFieldChange f x s))) k
  = if decide (k = GText f) then StoredText (normalizeJsonString x) else groupValueAt (normalizeGroupForm (groupForm s)) k.
Proof.
  destruct k as [f'|]; [|by rewrite decide_False]. cbn [groupValueAt normalizeGroupForm groupTexts handleFieldChange setGroupForm groupForm].
  unfold put. destruct (decide (f' = f)) as [->|]; [by rewrite !decide_True|]. by rewrite !decide_False by congruence.
Qed.

Lemma typed_text s f x : textOf (handleFieldChange f x s) f = x.
Proof. unfold textOf. cbn. unfold put. by rewrite decide_True. Qed.

(** A change of the group settings that is undone is not sent.  On a page that
    holds what is taken for saved, a text is changed and saved, and before the
    settings are fetched again it is changed back and saved: the page shows the
    old text, the second save sends nothing and the server keeps the new one. *)
Theorem undone_change_is_not_sent s f x answers answers' :
  visual s = None -> f <> AutoGroups -> validGroups (groupForm s) = true ->
  (forall k, groupValueAt (normalizeGroupForm (groupForm s)) k = groupValueAt (groupNormalizedDefaults s) k) ->
  validJsonString x = true -> normalizeJsonString x <> normalizeJsonString (textOf s f) ->
  exists s', runGroups [TypeJson f x; Save (Accepted :: answers); TypeJson f (textOf s f); Save answers'] s = Some s' /\
    textOf s' f = textOf s f /\ groupServer s' (GText f) = StoredText (normalizeJsonString x).
Proof.
  intros Hv Hf Hval Hsync Hx Hne.
  assert (validJsonString (textOf s f) = true) as Hold.
  { unfold validGroups in Hval. apply andb_true_iff in Hval as [H _]. rewrite forallb_forall in H. apply H.
    destruct f; cbn; auto 10; done. }
  set (s1 := handleFieldChange f x s). set (s2 := saveGroupRatios (Accepted :: answers) s1). set (s3 := handleFieldChange f (textOf s f) s2).
  assert (validGroups (groupForm s1) = true) as V1 by by apply valid_put.
  assert (validGroups (groupForm s3) = true) as V3 by (apply valid_put; done).
  assert (groupUpdates (groupNormalizedDefaults s1) (normalizeGroupForm (groupForm s1)) = [GText f]) as U1.
  { apply updates_one; [|].
    - intros k Hk. unfold s1. rewrite typed_value, decide_False by done. apply Hsync.
    - unfold s1. rewrite typed_value, decide_True by done. cbn [groupNormalizedDefaults handleFieldChange setGroupForm].
      rewrite <- Hsync. cbn [groupValueAt normalizeGroupForm groupTexts]. intros [= E]. by apply Hne. }
  assert (groupUpdates (groupNormalizedDefaults s3) (normalizeGroupForm (groupForm s3)) = []) as U3.
  { apply updates_none. intros k. unfold s3. rewrite typed_value. change (groupNormalizedDefaults _) with (groupNormalizedDefaults s).
    change (groupForm s2) with (groupForm s1). unfold s1. rewrite typed_value. rewrite <- Hsync. by case_decide as E; [rewrite E|]. }
  exists (submitGroups answers' s3). split; [|split].
  - cbn [runGroups handleGroups]. rewrite Hv. cbn [mbind option_bind]. fold s1.
    assert (uncovered s1 = true) as -> by (unfold uncovered; cbn; by rewrite Hv). cbn [mbind option_bind].
    assert (submitGroups (Accepted :: answers) s1 = s2) as -> by (unfold submitGroups; by rewrite V1).
    assert (visual s2 = None) as -> by done. cbn [mbind option_bind]. fold s3.
    assert (uncovered s3 = true) as -> by (unfold uncovered; cbn; by rewrite Hv). done.
  - unfold submitGroups. rewrite V3. apply typed_text.
  - unfold submitGroups. rewrite V3. unfold saveGroupRatios. rewrite U3. cbn [sendGroupUpdates groupServer setGroupServer].
    change (groupServer s3) with (groupServer s2). unfold s2, saveGroupRatios. rewrite U1. cbn [sendGroupUpdates groupServer setGroupServer].
    unfold put. rewrite decide_True by done. unfold s1. by rewrite typed_value, decide_True by done.
Qed.

(** ** Saving and fetching again *)

(** What is taken for saved is what the server holds. *)
Definition inSyncGroups (s : GroupPage) : Prop :=
  forall k, ModelPricingProperties.normalizeStored (groupServer s k) = groupValueAt (groupNormalizedDefaults s) k.

(** The texts of the form and of the server are in units of UTF-16. *)
Definition groupUnits (s : GroupPage) : Prop :=
  (forall f, wf_str (textOf s f)) /\ forall f x, groupServer s (GText f) = StoredText x -> wf_str x.

Lemma send_all normalized keys answers srv k :
  Forall (fun a => a = Accepted) answers -> (length keys <= length answers)%nat ->
  sendGroupUpdates normalized keys answers srv k = if decide (k ∈ keys) then groupValueAt normalized k else srv k.
Proof.
  intros Ha. revert keys srv. induction Ha as [|a answers -> Ha IH]; intros [|k' keys] srv Hl; cbn [sendGroupUpdates length] in *;
    try (by rewrite decide_False by apply not_elem_of_nil); [lia|]. rewrite IH by lia. unfold put.
  destruct (decide (k ∈ keys)) as [H|H]; [by rewrite decide_True by by right|].
  destruct (decide (k = k')) as [->|Hk]; [by rewrite decide_True by left|]. rewrite decide_False; [done|]. by intros [|]%elem_of_cons.
Qed.

Lemma updates_elem a b k : k ∈ groupUpdates a b <-> groupValueAt b k <> groupValueAt a k.
Proof.
  unfold groupUpdates. rewrite list_elem_of_In, filter_In, negb_true_iff, bool_decide_eq_false. split; [by intros [_ ?]|].
  intros H. split; [|done]. destruct k as [[]|]; cbn; auto 10.
Qed.

Lemma updates_length a b : (length (groupUpdates a b) <= length groupKeys)%nat.
Proof. apply filter_length_le. Qed.

(** Every setting is stored when the server accepts all updates. *)
Lemma all_stored s answers k :
  inSyncGroups s -> (forall f, wf_str (textOf s f)) -> Forall (fun a => a = Accepted) answers -> (length groupKeys <= length answers)%nat ->
  ModelPricingProperties.normalizeStored (groupServer (saveGroupRatios answers s) k) = groupValueAt (normalizeGroupForm (groupForm s)) k.
Proof.
  intros Hs Hu Ha Hl. unfold saveGroupRatios. cbn [groupServer setGroupServer].
  rewrite send_all; [|done|etransitivity; [apply updates_length|done]]. case_decide as Hk.
  - destruct k as [f|]; [|done]. cbn. by rewrite ModelPricingProperties.normalize_idemp by apply Hu.
  - rewrite updates_elem in Hk. rewrite Hs. symmetry. by destruct (decide (groupValueAt (normalizeGroupForm (groupForm s)) k = groupValueAt (groupNormalizedDefaults s) k)).
Qed.

Lemma normalize_wf x : wf_str x -> wf_str (normalizeJsonString x).
Proof.
  intros Hx. apply trim_wf in Hx. unfold normalizeJsonString. cbv zeta. destruct (negb _); [constructor|].
  destruct (JSON_parse (trim x)) eqn:E; [|done]. apply stringify_wf. by eapply parse_printable.
Qed.

Lemma format_parses y : wf_str y -> canon (safeJsonParse (formatJsonForTextarea y)) = canon (safeJsonParse y).
Proof.
  intros Hy. unfold formatJsonForTextarea. destruct (truthy (trim y)) eqn:E; cbn [negb].
  - destruct (JSON_parse y) as [v|] eqn:Ev; [|done]. assert (printable v) as Hv by by eapply parse_printable.
    rewrite parsed_pretty, canon_idemp by done. unfold safeJsonParse. by rewrite E, (parse_trim _ _ Ev).
  - unfold safeJsonParse. by rewrite E.
Qed.

Lemma normalize_parses x y :
  wf_str x -> wf_str y -> normalizeJsonString y = normalizeJsonString x -> canon (safeJsonParse y) = canon (safeJsonParse x).
Proof.
  assert (forall z v, wf_str z -> JSON_parse (trim z) = Some v -> JSON_parse (JSON_stringify v) = Some (canon v)) as Hs.
  { intros z v Hz Hv. apply stringify_reads. eapply parse_printable; [|exact Hv]. by apply trim_wf. }
  intros Hx Hy. unfold normalizeJsonString, safeJsonParse. cbv zeta.
  destruct (truthy (trim x)) eqn:Ex, (truthy (trim y)) eqn:Ey; cbn [negb]; try done.
  - destruct (JSON_parse (trim x)) as [v|] eqn:Ev, (JSON_parse (trim y)) as [w|] eqn:Ew; intros E; try done.
    + pose proof (Hs _ _ Hy Ew) as H. rewrite E, (Hs _ _ Hx Ev) in H. by injection H.
    + pose proof (Hs _ _ Hx Ev) as H. rewrite <- E, Ew in H. done.
    + pose proof (Hs _ _ Hy Ew) as H. rewrite E, Ev in H. done.
  - destruct (JSON_parse (trim x)) as [v|] eqn:Ev; intros E; [|by rewrite <- E in Ex].
    pose proof (Hs _ _ Hx Ev) as H. by rewrite <- E in H.
  - destruct (JSON_parse (trim y)) as [w|] eqn:Ew; intros E; [|by rewrite E in Ey].
    pose proof (Hs _ _ Hy Ew) as H. by rewrite E in H.
Qed.

Lemma signature_canon a b a' b' :
  canon (safeJsonParse a) = canon (safeJsonParse a') -> canon (safeJsonParse b) = canon (safeJsonParse b') ->
  sourceGroupPricingSignature a b = sourceGroupPricingSignature a' b'.
Proof.
  intros Ha Hb. unfold sourceGroupPricingSignature.
  rewrite <- (stringify_canon (JObj [(_, safeJsonParse a); _])), <- (stringify_canon (JObj [(_, safeJsonParse a'); _])).
  cbn [canon map prod_map fst snd]. by rewrite Ha, Hb.
Qed.

(** C21: Saving the group settings stores every setting, and fetching them again
    afterwards does not disturb the table: its rows, with their ids, and the rules
    stay as they are, also rows that are not written because their name is blank
    or used twice.  This is for a page where what counts as saved is what the
    server holds (no change is being undone, see [undone_change_is_not_sent]),
    whose texts are valid, in 16-bit units, and are what the rows of the table are
    written as, when the server accepts every update and no dialog is open. *)
Theorem saved_table_stays s v answers s1 s2 :
  visual s = Some v -> inSyncGroups s -> groupUnits s -> validGroups (groupForm s) = true ->
  Forall (fun a => a = Accepted) answers -> (length groupKeys <= length answers)%nat ->
  groupPricingSignature (rows v) = sourceGroupPricingSignature (textOf s GroupRatioText) (textOf s UserUsableGroups) ->
  handleGroups s (Save answers) = Some s1 -> handleGroups s1 Refetched = Some s2 ->
  (forall k, ModelPricingProperties.normalizeStored (groupServer s1 k) = groupValueAt (normalizeGroupForm (groupForm s)) k) /\
  visual s2 = Some v.
Proof.
  intros Hv Hsync [Hu Hus] Hval Ha Hl Hsig H1 H2. cbn [handleGroups] in H1. destruct (uncovered s); [|done].
  unfold submitGroups in H1. rewrite Hval in H1. injection H1 as <-.
  pose proof (fun k => all_stored s answers k Hsync Hu Ha Hl) as Hst. split; [exact Hst|].
  set (s1 := saveGroupRatios answers s) in *.
  assert (forall f, canon (safeJsonParse (textOf (onGroupDefaults (serverGroups s1) s1) f)) = canon (safeJsonParse (textOf s f))) as Ht.
  { intros f. unfold textOf at 1. cbn [onGroupDefaults setGroupForm groupForm formatGroupForm groupTexts serverGroups].
    specialize (Hst (GText f)). destruct (groupServer s1 (GText f)) as [y|] eqn:Ey; [|done]. injection Hst as Hst.
    assert (wf_str y) as Hy.
    { unfold s1, saveGroupRatios in Ey. cbn [groupServer setGroupServer] in Ey.
      rewrite send_all in Ey; [|done|etransitivity; [apply updates_length|done]]. case_decide; [|by eapply Hus].
      injection Ey as <-. apply normalize_wf, Hu. }
    rewrite format_parses by done. by apply normalize_parses; [apply Hu| |]. }
  cbn [handleGroups] in H2. unfold redraw in H2. change (visual (onGroupDefaults (serverGroups s1) s1)) with (visual s) in H2. rewrite Hv in H2.
  destruct (negb _); [done|]. destruct (_ && _); [injection H2 as <-; exact Hv|].
  unfold rowsEffect in H2. change (visual (onGroupDefaults (serverGroups s1) s1)) with (visual s) in H2. rewrite Hv in H2.
  rewrite bool_decide_eq_true_2 in H2; [injection H2 as <-; exact Hv|]. rewrite Hsig. apply signature_canon; symmetry; apply Ht.
Qed.

(** ** Texts that cannot be shown *)

(** The form accepts any JSON for the ratios, also null, and saves it; from then
    on the visual view cannot be drawn: changing to it fails, and so does opening
    the page on the saved settings. *)
Theorem null_ratios_cannot_be_shown s answers :
  visual s = None -> validGroups (groupForm s) = true ->
  groupValueAt (groupNormalizedDefaults s) (GText GroupRatioText) <> StoredText (js "null") ->
  Forall (fun a => a = Accepted) answers -> (length groupKeys <= length answers)%nat ->
  exists s', runGroups [TypeJson GroupRatioText (js "null"); Save answers] s = Some s' /\
    groupServer s' (GText GroupRatioText) = StoredText (js "null") /\
    handleGroups s' ToggleView = None /\ initGroups (serverGroups s') = None.
Proof.
  intros Hv Hval Hd Ha Hl. set (s1 := handleFieldChange GroupRatioText (js "null") s).
  assert (validGroups (groupForm s1) = true) as V1 by by apply valid_put.
  assert (forall n u, buildGroupPricingRows n (js "null") u = None) as Hnull by done.
  assert (forall x, textOf x GroupRatioText = js "null" -> mountVisual x = None) as Hm.
  { intros x Hx. unfold mountVisual. destruct (draws _); [|done]. destruct (flattenRules _ _) as [rus|]; [|done]. cbn [mbind option_bind].
    unfold rebuildRows. change (textOf (setVisual _ _) GroupRatioText) with (textOf x GroupRatioText). by rewrite Hx, Hnull. }
  exists (saveGroupRatios answers s1). split_and!.
  - cbn [runGroups handleGroups]. rewrite Hv. cbn [mbind option_bind]. fold s1.
    assert (uncovered s1 = true) as -> by (unfold uncovered; cbn; by rewrite Hv). unfold submitGroups. by rewrite V1.
  - unfold saveGroupRatios. cbn [groupServer setGroupServer]. rewrite send_all; [|done|etransitivity; [apply updates_length|done]].
    rewrite decide_True; [done|]. apply updates_elem. change (groupNormalizedDefaults s1) with (groupNormalizedDefaults s).
    intros E. apply Hd. by rewrite <- E.
  - cbn [handleGroups]. assert (uncovered (saveGroupRatios answers s1) = true) as -> by (unfold uncovered; cbn; by rewrite Hv).
    unfold toggleEditMode. change (visual (saveGroupRatios answers s1)) with (visual s). rewrite Hv. by apply Hm.
  - unfold initGroups. apply Hm. unfold textOf. cbn [groupForm formatGroupForm groupTexts serverGroups].
    assert (groupServer (saveGroupRatios answers s1) (GText GroupRatioText) = StoredText (js "null")) as ->; [|done].
    unfold saveGroupRatios. cbn [groupServer setGroupServer]. rewrite send_all; [|done|etransitivity; [apply updates_length|done]].
    rewrite decide_True; [done|]. apply updates_elem. change (groupNormalizedDefaults s1) with (groupNormalizedDefaults s).
    intros E. apply Hd. by rewrite <- E.
Qed.

(** ** Ratios between groups *)

(** The ratio of a user group for a target group. *)
Definition overrideAt (text g t : jsstr) : option json :=
  inner ← member (safeJsonParse text) g; member inner t.

(** The text is an object of objects. *)
Definition overridesText (text : jsstr) : Prop :=
  objectText text /\ forall g v, member (safeJsonParse text) g = Some v -> exists fs, v = JObj fs.

Lemma written_override fs g inner text t :
  printable (JObj fs) -> wf_str g -> printable (JObj inner) ->
  overrideAt (JSON_pretty (JObj (map_set fs g (JObj inner)))) text t
  = if decide (text = g) then canon <$> map_get inner t else (v ← map_get fs text; member (canon v) t).
Proof.
  intros Hf Hg Hi. assert (printable (JObj (map_set fs g (JObj inner)))) as Hp by by apply printable_set.
  unfold overrideAt. rewrite parsed_pretty, canon_field by done. case_decide as E.
  - subst text. rewrite map_get_set_eq. cbn [fmap option_fmap option_map mbind option_bind]. by apply canon_field.
  - rewrite map_get_set_ne by done. by destruct (map_get fs text).
Qed.

Lemma member_canon v t : printable v -> (exists fs, v = JObj fs) -> member (canon v) t = canon <$> member v t.
Proof. intros Hp [fs ->]. by apply canon_field. Qed.

(** Saving the ratio of a user group for a target group writes this ratio and
    changes no other, adding the user group when it is new. *)
Theorem override_is_saved text g t r :
  overridesText text -> wf_str g -> wf_str t -> printable r ->
  exists x, saveOverride g t r None text = Some x /\
    forall g' t', overrideAt x g' t' = if decide (g' = g /\ t' = t) then Some (canon r) else canon <$> overrideAt text g' t'.
Proof.
  intros [[Hx (fs & E)] Hin] Hg Ht Hr. pose proof (parsed_printable _ Hx) as Hp.
  unfold saveOverride, overrideAt at 2. rewrite E in *. cbn [member] in Hin.
  set (inner := match map_get fs g with Some (JObj i) => i | _ => [] end).
  assert (printable (JObj inner)) as Hi.
  { unfold inner. destruct (map_get fs g) as [v|] eqn:Eg; [|apply printable_empty]. destruct (Hin _ _ Eg) as [i ->].
    by eapply printable_get. }
  exists (JSON_pretty (JObj (map_set fs g (JObj (map_set inner t r))))). split.
  - unfold ensureGroup, updateMember. cbn [readMember member mbind option_bind]. unfold inner. destruct (map_get fs g) as [v|] eqn:Eg.
    + destruct (Hin _ _ Eg) as [i ->]. cbn [json_truthy mbind option_bind readMember member]. rewrite Eg. done.
    + cbn [assignProp mbind option_bind readMember member]. rewrite map_get_set_eq. cbn [mbind option_bind assignProp].
      by rewrite map_set_set.
  - intros g' t'. rewrite written_override; [|done|done|by apply printable_set]. cbn [member].
    destruct (decide (g' = g)) as [->|Hne].
    + unfold inner. destruct (decide (t' = t)) as [->|Hnt].
      * rewrite decide_True by done. by rewrite map_get_set_eq.
      * rewrite decide_False by naive_solver. rewrite map_get_set_ne by done. destruct (map_get fs g) as [v|] eqn:Eg; [|done].
        by destruct (Hin _ _ Eg) as [i ->].
    + rewrite decide_False by naive_solver. destruct (map_get fs g') as [v|] eqn:Eg; [|done]. cbn [mbind option_bind].
      apply member_canon; [exact (printable_get _ _ _ Hp Eg)|exact (Hin _ _ Eg)].
Qed.

(** ** The order of auto groups *)

Lemma swap_adjacent l1 x y l2 :
  swap (S (length l1)) (length l1) (l1 ++ x :: y :: l2) = l1 ++ y :: x :: l2 /\
  swap (length l1) (S (length l1)) (l1 ++ x :: y :: l2) = l1 ++ y :: x :: l2.
Proof.
  unfold swap. assert ((l1 ++ x :: y :: l2) !! length l1 = Some x) as -> by by apply list_lookup_middle.
  assert ((l1 ++ x :: y :: l2) !! S (length l1) = Some y) as ->.
  { rewrite (cons_middle x l1), app_assoc. apply list_lookup_middle. rewrite length_app. cbn. lia. }
  assert (forall a b c, <[length l1 := c]> (l1 ++ a :: b :: l2) = l1 ++ c :: b :: l2 /\
    <[S (length l1) := c]> (l1 ++ a :: b :: l2) = l1 ++ a :: c :: l2) as H.
  { intros a b c. split; [by rewrite insert_app_r_alt, Nat.sub_diag by lia|]. by rewrite insert_app_r_alt, Nat.sub_succ_l, Nat.sub_diag by lia. }
  split.
  - rewrite (proj1 (H x y y)). apply H.
  - rewrite (proj2 (H x y x)). apply H.
Qed.

(** Moving an auto group up exchanges it with the one above it, keeps all the
    groups, and moving it down again restores the text. *)
Theorem auto_group_move_is_undone text l i :
  wf_str text -> safeJsonParseList text = JArr l -> (0 < i < length l)%nat ->
  exists text', handleAutoGroupMove i Up text = Some (Some text') /\
    safeJsonParseList text' = JArr (map canon (swap i (i - 1) l)) /\ swap i (i - 1) l ≡ₚ l /\
    handleAutoGroupMove (i - 1) Down text' = Some (Some (JSON_pretty (JArr l))).
Proof.
  intros Hw Hl Hi. pose proof (list_printable _ _ Hw Hl) as Hp.
  destruct (lookup_lt_is_Some_2 l (i - 1)) as [x Hx]; [lia|]. destruct (lookup_lt_is_Some_2 l i) as [y Hy]; [lia|].
  assert (exists l1 l2, l = l1 ++ x :: y :: l2 /\ length l1 = (i - 1)%nat) as (l1 & l2 & -> & Hlen).
  { exists (take (i - 1) l), (drop (S i) l). split; [|rewrite length_take; lia].
    rewrite <- (take_drop (i - 1) l) at 1. f_equal. rewrite (drop_S _ _ _ Hx). f_equal. replace (S (i - 1)) with i by lia. by apply drop_S. }
  replace i with (S (length l1)) in * by lia. replace (S (length l1) - 1)%nat with (length l1) in * by lia.
  destruct (swap_adjacent l1 x y l2) as [Hs _]. rewrite Hs.
  assert (l1 ++ y :: x :: l2 ≡ₚ l1 ++ x :: y :: l2) as Hperm by (by rewrite (Permutation_swap x y)).
  assert (printable (JArr (l1 ++ y :: x :: l2))) as Hp' by (constructor; rewrite Hperm; by inversion Hp).
  exists (JSON_pretty (JArr (l1 ++ y :: x :: l2))). split_and!.
  - unfold handleAutoGroupMove. rewrite Hl. cbn [spreadArray mbind option_bind]. cbv zeta.
    assert (((Z.of_nat (S (length l1)) - 1 <? 0) || (Z.of_nat (length (l1 ++ x :: y :: l2)) <=? Z.of_nat (S (length l1)) - 1)) = false) as ->.
    { rewrite length_app. cbn [length]. apply orb_false_iff. split; [apply Z.ltb_ge|apply Z.leb_gt]; lia. }
    replace (Z.to_nat (Z.of_nat (S (length l1)) - 1)) with (length l1) by lia. by rewrite Hs.
  - by rewrite parsed_list.
  - done.
  - unfold handleAutoGroupMove. rewrite parsed_list by done. cbn [canon spreadArray mbind option_bind]. cbv zeta.
    rewrite length_map. assert (((Z.of_nat (length l1) + 1 <? 0) || (Z.of_nat (length (l1 ++ y :: x :: l2)) <=? Z.of_nat (length l1) + 1)) = false) as ->.
    { rewrite length_app. cbn [length]. apply orb_false_iff. split; [apply Z.ltb_ge|apply Z.leb_gt]; lia. }
    replace (Z.to_nat (Z.of_nat (length l1) + 1)) with (S (length l1)) by lia. rewrite map_app. cbn [map].
    destruct (swap_adjacent (map canon l1) (canon y) (canon x) (map canon l2)) as [_ Hs']. rewrite length_map in Hs'. rewrite Hs'.
    do 2 f_equal. apply pretty_canon. cbn [canon]. f_equal. rewrite !map_app. cbn [map]. rewrite !map_map.
    assert (forall k, map (fun z => canon (canon z)) k = map canon k) as Hc by (intros k; apply map_ext; intros; apply canon_idemp).
    by rewrite !Hc, !canon_idemp.
Qed.

(** ** Witnesses *)

Definition sampleGroups : GroupFormValues :=
  mkGroups (fun f => match f with
    | GroupRatioText => JSON_stringify (JObj [(js "default", JNum one); (js "vip", JNum (mkNum 5 (-1)))])
    | UserUsableGroups => JSON_stringify (JObj [(js "vip", JStr (js "Members")); (js "trial", JStr (js "Trial"))])
    | GroupGroupRatio => JSON_stringify (JObj [(js "vip", JObj [(js "default", JNum (mkNum 8 (-1)))])])
    | AutoGroups => JSON_stringify (JArr [JStr (js "default"); JStr (js "vip")])
    | GroupSpecialUsableGroup =>
        JSON_stringify (JObj [(js "vip", JObj [(js "+:extra", JStr (js "More")); (js "-:trial", JStr (js "remove"))])])
    | TopupGroupRatio => []
    end) false.

Definition samplePage : GroupPage :=
  match initGroups sampleGroups with
  | Some s => s
  | None => mkGroupPage sampleGroups sampleGroups None 0 0 (groupValueAt sampleGroups)
  end.

Definition sampleVisual : Visual :=
  match visual samplePage with Some v => v | None => mkVisual [] [] [] NoDialog end.

Definition sampleTexts : GroupPage := setVisual None samplePage.

Definition sevenTimes : list Answer := replicate 7 Accepted.

Lemma samplePage_init : initGroups sampleGroups = Some samplePage.
Proof.
  assert (bool_decide (is_Some (initGroups sampleGroups)) = true) as H by (vm_compute; reflexivity).
  apply bool_decide_eq_true in H as [s Hs]. unfold samplePage. by rewrite Hs.
Qed.

Lemma sampleVisual_shown : visual samplePage = Some sampleVisual.
Proof.
  assert (bool_decide (is_Some (visual samplePage)) = true) as H by (vm_compute; reflexivity).
  apply bool_decide_eq_true in H as [v Hv]. unfold sampleVisual. by rewrite Hv.
Qed.

Lemma samplePage_reachable : reachableGroups samplePage.
Proof. eapply groups_init, samplePage_init. Qed.

Lemma sample_uncovered : uncovered samplePage = true.
Proof. vm_compute. reflexivity. Qed.

Lemma sample_valid : validGroups (groupForm samplePage) = true.
Proof. vm_compute. reflexivity. Qed.

Lemma sample_accepted : Forall (fun a => a = Accepted) sevenTimes /\ (length groupKeys <= length sevenTimes)%nat.
Proof. split; [by repeat constructor|cbn; lia]. Qed.

Lemma sample_kinded : wellKinded samplePage.
Proof.
  split; [constructor; (split; [apply (bool_decide_unpack _); vm_compute; reflexivity|])|].
  - exists []. split; [vm_compute; reflexivity|constructor].
  - exists [(js "vip", JObj [(js "default", JNum (mkNum 8 (-1)))])]. split; [vm_compute; reflexivity|].
    constructor; [|constructor]. eexists. split; [reflexivity|]. constructor; [exact I|constructor].
  - exists [js "default"; js "vip"]. vm_compute. reflexivity.
  - intros v Hv. assert (v = sampleVisual) as -> by (apply Some_inj; rewrite <- Hv; exact sampleVisual_shown).
    assert (dialog sampleVisual = NoDialog) as -> by (vm_compute; reflexivity). exact I.
Qed.

Lemma group_page_invariant_witness :
  reachableGroups samplePage /\ visual samplePage = Some sampleVisual /\ rowsShow samplePage (rows sampleVisual) /\
  wellKinded samplePage /\
  exists s', handleGroups samplePage (InVisual (AutoMove 1 Up)) = Some s' /\ wellKinded s'.
Proof.
  split; [exact samplePage_reachable|]. split; [exact sampleVisual_shown|].
  destruct (group_page_invariant samplePage sampleVisual samplePage_reachable sampleVisual_shown) as (_ & _ & _ & _ & Hr & Hp).
  split; [exact Hr|]. split; [exact sample_kinded|]. apply Hp; [exact sample_kinded|].
  exists sampleVisual. split; [exact sampleVisual_shown|]. split; [vm_compute; reflexivity|].
  exists [JStr (js "default"); JStr (js "vip")]. split; [vm_compute; reflexivity|]. cbn. lia.
Defined.

Lemma edited_rows_are_kept_witness :
  exists s', handleGroups samplePage (InVisual (UpdateRow (groupId 4) (InName (js " vip")))) = Some s' /\
    visual s' = Some (setRows (updateRow (groupId 4) (RName (js " vip")) (rows sampleVisual)) sampleVisual).
Proof.
  destruct (edited_rows_are_kept samplePage sampleVisual (UpdateRow (groupId 4) (InName (js " vip")))
    (updateRow (groupId 4) (RName (js " vip")) (rows sampleVisual)) samplePage_reachable sampleVisual_shown sample_uncovered eq_refl)
    as (s' & H1 & H2 & _).
  exists s'. exact (conj H1 H2).
Defined.

Definition sampleRows : list GroupPricingRow :=
  [mkGroup (groupId 1) (js "default") one false []; mkGroup (groupId 2) (js "7") (mkNum 5 (-1)) true (js "Seven")].

Lemma saved_groups_reopen_witness :
  exists rs, buildGroupPricingRows 2 (serializeGroupPricingRows sampleRows).1 (serializeGroupPricingRows sampleRows).2 = Some rs /\
    map g_name rs = [js "7"; js "default"].
Proof.
  destruct (saved_groups_reopen sampleRows 2) as (rs & H1 & H2).
  - repeat constructor; try (vm_compute; reflexivity); vm_compute; congruence.
  - apply (bool_decide_unpack _). vm_compute. reflexivity.
  - repeat constructor; cbn; try (apply (bool_decide_unpack _); vm_compute; reflexivity).
  - repeat constructor; vm_compute; reflexivity.
  - exists rs. split; [exact H1|]. assert (map g_name rs = map (fun x => x.1.1.1) (map shown rs)) as -> by (rewrite map_map; reflexivity).
    rewrite H2. vm_compute. reflexivity.
Defined.

Lemma groups_are_written_witness :
  Forall rowUnits sampleRows /\
  member (safeJsonParse (serializeGroupPricingRows sampleRows).1) (js "7") = Some (JNum (mkNum 5 (-1))).
Proof.
  assert (Forall rowUnits sampleRows) as Hu
    by (repeat constructor; cbn; try (apply (bool_decide_unpack _); vm_compute; reflexivity)).
  split; [exact Hu|]. destruct (groups_are_written sampleRows (js "7") Hu ltac:(vm_compute; congruence)) as [H _]. rewrite H.
  vm_compute. reflexivity.
Defined.



(** Another administrator has emptied the rules meanwhile. *)
Definition changedElsewhere : GroupPage :=
  setGroupServer (put (GText GroupSpecialUsableGroup) (StoredText (js "{}")) (groupServer samplePage)) samplePage.

Lemma new_settings_do_not_reach_the_rules_witness :
  exists s1 s2, handleGroups changedElsewhere Refetched = Some s1 /\ handleGroups s1 (InVisual (AddRule (js "new"))) = Some s2 /\
    textOf s1 GroupSpecialUsableGroup = js "{}" /\
    textOf s2 GroupSpecialUsableGroup = serializeRules (addRuleToGroup (ruleIdCounter changedElsewhere) (js "new") (rules sampleVisual)).
Proof.
  assert (visual changedElsewhere = Some sampleVisual) as Hv by exact sampleVisual_shown.
  destruct (handleGroups changedElsewhere Refetched) as [s1|] eqn:H1.
  - destruct (handleGroups s1 (InVisual (AddRule (js "new")))) as [s2|] eqn:H2.
    + destruct (new_settings_do_not_reach_the_rules changedElsewhere sampleVisual (js "new") s1 s2 Hv H1 H2) as (Ht & _ & Hs).
      exists s1, s2. split; [reflexivity|]. split; [exact H2|]. split; [|exact Hs]. rewrite (Ht (js "{}") eq_refl). vm_compute. reflexivity.
    + exfalso.
      assert (bool_decide (is_Some (s ← handleGroups changedElsewhere Refetched; handleGroups s (InVisual (AddRule (js "new"))))) = true) as H
        by (vm_compute; reflexivity).
      rewrite H1 in H. cbn [mbind option_bind] in H. rewrite H2 in H. discriminate H.
  - exfalso. assert (bool_decide (is_Some (handleGroups changedElsewhere Refetched)) = true) as H by (vm_compute; reflexivity).
    rewrite H1 in H. discriminate H.
Defined.

Lemma sample_pristine k : groupValueAt (normalizeGroupForm (groupForm sampleTexts)) k = groupValueAt (groupNormalizedDefaults sampleTexts) k.
Proof. destruct k as [[]|]; vm_compute; reflexivity. Qed.

Lemma undone_change_is_not_sent_witness :
  exists s', runGroups [TypeJson GroupRatioText (js "{}"); Save [Accepted]; TypeJson GroupRatioText (textOf sampleTexts GroupRatioText); Save []]
      sampleTexts = Some s' /\ groupServer s' (GText GroupRatioText) = StoredText (js "{}").
Proof.
  destruct (undone_change_is_not_sent sampleTexts GroupRatioText (js "{}") [] [] eq_refl ltac:(discriminate) sample_valid sample_pristine
    ltac:(vm_compute; reflexivity) ltac:(vm_compute; congruence)) as (s' & H1 & _ & H2).
  exists s'. split; [exact H1|]. rewrite H2. vm_compute. reflexivity.
Defined.

Lemma null_ratios_cannot_be_shown_witness :
  exists s', runGroups [TypeJson GroupRatioText (js "null"); Save sevenTimes] sampleTexts = Some s' /\ handleGroups s' ToggleView = None.
Proof.
  destruct (null_ratios_cannot_be_shown sampleTexts sevenTimes eq_refl sample_valid ltac:(vm_compute; congruence)
    (proj1 sample_accepted) (proj2 sample_accepted)) as (s' & H1 & _ & H2 & _).
  exists s'. exact (conj H1 H2).
Defined.

Lemma sample_in_sync : inSyncGroups samplePage.
Proof. intros [[]|]; vm_compute; reflexivity. Qed.

Lemma sample_units : groupUnits samplePage.
Proof.
  split.
  - intros []; apply (bool_decide_unpack _); vm_compute; reflexivity.
  - intros f x. change (groupServer samplePage) with (groupValueAt sampleGroups).
    intros [= <-]. destruct f; apply (bool_decide_unpack _); vm_compute; reflexivity.
Qed.

(** A row without a name is added to a table that shows the texts. *)
Definition editedPage : GroupPage :=
  match runGroups [InVisual AddRow; InVisual (UpdateRow (groupId 7) (InName []))] samplePage with Some s => s | None => samplePage end.
Definition editedVisual : Visual := match visual editedPage with Some v => v | None => sampleVisual end.

Lemma saved_table_stays_witness :
  exists s1 s2, handleGroups editedPage (Save sevenTimes) = Some s1 /\ handleGroups s1 Refetched = Some s2 /\
    visual s2 = Some editedVisual /\ length (rows editedVisual) = 4%nat.
Proof.
  assert (visual editedPage = Some editedVisual) as Hv by (vm_compute; reflexivity).
  assert (inSyncGroups editedPage) as Hs by (intros [[]|]; vm_compute; reflexivity).
  assert (groupUnits editedPage) as Hu.
  { split; [intros []; apply (bool_decide_unpack _); vm_compute; reflexivity|]. intros f x H.
    assert (groupServer editedPage (GText f) = groupServer samplePage (GText f)) as E by (destruct f; vm_compute; reflexivity).
    rewrite E in H. exact (proj2 sample_units f x H). }
  assert (validGroups (groupForm editedPage) = true) as Hval by (vm_compute; reflexivity).
  assert (groupPricingSignature (rows editedVisual)
          = sourceGroupPricingSignature (textOf editedPage GroupRatioText) (textOf editedPage UserUsableGroups)) as Hsig by (vm_compute; reflexivity).
  destruct (handleGroups editedPage (Save sevenTimes)) as [s1|] eqn:H1.
  - destruct (handleGroups s1 Refetched) as [s2|] eqn:H2.
    + exists s1, s2. split; [reflexivity|]. split; [exact H2|].
      split; [exact (proj2 (saved_table_stays editedPage editedVisual sevenTimes s1 s2 Hv Hs Hu Hval (proj1 sample_accepted) (proj2 sample_accepted) Hsig H1 H2))|].
      vm_compute. reflexivity.
    + exfalso. assert (bool_decide (is_Some (s ← handleGroups editedPage (Save sevenTimes); handleGroups s Refetched)) = true) as H
        by (vm_compute; reflexivity).
      rewrite H1 in H. cbn [mbind option_bind] in H. rewrite H2 in H. discriminate H.
  - exfalso. assert (bool_decide (is_Some (handleGroups editedPage (Save sevenTimes))) = true) as H by (vm_compute; reflexivity).
    rewrite H1 in H. discriminate H.
Defined.

Lemma override_is_saved_witness :
  exists x, saveOverride (js "vip") (js "trial") (JNum one) None (js "{}") = Some x /\ overrideAt x (js "vip") (js "trial") = Some (JNum one).
Proof.
  destruct (override_is_saved (js "{}") (js "vip") (js "trial") (JNum one)) as (x & H1 & H2).
  - split; [split; [apply (bool_decide_unpack _); vm_compute; reflexivity|exists []; vm_compute; reflexivity]|].
    intros g v H. assert (safeJsonParse (js "{}") = JObj []) as E by (vm_compute; reflexivity). rewrite E in H. discriminate H.
  - apply (bool_decide_unpack _). vm_compute. reflexivity.
  - apply (bool_decide_unpack _). vm_compute. reflexivity.
  - constructor.
  - exists x. split; [exact H1|]. rewrite H2. vm_compute. reflexivity.
Defined.

Lemma auto_group_move_is_undone_witness :
  exists text', handleAutoGroupMove 1 Up (groupTexts sampleGroups AutoGroups) = Some (Some text') /\
    safeJsonParseList text' = JArr [JStr (js "vip"); JStr (js "default")].
Proof.
  destruct (auto_group_move_is_undone (groupTexts sampleGroups AutoGroups) [JStr (js "default"); JStr (js "vip")] 1) as (x & H1 & H2 & _).
  - apply (bool_decide_unpack _). vm_compute. reflexivity.
  - vm_compute. reflexivity.
  - cbn. lia.
  - exists x. split; [exact H1|]. rewrite H2. vm_compute. reflexivity.
Defined.

End GroupRatioProperties.
