(* ===== verification/TierTexts.v ===== *)
(** * Generated tiers and the splitter

    The expression that the generator writes for tiers, combined with the text
    of request rules, is split into the two again: the products of the prices
    are inside the parentheses of the tiers. *)

From S2P Require Import Prelude JsString JsCollections Json JsonNumber JsonText JsValue BillingExpr BillingExprFacts BillingExprProperties Regex TierExpr TierExprFacts TierExprProperties.
Import Json BillingExprFacts TierExpr TierExprFacts TierExprProperties.

Module TierTexts.

Definition noParen (s : jsstr) : Prop := Forall (fun c => c <> 40 /\ c <> 41) s.

Lemma noParen_level s : noParen s -> level s.
Proof.
  intros H. induction H as [|c s [H1 H2] _ [IH1 IH2]]; [by split|].
  assert (forall d, BillingExpr.depth_step d c = d) as Hd.
  { intros d. unfold BillingExpr.depth_step. replace (c =? 40) with false by lia. by replace (c =? 41) with false by lia. }
  split.
  - intros d. cbn. rewrite Hd. apply IH1.
  - intros d Hle. cbn. rewrite Hd. split; [done|by apply IH2].
Qed.

Lemma level_parens s : level s -> level (js "(" ++ s ++ js ")").
Proof.
  intros [A2 A3]. split.
  - intros d. rewrite !depth_after_app, A2. change (d + 1 - 1 = d). lia.
  - intros d Hd. rewrite !stays_inside_app. change (depth_after (js "(") d) with (d + 1). rewrite A2.
    split_and!; [change (1 <= d + 1 /\ True); lia|apply A3; lia|change (1 <= d + 1 - 1 /\ True); lia].
Qed.

Lemma passes_app sep a b : passes sep a -> passes sep b -> passes sep (a ++ b).
Proof. intros Ha Hb rest cur. by rewrite <- !app_assoc, Ha, Hb, app_assoc. Qed.

(** ** The text of a tier *)

(** A text outside the parentheses: no parenthesis and no star. *)
Definition flat (s : jsstr) : Prop := Forall (fun c => c <> 40 /\ c <> 41 /\ c <> 42) s.

Definition flatb (s : jsstr) : bool := forallb (fun c => negb (bool_decide (c ∈ [40; 41; 42]))) s.

Lemma flatb_flat s : flatb s = true -> flat s.
Proof.
  unfold flatb. rewrite forallb_forall. intros H. apply Forall_forall. intros c Hc. apply list_elem_of_In in Hc.
  specialize (H c Hc). bool_hyps. rewrite !not_elem_of_cons in H. naive_solver.
Qed.

Lemma flat_noParen s : flat s -> noParen s.
Proof. intros H. eapply Forall_impl; [exact H|]. naive_solver. Qed.

Lemma flat_star s : flat s -> 42 ∉ s.
Proof. unfold flat. rewrite Forall_forall. intros H Hin. by apply H in Hin as (_ & _ & ?). Qed.

Lemma num_char_flat c : BillingExpr.num_char c = true -> c <> 40 /\ c <> 41 /\ c <> 42.
Proof. intros H%num_char_spec. rewrite !elem_of_cons, elem_of_nil in H. lia. Qed.

Lemma num_text_flat n : flat (JsonNumber.num_text n).
Proof. eapply Forall_impl; [apply num_text_chars|]. apply num_char_flat. Qed.

Lemma condition_flat cd : cond_ok cd -> flat (conditionText cd).
Proof.
  intros (n & Hv & _). unfold conditionText. rewrite Hv. unfold flat. rewrite !Forall_app.
  split_and!; [destruct (c_var cd)|..|destruct (c_op cd)| |]; try by apply flatb_flat. apply num_text_flat.
Qed.

Lemma conds_flat cd cds : Forall cond_ok (cd :: cds) -> flat (condsText cd cds).
Proof.
  intros [Hc Hcs]%Forall_cons. unfold condsText, moreText, flat. apply Forall_app. split; [by apply condition_flat|].
  induction Hcs as [|x xs Hx _ IH]; [constructor|]. cbn [map concat]. rewrite !Forall_app.
  split_and!; [by apply flatb_flat|by apply condition_flat|done].
Qed.

(** What is before and what is between the parentheses of a tier. *)
Definition lead (t : VisualTier) : jsstr :=
  match conds t with [] => [] | cd :: cds => condsText cd cds ++ js " ? " end ++ js "tier".
Definition inner (t : VisualTier) : jsstr :=
  jq "'" ++ labelText t ++ jq "', " ++ buildTierBodyExpr t.

Lemma partText_shape t : partText t = lead t ++ js "(" ++ inner t ++ js ")".
Proof.
  unfold partText, lead, tierText, inner. rewrite <- !app_assoc. f_equal.
Qed.

Lemma lead_flat t : tier_ok t -> flat (lead t).
Proof.
  intros Ht. unfold lead, flat. apply Forall_app. split; [|by apply flatb_flat].
  destruct (conds t) as [|cd cds] eqn:E; [constructor|]. apply Forall_app. split; [|by apply flatb_flat].
  apply conds_flat. rewrite <- E. apply Ht.
Qed.

Lemma lead_ends t : start_ok (lead t) /\ end_ok (lead t).
Proof.
  unfold lead. split; [|by apply end_ok_app]. destruct (conds t) as [|cd cds]; [done|].
  unfold condsText, conditionText. by destruct (c_var cd).
Qed.

Lemma coefficient_noParen v n : noParen v -> noParen (coefficient v n).
Proof.
  intros Hv. unfold coefficient, noParen. rewrite !Forall_app.
  split_and!; [done|by repeat constructor|by apply flat_noParen, num_text_flat].
Qed.

Lemma extra_noParen g l : Forall (fun fv => noParen fv.2) l -> noParen (extra g l).
Proof.
  intros H. unfold extra. induction H as [|[f v] l Hv _ IH]; [constructor|]. cbn [omap list_omap].
  destruct (mant (g f) =? 0); [done|]. cbn [concat]. unfold noParen. rewrite !Forall_app.
  split_and!; [by repeat constructor|by apply coefficient_noParen|done].
Qed.

Lemma inner_noParen t : noParen (labelText t) -> noParen (inner t).
Proof.
  intros Hl. unfold inner, noParen. rewrite !Forall_app. split_and!; [by repeat constructor|done|by repeat constructor|].
  rewrite buildTierBodyExpr_text. unfold bodyText. rewrite !Forall_app.
  split_and!; [apply coefficient_noParen; by repeat constructor|by repeat constructor|apply coefficient_noParen; by repeat constructor|].
  apply extra_noParen. assert (forallb (fun fv => flatb fv.2) BILLING_CACHE_VAR_MAP = true) as H by (by vm_compute).
  rewrite forallb_forall in H. apply Forall_forall. intros fv Hin. apply list_elem_of_In in Hin.
  by apply flat_noParen, flatb_flat, H.
Qed.

(** ** The whole expression *)

Lemma part_passes t pre : tier_ok t -> noParen (labelText t) -> flat pre ->
  passes (js " * ") (pre ++ partText t) /\ level (pre ++ partText t).
Proof.
  intros Ht Hl Hpre. rewrite partText_shape, app_assoc. pose proof (inner_noParen t Hl) as [I1 I2]%noParen_level.
  assert (flat (pre ++ lead t)) as Hf by (apply Forall_app; split; [done|by apply lead_flat]).
  pose proof (noParen_level _ (flat_noParen _ Hf)) as Hlv. split.
  - apply passes_app; [|apply passes_parens; [by apply I2|by apply I1]].
    apply passes_flat; [by apply flat_star|apply end_ok_app, lead_ends|apply Hlv].
  - apply level_app; [done|]. by apply level_parens.
Qed.

Lemma sep_passes tiers : Forall tier_ok tiers -> Forall (fun t => noParen (labelText t)) tiers ->
  passes (js " * ") (sepText tiers) /\ level (sepText tiers).
Proof.
  intros Hok Hl. induction Hok as [|t tiers Ht _ IH]; [split; [intros rest cur; by rewrite app_nil_r|by split]|].
  inversion Hl as [|? ? Hlt Hls]; subst. destruct (IH Hls) as [P L].
  destruct (part_passes t (js " : ") Ht Hlt) as [P1 L1]; [by apply flatb_flat|].
  change (sepText (t :: tiers)) with ((js " : " ++ partText t) ++ sepText tiers).
  split; [by apply passes_app|by apply level_app].
Qed.

Lemma part_end t : exists s, partText t = s ++ [41].
Proof. rewrite partText_shape. exists (lead t ++ js "(" ++ inner t). by rewrite <- !app_assoc. Qed.

Lemma expr_end t tiers : exists s, partText t ++ sepText tiers = s ++ [41].
Proof.
  revert t. induction tiers as [|u tiers IH]; intros t.
  - destruct (part_end t) as [s E]. exists s. unfold sepText. cbn. by rewrite app_nil_r.
  - destruct (IH u) as [s E]. exists (partText t ++ js " : " ++ s).
    change (sepText (u :: tiers)) with ((js " : " ++ partText u) ++ sepText tiers).
    rewrite <- !app_assoc. by rewrite E.
Qed.

(** What the splitter needs of the expression. *)
Lemma expr_shape t tiers (X := partText t ++ sepText tiers) :
  Forall tier_ok (t :: tiers) -> Forall (fun t => noParen (labelText t)) (t :: tiers) ->
  start_ok X /\ end_ok X /\ passes (js " * ") X /\ level X /\ endsWith X (js " : 1") = false /\
  BillingExpr.hasFullOuterParens X = false.
Proof.
  intros [Ht Hok]%Forall_cons [Hlt Hl]%Forall_cons. subst X.
  destruct (part_passes t [] Ht Hlt) as [P L]; [constructor|]. cbn [app] in P, L.
  destruct (sep_passes tiers Hok Hl) as [P' L']. destruct (expr_end t tiers) as [s E].
  destruct (lead_ends t) as [Hs _]. pose proof (lead_flat t Ht) as Hf.
  split_and!.
  - apply start_ok_app. rewrite partText_shape. by apply start_ok_app.
  - rewrite E. by apply end_ok_app.
  - by apply passes_app.
  - by apply level_app.
  - rewrite E. unfold endsWith. by rewrite rev_app_distr.
  - unfold BillingExpr.hasFullOuterParens. rewrite partText_shape. destruct (lead t) as [|c l]; [done|].
    apply Forall_cons in Hf as [[Hc _] _]. change (js "(") with [40]. cbn [app startsWith].
    replace (40 =? c) with false by lia. done.
Qed.

Lemma generated_split tiers gs :
  tiers_ok tiers -> Forall (fun t => noParen (labelText t)) tiers -> forallb readable_group gs = true ->
  let X := generateExprFromVisualConfig (Some tiers) in let R := BillingExpr.buildRequestRuleExpr gs in
  BillingExpr.splitBillingExprAndRequestRules (BillingExpr.combineBillingExpr X R) = Some (BillingExpr.mkSplit X R) /\
  truthy (BillingExpr.combineBillingExpr X R) = true.
Proof.
  intros Hok Hl Hr. cbv zeta. destruct tiers as [|t tiers]; [done|]. rewrite generate_text by done.
  destruct (expr_shape t tiers (tiers_ok_all _ Hok) Hl) as (Hs & He & Hp & [L1 L2] & Hend & Hfull).
  set (X := partText t ++ sepText tiers) in *. pose proof (trim_ends X Hs He) as Ht. pose proof (start_not_nil X Hs) as Hn.
  assert (truthy X = true) as HX by (by destruct X).
  destruct gs as [|g gs].
  - change (BillingExpr.buildRequestRuleExpr []) with ([] : jsstr).
    assert (BillingExpr.combineBillingExpr X [] = X) as ->.
    { unfold BillingExpr.combineBillingExpr. rewrite Ht, HX. done. }
    split; [|done]. unfold BillingExpr.splitBillingExprAndRequestRules. rewrite Ht, HX. cbn [negb].
    assert (BillingExpr.splitTopLevelMultiply X = [X]) as ->; [|done].
    destruct (BillingExprProperties.split_product [X]) as (H & _); [done|by repeat constructor|exact H].
  - destruct (BillingExprProperties.split_undoes_combine X (g :: gs)) as (H & _ & Hu);
      [done|done|split; [by apply L2|apply L1]|done|done|done|].
    rewrite Hu in H by done. split; [exact H|]. unfold BillingExpr.combineBillingExpr. rewrite Ht, HX. cbn [negb].
    by destruct (truthy (trim _)); cbn [negb].
Qed.

End TierTexts.
