(* ===== verification/TieredEditor.v ===== *)
(** * The editor of tiered prices: its operations

    The controls of [features/system-settings/models/tiered-pricing-editor.tsx]:
    the input of a number, the cards of the tiers, the rows and the cards of
    the request rules and the presets.  A callback is the function of what it
    is given to what it hands to [onChange]; a control that is not there or is
    disabled does nothing.  A number is a decimal, as in the tiers. *)

From S2P Require Import Prelude JsString JsCollections Json JsonNumber JsonText JsValue BillingExpr Regex TierExpr.
Import Json JsValue TierExpr.
Import BillingExpr (CTime, CParamHeader, mkPH, mkTime, mkGroup, FHour, FWeekday, SParam, SHeader, RequestCondition,
  RequestRuleGroup, TimeFunc, MATCH_EQ, MATCH_CONTAINS, MATCH_RANGE, MATCH_EXISTS).

Module TieredEditor.

(** ** The input of a number *)

(** The prop [value]: a number, where [VNum None] is NaN, or a text. *)
Definition formatNumberDraft (value : CondValue) : jsstr :=
  match value with
  | VText s => s
  | VNum (Some n) => JsonNumber.num_text n
  | VNum None => js "0"
  end.

Definition parseNumberDraft (value : jsstr) : jnum :=
  if negb (truthy (trim value)) then zero else num_of_text value ?? zero.

Definition isZeroDraft (value : jsstr) : bool := truthy (trim value) && (mant (parseNumberDraft value) =? 0).

Record Draft := mkDraft { draft : jsstr; focused : bool }.

Definition mountDraft (value : CondValue) : Draft := mkDraft (formatNumberDraft value) false.

(** The effect, which runs when the focus or the value has changed. *)
Definition draftEffect (value : CondValue) (d : Draft) : Draft :=
  if focused d then d else mkDraft (formatNumberDraft value) (focused d).

Inductive DraftEvent := DType (text : jsstr) | DFocus | DBlur.

(** The draft and the number handed to [onValueChange]. *)
Definition draftStep (d : Draft) (ev : DraftEvent) : Draft * option jnum :=
  match ev with
  | DType nextDraft => (mkDraft nextDraft (focused d), Some (parseNumberDraft nextDraft))
  | DFocus => (mkDraft (draft d) true, None)
  | DBlur =>
      let normalized := parseNumberDraft (draft d) in
      (mkDraft (JsonNumber.num_text normalized) false, Some normalized)
  end.

(** [Number(uc) || 0] *)
Definition unitCostToPrice (uc : option jnum) : jnum := or_zero uc.
Definition priceToUnitCost (price : jnum) : jnum := or_zero (Some price).

(** ** A condition of a tier *)

(** A number input reports the number of its text. *)
Inductive ConditionAction := SetVar (v : TierVar) | SetOp (o : TierOp) | SetValue (text : jsstr).

Definition conditionRow (a : ConditionAction) (c : TierConditionInput) : TierConditionInput :=
  match a with
  | SetVar v => mkCond v (c_op c) (c_value c)
  | SetOp o => mkCond (c_var c) o (c_value c)
  | SetValue text => mkCond (c_var c) (c_op c) (VNum (Some (parseNumberDraft text)))
  end.

(** ** The card of a tier *)

Inductive PriceKey := InputCost | OutputCost | ExtraCost (f : jsstr).

Definition withLabel (l : jsstr) (t : VisualTier) : VisualTier :=
  mkTier (Some l) (conditions t) (input_unit_cost t) (output_unit_cost t) (cache_mode t) (costs t).
Definition withConditions (cs : list TierConditionInput) (t : VisualTier) : VisualTier :=
  mkTier (label t) (Some cs) (input_unit_cost t) (output_unit_cost t) (cache_mode t) (costs t).
Definition withPrice (field : PriceKey) (value : jnum) (t : VisualTier) : VisualTier :=
  match field with
  | InputCost => mkTier (label t) (conditions t) (Some (Some value)) (output_unit_cost t) (cache_mode t) (costs t)
  | OutputCost => mkTier (label t) (conditions t) (input_unit_cost t) (Some (Some value)) (cache_mode t) (costs t)
  | ExtraCost f =>
      mkTier (label t) (conditions t) (input_unit_cost t) (output_unit_cost t) (cache_mode t) (map_set (costs t) f (Some value))
  end.

(** The conditions of the tier; a normalized tier has them. *)
Definition tierConditions (t : VisualTier) : list TierConditionInput := conditions t ?? [].

Definition handleConditionChange (i : nat) (next : TierConditionInput) (t : VisualTier) : VisualTier :=
  withConditions (<[i := next]> (tierConditions t)) t.

Definition handleConditionRemove (i : nat) (t : VisualTier) : VisualTier :=
  withConditions (delete i (tierConditions t)) t.

Definition handlePriceChange (field : PriceKey) (value : jnum) (t : VisualTier) : VisualTier := withPrice field value t.

Definition handleCacheModeChange (mode : CacheMode) (t : VisualTier) : VisualTier :=
  let v := match mode with
           | CACHE_MODE_TIMED => map_get (costs t) (js "cache_create_1h_unit_cost") ?? Some zero
           | CACHE_MODE_GENERIC => Some zero
           end in
  mkTier (label t) (conditions t) (input_unit_cost t) (output_unit_cost t) (Some mode)
    (map_set (costs t) (js "cache_create_1h_unit_cost") v).

Definition CACHE_PRICE_VARS : list BillingVar := List.filter (fun v => bool_decide (group_ v = Some (js "cache"))) BILLING_EXTRA_VARS.
Definition MEDIA_PRICE_VARS : list BillingVar := List.filter (fun v => bool_decide (group_ v = Some (js "media"))) BILLING_EXTRA_VARS.

(** The variable's price is shown: a price per hour only for a timed cache. *)
Definition priceShown (t : VisualTier) (v : BillingVar) : bool :=
  negb (bool_decide (key v = js "cc1h") && match getTierCacheMode t with CACHE_MODE_TIMED => false | _ => true end).

Definition hasMediaPricing (t : VisualTier) : bool :=
  existsb (fun v => 0 <? mant (unitCostToPrice (map_get (costs t) (or_empty (tierField v)) ?? Some zero))) MEDIA_PRICE_VARS.

(** The fields which the card has an input for. *)
Definition extraFields (t : VisualTier) : list jsstr :=
  map (fun v => or_empty (tierField v)) (List.filter (priceShown t) CACHE_PRICE_VARS ++ MEDIA_PRICE_VARS).

Inductive TierAction :=
| ChangeLabel (s : jsstr)
| ChangeCondition (i : nat) (a : ConditionAction)
| RemoveCondition (i : nat)
| ChangePrice (field : PriceKey) (text : jsstr)
| ChangeCacheMode (mode : CacheMode).

(** What the card hands to [onChange], if the control is there. *)
Definition tierCard (a : TierAction) (t : VisualTier) : option VisualTier :=
  match a with
  | ChangeLabel s => Some (withLabel s t)
  | ChangeCondition i a => c ← tierConditions t !! i; Some (handleConditionChange i (conditionRow a c) t)
  | RemoveCondition i => _ ← tierConditions t !! i; Some (handleConditionRemove i t)
  | ChangePrice field text =>
      let shown := match field with ExtraCost f => bool_decide (f ∈ extraFields t) | _ => true end in
      if shown then Some (handlePriceChange field (priceToUnitCost (parseNumberDraft text)) t) else None
  | ChangeCacheMode mode => Some (handleCacheModeChange mode t)
  end.

(** ** The list of tiers *)

Definition handleTierChange (index : nat) (next : VisualTier) (config : list VisualTier) : list VisualTier :=
  <[index := normalizeVisualTier next]> config.

(** The condition that a new tier or a new condition starts with. *)
Definition defaultBound (v : TierVar) : TierConditionInput := mkCond v Lt (VNum (Some (mkNum 200000 0))).

Definition handleAddTier (config : list VisualTier) : list VisualTier :=
  let tiers :=
    match last config with
    | Some t =>
        if (length (tierConditions t) =? 0)%nat
        then <[pred (length config) := normalizeVisualTier (withConditions [defaultBound VarLen] t)]> config
        else config
    | None => config
    end in
  tiers ++ [normalizeVisualTier
              (mkTier (Some (js "tier_" ++ showZ (Z.of_nat (length tiers) + 1))) (Some []) (Some (Some zero)) (Some (Some zero)) None [])].

Definition handleRemoveTier (index : nat) (config : list VisualTier) : list VisualTier :=
  match delete index config with [] => config | tiers => tiers end.

Definition is_len (c : TierConditionInput) : bool := match c_var c with VarLen => true | _ => false end.

Definition handleAddCondition (index : nat) (config : list VisualTier) : option (list VisualTier) :=
  tier ← config !! index;
  if (2 <=? length (tierConditions tier))%nat then None
  else
    let nextVar := if existsb is_len (tierConditions tier) then VarC else VarLen in
    Some (<[index := withConditions (tierConditions tier ++ [defaultBound nextVar]) tier]> config).

Inductive VisualAction :=
| OnTier (index : nat) (a : TierAction)
| AddTier
| RemoveTier (index : nat)
| AddCondition (index : nat).

(** What the editor of tiers hands to [onChange]; a single tier cannot be
    removed, and a tier with two conditions gets no third. *)
Definition visualEditor (a : VisualAction) (visualConfig : option (list VisualTier)) : option (list VisualTier) :=
  let config := normalizeVisualConfig visualConfig in
  match a with
  | OnTier index a => t ← config !! index; next ← tierCard a t; Some (handleTierChange index next config)
  | AddTier => Some (handleAddTier config)
  | RemoveTier index =>
      _ ← config !! index; if (length config <=? 1)%nat then None else Some (handleRemoveTier index config)
  | AddCondition index => handleAddCondition index config
  end.

(** ** Request rules *)

Inductive RuleConditionAction :=
| ChangeSource (source : jsstr)
| ChangeMatch (mode : jsstr)
| ChangeTimeFunc (f : TimeFunc)
| ChangeTimezone (tz : jsstr)
| ChangeRangeStart (text : jsstr)
| ChangeRangeEnd (text : jsstr)
| ChangePath (s : jsstr)
| ChangeValue (s : jsstr).

Definition handleSourceChange (source : jsstr) : option RequestCondition :=
  if bool_decide (source = BillingExpr.SOURCE_TIME) then Some (CTime BillingExpr.createEmptyTimeCondition)
  else if bool_decide (source = BillingExpr.SOURCE_HEADER) then
    Some (CParamHeader (mkPH SHeader [] MATCH_EQ []))
  else if bool_decide (source = BillingExpr.SOURCE_PARAM) then Some (CParamHeader BillingExpr.createEmptyCondition)
  else None.

Definition handleModeChange_rule (mode : jsstr) (c : RequestCondition) : RequestCondition :=
  match c with
  | CTime t => CTime (mkTime (BillingExpr.timeFunc t) (BillingExpr.timezone t) mode (BillingExpr.t_value t)
                        (BillingExpr.rangeStart t) (BillingExpr.rangeEnd t))
  | CParamHeader c => CParamHeader (mkPH (BillingExpr.ph_source c) (BillingExpr.ph_path c) mode (BillingExpr.ph_value c))
  end.

(** The texts of a time condition come from number inputs: [String(value)]. *)
Definition draftText (text : jsstr) : jsstr := JsonNumber.num_text (parseNumberDraft text).

Definition timeConditionRow (a : RuleConditionAction) (t : BillingExpr.TimeCondition) : option BillingExpr.TimeCondition :=
  let '(mkTime f tz mode v s e) := t in
  let range := bool_decide (mode = MATCH_RANGE) in
  match a with
  | ChangeTimeFunc f' => Some (mkTime f' tz mode v s e)
  | ChangeTimezone tz' => Some (mkTime f tz' mode v s e)
  | ChangeRangeStart x => if range then Some (mkTime f tz mode v (draftText x) e) else None
  | ChangeRangeEnd x => if range then Some (mkTime f tz mode v s (draftText x)) else None
  | ChangeValue x => if range then None else Some (mkTime f tz mode (draftText x) s e)
  | _ => None
  end.

Definition paramHeaderRow (a : RuleConditionAction) (c : BillingExpr.ParamHeaderCondition)
    : option BillingExpr.ParamHeaderCondition :=
  let '(mkPH src path mode v) := c in
  match a with
  | ChangePath s => Some (mkPH src s mode v)
  | ChangeValue s => if bool_decide (mode = MATCH_EXISTS) then None else Some (mkPH src path mode s)
  | _ => None
  end.

Definition ruleConditionRow (a : RuleConditionAction) (c : RequestCondition) : option RequestCondition :=
  match a, c with
  | ChangeSource source, _ => handleSourceChange source
  | ChangeMatch mode, _ => Some (handleModeChange_rule mode c)
  | _, CTime t => CTime <$> timeConditionRow a t
  | _, CParamHeader c => CParamHeader <$> paramHeaderRow a c
  end.

Inductive RuleGroupAction :=
| ChangeRuleCondition (i : nat) (a : RuleConditionAction)
| RemoveRuleCondition (i : nat)
| AddRuleCondition (timeMode : bool)
| ChangeMultiplier (text : jsstr).

Definition ruleGroupCard (a : RuleGroupAction) (group : RequestRuleGroup) : option RequestRuleGroup :=
  let cs := BillingExpr.conditions group in
  let m := BillingExpr.multiplier group in
  match a with
  | ChangeRuleCondition i a => c ← cs !! i; next ← ruleConditionRow a c; Some (mkGroup (<[i := next]> cs) m)
  | RemoveRuleCondition i => _ ← cs !! i; Some (mkGroup (delete i cs) m)
  | AddRuleCondition timeMode =>
      let c := if timeMode then CTime BillingExpr.createEmptyTimeCondition else CParamHeader BillingExpr.createEmptyCondition in
      Some (mkGroup (cs ++ [c]) m)
  | ChangeMultiplier text => Some (mkGroup cs (draftText text))
  end.

Inductive RuleAction := OnGroup (index : nat) (a : RuleGroupAction) | AddGroup | RemoveGroup (index : nat).

(** What is handed to [handleRuleGroupsChange]. *)
Definition ruleGroups (a : RuleAction) (groups : list RequestRuleGroup) : option (list RequestRuleGroup) :=
  match a with
  | OnGroup i a => g ← groups !! i; next ← ruleGroupCard a g; Some (<[i := next]> groups)
  | AddGroup => Some (groups ++ [BillingExpr.createEmptyRuleGroup])
  | RemoveGroup i => _ ← groups !! i; Some (delete i groups)
  end.

(** ** Presets *)

Record Preset := mkPreset { p_key : jsstr; p_label : jsstr; p_expr : jsstr; p_requestRules : option (list RequestRuleGroup) }.
Record PresetGroup := mkPresetGroup { pg_group : jsstr; pg_presets : list Preset }.

Definition preset (k l e : string) : Preset := mkPreset (js k) (js l) (jq e) None.
Definition presetRules (k l e : string) (rules : list RequestRuleGroup) : Preset := mkPreset (js k) (js l) (jq e) (Some rules).

(** A rule of one condition. *)
Definition rule1 (c : RequestCondition) (m : string) : RequestRuleGroup := mkGroup [c] (js m).

Definition PRESET_GROUPS : list PresetGroup :=
  [ mkPresetGroup (js "Fixed price")
      [ preset "flat" "Flat" "tier('base', p * 2 + c * 4)";
        preset "claude-opus" "Claude Opus 4.6" "tier('base', p * 5 + c * 25 + cr * 0.5 + cc * 6.25 + cc1h * 10)";
        preset "gpt-5.4" "GPT-5.4"
          "len <= 272000 ? tier('standard', p * 2.5 + c * 15 + cr * 0.25) : tier('long_context', p * 5 + c * 22.5 + cr * 0.5)" ];
    mkPresetGroup (js "Tiered")
      [ preset "claude-sonnet" "Claude Sonnet 4.5"
          "len <= 200000 ? tier('standard', p * 3 + c * 15 + cr * 0.3 + cc * 3.75 + cc1h * 6) : tier('long_context', p * 6 + c * 22.5 + cr * 0.6 + cc * 7.5 + cc1h * 12)";
        preset "qwen3-max" "Qwen3 Max"
          "len <= 32000 ? tier('short', p * 1.2 + c * 6 + cr * 0.24 + cc * 1.5) : len <= 128000 ? tier('mid', p * 2.4 + c * 12 + cr * 0.48 + cc * 3) : tier('long', p * 3 + c * 15 + cr * 0.6 + cc * 3.75)";
        preset "glm-4.5-air" "GLM-4.5 Air"
          "len < 32000 && c < 200 ? tier('short_output', p * 0.8 + c * 2 + cr * 0.16) : len < 32000 && c >= 200 ? tier('long_output', p * 0.8 + c * 6 + cr * 0.16) : tier('mid_context', p * 1.2 + c * 8 + cr * 0.24)";
        preset "doubao-seed-1.8" "Doubao Seed 1.8"
          "len <= 32000 && c <= 200 ? tier('discount', p * 0.8 + c * 2 + cr * 0.16 + cc * 0.17) : len <= 32000 ? tier('short', p * 0.8 + c * 8 + cr * 0.16 + cc * 0.17) : len <= 128000 ? tier('mid', p * 1.2 + c * 16 + cr * 0.16 + cc * 0.17) : tier('long', p * 2.4 + c * 24 + cr * 0.16 + cc * 0.17)" ];
    mkPresetGroup (js "Multimodal")
      [ preset "gpt-image-1-mini" "GPT Image 1 Mini" "tier('base', p * 2 + c * 8 + img * 2.5)";
        preset "gemini-2.5-flash" "Gemini 2.5 Flash" "tier('base', p * 0.3 + c * 2.5 + cr * 0.03 + ai * 1.0)";
        preset "gemini-3-pro-image" "Gemini 3 Pro Image" "tier('base', p * 2 + c * 12 + img_o * 120)";
        preset "qwen3-omni-flash" "Qwen3 Omni Flash" "tier('base', p * 0.43 + c * 3.06 + img * 0.78 + ai * 3.81 + ao * 15.11)" ];
    mkPresetGroup (js "Request rule")
      [ presetRules "claude-opus-fast" "Claude Opus 4.6 Fast" "tier('base', p * 5 + c * 25 + cr * 0.5 + cc * 6.25 + cc1h * 10)"
          [rule1 (CParamHeader (mkPH SHeader (js "anthropic-beta") MATCH_CONTAINS (js "fast-mode-2026-02-01"))) "6"];
        presetRules "gpt-5.4-tiers" "GPT-5.4 Priority/Flex"
          "len <= 272000 ? tier('standard', p * 2.5 + c * 15 + cr * 0.25) : tier('long_context', p * 5 + c * 22.5 + cr * 0.5)"
          [rule1 (CParamHeader (mkPH SParam (js "service_tier") MATCH_EQ (js "priority"))) "2";
           rule1 (CParamHeader (mkPH SParam (js "service_tier") MATCH_EQ (js "flex"))) "0.5"] ];
    mkPresetGroup (js "Time-based")
      [ presetRules "night-discount" "Night discount (50%)" "tier('base', p * 3 + c * 15)"
          [rule1 (CTime (mkTime FHour (js "Asia/Shanghai") MATCH_RANGE [] (js "21") (js "6"))) "0.5"];
        presetRules "weekend-discount" "Weekend discount (80%)" "tier('base', p * 3 + c * 15)"
          [rule1 (CTime (mkTime FWeekday (js "Asia/Shanghai") MATCH_EQ (js "0") [] [])) "0.8";
           rule1 (CTime (mkTime FWeekday (js "Asia/Shanghai") MATCH_EQ (js "6") [] [])) "0.8"] ] ].

(** The groups that are shown. *)
Definition visiblePresets (expanded : bool) : list PresetGroup := if expanded then PRESET_GROUPS else take 2 PRESET_GROUPS.

End TieredEditor.
