(* ===== verification/TieredEditorMachine.v ===== *)
(** * The editor of tiered prices: its state

    [TieredPricingEditor] of
    [features/system-settings/models/tiered-pricing-editor.tsx]: the state, the
    four effects that run after each commit, in their order and with the values
    of the render that they belong to, and the handlers.  The texts of the
    expression and of the rules are kept by the parent and come back as props.
    [None] is an exception while the component renders or in an effect, which
    takes the component down; one in a handler ends the handler. *)

From S2P Require Import Prelude JsString JsCollections Json JsonNumber JsonText JsValue BillingExpr Regex TierExpr TieredEditor ModelPricing ModelPricingPanel.
Import Json TierExpr TieredEditor.
Import BillingExpr (RequestRuleGroup, tryParseRequestRuleExpr, buildRequestRuleExpr, combineBillingExpr,
  splitBillingExprAndRequestRules).

Module TieredEditorMachine.

Inductive EditorMode := Visual | Raw.

#[export] Instance EditorMode_eq_dec : EqDecision EditorMode.
Proof. solve_decision. Defined.

(** The props; the callbacks [onBillingExprChange] and
    [onRequestRuleExprChange] set the two texts. *)
Record Props := mkProps { modelName : jsstr; currentExpr : jsstr; currentRequestRuleExpr : jsstr }.

Definition onBillingExprChange (next : jsstr) (p : Props) : Props := mkProps (modelName p) next (currentRequestRuleExpr p).
Definition onRequestRuleExprChange (next : jsstr) (p : Props) : Props := mkProps (modelName p) (currentExpr p) next.

(** [seen] is the props of the last commit, which the dependencies of the
    effects are compared with. *)
Record Editor := mkEditor {
  editorMode : EditorMode;
  visualConfig : option (list VisualTier);
  rawExpr : jsstr;
  requestRuleGroups : list RequestRuleGroup;
  initRef : bool;
  seen : option Props }.

Definition setEditorMode (m : EditorMode) (e : Editor) : Editor :=
  mkEditor m (visualConfig e) (rawExpr e) (requestRuleGroups e) (initRef e) (seen e).
Definition setVisualConfig (c : option (list VisualTier)) (e : Editor) : Editor :=
  mkEditor (editorMode e) c (rawExpr e) (requestRuleGroups e) (initRef e) (seen e).
Definition setRawExpr (s : jsstr) (e : Editor) : Editor :=
  mkEditor (editorMode e) (visualConfig e) s (requestRuleGroups e) (initRef e) (seen e).
Definition setRequestRuleGroups (gs : list RequestRuleGroup) (e : Editor) : Editor :=
  mkEditor (editorMode e) (visualConfig e) (rawExpr e) gs (initRef e) (seen e).
Definition setInitRef (b : bool) (e : Editor) : Editor :=
  mkEditor (editorMode e) (visualConfig e) (rawExpr e) (requestRuleGroups e) b (seen e).
Definition setSeen (p : Props) (e : Editor) : Editor :=
  mkEditor (editorMode e) (visualConfig e) (rawExpr e) (requestRuleGroups e) (initRef e) (Some p).

(** [tryParseRequestRuleExpr(expr) || []] *)
Definition readGroups (expr : jsstr) : option (list RequestRuleGroup) := (fun gs => gs ?? []) <$> tryParseRequestRuleExpr expr.

(** The initial values of the state. *)
Definition mount (p : Props) : option Editor :=
  gs ← readGroups (currentRequestRuleExpr p);
  Some (mkEditor Visual (tryParseVisualConfig (Some (currentExpr p)))
    (combineBillingExpr (currentExpr p) (currentRequestRuleExpr p)) gs false None).

(** ** Rendering *)

Definition canUseVisualRules (p : Props) : option bool :=
  if negb (truthy (currentRequestRuleExpr p)) then Some true
  else (fun r => bool_decide (is_Some r)) <$> tryParseRequestRuleExpr (currentRequestRuleExpr p).

Definition effectiveExpr (e : Editor) : option jsstr :=
  match editorMode e with
  | Visual => Some (generateExprFromVisualConfig (visualConfig e))
  | Raw => BillingExpr.billingExpr <$> splitBillingExprAndRequestRules (rawExpr e)
  end.

(** ** Effects *)

(** The first effect, when its dependencies have changed. *)
Definition initEffect (p : Props) (e : Editor) : option Editor :=
  if initRef e then Some e
  else
    let e := setInitRef true e in
    let e :=
      match tryParseVisualConfig (Some (currentExpr p)) with
      | Some parsedConfig => e |> setVisualConfig (Some parsedConfig) |> setEditorMode Visual
      | None =>
          if truthy (currentExpr p) then e |> setVisualConfig None |> setEditorMode Raw
          else setVisualConfig (Some createDefaultVisualConfig) e
      end in
    let e := setRawExpr (combineBillingExpr (currentExpr p) (currentRequestRuleExpr p)) e in
    gs ← readGroups (currentRequestRuleExpr p);
    Some (setRequestRuleGroups gs e).

Definition texts (p : Props) : jsstr * jsstr := (currentExpr p, currentRequestRuleExpr p).

Definition textsChanged (p : Props) (e : Editor) : bool := negb (bool_decide (texts <$> seen e = Some (texts p))).
Definition nameChanged (p : Props) (e : Editor) : bool := negb (bool_decide (modelName <$> seen e = Some (modelName p))).

(** The third and the fourth effect compare before they call the parent, so
    that they do nothing when their dependencies are as before. *)
Definition exprEffect (effective : jsstr) (p : Props) : Props :=
  if bool_decide (effective = currentExpr p) then p else onBillingExprChange effective p.

Definition ruleEffect (e : Editor) (p : Props) : Props :=
  match editorMode e with
  | Raw => p
  | Visual =>
      let ruleExpr := buildRequestRuleExpr (requestRuleGroups e) in
      if bool_decide (ruleExpr = currentRequestRuleExpr p) then p else onRequestRuleExprChange ruleExpr p
  end.

Definition Sys : Type := Props * Editor.

(** A render with the pending updates, then its effects. *)
Definition commit (s : Sys) : option Sys :=
  let '(p, e) := s in
  _ ← canUseVisualRules p;
  effective ← effectiveExpr e;
  e1 ← (if textsChanged p e then initEffect p e else Some e);
  let e2 := if nameChanged p e then setInitRef false e1 else e1 in
  Some (ruleEffect e (exprEffect effective p), setSeen p e2).

Fixpoint commits (n : nat) (s : Sys) : option Sys :=
  match n with O => Some s | S n' => s' ← commit s; commits n' s' end.

(** Nothing is left to do. *)
Definition settled (s : Sys) : Prop := commit s = Some s.

(** As many commits as it takes; see [editor_settles]. *)
Definition settle (s : Sys) : option Sys := commits 5 s.

Definition openEditor (p : Props) : option Sys := e ← mount p; settle (p, e).

(** ** Handlers *)

Definition handleVisualChange (next : list VisualTier) (s : Sys) : Sys := (s.1, setVisualConfig (Some next) s.2).

Definition handleRawChange (value : jsstr) (s : Sys) : Sys :=
  let e := setRawExpr value s.2 in
  match splitBillingExprAndRequestRules value with
  | Some sp => (onRequestRuleExprChange (BillingExpr.requestRuleExpr sp) s.1, e)
  | None => (s.1, e)
  end.

Definition handleModeChange (next : EditorMode) (s : Sys) : Sys :=
  let '(p, e) := s in
  match next with
  | Visual =>
      match splitBillingExprAndRequestRules (rawExpr e) with
      | None => s
      | Some sp =>
          let parsed := tryParseVisualConfig (Some (BillingExpr.billingExpr sp)) in
          let e := setVisualConfig (Some (parsed ?? createDefaultVisualConfig)) e in
          match readGroups (BillingExpr.requestRuleExpr sp) with
          | None => (p, e)
          | Some gs =>
              (onRequestRuleExprChange (BillingExpr.requestRuleExpr sp) p,
               e |> setRequestRuleGroups gs |> setEditorMode next)
          end
      end
  | Raw =>
      let expr := generateExprFromVisualConfig (visualConfig e) in
      let ruleExpr := buildRequestRuleExpr (requestRuleGroups e) in
      let combined := combineBillingExpr expr ruleExpr in
      (p, e |> setRawExpr (if truthy combined then combined else expr) |> setEditorMode next)
  end.

Definition applyPreset (preset : Preset) (s : Sys) : Sys :=
  let '(p, e) := s in
  let presetGroups := p_requestRules preset ?? [] in
  let ruleExpr := buildRequestRuleExpr presetGroups in
  let combined := combineBillingExpr (p_expr preset) ruleExpr in
  let e := setRawExpr (if truthy combined then combined else p_expr preset) e in
  let e :=
    match tryParseVisualConfig (Some (p_expr preset)) with
    | Some parsed => e |> setVisualConfig (Some parsed) |> setEditorMode Visual
    | None => e |> setEditorMode Raw |> setVisualConfig None
    end in
  (onRequestRuleExprChange ruleExpr p, setRequestRuleGroups presetGroups e).

Definition handleRuleGroupsChange (next : list RequestRuleGroup) (s : Sys) : Sys := (s.1, setRequestRuleGroups next s.2).

(** ** Events *)

(** The cards of the rules are there. *)
Definition rulesShown (p : Props) : bool := negb (truthy (currentRequestRuleExpr p)) || default false (canUseVisualRules p).

Inductive Event :=
| EditTiers (a : VisualAction)
| EditRules (a : RuleAction)
| TypeRaw (value : jsstr)
| SelectMode (next : EditorMode)
| ApplyPreset (preset : Preset)
| Rename (name : jsstr).

(** What happens in a control that is there. *)
Definition dispatch (s : Sys) (ev : Event) : Sys :=
  match ev with
  | EditTiers a =>
      match editorMode s.2, visualEditor a (visualConfig s.2) with
      | Visual, Some next => handleVisualChange next s
      | _, _ => s
      end
  | EditRules a =>
      match editorMode s.2, ruleGroups a (requestRuleGroups s.2) with
      | Visual, Some next => if rulesShown s.1 then handleRuleGroupsChange next s else s
      | _, _ => s
      end
  | TypeRaw value => match editorMode s.2 with Raw => handleRawChange value s | Visual => s end
  | SelectMode next => handleModeChange next s
  | ApplyPreset preset => applyPreset preset s
  | Rename name => (mkProps name (currentExpr s.1) (currentRequestRuleExpr s.1), s.2)
  end.

(** An event, and the commits after it. *)
Definition act (s : Sys) (ev : Event) : option Sys := settle (dispatch s ev).

(** Events and commits in any order. *)
Inductive reachable (p0 : Props) : Sys -> Prop :=
| R_mount e : mount p0 = Some e -> reachable p0 (p0, e)
| R_commit s s' : reachable p0 s -> commit s = Some s' -> reachable p0 s'
| R_event s ev : reachable p0 s -> reachable p0 (dispatch s ev).

(** ** The tab of the panel *)

(** The panel of [model-pricing-sheet.tsx] mounts the editor in its tab. *)
Definition editorProps (panel : ModelPricingPanel.Panel) : Props :=
  mkProps (ModelPricingPanel.formName panel) (ModelPricingPanel.p_billingExpr panel) (ModelPricingPanel.p_requestRuleExpr panel).

(** [onBillingExprChange={setBillingExpr}] and [onRequestRuleExprChange={setRequestRuleExpr}] *)
Definition writeTexts (p : Props) (panel : ModelPricingPanel.Panel) : ModelPricingPanel.Panel :=
  panel |> ModelPricingPanel.setBillingExpr (currentExpr p) |> ModelPricingPanel.setRequestRuleExpr (currentRequestRuleExpr p).

(** The panel once the editor in its tab is at rest. *)
Definition openTab (panel : ModelPricingPanel.Panel) : option ModelPricingPanel.Panel :=
  match ModelPricingPanel.pricingMode panel with
  | ModelPricing.TieredExpr => s ← openEditor (editorProps panel); Some (writeTexts s.1 panel)
  | _ => Some panel
  end.

End TieredEditorMachine.
