(* ===== verification/TieredEditorFacts.v ===== *)
(** * Facts on the editor of tiered prices

    What a commit does, and that the effects of the editor come to rest. *)

From S2P Require Import Prelude JsString JsCollections Json JsonNumber JsonText JsValue BillingExpr BillingExprFacts BillingExprProperties Regex TierExpr TierExprFacts TierExprProperties TieredEditor TieredEditorMachine.
Import Json JsValue TierExpr TierExprProperties TieredEditor TieredEditorMachine.
Import BillingExpr (RequestRuleGroup, tryParseRequestRuleExpr, buildRequestRuleExpr, combineBillingExpr,
  splitBillingExprAndRequestRules).
#[local] Existing Instance EditorMode_eq_dec.

Module TieredEditorFacts.

(** ** What a commit keeps *)

(** The same state of the component, whatever it has seen. *)
Definition sameState (e e' : Editor) : Prop :=
  editorMode e' = editorMode e /\ visualConfig e' = visualConfig e /\ rawExpr e' = rawExpr e /\
  requestRuleGroups e' = requestRuleGroups e /\ initRef e' = initRef e.

(** The texts are those of the state. *)
Definition agrees (p : Props) (e : Editor) : Prop :=
  effectiveExpr e = Some (currentExpr p) /\
  (editorMode e = Visual -> currentRequestRuleExpr p = buildRequestRuleExpr (requestRuleGroups e)).

Lemma exprEffect_texts x p :
  modelName (exprEffect x p) = modelName p /\ currentExpr (exprEffect x p) = x /\
  currentRequestRuleExpr (exprEffect x p) = currentRequestRuleExpr p.
Proof. unfold exprEffect. case_bool_decide; by subst. Qed.

Lemma ruleEffect_texts e p :
  modelName (ruleEffect e p) = modelName p /\ currentExpr (ruleEffect e p) = currentExpr p /\
  currentRequestRuleExpr (ruleEffect e p) =
    match editorMode e with Visual => buildRequestRuleExpr (requestRuleGroups e) | Raw => currentRequestRuleExpr p end.
Proof. unfold ruleEffect. destruct (editorMode e); [|done]. case_bool_decide; by subst. Qed.

(** After a commit the texts are those of the state that it rendered. *)
Lemma commit_texts p e p' e' :
  commit (p, e) = Some (p', e') -> modelName p' = modelName p /\ seen e' = Some p /\ agrees p' e.
Proof.
  unfold commit. intros H. apply bind_Some in H as (b & _ & H). apply bind_Some in H as (x & Hx & H).
  apply bind_Some in H as (e1 & _ & [= <- <-]).
  destruct (ruleEffect_texts e (exprEffect x p)) as (-> & R2 & R3). destruct (exprEffect_texts x p) as (-> & E2 & E3).
  split_and!; [done|by destruct (nameChanged p e)|]. split; [by rewrite R2, E2|]. intros Hm. by rewrite R3, Hm.
Qed.

(** A commit whose first effect does not run keeps the state. *)
Lemma commit_keeps p e p' e' :
  commit (p, e) = Some (p', e') -> modelName <$> seen e = Some (modelName p) ->
  textsChanged p e = false \/ initRef e = true -> sameState e e'.
Proof.
  unfold commit. intros H Hn Hk. apply bind_Some in H as (b & _ & H). apply bind_Some in H as (x & Hx & H).
  apply bind_Some in H as (e1 & H1 & [= <- <-]). unfold nameChanged. rewrite bool_decide_eq_true_2 by done. cbn [negb].
  assert (e1 = e) as ->; [|done]. destruct Hk as [Hk|Hk]; [by rewrite Hk in H1; injection H1|].
  unfold initEffect in H1. rewrite Hk in H1. by destruct (textsChanged p e); injection H1.
Qed.

(** A commit whose first effect runs has read the texts. *)
Lemma commit_reads p e p' e' :
  commit (p, e) = Some (p', e') -> modelName <$> seen e = Some (modelName p) ->
  textsChanged p e = true -> initRef e' = true.
Proof.
  unfold commit. intros H Hn Ht. apply bind_Some in H as (b & _ & H). apply bind_Some in H as (x & Hx & H).
  apply bind_Some in H as (e1 & H1 & [= <- <-]). unfold nameChanged. rewrite bool_decide_eq_true_2 by done. cbn [negb].
  rewrite Ht in H1. unfold initEffect in H1. destruct (initRef e) eqn:Ei; [by injection H1 as <-|].
  apply bind_Some in H1 as (gs & _ & [= <-]). by repeat case_match.
Qed.

Lemma sameState_agrees p e e' : sameState e e' -> agrees p e -> agrees p e'.
Proof. unfold agrees, effectiveExpr. intros (-> & -> & -> & -> & _). done. Qed.

(** Texts that agree are left alone. *)
Lemma agrees_stays p e p' e' : commit (p, e) = Some (p', e') -> agrees p e -> p' = p.
Proof.
  intros H [Ha Hb]. pose proof (commit_texts _ _ _ _ H) as (Hn & _ & Hc & Hd).
  rewrite Ha in Hc. injection Hc as Hc. unfold commit in H. apply bind_Some in H as (b & _ & H).
  apply bind_Some in H as (x & Hx & H). apply bind_Some in H as (e1 & _ & [= <- <-]).
  rewrite Ha in Hx. injection Hx as <-. unfold exprEffect. rewrite bool_decide_eq_true_2 by done.
  unfold ruleEffect. destruct (editorMode e); [|done]. by rewrite bool_decide_eq_true_2 by (symmetry; auto).
Qed.

(** A state with its texts, seen by its effects, is at rest if it renders. *)
Lemma at_rest p e s : agrees p e -> seen e = Some p -> commit (p, e) = Some s -> settled (p, e).
Proof.
  intros Ha Hs H. destruct s as [p' e']. pose proof (agrees_stays _ _ _ _ H Ha) as ->.
  pose proof (commit_texts _ _ _ _ H) as (_ & Hs' & _).
  destruct (commit_keeps _ _ _ _ H) as (H1 & H2 & H3 & H4 & H5).
  - by rewrite Hs.
  - left. unfold textsChanged. by rewrite Hs, bool_decide_eq_true_2.
  - unfold settled. rewrite H. do 2 f_equal. destruct e, e'. cbn in *. by subst.
Qed.

Lemma settled_commits n s : settled s -> commits n s = Some s.
Proof. intros H. induction n as [|n IH]; [done|]. cbn [commits]. by rewrite H. Qed.

Lemma commits_add n m s : commits (n + m) s = commits n s ≫= commits m.
Proof.
  revert s. induction n as [|n IH]; intros s; [done|]. cbn [commits plus]. destruct (commit s) as [s'|]; [|done]. apply IH.
Qed.

(** ** Coming to rest *)

Definition nameSeen (s : Sys) : Prop := modelName <$> seen s.2 = Some (modelName s.1).

Lemma commit_nameSeen s s' : commit s = Some s' -> nameSeen s'.
Proof. destruct s as [p e], s' as [p' e']. intros (Hn & Hs & _)%commit_texts. unfold nameSeen. cbn. by rewrite Hs, Hn. Qed.

(** A commit that keeps the state and the texts was the last one. *)
Lemma last_commit p e e' : commit (p, e) = Some (p, e') -> sameState e e' -> agrees p e' -> settled (p, e').
Proof.
  intros H Hk Ha. pose proof (commit_texts _ _ _ _ H) as (_ & Hs & _).
  assert (is_Some (commit (p, e'))) as [s Hc]; [|by eapply at_rest].
  unfold commit in *. apply bind_Some in H as (b & -> & _). destruct Ha as [-> _]. cbn [mbind option_bind].
  unfold textsChanged. rewrite Hs, bool_decide_eq_true_2 by done. cbn. by eexists.
Qed.

(** Once the editor has read the texts, two commits are enough. *)
Lemma read_settles s s' : nameSeen s -> initRef s.2 = true -> commits 2 s = Some s' -> settled s'.
Proof.
  destruct s as [p e]. intros Hn Hi H. cbn [commits snd] in *. apply bind_Some in H as ([p1 e1] & H1 & H).
  apply bind_Some in H as ([p2 e2] & H2 & [= <-]).
  pose proof (commit_keeps _ _ _ _ H1 Hn (or_intror Hi)) as K1. pose proof (commit_texts _ _ _ _ H1) as (_ & _ & Ha).
  pose proof (commit_nameSeen _ _ H1) as Hn1. pose proof K1 as (_ & _ & _ & _ & Hi1). rewrite Hi in Hi1.
  pose proof (commit_keeps _ _ _ _ H2 Hn1 (or_intror Hi1)) as K2.
  pose proof (sameState_agrees _ _ _ K1 Ha) as Ha1. pose proof (agrees_stays _ _ _ _ H2 Ha1) as ->.
  eapply last_commit; [done|done|by eapply sameState_agrees].
Qed.

(** Enough commits in two parts. *)
Lemma commits_split n m s s' : commits (n + m) s = Some s' -> exists s1, commits n s = Some s1 /\ commits m s1 = Some s'.
Proof. rewrite commits_add. intros (s1 & H1 & H2)%bind_Some. eauto. Qed.

Lemma settled_later n m s s' :
  (forall s1, commits n s = Some s1 -> settled s1) -> commits (n + m) s = Some s' -> settled s'.
Proof.
  intros H (s1 & H1 & H2)%commits_split. pose proof (H s1 H1) as Hs. rewrite settled_commits in H2 by done.
  by injection H2 as <-.
Qed.

(** With the name seen, four commits are enough. *)
Lemma named_settles s s' : nameSeen s -> commits 4 s = Some s' -> settled s'.
Proof.
  destruct s as [p e]. intros Hn H. destruct (initRef e) eqn:Hi.
  { apply (settled_later 2 2 (p, e)); [intros; by eapply read_settles|done]. }
  destruct (textsChanged p e) eqn:Ht.
  - apply (commits_split 1 3) in H as ([p1 e1] & H1 & H). cbn [commits] in H1.
    apply bind_Some in H1 as ([? ?] & H1 & [= -> ->]).
    apply (settled_later 2 1 (p1, e1)); [|done]. intros s1. apply read_settles; [by eapply commit_nameSeen|].
    by eapply commit_reads.
  - apply (commits_split 1 3) in H as ([p1 e1] & H1 & H). cbn [commits] in H1.
    apply bind_Some in H1 as ([? ?] & H1 & [= -> ->]).
    pose proof (commit_keeps _ _ _ _ H1 Hn (or_introl Ht)) as K1. pose proof (commit_texts _ _ _ _ H1) as (_ & _ & Ha).
    pose proof (sameState_agrees _ _ _ K1 Ha) as Ha1. pose proof (commit_nameSeen _ _ H1) as Hn1.
    apply (commits_split 1 2) in H as ([p2 e2] & H2 & H). cbn [commits] in H2.
    apply bind_Some in H2 as ([? ?] & H2 & [= -> ->]). destruct (textsChanged p1 e1) eqn:Ht1.
    + apply (read_settles (p2, e2)); [by eapply commit_nameSeen|by eapply commit_reads|done].
    + pose proof (commit_keeps _ _ _ _ H2 Hn1 (or_introl Ht1)) as K2. pose proof (agrees_stays _ _ _ _ H2 Ha1) as ->.
      assert (settled (p1, e2)) as Hs by (eapply last_commit; [done|done|by eapply sameState_agrees]).
      rewrite settled_commits in H by done. by injection H as <-.
Qed.

Lemma settles s s' : settle s = Some s' -> settled s'.
Proof.
  unfold settle. intros H. apply (commits_split 1 4) in H as (s1 & H1 & H). cbn [commits] in H1.
  apply bind_Some in H1 as (s1' & H1 & [= ->]). by apply (named_settles s1); [by eapply commit_nameSeen|].
Qed.

Lemma settled_agrees s : settled s -> agrees s.1 s.2 /\ seen s.2 = Some s.1.
Proof. destruct s as [p e]. intros (_ & Hs & Ha)%commit_texts. done. Qed.

(** Commits that end at rest are those of [settle]. *)
Lemma settle_after n s s' : commits n s = Some s' -> (n <= 5)%nat -> settled s' -> settle s = Some s'.
Proof.
  intros H Hn Hs. unfold settle. replace 5%nat with (n + (5 - n))%nat by lia. rewrite commits_add, H. cbn.
  by apply settled_commits.
Qed.

(** ** Tiers and rules that the editor can show *)

Lemma normalize_same t : is_Some (label t) -> sameTier t (normalizeVisualTier t).
Proof.
  intros [l Hl]. split.
  - cbn. by rewrite Hl.
  - done.
  - cbn. by destruct (input_unit_cost t).
  - cbn. by destruct (output_unit_cost t).
  - intros f Hf. unfold price. cbn [normalizeVisualTier costs].
    rewrite (fold_set_get id _ (fun f => Some (cost (map_get (costs t) f)))) by done.
    rewrite decide_True by (by rewrite list_fmap_id). apply or_zero_idemp.
Qed.

(** The tiers of the cards. *)
Definition shownTiers (e : Editor) : list VisualTier := normalizeVisualConfig (visualConfig e).

(** The text of the tiers is read back as the same tiers. *)
Definition readsBack (tiers : list VisualTier) : Prop :=
  tiers <> [] /\ Forall (fun t => is_Some (label t)) tiers /\
  exists cfg, tryParseVisualConfig (Some (generateExprFromVisualConfig (Some tiers))) = Some cfg /\ Forall2 sameTier tiers cfg.

Lemma visual_ok_reads tiers : visual_ok tiers -> readsBack tiers.
Proof.
  intros H. split_and!; [|..|by apply generated_read].
  - intros ->. by destruct H as [[]|(t & [=] & _)].
  - assert (Forall tier_ok tiers) as Hok by (destruct H as [H|(t & -> & Ht & _)]; [by apply tiers_ok_all|by constructor]).
    eapply Forall_impl; [exact Hok|]. intros t [(x & l & -> & _) _ _ _ _]. by eexists.
Qed.

Lemma same_shown tiers c :
  Forall (fun t => is_Some (label t)) tiers -> tiers <> [] -> c = tiers \/ Forall2 sameTier tiers c ->
  Forall2 sameTier tiers (normalizeVisualConfig (Some c)).
Proof.
  intros Hl Hn H. assert (Forall2 sameTier tiers (map normalizeVisualTier c)) as Hm.
  { destruct H as [->|H].
    - clear Hn. induction Hl as [|t ts Ht _ IH]; constructor; [by apply normalize_same|done].
    - clear Hn. induction H as [|t t' ts ts' Ht _ IH]; [constructor|]. inversion Hl; subst. constructor; [|by apply IH].
      by apply sameTier_normalize. }
  destruct c as [|t c]; [|done]. by inversion Hm; subst.
Qed.

(** The configuration is the tiers, or tiers read as the same. *)
Definition ofTiers (tiers c : list VisualTier) : Prop := c = tiers \/ Forall2 sameTier tiers c.

Lemma generate_same tiers c : ofTiers tiers c ->
  generateExprFromVisualConfig (Some c) = generateExprFromVisualConfig (Some tiers).
Proof. intros [->|H]; [done|by apply same_generate]. Qed.

(** The text is generated for the configurations [Q], and read as one of them. *)
Definition readAs (X : jsstr) (Q : list VisualTier -> Prop) : Prop :=
  (forall c, Q c -> generateExprFromVisualConfig (Some c) = X) /\ exists cfg, tryParseVisualConfig (Some X) = Some cfg /\ Q cfg.

Lemma readsBack_as tiers : readsBack tiers -> readAs (generateExprFromVisualConfig (Some tiers)) (ofTiers tiers).
Proof. intros (_ & _ & cfg & Hp & Hs). split; [apply generate_same|]. exists cfg. split; [done|by right]. Qed.

(** The texts are [X] and those of the rules, and the cards show a configuration
    of [Q] and the rules. *)
Record shows (X : jsstr) (Q : list VisualTier -> Prop) (gs : list RequestRuleGroup) (s : Sys) : Prop := {
  sh_mode : editorMode s.2 = Visual;
  sh_config : exists c, visualConfig s.2 = Some c /\ Q c;
  sh_groups : requestRuleGroups s.2 = gs;
  sh_expr : currentExpr s.1 = X;
  sh_rules : currentRequestRuleExpr s.1 = buildRequestRuleExpr gs }.

Lemma shows_tiers X tiers gs s : readsBack tiers -> shows X (ofTiers tiers) gs s -> Forall2 sameTier tiers (shownTiers s.2).
Proof. intros (Hn & Hl & _) [_ (c & Hc & H) _ _ _]. unfold shownTiers. rewrite Hc. by apply same_shown. Qed.

Lemma canUse_readable p gs : tryParseRequestRuleExpr (currentRequestRuleExpr p) = Some gs -> is_Some (canUseVisualRules p).
Proof. intros H. unfold canUseVisualRules. rewrite H. case_match; by eexists. Qed.

(** The state after a commit is the one before, or what the texts say. *)
Definition reread (Q : list VisualTier -> Prop) (gs : list RequestRuleGroup) (e e' : Editor) : Prop :=
  editorMode e' = Visual /\ requestRuleGroups e' = gs /\
  exists c, visualConfig e' = Some c /\ (visualConfig e = Some c \/ Q c).

Section Shows.
Context (X : jsstr) (Q : list VisualTier -> Prop) (gs : list RequestRuleGroup).
Context (Hread : readAs X Q) (Hrules : tryParseRequestRuleExpr (buildRequestRuleExpr gs) = Some (Some gs)).

(** The first effect on texts of the tiers and the rules. *)
Lemma init_shows p e :
  currentExpr p = X -> currentRequestRuleExpr p = buildRequestRuleExpr gs ->
  editorMode e = Visual -> requestRuleGroups e = gs -> is_Some (visualConfig e) ->
  exists e', initEffect p e = Some e' /\ reread Q gs e e'.
Proof.
  intros Hx Hr Hm Hg [c Hc]. unfold initEffect. destruct (initRef e); [exists e; split; [done|by split_and!; eauto]|].
  destruct Hread as (_ & cfg & Hp & Hs). rewrite Hx, Hp. unfold readGroups. rewrite Hr, Hrules. cbn.
  eexists. split; [done|]. split_and!; [done|done|]. exists cfg. by eauto.
Qed.

Lemma shows_commit s : shows X Q gs s -> exists s', commit s = Some s' /\ shows X Q gs s' /\ modelName s'.1 = modelName s.1.
Proof.
  destruct s as [p e]. intros [Hm (c & Hc & Hsame) Hg Hx Hr]. cbn [fst snd] in *.
  destruct (canUse_readable p (Some gs)) as [b Hb]; [by rewrite Hr|]. unfold commit. rewrite Hb. cbn [mbind option_bind].
  assert (effectiveExpr e = Some (currentExpr p)) as Heff.
  { unfold effectiveExpr. by rewrite Hm, Hc, (proj1 Hread c Hsame), <- Hx. }
  rewrite Heff. cbn [mbind option_bind].
  assert (exists e1, (if textsChanged p e then initEffect p e else Some e) = Some e1 /\ reread Q gs e e1)
    as (e1 & -> & Hm1 & Hg1 & c1 & Hc1 & Hs1).
  { destruct (textsChanged p e); [by apply init_shows; eauto|]. exists e. split; [done|]. split_and!; eauto. }
  cbn [mbind option_bind]. eexists. split; [done|].
  destruct (ruleEffect_texts e (exprEffect (currentExpr p) p)) as (Hn2 & Hx2 & Hr2).
  destruct (exprEffect_texts (currentExpr p) p) as (Hn3 & Hx3 & Hr3).
  split; [|by cbn; rewrite Hn2, Hn3].
  assert (Q c1) as Hs by (destruct Hs1 as [Hs1|Hs1]; [rewrite Hc in Hs1; injection Hs1 as <-|]; auto).
  split; cbn [fst snd].
  - by destruct (nameChanged p e).
  - exists c1. split; [by destruct (nameChanged p e)|done].
  - by destruct (nameChanged p e).
  - by rewrite Hx2, Hx3.
  - by rewrite Hr2, Hm, Hg.
Qed.

Lemma shows_commits n s :
  shows X Q gs s -> exists s', commits n s = Some s' /\ shows X Q gs s' /\ modelName s'.1 = modelName s.1.
Proof.
  revert s. induction n as [|n IH]; intros s H; [by exists s|]. destruct (shows_commit s H) as (s1 & H1 & Hs1 & Hn1).
  destruct (IH s1 Hs1) as (s' & H' & Hs' & Hn'). exists s'. cbn [commits]. rewrite H1. cbn. split_and!; [done|done|congruence].
Qed.

(** A commit that does not read the texts writes them. *)
Lemma write_commit p e c :
  is_Some (canUseVisualRules p) -> nameSeen (p, e) -> textsChanged p e = false \/ initRef e = true ->
  editorMode e = Visual -> visualConfig e = Some c -> Q c -> requestRuleGroups e = gs ->
  exists s1, commit (p, e) = Some s1 /\ shows X Q gs s1 /\ modelName s1.1 = modelName p.
Proof.
  intros [b Hb] Hn Hk Hm Hc Hsame Hg.
  assert (exists s1, commit (p, e) = Some s1) as [[p1 e1] H1].
  { unfold commit. rewrite Hb. cbn [mbind option_bind]. unfold effectiveExpr. rewrite Hm. cbn [mbind option_bind].
    destruct Hk as [Hk|Hk]; [rewrite Hk|unfold initEffect; rewrite Hk; destruct (textsChanged p e)]; by eexists. }
  exists (p1, e1). pose proof (commit_keeps _ _ _ _ H1 Hn Hk) as (K1 & K2 & _ & K4 & _).
  pose proof (commit_texts _ _ _ _ H1) as (Hn1 & _ & Hx & Hr). unfold effectiveExpr in Hx. rewrite Hm, Hc in Hx.
  rewrite (proj1 Hread c Hsame) in Hx. apply (inj Some) in Hx. split_and!; [done| |done]. split; cbn [fst snd].
  - by rewrite K1.
  - exists c. by rewrite K2.
  - by rewrite K4.
  - done.
  - by rewrite Hr, Hg.
Qed.

Lemma write_settles p e c :
  is_Some (canUseVisualRules p) -> nameSeen (p, e) -> textsChanged p e = false \/ initRef e = true ->
  editorMode e = Visual -> visualConfig e = Some c -> Q c -> requestRuleGroups e = gs ->
  exists s', settle (p, e) = Some s' /\ shows X Q gs s' /\ settled s' /\ modelName s'.1 = modelName p.
Proof.
  intros Hb Hn Hk Hm Hc Hsame Hg. destruct (write_commit p e c Hb Hn Hk Hm Hc Hsame Hg) as (s1 & H1 & Hs1 & Hn1).
  destruct (shows_commits 4 s1 Hs1) as (s' & H' & Hs' & Hn'). exists s'.
  assert (settle (p, e) = Some s') as Hset by (unfold settle; cbn [commits]; rewrite H1; done).
  split_and!; [done|done|by eapply settles|congruence].
Qed.

(** Opening texts that can be shown: the editor is at rest after one commit and
    has not marked the texts as read. *)
Lemma open_shows p :
  currentExpr p = X -> currentRequestRuleExpr p = buildRequestRuleExpr gs ->
  exists e, openEditor p = Some (p, e) /\ shows X Q gs (p, e) /\ settled (p, e) /\ initRef e = false.
Proof.
  intros Hx Hr. unfold openEditor, mount, readGroups. rewrite Hr, Hrules. cbn [fmap option_fmap option_map mbind option_bind].
  pose proof Hread as (_ & cfg & Hp & Hs). rewrite Hx, Hp.
  match goal with |- context [settle (p, ?e0)] => set (e := e0) end.
  assert (shows X Q gs (p, e)) as Hsh by (split; cbn; eauto).
  destruct (shows_commit _ Hsh) as ([p' e'] & H' & Hs' & Hn').
  assert (p' = p) as -> by (destruct Hs' as [_ _ _ Hx' Hr'], p, p'; cbn in *; congruence).
  assert (sameState e e') as Hsame.
  { unfold commit in H'. apply bind_Some in H' as (b & _ & H'). apply bind_Some in H' as (x & _ & H').
    apply bind_Some in H' as (e1 & H1 & [= _ <-]). change (nameChanged p e) with true. cbn.
    change (textsChanged p e) with true in H1. unfold initEffect in H1. change (initRef e) with false in H1.
    rewrite Hx, Hp in H1. unfold readGroups in H1. rewrite Hr, Hrules in H1. by injection H1 as <-. }
  assert (settled (p, e')) as Hrest.
  { eapply last_commit; [done|done|]. eapply sameState_agrees; [done|]. by apply commit_texts in H' as (_ & _ & H'). }
  exists e'. split_and!; [|done|done|by destruct Hsame as (_ & _ & _ & _ & ->)].
  by apply (settle_after 1); [cbn [commits]; rewrite H'|lia|].
Qed.

(** The first effect, from texts that can be shown. *)
Lemma init_reads p e :
  currentExpr p = X -> currentRequestRuleExpr p = buildRequestRuleExpr gs ->
  initRef e = false ->
  exists e', initEffect p e = Some e' /\ editorMode e' = Visual /\ requestRuleGroups e' = gs /\ initRef e' = true /\
    seen e' = seen e /\ exists c, visualConfig e' = Some c /\ Q c.
Proof.
  intros Hx Hr Hi. unfold initEffect. rewrite Hi. destruct Hread as (_ & cfg & Hp & Hs). rewrite Hx, Hp.
  unfold readGroups. rewrite Hr, Hrules. cbn. eexists. split_and!; [done..|]. by exists cfg.
Qed.
End Shows.

Lemma commit_intro p e b x e1 :
  canUseVisualRules p = Some b -> effectiveExpr e = Some x ->
  (if textsChanged p e then initEffect p e else Some e) = Some e1 ->
  commit (p, e) = Some (ruleEffect e (exprEffect x p), setSeen p (if nameChanged p e then setInitRef false e1 else e1)).
Proof. unfold commit. intros -> -> H. cbn [mbind option_bind]. by rewrite H. Qed.

Lemma settled_renders s : settled s -> is_Some (canUseVisualRules s.1).
Proof. destruct s as [p e]. unfold settled, commit. intros (b & H & _)%bind_Some. by eexists. Qed.

Lemma settled_seen s : settled s -> nameSeen s /\ textsChanged s.1 s.2 = false.
Proof.
  intros (_ & H)%settled_agrees. unfold nameSeen, textsChanged. by rewrite H, bool_decide_eq_true_2.
Qed.

(** ** The expression editor *)

(** Texts that agree with the expression are left alone. *)
Lemma raw_stays n p e :
  is_Some (canUseVisualRules p) -> nameSeen (p, e) -> textsChanged p e = false \/ initRef e = true ->
  editorMode e = Raw -> effectiveExpr e = Some (currentExpr p) ->
  exists e', commits n (p, e) = Some (p, e') /\ sameState e e'.
Proof.
  revert e. induction n as [|n IH]; intros e [b Hb] Hn Hk Hm Hx; [by exists e|].
  assert (exists e1, (if textsChanged p e then initEffect p e else Some e) = Some e1) as [e1 He1].
  { destruct Hk as [->|Hk]; [by eexists|]. unfold initEffect. rewrite Hk. case_match; by eexists. }
  pose proof (commit_intro _ _ _ _ _ Hb Hx He1) as H. match type of H with commit _ = Some (_, ?e2) => set (e' := e2) in * end.
  assert (agrees p e) as Ha by (split; [done|by rewrite Hm]). pose proof (agrees_stays _ _ _ _ H Ha) as Hp. rewrite Hp in H.
  pose proof (commit_keeps _ _ _ _ H Hn Hk) as K. pose proof K as (K1 & K2 & K3 & K4 & K5).
  destruct (IH e') as (e2 & H2 & L1 & L2 & L3 & L4 & L5).
  - by eexists.
  - by eapply commit_nameSeen.
  - left. unfold textsChanged. apply commit_texts in H as (_ & -> & _). by rewrite bool_decide_eq_true_2.
  - by rewrite K1.
  - rewrite <- Hx. unfold effectiveExpr. by rewrite K1, K2, K3.
  - exists e2. split; [cbn [commits]; by rewrite H|]. split_and!; congruence.
Qed.

(** What is generated for no configuration. *)
Definition emptyExpr : jsstr := js "p * 0 + c * 0".

Lemma emptyExpr_unreadable : tryParseVisualConfig (Some emptyExpr) = None.
Proof. by vm_compute. Qed.

Lemma emptyExpr_split gs : forallb BillingExprFacts.readable_group gs = true ->
  splitBillingExprAndRequestRules (combineBillingExpr emptyExpr (buildRequestRuleExpr gs))
    = Some (BillingExpr.mkSplit emptyExpr (buildRequestRuleExpr gs)).
Proof.
  intros H. destruct gs as [|g gs]; [by vm_compute|].
  destruct (BillingExprProperties.split_undoes_combine emptyExpr (g :: gs)) as (-> & _ & Hu);
    [done|done| |done|done|done|by rewrite Hu by (by vm_compute)].
  split; [|by vm_compute]. cbn. repeat split; by vm_compute.
Qed.

(** The first effect on a text that the visual editor cannot read. *)
Lemma init_unreadable p e gs :
  tryParseVisualConfig (Some (currentExpr p)) = None -> truthy (currentExpr p) = true ->
  tryParseRequestRuleExpr (currentRequestRuleExpr p) = Some (Some gs) -> initRef e = false ->
  initEffect p e = Some (mkEditor Raw None (combineBillingExpr (currentExpr p) (currentRequestRuleExpr p)) gs true (seen e)).
Proof. intros Hp Ht Hr Hi. unfold initEffect. rewrite Hi, Hp, Ht. unfold readGroups. by rewrite Hr. Qed.

Section Unreadable.
Context (p : Props) (gs : list RequestRuleGroup).
Context (Hread : tryParseVisualConfig (Some (currentExpr p)) = None) (Htext : truthy (currentExpr p) = true).
Context (Hrules : currentRequestRuleExpr p = buildRequestRuleExpr gs) (Hgs : forallb BillingExprFacts.readable_group gs = true).
Context (Hsplit : is_Some (splitBillingExprAndRequestRules (combineBillingExpr (currentExpr p) (currentRequestRuleExpr p)))).

#[local] Abbreviation rules := (currentRequestRuleExpr p).
#[local] Abbreviation emptied := (mkProps (modelName p) emptyExpr rules).
#[local] Abbreviation rawAt x b sn := (mkEditor Raw None (combineBillingExpr x rules) gs b sn).

Lemma rules_parse : tryParseRequestRuleExpr rules = Some (Some gs).
Proof. rewrite Hrules. by apply BillingExprProperties.rules_read. Qed.

Lemma can_use x : is_Some (canUseVisualRules (mkProps (modelName p) x rules)).
Proof. eapply canUse_readable. apply rules_parse. Qed.

(** The commit of the mount writes the empty expression and turns to the
    expression editor, and the effect of the name forgets that the texts were
    read. *)
Lemma unreadable_mount :
  exists e, mount p = Some e /\ commit (p, e) = Some (emptied, rawAt (currentExpr p) false (Some p)).
Proof.
  unfold mount, readGroups. rewrite rules_parse, Hread. cbn [fmap option_fmap option_map mbind option_bind].
  eexists. split; [done|]. destruct (can_use (currentExpr p)) as [b Hb].
  rewrite (commit_intro p _ b emptyExpr (rawAt (currentExpr p) true None)).
  - destruct (exprEffect_texts emptyExpr p) as (N & X & R). unfold ruleEffect. cbn [editorMode requestRuleGroups].
    rewrite R, bool_decide_eq_true_2 by (symmetry; exact Hrules). do 2 f_equal. destruct (exprEffect emptyExpr p).
    cbn in *. congruence.
  - destruct p. exact Hb.
  - done.
  - change (textsChanged _ _) with true. cbn [seen]. by rewrite (init_unreadable p _ gs) by (try done; apply rules_parse).
Qed.

(** The empty expression in the expression editor stays. *)
Lemma emptied_stays n e :
  rawExpr e = combineBillingExpr emptyExpr rules -> editorMode e = Raw -> nameSeen (emptied, e) ->
  textsChanged emptied e = false \/ initRef e = true ->
  exists e', commits n (emptied, e) = Some (emptied, e') /\ sameState e e'.
Proof.
  intros Hraw Hm Hn Hk. apply raw_stays; [apply can_use|done|done|done|]. unfold effectiveExpr.
  rewrite Hm, Hraw, Hrules, emptyExpr_split by done. done.
Qed.

Lemma open_unreadable :
  exists e, openEditor p = Some (emptied, e) /\ editorMode e = Raw /\ rawExpr e = combineBillingExpr emptyExpr rules.
Proof.
  destruct unreadable_mount as (e0 & Hm & H0). unfold openEditor. rewrite Hm. cbn [mbind option_bind].
  unfold settle. change 5%nat with (1 + 4)%nat. rewrite commits_add. cbn [commits]. rewrite H0. cbn [mbind option_bind].
  destruct (decide (currentExpr p = emptyExpr)) as [E|E].
  - rewrite E. destruct (emptied_stays 4 (rawAt emptyExpr false (Some p))) as (e & He & Hsame); [done..| |].
    + left. unfold textsChanged. rewrite bool_decide_eq_true_2; [done|]. cbn. unfold texts. cbn. by rewrite E.
    + exists e. destruct Hsame as (S1 & _ & S3 & _). by rewrite S1, S3.
  - destruct (can_use emptyExpr) as [b Hb]. destruct Hsplit as [sp Hsp].
    set (e1 := rawAt (currentExpr p) false (Some p)).
    assert (textsChanged emptied e1 = true) as Ht.
    { unfold textsChanged. rewrite bool_decide_eq_false_2; [done|]. cbn. intros [= Hc]. done. }
    assert (nameChanged emptied e1 = false) as Hnm by (unfold nameChanged; by rewrite bool_decide_eq_true_2).
    assert (commit (emptied, e1) = Some (exprEffect (BillingExpr.billingExpr sp) emptied, rawAt emptyExpr true (Some emptied))) as H1.
    { rewrite (commit_intro _ _ b (BillingExpr.billingExpr sp) (rawAt emptyExpr true (Some p))).
      - by rewrite Hnm.
      - done.
      - unfold effectiveExpr. cbn [editorMode rawExpr e1]. by rewrite Hsp.
      - rewrite Ht. apply (init_unreadable emptied e1 gs); [apply emptyExpr_unreadable|done|apply rules_parse|done]. }
    destruct (exprEffect_texts (BillingExpr.billingExpr sp) emptied) as (Hn2 & Hx2 & Hr2).
    set (p2 := exprEffect _ _) in *. set (e2 := rawAt emptyExpr true (Some emptied)) in *.
    destruct (can_use (currentExpr p2)) as [b2 Hb2].
    assert (commit (p2, e2) = Some (emptied, setSeen p2 e2)) as H2.
    { rewrite (commit_intro _ _ b2 emptyExpr e2).
      - unfold nameChanged. rewrite bool_decide_eq_true_2 by (by cbn; rewrite Hn2). cbn [negb]. do 2 f_equal.
        destruct (exprEffect_texts emptyExpr p2) as (N & X & R). destruct (exprEffect emptyExpr p2). cbn in *. congruence.
      - rewrite <- Hb2. f_equal. destruct p2. cbn in *. congruence.
      - unfold effectiveExpr. cbn [editorMode rawExpr e2]. by rewrite Hrules, emptyExpr_split.
      - by destruct (textsChanged p2 e2). }
    cbn [commits]. rewrite H1. cbn [mbind option_bind]. rewrite H2. cbn [mbind option_bind].
    destruct (emptied_stays 2 (setSeen p2 e2)) as (e & He & Hsame); [done|done| |by right|].
    + unfold nameSeen. cbn. by rewrite Hn2.
    + exists e. destruct Hsame as (S1 & _ & S3 & _). split; [exact He|]. by rewrite S1, S3.
Qed.
End Unreadable.

(** ** Rules that cannot be read *)

Lemma open_unreadable_rules p tiers :
  readsBack tiers -> currentExpr p = generateExprFromVisualConfig (Some tiers) ->
  tryParseRequestRuleExpr (currentRequestRuleExpr p) = Some None ->
  exists s, openEditor p = Some s /\ shows (currentExpr p) (ofTiers tiers) [] s /\ modelName s.1 = modelName p.
Proof.
  intros Hread Hx Hr. pose proof Hread as (_ & _ & cfg & Hp & Hs). unfold openEditor, mount, readGroups.
  rewrite Hr, Hx, Hp. cbn [fmap option_fmap option_map mbind option_bind].
  match goal with |- context [settle (p, ?e0)] => set (e := e0) end.
  destruct (canUse_readable p None Hr) as [b Hb].
  assert (exists s1, commit (p, e) = Some s1 /\ shows (currentExpr p) (ofTiers tiers) [] s1 /\ modelName s1.1 = modelName p) as (s1 & H1 & Hs1 & Hn1).
  { erewrite commit_intro; [|exact Hb|reflexivity|].
    2:{ change (textsChanged p e) with true. unfold initEffect. rewrite Hx, Hp. unfold readGroups. by rewrite Hr. }
    change (nameChanged p e) with true. eexists. split; [done|].
    destruct (ruleEffect_texts e (exprEffect (generateExprFromVisualConfig (visualConfig e)) p)) as (Hn2 & Hx2 & Hr2).
    destruct (exprEffect_texts (generateExprFromVisualConfig (visualConfig e)) p) as (Hn3 & Hx3 & Hr3).
    split; [|cbn [fst]; congruence]. split; cbn [fst snd]; [done|exists cfg; split; [done|by right]|done| |by rewrite Hr2].
    rewrite Hx2, Hx3, Hx. by apply generate_same; right. }
  pose proof (readsBack_as tiers Hread) as Has. rewrite <- Hx in Has.
  destruct (shows_commits _ _ [] Has eq_refl 4 s1 Hs1) as (s' & H' & Hs' & Hn'). exists s'.
  split_and!; [|by rewrite <- Hx|congruence]. unfold settle. cbn [commits]. rewrite H1. done.
Qed.

(** ** Presets *)

Definition allPresets : list Preset := concat (map pg_presets PRESET_GROUPS).

(** The tiers and the rules of a preset. *)
Definition presetTiers (pr : Preset) : list VisualTier := default [] (tryParseVisualConfig (Some (p_expr pr))).
Definition presetRulesOf (pr : Preset) : list RequestRuleGroup := p_requestRules pr ?? [].

(** Configurations with the text. *)
Definition generates (X : jsstr) (c : list VisualTier) : Prop := generateExprFromVisualConfig (Some c) = X.

Definition presetText (pr : Preset) : jsstr := generateExprFromVisualConfig (Some (presetTiers pr)).

(** What a preset needs: its text is read, the text of its tiers is read back
    with the same text, and its rules are read back. *)
Definition presetReads (pr : Preset) : bool :=
  bool_decide (is_Some (tryParseVisualConfig (Some (p_expr pr)))) &&
  match tryParseVisualConfig (Some (presetText pr)) with
  | Some cfg => bool_decide (generateExprFromVisualConfig (Some cfg) = presetText pr)
  | None => false
  end && forallb BillingExprFacts.readable_group (presetRulesOf pr).

Lemma presets_read : forallb presetReads allPresets = true.
Proof. vm_compute. reflexivity. Qed.

Lemma preset_reads pr : pr ∈ allPresets ->
  tryParseVisualConfig (Some (p_expr pr)) = Some (presetTiers pr) /\ readAs (presetText pr) (generates (presetText pr)) /\
  tryParseRequestRuleExpr (buildRequestRuleExpr (presetRulesOf pr)) = Some (Some (presetRulesOf pr)).
Proof.
  intros Hin. pose proof presets_read as H. rewrite forallb_forall in H. apply list_elem_of_In in Hin.
  apply H in Hin. clear H. unfold presetReads in Hin. rewrite !andb_true_iff in Hin. destruct Hin as [[H1 H2] H3].
  split_and!.
  - apply bool_decide_eq_true_1 in H1 as [c Hc]. unfold presetTiers. by rewrite Hc.
  - split; [done|]. destruct (tryParseVisualConfig (Some (presetText pr))) as [cfg|] eqn:E; [|done]. exists cfg.
    split; [done|]. by apply bool_decide_eq_true_1 in H2.
  - by apply BillingExprProperties.rules_read.
Qed.

End TieredEditorFacts.
