(* ===== verification/TieredEditorProperties.v ===== *)
(** * Properties of the editor of tiered prices

    The effects come to rest; what can be shown survives opening, editing and
    saving; what the editor loses. *)

From S2P Require Import Prelude JsString JsCollections Json JsonNumber JsonText JsValue BillingExpr BillingExprFacts BillingExprProperties Regex TierExpr TierExprFacts TierExprProperties TierTexts TieredEditor TieredEditorMachine TieredEditorFacts ModelPricing ModelPricingPanel.
Import Json JsValue TierExpr TierExprProperties TieredEditor TieredEditorMachine TieredEditorFacts.
Import TierTexts (noParen, generated_split).
Import BillingExpr (RequestRuleGroup, tryParseRequestRuleExpr, buildRequestRuleExpr, combineBillingExpr,
  splitBillingExprAndRequestRules).
Import BillingExprFacts (readable_group).
#[local] Existing Instance EditorMode_eq_dec.

Module TieredEditorProperties.

(** ** Coming to rest *)

(** C31: The effects of the editor of tiered prices, which write each other's
    dependencies, come to rest: from every state, whether just mounted or after
    any event, five commits without an exception lead to a state that the next
    commit leaves as it is, and there the text of the expression is the one
    that the editor's state stands for and, in the visual editor, the text of
    the rules is that of the rule groups. *)
Theorem editor_settles s s' :
  commits 5 s = Some s' ->
  commit s' = Some s' /\ (forall n, commits n s' = Some s') /\
  effectiveExpr s'.2 = Some (currentExpr s'.1) /\
  (editorMode s'.2 = Visual -> currentRequestRuleExpr s'.1 = buildRequestRuleExpr (requestRuleGroups s'.2)).
Proof.
  intros H. pose proof (settles s s' H) as Hs. pose proof (settled_agrees s' Hs) as [[Ha Hb] _].
  split_and!; [exact Hs|intros n; by apply settled_commits|done|done].
Qed.

(** ** Tiers that the editor can show *)

(** A tier with all its fields; the prices of the cache and the media are
    numbers. *)
Definition fullTier (t : VisualTier) : Prop :=
  is_Some (label t) /\ is_Some (conditions t) /\ is_Some (input_unit_cost t) /\ is_Some (output_unit_cost t) /\
  is_Some (cache_mode t) /\ forall f, f ∈ COST_FIELDS -> exists n, map_get (costs t) f = Some (Some n).

Definition fullConfig (c : option (list VisualTier)) : Prop :=
  match c with Some tiers => tiers <> [] /\ Forall fullTier tiers | None => True end.

Lemma normalize_full t : fullTier (normalizeVisualTier t).
Proof.
  split_and!; [by eexists..|]. intros f Hf. cbn [normalizeVisualTier costs].
  rewrite (fold_set_get id _ (fun f => Some (cost (map_get (costs t) f)))) by done.
  rewrite decide_True by (by rewrite list_fmap_id). by eexists.
Qed.

Lemma default_full : Forall fullTier createDefaultVisualConfig.
Proof. constructor; [apply normalize_full|constructor]. Qed.

Lemma config_full c : fullConfig (Some (normalizeVisualConfig c)).
Proof.
  destruct c as [[|t c]|]; cbn; [by split; [|apply default_full]| |by split; [|apply default_full]]. split; [done|].
  constructor; [apply normalize_full|]. apply Forall_map. by apply Forall_forall; intros; apply normalize_full.
Qed.

Lemma parsed_full x c : tryParseVisualConfig x = Some c -> fullConfig (Some c).
Proof.
  unfold tryParseVisualConfig. intros H. repeat case_match; try done; apply (inj Some) in H; rewrite <- H; apply config_full.
Qed.

Lemma withConditions_full cs t : fullTier t -> fullTier (withConditions cs t).
Proof. intros (? & ? & ? & ? & ? & ?). by split_and!; [|eexists|..]. Qed.

Lemma insert_full i t (c : list VisualTier) :
  c <> [] -> Forall fullTier c -> fullTier t -> <[i := t]> c <> [] /\ Forall fullTier (<[i := t]> c).
Proof. intros Hn H Ht. split; [by destruct c, i|by apply Forall_insert]. Qed.

Lemma delete_Forall {A} (P : A -> Prop) i l : Forall P l -> Forall P (delete i l).
Proof. intros H. revert i. induction H as [|x l Hx Hl IH]; intros [|i]; [apply Forall_nil_2|apply Forall_nil_2|exact Hl|]. constructor; [done|apply IH]. Qed.

Lemma visualEditor_full a c tiers : visualEditor a c = Some tiers -> fullConfig (Some tiers).
Proof.
  destruct (config_full c) as [Hn Hf]. unfold visualEditor. cbv zeta. set (config := normalizeVisualConfig c) in *.
  destruct a as [i a| |i|i].
  - intros (t & _ & H)%bind_Some. apply bind_Some in H as (t' & _ & [= <-]). apply insert_full; [done..|apply normalize_full].
  - intros [= <-]. unfold handleAddTier. cbv zeta. split; [by intros [_ [=]]%app_eq_nil|]. apply Forall_app.
    split; [|constructor; [apply normalize_full|constructor]].
    destruct (last config); [|done]. case_match; [|done]. apply insert_full; [done..|apply normalize_full].
  - intros (t & _ & H)%bind_Some. case_match; [done|]. injection H as <-. unfold handleRemoveTier.
    pose proof (delete_Forall _ i _ Hf) as Hd. by destruct (delete i config).
  - unfold handleAddCondition. intros (t & Ht & H)%bind_Some. case_match; [done|]. injection H as <-.
    apply insert_full; [done..|]. apply withConditions_full. by eapply Forall_lookup_1.
Qed.

Lemma init_full p e e' : initEffect p e = Some e' -> fullConfig (visualConfig e) -> fullConfig (visualConfig e').
Proof.
  unfold initEffect. destruct (initRef e); [by intros [= <-]|]. cbv zeta. intros (gs & _ & [= <-])%bind_Some Hf.
  destruct (tryParseVisualConfig _) as [c|] eqn:E; cbn; [by eapply parsed_full|]. case_match; [done|].
  cbn. split; [done|apply default_full].
Qed.

Lemma dispatch_full s ev : fullConfig (visualConfig s.2) -> fullConfig (visualConfig (dispatch s ev).2).
Proof.
  destruct s as [p e]. cbn [snd]. intros H. destruct ev as [a|a|v|m|pr|n]; unfold dispatch; cbn [fst snd].
  - destruct (editorMode e), (visualEditor a (visualConfig e)) eqn:E; try done. by apply visualEditor_full in E.
  - by repeat case_match.
  - destruct (editorMode e); [done|]. unfold handleRawChange. by case_match.
  - unfold handleModeChange. destruct m; [|done]. case_match; [|done].
    destruct (tryParseVisualConfig _) as [c|] eqn:E; cbn.
    + apply parsed_full in E. by case_match.
    + case_match; (split; [done|apply default_full]).
  - unfold applyPreset. destruct (tryParseVisualConfig _) as [c|] eqn:E; cbn; [by eapply parsed_full|done].
  - done.
Qed.

(** C32: In every state that the editor of tiered prices reaches from any
    texts, by any events and commits in any order, its configuration is
    missing or has at least one tier, and every tier has a label, conditions, an
    input price, an output price and a kind of cache, and a number for each of
    the seven prices of cache and media. *)
Theorem reachable_tiers_complete p0 s : reachable p0 s -> fullConfig (visualConfig s.2).
Proof.
  intros H. induction H as [e H|[p e] [p' e'] _ IH H|s ev _ IH].
  - unfold mount in H. apply bind_Some in H as (gs & _ & [= <-]). cbn.
    destruct (tryParseVisualConfig _) eqn:E; [by eapply parsed_full|done].
  - unfold commit in H. apply bind_Some in H as (b & _ & H). apply bind_Some in H as (x & _ & H).
    apply bind_Some in H as (e1 & H1 & [= <- <-]).
    assert (fullConfig (visualConfig e1)) as Hf by (destruct (textsChanged p e); [by eapply init_full|by injection H1 as <-]).
    by destruct (nameChanged p e).
  - by apply dispatch_full.
Qed.

(** ** At most two conditions *)

Definition bounded (t : VisualTier) : Prop := (length (tierConditions t) <= 2)%nat.

Lemma normalize_bounded t : bounded t -> bounded (normalizeVisualTier t).
Proof. done. Qed.

Lemma tierCard_bounded a t t' : tierCard a t = Some t' -> bounded t -> bounded t'.
Proof.
  unfold bounded. destruct a as [l|i a|i|f x|m]; cbn [tierCard].
  - by intros [= <-].
  - intros (c & _ & [= <-])%bind_Some. unfold handleConditionChange. cbn [tierConditions withConditions conditions].
    by rewrite length_insert.
  - intros (c & Hc & [= <-])%bind_Some. unfold handleConditionRemove. cbn [tierConditions withConditions conditions].
    rewrite length_delete by (by eexists). lia.
  - intros H. assert (t' = handlePriceChange f (priceToUnitCost (parseNumberDraft x)) t) as ->; [|by destruct f].
    destruct f; [by injection H as <-..|]. case_match; [by injection H as <-|done].
  - by intros [= <-].
Qed.

(** The editor says that a tier has at most two conditions: no control of
    the visual editor gives a tier a third one. *)
Theorem conditions_stay_bounded a c tiers :
  Forall bounded (normalizeVisualConfig c) -> visualEditor a c = Some tiers -> Forall bounded tiers.
Proof.
  unfold visualEditor. cbv zeta. generalize (normalizeVisualConfig c) as config. intros config Hf.
  destruct a as [i a| |i|i].
  - intros (t & Ht & H)%bind_Some. apply bind_Some in H as (t' & Ht' & [= <-]). apply Forall_insert; [done|].
    apply normalize_bounded. eapply tierCard_bounded; [done|]. by eapply Forall_lookup_1.
  - intros [= <-]. unfold handleAddTier. cbv zeta. apply Forall_app.
    split; [|constructor; [apply normalize_bounded; unfold bounded; cbn; lia|constructor]].
    destruct (last config); [|done]. case_match; [|done]. apply Forall_insert; [done|].
    apply normalize_bounded. unfold bounded. cbn. lia.
  - intros (t & _ & H)%bind_Some. case_match; [done|]. injection H as <-. unfold handleRemoveTier.
    pose proof (delete_Forall _ i _ Hf) as Hd. by destruct (delete i config).
  - unfold handleAddCondition. intros (t & Ht & H)%bind_Some. case_match eqn:E; [done|]. injection H as <-.
    apply Forall_insert; [done|]. unfold bounded. cbn [tierConditions withConditions conditions]. rewrite length_app. cbn.
    apply Nat.leb_gt in E. lia.
Qed.

(** ** Opening and saving *)

Lemma openTab_tiered panel s :
  ModelPricingPanel.pricingMode panel = ModelPricing.TieredExpr -> openEditor (editorProps panel) = Some s ->
  openTab panel = Some (writeTexts s.1 panel).
Proof. unfold openTab. intros -> ->. done. Qed.

Lemma commit_tiered panel :
  ModelPricingPanel.pricingMode panel = ModelPricing.TieredExpr -> truthy (ModelPricingPanel.formName panel) = true ->
  exists d, ModelPricingPanel.commitDraft panel = Some d /\ ModelPricing.d_billingMode d = ModelPricing.TieredExpr /\
    ModelPricing.d_billingExpr d = ModelPricingPanel.p_billingExpr panel /\
    ModelPricing.d_requestRuleExpr d = ModelPricingPanel.p_requestRuleExpr panel.
Proof.
  intros Hm Hn. unfold ModelPricingPanel.commitDraft, ModelPricingPanel.validatePricingValues,
    ModelPricingPanel.lacksInputPrice, ModelPricingPanel.lacksAudioInput.
  rewrite Hn, Hm. cbn. eexists. split; [done|]. unfold ModelPricingPanel.buildSubmitData. by rewrite Hm.
Qed.

(** C28: A model that is priced by tiers which the visual editor can write and
    by request rules which it can read back keeps its prices when it is opened
    and saved: the editor of tiered prices in the panel's tab shows the tiers
    and the rules and leaves the panel as it is, and what the panel commits has
    the expression and the rules that were loaded. *)
Theorem open_and_save_keeps_prices tiers gs d :
  visual_ok tiers -> forallb readable_group gs = true -> truthy (ModelPricing.d_name d) = true ->
  ModelPricing.d_billingMode d = ModelPricing.TieredExpr ->
  ModelPricing.d_billingExpr d = generateExprFromVisualConfig (Some tiers) ->
  ModelPricing.d_requestRuleExpr d = buildRequestRuleExpr gs ->
  let panel := ModelPricingPanel.loadPanel (Some d) in
  openTab panel = Some panel /\
  (exists e, openEditor (editorProps panel) = Some (editorProps panel, e) /\
     editorMode e = Visual /\ Forall2 sameTier tiers (shownTiers e) /\ requestRuleGroups e = gs) /\
  exists d', ModelPricingPanel.commitDraft panel = Some d' /\ ModelPricing.d_billingMode d' = ModelPricing.TieredExpr /\
    ModelPricing.d_billingExpr d' = ModelPricing.d_billingExpr d /\
    ModelPricing.d_requestRuleExpr d' = ModelPricing.d_requestRuleExpr d.
Proof.
  intros Hok Hr Hn Hm Hx Hg. cbv zeta. set (panel := ModelPricingPanel.loadPanel (Some d)).
  assert (ModelPricingPanel.pricingMode panel = ModelPricing.TieredExpr) as Hpm by (subst panel; cbn; by rewrite Hm).
  pose proof (visual_ok_reads tiers Hok) as Hread.
  destruct (open_shows _ _ gs (readsBack_as tiers Hread) (BillingExprProperties.rules_read gs Hr) (editorProps panel)) as (e & Ho & Hs & _ & _);
    [done|done|].
  split_and!.
  - rewrite (openTab_tiered _ _ Hpm Ho). by destruct panel.
  - exists e. split_and!; [done|apply Hs|by apply (shows_tiers _ _ _ _ Hread Hs)|apply Hs].
  - by apply commit_tiered.
Qed.

(** ** Editing *)



(** ** Presets *)

(** The state after the handler. *)
Lemma applyPreset_state pr s : pr ∈ allPresets ->
  let s' := dispatch s (ApplyPreset pr) in
  s'.1 = onRequestRuleExprChange (buildRequestRuleExpr (presetRulesOf pr)) s.1 /\
  editorMode s'.2 = Visual /\ visualConfig s'.2 = Some (presetTiers pr) /\ requestRuleGroups s'.2 = presetRulesOf pr /\
  seen s'.2 = seen s.2 /\ initRef s'.2 = initRef s.2.
Proof.
  intros Hin. destruct (preset_reads pr Hin) as (Hp & _). destruct s as [p e]. unfold dispatch, applyPreset.
  rewrite Hp. done.
Qed.

(** Every one of the fifteen presets can be applied: in a state at rest
    whose rules are already those of the preset, or in which the editor has
    read its texts since it was opened, the texts become those of the preset's
    tiers and rules, and the visual editor shows tiers with that text and the
    rules. *)
Theorem preset_applies s pr :
  pr ∈ allPresets -> settled s ->
  initRef s.2 = true \/ currentRequestRuleExpr s.1 = buildRequestRuleExpr (presetRulesOf pr) ->
  exists s', act s (ApplyPreset pr) = Some s' /\ settled s' /\ editorMode s'.2 = Visual /\
    currentExpr s'.1 = presetText pr /\ currentRequestRuleExpr s'.1 = buildRequestRuleExpr (presetRulesOf pr) /\
    generateExprFromVisualConfig (visualConfig s'.2) = presetText pr /\ requestRuleGroups s'.2 = presetRulesOf pr.
Proof.
  intros Hin Hs Hk. destruct (preset_reads pr Hin) as (Hp & Has & Hr).
  destruct (applyPreset_state pr s Hin) as (H1 & H2 & H3 & H4 & H5 & H6). unfold act.
  destruct (dispatch s (ApplyPreset pr)) as [p' e']. cbn [fst snd] in *. subst p'.
  pose proof (settled_agrees s Hs) as [_ Hseen]. rewrite Hseen in H5.
  destruct (write_settles _ _ _ Has Hr (onRequestRuleExprChange (buildRequestRuleExpr (presetRulesOf pr)) s.1) e' (presetTiers pr))
    as (s' & Hset & [S1 (c & S2 & Q) S3 S4 S5] & Hrest & _); [|..|done|done|done|done|].
  - eapply canUse_readable. exact Hr.
  - unfold nameSeen. cbn [fst snd]. by rewrite H5.
  - destruct Hk as [Hk|Hk]; [right; by rewrite H6|left]. unfold textsChanged. rewrite H5, bool_decide_eq_true_2; [done|].
    cbn. unfold texts. cbn. by rewrite Hk.
  - exists s'. split_and!; try done. by rewrite S2.
Qed.

(** C34: The first preset that changes the rules keeps the old prices, when it is
    the first thing that is done after opening a model whose tiers and rules the
    editor writes and reads back.  A preset whose rules have another text is
    applied before any other edit: the editor takes the preset's rules but reads
    its tiers back from the text that the model had, so that the expression, the
    one that is saved, is still the old one. *)
Theorem first_preset_keeps_old_prices p tiers gs pr :
  visual_ok tiers -> forallb readable_group gs = true -> pr ∈ allPresets ->
  currentExpr p = generateExprFromVisualConfig (Some tiers) -> currentRequestRuleExpr p = buildRequestRuleExpr gs ->
  buildRequestRuleExpr (presetRulesOf pr) <> buildRequestRuleExpr gs ->
  exists s s', openEditor p = Some s /\ act s (ApplyPreset pr) = Some s' /\ settled s' /\
    currentExpr s'.1 = currentExpr p /\ currentRequestRuleExpr s'.1 = buildRequestRuleExpr (presetRulesOf pr) /\
    Forall2 sameTier tiers (shownTiers s'.2).
Proof.
  intros Hok Hr Hin Hx Hg Hne. pose proof (visual_ok_reads tiers Hok) as Hread. pose proof (readsBack_as tiers Hread) as Has.
  destruct (open_shows _ _ gs Has (BillingExprProperties.rules_read gs Hr) p Hx Hg) as (e & Ho & Hsh & Hs & Hi).
  destruct (preset_reads pr Hin) as (_ & _ & Hpr). destruct (applyPreset_state pr (p, e) Hin) as (H1 & H2 & H3 & H4 & H5 & H6).
  exists (p, e). unfold act. destruct (dispatch (p, e) (ApplyPreset pr)) as [p1 e1]. cbn [fst snd] in *.
  pose proof (settled_agrees _ Hs) as [_ Hseen]. cbn [fst snd] in Hseen. rewrite Hseen in H5. rewrite Hi in H6.
  assert (currentRequestRuleExpr p1 = buildRequestRuleExpr (presetRulesOf pr)) as Hr1 by (by rewrite H1).
  destruct (init_reads _ _ _ Has Hpr p1 e1) as (e2 & He2 & I1 & I2 & I3 & I4 & c & I5 & I6); [by rewrite H1|done|done|].
  destruct (canUse_readable p1 (Some (presetRulesOf pr))) as [b Hb]; [by rewrite Hr1|].
  assert (textsChanged p1 e1 = true) as Ht.
  { unfold textsChanged. rewrite H5, bool_decide_eq_false_2; [done|]. cbn. unfold texts. intros [= _ E]. congruence. }
  assert (nameChanged p1 e1 = false) as Hn by (unfold nameChanged; rewrite H5, H1; by rewrite bool_decide_eq_true_2).
  assert (effectiveExpr e1 = Some (presetText pr)) as Heff by (unfold effectiveExpr; by rewrite H2, H3).
  pose proof (commit_intro p1 e1 b (presetText pr) e2 Hb Heff) as Hc. rewrite Ht, Hn in Hc. specialize (Hc He2).
  set (s1 := (ruleEffect _ _, setSeen _ _)) in Hc. pose proof (commit_nameSeen _ _ Hc) as Hns.
  destruct (write_commit _ _ (presetRulesOf pr) Has s1.1 s1.2 c) as (s2 & Hc2 & Hsh2 & _); [|done|by right|done|done|done|done|].
  { eapply canUse_readable. subst s1. cbn [fst]. destruct (ruleEffect_texts e1 (exprEffect (presetText pr) p1)) as (_ & _ & ->).
    by rewrite H2, H4. }
  destruct (shows_commits _ _ _ Has Hpr 3 s2 Hsh2) as (s' & Hc3 & Hsh3 & _).
  assert (settle (p1, e1) = Some s') as Hset.
  { unfold settle. cbn [commits]. rewrite Hc. cbn [mbind option_bind]. rewrite (surjective_pairing s1), Hc2. exact Hc3. }
  exists s'. split_and!; [done|done|by eapply settles|rewrite Hx; apply Hsh3|apply Hsh3|by apply (shows_tiers _ _ _ _ Hread Hsh3)].
Qed.

(** ** What opening loses *)

(** C33: A price expression that the visual editor cannot read is lost by
    opening it.  Whatever the expression, with rules that can be read, once the
    editor in the panel's tab is at rest the panel holds
    [p * 0 + c * 0] in its place, and saving stores a price of zero; the rules
    are kept. *)
Theorem unreadable_expression_is_lost d gs :
  let panel := ModelPricingPanel.loadPanel (Some d) in
  truthy (ModelPricing.d_name d) = true -> ModelPricing.d_billingMode d = ModelPricing.TieredExpr ->
  truthy (ModelPricing.d_billingExpr d) = true -> tryParseVisualConfig (Some (ModelPricing.d_billingExpr d)) = None ->
  ModelPricing.d_requestRuleExpr d = buildRequestRuleExpr gs -> forallb readable_group gs = true ->
  is_Some (splitBillingExprAndRequestRules (combineBillingExpr (ModelPricing.d_billingExpr d) (ModelPricing.d_requestRuleExpr d))) ->
  exists panel' d', openTab panel = Some panel' /\ ModelPricingPanel.commitDraft panel' = Some d' /\
    ModelPricing.d_billingMode d' = ModelPricing.TieredExpr /\ ModelPricing.d_billingExpr d' = js "p * 0 + c * 0" /\
    ModelPricing.d_requestRuleExpr d' = ModelPricing.d_requestRuleExpr d.
Proof.
  intros panel Hn Hm Ht Hp Hr Hgs Hsp.
  assert (ModelPricingPanel.pricingMode panel = ModelPricing.TieredExpr) as Hpm by (subst panel; cbn; by rewrite Hm).
  destruct (open_unreadable (editorProps panel) gs Hp Ht Hr Hgs Hsp) as (e & Ho & _).
  pose proof (openTab_tiered _ _ Hpm Ho) as Hot. cbn [fst] in Hot.
  match type of Hot with _ = Some ?q => destruct (commit_tiered q) as (d' & Hd & Hm' & Hx' & Hr'); [done|done|]; exists q, d' end.
  done.
Qed.

(** Request rules that the visual editor cannot read are erased by
    opening a model whose tiers it can show: the text of the rules becomes
    empty, although the message that the editor has for such rules asks to
    edit them in the expression editor. *)
Theorem unreadable_rules_are_erased d tiers :
  let panel := ModelPricingPanel.loadPanel (Some d) in
  truthy (ModelPricing.d_name d) = true -> ModelPricing.d_billingMode d = ModelPricing.TieredExpr ->
  visual_ok tiers -> ModelPricing.d_billingExpr d = generateExprFromVisualConfig (Some tiers) ->
  tryParseRequestRuleExpr (ModelPricing.d_requestRuleExpr d) = Some None ->
  exists panel' d', openTab panel = Some panel' /\ ModelPricingPanel.commitDraft panel' = Some d' /\
    ModelPricing.d_billingExpr d' = ModelPricing.d_billingExpr d /\ ModelPricing.d_requestRuleExpr d' = [].
Proof.
  intros panel Hn Hm Hok Hx Hr.
  assert (ModelPricingPanel.pricingMode panel = ModelPricing.TieredExpr) as Hpm by (subst panel; cbn; by rewrite Hm).
  destruct (open_unreadable_rules (editorProps panel) tiers (visual_ok_reads tiers Hok) Hx Hr) as (s & Ho & [_ _ _ Sx Sr] & _).
  pose proof (openTab_tiered _ _ Hpm Ho) as Hot.
  match type of Hot with _ = Some ?q => destruct (commit_tiered q) as (d' & Hd & Hm' & Hx' & Hr'); [done|done|]; exists q, d' end.
  split_and!; [done|done|rewrite Hx'; exact Sx|rewrite Hr'; exact Sr].
Qed.

(** ** The two modes *)



(** ** Witnesses *)

Definition cond_okb (cd : TierConditionInput) : bool :=
  match c_value cd with
  | VNum (Some n) => bool_decide (TierExprFacts.readable n) && forallb cond_char (JsonNumber.num_text n)
  | _ => false
  end.

Definition tier_okb (t : VisualTier) : bool :=
  truthy (labelText t) && forallb BillingExpr.not_quote (labelText t) &&
  bool_decide (TierExprFacts.readable (cost (input_unit_cost t))) &&
  bool_decide (TierExprFacts.readable (cost (output_unit_cost t))) &&
  forallb (fun f => bool_decide (TierExprFacts.readable (price t f))) COST_FIELDS && forallb cond_okb (conds t).

Lemma forallb_Forall {A} (f : A -> bool) (P : A -> Prop) l :
  (forall x, f x = true -> P x) -> forallb f l = true -> Forall P l.
Proof. intros H Hb. rewrite forallb_forall in Hb. apply Forall_forall. intros x Hx. by apply H, Hb, list_elem_of_In. Qed.

Lemma tier_okb_sound t : tier_okb t = true -> tier_ok t.
Proof.
  unfold tier_okb. rewrite !andb_true_iff. intros [[[[[H1 H2] H3] H4] H5] H6]. split.
  - unfold labelText in *. destruct (label t) as [[|x l]|]; try done. exists x, l. split; [done|].
    by eapply forallb_Forall; [|exact H2].
  - by apply bool_decide_eq_true_1 in H3.
  - by apply bool_decide_eq_true_1 in H4.
  - eapply forallb_Forall; [|exact H5]. intros f Hf. by apply bool_decide_eq_true_1 in Hf.
  - eapply forallb_Forall; [|exact H6]. intros cd Hcd. unfold cond_okb in Hcd.
    destruct (c_value cd) as [[n|]|] eqn:E; try done. apply andb_true_iff in Hcd as [Hn Hc].
    exists n. split_and!; [done|by apply bool_decide_eq_true_1 in Hn|by eapply forallb_Forall; [|exact Hc]].
Qed.

Lemma one_tier_ok t : tier_okb t = true -> conds t = [] -> tiers_ok [t].
Proof. intros H Hc. split; [by apply tier_okb_sound|done]. Qed.

(** A model with one tier and two rule groups. *)
Definition sampleTier : VisualTier :=
  normalizeVisualTier (mkTier (Some (js "base")) (Some []) (Some (Some (mkNum 2 0))) (Some (Some (mkNum 3 0))) None []).
Definition sampleData : ModelPricing.ModelRatioData :=
  ModelPricing.mkData (js "m") (fun _ => []) ModelPricing.TieredExpr (generateExprFromVisualConfig (Some [sampleTier]))
    (buildRequestRuleExpr BillingExpr.sample_groups).
Definition sampleProps : Props := editorProps (ModelPricingPanel.loadPanel (Some sampleData)).
Definition opened (p : Props) : Sys := default (p, mkEditor Raw None [] [] false None) (openEditor p).

Lemma sampleTier_ok : tiers_ok [sampleTier].
Proof. apply one_tier_ok; [vm_compute; reflexivity|reflexivity]. Qed.


(** The first commit after the mount on an expression that cannot be read. *)
Lemma editor_settles_witness :
  exists s', commits 5 (mkProps (js "m") (js "p * 2") [], mkEditor Visual None (js "p * 2") [] false None) = Some s' /\
    commit s' = Some s' /\ effectiveExpr s'.2 = Some (currentExpr s'.1).
Proof.
  assert (bool_decide (is_Some (commits 5 (mkProps (js "m") (js "p * 2") [], mkEditor Visual None (js "p * 2") [] false None))) = true) as H
    by (vm_compute; reflexivity).
  apply bool_decide_eq_true_1 in H. destruct H as [s' H]. exists s'.
  destruct (editor_settles _ s' H) as (H1 & _ & H2 & _). exact (conj H (conj H1 H2)).
Defined.

Lemma reachable_tiers_complete_witness :
  fullConfig (visualConfig (dispatch (sampleProps, mkEditor Visual (tryParseVisualConfig (Some (currentExpr sampleProps)))
    (combineBillingExpr (currentExpr sampleProps) (currentRequestRuleExpr sampleProps)) BillingExpr.sample_groups false None)
    (EditTiers AddTier)).2).
Proof. apply (reachable_tiers_complete sampleProps). apply R_event, R_mount. vm_compute. reflexivity. Defined.

Lemma open_and_save_keeps_prices_witness :
  exists d', openTab (ModelPricingPanel.loadPanel (Some sampleData)) = Some (ModelPricingPanel.loadPanel (Some sampleData)) /\
    ModelPricingPanel.commitDraft (ModelPricingPanel.loadPanel (Some sampleData)) = Some d' /\
    ModelPricing.d_billingExpr d' = jq "tier('base', p * 2 + c * 3)".
Proof.
  destruct (open_and_save_keeps_prices [sampleTier] BillingExpr.sample_groups sampleData) as (H1 & _ & d' & H2 & _ & H3 & _);
    [left; exact sampleTier_ok|reflexivity|reflexivity|reflexivity|reflexivity|reflexivity|].
  exists d'. split; [exact H1|]. split; [exact H2|]. rewrite H3. vm_compute. reflexivity.
Defined.


(** The preset with a discount at night, and the first preset. *)
Definition nightPreset : Preset := nth 13 allPresets (mkPreset [] [] [] None).
Definition flatPreset : Preset := nth 0 allPresets (mkPreset [] [] [] None).

Lemma nth_preset i : (i < 15)%nat -> nth i allPresets (mkPreset [] [] [] None) ∈ allPresets.
Proof. intros H. apply list_elem_of_In, nth_In. exact H. Qed.

Definition plainProps : Props := mkProps (js "m") (generateExprFromVisualConfig (Some [sampleTier])) [].

Lemma preset_applies_witness :
  exists s', act (opened plainProps) (ApplyPreset flatPreset) = Some s' /\ currentExpr s'.1 = jq "tier('base', p * 2 + c * 4)".
Proof.
  destruct (preset_applies (opened plainProps) flatPreset) as (s' & H1 & _ & _ & H2 & _).
  - apply nth_preset. lia.
  - vm_compute. reflexivity.
  - right. vm_compute. reflexivity.
  - exists s'. split; [exact H1|]. rewrite H2. vm_compute. reflexivity.
Defined.

Lemma first_preset_keeps_old_prices_witness :
  exists s s', openEditor plainProps = Some s /\ act s (ApplyPreset nightPreset) = Some s' /\
    currentExpr s'.1 = jq "tier('base', p * 2 + c * 3)" /\ presetText nightPreset = jq "tier('base', p * 3 + c * 15)".
Proof.
  destruct (first_preset_keeps_old_prices plainProps [sampleTier] [] nightPreset) as (s & s' & H1 & H2 & _ & H3 & _).
  - left. exact sampleTier_ok.
  - reflexivity.
  - apply nth_preset. lia.
  - reflexivity.
  - reflexivity.
  - assert (bool_decide (buildRequestRuleExpr (presetRulesOf nightPreset) = buildRequestRuleExpr []) = false) as H
      by (vm_compute; reflexivity). apply bool_decide_eq_false_1 in H. exact H.
  - exists s, s'. split; [exact H1|]. split; [exact H2|]. rewrite H3. split; vm_compute; reflexivity.
Defined.

Definition maxData : ModelPricing.ModelRatioData :=
  ModelPricing.mkData (js "m") (fun _ => []) ModelPricing.TieredExpr (js "max(p * 2 + c * 8, 1)") [].

Lemma unreadable_expression_is_lost_witness :
  exists panel' d', openTab (ModelPricingPanel.loadPanel (Some maxData)) = Some panel' /\
    ModelPricingPanel.commitDraft panel' = Some d' /\ ModelPricing.d_billingExpr d' = js "p * 0 + c * 0".
Proof.
  destruct (unreadable_expression_is_lost maxData []) as (q & d' & H1 & H2 & _ & H3 & _);
    [reflexivity|reflexivity|reflexivity|vm_compute; reflexivity|reflexivity|reflexivity|vm_compute; eexists; reflexivity|].
  exists q, d'. exact (conj H1 (conj H2 H3)).
Defined.

(** A rule that the visual editor itself writes for a comparison. *)
Definition compareData : ModelPricing.ModelRatioData :=
  ModelPricing.mkData (js "m") (fun _ => []) ModelPricing.TieredExpr (generateExprFromVisualConfig (Some [sampleTier]))
    (buildRequestRuleExpr
       [BillingExpr.mkGroup [BillingExpr.CParamHeader (BillingExpr.mkPH BillingExpr.SParam (js "n") BillingExpr.MATCH_GT (js "3"))]
          (js "2")]).

Lemma unreadable_rules_are_erased_witness :
  ModelPricing.d_requestRuleExpr compareData = jq "(param('n') != nil && param('n') > 3 ? 2 : 1)" /\
  exists panel' d', openTab (ModelPricingPanel.loadPanel (Some compareData)) = Some panel' /\
    ModelPricingPanel.commitDraft panel' = Some d' /\ ModelPricing.d_requestRuleExpr d' = [].
Proof.
  split; [vm_compute; reflexivity|].
  destruct (unreadable_rules_are_erased compareData [sampleTier]) as (q & d' & H1 & H2 & _ & H3);
    [reflexivity|reflexivity|left; exact sampleTier_ok|reflexivity|vm_compute; reflexivity|].
  exists q, d'. exact (conj H1 (conj H2 H3)).
Defined.


(** ** What the second reading undoes *)

Definition acts (s : option Sys) (evs : list Event) : option Sys := fold_left (fun s ev => s ← s; act s ev) evs s.

(** A rule group that is not finished is gone after the first change of a
    price. *)
Example unfinished_rules_dropped :
  (fun s => length (requestRuleGroups s.2)) <$> acts (openEditor plainProps) [EditRules AddGroup] = Some 1%nat /\
  (fun s => (length (requestRuleGroups s.2), currentExpr s.1)) <$>
    acts (openEditor plainProps) [EditRules AddGroup; EditTiers (OnTier 0 (ChangePrice InputCost (js "7")))]
    = Some (0%nat, jq "tier('base', p * 7 + c * 3)").
Proof. split; vm_compute; reflexivity. Qed.

(** The first change of the text leaves the expression editor. *)
Example typing_leaves_expression_editor :
  (fun s => editorMode s.2) <$> acts (openEditor plainProps) [SelectMode Raw] = Some Raw /\
  (fun s => editorMode s.2) <$> acts (openEditor plainProps) [SelectMode Raw; TypeRaw (jq "tier('base', p * 25 + c * 3)")]
    = Some Visual.
Proof. split; vm_compute; reflexivity. Qed.

(** Selecting the visual editor replaces an expression that it cannot read. *)
Example visual_mode_replaces_expression :
  (fun s => currentExpr s.1) <$>
    acts (openEditor plainProps) [SelectMode Raw; TypeRaw (js "max(p * 2, 1)"); SelectMode Visual]
    = Some (jq "tier('base', p * 0 + c * 0)").
Proof. vm_compute. reflexivity. Qed.

End TieredEditorProperties.
