(* ===== verification/PricePage.v ===== *)
(** * The public price page

    The data of the page ([features/pricing/hooks/use-pricing-data.ts]), its
    filters and orders ([lib/filters.ts], [hooks/use-filters.ts]), the price of
    a model for a group ([lib/price.ts], [lib/model-helpers.ts]), tiered prices
    ([lib/dynamic-price.ts]) and the table of group prices
    ([components/model-details.tsx]).  Numbers are doubles; a price is the
    amount in dollars that is passed to the currency format, [None] where the
    page shows a dash.  [toLowerCase] and [localeCompare] are parameters.  An
    expression that makes the parser throw gives [None].  The groups are not
    named like a property of the built-in prototype. *)

From S2P Require Import Prelude JsString JsCollections Json JsonNumber JsValue JsDouble JsDoubleOrder BillingExpr Regex TierExpr.
From Stdlib Require Import Floats.SpecFloat.

Module PricePage.
Import Json JsDouble JsDoubleOrder TierExpr.

(** ** Models and vendors *)

Record PricingVendor := mkVendor {
  pv_id : Z; pv_name : jsstr; pv_icon : option jsstr; pv_description : option jsstr }.

Record PricingModel := mkModel {
  model_name : jsstr;
  description : option jsstr;
  vendor_id : option Z;
  vendor_name : option jsstr;
  vendor_icon : option jsstr;
  vendor_description : option jsstr;
  quota_type : Z;
  model_ratio : double;
  completion_ratio : double;
  model_price : option double;
  cache_ratio : option double;
  create_cache_ratio : option double;
  image_ratio : option double;
  audio_ratio : option double;
  audio_completion_ratio : option double;
  enable_groups : option (list jsstr);
  tags : option jsstr;
  supported_endpoint_types : option (list jsstr);
  group_ratio : option (list (jsstr * double));
  billing_mode : option jsstr;
  billing_expr : option jsstr }.

Record PricingData := mkData {
  pd_data : option (list PricingModel);
  pd_vendors : option (list PricingVendor);
  pd_group_ratio : option (list (jsstr * double)) }.

Definition one : double := of_Z 1.
Definition thousandth : double := of_num (mkNum 1 (-3)).

Definition priceRate (price : option double) : double := max (default one price) thousandth.
Definition usdExchangeRate (usd_exchange_rate price : option double) : double :=
  max (default (priceRate price) usd_exchange_rate) thousandth.

(** [new Map(vendors.map((v) => [v.id, v]))] *)
Definition vendorMap (vendors : list PricingVendor) : list (Z * PricingVendor) :=
  fold_left (fun m v => map_set m (pv_id v) v) vendors [].

Definition withVendor (vendors : list PricingVendor) (ratios : option (list (jsstr * double))) (m : PricingModel)
  : PricingModel :=
  let vendor := match vendor_id m with
                | Some id => if id =? 0 then None else map_get (vendorMap vendors) id
                | None => None
                end in
  mkModel (model_name m) (description m) (vendor_id m) (pv_name <$> vendor) (vendor ≫= pv_icon) (vendor ≫= pv_description)
    (quota_type m) (model_ratio m) (completion_ratio m) (model_price m) (cache_ratio m) (create_cache_ratio m)
    (image_ratio m) (audio_ratio m) (audio_completion_ratio m) (enable_groups m) (tags m) (supported_endpoint_types m)
    ratios (billing_mode m) (billing_expr m).

Definition models (d : option PricingData) : list PricingModel :=
  match d with
  | Some d =>
      match pd_data d, pd_vendors d with
      | Some ms, Some vs => map (withVendor vs (pd_group_ratio d)) ms
      | _, _ => []
      end
  | None => []
  end.

(** ** Filters *)

Definition FILTER_ALL : jsstr := js "all".
Definition NAME : jsstr := js "name".
Definition PRICE_LOW : jsstr := js "price-low".
Definition PRICE_HIGH : jsstr := js "price-high".
Definition TOKEN : jsstr := js "token".

(** [quota_type] of models paid by token and by request. *)
Definition TOKEN_QUOTA : Z := 0.
Definition REQUEST_QUOTA : Z := 1.

(** [x || d] on a number that may be missing. *)
Definition num_or (x : option double) (d : double) : double :=
  match x with
  | Some (S754_zero _) | Some S754_nan | None => d
  | Some v => v
  end.

(** [l?.includes(x)] *)
Definition listed (l : option (list jsstr)) (x : jsstr) : bool :=
  match l with Some l => bool_decide (x ∈ l) | None => false end.

Definition getModelPrice (m : PricingModel) : double :=
  if quota_type m =? TOKEN_QUOTA then model_ratio m else num_or (model_price m) (of_Z 0).

(** [tagsString.split(/[,;|\s]+/)]: a run of separators is one separator. *)
Definition tag_separator (c : Z) : bool := (c =? 44) || (c =? 59) || (c =? 124) || is_space c.

Fixpoint split_runs (class : Z -> bool) (s : jsstr) : list jsstr :=
  match s with
  | [] => [[]]
  | c :: s' =>
      if class c then
        match s' with
        | d :: _ => if class d then split_runs class s' else [] :: split_runs class s'
        | [] => [] :: split_runs class s'
        end
      else
        match split_runs class s' with
        | w :: ws => (c :: w) :: ws
        | [] => [[c]]
        end
  end.

Definition parseTags (tagsString : option jsstr) : list jsstr :=
  match tagsString with
  | Some s => if truthy s then filter_truthy (map trim (split_runs tag_separator s)) else []
  | None => []
  end.

Record Filters := mkFilters {
  f_search : jsstr; f_vendor : jsstr; f_group : jsstr; f_quotaType : jsstr; f_endpointType : jsstr; f_tag : jsstr;
  f_sortBy : jsstr }.

Section Texts.
Variable lower : jsstr -> jsstr.
Variable localeCompare : jsstr -> jsstr -> Z.

(** [s?.toLowerCase().includes(q)] *)
Definition mentions (q : jsstr) (s : option jsstr) : bool :=
  match s with Some s => includes (lower s) q | None => false end.

Definition filterBySearch (ms : list PricingModel) (query : jsstr) : list PricingModel :=
  if negb (truthy query) then ms
  else
    let lowerQuery := lower query in
    List.filter (fun m => mentions lowerQuery (Some (model_name m)) || mentions lowerQuery (description m)
                          || mentions lowerQuery (tags m) || mentions lowerQuery (vendor_name m)) ms.

Definition filterByVendor (ms : list PricingModel) (vendor : jsstr) : list PricingModel :=
  if bool_decide (vendor = FILTER_ALL) then ms else List.filter (fun m => bool_decide (vendor_name m = Some vendor)) ms.

Definition filterByGroup (ms : list PricingModel) (group : jsstr) : list PricingModel :=
  if bool_decide (group = FILTER_ALL) then ms else List.filter (fun m => listed (enable_groups m) group) ms.

Definition filterByQuotaType (ms : list PricingModel) (quotaType : jsstr) : list PricingModel :=
  if bool_decide (quotaType = FILTER_ALL) then ms
  else
    let targetType := if bool_decide (quotaType = TOKEN) then TOKEN_QUOTA else REQUEST_QUOTA in
    List.filter (fun m => quota_type m =? targetType) ms.

Definition filterByEndpointType (ms : list PricingModel) (endpointType : jsstr) : list PricingModel :=
  if bool_decide (endpointType = FILTER_ALL) then ms
  else List.filter (fun m => listed (supported_endpoint_types m) endpointType) ms.

Definition filterByTag (ms : list PricingModel) (tag : jsstr) : list PricingModel :=
  if bool_decide (tag = FILTER_ALL) then ms
  else
    let tagLower := lower tag in
    List.filter (fun m => bool_decide (tagLower ∈ map lower (parseTags (tags m)))) ms.

Definition compareNames (a b : PricingModel) : Z := localeCompare (model_name a) (model_name b).
Definition compareLow (a b : PricingModel) : Z := sign (sub (getModelPrice a) (getModelPrice b)).
Definition compareHigh (a b : PricingModel) : Z := sign (sub (getModelPrice b) (getModelPrice a)).

Definition sortModels (ms : list PricingModel) (sortBy : jsstr) : list PricingModel :=
  if bool_decide (sortBy = NAME) then js_sort compareNames ms
  else if bool_decide (sortBy = PRICE_LOW) then js_sort compareLow ms
  else if bool_decide (sortBy = PRICE_HIGH) then js_sort compareHigh ms
  else ms.

Definition filterAndSortModels (ms : list PricingModel) (filters : Filters) : list PricingModel :=
  let result := filterBySearch ms (f_search filters) in
  let result := filterByVendor result (f_vendor filters) in
  let result := filterByGroup result (f_group filters) in
  let result := filterByQuotaType result (f_quotaType filters) in
  let result := filterByEndpointType result (f_endpointType filters) in
  let result := filterByTag result (f_tag filters) in
  sortModels result (f_sortBy filters).

(** A model without tags adds nothing: [parseTags] gives none. *)
Definition extractAllTags (ms : list PricingModel) : list jsstr :=
  js_sort localeCompare
    (fold_left (fun tagSet m => fold_left (fun tagSet tag => set_add tagSet (lower tag)) (parseTags (tags m)) tagSet) ms []).

(** ** The state of the filters *)

Inductive TokenUnit := UnitM | UnitK.
Inductive ViewMode := CARD | TABLE.

#[export] Instance ViewMode_eq_dec : EqDecision ViewMode.
Proof. solve_decision. Defined.
#[export] Instance TokenUnit_eq_dec : EqDecision TokenUnit.
Proof. solve_decision. Defined.

Record FilterState := mkFilterState {
  fs_search : option jsstr; fs_sort : option jsstr; fs_vendor : option jsstr; fs_group : option jsstr;
  fs_quotaType : option jsstr; fs_endpointType : option jsstr; fs_tag : option jsstr; fs_tokenUnit : option TokenUnit;
  fs_view : option ViewMode; fs_rechargePrice : option bool }.

(** [s || d] *)
Definition text_or (s : option jsstr) (d : jsstr) : jsstr :=
  match s with Some s => if truthy s then s else d | None => d end.

Definition searchInput (s : FilterState) : jsstr := text_or (fs_search s) [].
Definition sortBy (s : FilterState) : jsstr := text_or (fs_sort s) NAME.
Definition vendorFilter (s : FilterState) : jsstr := text_or (fs_vendor s) FILTER_ALL.
Definition groupFilter (s : FilterState) : jsstr := text_or (fs_group s) FILTER_ALL.
Definition quotaTypeFilter (s : FilterState) : jsstr := text_or (fs_quotaType s) FILTER_ALL.
Definition endpointTypeFilter (s : FilterState) : jsstr := text_or (fs_endpointType s) FILTER_ALL.
Definition tagFilter (s : FilterState) : jsstr := text_or (fs_tag s) FILTER_ALL.
Definition tokenUnit (s : FilterState) : TokenUnit := if bool_decide (fs_tokenUnit s = Some UnitK) then UnitK else UnitM.
Definition viewMode (s : FilterState) : ViewMode := if bool_decide (fs_view s = Some TABLE) then TABLE else CARD.
Definition showRechargePrice (s : FilterState) : bool := bool_decide (fs_rechargePrice s = Some true).

(** The updates that the setters pass to [updateFilters]; a property that is
    set to [undefined] is deleted. *)
Definition unless {A} (b : bool) (x : A) : option A := if b then None else Some x.

Definition setSearchInput (v : jsstr) (s : FilterState) : FilterState :=
  mkFilterState (unless (negb (truthy v)) v) (fs_sort s) (fs_vendor s) (fs_group s) (fs_quotaType s) (fs_endpointType s)
    (fs_tag s) (fs_tokenUnit s) (fs_view s) (fs_rechargePrice s).
Definition setSortBy (v : jsstr) (s : FilterState) : FilterState :=
  mkFilterState (fs_search s) (unless (bool_decide (v = NAME)) v) (fs_vendor s) (fs_group s) (fs_quotaType s)
    (fs_endpointType s) (fs_tag s) (fs_tokenUnit s) (fs_view s) (fs_rechargePrice s).
Definition setVendorFilter (v : jsstr) (s : FilterState) : FilterState :=
  mkFilterState (fs_search s) (fs_sort s) (unless (bool_decide (v = FILTER_ALL)) v) (fs_group s) (fs_quotaType s)
    (fs_endpointType s) (fs_tag s) (fs_tokenUnit s) (fs_view s) (fs_rechargePrice s).
Definition setGroupFilter (v : jsstr) (s : FilterState) : FilterState :=
  mkFilterState (fs_search s) (fs_sort s) (fs_vendor s) (unless (bool_decide (v = FILTER_ALL)) v) (fs_quotaType s)
    (fs_endpointType s) (fs_tag s) (fs_tokenUnit s) (fs_view s) (fs_rechargePrice s).
Definition setQuotaTypeFilter (v : jsstr) (s : FilterState) : FilterState :=
  mkFilterState (fs_search s) (fs_sort s) (fs_vendor s) (fs_group s) (unless (bool_decide (v = FILTER_ALL)) v)
    (fs_endpointType s) (fs_tag s) (fs_tokenUnit s) (fs_view s) (fs_rechargePrice s).
Definition setEndpointTypeFilter (v : jsstr) (s : FilterState) : FilterState :=
  mkFilterState (fs_search s) (fs_sort s) (fs_vendor s) (fs_group s) (fs_quotaType s)
    (unless (bool_decide (v = FILTER_ALL)) v) (fs_tag s) (fs_tokenUnit s) (fs_view s) (fs_rechargePrice s).
Definition setTagFilter (v : jsstr) (s : FilterState) : FilterState :=
  mkFilterState (fs_search s) (fs_sort s) (fs_vendor s) (fs_group s) (fs_quotaType s) (fs_endpointType s)
    (unless (bool_decide (v = FILTER_ALL)) v) (fs_tokenUnit s) (fs_view s) (fs_rechargePrice s).
Definition setTokenUnit (v : TokenUnit) (s : FilterState) : FilterState :=
  mkFilterState (fs_search s) (fs_sort s) (fs_vendor s) (fs_group s) (fs_quotaType s) (fs_endpointType s) (fs_tag s)
    (unless (bool_decide (v = UnitM)) v) (fs_view s) (fs_rechargePrice s).
Definition setViewMode (v : ViewMode) (s : FilterState) : FilterState :=
  mkFilterState (fs_search s) (fs_sort s) (fs_vendor s) (fs_group s) (fs_quotaType s) (fs_endpointType s) (fs_tag s)
    (fs_tokenUnit s) (unless (bool_decide (v = CARD)) v) (fs_rechargePrice s).
Definition setShowRechargePrice (v : bool) (s : FilterState) : FilterState :=
  mkFilterState (fs_search s) (fs_sort s) (fs_vendor s) (fs_group s) (fs_quotaType s) (fs_endpointType s) (fs_tag s)
    (fs_tokenUnit s) (fs_view s) (unless (negb v) v).
Definition clearFilters (s : FilterState) : FilterState :=
  mkFilterState (fs_search s) (fs_sort s) None None None None None (fs_tokenUnit s) (fs_view s) (fs_rechargePrice s).
Definition clearSearch (s : FilterState) : FilterState :=
  mkFilterState None (fs_sort s) (fs_vendor s) (fs_group s) (fs_quotaType s) (fs_endpointType s) (fs_tag s)
    (fs_tokenUnit s) (fs_view s) (fs_rechargePrice s).

Definition availableTags (ms : list PricingModel) : list jsstr := extractAllTags ms.

Definition filteredModels (ms : list PricingModel) (s : FilterState) : list PricingModel :=
  filterAndSortModels ms
    (mkFilters (searchInput s) (vendorFilter s) (groupFilter s) (quotaTypeFilter s) (endpointTypeFilter s) (tagFilter s)
       (sortBy s)).

Definition activeFilters (s : FilterState) : list bool :=
  map (fun f => negb (bool_decide (f = FILTER_ALL)))
    [vendorFilter s; groupFilter s; quotaTypeFilter s; endpointTypeFilter s; tagFilter s].

Definition hasActiveFilters (s : FilterState) : bool := existsb id (activeFilters s).
Definition activeFilterCount (s : FilterState) : Z := fold_left (fun n b => n + (if b : bool then 1 else 0)) (activeFilters s) 0.
End Texts.

(** ** Prices of a model *)

Definition EXCLUDED_GROUPS : list jsstr := [[]; js "auto"].

Definition getAvailableGroups (m : PricingModel) (usableGroup : list jsstr) : list jsstr :=
  List.filter (fun g => bool_decide (g ∈ default [] (enable_groups m)))
    (List.filter (fun g => negb (bool_decide (g ∈ EXCLUDED_GROUPS))) usableGroup).

Definition isTokenBasedModel (m : PricingModel) : bool := quota_type m =? TOKEN_QUOTA.

Definition infinity : double := S754_infinity false.

(** The loop over the groups of a model. *)
Definition lowerRatio (ratios : list (jsstr * double)) (minRatio : double) (group : jsstr) : double :=
  match map_get ratios group with
  | Some ratio => if SFltb ratio minRatio then ratio else minRatio
  | None => minRatio
  end.

Definition getMinGroupRatio (enableGroups : list jsstr) (groupRatio : list (jsstr * double)) : double :=
  match enableGroups with
  | [] => one
  | _ =>
      let minRatio := fold_left (lowerRatio groupRatio) enableGroups infinity in
      if SFeqb minRatio infinity then one else minRatio
  end.

Inductive PriceType := Pinput | Poutput | Pcache | Pcreate_cache | Pimage | Paudio_input | Paudio_output.

Definition hasRatio (x : option double) : bool := match x with Some x => is_finite x | None => false end.

(** [hasRatio(x) ? base * Number(x) : NaN] *)
Definition timesRatio (base : double) (x : option double) : double :=
  match x with Some v => if hasRatio x then mul base v else S754_nan | None => S754_nan end.

Definition calculateTokenPrice (m : PricingModel) (type : PriceType) (ratio : double) : double :=
  let base := mul (mul (model_ratio m) (of_Z 2)) ratio in
  match type with
  | Pinput => base
  | Poutput => mul base (completion_ratio m)
  | Pcache => timesRatio base (cache_ratio m)
  | Pcreate_cache => timesRatio base (create_cache_ratio m)
  | Pimage => timesRatio base (image_ratio m)
  | Paudio_input => timesRatio base (audio_ratio m)
  | Paudio_output =>
      if hasRatio (audio_ratio m) then timesRatio (timesRatio base (audio_ratio m)) (audio_completion_ratio m) else S754_nan
  end.

Definition applyRechargeRate (price : double) (showWithRecharge : bool) (priceRate usdExchangeRate : double) : double :=
  if negb showWithRecharge then price else div (mul price priceRate) usdExchangeRate.

Definition TOKEN_UNIT_DIVISORS (u : TokenUnit) : double := match u with UnitM => of_Z 1 | UnitK => of_Z 1000 end.

(** How prices are shown: the recharge switch and the two rates. *)
Record Rates := mkRates { showWithRecharge : bool; r_priceRate : double; r_usdExchangeRate : double }.

Definition atRates (r : Rates) (price : double) : double :=
  applyRechargeRate price (showWithRecharge r) (r_priceRate r) (r_usdExchangeRate r).

Definition formatPrice (m : PricingModel) (type : PriceType) (u : TokenUnit) (r : Rates) : option double :=
  if quota_type m =? REQUEST_QUOTA then None
  else
    let minRatio := getMinGroupRatio (default [] (enable_groups m)) (default [] (group_ratio m)) in
    Some (div (atRates r (calculateTokenPrice m type minRatio)) (TOKEN_UNIT_DIVISORS u)).

Definition formatGroupPrice (m : PricingModel) (group : jsstr) (type : PriceType) (u : TokenUnit) (r : Rates)
    (groupRatio : list (jsstr * double)) : option double :=
  if quota_type m =? REQUEST_QUOTA then None
  else
    let ratio := num_or (map_get groupRatio group) one in
    Some (div (atRates r (calculateTokenPrice m type ratio)) (TOKEN_UNIT_DIVISORS u)).

Definition formatFixedPrice (m : PricingModel) (group : jsstr) (r : Rates) (groupRatio : list (jsstr * double)) : option double :=
  if negb (quota_type m =? REQUEST_QUOTA) then None
  else
    let ratio := num_or (map_get groupRatio group) one in
    Some (atRates r (mul (num_or (model_price m) (of_Z 0)) ratio)).

Definition formatRequestPrice (m : PricingModel) (r : Rates) : option double :=
  if negb (quota_type m =? REQUEST_QUOTA) then None
  else
    let minRatio := getMinGroupRatio (default [] (enable_groups m)) (default [] (group_ratio m)) in
    Some (atRates r (mul (num_or (model_price m) (of_Z 0)) minRatio)).

(** ** Tiered prices *)

Definition isDynamicPricingModel (m : PricingModel) : bool :=
  bool_decide (billing_mode m = Some (js "tiered_expr")) && truthy (default [] (billing_expr m)).

Definition getDynamicDisplayGroupRatio (m : PricingModel) : double :=
  let groups := default [] (enable_groups m) in
  let ratios := default [] (group_ratio m) in
  if (length groups =? 0)%nat then one
  else
    let minRatio := fold_left (lowerRatio ratios) groups infinity in
    if SFeqb minRatio infinity then one else minRatio.

Record DynamicPriceOptions := mkOptions {
  o_tokenUnit : TokenUnit; o_showRechargePrice : option bool; o_priceRate : option double; o_usdExchangeRate : option double;
  o_groupRatioMultiplier : option double }.

Definition formatDynamicUnitPrice (valuePerMillionTokens : double) (o : DynamicPriceOptions) : double :=
  let groupRatio := default one (o_groupRatioMultiplier o) in
  let priceRate := default one (o_priceRate o) in
  let usdExchangeRate := default one (o_usdExchangeRate o) in
  let priceUSD := div (mul valuePerMillionTokens groupRatio) (TOKEN_UNIT_DIVISORS (o_tokenUnit o)) in
  applyRechargeRate priceUSD (default false (o_showRechargePrice o)) priceRate usdExchangeRate.

Definition getDynamicPricingTiers (m : PricingModel) : option (list ParsedTier) :=
  if negb (isDynamicPricingModel m) then Some []
  else
    split ← BillingExpr.splitBillingExprAndRequestRules (default [] (billing_expr m));
    Some (parseTiersFromExpr (BillingExpr.billingExpr split)).

Definition hasDynamicRequestRules (m : PricingModel) : option bool :=
  if negb (isDynamicPricingModel m) then Some false
  else
    split ← BillingExpr.splitBillingExprAndRequestRules (default [] (billing_expr m));
    rules ← BillingExpr.tryParseRequestRuleExpr (BillingExpr.requestRuleExpr split);
    Some (match rules with Some (_ :: _) => true | _ => false end).

Record DynamicPriceEntry := mkEntry {
  e_key : jsstr; e_field : jsstr; e_label : jsstr; e_shortLabel : jsstr; e_value : double; e_formatted : double;
  e_variable : BillingVar }.

Definition PRIMARY_DYNAMIC_FIELDS : list jsstr := [js "inputPrice"; js "outputPrice"].

Definition isPrimary (e : DynamicPriceEntry) : bool := bool_decide (e_field e ∈ PRIMARY_DYNAMIC_FIELDS).

Definition comparePrimary (a b : DynamicPriceEntry) : Z :=
  if negb (Bool.eqb (isPrimary a) (isPrimary b)) then if isPrimary a then -1 else 1 else 0.

(** One variable of the tier: nothing for a price that is not positive. *)
Definition priceEntry (tier : ParsedTier) (o : DynamicPriceOptions) (v : BillingVar) : option DynamicPriceEntry :=
  f ← field v;
  n ← map_get (pt_prices tier) f;
  let x := of_num n in
  if negb (is_finite x) || SFleb x (of_Z 0) then None
  else Some (mkEntry (key v) f (v_label v) (shortLabel v) x (formatDynamicUnitPrice x o) v).

Definition getDynamicPriceEntries (tier : option ParsedTier) (o : DynamicPriceOptions) : list DynamicPriceEntry :=
  match tier with
  | None => []
  | Some tier => js_sort comparePrimary (omap (priceEntry tier o) BILLING_PRICING_VARS)
  end.

Record DynamicPricingSummary := mkSummary {
  s_tiers : list ParsedTier; s_tier : option ParsedTier; tierCount : nat; hasRequestRules : bool;
  isSpecialExpression : bool; rawExpression : jsstr; entries : list DynamicPriceEntry;
  primaryEntries : list DynamicPriceEntry; secondaryEntries : list DynamicPriceEntry }.

Definition getDynamicPricingSummary (m : PricingModel) (o : DynamicPriceOptions) : option (option DynamicPricingSummary) :=
  if negb (isDynamicPricingModel m) then Some None
  else
    tiers ← getDynamicPricingTiers m;
    rules ← hasDynamicRequestRules m;
    let tier := head tiers in
    let es := getDynamicPriceEntries tier o in
    let raw := default [] (billing_expr m) in
    Some (Some (mkSummary tiers tier (length tiers) rules (truthy (trim raw) && (length tiers =? 0)%nat) raw es
      (List.filter isPrimary es) (List.filter (fun e => negb (isPrimary e)) es))).

(** ** The table of group prices *)

(** [Array.from(new Map(entries.map((entry) => [entry.field, entry])).values())] *)
Definition getDynamicPriceFields (tiers : list ParsedTier) (o : DynamicPriceOptions) : list DynamicPriceEntry :=
  map_values (fold_left (fun m e => map_set m (e_field e) e) (tiers ≫= fun t => getDynamicPriceEntries (Some t) o) []).

(** The prices of one tier by field; the outer map of the page has one entry
    for each tier. *)
Definition formattedPrices (tier : ParsedTier) (o : DynamicPriceOptions) : list (jsstr * double) :=
  fold_left (fun m e => map_set m (e_field e) (e_formatted e)) (getDynamicPriceEntries (Some tier) o) [].

Definition extraPriceTypes (m : PricingModel) : list PriceType :=
  let given (x : option double) := match x with Some _ => true | None => false end in
  (if given (cache_ratio m) then [Pcache] else []) ++
  (if given (create_cache_ratio m) then [Pcreate_cache] else []) ++
  (if given (image_ratio m) then [Pimage] else []) ++
  (if given (audio_ratio m) then [Paudio_input] else []) ++
  (if given (audio_ratio m) && given (audio_completion_ratio m) then [Paudio_output] else []).

(** One table for each group: its ratio, and the cells of each tier. *)
Record TierTable := mkTierTable { tt_group : jsstr; tt_ratio : double; tt_rows : list (jsstr * list (option double)) }.

(** One row for each group: its ratio and its prices. *)
Record GroupRow := mkGroupRow { gr_group : jsstr; gr_ratio : double; gr_cells : list (option double) }.

Inductive GroupSection :=
| NoGroups
| SpecialExpression (raw : jsstr)
| TierTables (columns : list DynamicPriceEntry) (tables : list TierTable)
| TokenTable (columns : list PriceType) (rows : list GroupRow)
| RequestTable (rows : list GroupRow).

Definition GroupPricingSection (m : PricingModel) (groupRatio : list (jsstr * double)) (usableGroup : list jsstr)
    (u : TokenUnit) (r : Rates) : option GroupSection :=
  let groups := getAvailableGroups m usableGroup in
  let ratioOf g := num_or (map_get groupRatio g) one in
  let options ratio :=
    mkOptions u (Some (showWithRecharge r)) (Some (r_priceRate r)) (Some (r_usdExchangeRate r)) (Some ratio) in
  if (length groups =? 0)%nat then Some NoGroups
  else if isDynamicPricingModel m then
    tiers ← getDynamicPricingTiers m;
    if (length tiers =? 0)%nat then Some (SpecialExpression (default [] (billing_expr m)))
    else
      let columns := getDynamicPriceFields tiers (options one) in
      Some (TierTables columns
        (map (fun g =>
           let o := options (ratioOf g) in
           mkTierTable g (ratioOf g)
             (map (fun t => (pt_label t, map (fun c => map_get (formattedPrices t o) (e_field c)) columns)) tiers)) groups))
  else if isTokenBasedModel m then
    let columns := Pinput :: Poutput :: extraPriceTypes m in
    Some (TokenTable columns
      (map (fun g => mkGroupRow g (ratioOf g) (map (fun ty => formatGroupPrice m g ty u r groupRatio) columns)) groups))
  else
    Some (RequestTable (map (fun g => mkGroupRow g (ratioOf g) [formatFixedPrice m g r groupRatio]) groups)).

End PricePage.
