(* ===== verification/PricePageProperties.v ===== *)
(** * What the price page shows

    Which models the filters leave and in which order, which tags they offer,
    which ratio a price is shown at, and that the page shows the tiers that the
    administrator edited. *)

From S2P Require Import Prelude JsString JsCollections Json JsonNumber JsValue JsDouble JsDoubleOrder BillingExpr BillingExprFacts BillingExprProperties Regex TierExpr TierExprFacts TierExprProperties TierBreakdown TierTexts ModelPricing PricePage.
From Stdlib Require Import Floats.SpecFloat.

Module PricePageProperties.
Import Json JsValue JsDouble JsDoubleOrder TierExpr TierExprFacts TierExprProperties TierBreakdown TierTexts PricePage.

(** ** Filters *)

(** Comparators that agree on the elements of an array sort it alike. *)
Lemma js_sort_ext {A} (c1 c2 : A -> A -> Z) l :
  (forall a b, a ∈ l -> b ∈ l -> (c1 a b <? 0) = (c2 a b <? 0)) -> js_sort c1 l = js_sort c2 l.
Proof.
  intros H. unfold js_sort.
  assert (forall xs acc, (forall x, x ∈ xs \/ x ∈ acc -> x ∈ l) ->
    fold_left (fun acc x => sort_insert c1 x acc) xs acc = fold_left (fun acc x => sort_insert c2 x acc) xs acc) as Hgen;
    [|apply Hgen; set_solver].
  induction xs as [|x xs IH]; intros acc Hin; [done|]. cbn [fold_left].
  assert (sort_insert c1 x acc = sort_insert c2 x acc) as <-.
  { clear IH. induction acc as [|y acc IHa]; [done|]. cbn [sort_insert].
    rewrite H by (apply Hin; set_solver). case_match; [done|]. f_equal. apply IHa. set_solver. }
  apply IH. intros y [Hy|Hy]; [|rewrite sort_insert_perm in Hy]; apply Hin; set_solver.
Qed.

Lemma sorted_weaken {A} (R S : A -> A -> Prop) l :
  (forall a b, R a b -> S a b) -> StronglySorted R l -> StronglySorted S l.
Proof. intros H. induction 1 as [|x l _ IH Hx]; constructor; [done|]. eapply Forall_impl; [exact Hx|]. apply H. Qed.

Section Filtering.
Variable lower : jsstr -> jsstr.
Variable localeCompare : jsstr -> jsstr -> Z.
#[local] Abbreviation filtered := (filteredModels lower localeCompare).

(** The conditions that a choice of filters puts on a model; no choice and the
    choice of all put none. *)
Definition chosen (f : option jsstr) : option jsstr :=
  match f with Some s => if truthy s && negb (bool_decide (s = FILTER_ALL)) then Some s else None | None => None end.

Definition allows {A} (c : option A) (test : A -> bool) : bool := match c with Some x => test x | None => true end.

Definition passes_filters (s : FilterState) (m : PricingModel) : bool :=
  allows (match searchInput s with [] => None | q => Some q end) (fun q =>
    existsb (mentions lower (lower q)) [Some (model_name m); description m; tags m; vendor_name m]) &&
  allows (chosen (fs_vendor s)) (fun v => bool_decide (vendor_name m = Some v)) &&
  allows (chosen (fs_group s)) (fun g => bool_decide (g ∈ default [] (enable_groups m))) &&
  allows (chosen (fs_quotaType s)) (fun q => quota_type m =? (if bool_decide (q = TOKEN) then 0 else 1)) &&
  allows (chosen (fs_endpointType s)) (fun e => bool_decide (e ∈ default [] (supported_endpoint_types m))) &&
  allows (chosen (fs_tag s)) (fun t => bool_decide (lower t ∈ map lower (parseTags (tags m)))).

Lemma listed_default l x : listed l x = bool_decide (x ∈ default [] l).
Proof. destruct l; [done|]. cbn. rewrite bool_decide_eq_false_2; [done|]. set_solver. Qed.

Lemma filter_true {A} (f : A -> bool) l : (forall x, f x = true) -> List.filter f l = l.
Proof. intros H. induction l as [|x l IH]; [done|]. cbn. by rewrite H, IH. Qed.

(** A filter with a choice that may be all. *)
Lemma filter_chosen (f : option jsstr) (test : jsstr -> PricingModel -> bool) ms :
  (if bool_decide (text_or f FILTER_ALL = FILTER_ALL) then ms else List.filter (test (text_or f FILTER_ALL)) ms)
  = List.filter (fun m => allows (chosen f) (fun v => test v m)) ms.
Proof.
  destruct f as [[|c s]|]; cbn [text_or chosen truthy andb allows].
  - rewrite bool_decide_eq_true_2 by done. by rewrite filter_true.
  - case_bool_decide; cbn [negb allows]; [by rewrite filter_true|done].
  - rewrite bool_decide_eq_true_2 by done. by rewrite filter_true.
Qed.

Lemma filter_search ms q :
  filterBySearch lower ms q = List.filter (fun m => allows (match q with [] => None | q => Some q end) (fun q =>
    existsb (mentions lower (lower q)) [Some (model_name m); description m; tags m; vendor_name m])) ms.
Proof.
  unfold filterBySearch. destruct q as [|c q]; cbn [truthy negb allows]; [by rewrite filter_true|].
  apply List.filter_ext. intros m. cbn [existsb]. by rewrite orb_false_r, !orb_assoc.
Qed.

Lemma filter_vendor ms f :
  filterByVendor ms (text_or f FILTER_ALL)
  = List.filter (fun m => allows (chosen f) (fun v => bool_decide (vendor_name m = Some v))) ms.
Proof. exact (filter_chosen f (fun v m => bool_decide (vendor_name m = Some v)) ms). Qed.

Lemma filter_group ms f :
  filterByGroup ms (text_or f FILTER_ALL)
  = List.filter (fun m => allows (chosen f) (fun g => bool_decide (g ∈ default [] (enable_groups m)))) ms.
Proof.
  etrans; [exact (filter_chosen f (fun g m => listed (enable_groups m) g) ms)|]. apply List.filter_ext. intros m.
  destruct (chosen f); [apply listed_default|done].
Qed.

Lemma filter_quota ms f :
  filterByQuotaType ms (text_or f FILTER_ALL)
  = List.filter (fun m => allows (chosen f) (fun q => quota_type m =? (if bool_decide (q = TOKEN) then 0 else 1))) ms.
Proof. exact (filter_chosen f (fun q m => quota_type m =? (if bool_decide (q = TOKEN) then TOKEN_QUOTA else REQUEST_QUOTA)) ms). Qed.

Lemma filter_endpoint ms f :
  filterByEndpointType ms (text_or f FILTER_ALL)
  = List.filter (fun m => allows (chosen f) (fun e => bool_decide (e ∈ default [] (supported_endpoint_types m)))) ms.
Proof.
  etrans; [exact (filter_chosen f (fun e m => listed (supported_endpoint_types m) e) ms)|]. apply List.filter_ext. intros m.
  destruct (chosen f); [apply listed_default|done].
Qed.

Lemma filter_tag ms f :
  filterByTag lower ms (text_or f FILTER_ALL)
  = List.filter (fun m => allows (chosen f) (fun t => bool_decide (lower t ∈ map lower (parseTags (tags m))))) ms.
Proof. exact (filter_chosen f (fun t m => bool_decide (lower t ∈ map lower (parseTags (tags m)))) ms). Qed.

(** The filters together. *)
Lemma filtered_unsorted ms s :
  filtered ms s = sortModels localeCompare (List.filter (passes_filters s) ms) (sortBy s).
Proof.
  unfold filteredModels, filterAndSortModels. cbn [f_search f_vendor f_group f_quotaType f_endpointType f_tag f_sortBy].
  unfold vendorFilter, groupFilter, quotaTypeFilter, endpointTypeFilter, tagFilter. cbv zeta.
  rewrite filter_search, filter_vendor, filter_group, filter_quota, filter_endpoint, filter_tag, !filter_filter.
  f_equal. apply List.filter_ext. intros m. unfold passes_filters. rewrite !andb_assoc. by destruct (searchInput s).
Qed.

Lemma sortModels_perm ms by_ : sortModels localeCompare ms by_ ≡ₚ ms.
Proof. unfold sortModels. repeat case_bool_decide; rewrite ?js_sort_perm; done. Qed.

Definition priced (m : PricingModel) : bool := regular (getModelPrice m).

Lemma sorted_low ms :
  forallb priced ms = true ->
  StronglySorted (fun a b => value (getModelPrice a) <= value (getModelPrice b)) (js_sort compareLow ms).
Proof.
  intros H. rewrite forallb_forall in H.
  rewrite (js_sort_ext compareLow (fun a b => value (getModelPrice a) - value (getModelPrice b))).
  - eapply sorted_weaken; [|apply js_sort_sorted, comparator_sub]. intros a b. cbn. lia.
  - intros a b Ha Hb. unfold compareLow. rewrite sub_sign by (by apply H, list_elem_of_In).
    destruct (Z.sgn_spec (value (getModelPrice a) - value (getModelPrice b))) as [[? ->]|[[? ->]|[? ->]]]; lia.
Qed.

Lemma sorted_high ms :
  forallb priced ms = true ->
  StronglySorted (fun a b => value (getModelPrice b) <= value (getModelPrice a)) (js_sort compareHigh ms).
Proof.
  intros H. rewrite forallb_forall in H.
  rewrite (js_sort_ext compareHigh (fun a b => value (getModelPrice b) - value (getModelPrice a))).
  - eapply sorted_weaken; [|apply js_sort_sorted, comparator_sub_desc]. intros a b. cbn. lia.
  - intros a b Ha Hb. unfold compareHigh. rewrite sub_sign by (by apply H, list_elem_of_In).
    destruct (Z.sgn_spec (value (getModelPrice b) - value (getModelPrice a))) as [[? ->]|[[? ->]|[? ->]]]; lia.
Qed.

Lemma priced_filter f ms : forallb priced ms = true -> forallb priced (List.filter f ms) = true.
Proof. rewrite !forallb_forall. intros H x Hx%List.filter_In. apply H, Hx. Qed.

(** C25: the page lists exactly the models that meet the search and every chosen
    filter, each as often as it is offered, in the chosen order: by name as
    [localeCompare] orders them, or by rising or falling price, where the
    comparison by a rounded difference of doubles never mistakes two prices. *)
Theorem page_lists_what_was_asked ms s :
  Comparator localeCompare -> forallb priced ms = true ->
  filtered ms s ≡ₚ List.filter (passes_filters s) ms /\
  (sortBy s = NAME -> StronglySorted (fun a b => localeCompare (model_name a) (model_name b) <= 0) (filtered ms s)) /\
  (sortBy s = PRICE_LOW -> StronglySorted (fun a b => value (getModelPrice a) <= value (getModelPrice b)) (filtered ms s)) /\
  (sortBy s = PRICE_HIGH -> StronglySorted (fun a b => value (getModelPrice b) <= value (getModelPrice a)) (filtered ms s)).
Proof.
  intros Hc Hp. rewrite filtered_unsorted. split; [apply sortModels_perm|].
  apply (priced_filter (passes_filters s)) in Hp. unfold sortModels.
  split_and!; intros ->; rewrite ?bool_decide_eq_true_2, ?bool_decide_eq_false_2 by done.
  - apply js_sort_sorted. by apply comparator_on.
  - by apply sorted_low.
  - by apply sorted_high.
Qed.

(** ** Tags *)

Lemma tag_set_elem ms s tag :
  tag ∈ fold_left (fun tagSet m => fold_left (fun tagSet t => set_add tagSet (lower t)) (parseTags (tags m)) tagSet) ms s <->
  tag ∈ s \/ exists m, m ∈ ms /\ tag ∈ map lower (parseTags (tags m)).
Proof.
  assert (forall ts s, tag ∈ fold_left (fun tagSet t => set_add tagSet (lower t)) ts s <-> tag ∈ s \/ tag ∈ map lower ts) as Hone.
  { induction ts as [|t ts IH]; intros s0; cbn [fold_left map]; [set_solver|]. rewrite IH, set_add_elem. set_solver. }
  revert s. induction ms as [|m ms IH]; intros s; cbn [fold_left]; [set_solver|]. rewrite IH, Hone. set_solver.
Qed.

(** The tags on offer are the tags of the models, in lower case. *)
Lemma offered_tags ms tag :
  tag ∈ extractAllTags lower localeCompare ms <-> exists m, m ∈ ms /\ tag ∈ map lower (parseTags (tags m)).
Proof. unfold extractAllTags. rewrite js_sort_elem, tag_set_elem. set_solver. Qed.

(** Choosing a tag that the page offers, with no other filter, shows a
    model: every offer leads somewhere.  The exception is a tag that is spelled
    like the choice of all. *)
Theorem offered_tag_shows_a_model ms tag :
  (forall s, lower (lower s) = lower s) -> tag ∈ availableTags lower localeCompare ms -> tag <> FILTER_ALL ->
  exists m, m ∈ filterByTag lower ms tag /\ tag ∈ map lower (parseTags (tags m)).
Proof.
  intros Hidem (m & Hm & Ht)%offered_tags Hne. exists m. split; [|done]. unfold filterByTag.
  rewrite bool_decide_eq_false_2 by done. apply list_elem_of_In, List.filter_In. split; [by apply list_elem_of_In|].
  apply bool_decide_eq_true. assert (lower tag = tag) as ->; [|done].
  apply list_elem_of_In, in_map_iff in Ht as (t & <- & _). apply Hidem.
Qed.

(** ** Changing the filters *)

(** Clearing leaves the search and the order, removes every filter, and the
    badge counts none. *)
Lemma chosen_all f : bool_decide (text_or f FILTER_ALL = FILTER_ALL) = bool_decide (chosen f = None).
Proof. destruct f as [[|c s]|]; try done. cbn [text_or truthy chosen andb]. by case_bool_decide. Qed.

Definition choices (s : FilterState) : list (option jsstr) :=
  map chosen [fs_vendor s; fs_group s; fs_quotaType s; fs_endpointType s; fs_tag s].

Lemma active_choices s : activeFilters s = map (fun c => negb (bool_decide (c = None))) (choices s).
Proof.
  unfold activeFilters, choices, vendorFilter, groupFilter, quotaTypeFilter, endpointTypeFilter, tagFilter.
  cbn [map]. by rewrite !chosen_all.
Qed.

(** The badge counts the filters that restrict the list; it is shown when
    there is one, and clearing leaves the matches of the search. *)
Theorem active_filters_are_counted ms s :
  activeFilterCount s = Z.of_nat (length (omap id (choices s))) /\
  hasActiveFilters s = (0 <? activeFilterCount s) /\
  activeFilterCount (clearFilters s) = 0 /\
  filtered ms (clearFilters s) = sortModels localeCompare (filterBySearch lower ms (searchInput s)) (sortBy s).
Proof.
  unfold hasActiveFilters, activeFilterCount. rewrite active_choices. split_and!; [..|done|].
  - unfold choices. cbn [map]. destruct (chosen (fs_vendor s)), (chosen (fs_group s)), (chosen (fs_quotaType s)),
      (chosen (fs_endpointType s)), (chosen (fs_tag s)); reflexivity.
  - unfold choices. cbn [map]. destruct (chosen (fs_vendor s)), (chosen (fs_group s)), (chosen (fs_quotaType s)),
      (chosen (fs_endpointType s)), (chosen (fs_tag s)); reflexivity.
  - rewrite filtered_unsorted, filter_search. f_equal. apply List.filter_ext. intros m. unfold passes_filters.
    cbn [clearFilters fs_vendor fs_group fs_quotaType fs_endpointType fs_tag chosen allows]. rewrite !andb_true_r.
    change (searchInput (clearFilters s)) with (searchInput s). by destruct (searchInput s).
Qed.
End Filtering.

(** A tag that reads all can be offered but not chosen. *)
Example tag_all_is_no_filter ms : filterByTag id ms (js "all") = ms.
Proof. reflexivity. Qed.

(** ** Ratios *)

Definition ratios_ok (ratios : list (jsstr * double)) : bool := forallb (fun gr => regular gr.2) ratios.

(** The ratios that the groups of a model have. *)
Definition known (groups : list jsstr) (ratios : list (jsstr * double)) : list double := omap (map_get ratios) groups.

Lemma known_regular groups ratios r : ratios_ok ratios = true -> r ∈ known groups ratios -> regular r = true.
Proof.
  unfold ratios_ok, known. rewrite forallb_forall. intros H (g & _ & Hg%map_get_Some_elem)%list_elem_of_omap.
  by apply (H (g, r)), list_elem_of_In.
Qed.

Definition lesser (m r : double) : double := if SFltb r m then r else m.

Lemma fold_known groups ratios m :
  fold_left (lowerRatio ratios) groups m = fold_left lesser (known groups ratios) m.
Proof.
  unfold known. revert m. induction groups as [|g groups IH]; intros m; [done|]. cbn [fold_left omap list_omap].
  unfold lowerRatio at 2. destruct (map_get ratios g) as [r|]; [|apply IH]. cbn [fold_left]. apply IH.
Qed.

(** The least of the numbers, from a number of theirs. *)
Lemma fold_least rs m :
  Forall (fun r => regular r = true) (m :: rs) ->
  let x := fold_left lesser rs m in
  x ∈ m :: rs /\ Forall (fun r => value x <= value r) (m :: rs).
Proof.
  revert m. induction rs as [|r rs IH]; intros m H; cbn [fold_left]; [split; [left|by repeat constructor]|].
  inversion_clear H as [|? ? Hm H']. inversion_clear H' as [|? ? Hr Hrs]. cbv zeta in IH.
  assert (lesser m r = if value r <? value m then r else m) as -> by (unfold lesser, SFltb; by rewrite compare_value, Z.ltb_compare by done).
  destruct (value r <? value m) eqn:E; bool_hyps.
  - destruct (IH r) as [Hin Hle]; [by constructor|]. apply Forall_cons in Hle as [Hx Hle].
    split; [set_solver|]. repeat constructor; [lia|lia|done].
  - destruct (IH m) as [Hin Hle]; [by constructor|]. apply Forall_cons in Hle as [Hx Hle].
    split; [set_solver|]. repeat constructor; [lia|lia|done].
Qed.

Lemma min_ratio_spec groups ratios :
  ratios_ok ratios = true ->
  (known groups ratios = [] -> getMinGroupRatio groups ratios = one) /\
  (known groups ratios <> [] -> getMinGroupRatio groups ratios ∈ known groups ratios /\
     Forall (fun r => value (getMinGroupRatio groups ratios) <= value r) (known groups ratios)).
Proof.
  intros Hok. unfold getMinGroupRatio. destruct groups as [|g groups]; [done|]. rewrite fold_known.
  assert (Forall (fun r => regular r = true) (known (g :: groups) ratios)) as Hr
    by (apply Forall_forall; intros r; by apply known_regular).
  destruct (known (g :: groups) ratios) as [|r rs]; [done|]. split; [done|]. intros _. cbn [fold_left].
  assert (lesser infinity r = r) as -> by (inversion_clear Hr; by destruct r).
  destruct (fold_least rs r Hr) as [Hin Hle]. set (x := fold_left lesser rs r) in *.
  assert (SFeqb x infinity = false) as ->; [|done].
  assert (regular x = true) as Hx by (rewrite Forall_forall in Hr; by apply Hr). by destruct x.
Qed.

(** The list shows a model at the least ratio of its groups that have one, and
    at 1 when none has; tiered prices and token prices use the same ratio. *)
Theorem shown_ratio_is_least m :
  let ratios := default [] (group_ratio m) in let groups := default [] (enable_groups m) in
  ratios_ok ratios = true ->
  getDynamicDisplayGroupRatio m = getMinGroupRatio groups ratios /\
  (known groups ratios = [] -> getDynamicDisplayGroupRatio m = one) /\
  (known groups ratios <> [] -> getDynamicDisplayGroupRatio m ∈ known groups ratios /\
     Forall (fun r => value (getDynamicDisplayGroupRatio m) <= value r) (known groups ratios)).
Proof.
  intros ratios groups Hok. assert (getDynamicDisplayGroupRatio m = getMinGroupRatio groups ratios) as ->.
  { unfold getDynamicDisplayGroupRatio, getMinGroupRatio. fold groups ratios. by destruct groups. }
  split; [done|]. by apply min_ratio_spec.
Qed.

(** A group for which everything is free is shown at full price in the table of
    group prices, while the list shows the model as free. *)
Theorem free_group_is_shown_at_full_price m g z ty u r :
  let ratios := default [] (group_ratio m) in
  quota_type m = 0 -> ratios_ok ratios = true -> forallb (fun gr => 0 <=? value gr.2) ratios = true ->
  g ∈ default [] (enable_groups m) -> map_get ratios g = Some (S754_zero z) ->
  formatGroupPrice m g ty u r ratios = Some (div (atRates r (calculateTokenPrice m ty one)) (TOKEN_UNIT_DIVISORS u)) /\
  exists z', formatPrice m ty u r = Some (div (atRates r (calculateTokenPrice m ty (S754_zero z'))) (TOKEN_UNIT_DIVISORS u)).
Proof.
  intros ratios Hq Hok Hn Hg Hz. unfold formatGroupPrice, formatPrice. rewrite Hq. change (0 =? REQUEST_QUOTA) with false.
  split; [by rewrite Hz|]. fold ratios.
  assert (S754_zero z ∈ known (default [] (enable_groups m)) ratios) as Hk by (apply list_elem_of_omap; by exists g).
  destruct (min_ratio_spec (default [] (enable_groups m)) ratios Hok) as [_ H].
  destruct H as [Hin Hle]; [intros E; rewrite E in Hk; set_solver|]. set (x := getMinGroupRatio _ _) in *.
  pose proof (known_regular _ _ _ Hok Hin) as Hx. rewrite Forall_forall in Hle. apply Hle in Hk. cbn [value] in Hk.
  apply list_elem_of_omap in Hin as (g' & _ & Hg'%map_get_Some_elem). rewrite forallb_forall in Hn.
  apply list_elem_of_In, Hn in Hg'. cbn [snd] in Hg'. bool_hyps. destruct x as [z'|z'| |s m' e]; try done; [by exists z'|].
  pose proof (sign_finite s m' e (regular_exponent _ _ _ Hx)) as Hs. cbn [sign] in Hs. destruct s; lia.
Qed.

(** ** Tiered prices *)





#[export] Instance comparePrimary_comparator : Comparator comparePrimary.
Proof.
  unfold comparePrimary. split; intros.
  - by destruct (isPrimary x).
  - by destruct (isPrimary x), (isPrimary y).
  - by destruct (isPrimary x), (isPrimary y), (isPrimary z).
Qed.










(** ** From the editor to the page *)

(** The tiers and rules of a model as the editor writes them, stored as the
    pricing page of the administrator stores them and published with the model. *)
Section Published.
Variables (tiers : list VisualTier) (gs : list BillingExpr.RequestRuleGroup) (d : ModelPricing.ModelRatioData) (m : PricingModel).
Hypothesis Htiers : tiers_ok tiers.
Hypothesis Hlabels : Forall (fun t => noParen (labelText t)) tiers.
Hypothesis Hrules : forallb BillingExprFacts.readable_group gs = true.
Hypothesis Hmode : ModelPricing.d_billingMode d = ModelPricing.TieredExpr.
Hypothesis Hexpr : ModelPricing.d_billingExpr d = generateExprFromVisualConfig (Some tiers).
Hypothesis Hrequest : ModelPricing.d_requestRuleExpr d = BillingExpr.buildRequestRuleExpr gs.
Hypothesis Hpublished_mode : JStr <$> billing_mode m = ModelPricing.entryOf d ModelPricing.BillingMode.
Hypothesis Hpublished_expr : JStr <$> billing_expr m = ModelPricing.entryOf d ModelPricing.BillingExpr.









End Published.

(** ** Rates *)

Lemma max_thousandth x : regular x = true -> value thousandth <= value (max x thousandth).
Proof.
  intros Hx. unfold max, leb, SFleb. rewrite compare_value by (done || by vm_compute).
  destruct (Z.compare_spec (value x) (value thousandth)); lia.
Qed.

(** The two rates of the page never reach zero, whatever finite numbers the
    server sends and also when it sends none: a price is never divided by zero. *)
Theorem rates_are_positive price usd :
  allows price regular = true -> allows usd regular = true ->
  0 < value thousandth <= value (priceRate price) /\ value thousandth <= value (usdExchangeRate usd price) /\
  usdExchangeRate usd price <> S754_zero false /\ usdExchangeRate usd price <> S754_zero true.
Proof.
  intros Hp Hu. assert (regular one = true) as H1 by (by vm_compute). assert (0 < value thousandth) as H0 by (by vm_compute).
  assert (regular (priceRate price) = true) as Hr.
  { unfold priceRate, max. case_match; [by vm_compute|]. by destruct price. }
  assert (value thousandth <= value (priceRate price)) as Hpr by (apply max_thousandth; by destruct price).
  assert (value thousandth <= value (usdExchangeRate usd price)) as Hur by (apply max_thousandth; by destruct usd).
  split_and!; try done; intros E; rewrite E in Hur; cbn [value] in Hur; lia.
Qed.

(** ** Vendors *)

Definition sampleModel (name : string) (tagText : option jsstr) (ratio : Z) : PricingModel :=
  mkModel (js name) None (Some 1) (Some (js "Acme")) None None 0 (of_Z ratio) (of_Z 3) None None None None None None
    (Some [js "default"; js "free"]) tagText None (Some [(js "default", of_Z 1); (js "free", of_Z 0)]) None None.

Lemma vendor_get vs v acc :
  NoDup (map pv_id vs) -> v ∈ vs -> map_get (fold_left (fun m v => map_set m (pv_id v) v) vs acc) (pv_id v) = Some v.
Proof.
  assert (forall vs acc k, k ∉ map pv_id vs ->
    map_get (fold_left (fun m v => map_set m (pv_id v) v) vs acc) k = map_get acc k) as Hout.
  { clear. induction vs as [|w vs IH]; intros acc k Hk; [done|]. cbn [fold_left map] in *. apply not_elem_of_cons in Hk as [? ?].
    rewrite IH by done. by apply map_get_set_ne. }
  revert acc. induction vs as [|w vs IH]; intros acc Hn Hv; [set_solver|]. cbn [fold_left map] in *.
  apply NoDup_cons in Hn as [Hw Hn]. apply elem_of_cons in Hv as [->|Hv]; [|by apply IH].
  rewrite Hout by done. apply map_get_set_eq.
Qed.

(** Every model of the answer is listed once, under the name of its vendor and
    with the ratios of the answer; the filter on a vendor finds its models. *)
Theorem models_have_their_vendor ms vs ratios v m :
  NoDup (map pv_id vs) -> v ∈ vs -> pv_id v <> 0 -> m ∈ ms -> vendor_id m = Some (pv_id v) -> pv_name v <> FILTER_ALL ->
  let shown := models (Some (mkData (Some ms) (Some vs) ratios)) in
  map model_name shown = map model_name ms /\
  exists m', m' ∈ filterByVendor shown (pv_name v) /\ model_name m' = model_name m /\ group_ratio m' = ratios.
Proof.
  intros Hn Hv H0 Hm Hid Hall. cbn [models pd_data pd_vendors pd_group_ratio]. split; [by rewrite map_map|].
  exists (withVendor vs ratios m). split; [|done]. unfold filterByVendor. rewrite bool_decide_eq_false_2 by done.
  apply list_elem_of_In, List.filter_In. split; [by apply in_map, list_elem_of_In|]. apply bool_decide_eq_true.
  unfold withVendor. cbn [vendor_name]. rewrite Hid. apply Z.eqb_neq in H0 as ->. unfold vendorMap. by rewrite vendor_get.
Qed.

Lemma models_have_their_vendor_witness :
  exists m', m' ∈ filterByVendor (models (Some (mkData (Some [sampleModel "a" None 7]) (Some [mkVendor 1 (js "Acme") None None]) None)))
      (js "Acme") /\ model_name m' = js "a" /\ group_ratio m' = None.
Proof.
  apply (models_have_their_vendor [sampleModel "a" None 7] [mkVendor 1 (js "Acme") None None] None
    (mkVendor 1 (js "Acme") None None) (sampleModel "a" None 7)).
  - apply (bool_decide_unpack _). vm_compute. reflexivity.
  - left.
  - discriminate.
  - left.
  - reflexivity.
  - discriminate.
Defined.

(** ** Samples *)

Definition sampleModels : list PricingModel :=
  [sampleModel "b" (Some (js "fast, cheap")) 5; sampleModel "a" None 7; sampleModel "c" (Some (js "cheap")) 2].

Definition cheapFirst : FilterState :=
  mkFilterState None (Some PRICE_LOW) (Some (js "Acme")) None None None (Some (js "cheap")) None None None.

Lemma page_lists_what_was_asked_witness :
  map model_name (filteredModels id compareUnits sampleModels cheapFirst) = [js "c"; js "b"] /\
  StronglySorted (fun a b => value (getModelPrice a) <= value (getModelPrice b))
    (filteredModels id compareUnits sampleModels cheapFirst).
Proof.
  split; [vm_compute; reflexivity|].
  apply (page_lists_what_was_asked id compareUnits sampleModels cheapFirst); [apply _|vm_compute; reflexivity|reflexivity].
Defined.

Lemma offered_tag_shows_a_model_witness :
  exists m, m ∈ filterByTag id sampleModels (js "fast") /\ js "fast" ∈ map id (parseTags (tags m)).
Proof.
  apply (offered_tag_shows_a_model id compareUnits sampleModels); [reflexivity| |discriminate].
  apply (bool_decide_unpack _). vm_compute. reflexivity.
Defined.

Lemma shown_ratio_is_least_witness : getDynamicDisplayGroupRatio (sampleModel "a" None 7) = of_Z 0.
Proof.
  destruct (shown_ratio_is_least (sampleModel "a" None 7)) as [-> _]; [vm_compute; reflexivity|]. vm_compute. reflexivity.
Defined.

(** The model is free on the list and costs two dollars a million tokens, times
    seven, in the table of its free group. *)
Lemma free_group_is_shown_at_full_price_witness :
  let r := mkRates false one one in
  formatGroupPrice (sampleModel "a" None 7) (js "free") Pinput UnitM r [(js "default", of_Z 1); (js "free", of_Z 0)]
    = Some (of_Z 14) /\
  formatPrice (sampleModel "a" None 7) Pinput UnitM r = Some (of_Z 0).
Proof.
  destruct (free_group_is_shown_at_full_price (sampleModel "a" None 7) (js "free") false Pinput UnitM (mkRates false one one))
    as [H _]; [reflexivity|vm_compute; reflexivity|vm_compute; reflexivity| |vm_compute; reflexivity|].
  - apply (bool_decide_unpack _). vm_compute. reflexivity.
  - split; [etrans; [exact H|vm_compute; reflexivity]|vm_compute; reflexivity].
Defined.

Lemma rates_are_positive_witness : value thousandth <= value (usdExchangeRate (Some (of_Z 0)) None).
Proof.
  destruct (rates_are_positive None (Some (of_Z 0))) as (_ & H & _); [reflexivity|vm_compute; reflexivity|exact H].
Defined.




Definition publishedModel : PricingModel :=
  mkModel (js "m") None None None None None 0 (of_Z 1) (of_Z 1) None None None None None None (Some [js "default"]) None None None
    (Some (js "tiered_expr"))
    (Some (BillingExpr.combineBillingExpr (generateExprFromVisualConfig (Some [shortTier; longTier]))
       (BillingExpr.buildRequestRuleExpr BillingExpr.sample_groups))).



(** The cells of that table: twice the prices of the tiers. *)
Example sample_group_table :
  (match GroupPricingSection publishedModel [(js "default", of_Z 2)] [js "default"; js "auto"] UnitM (mkRates false one one) with
   | Some (TierTables columns [t]) => Some (map e_shortLabel columns, tt_rows t)
   | _ => None
   end)
  = Some ([js "Input"; js "Output"; js "Cache Write (1h)"; js "Image Out"],
          [(js "short", [Some (of_Z 5); Some (of_Z 6); Some (of_Z 14); None]);
           (js "long", [Some (of_Z 10); Some (of_Z 12); None; Some (of_num (mkNum 14 (-7)))])]).
Proof. vm_compute. reflexivity. Qed.

End PricePageProperties.
