(* ===== verification/SiteNavigation.v ===== *)
(** * The settings of the navigation

    [features/system-settings/maintenance/config.ts] with the two forms that use
    it, [header-navigation-section.tsx] and [sidebar-modules-section.tsx], as
    [features/system-settings/site/section-registry.tsx] builds them: reading the
    two texts, the switches, and the text that is sent.  The pages that obey the
    texts are in [NavModules.v] and [Sidebar.v].

    A configuration is the object of the source, its fields in their order.  No
    key is [__proto__] or a name of the built-in prototype. *)

From S2P Require Import Prelude JsString JsCollections Json JsonText JsonCanon JsValue NavModules Sidebar.
Import Json JsonText JsValue.
Import NavModules (ModuleAccess, mkAccess, enabled, requireAuth).

Module SiteNavigation.

Definition Fields : Type := list (jsstr * json).

(** An access as an object. *)
Definition accessJson (a : ModuleAccess) : json :=
  JObj [(js "enabled", JBool (enabled a)); (js "requireAuth", JBool (requireAuth a))].

Definition HEADER_NAV_DEFAULT : Fields :=
  [ (js "home", JBool true); (js "console", JBool true); (js "pricing", accessJson (mkAccess true false));
    (js "rankings", accessJson (mkAccess true false)); (js "docs", JBool true); (js "about", JBool true) ].

Definition SIDEBAR_MODULES_DEFAULT : list (jsstr * list (jsstr * bool)) :=
  let on := map (fun k => (js k, true)) in
  [ (js "chat", on ["enabled"; "playground"; "chat"]);
    (js "console", on ["enabled"; "detail"; "token"; "log"; "midjourney"; "task"]);
    (js "personal", on ["enabled"; "topup"; "personal"]);
    (js "admin", on ["enabled"; "channel"; "models"; "redemption"; "user"; "setting"; "subscription"]) ]%string.

(** Other than the reader of the pages, any number but 1 is false. *)
Definition toBoolean (value : option json) (fallback : bool) : bool :=
  match value with
  | Some (JBool b) => b
  | Some (JNum n) => bool_decide (num_integer n = Some 1)
  | Some (JStr s) =>
      let normalized := toLowerCase (trim s) in
      if bool_decide (normalized = js "true") || bool_decide (normalized = js "1") then true
      else if bool_decide (normalized = js "false") || bool_decide (normalized = js "0") then false
      else fallback
  | _ => fallback
  end.

Definition parseAccessModule (raw : json) (fallback : ModuleAccess) : ModuleAccess :=
  match raw with
  | JBool _ | JStr _ | JNum _ => mkAccess (toBoolean (Some raw) (enabled fallback)) (requireAuth fallback)
  | JArr _ | JObj _ =>
      mkAccess (toBoolean (prop raw (js "enabled")) (enabled fallback))
        (toBoolean (prop raw (js "requireAuth")) (requireAuth fallback))
  | JNull => fallback
  end.

(** One entry of the parsed text. *)
Definition headerEntry (result : Fields) (entry : jsstr * json) : Fields :=
  let '(key, raw) := entry in
  if bool_decide (key = js "pricing") || bool_decide (key = js "rankings")
  then map_set result key (accessJson (parseAccessModule raw (mkAccess true false)))
  else
    match raw with
    | JBool b => map_set result key (JBool b)
    | JStr _ | JNum _ =>
        map_set result key (JBool (toBoolean (Some raw) (match map_get HEADER_NAV_DEFAULT key with Some v => json_truthy v | None => false end)))
    | _ => result
    end.

Definition parseHeaderNavModules (value : option jsstr) : Fields :=
  if negb (truthy (or_empty value)) then HEADER_NAV_DEFAULT
  else
    match JSON_parse (or_empty value) with
    | Some parsed => fold_left headerEntry (own_entries parsed) HEADER_NAV_DEFAULT
    | None => HEADER_NAV_DEFAULT
    end.

Definition serializeHeaderNavModules (config : Fields) : jsstr := JSON_stringify (JObj config).

(** ** The form of the header *)

Record HeaderNavFormValues := mkValues {
  home : bool; console : bool; pricingEnabled : bool; pricingRequireAuth : bool; rankingsEnabled : bool;
  rankingsRequireAuth : bool; docs : bool; about : bool }.

(** [v === undefined ? default : Boolean(v)] *)
Definition boolOr (v : option json) (d : bool) : bool := match v with Some v => json_truthy v | None => d end.

Definition toFormValues (config : Fields) : HeaderNavFormValues :=
  let flag k := boolOr (map_get config (js k)) true in
  let access k f d := boolOr (x ← map_get config (js k); prop x (js f)) d in
  mkValues (flag "home") (flag "console") (access "pricing" "enabled" true) (access "pricing" "requireAuth" false)
    (access "rankings" "enabled" true) (access "rankings" "requireAuth" false) (flag "docs") (flag "about").

(** [{ ...(access ?? default), enabled, requireAuth }]; null is no value of a configuration. *)
Definition spreadAccess (access : option json) (e r : bool) : json :=
  let base := match access with Some v => own_entries v | None => own_entries (accessJson (mkAccess true false)) end in
  JObj (map_set (map_set (spread_onto [] base) (js "enabled") (JBool e)) (js "requireAuth") (JBool r)).

Definition headerPayload (config : Fields) (values : HeaderNavFormValues) : Fields :=
  let o := spread_onto [] (Object_entries config) in
  let o := map_set o (js "home") (JBool (home values)) in
  let o := map_set o (js "console") (JBool (console values)) in
  let o := map_set o (js "docs") (JBool (docs values)) in
  let o := map_set o (js "about") (JBool (about values)) in
  let o := map_set o (js "pricing")
             (spreadAccess (map_get config (js "pricing")) (pricingEnabled values) (pricingRequireAuth values)) in
  map_set o (js "rankings")
    (spreadAccess (map_get config (js "rankings")) (rankingsEnabled values) (rankingsRequireAuth values)).

(** The text that is sent, if it differs from the one that was read. *)
Definition submitHeaderNav (settings : option jsstr) (values : HeaderNavFormValues) : option jsstr :=
  let config := parseHeaderNavModules settings in
  let serialized := serializeHeaderNavModules (headerPayload config values) in
  if bool_decide (serialized = serializeHeaderNavModules config) then None else Some serialized.

Inductive HeaderSwitch :=
| SHome (b : bool) | SConsole (b : bool) | SDocs (b : bool) | SAbout (b : bool)
| SEnabled (module : NavModules.HeaderNavModule) (b : bool) | SRequireAuth (module : NavModules.HeaderNavModule) (b : bool)
| SResetDefault.

(** A switch that asks for a login is disabled while its page is off. *)
Definition headerSwitch (s : HeaderSwitch) (v : HeaderNavFormValues) : HeaderNavFormValues :=
  let '(mkValues h c pe pr re rr d a) := v in
  match s with
  | SHome b => mkValues b c pe pr re rr d a
  | SConsole b => mkValues h b pe pr re rr d a
  | SDocs b => mkValues h c pe pr re rr b a
  | SAbout b => mkValues h c pe pr re rr d b
  | SEnabled NavModules.Pricing b => mkValues h c b pr re rr d a
  | SEnabled NavModules.Rankings b => mkValues h c pe pr b rr d a
  | SRequireAuth NavModules.Pricing b => if pe then mkValues h c pe b re rr d a else v
  | SRequireAuth NavModules.Rankings b => if re then mkValues h c pe pr re b d a else v
  | SResetDefault => toFormValues HEADER_NAV_DEFAULT
  end.

(** ** The sidebar *)

Definition SidebarConfig : Type := list (jsstr * list (jsstr * bool)).

Definition sectionOf (sectionKey : jsstr) (raw : json) : list (jsstr * bool) :=
  let defaultSection := map_get SIDEBAR_MODULES_DEFAULT sectionKey ?? [(js "enabled", true)] in
  fold_left (fun sectionConfig '(moduleKey, moduleValue) =>
    if bool_decide (moduleKey = js "enabled") then sectionConfig
    else map_set sectionConfig moduleKey (toBoolean (Some moduleValue) (map_get defaultSection moduleKey ?? true)))
    (own_entries raw)
    [(js "enabled", toBoolean (prop raw (js "enabled")) (map_get defaultSection (js "enabled") ?? true))].

Definition sidebarEntry (result : SidebarConfig) (entry : jsstr * json) : SidebarConfig :=
  match entry.2 with
  | JArr _ | JObj _ => map_set result entry.1 (sectionOf entry.1 entry.2)
  | _ => result
  end.

(** The merge of the defaults. *)
Definition fillSection (section defaults : list (jsstr * bool)) : list (jsstr * bool) :=
  fold_left (fun s '(moduleKey, v) => match map_get s moduleKey with None => map_set s moduleKey v | Some _ => s end)
    defaults section.

Definition mergeDefaults (result : SidebarConfig) : SidebarConfig :=
  fold_left (fun r '(sectionKey, config) =>
    map_set r sectionKey (match map_get r sectionKey with None => config | Some section => fillSection section config end))
    SIDEBAR_MODULES_DEFAULT result.

Definition parseSidebarModulesAdmin (value : option jsstr) : SidebarConfig :=
  if negb (has_text value) then SIDEBAR_MODULES_DEFAULT
  else
    match JSON_parse (or_empty value) with
    | Some JNull | None => SIDEBAR_MODULES_DEFAULT
    | Some parsed => mergeDefaults (fold_left sidebarEntry (own_entries parsed) [])
    end.

Definition sectionJson (section : list (jsstr * bool)) : json := JObj (map (prod_map id JBool) section).

Definition serializeSidebarModulesAdmin (config : SidebarConfig) : jsstr :=
  JSON_stringify (JObj (map (prod_map id sectionJson) config)).

(** A switch of the form, which has one for each module of the configuration;
    those of a section that is off are disabled. *)
Definition sidebarSwitch (section module : jsstr) (b : bool) (values : SidebarConfig) : SidebarConfig :=
  match map_get values section with
  | Some s =>
      match map_get s module with
      | Some _ =>
          if bool_decide (module = js "enabled") || (map_get s (js "enabled") ?? false)
          then map_set values section (map_set s module b) else values
      | None => values
      end
  | None => values
  end.

Inductive SidebarEvent := Turn (section module : jsstr) (b : bool) | ResetDefault.

Definition sidebarStep (values : SidebarConfig) (ev : SidebarEvent) : SidebarConfig :=
  match ev with
  | Turn section module b => sidebarSwitch section module b values
  | ResetDefault => SIDEBAR_MODULES_DEFAULT
  end.

Definition submitSidebar (settings : option jsstr) (values : SidebarConfig) : option jsstr :=
  let serialized := serializeSidebarModulesAdmin values in
  if bool_decide (serialized = serializeSidebarModulesAdmin (parseSidebarModulesAdmin settings)) then None else Some serialized.

End SiteNavigation.
