(* ===== verification/SiteNavigationProperties.v ===== *)
(** * Properties of the settings of the navigation

    What the administrator's switches say is what the guards, the top bar and
    the sidebar do with the text that is saved. *)

From S2P Require Import Prelude JsString JsCollections Json JsonText JsonCanon JsonLocal JsValue NavModules Sidebar SidebarProperties SiteNavigation.
Import Json JsonText JsonCanon JsValue SiteNavigation.
Import NavModules (ModuleAccess, mkAccess, enabled, requireAuth).

Module SiteNavigationProperties.

(** ** Reading the text of the header *)

Definition isAccess (k : jsstr) : bool := bool_decide (k = js "pricing") || bool_decide (k = js "rankings").

(** What the entry of a key makes of its value. *)
Definition headerAfter (k : jsstr) (old : option json) (entry : option json) : option json :=
  match entry with
  | None => old
  | Some raw =>
      if isAccess k then Some (accessJson (parseAccessModule raw (mkAccess true false)))
      else
        match raw with
        | JBool b => Some (JBool b)
        | JStr _ | JNum _ =>
            Some (JBool (toBoolean (Some raw) (match map_get HEADER_NAV_DEFAULT k with Some v => json_truthy v | None => false end)))
        | _ => old
        end
  end.

Lemma headerEntry_get r k v k' :
  map_get (headerEntry r (k, v)) k' = headerAfter k' (map_get r k') (if decide (k = k') then Some v else None).
Proof.
  unfold headerEntry, headerAfter. destruct (decide (k = k')) as [<-|Hk].
  - fold (isAccess k). destruct (isAccess k); [by rewrite map_get_set_eq|]. destruct v; by rewrite ?map_get_set_eq.
  - destruct (_ || _); [by rewrite map_get_set_ne|]. destruct v; by rewrite ?map_get_set_ne.
Qed.

Lemma headerEntries_get es r k : NoDup es.*1 ->
  map_get (fold_left headerEntry es r) k = headerAfter k (map_get r k) (map_get es k).
Proof.
  revert r. induction es as [|[k' v] es IH]; intros r Hn; [done|].
  rewrite fmap_cons in Hn. apply NoDup_cons in Hn as [Hk Hn]. cbn [fold_left map_get fst] in *.
  rewrite IH, headerEntry_get by done. case_decide as E; [subst|done].
  assert (map_get es k = None) as -> by (by apply map_get_None). done.
Qed.

(** ** The shape of a configuration *)

Definition flagNames : list jsstr := [js "home"; js "console"; js "docs"; js "about"].
Definition accessNames : list jsstr := [js "pricing"; js "rankings"].

Record headerOk (config : Fields) : Prop := {
  ho_printable : printable (JObj config);
  ho_flags : forall k, k ∈ flagNames -> exists b, map_get config k = Some (JBool b);
  ho_access : forall k, k ∈ accessNames -> exists a, map_get config k = Some (accessJson a) }.

Lemma access_printable a : printable (accessJson a).
Proof. by apply wf_printable; destruct a as [[] []]; apply (bool_decide_unpack _); vm_compute. Qed.

Lemma header_entry_printable r k v : wf_str k -> printable (JObj r) -> printable (JObj (headerEntry r (k, v))).
Proof.
  intros Hk Hr. unfold headerEntry. destruct (_ || _); [by apply printable_set; [|apply access_printable|]|].
  destruct v; try done; by apply printable_set; [|constructor|].
Qed.

Lemma own_keys_wf v : printable v -> Forall wf_str (own_entries v).*1.
Proof.
  assert (forall n, Forall wf_str (index_keys n)) as Hi.
  { intros n. unfold index_keys. apply Forall_map, Forall_forall. intros i _. apply digits_wf. apply showZ_digits. lia. }
  intros H. destruct H as [| | |s|l|fs _ Hk _]; cbn [own_entries]; try constructor.
  - rewrite fst_zip; [apply Hi|]. unfold index_keys. by rewrite !length_map, length_seq.
  - rewrite fst_zip; [apply Hi|]. unfold index_keys. by rewrite length_map, length_seq.
  - by rewrite js_sort_values_perm.
Qed.

Lemma default_ok : headerOk HEADER_NAV_DEFAULT.
Proof.
  split.
  - apply wf_printable, wf_jsonb_sound. by vm_compute.
  - intros k Hk. exists true. unfold flagNames in Hk. rewrite !elem_of_cons, elem_of_nil in Hk.
    by destruct Hk as [->|[->|[->|[->|[]]]]].
  - intros k Hk. exists (mkAccess true false). unfold accessNames in Hk. rewrite !elem_of_cons, elem_of_nil in Hk.
    by destruct Hk as [->|[->|[]]].
Qed.

Lemma entry_ok r k v : wf_str k -> headerOk r -> headerOk (headerEntry r (k, v)).
Proof.
  intros Hk [Hp Hf Ha]. split.
  - by apply header_entry_printable.
  - intros k' Hin. rewrite headerEntry_get. destruct (Hf k' Hin) as [b Hb]. rewrite Hb.
    assert (isAccess k' = false) as Hn.
    { unfold flagNames in Hin. rewrite !elem_of_cons, elem_of_nil in Hin. by destruct Hin as [->|[->|[->|[->|[]]]]]. }
    case_decide; cbn [headerAfter]; [|by eexists]. rewrite Hn. destruct v; by eexists.
  - intros k' Hin. rewrite headerEntry_get. destruct (Ha k' Hin) as [a Hb]. rewrite Hb.
    assert (isAccess k' = true) as Hn.
    { unfold accessNames in Hin. rewrite !elem_of_cons, elem_of_nil in Hin. by destruct Hin as [->|[->|[]]]. }
    case_decide; cbn [headerAfter]; [|by eexists]. rewrite Hn. by eexists.
Qed.

Lemma header_ok value : (forall s, value = Some s -> wf_str s) -> headerOk (parseHeaderNavModules value).
Proof.
  intros Hw. unfold parseHeaderNavModules. case_match; [apply default_ok|].
  destruct (JSON_parse _) as [v|] eqn:E; [|apply default_ok].
  assert (printable v) as Hv.
  { apply (parse_printable (or_empty value)); [|done]. destruct value; [by apply Hw|constructor]. }
  pose proof (own_keys_wf v Hv) as Hk. revert Hk. generalize (own_entries v) as es. clear E.
  intros es. pose proof default_ok as Hr. revert Hr. generalize HEADER_NAV_DEFAULT as r.
  induction es as [|[k x] es IH]; intros r Hr Hk; [done|]. apply Forall_cons in Hk as [Hk Hks]. cbn [fold_left].
  apply IH; [by apply entry_ok|done].
Qed.

(** ** The text that is sent *)

Lemma spreadAccess_access a e r : spreadAccess (Some (accessJson a)) e r = accessJson (mkAccess e r).
Proof. by destruct a as [[] []], e, r; vm_compute. Qed.

(** The value of a switch in the text. *)
Definition switchJson (v : HeaderNavFormValues) (k : jsstr) : option json :=
  map_get [ (js "home", JBool (home v)); (js "console", JBool (console v)); (js "docs", JBool (docs v));
            (js "about", JBool (about v)); (js "pricing", accessJson (mkAccess (pricingEnabled v) (pricingRequireAuth v)));
            (js "rankings", accessJson (mkAccess (rankingsEnabled v) (rankingsRequireAuth v))) ] k.

Lemma copy_get (fs : Fields) k : NoDup fs.*1 -> map_get (spread_onto [] (Object_entries fs)) k = map_get fs k.
Proof.
  intros Hn. rewrite spread_get by (by rewrite js_sort_values_perm). rewrite entries_get by done. by destruct (map_get fs k).
Qed.

Lemma payload_get config v k : headerOk config -> k ∈ flagNames ++ accessNames ->
  map_get (headerPayload config v) k = switchJson v k.
Proof.
  intros [Hp Hf Ha] Hk. destruct (Ha (js "pricing")) as [ap Hap]; [by apply (bool_decide_unpack _); vm_compute|].
  destruct (Ha (js "rankings")) as [ar Har]; [by apply (bool_decide_unpack _); vm_compute|].
  unfold headerPayload. rewrite Hap, Har, !spreadAccess_access.
  unfold flagNames, accessNames in Hk. rewrite elem_of_app, !elem_of_cons, !elem_of_nil in Hk.
  destruct Hk as [[->|[->|[->|[->|[]]]]]|[->|[->|[]]]]; by rewrite ?map_get_set_eq, ?map_get_set_ne, ?map_get_set_eq by done;
    rewrite ?map_get_set_ne, ?map_get_set_eq by done.
Qed.

Lemma copy_printable fs : printable (JObj fs) -> printable (JObj (spread_onto [] (Object_entries fs))).
Proof.
  intros H. assert (forall es o, Forall wf_str es.*1 -> Forall printable es.*2 -> printable (JObj o) -> printable (JObj (spread_onto o es))) as Hs.
  { induction es as [|[k v] es IH]; intros o Hk Hv Ho; [done|]. apply Forall_cons in Hk as [Hk Hks].
    apply Forall_cons in Hv as [Hv Hvs]. cbn [spread_onto fold_left]. apply IH; [done|done|]. by apply printable_set. }
  inversion H as [| | | | |? Hn Hk Hv]; subst. apply Hs.
  - by rewrite js_sort_values_perm.
  - by rewrite js_sort_values_perm.
  - by repeat constructor.
Qed.

Lemma header_payload_printable config v : headerOk config -> printable (JObj (headerPayload config v)).
Proof.
  intros [Hp Hf Ha]. destruct (Ha (js "pricing")) as [ap Hap]; [by apply (bool_decide_unpack _); vm_compute|].
  destruct (Ha (js "rankings")) as [ar Har]; [by apply (bool_decide_unpack _); vm_compute|].
  unfold headerPayload. rewrite Hap, Har, !spreadAccess_access.
  repeat (apply printable_set; [by apply (bool_decide_unpack _); vm_compute|first [apply access_printable|constructor]|]).
  by apply copy_printable.
Qed.

Lemma switch_canon v k : canon <$> switchJson v k = switchJson v k.
Proof.
  unfold switchJson. cbn [map_get]. repeat (case_decide; [done|]). done.
Qed.

(** The text gives the value of each switch. *)
Lemma text_fields config v text :
  headerOk config -> text = serializeHeaderNavModules (headerPayload config v) ->
  exists fields, JSON_parse text = Some (JObj fields) /\ NoDup fields.*1 /\
    forall k, k ∈ flagNames ++ accessNames -> map_get fields k = switchJson v k.
Proof.
  intros Hc ->. pose proof (header_payload_printable config v Hc) as Hp. unfold serializeHeaderNavModules.
  rewrite stringify_reads by done. eexists. split; [done|]. inversion Hp as [| | | | |? Hn _ _]; subst. split.
  - rewrite js_sort_values_perm. by rewrite keys_map.
  - intros k Hk. rewrite canon_get by done. rewrite payload_get by done. apply switch_canon.
Qed.

Lemma name_in k : bool_decide (k ∈ flagNames ++ accessNames) = true -> k ∈ flagNames ++ accessNames.
Proof. apply bool_decide_eq_true_1. Qed.

(** The form reads the switches from a configuration that holds them. *)
Lemma toFormValues_switches config v :
  (forall k, k ∈ flagNames ++ accessNames -> map_get config k = switchJson v k) -> toFormValues config = v.
Proof.
  intros H. unfold toFormValues. rewrite !H by (apply name_in; reflexivity). destruct v as [h c pe pr re rr d a].
  by vm_compute.
Qed.

Lemma read_back fields text v :
  JSON_parse text = Some (JObj fields) -> NoDup fields.*1 ->
  (forall k, k ∈ flagNames ++ accessNames -> map_get fields k = switchJson v k) ->
  toFormValues (parseHeaderNavModules (Some text)) = v.
Proof.
  intros Hp Hn Hg. apply toFormValues_switches. intros k Hk. unfold parseHeaderNavModules. cbn [or_empty].
  rewrite (parse_truthy _ _ Hp), Hp. cbn [negb]. rewrite headerEntries_get by (by apply own_nodup, (parse_distinct _ _ Hp)).
  cbn [own_entries]. rewrite entries_get, Hg by done.
  unfold flagNames, accessNames in Hk. rewrite elem_of_app, !elem_of_cons, !elem_of_nil in Hk. destruct v as [h c pe pr re rr d a].
  destruct Hk as [[->|[->|[->|[->|[]]]]]|[->|[->|[]]]]; by vm_compute.
Qed.

(** C37: The switches of the form for the header take effect.  Whatever text is
    stored, the text that the form sends is read by the pages as the switches:
    the guards and the links of the pricing and the rankings page have the
    access that was set and home, console, docs and about are on or off as they
    were set; and the form itself, opened on the text, shows the same
    switches. *)
Theorem header_switches_take_effect settings values text :
  (forall s, settings = Some s -> wf_str s) -> submitHeaderNav settings values = Some text ->
  toFormValues (parseHeaderNavModules (Some text)) = values /\
  exists m, NavModules.parseHeaderNavModules (Some (JStr text)) = Some m /\
    NavModules.pricing m = mkAccess (pricingEnabled values) (pricingRequireAuth values) /\
    NavModules.rankings m = mkAccess (rankingsEnabled values) (rankingsRequireAuth values) /\
    map_get (NavModules.flags m) (js "home") = Some (home values) /\
    map_get (NavModules.flags m) (js "console") = Some (console values) /\
    map_get (NavModules.flags m) (js "docs") = Some (docs values) /\
    map_get (NavModules.flags m) (js "about") = Some (about values).
Proof.
  intros Hw H. unfold submitHeaderNav in H. case_bool_decide; [done|]. injection H as H.
  destruct (text_fields _ values text (header_ok settings Hw) (eq_sym H)) as (fields & Hp & Hn & Hg).
  split; [by apply (read_back fields)|].
  destruct (NavModules.modules_follow_the_document text fields Hp) as (m & Hm & Ha & Hf). exists m. split; [done|].
  pose proof (Ha NavModules.Pricing) as H1. pose proof (Ha NavModules.Rankings) as H2. cbn [NavModules.access_of] in H1, H2.
  rewrite Hg in H1, H2 by (apply name_in; reflexivity). rewrite H1, H2.
  rewrite !Hf by (split_and!; discriminate). rewrite !Hg by (apply name_in; reflexivity).
  destruct values as [h c pe pr re rr d a]. split_and!; by vm_compute.
Qed.

(** Nothing is sent only when the switches are the ones that were read. *)
Lemma unsent_header_is_unchanged settings values :
  (forall s, settings = Some s -> wf_str s) -> submitHeaderNav settings values = None ->
  toFormValues (parseHeaderNavModules settings) = values.
Proof.
  intros Hw H. unfold submitHeaderNav in H. case_bool_decide as E; [|done].
  pose proof (header_ok settings Hw) as Hc. set (config := parseHeaderNavModules settings) in *.
  destruct (text_fields config values _ Hc eq_refl) as (fields & Hp & Hn & Hg). rewrite E in Hp.
  unfold serializeHeaderNavModules in Hp. rewrite stringify_reads in Hp by apply Hc. injection Hp as Hp.
  apply toFormValues_switches. intros k Hk. rewrite <- (Hg k Hk), <- Hp.
  pose proof (ho_printable _ Hc) as Hpr. inversion Hpr as [| | | | |? Hnc _ _]; subst. rewrite canon_get by done.
  destruct (decide (k ∈ flagNames)) as [Hkf|Hkf].
  - by destruct (ho_flags _ Hc k Hkf) as [b ->].
  - assert (k ∈ accessNames) as Hka by (apply elem_of_app in Hk as [?|?]; done).
    destruct (ho_access _ Hc k Hka) as [[] ->]. done.
Qed.

(** ** The configuration of the sidebar *)

Definition configJson (config : SidebarConfig) : json := JObj (map (prod_map id sectionJson) config).

(** Every module of the defaults has a switch. *)
Definition covers (config : SidebarConfig) : Prop :=
  forall section d module, map_get SIDEBAR_MODULES_DEFAULT section = Some d -> is_Some (map_get d module) ->
    exists s, map_get config section = Some s /\ is_Some (map_get s module).

Lemma config_keys c : printable (configJson c) -> Forall wf_str c.*1.
Proof. unfold configJson. intros H. inversion H as [| | | | |fs _ Hk _]; subst. by rewrite keys_map in Hk. Qed.

Lemma section_keys s : printable (sectionJson s) -> Forall wf_str s.*1.
Proof. unfold sectionJson. intros H. inversion H as [| | | | |fs _ Hk _]; subst. by rewrite keys_map in Hk. Qed.

Lemma config_section c k s : printable (configJson c) -> (k, s) ∈ c -> printable (sectionJson s).
Proof.
  unfold configJson. intros H Hin. inversion H as [| | | | |fs _ _ Hv]; subst. rewrite Forall_forall in Hv.
  apply Hv, list_elem_of_fmap. exists (k, sectionJson s). split; [done|]. apply list_elem_of_fmap. by exists (k, s).
Qed.

Lemma fillSection_get d s k :
  map_get (fillSection s d) k = match map_get s k with Some v => Some v | None => map_get d k end.
Proof.
  unfold fillSection. revert s. induction d as [|[k' v] d IH]; intros s; [by cbn; destruct (map_get s k)|].
  cbn [fold_left map_get]. rewrite IH. destruct (map_get s k') as [v'|] eqn:E.
  - case_decide as Ek; [subst|done]. by rewrite E.
  - case_decide as Ek; [subst; by rewrite map_get_set_eq, E|by rewrite map_get_set_ne].
Qed.

Lemma section_set_printable s k b : wf_str k -> printable (sectionJson s) -> printable (sectionJson (map_set s k b)).
Proof. intros Hk H. unfold sectionJson. rewrite map_map_set. by apply printable_set; [|constructor|]. Qed.

Lemma config_set_printable c k s :
  wf_str k -> printable (sectionJson s) -> printable (configJson c) -> printable (configJson (map_set c k s)).
Proof. intros Hk Hs H. unfold configJson. rewrite map_map_set. by apply printable_set. Qed.

Lemma sectionOf_printable k raw : printable raw -> printable (sectionJson (sectionOf k raw)).
Proof.
  intros H. unfold sectionOf. pose proof (own_keys_wf raw H) as Hk. revert Hk. generalize (own_entries raw) as es.
  match goal with |- forall es, _ -> printable (sectionJson (fold_left _ es ?s0)) => set (start := s0) end.
  assert (printable (sectionJson start)) as Hs.
  { apply printable_obj; [by repeat constructor; set_solver| |by repeat constructor].
    constructor; [by apply (bool_decide_unpack _); vm_compute|constructor]. }
  revert Hs. generalize start. intros s0 Hs es. revert s0 Hs.
  induction es as [|[m v] es IH]; intros s0 Hs Hk; [done|]. apply Forall_cons in Hk as [Hk Hks]. cbn [fold_left].
  apply IH; [|done]. case_bool_decide; [done|]. by apply section_set_printable.
Qed.

Lemma fillSection_printable s d : Forall wf_str d.*1 -> printable (sectionJson s) -> printable (sectionJson (fillSection s d)).
Proof.
  unfold fillSection. intros Hk. revert s. induction d as [|[k v] d IH]; intros s Hs; [done|].
  apply Forall_cons in Hk as [Hk Hks]. cbn [fold_left]. apply IH; [done|].
  case_match; [done|]. by apply section_set_printable.
Qed.

Lemma config_get_printable c k s : printable (configJson c) -> map_get c k = Some s -> printable (sectionJson s).
Proof. intros H Hg%map_get_Some_elem. by eapply config_section. Qed.

(** The keys and sections of the defaults can be printed. *)
Lemma defaults_printable : printable (configJson SIDEBAR_MODULES_DEFAULT).
Proof. apply wf_printable, wf_jsonb_sound. by vm_compute. Qed.

Lemma mergeDefaults_printable c : printable (configJson c) -> printable (configJson (mergeDefaults c)).
Proof.
  unfold mergeDefaults.
  assert (Forall (fun kd => wf_str kd.1 /\ Forall wf_str kd.2.*1 /\ printable (sectionJson kd.2)) SIDEBAR_MODULES_DEFAULT) as Hd.
  { pose proof defaults_printable as Hp. pose proof (config_keys _ Hp) as Hk. apply Forall_forall. intros [k d] Hin.
    pose proof (config_section _ _ _ Hp Hin) as Hs. cbn [fst snd]. split_and!; [|by apply section_keys|done].
    rewrite Forall_forall in Hk. apply Hk, list_elem_of_fmap. by exists (k, d). }
  revert c. induction Hd as [|[k d] ds (Hk & Hks & Hs) _ IH]; intros c Hc; [done|]. cbn [fold_left]. apply IH.
  cbn [fst snd] in *. apply config_set_printable; [done| |done].
  destruct (map_get c k) as [s|] eqn:E; [|done]. apply fillSection_printable; [done|by eapply config_get_printable].
Qed.

Lemma mergeDefaults_covers c : covers (mergeDefaults c).
Proof.
  intros section d module Hd Hm. unfold mergeDefaults.
  rewrite (SidebarProperties.fold_update_get (fun config old => match old with None => config | Some s => fillSection s config end))
    by (by apply (bool_decide_unpack _); vm_compute).
  rewrite Hd. destruct (map_get c section) as [s|]; eexists; (split; [done|]); [|done]. rewrite fillSection_get.
  destruct (map_get s module); [by eexists|done].
Qed.

Lemma defaults_cover : covers SIDEBAR_MODULES_DEFAULT.
Proof. intros section d module Hd Hm. by exists d. Qed.

Lemma sidebar_ok settings : (forall s, settings = Some s -> wf_str s) ->
  printable (configJson (parseSidebarModulesAdmin settings)) /\ covers (parseSidebarModulesAdmin settings).
Proof.
  intros Hw. unfold parseSidebarModulesAdmin. pose proof defaults_printable as Hd. pose proof defaults_cover as Hc.
  case_match; [done|]. destruct (JSON_parse _) as [v|] eqn:E; [|done].
  assert (printable v) as Hv.
  { apply (parse_printable (or_empty settings)); [|done]. destruct settings; [by apply Hw|constructor]. }
  assert (printable (configJson (fold_left sidebarEntry (own_entries v) []))) as Hp.
  { assert (Forall (fun kv => wf_str kv.1 /\ (match kv.2 with JArr _ | JObj _ => printable kv.2 | _ => True end)) (own_entries v)) as Hes.
    { pose proof (own_keys_wf v Hv) as Hk. rewrite Forall_fmap in Hk. rewrite Forall_forall in Hk. apply Forall_forall.
      intros [k x] Hin. split; [by apply (Hk (k, x))|]. cbn [snd]. destruct v as [| | |st|l|fs]; try by apply not_elem_of_nil in Hin.
      - cbn [own_entries] in Hin. apply elem_of_zip_r, list_elem_of_In, in_map_iff in Hin as (c0 & <- & _). done.
      - cbn [own_entries] in Hin. apply elem_of_zip_r in Hin. inversion Hv as [| | | |? Hl|]; subst. rewrite Forall_forall in Hl.
        pose proof (Hl x Hin). by destruct x.
      - cbn [own_entries] in Hin. apply (proj1 (Object_entries_elem _ _)) in Hin. inversion Hv as [| | | | |? _ _ Hl]; subst.
        rewrite Forall_forall in Hl. assert (printable x) by (apply Hl, list_elem_of_fmap; by exists (k, x)). by destruct x. }
    assert (printable (configJson [])) as H0 by (by repeat constructor). revert H0. generalize ([] : SidebarConfig).
    induction Hes as [|[k x] es [Hk Hx] _ IH]; intros c Hcp; [done|]. cbn [fold_left]. apply IH. unfold sidebarEntry. cbn [fst snd] in *.
    destruct x; try done; by apply config_set_printable; [|apply sectionOf_printable|]. }
  destruct v; try (by split); by split; [apply mergeDefaults_printable|apply mergeDefaults_covers].
Qed.

Lemma switch_ok section module b c :
  printable (configJson c) /\ covers c ->
  printable (configJson (sidebarSwitch section module b c)) /\ covers (sidebarSwitch section module b c).
Proof.
  intros [Hp Hc]. unfold sidebarSwitch. destruct (map_get c section) as [s|] eqn:Es; [|done].
  destruct (map_get s module) as [b0|] eqn:Em; [|done]. case_match; [|done]. split.
  - pose proof (config_keys _ Hp) as Hks. pose proof (config_get_printable _ _ _ Hp Es) as Hs.
    pose proof (section_keys _ Hs) as Hms.
    assert (forall A (l : list (jsstr * A)) k x, map_get l k = Some x -> Forall wf_str l.*1 -> wf_str k) as Hin.
    { intros A l k x Hl%map_get_Some_elem Hf. rewrite Forall_forall in Hf. apply Hf, list_elem_of_fmap. by exists (k, x). }
    apply config_set_printable; [by eapply Hin| |done]. apply section_set_printable; [by eapply Hin|done].
  - intros sec d m Hd Hm. destruct (Hc sec d m Hd Hm) as (s' & Hs' & Hm'). destruct (decide (section = sec)) as [->|Hne].
    + rewrite Hs' in Es. injection Es as ->. rewrite map_get_set_eq. eexists. split; [done|].
      destruct (decide (module = m)) as [->|Hn]; [rewrite map_get_set_eq; by eexists|by rewrite map_get_set_ne].
    + rewrite map_get_set_ne by done. by exists s'.
Qed.

Definition runSidebar (evs : list SidebarEvent) (c : SidebarConfig) : SidebarConfig := fold_left sidebarStep evs c.

Lemma run_ok evs c :
  printable (configJson c) /\ covers c -> printable (configJson (runSidebar evs c)) /\ covers (runSidebar evs c).
Proof.
  revert c. induction evs as [|[section module b|] evs IH]; intros c H; [done|by apply IH, switch_ok|].
  apply IH. split; [apply defaults_printable|apply defaults_cover].
Qed.

(** What the text says of a section. *)
Lemma sidebar_text_section c section s module b :
  printable (configJson c) -> map_get c section = Some s -> map_get s module = Some b ->
  exists v sec, JSON_parse (serializeSidebarModulesAdmin c) = Some v /\ json_truthy v = true /\ prop v section = Some sec /\
    json_truthy sec = true /\ forall m x, map_get s m = Some x -> prop sec m = Some (JBool x).
Proof.
  intros Hp Hs Hm. unfold serializeSidebarModulesAdmin. fold (configJson c). rewrite stringify_reads by done.
  exists (canon (configJson c)), (canon (sectionJson s)). pose proof Hp as Hn. unfold configJson in Hn.
  inversion Hn as [| | | | |fs Hnd _ _]; subst.
  pose proof (config_get_printable _ _ _ Hp Hs) as Hsp. pose proof Hsp as Hsn. unfold sectionJson in Hsn.
  inversion Hsn as [| | | | |fs' Hsnd _ _]; subst.
  split_and!; [done|done| |done|].
  - unfold configJson. cbn [canon prop]. rewrite canon_get by done. by rewrite map_get_map, Hs.
  - intros m x Hx. unfold sectionJson. cbn [canon prop]. rewrite canon_get by done. by rewrite map_get_map, Hx.
Qed.

Lemma defaults_agree :
  Sidebar.DEFAULT_SIDEBAR_MODULES = map (prod_map id (map (prod_map id JBool))) SIDEBAR_MODULES_DEFAULT.
Proof. reflexivity. Qed.

(** A module that a path refers to has its switches. *)
Lemma path_covered url section module :
  map_get Sidebar.URL_TO_CONFIG_MAP url = Some (section, module) ->
  exists d, map_get SIDEBAR_MODULES_DEFAULT section = Some d /\ is_Some (map_get d (js "enabled")) /\ is_Some (map_get d module).
Proof.
  intros (_ & _ & d & Hd & He & Hm)%SidebarProperties.mapped_known. rewrite defaults_agree, map_get_map in Hd.
  apply fmap_Some in Hd as (d' & Hd' & ->). exists d'. rewrite map_get_map in He, Hm.
  apply fmap_Some in He as (e & He & _). apply fmap_Some in Hm as (b & Hm & _). by split_and!; [|eexists|eexists].
Qed.

(** C38: The switches of the form for the sidebar take effect.  Whatever text is
    stored, whatever switches are turned and whether the form is reset, every path of the sidebar has a
    switch for its section and one for its module, and with the text that is
    saved the sidebar shows the path exactly when both are on and the
    preference of the user does not hide it; the guard that reads the same text
    from the cached status agrees. *)
Theorem sidebar_switches_take_effect settings evs user url section module :
  (forall s, settings = Some s -> wf_str s) ->
  let values := runSidebar evs (parseSidebarModulesAdmin settings) in
  let text := serializeSidebarModulesAdmin values in
  map_get Sidebar.URL_TO_CONFIG_MAP url = Some (section, module) ->
  exists s e b, map_get values section = Some s /\ map_get s (js "enabled") = Some e /\ map_get s module = Some b /\
    Sidebar.useIsSidebarModuleVisible (Some text) user url
      = e && b && Sidebar.userAllows (Sidebar.userConfigOf user) section module /\
    forall item status, NavModules.getCachedStatus item = Some status ->
      prop status (js "SidebarModulesAdmin") = Some (JStr text) ->
      NavModules.isSidebarModuleEnabled section module item = Some (e && b).
Proof.
  intros Hw values text Hu. destruct (run_ok evs _ (sidebar_ok settings Hw)) as [Hp Hc]. fold values in Hp, Hc.
  destruct (path_covered url section module Hu) as (d & Hd & He & Hm).
  destruct (Hc section d _ Hd He) as (s & Hs & [e Hse]). destruct (Hc section d _ Hd Hm) as (s' & Hs' & [b Hsb]).
  rewrite Hs in Hs'. injection Hs' as <-. exists s, e, b. split_and!; [done..| |].
  all: destruct (sidebar_text_section values section s module b Hp Hs Hsb) as (v & sec & Hv & Htv & Hsec & Hts & Hmods);
    fold text in Hv; assert (truthy (trim text) = true) as Htr
      by (pose proof (JsonLocal.parse_trim _ _ Hv) as Ht; by destruct (trim text)).
  - unfold Sidebar.useIsSidebarModuleVisible, Sidebar.isModuleEnabled. rewrite Hu. f_equal.
    rewrite SidebarProperties.adminAllowed_says by (by eapply SidebarProperties.mapped_known).
    unfold SidebarProperties.adminSays, has_text. rewrite Htr. cbn [or_empty]. rewrite Hv, Hsec, Hts.
    rewrite (Hmods _ _ Hse), (Hmods _ _ Hsb). by destruct e, b.
  - intros item status Hi Hst. unfold NavModules.isSidebarModuleEnabled. rewrite Hi, Hst.
    assert (json_truthy status = true) as -> by (by destruct status). cbn [json_truthy negb String_of mbind option_bind].
    assert (truthy text = true) as -> by (by destruct text). cbn [negb]. rewrite Htr, Hv, Hsec, Hts. cbn [negb].
    rewrite (Hmods _ _ Hse), (Hmods _ _ Hsb). by destruct e, b.
Qed.

(** ** Texts that the form and the pages read differently *)

(** The form shows a number other than 0 and 1 as off, the pages keep the
    default, and since the form compares what it would send with what it has
    read, saving sends nothing. *)
Example form_differs_on_numbers :
  let text := jq "{'home':2}" in
  home (toFormValues (parseHeaderNavModules (Some text))) = false /\
  submitHeaderNav (Some text) (toFormValues (parseHeaderNavModules (Some text))) = None /\
  (fun m => map_get (NavModules.flags m) (js "home")) <$> NavModules.parseHeaderNavModules (Some (JStr text)) = Some (Some true).
Proof. cbv zeta. split_and!; vm_compute; reflexivity. Qed.

(** The form shows the text true as on, the sidebar hides the path, and saving
    sends nothing. *)
Example form_differs_on_texts :
  let text := jq "{'chat':{'playground':'true'}}" in
  (map_get (parseSidebarModulesAdmin (Some text)) (js "chat") ≫= fun s => map_get s (js "playground")) = Some true /\
  submitSidebar (Some text) (parseSidebarModulesAdmin (Some text)) = None /\
  Sidebar.useIsSidebarModuleVisible (Some text) SidebarProperties.nobody (js "/playground") = false.
Proof. cbv zeta. split_and!; vm_compute; reflexivity. Qed.

(** ** Witnesses *)

Lemma header_switches_take_effect_witness :
  exists text m, submitHeaderNav (Some (jq "{'docs':'0','extra':1}")) (mkValues true true true true false false false true) = Some text /\
    NavModules.parseHeaderNavModules (Some (JStr text)) = Some m /\ NavModules.pricing m = mkAccess true true.
Proof.
  assert (bool_decide (is_Some (submitHeaderNav (Some (jq "{'docs':'0','extra':1}"))
    (mkValues true true true true false false false true))) = true) as H by (vm_compute; reflexivity).
  apply bool_decide_eq_true_1 in H. destruct H as [text H]. exists text.
  destruct (header_switches_take_effect (Some (jq "{'docs':'0','extra':1}")) (mkValues true true true true false false false true) text)
    as (_ & m & H1 & H2 & _).
  - intros s [= <-]. apply (bool_decide_unpack _). vm_compute. exact I.
  - exact H.
  - exists m. exact (conj H (conj H1 H2)).
Defined.

Lemma sidebar_switches_take_effect_witness :
  exists text, Sidebar.useIsSidebarModuleVisible (Some text) SidebarProperties.nobody (js "/keys") = false /\
    text = serializeSidebarModulesAdmin (runSidebar [Turn (js "console") (js "token") false] (parseSidebarModulesAdmin None)).
Proof.
  destruct (sidebar_switches_take_effect None [Turn (js "console") (js "token") false] SidebarProperties.nobody (js "/keys")
    (js "console") (js "token")) as (s & e & b & H1 & H2 & H3 & H4 & _).
  - intros s [=].
  - reflexivity.
  - eexists. split; [|reflexivity]. rewrite H4. vm_compute in H1. injection H1 as <-. vm_compute in H3. injection H3 as <-.
    destruct e; reflexivity.
Defined.

End SiteNavigationProperties.
