(* ===== verification/ThinkTags.v ===== *)
(** * Separation of reasoning from visible text

    Model of [parseThinkTags] of
    [features/playground/lib/message/message-reasoning-utils.ts].  The source
    is an unbounded loop over positions; [think_loop] is that loop with fuel,
    and [think_loop_terminates] shows that one unit per character is enough.
    [Segments] is the grammar of a text with think tags, and the theorems show
    that the parser returns exactly the decomposition of the grammar. *)

From S2P Require Import Prelude JsString.

Module ThinkTags.

Definition open_tag : jsstr := js "<think>".
Definition close_tag : jsstr := js "</think>".

(** ** Data *)

Record ParsedThinkTags := mkParsedThinkTags {
  visibleContent : jsstr;
  reasoning : jsstr;
  hasUnclosedTag : bool }.

(** ** Operations *)

(** The loop of [parseThinkTags]: [None] only when the fuel runs out. *)
Fixpoint think_loop (fuel : nat) (content : jsstr) (currentPos : nat)
    (visibleParts reasoningParts : list jsstr) : option (list jsstr * list jsstr * bool) :=
  match fuel with
  | O => None
  | S fuel' =>
      match indexOf content open_tag currentPos with
      | None =>
          Some (if (currentPos <? length content)%nat
                then visibleParts ++ [slice_from content currentPos] else visibleParts,
                reasoningParts, false)
      | Some openPos =>
          let visibleParts' :=
            if (currentPos <? openPos)%nat
            then visibleParts ++ [slice content currentPos openPos] else visibleParts in
          match indexOf content close_tag (openPos + 7) with
          | None => Some (visibleParts', reasoningParts ++ [slice_from content (openPos + 7)], true)
          | Some closePos =>
              think_loop fuel' content (closePos + 8) visibleParts'
                (reasoningParts ++ [slice content (openPos + 7) closePos])
          end
      end
  end.

(** Every iteration but the last moves past both tags, so the length of the
    text bounds the number of iterations. *)
Definition think_fuel (content : jsstr) : nat := S (length content).

Definition parseThinkTags (content : jsstr) : ParsedThinkTags :=
  if negb (includes content open_tag) then mkParsedThinkTags content [] false
  else
    match think_loop (think_fuel content) content 0 [] [] with
    | Some (visibleParts, reasoningParts, unclosed) =>
        mkParsedThinkTags (trim (join [] visibleParts))
          (trim (join [10; 10] reasoningParts)) unclosed
    | None => mkParsedThinkTags content [] false
    end.

(** ** Specification *)

(** A text is a sequence of visible parts without an opening tag and of
    reasoning parts without a closing tag; the last reasoning part may be left
    open. *)
Inductive Segments : jsstr -> list jsstr -> list jsstr -> bool -> Prop :=
| seg_end v :
    includes v open_tag = false -> Segments v [v] [] false
| seg_open v r :
    includes v open_tag = false -> includes r close_tag = false ->
    Segments (v ++ open_tag ++ r) [v] [r] true
| seg_pair v r rest vs rs b :
    includes v open_tag = false -> includes r close_tag = false ->
    Segments rest vs rs b ->
    Segments (v ++ open_tag ++ r ++ close_tag ++ rest) (v :: vs) (r :: rs) b.

(** ** Occurrences of a tag *)

(** A tag whose first character does not occur again in it cannot overlap
    itself, so its first occurrence after a part without it is where it was
    put. *)
Definition unbordered (needle : jsstr) : Prop :=
  match needle with [] => False | c :: n => c ∉ n end.

Lemma startsWith_lookup s p i c :
  startsWith s p = true -> p !! i = Some c -> s !! i = Some c.
Proof. intros [t ->]%startsWith_spec H. by apply lookup_app_l_Some. Qed.

Lemma no_overlap needle v w j :
  unbordered needle -> includes v needle = false -> (j < length v)%nat ->
  startsWith (drop j (v ++ needle ++ w)) needle = false.
Proof.
  intros Hu Hv Hj. destruct (startsWith _ needle) eqn:E; [|done]. exfalso.
  destruct (decide (j + length needle <= length v)%nat) as [Hle|Hgt].
  - rewrite drop_app_le in E by lia. apply startsWith_spec in E as [t Ht].
    assert (includes v needle = true) as Hi; [|by rewrite Hi in Hv].
    apply includes_spec. exists (take j v), (drop (j + length needle) v).
    rewrite <- (take_drop j v) at 1. f_equal. rewrite <- drop_drop.
    apply (f_equal (take (length needle))) in Ht. rewrite take_app_length, take_app_le in Ht.
    + rewrite <- Ht at 1. by rewrite take_drop.
    + rewrite length_drop. lia.
  - destruct needle as [|c n]; [done|]. simpl in Hu.
    destruct (n !! (length v - j - 1)%nat) as [d|] eqn:Ed.
    2:{ apply lookup_ge_None in Ed. simpl in Hgt. lia. }
    assert ((c :: n) !! (length v - j)%nat = Some d) as Ed'.
    { replace (length v - j)%nat with (S (length v - j - 1)) by lia. done. }
    pose proof (startsWith_lookup _ _ _ _ E Ed') as H. rewrite lookup_drop in H.
    replace (j + (length v - j))%nat with (length v) in H by lia.
    rewrite lookup_app_r, Nat.sub_diag in H by lia. simpl in H. simplify_eq.
    apply Hu. by eapply list_elem_of_lookup_2.
Qed.

Lemma find_sub_at needle v w :
  unbordered needle -> includes v needle = false ->
  find_sub needle (v ++ needle ++ w) = Some (length v).
Proof.
  intros Hu Hv. destruct (find_sub needle _) as [i|] eqn:E.
  - f_equal. pose proof (find_sub_first _ _ _ E (length v)) as H1.
    destruct (Nat.lt_trichotomy i (length v)) as [Hlt|[->|Hlt]]; [|done|].
    + pose proof (no_overlap needle v w i Hu Hv Hlt) as H.
      apply find_sub_Some in E as [E _]. apply (f_equal (drop i)) in E.
      rewrite E, drop_app_ge, length_take, length_app in H by (rewrite length_take; lia).
      replace (i - i `min` _)%nat with 0%nat in H by lia. by rewrite drop_0, startsWith_app in H.
    + specialize (H1 Hlt). by rewrite drop_app_length, startsWith_app in H1.
  - rewrite find_sub_None in E. specialize (E (length v)).
    by rewrite drop_app_length, startsWith_app in E.
Qed.

Lemma open_tag_unbordered : unbordered open_tag.
Proof. apply (bool_decide_unpack _). vm_compute. exact I. Qed.

Lemma close_tag_unbordered : unbordered close_tag.
Proof. apply (bool_decide_unpack _). vm_compute. exact I. Qed.

Lemma indexOf_skip s needle p :
  indexOf (p ++ s) needle (length p) = (fun i => (length p + i)%nat) <$> find_sub needle s.
Proof. unfold indexOf. by rewrite drop_app_length. Qed.

#[local] Hint Resolve open_tag_unbordered close_tag_unbordered : core.

(** ** The loop follows the grammar *)

Lemma slice_mid (p v w : jsstr) : slice (p ++ v ++ w) (length p) (length p + length v) = v.
Proof.
  unfold slice. rewrite drop_app_length.
  replace (length p + length v - length p)%nat with (length v) by lia. apply take_app_length.
Qed.

Lemma snoc_truthy (V : list jsstr) v :
  (if (0 <? length v)%nat then V ++ [v] else V) = V ++ filter_truthy [v].
Proof. destruct v; simpl; [by rewrite app_nil_r|done]. Qed.

(** The two pushes of a visible part: it is kept when it is not empty. *)
Lemma push_visible V p v w :
  (if (length p <? length p + length v)%nat
   then V ++ [slice (p ++ v ++ w) (length p) (length p + length v)] else V)
  = V ++ filter_truthy [v].
Proof.
  rewrite slice_mid, <- snoc_truthy.
  replace (length p <? length p + length v)%nat with (0 <? length v)%nat; [done|].
  destruct (Nat.ltb_spec 0 (length v)), (Nat.ltb_spec (length p) (length p + length v)); lia || done.
Qed.

Lemma push_rest V (p v : jsstr) :
  (if (length p <? length (p ++ v))%nat then V ++ [slice_from (p ++ v) (length p)] else V)
  = V ++ filter_truthy [v].
Proof.
  unfold slice_from. rewrite drop_app_length, <- snoc_truthy, length_app.
  replace (length p <? length p + length v)%nat with (0 <? length v)%nat; [done|].
  destruct (Nat.ltb_spec 0 (length v)), (Nat.ltb_spec (length p) (length p + length v)); lia || done.
Qed.

Lemma filter_truthy_cons v vs : filter_truthy (v :: vs) = filter_truthy [v] ++ filter_truthy vs.
Proof. by destruct v. Qed.

Lemma think_loop_segments s vs rs b :
  Segments s vs rs b ->
  forall p fuel V R, (length s < fuel)%nat ->
  think_loop fuel (p ++ s) (length p) V R = Some (V ++ filter_truthy vs, R ++ rs, b).
Proof.
  assert (length open_tag = 7%nat /\ length close_tag = 8%nat) as [L7 L8] by done.
  induction 1 as [v Hv | v r Hv Hr | v r rest vs rs b Hv Hr _ IH];
    intros p fuel V R Hf; (destruct fuel as [|fuel]; [lia|]); cbn [think_loop];
    rewrite indexOf_skip.
  - apply includes_false in Hv. rewrite Hv. cbn [fmap option_fmap option_map].
    by rewrite push_rest, app_nil_r.
  - rewrite find_sub_at by done. cbn [fmap option_fmap option_map].
    rewrite push_visible.
    replace (length p + length v + 7)%nat with (length (p ++ v ++ open_tag))
      by (rewrite !length_app; lia).
    replace (p ++ v ++ open_tag ++ r) with ((p ++ v ++ open_tag) ++ r) by (by rewrite <- !app_assoc).
    rewrite indexOf_skip. apply includes_false in Hr. rewrite Hr. cbn [fmap option_fmap option_map].
    unfold slice_from. by rewrite drop_app_length.
  - rewrite find_sub_at by done. cbn [fmap option_fmap option_map].
    rewrite push_visible.
    replace (length p + length v + 7)%nat with (length (p ++ v ++ open_tag))
      by (rewrite !length_app; lia).
    replace (p ++ v ++ open_tag ++ r ++ close_tag ++ rest)
      with ((p ++ v ++ open_tag) ++ r ++ close_tag ++ rest) by (by rewrite <- !app_assoc).
    rewrite indexOf_skip, find_sub_at by done. cbn [fmap option_fmap option_map].
    rewrite slice_mid.
    replace (length (p ++ v ++ open_tag) + length r + 8)%nat
      with (length ((p ++ v ++ open_tag) ++ r ++ close_tag)) by (rewrite !length_app; lia).
    replace ((p ++ v ++ open_tag) ++ r ++ close_tag ++ rest)
      with (((p ++ v ++ open_tag) ++ r ++ close_tag) ++ rest) by (by rewrite <- !app_assoc).
    rewrite IH by (rewrite !length_app in Hf; lia).
    by rewrite (filter_truthy_cons v vs), <- !app_assoc.
Qed.

(** Every text has a decomposition. *)
Lemma first_occurrence needle s i :
  find_sub needle s = Some i -> needle <> [] ->
  s = take i s ++ needle ++ drop (i + length needle) s /\ includes (take i s) needle = false.
Proof.
  intros E Hn. destruct (find_sub_Some _ _ _ E) as [H1 H2]. split; [done|].
  destruct (includes (take i s) needle) eqn:Hi; [|done]. exfalso.
  apply includes_spec in Hi as (l & r & Hlr).
  pose proof (f_equal length Hlr) as Hlen. rewrite !length_app, length_take in Hlen.
  destruct needle as [|c n]; [done|]. simpl in Hlen.
  pose proof (find_sub_first _ _ _ E (length l) ltac:(lia)) as F.
  rewrite H1, Hlr, <- !app_assoc, drop_app_length, startsWith_app in F. done.
Qed.

Lemma Segments_total_fuel n s : (length s <= n)%nat -> exists vs rs b, Segments s vs rs b.
Proof.
  revert s. induction n as [|n IH]; intros s Hn.
  { destruct s; [|simpl in Hn; lia]. exists [[]], [], false. by apply seg_end. }
  destruct (find_sub open_tag s) as [i|] eqn:Eo.
  2:{ exists [s], [], false. apply seg_end. by apply includes_false. }
  apply first_occurrence in Eo as [Hs Hv]; [|done].
  remember (take i s) as v eqn:Ev. clear Ev. remember (drop _ s) as w eqn:Ew. clear Ew. subst s.
  destruct (find_sub close_tag w) as [j|] eqn:Ec.
  2:{ exists [v], [w], true. apply seg_open; [done|]. by apply includes_false. }
  apply first_occurrence in Ec as [Hw Hr]; [|done].
  remember (take j w) as r eqn:Er. clear Er. remember (drop _ w) as rest eqn:Es. clear Es. subst w.
  destruct (IH rest) as (vs & rs & b & H).
  { rewrite !length_app in Hn. change (length open_tag) with 7%nat in Hn. lia. }
  exists (v :: vs), (r :: rs), b. by apply seg_pair.
Qed.

Lemma Segments_total s : exists vs rs b, Segments s vs rs b.
Proof. by apply (Segments_total_fuel (length s)). Qed.

Lemma join_nil_truthy vs : join [] (filter_truthy vs) = concat vs.
Proof.
  induction vs as [|v vs IH]; [done|]. rewrite filter_truthy_cons. destruct v as [|c v]; [done|].
  cbn [filter_truthy List.filter truthy app concat]. fold (filter_truthy vs).
  rewrite <- IH. destruct (filter_truthy vs); simpl; [by rewrite app_nil_r|done].
Qed.

Lemma Segments_no_open s vs rs b :
  Segments s vs rs b -> includes s open_tag = negb (match rs with [] => true | _ => false end).
Proof.
  destruct 1; cbn [negb]; [done|apply includes_spec; eauto|].
  apply includes_spec. eauto.
Qed.

Lemma think_loop_start content vs rs b k :
  Segments content vs rs b ->
  think_loop (think_fuel content + k) content 0 [] [] = Some (filter_truthy vs, rs, b).
Proof.
  intros H. apply (think_loop_segments _ _ _ _ H []). unfold think_fuel. lia.
Qed.

Lemma parseThinkTags_segments content vs rs b :
  Segments content vs rs b ->
  parseThinkTags content =
  match rs with
  | [] => mkParsedThinkTags content [] false
  | _ => mkParsedThinkTags (trim (concat vs)) (trim (join [10; 10] rs)) b
  end.
Proof.
  intros H. unfold parseThinkTags. rewrite (Segments_no_open _ _ _ _ H), negb_involutive.
  destruct rs as [|r rs]; [done|].
  pose proof (think_loop_start _ _ _ _ 0 H) as L. rewrite Nat.add_0_r in L.
  by rewrite L, join_nil_truthy.
Qed.

(** ** Properties *)

(** The loop of [parseThinkTags] always ends: one unit of fuel per character
    of the text is enough, and more fuel changes nothing. *)
Theorem think_loop_terminates content extra :
  exists vis reas b,
    think_loop (think_fuel content) content 0 [] [] = Some (vis, reas, b) /\
    think_loop (think_fuel content + extra) content 0 [] [] = Some (vis, reas, b).
Proof.
  destruct (Segments_total content) as (vs & rs & b & H).
  exists (filter_truthy vs), rs, b. rewrite <- (Nat.add_0_r (think_fuel content)) at 1.
  by rewrite !(think_loop_start _ _ _ _ _ H).
Qed.

(** [parseThinkTags] returns the decomposition of the text, which always
    exists: the visible content is the trimmed concatenation of the parts
    outside think tags, the reasoning the trimmed parts inside them separated
    by a blank line, and the flag says whether the last tag was left open.  A
    text without an opening tag is returned unchanged. *)
Theorem parseThinkTags_decomposition content :
  (exists vs rs b, Segments content vs rs b) /\
  forall vs rs b, Segments content vs rs b ->
  parseThinkTags content =
  match rs with
  | [] => mkParsedThinkTags content [] false
  | _ => mkParsedThinkTags (trim (concat vs)) (trim (join [10; 10] rs)) b
  end.
Proof. split; [apply Segments_total|]. intros vs rs b. apply parseThinkTags_segments. Qed.

Lemma segments_length s vs rs b : Segments s vs rs b -> (length (concat vs) <= length s)%nat.
Proof.
  induction 1 as [v _|v r _ _|v r rest vs rs b _ _ _ IH]; cbn [concat];
    rewrite ?app_nil_r, ?length_app; lia.
Qed.

(** The visible text is never longer than the content. *)
Lemma visibleContent_length content :
  (length (visibleContent (parseThinkTags content)) <= length content)%nat.
Proof.
  destruct (Segments_total content) as (vs & rs & b & H).
  rewrite (parseThinkTags_segments _ _ _ _ H). destruct rs as [|r rs]; cbn [visibleContent]; [done|].
  etrans; [apply trim_length|]. by eapply segments_length.
Qed.

Example parseThinkTags_sample :
  parseThinkTags (js "a<think>b</think> c<think>d")
  = mkParsedThinkTags (js "a c") (js "b" ++ [10; 10] ++ js "d") true.
Proof. vm_compute. reflexivity. Qed.

End ThinkTags.
