(* ===== verification/Effects.v ===== *)
(** * Effects of the playground: the clock and fresh identifiers

    The message functions read [Date.now()] and [nanoid()].  An [Env] holds the
    successive values both will return and how many have been used; a function
    that reads them is a state transformer on [Env].  Nothing is assumed of the
    readings: the clock may stand still or go back. *)

From S2P Require Import Prelude JsString.

Record Env := mkEnv {
  clock_readings : nat -> Z;
  clock_pos : nat;
  id_source : nat -> jsstr;
  id_pos : nat }.

Definition M (A : Type) : Type := Env -> A * Env.

Definition ret {A} (x : A) : M A := fun e => (x, e).

Definition bind {A B} (c : M A) (k : A -> M B) : M B :=
  fun e => let '(x, e') := c e in k x e'.

Notation "'let!' x := c 'in' k" := (bind c (fun x => k))
  (at level 10, x name, c at level 100, k at level 200) : js_scope.

(** [Date.now()] *)
Definition Date_now : M Z :=
  fun e => (clock_readings e (clock_pos e),
            mkEnv (clock_readings e) (S (clock_pos e)) (id_source e) (id_pos e)).

(** [nanoid()] *)
Definition nanoid : M jsstr :=
  fun e => (id_source e (id_pos e),
            mkEnv (clock_readings e) (clock_pos e) (id_source e) (S (id_pos e))).

(** The value a computation returns, whatever the environment: used to state
    that a result does not depend on the clock. *)
Definition result {A} (c : M A) (e : Env) : A := (c e).1.

Lemma result_ret {A} (x : A) e : result (ret x) e = x.
Proof. done. Qed.

Lemma result_bind {A B} (c : M A) (k : A -> M B) e :
  result (bind c k) e = result (k (result c e)) ((c e).2).
Proof. unfold result, bind. by destruct (c e). Qed.

Lemma bind_ret_l {A B} (x : A) (k : A -> M B) e : bind (ret x) k e = k x e.
Proof. done. Qed.

Lemma bind_assoc {A B C} (c : M A) (k : A -> M B) (h : B -> M C) e :
  bind (bind c k) h e = bind c (fun x => bind (k x) h) e.
Proof. unfold bind. by destruct (c e). Qed.

Create Rewrite HintDb effects.
#[export] Hint Rewrite @result_ret @result_bind : effects.

(** [mapM]: [Array.prototype.map] with an effectful function. *)
Fixpoint mapM {A B} (f : A -> M B) (l : list A) : M (list B) :=
  match l with
  | [] => ret []
  | x :: l' => let! y := f x in let! ys := mapM f l' in ret (y :: ys)
  end.

Lemma mapM_length {A B} (f : A -> M B) l e : length (result (mapM f l) e) = length l.
Proof.
  revert e. induction l as [|x l IH]; intros e; [done|]. cbn [mapM].
  autorewrite with effects. cbn [length]. by rewrite IH.
Qed.

Lemma mapM_Forall {A B} (P : B -> Prop) (f : A -> M B) l e :
  (forall x e, x ∈ l -> P (result (f x) e)) -> Forall P (result (mapM f l) e).
Proof.
  revert e. induction l as [|x l IH]; intros e H; [constructor|]. cbn [mapM].
  autorewrite with effects. constructor; [apply H; left|]. apply IH. intros y e' Hy.
  apply H. by right.
Qed.

(** An environment for examples: the clock ticks one millisecond per reading
    from [t0], identifiers are numerals. *)
Definition sample_env (t0 : Z) : Env :=
  mkEnv (fun n => t0 + Z.of_nat n) 0 (fun n => js "id-" ++ showZ (Z.of_nat n)) 0.
