(* ===== verification/PlaygroundMessage.v ===== *)
(** * Playground messages

    Model of [features/playground/types.ts] (the message types) and of the
    message library of [features/playground/lib/message]: message-utils,
    message-timing-utils, message-update-utils, message-streaming-utils,
    conversation-message-utils and the small view-state helpers. *)

From S2P Require Import Prelude JsString Effects ThinkTags.

Module Playground.

(** ** Types (types.ts, constants.ts) *)

Inductive MessageRole := RoleUser | RoleAssistant | RoleSystem.
Inductive MessageStatus := LOADING | STREAMING | COMPLETE | ERROR.
Inductive PlaygroundMessageLayoutMode := LayoutAlternating | LayoutLeft.

#[export] Instance MessageRole_eq_dec : EqDecision MessageRole.
Proof. solve_decision. Defined.
#[export] Instance MessageStatus_eq_dec : EqDecision MessageStatus.
Proof. solve_decision. Defined.

Record MessageVersion := mkVersion { v_id : jsstr; v_content : jsstr }.

Record Source := mkSource { href : jsstr; title : jsstr }.

Record Reasoning := mkReasoning {
  r_content : jsstr;
  r_duration : Z;
  r_startedAt : option Z;
  r_completedAt : option Z;
  r_durationMs : option Z }.

(** Optional fields are [option]s; [errorCode] is undefined ([None]), null
    ([Some None]) or a string. *)
Record Message := mkMessage {
  key : jsstr;
  from : MessageRole;
  versions : list MessageVersion;
  createdAt : option Z;
  startedAt : option Z;
  completedAt : option Z;
  durationMs : option Z;
  sources : option (list Source);
  reasoning : option Reasoning;
  isReasoningStreaming : option bool;
  isReasoningComplete : option bool;
  isContentComplete : option bool;
  status : option MessageStatus;
  errorCode : option (option jsstr) }.

#[export] Instance MessageVersion_eq_dec : EqDecision MessageVersion.
Proof. solve_decision. Defined.
#[export] Instance Source_eq_dec : EqDecision Source.
Proof. solve_decision. Defined.
#[export] Instance Reasoning_eq_dec : EqDecision Reasoning.
Proof. solve_decision. Defined.
#[export] Instance Message_eq_dec : EqDecision Message.
Proof. solve_decision. Defined.

(** Object spread with one field replaced: [{ ...m, f: x }]. *)
Definition with_versions (m : Message) x := mkMessage (key m) (from m) x (createdAt m) (startedAt m)
  (completedAt m) (durationMs m) (sources m) (reasoning m) (isReasoningStreaming m)
  (isReasoningComplete m) (isContentComplete m) (status m) (errorCode m).
Definition with_createdAt (m : Message) x := mkMessage (key m) (from m) (versions m) x (startedAt m)
  (completedAt m) (durationMs m) (sources m) (reasoning m) (isReasoningStreaming m)
  (isReasoningComplete m) (isContentComplete m) (status m) (errorCode m).
Definition with_timing (m : Message) s c d := mkMessage (key m) (from m) (versions m) (createdAt m) s
  c d (sources m) (reasoning m) (isReasoningStreaming m)
  (isReasoningComplete m) (isContentComplete m) (status m) (errorCode m).
Definition with_reasoning (m : Message) x := mkMessage (key m) (from m) (versions m) (createdAt m)
  (startedAt m) (completedAt m) (durationMs m) (sources m) x (isReasoningStreaming m)
  (isReasoningComplete m) (isContentComplete m) (status m) (errorCode m).
Definition with_isReasoningStreaming (m : Message) x := mkMessage (key m) (from m) (versions m)
  (createdAt m) (startedAt m) (completedAt m) (durationMs m) (sources m) (reasoning m) (Some x)
  (isReasoningComplete m) (isContentComplete m) (status m) (errorCode m).
Definition with_status (m : Message) x := mkMessage (key m) (from m) (versions m) (createdAt m)
  (startedAt m) (completedAt m) (durationMs m) (sources m) (reasoning m) (isReasoningStreaming m)
  (isReasoningComplete m) (isContentComplete m) (Some x) (errorCode m).
Definition with_errorCode (m : Message) x := mkMessage (key m) (from m) (versions m) (createdAt m)
  (startedAt m) (completedAt m) (durationMs m) (sources m) (reasoning m) (isReasoningStreaming m)
  (isReasoningComplete m) (isContentComplete m) (status m) (Some x).

(** [ERROR_MESSAGES] *)
Definition API_REQUEST_ERROR : jsstr := js "Request error occurred".
Definition NETWORK_ERROR : jsstr := js "Network connection failed or server not responding".
Definition PARSE_ERROR : jsstr := js "Error parsing response data".
Definition STREAM_START_ERROR : jsstr := js "Error establishing connection".
Definition CONNECTION_CLOSED : jsstr := js "Connection closed".
Definition INTERRUPTED : jsstr := js "Generation was interrupted".

(** [Object.values(ERROR_MESSAGES)] *)
Definition ERROR_MESSAGES : list jsstr :=
  [API_REQUEST_ERROR; NETWORK_ERROR; PARSE_ERROR; STREAM_START_ERROR; CONNECTION_CLOSED; INTERRUPTED].

(** ** message-utils.ts *)

Definition createMessageVersion (content : jsstr) : M MessageVersion :=
  let! id := nanoid in ret (mkVersion id content).

Definition getCurrentVersion (m : Message) : MessageVersion :=
  versions m !! 0%nat ?? mkVersion (js "default") [].

Definition getMessageContent (m : Message) : jsstr := v_content (getCurrentVersion m).

Definition hasMessageContent (m : Message) : bool := truthy (trim (getMessageContent m)).

Definition updateCurrentVersionContent (m : Message) (content : jsstr) : Message :=
  with_versions m [mkVersion (v_id (getCurrentVersion m)) content].

Definition createUserMessage (content : jsstr) (created : Z) : M Message :=
  let! k := nanoid in
  let! v := createMessageVersion content in
  ret (mkMessage k RoleUser [v] (Some created) None None None None None None None None None None).

Definition createLoadingAssistantMessage (started : Z) : M Message :=
  let! k := nanoid in
  let! v := createMessageVersion [] in
  ret (mkMessage k RoleAssistant [v] (Some started) (Some started) None None None None
         (Some false) (Some false) (Some false) (Some LOADING) None).

Inductive ContentPart := TextPart (text : jsstr) | ImagePart (url : jsstr).

(** [string | ContentPart[]] *)
Inductive MessageContent := PlainContent (s : jsstr) | PartsContent (ps : list ContentPart).

Definition buildMessageContent (text : jsstr) (imageUrls : list jsstr) : MessageContent :=
  let validImages := List.filter (fun url => truthy (trim url)) imageUrls in
  match validImages with
  | [] => PlainContent text
  | _ => PartsContent (TextPart text :: map (fun url => ImagePart (trim url)) validImages)
  end.

Definition getTextContent (content : MessageContent) : jsstr :=
  match content with
  | PlainContent s => s
  | PartsContent ps =>
      match List.find (fun p => match p with TextPart _ => true | _ => false end) ps with
      | Some (TextPart t) => t
      | _ => []
      end
  end.

Record ChatCompletionMessage := mkChatMessage { role : MessageRole; cm_content : MessageContent }.

Definition formatMessageForAPI (m : Message) : ChatCompletionMessage :=
  mkChatMessage (from m) (PlainContent (v_content (getCurrentVersion m))).

Definition isAssistant (m : Message) : bool := bool_decide (from m = RoleAssistant).
Definition isUser (m : Message) : bool := bool_decide (from m = RoleUser).

Definition isValidMessage (m : Message) : bool :=
  if (length (versions m) =? 0)%nat then false
  else if isAssistant m && negb (hasMessageContent m) then false
  else true.

(** ** message-timing-utils.ts *)

Definition completeAssistantTiming (m : Message) (completed : Z) : Message :=
  if negb (isAssistant m) then m
  else
    let started := startedAt m ?? (createdAt m ?? completed) in
    with_timing m (Some started) (Some completed) (Some (Z.max 0 (completed - started))).

(** With the default argument [completedAt = Date.now()]. *)
Definition completeAssistantTimingNow (m : Message) : M Message :=
  let! now := Date_now in ret (completeAssistantTiming m now).

Definition startReasoningTiming (m : Message) (started : Z) : Reasoning :=
  mkReasoning
    (r_content <$> reasoning m ?? [])
    (r_duration <$> reasoning m ?? 0)
    (Some ((reasoning m ≫= r_startedAt) ?? started))
    (reasoning m ≫= r_completedAt)
    (reasoning m ≫= r_durationMs).

Definition startReasoningTimingNow (m : Message) : M Reasoning :=
  let! now := Date_now in ret (startReasoningTiming m now).

(** [Math.ceil(n / 1000)] *)
Definition ceil_div_1000 (n : Z) : Z := - ((- n) / 1000).

Definition completeReasoningTiming (m : Message) (completed : Z) : Message :=
  match reasoning m with
  | None => m
  | Some r =>
      match r_durationMs r with
      | Some _ => m
      | None =>
          let started := r_startedAt r ?? (startedAt m ?? completed) in
          let duration := Z.max 0 (completed - started) in
          with_reasoning m (Some (mkReasoning (r_content r) (ceil_div_1000 duration)
            (Some started) (Some completed) (Some duration)))
      end
  end.

Definition completeReasoningTimingNow (m : Message) : M Message :=
  let! now := Date_now in ret (completeReasoningTiming m now).

(** ** message-update-utils.ts *)

Definition updateLastAssistantMessage (messages : list Message) (updater : Message -> M Message)
    : M (list Message) :=
  match last messages with
  | None => ret messages
  | Some l =>
      if negb (isAssistant l) then ret messages
      else let! l' := updater l in ret (<[(length messages - 1)%nat := l']> messages)
  end.

(** The updater of [updateAssistantMessageWithError]. *)
Definition errorUpdater (errorMessage : jsstr) (code : option jsstr) (title : jsstr) (m : Message)
    : M Message :=
  let updated := updateCurrentVersionContent m (title ++ js ": " ++ errorMessage) in
  completeAssistantTimingNow
    (with_errorCode (with_isReasoningStreaming (with_status updated ERROR) false)
       (match code with Some c => if truthy c then Some c else None | None => None end)).

Definition updateAssistantMessageWithError (messages : list Message) (errorMessage : jsstr)
    (code : option jsstr) (title : jsstr) : M (list Message) :=
  updateLastAssistantMessage messages (errorUpdater errorMessage code title).

(** ** message-streaming-utils.ts *)

Definition processStreamingContent (m : Message) (contentChunk : option jsstr) : M Message :=
  let currentVersion := getCurrentVersion m in
  let fullContent :=
    match contentChunk with
    | Some c => if truthy c then v_content currentVersion ++ c else v_content currentVersion
    | None => v_content currentVersion
    end in
  if bool_decide (reasoning m = None) && negb (includes fullContent ThinkTags.open_tag) then
    ret (with_isReasoningStreaming (updateCurrentVersionContent m fullContent) false)
  else
    let parsed := ThinkTags.parseThinkTags fullContent in
    let! finalReasoning :=
      (if truthy (ThinkTags.reasoning parsed) then
         let! r := startReasoningTimingNow m in
         ret (Some (mkReasoning (ThinkTags.reasoning parsed) (r_duration r) (r_startedAt r)
                      (r_completedAt r) (r_durationMs r)))
       else ret (reasoning m)) in
    ret (with_isReasoningStreaming
           (with_reasoning (updateCurrentVersionContent m fullContent) finalReasoning)
           (ThinkTags.hasUnclosedTag parsed)).

Inductive StreamChunkType := ChunkReasoning | ChunkContent.

Definition getAppendableChunk (currentContent chunk : jsstr) : jsstr :=
  if negb (truthy currentContent) || negb (startsWith chunk currentContent) then chunk
  else slice_from chunk (length currentContent).

Definition applyStreamingChunk (m : Message) (type : StreamChunkType) (chunk : jsstr) : M Message :=
  if bool_decide (status m = Some ERROR) then ret m
  else
    match type with
    | ChunkReasoning =>
        let! r := startReasoningTimingNow m in
        let appendableChunk := getAppendableChunk (r_content r) chunk in
        ret (with_status
               (with_isReasoningStreaming
                  (with_reasoning m (Some (mkReasoning (r_content r ++ appendableChunk) (r_duration r)
                     (r_startedAt r) (r_completedAt r) (r_durationMs r))))
                  true)
               STREAMING)
    | ChunkContent =>
        let currentVersion := getCurrentVersion m in
        let appendableChunk := getAppendableChunk (v_content currentVersion) chunk in
        let! contentMessage := processStreamingContent m (Some appendableChunk) in
        let! completed :=
          (if isReasoningStreaming contentMessage ?? false then ret contentMessage
           else completeReasoningTimingNow contentMessage) in
        ret (with_status completed STREAMING)
    end.

(** [a || b] on strings. *)
Definition str_or (a b : jsstr) : jsstr := if truthy a then a else b.

Definition finalizeMessage (m : Message) (apiReasoningContent : option jsstr) : M Message :=
  let currentVersion := getCurrentVersion m in
  let parsedThinkTags :=
    if includes (v_content currentVersion) ThinkTags.open_tag
    then Some (ThinkTags.parseThinkTags (v_content currentVersion)) else None in
  let visible := ThinkTags.visibleContent <$> parsedThinkTags ?? v_content currentVersion in
  let finalReasoning :=
    str_or (apiReasoningContent ?? [])
      (str_or (r_content <$> reasoning m ?? [])
         (str_or (ThinkTags.reasoning <$> parsedThinkTags ?? []) [])) in
  let! r :=
    (if truthy finalReasoning then
       let! r := startReasoningTimingNow m in
       ret (Some (mkReasoning finalReasoning (r_duration r) (r_startedAt r)
                    (r_completedAt r) (r_durationMs r)))
     else ret None) in
  completeReasoningTimingNow
    (with_isReasoningStreaming (with_reasoning (updateCurrentVersionContent m visible) r) false).

Definition completeAssistantMessage (m : Message) : M Message :=
  let! f := finalizeMessage m None in
  completeAssistantTimingNow (with_status f COMPLETE).

Definition isAssistantMessageFinal (m : Message) : bool :=
  bool_decide (status m = Some COMPLETE) || bool_decide (status m = Some ERROR).

Definition isAssistantMessagePending (m : Message) : bool :=
  bool_decide (status m = Some LOADING) || bool_decide (status m = Some STREAMING).

Definition isPendingAssistantMessage (m : option Message) : bool :=
  match m with Some m => isAssistant m && isAssistantMessagePending m | None => false end.

(** The part of [ChatCompletionResponse] that is read: the first choice's
    content and reasoning, both possibly missing. *)
Record ChatCompletionChoice := mkChoice {
  choice_content : option jsstr;
  choice_reasoning_content : option jsstr }.

Definition hasChatCompletionChoice (choices : option (list ChatCompletionChoice)) : bool :=
  match choices with Some (_ :: _) => true | _ => false end.

Definition applyChatCompletionChoice (m : Message) (choice : ChatCompletionChoice) : M Message :=
  let! f := finalizeMessage (updateCurrentVersionContent m (choice_content choice ?? []))
              (choice_reasoning_content choice) in
  completeAssistantTimingNow (with_status f COMPLETE).

Definition applyChatCompletionResponse (m : Message) (choices : option (list ChatCompletionChoice))
    : M (option Message) :=
  match choices with
  | Some (choice :: _) => let! m' := applyChatCompletionChoice m choice in ret (Some m')
  | _ => ret None
  end.

(** The backward search for the last pending assistant message. *)
Fixpoint findLastPending (messages : list Message) (i : nat) : option nat :=
  match i with
  | O => None
  | S i' => if isPendingAssistantMessage (messages !! i') then Some i' else findLastPending messages i'
  end.

(** [t] is the translation function of i18next. *)
Definition sanitizeMessagesOnLoad (t : jsstr -> jsstr) (messages : list Message) : M (list Message) :=
  match findLastPending messages (length messages) with
  | None => ret messages
  | Some targetIndex =>
      match messages !! targetIndex with
      | None => ret messages
      | Some target =>
          let! finalized := finalizeMessage target None in
          let hasContent := hasMessageContent finalized in
          let hasReasoning := truthy (trim (r_content <$> reasoning finalized ?? [])) in
          let! sanitized :=
            (if hasContent || hasReasoning then
               completeAssistantTimingNow
                 (with_isReasoningStreaming (with_status finalized COMPLETE) false)
             else
               completeAssistantTimingNow
                 (with_isReasoningStreaming
                    (with_status
                       (updateCurrentVersionContent finalized
                          (t API_REQUEST_ERROR ++ js ": " ++ t INTERRUPTED)) ERROR) false)) in
          ret (<[targetIndex := sanitized]> messages)
      end
  end.

(** ** conversation-message-utils.ts *)

Definition appendUserMessagePair (messages : list Message) (content : jsstr) : M (list Message) :=
  let! submittedAt := Date_now in
  let! u := createUserMessage content submittedAt in
  let! a := createLoadingAssistantMessage submittedAt in
  ret (messages ++ [u; a]).

(** [messages.findIndex((message) => message.key === messageKey)] *)
Fixpoint findIndexByKey (messages : list Message) (messageKey : jsstr) : option nat :=
  match messages with
  | [] => None
  | m :: ms => if decide (key m = messageKey) then Some 0%nat else S <$> findIndexByKey ms messageKey
  end.

Definition createRegeneratedMessages (messages : list Message) (messageKey : jsstr)
    : M (option (list Message)) :=
  match findIndexByKey messages messageKey with
  | None => ret None
  | Some messageIndex =>
      let! now := Date_now in
      let! a := createLoadingAssistantMessage now in
      if isUser <$> messages !! messageIndex ?? false
      then ret (Some (take (messageIndex + 1) messages ++ [a]))
      else ret (Some (take messageIndex messages ++ [a]))
  end.

Definition removeMessageByKey (messages : list Message) (messageKey : jsstr) : list Message :=
  List.filter (fun m => negb (bool_decide (key m = messageKey))) messages.

(** The loop [for (index = beforeIndex - 1; index >= 0; index--)]. *)
Fixpoint getPreviousUserMessage (messages : list Message) (beforeIndex : nat) : option Message :=
  match beforeIndex with
  | O => None
  | S index =>
      match messages !! index with
      | Some m => if isUser m then Some m else getPreviousUserMessage messages index
      | None => getPreviousUserMessage messages index
      end
  end.

Record ApplyMessageEditResult := mkEditResult { edit_messages : list Message; shouldSend : bool }.

Definition applyMessageEdit (messages : list Message) (messageKey content : jsstr)
    (shouldSubmit : bool) : M (option ApplyMessageEditResult) :=
  let! submittedAt := Date_now in
  match findIndexByKey messages messageKey with
  | None => ret None
  | Some messageIndex =>
      let updatedMessages :=
        map (fun m =>
          if decide (key m = messageKey)
          then with_createdAt (updateCurrentVersionContent m content)
                 (if shouldSubmit then Some submittedAt else createdAt m)
          else m) messages in
      if negb shouldSubmit || negb (isUser <$> updatedMessages !! messageIndex ?? false)
      then ret (Some (mkEditResult updatedMessages false))
      else
        let! a := createLoadingAssistantMessage submittedAt in
        ret (Some (mkEditResult (take (messageIndex + 1) updatedMessages ++ [a]) true))
  end.

Definition getEditingMessageContent (messages : list Message) (editingKey : option jsstr) : jsstr :=
  match editingKey with
  | None => []
  | Some k =>
      if negb (truthy k) then []
      else getMessageContent <$> List.find (fun m => bool_decide (key m = k)) messages ?? []
  end.

Record ChatMessageRenderState := mkRenderState {
  alwaysShowActions : bool; render_content : jsstr; isEditing : bool }.

Definition getChatMessageRenderState (messages : list Message) (m : Message) (messageIndex : Z)
    (editingKey : option jsstr) : ChatMessageRenderState :=
  mkRenderState ((messageIndex =? Z.of_nat (length messages) - 1) && isAssistant m)
    (getMessageContent m) (bool_decide (editingKey = Some (key m))).

(** ** View-state helpers *)

(** message-content-utils.ts *)
Record MessageContentState := mkContentState {
  displayContent : jsstr;
  hasSources : bool;
  state_isAssistant : bool;
  showLoader : bool;
  showMessageContent : bool;
  state_sources : list Source;
  hasReasoning : bool;
  reasoningContent : option jsstr }.

Definition shouldShowMessageLoader (m : Message) (assistant : bool) (versionContent : jsstr) : bool :=
  assistant && negb (isReasoningStreaming m ?? false) &&
  (bool_decide (status m = Some LOADING) ||
   (bool_decide (status m = Some STREAMING) && negb (truthy versionContent))).

Definition shouldShowMessageContent (m : Message) (versionContent : jsstr) : bool :=
  (isUser m || negb (isReasoningStreaming m ?? false)) && (0 <? length versionContent)%nat.

Definition getDisplayContent (m : Message) (versionContent : jsstr) : jsstr :=
  if negb (isAssistant m) then versionContent
  else if negb (includes versionContent ThinkTags.open_tag) then versionContent
  else ThinkTags.visibleContent (ThinkTags.parseThinkTags versionContent).

Definition getMessageContentState (m : Message) (versionContent : jsstr) : MessageContentState :=
  let srcs := sources m ?? [] in
  let rc := if isAssistant m then r_content <$> reasoning m else None in
  let has := truthy (rc ?? []) in
  mkContentState (getDisplayContent m versionContent) (0 <? length srcs)%nat (isAssistant m)
    (shouldShowMessageLoader m (isAssistant m) versionContent)
    (shouldShowMessageContent m versionContent) srcs has (if has then rc else None).

(** message-action-utils.ts *)
Record MessageActionState := mkActionState {
  action_content : jsstr; hasContent : bool; action_isAssistant : bool;
  isLoading : bool; action_isUser : bool }.

Definition getMessageActionState (m : Message) : MessageActionState :=
  mkActionState (getMessageContent m) (hasMessageContent m) (isAssistant m)
    (bool_decide (status m = Some LOADING) || bool_decide (status m = Some STREAMING)) (isUser m).

(** message-editor-utils.ts *)
Record MessageEditorState := mkEditorState {
  canSave : bool; hasChanged : bool; showSaveAndSubmit : bool }.

Definition getMessageEditorState (m : Message) (editText originalText : jsstr) : MessageEditorState :=
  let hasText := (0 <? length (trim editText))%nat in
  let changed := negb (bool_decide (editText = originalText)) in
  mkEditorState (hasText && changed) changed (isUser m).

(** message-layout-utils.ts *)
Inductive MessageAlignment := AlignLeft | AlignRight.

Definition getMessageAlignment (m : Message) (layoutMode : PlaygroundMessageLayoutMode)
    : MessageAlignment :=
  match layoutMode with
  | LayoutLeft => AlignLeft
  | LayoutAlternating => if isUser m then AlignRight else AlignLeft
  end.

(** message-error-utils.ts *)
Definition MODEL_PRICE_ERROR_CODE : jsstr := js "model_price_error".
Definition FALLBACK_ERROR_CONTENT : jsstr := js "An unknown error occurred".

Inductive ErrorKind := ErrorGeneric | ErrorModelPrice.
Record MessageErrorState := mkErrorState {
  error_content : jsstr; error_kind : ErrorKind; showSettingsLink : bool }.

Definition isAdminRole (r : option Z) : bool := match r with Some r => 10 <=? r | None => false end.

Definition isErrorMessage (m : Message) : bool := bool_decide (status m = Some ERROR).

Definition getMessageErrorState (m : Message) (isAdmin : bool) : option MessageErrorState :=
  if negb (isErrorMessage m) then None
  else
    let isModelPriceError := bool_decide (errorCode m = Some (Some MODEL_PRICE_ERROR_CODE)) in
    Some (mkErrorState (str_or (getMessageContent m) FALLBACK_ERROR_CONTENT)
            (if isModelPriceError then ErrorModelPrice else ErrorGeneric)
            (isModelPriceError && isAdmin)).

(** ** Lemmas: chunks *)

(** What a content chunk makes of the text already received. *)
Definition appendChunk (cur chunk : jsstr) : jsstr := cur ++ getAppendableChunk cur chunk.

Lemma appendChunk_eq cur chunk :
  appendChunk cur chunk =
  if negb (truthy cur) || negb (startsWith chunk cur) then cur ++ chunk else chunk.
Proof.
  unfold appendChunk, getAppendableChunk, slice_from.
  destruct (negb (truthy cur) || negb (startsWith chunk cur)) eqn:E; [done|].
  bool_hyps. by rewrite <- startsWith_drop.
Qed.

Lemma appendChunk_prefix cur chunk : cur `prefix_of` appendChunk cur chunk.
Proof. unfold appendChunk. by exists (getAppendableChunk cur chunk). Qed.

(** A chunk that repeats the text received so far (a snapshot) replaces it. *)
Lemma appendChunk_snapshot cur chunk : cur `prefix_of` chunk -> appendChunk cur chunk = chunk.
Proof.
  intros H. rewrite appendChunk_eq. pose proof H as H'. apply startsWith_spec in H' as ->.
  by destruct cur.
Qed.

(** Any other chunk is appended. *)
Lemma appendChunk_delta cur chunk :
  cur = [] \/ ~ cur `prefix_of` chunk -> appendChunk cur chunk = cur ++ chunk.
Proof.
  intros [->|H]; rewrite appendChunk_eq; [done|].
  destruct (startsWith chunk cur) eqn:E; [by apply startsWith_spec in E|].
  by rewrite orb_true_r.
Qed.

Lemma appendChunk_nil_r cur : appendChunk cur [] = cur.
Proof. rewrite appendChunk_eq. destruct cur; [done|]. simpl. by rewrite app_nil_r. Qed.

Lemma appendChunk_not_nil cur chunk : chunk <> [] -> appendChunk cur chunk <> [].
Proof. rewrite appendChunk_eq. destruct cur; [done|]. by case_match. Qed.

(** ** Lemmas: what the operations keep and set *)

(** Fields no operation on an existing message changes. *)
Definition same_identity (m m' : Message) : Prop :=
  key m' = key m /\ from m' = from m /\ sources m' = sources m.

#[export] Instance same_identity_refl : Reflexive same_identity.
Proof. by intros m. Qed.

#[export] Instance same_identity_trans : Transitive same_identity.
Proof. unfold same_identity. intros ? ? ? (? & ? & ?) (? & ? & ?). split_and!; congruence. Qed.

Lemma completeAssistantTiming_spec m t :
  let m' := completeAssistantTiming m t in
  same_identity m m' /\ versions m' = versions m /\ status m' = status m /\
  reasoning m' = reasoning m /\ isReasoningStreaming m' = isReasoningStreaming m /\
  errorCode m' = errorCode m.
Proof. unfold completeAssistantTiming. cbv zeta. by destruct (negb (isAssistant m)). Qed.

Lemma completeReasoningTiming_spec m t :
  let m' := completeReasoningTiming m t in
  same_identity m m' /\ versions m' = versions m /\ status m' = status m /\
  r_content <$> reasoning m' = r_content <$> reasoning m /\
  isReasoningStreaming m' = isReasoningStreaming m /\ errorCode m' = errorCode m.
Proof.
  unfold completeReasoningTiming. cbv zeta. destruct (reasoning m) as [r|] eqn:E; [|by rewrite E].
  destruct (r_durationMs r); [by rewrite E|done].
Qed.

Lemma completeReasoningTimingNow_eq m e :
  exists t, result (completeReasoningTimingNow m) e = completeReasoningTiming m t.
Proof. eexists. reflexivity. Qed.

Lemma completeAssistantTimingNow_eq m e :
  exists t, result (completeAssistantTimingNow m) e = completeAssistantTiming m t.
Proof. eexists. reflexivity. Qed.

Lemma getMessageContent_versions m m' :
  versions m' = versions m -> getMessageContent m' = getMessageContent m.
Proof. unfold getMessageContent, getCurrentVersion. by intros ->. Qed.

Lemma processStreamingContent_spec m c e :
  let m' := result (processStreamingContent m (Some c)) e in
  same_identity m m' /\ getMessageContent m' = getMessageContent m ++ c /\
  status m' = status m /\ errorCode m' = errorCode m.
Proof.
  assert ((if truthy c then v_content (getCurrentVersion m) ++ c else v_content (getCurrentVersion m))
          = getMessageContent m ++ c) as Hfull.
  { unfold getMessageContent. destruct c; simpl; [by rewrite app_nil_r|done]. }
  unfold processStreamingContent. rewrite Hfull. cbv zeta.
  destruct (_ && _); autorewrite with effects; [done|]. done.
Qed.

Lemma applyStreamingChunk_content_spec m c e :
  status m <> Some ERROR ->
  let m' := result (applyStreamingChunk m ChunkContent c) e in
  same_identity m m' /\ getMessageContent m' = appendChunk (getMessageContent m) c /\
  status m' = Some STREAMING /\ errorCode m' = errorCode m.
Proof.
  intros Hs. unfold applyStreamingChunk. rewrite bool_decide_eq_false_2 by done.
  cbv zeta. change (v_content (getCurrentVersion m)) with (getMessageContent m).
  rewrite !result_bind.
  destruct (processStreamingContent_spec m (getAppendableChunk (getMessageContent m) c) e)
    as (H1 & H2 & H3 & H4).
  fold (appendChunk (getMessageContent m) c) in H2.
  generalize dependent (result (processStreamingContent m (Some (getAppendableChunk (getMessageContent m) c))) e).
  intros m1 H1 H2 H3 H4.
  destruct (isReasoningStreaming m1 ?? false); autorewrite with effects; [done|].
  match goal with |- context [result (completeReasoningTimingNow m1) ?e1] =>
    destruct (completeReasoningTimingNow_eq m1 e1) as [t ->] end.
  destruct (completeReasoningTiming_spec m1 t) as (C1 & C2 & C3 & C4 & C5 & C6).
  split_and!; [|rewrite <- H2; by apply getMessageContent_versions|done|].
  - etrans; [exact H1|exact C1].
  - simpl. congruence.
Qed.

Lemma applyStreamingChunk_reasoning_spec m c e :
  status m <> Some ERROR ->
  let m' := result (applyStreamingChunk m ChunkReasoning c) e in
  same_identity m m' /\ versions m' = versions m /\
  r_content <$> reasoning m' = Some (appendChunk (r_content <$> reasoning m ?? []) c) /\
  isReasoningStreaming m' = Some true /\
  status m' = Some STREAMING /\ errorCode m' = errorCode m.
Proof.
  intros Hs. unfold applyStreamingChunk. rewrite bool_decide_eq_false_2 by done. cbv zeta.
  unfold startReasoningTimingNow. autorewrite with effects. done.
Qed.

(** A message in error ignores the chunks that still arrive. *)
Lemma applyStreamingChunk_error m type c e :
  status m = Some ERROR -> applyStreamingChunk m type c e = (m, e).
Proof. intros H. unfold applyStreamingChunk. by rewrite bool_decide_eq_true_2. Qed.

Lemma finalizeMessage_spec m api e :
  let m' := result (finalizeMessage m api) e in
  same_identity m m' /\ status m' = status m /\ errorCode m' = errorCode m /\
  isReasoningStreaming m' = Some false /\
  getMessageContent m' =
    if includes (getMessageContent m) ThinkTags.open_tag
    then ThinkTags.visibleContent (ThinkTags.parseThinkTags (getMessageContent m))
    else getMessageContent m.
Proof.
  unfold finalizeMessage. cbv zeta. rewrite result_bind.
  match goal with |- context [result (completeReasoningTimingNow ?x) ?e1] =>
    set (m1 := x); destruct (completeReasoningTimingNow_eq m1 e1) as [t ->] end.
  destruct (completeReasoningTiming_spec m1 t) as (C1 & C2 & C3 & C4 & C5 & C6).
  split_and!; [exact C1|exact C3|exact C6|exact C5|].
  rewrite (getMessageContent_versions _ _ C2). unfold m1, getMessageContent. simpl.
  by destruct (includes _ _).
Qed.

Lemma completeAssistantMessage_spec m e :
  let m' := result (completeAssistantMessage m) e in
  same_identity m m' /\ status m' = Some COMPLETE /\ isReasoningStreaming m' = Some false /\
  getMessageContent m' =
    if includes (getMessageContent m) ThinkTags.open_tag
    then ThinkTags.visibleContent (ThinkTags.parseThinkTags (getMessageContent m))
    else getMessageContent m.
Proof.
  unfold completeAssistantMessage. cbv zeta. rewrite result_bind.
  destruct (finalizeMessage_spec m None e) as (H1 & H2 & H3 & H4 & H5).
  generalize dependent (result (finalizeMessage m None) e). intros m1 H1 H2 H3 H4 H5.
  match goal with |- context [result (completeAssistantTimingNow ?x) ?e1] =>
    destruct (completeAssistantTimingNow_eq x e1) as [t ->] end.
  destruct (completeAssistantTiming_spec (with_status m1 COMPLETE) t) as (C1 & C2 & C3 & C4 & C5 & C6).
  split_and!; [etrans; [exact H1|exact C1]|exact C3|by rewrite C5|].
  by rewrite (getMessageContent_versions _ _ C2).
Qed.

Lemma errorUpdater_spec msg code ttl m e :
  let m' := result (errorUpdater msg code ttl m) e in
  same_identity m m' /\ status m' = Some ERROR /\ isReasoningStreaming m' = Some false /\
  getMessageContent m' = ttl ++ js ": " ++ msg.
Proof.
  unfold errorUpdater. cbv zeta.
  match goal with |- context [result (completeAssistantTimingNow ?x) ?e1] =>
    set (m1 := x); destruct (completeAssistantTimingNow_eq m1 e1) as [t ->] end.
  destruct (completeAssistantTiming_spec m1 t) as (C1 & C2 & C3 & C4 & C5 & C6).
  split_and!; [exact C1|exact C3|by rewrite C5|].
  by rewrite (getMessageContent_versions _ _ C2).
Qed.

Lemma applyChatCompletionChoice_spec m choice e :
  let m' := result (applyChatCompletionChoice m choice) e in
  same_identity m m' /\ status m' = Some COMPLETE /\ isReasoningStreaming m' = Some false /\
  getMessageContent m' =
    if includes (choice_content choice ?? []) ThinkTags.open_tag
    then ThinkTags.visibleContent (ThinkTags.parseThinkTags (choice_content choice ?? []))
    else choice_content choice ?? [].
Proof.
  unfold applyChatCompletionChoice. cbv zeta. rewrite result_bind.
  match goal with |- context [finalizeMessage ?x ?a] =>
    destruct (finalizeMessage_spec x a e) as (H1 & H2 & H3 & H4 & H5);
    generalize dependent (result (finalizeMessage x a) e) end.
  intros m1 H1 H2 H3 H4 H5.
  match goal with |- context [result (completeAssistantTimingNow ?x) ?e1] =>
    destruct (completeAssistantTimingNow_eq x e1) as [t ->] end.
  destruct (completeAssistantTiming_spec (with_status m1 COMPLETE) t) as (C1 & C2 & C3 & C4 & C5 & C6).
  split_and!; [etrans; [exact H1|exact C1]|exact C3|by rewrite C5|].
  by rewrite (getMessageContent_versions _ _ C2).
Qed.

(** ** Lemmas: the update of the last message *)

Lemma updateLastAssistantMessage_eq ms l updater e :
  updateLastAssistantMessage (ms ++ [l]) updater e =
  if isAssistant l then (ms ++ [result (updater l) e], (updater l e).2) else (ms ++ [l], e).
Proof.
  unfold updateLastAssistantMessage. rewrite last_snoc. destruct (isAssistant l); [|done].
  cbn [negb]. unfold bind, result. destruct (updater l e) as [l' e'] eqn:E. unfold ret. simpl.
  f_equal. rewrite length_app. cbn [length].
  replace (length ms + 1 - 1)%nat with (length ms + 0)%nat by lia.
  by rewrite insert_app_r.
Qed.

Lemma updateLastAssistantMessage_nil updater e :
  updateLastAssistantMessage [] updater e = ([], e).
Proof. done. Qed.

(** Only the last message can change, and only when it is the assistant's. *)
Lemma updateLastAssistantMessage_spec ms updater e :
  let ms' := result (updateLastAssistantMessage ms updater) e in
  length ms' = length ms /\
  (forall i m, ms !! i = Some m -> (S i < length ms)%nat -> ms' !! i = Some m) /\
  (forall l, last ms = Some l ->
     last ms' = Some (if isAssistant l then result (updater l) e else l)).
Proof.
  destruct ms as [|l ms _] using rev_ind; [done|]. cbv zeta. unfold result at 1 2 3.
  rewrite updateLastAssistantMessage_eq. destruct (isAssistant l) eqn:E; simpl.
  - split_and!; [by rewrite !length_app| |].
    + intros i m Hi Hlt. rewrite length_app in Hlt. simpl in Hlt.
      rewrite lookup_app_l in Hi |- * by lia. done.
    + intros l0. rewrite !last_snoc. intros [= <-]. by rewrite E.
  - split_and!; [done..|]. intros l0. rewrite !last_snoc. intros [= <-]. by rewrite E.
Qed.

(** ** Pending messages *)

Definition is_pending (m : Message) : bool := isPendingAssistantMessage (Some m).

(** No assistant message is loading or streaming. *)
Definition settled (ms : list Message) : Prop := Forall (fun m => is_pending m = false) ms.

(** Only the last message may be. *)
Definition only_last_pending (ms : list Message) : Prop :=
  forall i m, ms !! i = Some m -> (S i < length ms)%nat -> is_pending m = false.

Lemma settled_only_last ms : settled ms -> only_last_pending ms.
Proof. intros H i m Hi _. eapply Forall_lookup_1 in H; done. Qed.

Lemma only_last_snoc ms l : only_last_pending (ms ++ [l]) <-> settled ms.
Proof.
  unfold only_last_pending, settled. rewrite Forall_lookup. split.
  - intros H i m Hi. apply (H i m); [by apply lookup_app_l_Some|].
    apply lookup_lt_Some in Hi. rewrite length_app. simpl. lia.
  - intros H i m Hi Hlt. rewrite length_app in Hlt. simpl in Hlt.
    apply (H i). rewrite lookup_app_l in Hi by lia. done.
Qed.

Lemma settled_snoc ms l : settled (ms ++ [l]) <-> settled ms /\ is_pending l = false.
Proof. unfold settled. by rewrite Forall_app, Forall_singleton. Qed.

Lemma update_only_last ms u e :
  only_last_pending ms -> only_last_pending (result (updateLastAssistantMessage ms u) e).
Proof.
  destruct ms as [|l ms _] using rev_ind; [done|]. unfold result.
  rewrite updateLastAssistantMessage_eq. destruct (isAssistant l); simpl; by rewrite !only_last_snoc.
Qed.

Lemma update_settled ms u e :
  only_last_pending ms ->
  (forall m e', isAssistant m = true -> is_pending (result (u m) e') = false) ->
  settled (result (updateLastAssistantMessage ms u) e).
Proof.
  destruct ms as [|l ms _] using rev_ind; [intros; constructor|]. unfold result.
  rewrite updateLastAssistantMessage_eq, only_last_snoc. intros Hms Hu.
  destruct (isAssistant l) eqn:E; simpl; rewrite settled_snoc; split; [done|by apply Hu|done|].
  unfold is_pending, isPendingAssistantMessage. by rewrite E.
Qed.

Lemma final_not_pending m :
  status m = Some COMPLETE \/ status m = Some ERROR -> is_pending m = false.
Proof.
  unfold is_pending, isPendingAssistantMessage, isAssistantMessagePending.
  intros [-> | ->]; simpl; by rewrite andb_false_r.
Qed.

End Playground.
