(* ===== verification/PlaygroundConfig.v ===== *)
(** * Playground configuration, request payloads and options

    Model of the configuration types of [features/playground/types.ts] and
    [constants.ts], of [lib/streaming/payload-builder.ts], of the option
    helpers [lib/options/playground-option-utils.ts] with the effects of
    [hooks/use-playground-options.ts], of [lib/input/input-control-utils.ts]
    and of the option lists of [api.ts].

    The numbers of the configuration are only copied and compared with [null]:
    they are the decimals of [Json.v]. *)

From S2P Require Import Prelude JsString Effects Json ThinkTags PlaygroundMessage.

Module PlaygroundConfig.
Import Playground.

(** ** Types *)

Record PlaygroundConfig := mkConfig {
  model : jsstr;
  group : jsstr;
  temperature : Json.jnum;
  top_p : Json.jnum;
  max_tokens : Json.jnum;
  frequency_penalty : Json.jnum;
  presence_penalty : Json.jnum;
  seed : option Json.jnum;
  stream : bool }.

Record ParameterEnabled := mkEnabled {
  en_temperature : bool;
  en_top_p : bool;
  en_max_tokens : bool;
  en_frequency_penalty : bool;
  en_presence_penalty : bool;
  en_seed : bool }.

Record ChatCompletionRequest := mkChatRequest {
  req_model : jsstr;
  req_group : option jsstr;
  req_messages : list ChatCompletionMessage;
  req_stream : bool;
  req_temperature : option Json.jnum;
  req_top_p : option Json.jnum;
  req_max_tokens : option Json.jnum;
  req_frequency_penalty : option Json.jnum;
  req_presence_penalty : option Json.jnum;
  req_seed : option Json.jnum }.

Record ModelOption := mkModelOption { mo_label : jsstr; mo_value : jsstr }.
Record GroupOption := mkGroupOption {
  go_label : jsstr; go_value : jsstr; go_ratio : Json.jnum; go_desc : option jsstr }.

(** ** constants.ts *)

Definition DEFAULT_GROUP : jsstr := js "default".

Definition DEFAULT_CONFIG : PlaygroundConfig :=
  mkConfig (js "gpt-4o") DEFAULT_GROUP (Json.mkNum 7 (-1)) (Json.mkNum 1 0) (Json.mkNum 4096 0)
    (Json.mkNum 0 0) (Json.mkNum 0 0) None true.

Definition DEFAULT_PARAMETER_ENABLED : ParameterEnabled := mkEnabled true true false true true false.

Definition STORAGE_KEYS_CONFIG : jsstr := js "playground_config".
Definition STORAGE_KEYS_MESSAGES : jsstr := js "playground_messages".
Definition STORAGE_KEYS_PARAMETER_ENABLED : jsstr := js "playground_parameter_enabled".

(** ** payload-builder.ts *)

Definition buildChatCompletionPayload (messages : list Message) (config : PlaygroundConfig)
    (pe : ParameterEnabled) : ChatCompletionRequest :=
  mkChatRequest (model config) (Some (group config))
    (map formatMessageForAPI (List.filter isValidMessage messages))
    (stream config)
    (if en_temperature pe then Some (temperature config) else None)
    (if en_top_p pe then Some (top_p config) else None)
    (if en_max_tokens pe then Some (max_tokens config) else None)
    (if en_frequency_penalty pe then Some (frequency_penalty config) else None)
    (if en_presence_penalty pe then Some (presence_penalty config) else None)
    (if en_seed pe then seed config else None).

(** ** playground-option-utils.ts *)

Definition getModelFallback (models : list ModelOption) (currentModel : jsstr) : option jsstr :=
  let hasCurrentModel := existsb (fun m => bool_decide (mo_value m = currentModel)) models in
  if hasCurrentModel || (length models =? 0)%nat then None else mo_value <$> head models.

Definition shouldClearModelForGroup (models : list ModelOption) (currentModel : jsstr) : bool :=
  if bool_decide (currentModel = []) then false
  else negb (existsb (fun m => bool_decide (mo_value m = currentModel)) models).

Definition getGroupFallback (groups : list GroupOption) (currentGroup : jsstr) : option jsstr :=
  let hasCurrentGroup := existsb (fun g => bool_decide (go_value g = currentGroup)) groups in
  if hasCurrentGroup || (length groups =? 0)%nat then None
  else
    match go_value <$> List.find (fun g => bool_decide (go_value g = js "default")) groups with
    | Some v => Some v
    | None => go_value <$> head groups
    end.

(** ** use-playground-options.ts: the effects on the configuration *)

Definition with_model (c : PlaygroundConfig) x := mkConfig x (group c) (temperature c) (top_p c)
  (max_tokens c) (frequency_penalty c) (presence_penalty c) (seed c) (stream c).
Definition with_group (c : PlaygroundConfig) x := mkConfig (model c) x (temperature c) (top_p c)
  (max_tokens c) (frequency_penalty c) (presence_penalty c) (seed c) (stream c).

(** The effect run when the model list or the current model changes. *)
Definition modelsEffect (modelsData : option (list ModelOption)) (config : PlaygroundConfig)
    : PlaygroundConfig :=
  match modelsData with
  | None => config
  | Some ms =>
      let fallback := getModelFallback ms (model config) in
      if truthy (fallback ?? []) then with_model config (fallback ?? [])
      else if shouldClearModelForGroup ms (model config) then with_model config []
      else config
  end.

(** The effect run when the group list or the current group changes. *)
Definition groupsEffect (groupsData : option (list GroupOption)) (config : PlaygroundConfig)
    : PlaygroundConfig :=
  match groupsData with
  | None => config
  | Some gs =>
      let fallback := getGroupFallback gs (group config) in
      if truthy (fallback ?? []) then with_group config (fallback ?? []) else config
  end.

(** ** input-control-utils.ts *)

Record InputControlState := mkInputState {
  canSubmit : bool; isSelectorDisabled : bool; shouldShowStop : bool }.

Definition getSubmittableInputText (text : option jsstr) (disabled : bool) : option jsstr :=
  if disabled || negb (truthy (trim (text ?? []))) then None else text.

Definition getInputControlState (disabled : bool) (groups : list GroupOption) (hasStopHandler : bool)
    (isGenerating isModelLoading : bool) (models : list ModelOption) (text : jsstr)
    : InputControlState :=
  let hasModels := (0 <? length models)%nat in
  mkInputState (negb disabled && hasModels && (0 <? length (trim text))%nat)
    (disabled || isModelLoading || (length groups =? 0)%nat)
    (isGenerating && hasStopHandler).

(** ** Lemmas *)

Lemma existsb_value {A} (f : A -> jsstr) l x :
  existsb (fun a => bool_decide (f a = x)) l = true <-> x ∈ f <$> l.
Proof.
  rewrite existsb_exists, list_elem_of_fmap. split.
  - intros (a & Hin & H). bool_hyps. exists a. split; [done|by apply list_elem_of_In].
  - intros (a & -> & Hin). exists a. split; [by apply list_elem_of_In|by apply bool_decide_eq_true].
Qed.

Lemma existsb_value_false {A} (f : A -> jsstr) l x :
  existsb (fun a => bool_decide (f a = x)) l = false <-> x ∉ f <$> l.
Proof. rewrite <- not_true_iff_false. by rewrite existsb_value. Qed.

Lemma getModelFallback_Some ms cur v :
  getModelFallback ms cur = Some v -> cur ∉ mo_value <$> ms /\ v ∈ mo_value <$> ms.
Proof.
  unfold getModelFallback. destruct (existsb _ ms) eqn:E; [done|].
  destruct ms as [|m ms]; [done|]. simpl. intros [= <-].
  apply existsb_value_false in E. split; [done|left].
Qed.

Lemma getGroupFallback_Some gs cur v :
  getGroupFallback gs cur = Some v -> cur ∉ go_value <$> gs /\ v ∈ go_value <$> gs.
Proof.
  unfold getGroupFallback. destruct (existsb _ gs) eqn:E; [done|].
  destruct gs as [|g gs]; [done|]. cbn [length Nat.eqb orb].
  apply existsb_value_false in E. destruct (List.find _ (g :: gs)) as [d|] eqn:F; simpl; intros [= <-].
  - apply find_some in F as [F _]. split; [done|].
    apply (list_elem_of_fmap_2 go_value (g :: gs) d). by apply list_elem_of_In.
  - split; [done|left].
Qed.

Lemma modelsEffect_stable ms c :
  model c ∈ mo_value <$> ms \/ model c = [] /\ (forall m, head ms = Some m -> mo_value m = []) ->
  modelsEffect (Some ms) c = c.
Proof.
  intros H. unfold modelsEffect, shouldClearModelForGroup.
  assert (truthy (getModelFallback ms (model c) ?? []) = false) as ->.
  { destruct H as [H|[H0 H]]; unfold getModelFallback.
    - apply existsb_value in H as ->. done.
    - destruct (_ || _); [done|]. destruct ms as [|m ms]; [done|]. simpl. by rewrite (H m). }
  destruct (decide (model c = [])) as [E|E].
  - by rewrite bool_decide_eq_true_2.
  - rewrite bool_decide_eq_false_2 by done. destruct H as [H|[? _]]; [|done].
    apply existsb_value in H as ->. done.
Qed.

(** ** Properties *)

(** One run of the models effect leaves a model the group offers selected, or
    none when it offers none (or the first one it offers has an empty name),
    and a second run changes nothing, so the effect does not loop on the
    configuration it updates. *)
Theorem modelsEffect_settles ms c :
  let c' := modelsEffect (Some ms) c in
  (model c' ∈ mo_value <$> ms \/
   model c' = [] /\ (forall m, head ms = Some m -> mo_value m = [])) /\
  modelsEffect (Some ms) c' = c'.
Proof.
  cbv zeta. set (c' := modelsEffect (Some ms) c).
  assert (model c' ∈ mo_value <$> ms \/
          model c' = [] /\ (forall m, head ms = Some m -> mo_value m = [])) as H.
  2:{ split; [done|by apply modelsEffect_stable]. }
  subst c'. unfold modelsEffect. destruct (getModelFallback ms (model c)) as [v|] eqn:F.
  - pose proof F as F'. apply getModelFallback_Some in F' as [Hn Hv].
    assert (forall m, head ms = Some m -> mo_value m = v) as Hh.
    { intros m Hm. unfold getModelFallback in F. destruct (_ || _); [done|].
      rewrite Hm in F. by injection F. }
    destruct (truthy v) eqn:T; [by left|]. destruct v; [|done].
    assert (shouldClearModelForGroup ms (model c) = negb (bool_decide (model c = []))) as ->.
    { unfold shouldClearModelForGroup. apply existsb_value_false in Hn as ->. by case_match. }
    destruct (bool_decide (model c = [])) eqn:E; bool_hyps; right; by split.
  - cbn [truthy]. unfold getModelFallback, shouldClearModelForGroup in *.
    destruct (existsb _ ms) eqn:E.
    + apply existsb_value in E. left. by destruct (bool_decide (model c = [])).
    + destruct ms; [|done]. right. split; [|done].
      destruct (bool_decide (model c = [])) eqn:E'; bool_hyps; done.
Qed.

End PlaygroundConfig.
