(* ===== verification/Storage.v ===== *)
(** * Playground storage

    Model of [features/playground/lib/storage/storage.ts] and
    [storage-schema.ts], of [lib/state/playground-state-utils.ts] and of the
    persistence of [hooks/use-playground-state.ts].

    [localStorage] is a map from keys to text; [setItem_throws] says whether
    writing a value exceeds the quota.  A schema is a [Schema] instance: what
    [parse] accepts and how a value is written as JSON.  The instances at the
    end read the schemas of [storage-schema.ts] with the documented behaviour
    of zod: unknown members are dropped, an optional member may be missing but
    not [null].  Stored times are integers. *)

From S2P Require Import Prelude JsString JsCollections Json JsonText Effects ThinkTags PlaygroundMessage PlaygroundConfig.

Module Storage.
Import Playground PlaygroundConfig.

(** ** storage-schema.ts: constants *)

Definition STORAGE_VERSION : Z := 1.
Definition MAX_STORED_MESSAGES : nat := 100.
Definition MAX_STORED_MESSAGES_BYTES : Z := 1024 * 1024.
Definition MAX_LOADED_MESSAGES_CHARS : Z := 120000.
Definition MAX_LOADED_MESSAGE_CHARS : Z := 40000.

Definition TRUNCATED_CONTENT_SUFFIX : jsstr := [10; 10] ++ js "[...]".
Definition MIN_PREFIX_COLLAPSE_LENGTH : Z := 2000.
Definition MIN_REPEATED_SECTION_COUNT : Z := 3.

(** [s.length] *)
Definition len {A} (s : list A) : Z := Z.of_nat (length s).

(** ** Schemas *)

(** [schema_parse] is [schema.parse] with [None] for a ZodError; [to_json] is
    the JSON value of an object, its undefined members left out. *)
Class Schema (A : Type) := {
  schema_parse : Json.json -> option A;
  to_json : A -> Json.json }.

(** What the clients rely on: a valid value is accepted as it is. *)
Class SchemaLaws (A : Type) `{Schema A} := {
  schema_valid : A -> Prop;
  parse_to_json a : schema_valid a -> schema_parse (to_json a) = Some a }.

(** ** localStorage *)

Definition LocalStorage : Type := list (jsstr * jsstr).

Definition removeItem (store : LocalStorage) (k : jsstr) : LocalStorage :=
  List.filter (fun kv => negb (bool_decide (kv.1 = k))) store.

Section Storage.
Variable setItem_throws : jsstr -> jsstr -> bool.

(** [None] is a thrown QuotaExceededError. *)
Definition setItem (store : LocalStorage) (k v : jsstr) : option LocalStorage :=
  if setItem_throws k v then None else Some (map_set store k v).

(** ** Reading and writing *)

(** The outer option is an exception, the inner one [null]. *)
Definition readStoredValue (store : LocalStorage) (k : jsstr) : option (option Json.json) :=
  match map_get store k with
  | None => Some None
  | Some saved => if negb (truthy saved) then Some None else Some <$> Json.JSON_parse saved
  end.

Definition readStoredMessagesValue (store : LocalStorage) : option (option Json.json) * LocalStorage :=
  match map_get store STORAGE_KEYS_MESSAGES with
  | None => (Some None, store)
  | Some saved =>
      if negb (truthy saved) then (Some None, store)
      else if MAX_STORED_MESSAGES_BYTES <? len saved
      then (Some None, removeItem store STORAGE_KEYS_MESSAGES)
      else (Some <$> Json.JSON_parse saved, store)
  end.

Definition unwrapStoredValue (value : Json.json) : Json.json :=
  match value with
  | Json.JObj _ =>
      match Json.prop value (js "version"), Json.prop value (js "data") with
      | Some _, Some data => data
      | _, _ => value
      end
  | _ => value
  end.

Definition envelope (data : Json.json) : Json.json :=
  Json.JObj [(js "version", Json.JNum (Json.mkNum STORAGE_VERSION 0)); (js "data", data)].

Definition writeStoredValue (store : LocalStorage) (k : jsstr) (data : Json.json)
    : option LocalStorage :=
  setItem store k (JsonText.JSON_stringify (envelope data)).

(** ** Trimming *)

Definition trimMessages (messages : list Message) : list Message :=
  if (length messages <=? MAX_STORED_MESSAGES)%nat then messages
  else drop (length messages - MAX_STORED_MESSAGES) messages.

Definition getMessageSize (m : Message) : Z :=
  fold_left (fun total v => total + len (v_content v)) (versions m) 0
  + (len ∘ r_content <$> reasoning m ?? 0).

Definition truncateText (text : jsstr) (maxLength : Z) : jsstr :=
  if len text <=? maxLength then text
  else if maxLength <=? len TRUNCATED_CONTENT_SUFFIX then take (Z.to_nat maxLength) text
  else take (Z.to_nat (maxLength - len TRUNCATED_CONTENT_SUFFIX)) text ++ TRUNCATED_CONTENT_SUFFIX.

(** ** Repeated sections *)

Record SectionOccurrence := mkOccurrence { heading : jsstr; index : nat }.

Definition is_line_terminator (c : Z) : bool := bool_decide (c ∈ [10; 13; 8232; 8233]).

(** The length of the longest prefix of characters that satisfy [p]. *)
Fixpoint run_length (p : Z -> bool) (s : jsstr) : nat :=
  match s with c :: s' => if p c then S (run_length p s') else O | [] => O end.

(** After [\.]: the length of [\s+.+] with its [$].  The spaces are taken
    greedily; at the end of the text they are given back one at a time until
    one that is not a line terminator is left for [.+]. *)
Fixpoint give_back (spaces : jsstr) (j : nat) : option nat :=
  match j with
  | O | S O => None
  | S (S j' as j1) =>
      match spaces !! j1 with
      | Some c => if is_line_terminator c then give_back spaces j1 else Some (S j1)
      | None => give_back spaces j1
      end
  end.

Definition match_tail (s : jsstr) : option nat :=
  let w := run_length is_space s in
  if (w =? 0)%nat then None
  else
    match drop w s with
    | [] => give_back s w
    | rest => Some (w + run_length (fun c => negb (is_line_terminator c)) rest)%nat
    end.

(** The length of the match of SECTION_HEADING_LINE_PATTERN,
    [/^#{2,6}\s+\d+\.\s+.+$/], at the start of [s].  Each quantifier is followed
    by a character its class excludes, so a shorter repetition never helps. *)
Definition heading_length (s : jsstr) : option nat :=
  let h := run_length (fun c => c =? 35) s in
  if (h <? 2)%nat || (6 <? h)%nat then None
  else
    let s1 := drop h s in
    let w := run_length is_space s1 in
    let s2 := drop w s1 in
    let d := run_length is_digit s2 in
    if (w =? 0)%nat || (d =? 0)%nat then None
    else
      match drop d s2 with
      | c :: s3 => if c =? 46 then (fun n => (h + w + d + 1 + n)%nat) <$> match_tail s3 else None
      | [] => None
      end.

(** [text.matchAll(SECTION_HEADING_LINE_PATTERN)]: [bol] says whether the
    position is the start of a line, [skip] how many characters of the last
    match are left. *)
Fixpoint scan_headings (s : jsstr) (i : nat) (bol : bool) (skip : nat) : list SectionOccurrence :=
  match s with
  | [] => []
  | c :: s' =>
      match skip with
      | S k => scan_headings s' (S i) (is_line_terminator c) k
      | O =>
          match (if bol then heading_length s else None) with
          | Some n => mkOccurrence (take n s) i :: scan_headings s' (S i) (is_line_terminator c) (n - 1)
          | None => scan_headings s' (S i) (is_line_terminator c) 0
          end
      end
  end.

Definition getSectionOccurrences (text : jsstr) : list SectionOccurrence :=
  scan_headings text 0 true 0.

Definition getHeadingCounts (occurrences : list SectionOccurrence) : list (jsstr * Z) :=
  fold_left (fun counts o => map_set counts (heading o) ((map_get counts (heading o) ?? 0) + 1))
    occurrences [].

(** The loop over the occurrences, last first: the indexes kept and the
    headings seen. *)
Definition repeatedStep (counts : list (jsstr * Z)) (acc : list nat * list jsstr)
    (o : SectionOccurrence) : list nat * list jsstr :=
  let count := map_get counts (heading o) ?? 0 in
  if (count <? MIN_REPEATED_SECTION_COUNT) || bool_decide (heading o ∈ acc.2) then acc
  else (acc.1 ++ [index o], set_add acc.2 (heading o)).

(** [None] is [-1]. *)
Definition findLastRepeatedSectionRunStart (text : jsstr) : option nat :=
  let occurrences := getSectionOccurrences text in
  let headingCounts := getHeadingCounts occurrences in
  let '(lastRepeatedIndexes, _) := fold_left (repeatedStep headingCounts) (rev occurrences) ([], []) in
  match lastRepeatedIndexes with
  | [] => None
  | i :: rest => Some (fold_left Nat.min rest i)
  end.

Definition collapseRepeatedSectionSnapshots (text : jsstr) : jsstr :=
  if len text <? MIN_PREFIX_COLLAPSE_LENGTH then text
  else
    match findLastRepeatedSectionRunStart text with
    | None => text
    | Some i => slice_from text i
    end.

(** ** Loading *)

Definition normalizeVersion (v : MessageVersion) : MessageVersion :=
  mkVersion (v_id v)
    (truncateText (collapseRepeatedSectionSnapshots (v_content v)) MAX_LOADED_MESSAGE_CHARS).

Definition versionUnchanged (v : MessageVersion) : bool :=
  let collapsedContent := collapseRepeatedSectionSnapshots (v_content v) in
  bool_decide (truncateText collapsedContent MAX_LOADED_MESSAGE_CHARS = v_content v) &&
  bool_decide (collapsedContent = v_content v).

(** The truncated message, and whether it is a new object. *)
Definition truncateStoredMessage (m : Message) : Message * bool :=
  let vs := map (fun v => if versionUnchanged v then v else normalizeVersion v) (versions m) in
  let r := (fun r => mkReasoning (truncateText (r_content r) MAX_LOADED_MESSAGE_CHARS)
              (r_duration r) (r_startedAt r) (r_completedAt r) (r_durationMs r)) <$> reasoning m in
  let changed := negb (forallb versionUnchanged (versions m)) ||
                 negb (bool_decide (r_content <$> r = r_content <$> reasoning m)) in
  if changed then (with_reasoning (with_versions m vs) r, true) else (m, false).

Definition normalizeStoredMessageForLoad (m : Message) : M (Message * bool) :=
  let '(normalized, changed) := truncateStoredMessage m in
  if negb (isAssistantMessagePending normalized) then ret (normalized, changed)
  else
    let hasContent := hasMessageContent normalized in
    let hasReasoning := truthy (trim (r_content <$> reasoning normalized ?? [])) in
    if negb hasContent && negb hasReasoning then ret (normalized, changed)
    else
      let! completedAt :=
        (match completedAt normalized, reasoning normalized ≫= r_completedAt,
               startedAt normalized, createdAt normalized with
         | Some x, _, _, _ | None, Some x, _, _ | None, None, Some x, _ | None, None, None, Some x => ret x
         | None, None, None, None => Date_now
         end) in
      let! f := finalizeMessage normalized None in
      ret (completeAssistantTiming (with_isReasoningStreaming (with_status f COMPLETE) false) completedAt,
           true).

(** The loop of [trimMessagesByContentSize], on the messages last first:
    [acc] is [result] reversed. *)
Fixpoint sizeLoop (rev_messages : list Message) (totalSize : Z) (acc : list Message) : list Message :=
  match rev_messages with
  | [] => acc
  | m :: ms =>
      let messageSize := getMessageSize m in
      if (0 <? length acc)%nat && (MAX_LOADED_MESSAGES_CHARS <? totalSize + messageSize) then acc
      else sizeLoop ms (totalSize + messageSize) (m :: acc)
  end.

Definition trimMessagesByContentSize (messages : list Message) : list Message :=
  sizeLoop (rev messages) 0 [].

Context `{Schema (list Message)}.

Definition saveMessages (store : LocalStorage) (messages : list Message) : LocalStorage :=
  match schema_parse (to_json (trimMessages messages)) with
  | None => store
  | Some parsed => writeStoredValue store STORAGE_KEYS_MESSAGES (to_json parsed) ?? store
  end.

Variable t : jsstr -> jsstr.

(** The messages to show, and the store: it is rewritten when a step made a
    new array or object, and the size trimming always makes a new array. *)
Definition loadMessages (store : LocalStorage) : M (option (list Message) * LocalStorage) :=
  let '(saved, store) := readStoredMessagesValue store in
  match saved with
  | None | Some None => ret (None, store)
  | Some (Some value) =>
      if negb (Json.json_truthy value) then ret (None, store)
      else
        match schema_parse (unwrapStoredValue value) with
        | None => ret (None, store)
        | Some parsed =>
            let! norm := mapM normalizeStoredMessageForLoad parsed in
            let normalized := norm.*1 in
            let normalizedChanged := existsb id norm.*2 in
            let trimmed := trimMessages normalized in
            let trimmedIsNew := (MAX_STORED_MESSAGES <? length normalized)%nat in
            let sizeTrimmed := trimMessagesByContentSize trimmed in
            let sizeTrimmedIsNew := true in
            let! sanitized := sanitizeMessagesOnLoad t sizeTrimmed in
            let sanitizedIsNew := bool_decide (is_Some (findLastPending sizeTrimmed (length sizeTrimmed))) in
            ret (Some sanitized,
                 if normalizedChanged || trimmedIsNew || sizeTrimmedIsNew || sanitizedIsNew
                 then saveMessages store sanitized else store)
        end
  end.

Definition clearPlaygroundData (store : LocalStorage) : LocalStorage :=
  removeItem (removeItem (removeItem store STORAGE_KEYS_CONFIG) STORAGE_KEYS_PARAMETER_ENABLED)
    STORAGE_KEYS_MESSAGES.

(** [loadConfig] and [loadParameterEnabled]; [empty] is [{}]. *)
Definition loadValue {A} `{Schema A} (empty : A) (store : LocalStorage) (k : jsstr) : A :=
  match readStoredValue store k with
  | None | Some None => empty
  | Some (Some saved) =>
      if negb (Json.json_truthy saved) then empty
      else schema_parse (unwrapStoredValue saved) ?? empty
  end.

(** [saveConfig] and [saveParameterEnabled]. *)
Definition saveValue {A} `{Schema A} (store : LocalStorage) (k : jsstr) (v : A) : LocalStorage :=
  match schema_parse (to_json v) with
  | None => store
  | Some parsed => writeStoredValue store k (to_json parsed) ?? store
  end.

End Storage.

(** ** storage-schema.ts: the schemas *)

(** The members of an object whose value is defined. *)
Definition members (spec : list (jsstr * option Json.json)) : Json.json :=
  Json.JObj (omap (fun kv => pair kv.1 <$> kv.2) spec).

(** A required and an optional member. *)
Definition required {A} (dec : Json.json -> option A) (o : Json.json) (k : jsstr) : option A :=
  Json.prop o k ≫= dec.
Definition optional {A} (dec : Json.json -> option A) (o : Json.json) (k : jsstr) : option (option A) :=
  match Json.prop o k with None => Some None | Some v => Some <$> dec v end.

Definition z_string (v : Json.json) : option jsstr :=
  match v with Json.JStr s => Some s | _ => None end.
Definition z_number (v : Json.json) : option Json.jnum :=
  match v with Json.JNum n => Some n | _ => None end.
Definition z_time (v : Json.json) : option Z := z_number v ≫= Json.num_integer.
Definition z_boolean (v : Json.json) : option bool :=
  match v with Json.JBool b => Some b | _ => None end.
Definition z_nullable {A} (dec : Json.json -> option A) (v : Json.json) : option (option A) :=
  match v with Json.JNull => Some None | _ => Some <$> dec v end.
Definition z_object (v : Json.json) : option Json.json := (fun _ => v) <$> Json.as_plain_object v.

(** [z.array(schema)]: every element must be accepted. *)
Fixpoint z_elements {A} (dec : Json.json -> option A) (l : list Json.json) : option (list A) :=
  match l with
  | [] => Some []
  | v :: l' => match dec v, z_elements dec l' with Some x, Some xs => Some (x :: xs) | _, _ => None end
  end.
Definition z_array {A} (dec : Json.json -> option A) (v : Json.json) : option (list A) :=
  match v with Json.JArr l => z_elements dec l | _ => None end.

Definition role_text (r : MessageRole) : jsstr :=
  match r with RoleUser => js "user" | RoleAssistant => js "assistant" | RoleSystem => js "system" end.
Definition status_text (s : MessageStatus) : jsstr :=
  match s with
  | LOADING => js "loading" | STREAMING => js "streaming" | COMPLETE => js "complete" | ERROR => js "error"
  end.

(** [z.enum] *)
Definition z_enum {A} (text : A -> jsstr) (values : list A) (v : Json.json) : option A :=
  match v with
  | Json.JStr s => List.find (fun a => bool_decide (text a = s)) values
  | _ => None
  end.

Definition messageRoleSchema : Json.json -> option MessageRole :=
  z_enum role_text [RoleUser; RoleAssistant; RoleSystem].
Definition messageStatusSchema : Json.json -> option MessageStatus :=
  z_enum status_text [LOADING; STREAMING; COMPLETE; ERROR].

Definition messageVersionSchema (v : Json.json) : option MessageVersion :=
  match z_object v with
  | None => None
  | Some o =>
      match required z_string o (js "id"), required z_string o (js "content") with
      | Some id, Some content => Some (mkVersion id content)
      | _, _ => None
      end
  end.

Definition sourceSchema (v : Json.json) : option Source :=
  match z_object v with
  | None => None
  | Some o =>
      match required z_string o (js "href"), required z_string o (js "title") with
      | Some h, Some ti => Some (mkSource h ti)
      | _, _ => None
      end
  end.

Definition reasoningSchema (v : Json.json) : option Reasoning :=
  match z_object v with
  | None => None
  | Some o =>
      match required z_string o (js "content"), required z_time o (js "duration"),
            optional z_time o (js "startedAt"), optional z_time o (js "completedAt"),
            optional z_time o (js "durationMs") with
      | Some c, Some d, Some s, Some ca, Some dm => Some (mkReasoning c d s ca dm)
      | _, _, _, _, _ => None
      end
  end.

(** [z.array(messageVersionSchema).min(1)] *)
Definition versionsSchema (v : Json.json) : option (list MessageVersion) :=
  match z_array messageVersionSchema v with Some [] => None | r => r end.

Definition messageSchema (v : Json.json) : option Message :=
  match z_object v with
  | None => None
  | Some o =>
      match required z_string o (js "key"), required messageRoleSchema o (js "from"),
            required versionsSchema o (js "versions"), optional z_time o (js "createdAt"),
            optional z_time o (js "startedAt"), optional z_time o (js "completedAt"),
            optional z_time o (js "durationMs") with
      | Some k, Some f, Some vs, Some ca, Some sa, Some co, Some dm =>
          match optional (z_array sourceSchema) o (js "sources"), optional reasoningSchema o (js "reasoning"),
                optional z_boolean o (js "isReasoningStreaming"),
                optional z_boolean o (js "isReasoningComplete"),
                optional z_boolean o (js "isContentComplete"),
                optional messageStatusSchema o (js "status"),
                optional (z_nullable z_string) o (js "errorCode") with
          | Some so, Some re, Some rs, Some rc, Some cc, Some st, Some ec =>
              Some (mkMessage k f vs ca sa co dm so re rs rc cc st ec)
          | _, _, _, _, _, _, _ => None
          end
      | _, _, _, _, _, _, _ => None
      end
  end.

Definition messagesSchema : Json.json -> option (list Message) := z_array messageSchema.

(** ** The JSON of a message *)

Definition time_json (z : Z) : Json.json := Json.JNum (Json.mkNum z 0).

Definition version_json (v : MessageVersion) : Json.json :=
  members [(js "id", Some (Json.JStr (v_id v))); (js "content", Some (Json.JStr (v_content v)))].

Definition source_json (s : Source) : Json.json :=
  members [(js "href", Some (Json.JStr (href s))); (js "title", Some (Json.JStr (title s)))].

Definition reasoning_json (r : Reasoning) : Json.json :=
  members [(js "content", Some (Json.JStr (r_content r))); (js "duration", Some (time_json (r_duration r)));
           (js "startedAt", time_json <$> r_startedAt r); (js "completedAt", time_json <$> r_completedAt r);
           (js "durationMs", time_json <$> r_durationMs r)].

Definition errorCode_json (c : option jsstr) : Json.json :=
  match c with None => Json.JNull | Some s => Json.JStr s end.

Definition message_json (m : Message) : Json.json :=
  members [(js "key", Some (Json.JStr (key m))); (js "from", Some (Json.JStr (role_text (from m))));
           (js "versions", Some (Json.JArr (map version_json (versions m))));
           (js "createdAt", time_json <$> createdAt m); (js "startedAt", time_json <$> startedAt m);
           (js "completedAt", time_json <$> completedAt m); (js "durationMs", time_json <$> durationMs m);
           (js "sources", (fun l => Json.JArr (map source_json l)) <$> sources m);
           (js "reasoning", reasoning_json <$> reasoning m);
           (js "isReasoningStreaming", Json.JBool <$> isReasoningStreaming m);
           (js "isReasoningComplete", Json.JBool <$> isReasoningComplete m);
           (js "isContentComplete", Json.JBool <$> isContentComplete m);
           (js "status", (fun s => Json.JStr (status_text s)) <$> status m);
           (js "errorCode", errorCode_json <$> errorCode m)].

#[export] Instance messages_schema : Schema (list Message) := {
  schema_parse := messagesSchema;
  to_json ms := Json.JArr (map message_json ms) }.

(** ** The laws of the schema *)

Fixpoint assoc (spec : list (jsstr * option Json.json)) (k : jsstr) : option Json.json :=
  match spec with
  | [] => None
  | (k', o) :: spec' => if decide (k' = k) then o else assoc spec' k
  end.

Definition distinct_keys (spec : list (jsstr * option Json.json)) : bool :=
  bool_decide (NoDup spec.*1).

Lemma members_prop spec k :
  distinct_keys spec = true -> Json.prop (members spec) k = assoc spec k.
Proof.
  unfold distinct_keys. intros H. bool_hyps. unfold members, Json.prop.
  induction spec as [|[k' o] spec IH]; [done|]. inversion_clear H as [|? ? Hn Hnd].
  cbn [assoc]. destruct o as [v|]; cbn [omap list_omap fmap option_fmap option_map fst snd map_get].
  - destruct (decide (k' = k)); [done|by apply IH].
  - destruct (decide (k' = k)) as [->|]; [|by apply IH].
    apply map_get_None. intros Hin. apply Hn. unfold map_keys in Hin.
    apply list_elem_of_fmap in Hin as ([k1 v1] & -> & Hin).
    apply list_elem_of_omap in Hin as ([k2 o2] & Hin & Heq). cbn in Heq. destruct o2; [|done].
    injection Heq as -> ->. apply list_elem_of_fmap. by exists (k1, Some v1).
Qed.

Lemma optional_get {A} (dec : Json.json -> option A) o k (enc : A -> Json.json) x :
  (forall a, dec (enc a) = Some a) -> Json.prop o k = enc <$> x -> optional dec o k = Some x.
Proof. intros H Hp. unfold optional. rewrite Hp. destruct x; cbn; [by rewrite H|done]. Qed.

Lemma required_get {A} (dec : Json.json -> option A) o k v x :
  dec v = Some x -> Json.prop o k = Some v -> required dec o k = Some x.
Proof. intros H Hp. unfold required. by rewrite Hp. Qed.

Lemma z_elements_map {A} (dec : Json.json -> option A) (enc : A -> Json.json) l :
  (forall a, a ∈ l -> dec (enc a) = Some a) -> z_elements dec (map enc l) = Some l.
Proof.
  induction l as [|a l IH]; intros H; [done|]. cbn [map z_elements]. rewrite H by left.
  rewrite IH; [done|]. intros b Hb. apply H. by right.
Qed.

Lemma time_get z : z_time (time_json z) = Some z.
Proof. unfold z_time, time_json. cbn. by rewrite Z.mul_1_r. Qed.

Lemma version_get v : messageVersionSchema (version_json v) = Some v.
Proof. by destruct v. Qed.

Lemma source_get s : sourceSchema (source_json s) = Some s.
Proof. by destruct s. Qed.

Lemma reasoning_get r : reasoningSchema (reasoning_json r) = Some r.
Proof.
  unfold reasoningSchema. change (z_object (reasoning_json r)) with (Some (reasoning_json r)).
  cbn iota. unfold reasoning_json.
  rewrite (required_get z_string _ (js "content") (Json.JStr (r_content r)) (r_content r) eq_refl)
    by (by rewrite members_prop).
  rewrite (required_get z_time _ (js "duration") (time_json (r_duration r)) (r_duration r) (time_get _))
    by (by rewrite members_prop).
  rewrite (optional_get z_time _ (js "startedAt") time_json (r_startedAt r) time_get) by (by rewrite members_prop).
  rewrite (optional_get z_time _ (js "completedAt") time_json (r_completedAt r) time_get) by (by rewrite members_prop).
  rewrite (optional_get z_time _ (js "durationMs") time_json (r_durationMs r) time_get) by (by rewrite members_prop).
  by destruct r.
Qed.

Lemma versions_get vs :
  vs <> [] -> versionsSchema (Json.JArr (map version_json vs)) = Some vs.
Proof.
  intros H. unfold versionsSchema, z_array.
  rewrite z_elements_map by (intros; apply version_get). by destruct vs.
Qed.

Lemma message_get m : versions m <> [] -> messageSchema (message_json m) = Some m.
Proof.
  intros Hv. unfold messageSchema. change (z_object (message_json m)) with (Some (message_json m)).
  cbn iota. unfold message_json.
  rewrite (required_get z_string _ (js "key") (Json.JStr (key m)) (key m) eq_refl) by (by rewrite members_prop).
  rewrite (required_get messageRoleSchema _ (js "from") (Json.JStr (role_text (from m))) (from m))
    by (by destruct (from m) || by rewrite members_prop).
  rewrite (required_get versionsSchema _ (js "versions") _ (versions m) (versions_get _ Hv))
    by (by rewrite members_prop).
  rewrite (optional_get z_time _ (js "createdAt") time_json (createdAt m) time_get) by (by rewrite members_prop).
  rewrite (optional_get z_time _ (js "startedAt") time_json (startedAt m) time_get) by (by rewrite members_prop).
  rewrite (optional_get z_time _ (js "completedAt") time_json (completedAt m) time_get) by (by rewrite members_prop).
  rewrite (optional_get z_time _ (js "durationMs") time_json (durationMs m) time_get) by (by rewrite members_prop).
  rewrite (optional_get (z_array sourceSchema) _ (js "sources") (fun l => Json.JArr (map source_json l)) (sources m))
    by (try (by rewrite members_prop); intros l; apply z_elements_map; intros; apply source_get).
  rewrite (optional_get reasoningSchema _ (js "reasoning") reasoning_json (reasoning m) reasoning_get)
    by (by rewrite members_prop).
  rewrite (optional_get z_boolean _ (js "isReasoningStreaming") Json.JBool (isReasoningStreaming m))
    by (done || by rewrite members_prop).
  rewrite (optional_get z_boolean _ (js "isReasoningComplete") Json.JBool (isReasoningComplete m))
    by (done || by rewrite members_prop).
  rewrite (optional_get z_boolean _ (js "isContentComplete") Json.JBool (isContentComplete m))
    by (done || by rewrite members_prop).
  rewrite (optional_get messageStatusSchema _ (js "status") (fun s => Json.JStr (status_text s)) (status m))
    by ((by intros []) || by rewrite members_prop).
  rewrite (optional_get (z_nullable z_string) _ (js "errorCode") errorCode_json (errorCode m))
    by ((by intros []) || by rewrite members_prop).
  by destruct m.
Qed.

#[export] Instance messages_schema_laws : SchemaLaws (list Message).
Proof.
  refine {| schema_valid := fun ms => Forall (fun m => versions m <> []) ms |}.
  intros ms H. apply z_elements_map. intros m Hm. apply message_get.
  rewrite Forall_forall in H. by apply H.
Defined.

End Storage.
