(* ===== verification/StorageFacts.v ===== *)
(** * What the storage guarantees

    Bounds of what is loaded, the shape of the collapse of repeated sections,
    the round trip of a saved conversation, and that a conversation saved in
    the middle of a generation is settled when it is loaded. *)

From S2P Require Import Prelude JsString JsCollections Json JsonNumber JsonText Effects ThinkTags PlaygroundMessage PlaygroundConfig Storage.

Module StorageFacts.
Import Playground PlaygroundConfig Storage.

(** ** Suffixes *)

Lemma elem_of_rev {A} (l : list A) x : x ∈ rev l <-> x ∈ l.
Proof. by rewrite !list_elem_of_In, <- in_rev. Qed.

Lemma suffix_drop {A} n (l : list A) : drop n l `suffix_of` l.
Proof. exists (take n l). by rewrite take_drop. Qed.

Lemma only_last_suffix ms ms' :
  ms' `suffix_of` ms -> only_last_pending ms -> only_last_pending ms'.
Proof.
  intros [k ->]. destruct ms' as [|l ms' _] using rev_ind; [done|].
  rewrite app_assoc, !only_last_snoc. unfold settled. by rewrite Forall_app; intros [_ ?].
Qed.

Lemma settled_suffix ms ms' : ms' `suffix_of` ms -> settled ms -> settled ms'.
Proof. intros [k ->]. unfold settled. by rewrite Forall_app; intros [_ ?]. Qed.

(** ** Truncation *)

Lemma truncateText_length s n : 0 <= n -> len (truncateText s n) <= n.
Proof.
  intros Hn. unfold truncateText. case_tests; [done| |]; unfold len in *.
  - rewrite length_take. lia.
  - rewrite length_app, length_take. lia.
Qed.

Lemma truncateText_id s n : len s <= n -> truncateText s n = s.
Proof. intros H. unfold truncateText. by replace (len s <=? n) with true by lia. Qed.

Lemma trimMessages_suffix ms : trimMessages ms `suffix_of` ms.
Proof. unfold trimMessages. case_match; [done|apply suffix_drop]. Qed.

Lemma trimMessages_length ms : (length (trimMessages ms) <= MAX_STORED_MESSAGES)%nat.
Proof.
  unfold trimMessages. destruct (length ms <=? MAX_STORED_MESSAGES)%nat eqn:E.
  - by apply Nat.leb_le in E.
  - apply Nat.leb_gt in E. rewrite length_drop. lia.
Qed.

Lemma trimMessages_id ms : (length ms <= MAX_STORED_MESSAGES)%nat -> trimMessages ms = ms.
Proof. intros H. unfold trimMessages. apply Nat.leb_le in H as ->. done. Qed.

(** ** The size budget *)

Definition total_size (ms : list Message) : Z := foldr (fun m acc => getMessageSize m + acc) 0 ms.

Lemma total_size_app a b : total_size (a ++ b) = total_size a + total_size b.
Proof. induction a as [|m a IH]; simpl; [done|]. unfold total_size in *. lia. Qed.

(** The kept messages, the total so far and the ones that were dropped. *)
Lemma sizeLoop_spec rest total acc :
  (length acc <= 1)%nat \/ total <= MAX_LOADED_MESSAGES_CHARS -> total = total_size acc ->
  exists dropped kept, rev rest ++ acc = dropped ++ kept /\ sizeLoop rest total acc = kept /\
    ((length kept <= 1)%nat \/ total_size kept <= MAX_LOADED_MESSAGES_CHARS) /\
    (acc <> [] \/ rest <> [] -> kept <> []) /\
    (forall m d, dropped = d ++ [m] -> MAX_LOADED_MESSAGES_CHARS < total_size (m :: kept)).
Proof.
  revert total acc. induction rest as [|m rest IH]; intros total acc Ht Heq; cbn [sizeLoop rev].
  { exists [], acc. split_and!; [done|done|by subst|naive_solver|]. by intros ? []. }
  destruct ((0 <? length acc)%nat && (MAX_LOADED_MESSAGES_CHARS <? total + getMessageSize m)) eqn:E.
  - exists (rev rest ++ [m]), acc. bool_hyps. split_and!; [done|done|by subst| |].
    + intros _ ->. done.
    + intros m' d [_ [= <-]]%app_inj_tail. cbn. unfold total_size in Heq. lia.
  - destruct (IH (total + getMessageSize m) (m :: acc)) as (dr & kept & H1 & H2 & H3 & H4 & H5).
    + bool_hyps. destruct E as [E|E].
      * apply Nat.ltb_ge in E. left. cbn. lia.
      * right. bool_hyps. done.
    + cbn. unfold total_size in Heq. lia.
    + exists dr, kept. rewrite <- app_assoc. split_and!; auto.
Qed.

Lemma trimMessagesByContentSize_spec ms :
  exists dropped, let kept := trimMessagesByContentSize ms in
    ms = dropped ++ kept /\
    ((length kept <= 1)%nat \/ total_size kept <= MAX_LOADED_MESSAGES_CHARS) /\
    (ms <> [] -> kept <> []) /\
    (forall m d, dropped = d ++ [m] -> MAX_LOADED_MESSAGES_CHARS < total_size (m :: kept)).
Proof.
  destruct (sizeLoop_spec (rev ms) 0 []) as (dr & kept & H1 & H2 & H3 & H4 & H5).
  { left. cbn. lia. }
  { done. }
  rewrite rev_involutive, app_nil_r in H1. exists dr. unfold trimMessagesByContentSize. rewrite H2.
  cbv zeta. split_and!; try done. intros Hne. apply H4. right. intros Hr. apply Hne.
  by rewrite <- (rev_involutive ms), Hr.
Qed.

Lemma trimMessagesByContentSize_suffix ms : trimMessagesByContentSize ms `suffix_of` ms.
Proof. destruct (trimMessagesByContentSize_spec ms) as (d & H & _). by exists d. Qed.

(** A conversation within the budget is kept whole. *)
Lemma trimMessagesByContentSize_id ms :
  (forall m, m ∈ ms -> 0 <= getMessageSize m) -> total_size ms <= MAX_LOADED_MESSAGES_CHARS ->
  trimMessagesByContentSize ms = ms.
Proof.
  intros Hnn Ht. destruct (trimMessagesByContentSize_spec ms) as (d & H & _ & _ & Hd).
  destruct d as [|m d _] using rev_ind; [by symmetry|]. exfalso.
  specialize (Hd m d eq_refl). rewrite H in Ht. rewrite total_size_app, total_size_app in Ht.
  assert (0 <= total_size d).
  { apply sum_list_with_nonneg. intros x Hx. apply Hnn. rewrite H. set_solver. }
  cbn in Hd, Ht. unfold total_size in *. lia.
Qed.

Lemma getMessageSize_nonneg m : 0 <= getMessageSize m.
Proof.
  unfold getMessageSize.
  assert (forall vs a, 0 <= a -> 0 <= fold_left (fun total v => total + len (v_content v)) vs a) as Hf.
  { induction vs as [|v vs IH]; intros a Ha; cbn [fold_left]; [done|]. apply IH. unfold len. lia. }
  specialize (Hf (versions m) 0 ltac:(lia)). unfold compose.
  destruct (reasoning m) as [r|]; cbn [fmap option_fmap option_map]; [|lia].
  assert (0 <= len (r_content r)) by (unfold len; lia). lia.
Qed.

(** ** Repeated sections *)

(** How often a heading occurs. *)
Definition occurs (os : list SectionOccurrence) (h : jsstr) : Z :=
  len (filter (fun o => heading o = h) os).

Definition repeated (os : list SectionOccurrence) (h : jsstr) : Prop :=
  MIN_REPEATED_SECTION_COUNT <= occurs os h.

Lemma getHeadingCounts_spec os h : map_get (getHeadingCounts os) h ?? 0 = occurs os h.
Proof.
  unfold getHeadingCounts, occurs.
  assert (forall m, map_get (fold_left (fun counts o => map_set counts (heading o)
    ((map_get counts (heading o) ?? 0) + 1)) os m) h ?? 0
    = (map_get m h ?? 0) + len (filter (fun o => heading o = h) os)) as H.
  2:{ rewrite H. done. }
  induction os as [|o os IH]; intros m; cbn [fold_left]; [unfold len; cbn; lia|]. rewrite IH.
  destruct (decide (heading o = h)) as [<-|Hne].
  - rewrite map_get_set_eq, filter_cons_True by done. unfold len. cbn [length]. lia.
  - by rewrite map_get_set_ne, filter_cons_False by done.
Qed.

(** The occurrences are found in order, and each is a piece of the text. *)
Lemma scan_headings_spec s i bol skip :
  let os := scan_headings s i bol skip in
  StronglySorted (fun a b => (index a < index b)%nat) os /\
  Forall (fun o => (i <= index o < i + length s)%nat /\ heading o `prefix_of` drop (index o - i) s) os.
Proof.
  assert (forall c s i os,
    Forall (fun o => (S i <= index o < S i + length s)%nat /\ heading o `prefix_of` drop (index o - S i) s) os ->
    Forall (fun o => (i <= index o < i + length (c :: s))%nat /\
      heading o `prefix_of` drop (index o - i) (c :: s)) os) as Hshift.
  { intros c s0 i0 os H. eapply Forall_impl; [exact H|]. intros o [H1 H2]. cbn [length].
    split; [lia|]. by replace (index o - i0)%nat with (S (index o - S i0)) by lia. }
  revert i bol skip. induction s as [|c s IH]; intros i bol skip; cbn [scan_headings]; [by repeat constructor|].
  destruct skip as [|k].
  - destruct (if bol then heading_length (c :: s) else None) as [n|].
    + destruct (IH (S i) (is_line_terminator c) (n - 1)%nat) as [IH1 IH2]. split.
      * constructor; [done|]. eapply Forall_impl; [exact IH2|]. cbn. intros o [Ho _]. lia.
      * constructor; [|by apply Hshift]. cbn [index heading length]. split; [lia|].
        rewrite Nat.sub_diag, drop_0. apply prefix_take.
    + destruct (IH (S i) (is_line_terminator c) 0%nat) as [IH1 IH2]. split; [done|by apply Hshift].
  - destruct (IH (S i) (is_line_terminator c) k) as [IH1 IH2]. split; [done|by apply Hshift].
Qed.

Lemma occurrence_text text o :
  o ∈ getSectionOccurrences text -> heading o `prefix_of` drop (index o) text.
Proof.
  intros Ho. destruct (scan_headings_spec text 0 true 0) as [_ H]. rewrite Forall_forall in H.
  destruct (H o Ho) as [_ Hp]. by rewrite Nat.sub_0_r in Hp.
Qed.

(** The kept indexes are those of the first occurrences, in the order of the
    loop, of the repeated headings. *)
Lemma repeatedStep_spec counts os :
  let '(idx, seen) := fold_left (repeatedStep counts) os ([], []) in
  (forall i, i ∈ idx -> exists xs o ys, os = xs ++ o :: ys /\ index o = i /\
     MIN_REPEATED_SECTION_COUNT <= (map_get counts (heading o) ?? 0) /\ heading o ∉ heading <$> xs) /\
  (forall o, o ∈ os -> MIN_REPEATED_SECTION_COUNT <= (map_get counts (heading o) ?? 0) ->
     heading o ∈ seen) /\
  (forall h, h ∈ seen -> exists o, o ∈ os /\ heading o = h /\ index o ∈ idx).
Proof.
  induction os as [|o os IH] using rev_ind.
  { split_and!; intros ? H; by apply not_elem_of_nil in H. }
  rewrite fold_left_app. cbn [fold_left].
  destruct (fold_left (repeatedStep counts) os ([], [])) as [idx seen]. destruct IH as (IH1 & IH2 & IH3).
  unfold repeatedStep. cbn [fst snd].
  assert (forall i, i ∈ idx -> exists xs o' ys, os ++ [o] = xs ++ o' :: ys /\ index o' = i /\
     MIN_REPEATED_SECTION_COUNT <= (map_get counts (heading o') ?? 0) /\ heading o' ∉ heading <$> xs) as IH1'.
  { intros i Hi. destruct (IH1 i Hi) as (xs & o' & ys & -> & ?). exists xs, o', (ys ++ [o]).
    by rewrite <- app_assoc. }
  destruct (_ || _) eqn:E.
  - split_and!; [done| |].
    + intros o' Ho' Hc. apply elem_of_app in Ho' as [Ho'|Ho']; [by apply IH2|].
      apply list_elem_of_singleton in Ho' as ->. bool_hyps. destruct E as [E|E]; bool_hyps; [lia|done].
    + intros h Hh. destruct (IH3 h Hh) as (o' & ? & ?). exists o'. set_solver.
  - bool_hyps. split_and!.
    + intros i Hi. apply elem_of_app in Hi as [Hi|Hi]; [by apply IH1'|].
      apply list_elem_of_singleton in Hi as ->. exists os, o, []. split_and!; [done|done|done|].
      intros Hin. apply list_elem_of_fmap in Hin as (o' & Heq & Ho'). apply H0. rewrite Heq.
      apply IH2; [done|]. by rewrite <- Heq.
    + intros o' Ho' Hc. apply set_add_elem.
      apply elem_of_app in Ho' as [Ho'|Ho']; [left; by apply IH2|].
      apply list_elem_of_singleton in Ho' as ->. by right.
    + intros h Hh. apply set_add_elem in Hh as [Hh| ->].
      * destruct (IH3 h Hh) as (o' & ? & ? & ?). exists o'. set_solver.
      * exists o. set_solver.
Qed.

Lemma fold_min_spec l i :
  fold_left Nat.min l i ∈ i :: l /\ (forall j, j ∈ i :: l -> (fold_left Nat.min l i <= j)%nat).
Proof.
  revert i. induction l as [|x l IH]; intros i; cbn [fold_left].
  - split; [left|]. intros j Hj. by apply list_elem_of_singleton in Hj as ->.
  - destruct (IH (Nat.min i x)) as [H1 H2]. split.
    + apply elem_of_cons in H1 as [-> |H1]; [|set_solver]. destruct (Nat.min_dec i x) as [-> | ->]; set_solver.
    + intros j Hj. apply elem_of_cons in Hj as [-> |Hj].
      * etrans; [apply (H2 (Nat.min i x)); left|]. lia.
      * apply elem_of_cons in Hj as [-> |Hj]; [etrans; [apply (H2 (Nat.min i x)); left|]; lia|].
        apply H2. by right.
Qed.

(** The start of the kept text: the last occurrence of a repeated heading,
    such that every repeated heading occurs at or after it. *)
Lemma findLastRepeated_spec text :
  let os := getSectionOccurrences text in
  match findLastRepeatedSectionRunStart text with
  | None => forall o, o ∈ os -> ~ repeated os (heading o)
  | Some i => exists o, o ∈ os /\ index o = i /\ repeated os (heading o) /\
      (forall o', o' ∈ os -> heading o' = heading o -> (index o' <= index o)%nat) /\
      (forall o', o' ∈ os -> repeated os (heading o') ->
         exists o'', o'' ∈ os /\ heading o'' = heading o' /\ (i <= index o'')%nat)
  end.
Proof.
  cbv zeta. unfold findLastRepeatedSectionRunStart. cbv zeta.
  set (os := getSectionOccurrences text).
  pose proof (repeatedStep_spec (getHeadingCounts os) (rev os)) as H.
  destruct (fold_left _ (rev os) ([], [])) as [idx seen]. destruct H as (H1 & H2 & H3).
  assert (forall o, o ∈ os -> repeated os (heading o) -> exists o', o' ∈ os /\ heading o' = heading o /\ index o' ∈ idx)
    as Hrep.
  { intros o Ho Hr. destruct (H3 (heading o)) as (o' & Ho' & ? & ?).
    - apply H2; [by rewrite elem_of_rev|]. by rewrite getHeadingCounts_spec.
    - exists o'. rewrite elem_of_rev in Ho'. done. }
  destruct idx as [|i idx].
  { intros o Ho Hr. destruct (Hrep o Ho Hr) as (? & _ & _ & Hin). by apply not_elem_of_nil in Hin. }
  destruct (fold_min_spec idx i) as [Hm1 Hm2].
  destruct (H1 _ Hm1) as (xs & o & ys & Hos & Hi & Hc & Hn). rewrite getHeadingCounts_spec in Hc.
  assert (os = rev ys ++ o :: rev xs) as Hos'.
  { rewrite <- (rev_involutive os), Hos, rev_app_distr. cbn. by rewrite <- app_assoc. }
  assert (o ∈ os) as Ho by (rewrite Hos'; set_solver).
  exists o. split_and!; [done|done|done| |].
  - intros o' Ho' Hh. destruct (scan_headings_spec text 0 true 0) as [Hs _].
    change (scan_headings text 0 true 0) with os in Hs. rewrite Hos' in Hs, Ho'.
    apply elem_of_app in Ho' as [Ho'|Ho'].
    + apply Nat.lt_le_incl. apply (StronglySorted_app_1_elem_of _ _ _ _ _ Hs Ho' ltac:(left)).
    + apply elem_of_cons in Ho' as [-> |Ho']; [done|]. destruct Hn. rewrite <- Hh.
      apply list_elem_of_fmap_2. by rewrite elem_of_rev in Ho'.
  - intros o' Ho' Hr. destruct (Hrep o' Ho' Hr) as (o'' & ? & ? & Hin). exists o''. eauto.
Qed.

Lemma collapse_suffix text : collapseRepeatedSectionSnapshots text `suffix_of` text.
Proof.
  unfold collapseRepeatedSectionSnapshots. case_match; [done|]. case_match; [|done]. apply suffix_drop.
Qed.

(** ** Normalization *)

Definition short (m : Message) : Prop :=
  Forall (fun v => len (v_content v) <= MAX_LOADED_MESSAGE_CHARS) (versions m).

Lemma versionUnchanged_eq v : versionUnchanged v = true -> normalizeVersion v = v.
Proof.
  unfold versionUnchanged, normalizeVersion. intros H. bool_hyps. destruct v as [i c].
  cbn [v_id v_content] in *. by rewrite H.
Qed.

Lemma normalizeVersion_short v : len (v_content (normalizeVersion v)) <= MAX_LOADED_MESSAGE_CHARS.
Proof. by apply truncateText_length. Qed.

Lemma truncateStoredMessage_spec m :
  let '(m', changed) := truncateStoredMessage m in
  from m' = from m /\ status m' = status m /\ short m' /\ (changed = false -> m' = m).
Proof.
  unfold truncateStoredMessage, short. destruct (_ || _) eqn:E.
  - split_and!; [done|done| |done]. cbn. rewrite Forall_map. apply Forall_true. intros v.
    destruct (versionUnchanged v) eqn:Ev; [rewrite <- (versionUnchanged_eq v Ev)|];
      apply normalizeVersion_short.
  - split_and!; [done..| |done]. bool_hyps. rewrite forallb_forall in H. apply Forall_forall.
    intros v Hv. rewrite <- (versionUnchanged_eq v); [apply normalizeVersion_short|].
    apply H. by apply list_elem_of_In.
Qed.

Lemma is_pending_eq m m' : from m' = from m -> status m' = status m -> is_pending m' = is_pending m.
Proof.
  unfold is_pending, isPendingAssistantMessage, isAssistant, isAssistantMessagePending.
  by intros -> ->.
Qed.

(** [finalizeMessage] keeps one version, no longer than the one it had. *)
Lemma finalizeMessage_versions m api e :
  exists v, versions (result (finalizeMessage m api) e) = [v] /\
    len (v_content v) <= len (getMessageContent m).
Proof.
  unfold finalizeMessage. cbv zeta. rewrite result_bind.
  match goal with |- context [result (completeReasoningTimingNow ?x) ?e1] =>
    set (m1 := x); destruct (completeReasoningTimingNow_eq m1 e1) as [tm ->] end.
  destruct (completeReasoningTiming_spec m1 tm) as (_ & -> & _).
  eexists. split; [reflexivity|]. cbn [v_content]. fold (getMessageContent m).
  destruct (includes _ _); cbn [fmap option_fmap option_map]; [|done].
  unfold len. pose proof (ThinkTags.visibleContent_length (getMessageContent m)). lia.
Qed.

Lemma short_content m : short m -> len (getMessageContent m) <= MAX_LOADED_MESSAGE_CHARS.
Proof.
  unfold short, getMessageContent, getCurrentVersion. destruct (versions m) as [|v vs]; [done|].
  intros H. by inversion H.
Qed.

Lemma normalize_spec m e :
  let '(m', _) := result (normalizeStoredMessageForLoad m) e in
  short m' /\ (is_pending m = false -> is_pending m' = false).
Proof.
  unfold normalizeStoredMessageForLoad. pose proof (truncateStoredMessage_spec m) as H.
  destruct (truncateStoredMessage m) as [m1 b]. destruct H as (Hf & Hs & Hshort & _).
  assert (short m1 /\ (is_pending m = false -> is_pending m1 = false)) as Hm1
    by (rewrite (is_pending_eq m m1) by done; done).
  destruct (negb _); [done|]. cbv zeta. destruct (_ && _); [done|].
  rewrite result_bind. match goal with |- context [result (let! f := _ in _) ?e1] => set (e' := e1) end.
  rewrite result_bind, result_ret.
  destruct (finalizeMessage_versions m1 None e') as (v & Hv & Hl).
  destruct (finalizeMessage_spec m1 None e') as ((_ & Hff & _) & _).
  match goal with |- context [completeAssistantTiming ?x ?c] =>
    destruct (completeAssistantTiming_spec x c) as (_ & Hv' & Hst & _) end.
  split.
  - unfold short. rewrite Hv'. cbn. rewrite Hv. apply Forall_singleton.
    etrans; [exact Hl|by apply short_content].
  - intros _. apply final_not_pending. left. exact Hst.
Qed.

Lemma mapM_lookup {A B} (f : A -> M B) l e i y :
  result (mapM f l) e !! i = Some y -> exists x e', l !! i = Some x /\ y = result (f x) e'.
Proof.
  revert e i. induction l as [|x l IH]; intros e i; [done|]. cbn [mapM]. autorewrite with effects.
  destruct i as [|i]; cbn [lookup list_lookup].
  - intros [= <-]. eauto.
  - apply IH.
Qed.

Lemma normalized_list ms e :
  let ms' := (result (mapM normalizeStoredMessageForLoad ms) e).*1 in
  length ms' = length ms /\ Forall short ms' /\
  (only_last_pending ms -> only_last_pending ms').
Proof.
  cbv zeta. set (norm := result _ e).
  assert (length norm.*1 = length ms) as Hl by (unfold norm; by rewrite length_fmap, mapM_length).
  assert (forall i m', norm.*1 !! i = Some m' -> exists m e', ms !! i = Some m /\
    m' = (result (normalizeStoredMessageForLoad m) e').1) as Hlk.
  { intros i m'. rewrite list_lookup_fmap. destruct (norm !! i) as [y|] eqn:E; [|done].
    intros [= <-]. apply mapM_lookup in E as (m & e' & ? & ->). eauto. }
  split_and!; [done| |].
  - apply Forall_lookup. intros i m' Hi. destruct (Hlk i m' Hi) as (m & e' & _ & ->).
    pose proof (normalize_spec m e') as H. destruct (result _ e'). apply H.
  - intros H i m' Hi Hlt. destruct (Hlk i m' Hi) as (m & e' & Hm & ->).
    pose proof (normalize_spec m e') as Hn. destruct (result _ e'). apply Hn.
    apply (H i m Hm). by rewrite <- Hl.
Qed.

(** ** Sanitizing *)

Lemma findLastPending_None ms n :
  findLastPending ms n = None -> forall i m, (i < n)%nat -> ms !! i = Some m -> is_pending m = false.
Proof.
  induction n as [|n IH]; intros Hf i m Hi Hm; [lia|]. cbn [findLastPending] in Hf.
  destruct (isPendingAssistantMessage (ms !! n)) eqn:E; [done|].
  destruct (decide (i = n)) as [->|]; [by rewrite Hm in E|]. apply (IH Hf i); [lia|done].
Qed.

Lemma findLastPending_Some ms n i :
  findLastPending ms n = Some i -> (i < n)%nat /\ exists m, ms !! i = Some m /\ is_pending m = true.
Proof.
  induction n as [|n IH]; [done|]. cbn [findLastPending].
  destruct (isPendingAssistantMessage (ms !! n)) eqn:E.
  - intros [= <-]. split; [lia|]. destruct (ms !! n); [eauto|done].
  - intros H. destruct (IH H) as [? ?]. split; [lia|done].
Qed.

Lemma sanitize_shape t ms e :
  result (sanitizeMessagesOnLoad t ms) e = ms /\ settled ms \/
  exists i m m', findLastPending ms (length ms) = Some i /\ ms !! i = Some m /\ is_pending m = true /\
    result (sanitizeMessagesOnLoad t ms) e = <[i := m']> ms /\ is_pending m' = false.
Proof.
  unfold sanitizeMessagesOnLoad. destruct (findLastPending ms (length ms)) as [i|] eqn:E.
  - destruct (findLastPending_Some _ _ _ E) as (Hi & m & Hm & Hp). right. rewrite Hm. exists i, m.
    rewrite result_bind. cbv zeta. rewrite result_bind, result_ret. eexists. split_and!; [done|done|done|reflexivity|].
    apply final_not_pending. destruct (_ || _); [left|right];
      match goal with |- context [result (completeAssistantTimingNow ?x) ?e1] =>
        destruct (completeAssistantTimingNow_eq x e1) as [tm ->];
        destruct (completeAssistantTiming_spec x tm) as (_ & _ & -> & _) end; done.
  - left. split; [done|]. apply Forall_lookup. intros i m Hm.
    apply (findLastPending_None _ _ E i); [by eapply lookup_lt_Some|done].
Qed.

Lemma sanitize_length t ms e : length (result (sanitizeMessagesOnLoad t ms) e) = length ms.
Proof.
  destruct (sanitize_shape t ms e) as [[-> _]|(i & m & m' & _ & _ & _ & -> & _)]; [done|].
  by rewrite length_insert.
Qed.

Lemma sanitize_settles t ms e :
  only_last_pending ms -> settled (result (sanitizeMessagesOnLoad t ms) e).
Proof.
  intros Hl. destruct (sanitize_shape t ms e) as [[-> ?]|(i & m & m' & _ & Hm & Hp & -> & Hp')]; [done|].
  apply Forall_lookup. intros j x Hj. destruct (decide (j = i)) as [->|Hne].
  - rewrite list_lookup_insert_eq in Hj by (by eapply lookup_lt_Some). by injection Hj as <-.
  - rewrite list_lookup_insert_ne in Hj by done. apply (Hl j x Hj).
    apply lookup_lt_Some in Hj as Hj'. apply lookup_lt_Some in Hm as Hm'.
    destruct (decide (S i < length ms)%nat) as [Hlt|]; [|lia].
    rewrite (Hl i m Hm Hlt) in Hp. done.
Qed.

(** ** Saving and loading *)

Section Load.
Context `{SchemaLaws (list Message)}.
Variable setItem_throws : jsstr -> jsstr -> bool.
Variable t : jsstr -> jsstr.

(** What is written for some messages. *)
Definition saved_text (ms : list Message) : jsstr :=
  JsonText.JSON_stringify (envelope (to_json ms)).

(** The conversation can be written: the schema accepts it and the browser
    takes its text. *)
Definition writable (ms : list Message) : Prop :=
  schema_valid ms /\ setItem_throws STORAGE_KEYS_MESSAGES (saved_text ms) = false.

(** It can be written, its text is read back, and it fits. *)
Definition storable (ms : list Message) : Prop :=
  schema_valid ms /\ JsonText.wf_json (to_json ms) /\
  setItem_throws STORAGE_KEYS_MESSAGES (saved_text ms) = false /\
  len (saved_text ms) <= MAX_STORED_MESSAGES_BYTES.

Lemma envelope_wf data : JsonText.wf_json data -> JsonText.wf_json (envelope data).
Proof.
  intros Hd. apply JsonText.wf_json_obj. split_and!.
  - apply (bool_decide_eq_true_1 (NoDup _)). vm_compute. reflexivity.
  - repeat apply Forall_cons_2; try apply Forall_nil_2;
      (split; [apply (bool_decide_eq_true_1 (Forall _ _))|]; vm_compute; reflexivity).
  - apply Forall_cons_2; [|by apply Forall_cons_2; [|apply Forall_nil_2]].
    by apply JsonNumber.renum_integer; [|apply Nat.leb_le; vm_compute].
Qed.

Lemma storable_writable ms : storable ms -> writable ms.
Proof. by intros (Hv & _ & Ht & _). Qed.

Lemma saveMessages_eq store ms :
  writable (trimMessages ms) ->
  saveMessages setItem_throws store ms = map_set store STORAGE_KEYS_MESSAGES (saved_text (trimMessages ms)).
Proof.
  intros [Hv Ht]. unfold saveMessages. rewrite parse_to_json by done.
  unfold writeStoredValue, setItem. fold (saved_text (trimMessages ms)). by rewrite Ht.
Qed.

(** A text that the browser refuses is not written. *)
Lemma saveMessages_refused store ms :
  schema_valid (trimMessages ms) -> setItem_throws STORAGE_KEYS_MESSAGES (saved_text (trimMessages ms)) = true ->
  saveMessages setItem_throws store ms = store.
Proof.
  intros Hv Ht. unfold saveMessages. rewrite parse_to_json by done.
  unfold writeStoredValue, setItem. fold (saved_text (trimMessages ms)). by rewrite Ht.
Qed.

(** A text over the limit is written, and thrown away by the next load. *)
Lemma load_oversized store ms e :
  writable (trimMessages ms) -> MAX_STORED_MESSAGES_BYTES < len (saved_text (trimMessages ms)) ->
  let store' := saveMessages setItem_throws store ms in
  result (loadMessages setItem_throws t store') e = (None, removeItem store' STORAGE_KEYS_MESSAGES).
Proof.
  intros Hw Hl. cbv zeta. rewrite saveMessages_eq by done. unfold loadMessages, readStoredMessagesValue.
  rewrite map_get_set_eq. assert (truthy (saved_text (trimMessages ms)) = true) as -> by done. cbn [negb].
  replace (MAX_STORED_MESSAGES_BYTES <? len (saved_text (trimMessages ms))) with true by lia. done.
Qed.

Lemma read_saved store ms :
  storable ms ->
  let store' := map_set store STORAGE_KEYS_MESSAGES (saved_text ms) in
  readStoredMessagesValue store' = (Some (Some (envelope (to_json ms))), store').
Proof.
  intros (_ & Hw & _ & Hl). cbv zeta. unfold readStoredMessagesValue. rewrite map_get_set_eq.
  assert (truthy (saved_text ms) = true) as -> by done. cbn [negb].
  replace (MAX_STORED_MESSAGES_BYTES <? len (saved_text ms)) with false by lia.
  unfold saved_text at 1. by rewrite JsonText.parse_stringify by (by apply envelope_wf).
Qed.

(** Loading what was saved: the pipeline on the trimmed messages. *)
Lemma load_saved store ms e :
  storable (trimMessages ms) ->
  let norm := result (mapM normalizeStoredMessageForLoad (trimMessages ms)) e in
  exists e',
  let sized := trimMessagesByContentSize (trimMessages norm.*1) in
  let sanitized := result (sanitizeMessagesOnLoad t sized) e' in
  result (loadMessages setItem_throws t (saveMessages setItem_throws store ms)) e
  = (Some sanitized, saveMessages setItem_throws (saveMessages setItem_throws store ms) sanitized).
Proof.
  intros Hs. rewrite saveMessages_eq by by apply storable_writable. unfold loadMessages. rewrite read_saved by done.
  change (Json.json_truthy (envelope (to_json (trimMessages ms)))) with true. cbn [negb].
  change (unwrapStoredValue (envelope (to_json (trimMessages ms)))) with (to_json (trimMessages ms)).
  rewrite parse_to_json by apply Hs. cbv zeta. rewrite !result_bind. eexists. rewrite result_ret.
  by rewrite orb_true_r.
Qed.

Lemma load_saved_shape store ms e :
  storable (trimMessages ms) ->
  exists ms' sized e', result (loadMessages setItem_throws t (saveMessages setItem_throws store ms)) e
    = (Some ms', saveMessages setItem_throws (saveMessages setItem_throws store ms) ms') /\
    ms' = result (sanitizeMessagesOnLoad t sized) e' /\
    (length sized <= MAX_STORED_MESSAGES)%nat /\
    ((length sized <= 1)%nat \/ total_size sized <= MAX_LOADED_MESSAGES_CHARS) /\
    (ms <> [] -> sized <> []) /\ (only_last_pending ms -> only_last_pending sized).
Proof.
  intros Hs. destruct (load_saved store ms e Hs) as [e' Heq].
  destruct (normalized_list (trimMessages ms) e) as (Hl & _ & Hp).
  set (norm := result (mapM normalizeStoredMessageForLoad (trimMessages ms)) e) in *.
  destruct (trimMessagesByContentSize_spec (trimMessages norm.*1)) as (d & Hd & Hb & Hne & _).
  exists (result (sanitizeMessagesOnLoad t (trimMessagesByContentSize (trimMessages norm.*1))) e'),
    (trimMessagesByContentSize (trimMessages norm.*1)), e'.
  split_and!; [exact Heq|done| |done| |].
  - pose proof (trimMessages_length norm.*1) as HL. rewrite Hd, length_app in HL. lia.
  - intros Hms. apply Hne. intros Hnil. apply Hms.
    pose proof (trimMessages_length ms) as HL. rewrite <- Hl in HL.
    rewrite trimMessages_id in Hnil by done. rewrite Hnil in Hl. symmetry in Hl.
    apply length_zero_iff_nil in Hl. revert Hl. unfold trimMessages. case_match eqn:E; [done|].
    apply Nat.leb_gt in E. intros Hdr. apply (f_equal length) in Hdr. rewrite length_drop in Hdr.
    unfold MAX_STORED_MESSAGES in *. cbn [length] in Hdr. lia.
  - intros Ho. eapply only_last_suffix; [apply trimMessagesByContentSize_suffix|].
    eapply only_last_suffix; [apply trimMessages_suffix|]. apply Hp.
    eapply only_last_suffix; [apply trimMessages_suffix|done].
Qed.

(** ** Properties *)

(** A conversation saved in the middle of a generation is settled when it is
    loaded, when at most its last message was loading or streaming. *)
Lemma load_after_save_settles store ms e :
  storable (trimMessages ms) -> only_last_pending ms ->
  exists ms' store', result (loadMessages setItem_throws t (saveMessages setItem_throws store ms)) e
    = (Some ms', store') /\
    settled ms' /\ (length ms' <= MAX_STORED_MESSAGES)%nat /\ (ms <> [] -> ms' <> []).
Proof.
  intros Hs Ho. destruct (load_saved_shape store ms e Hs) as (ms' & sized & e' & Heq & -> & H1 & _ & H3 & H4).
  do 2 eexists. split; [exact Heq|]. split; [by apply sanitize_settles, H4|].
  pose proof (sanitize_length t sized e') as Hl. split; [by rewrite Hl|]. intros Hne Hnil. apply (H3 Hne). rewrite Hnil in Hl. by destruct sized.
Qed.

(** Messages the normalization leaves alone. *)
Definition plain (m : Message) : Prop :=
  isAssistantMessagePending m = false /\
  Forall (fun v => len (v_content v) < MIN_PREFIX_COLLAPSE_LENGTH) (versions m) /\
  (len ∘ r_content <$> reasoning m ?? 0) <= MAX_LOADED_MESSAGE_CHARS.

Lemma plain_normalized m e : plain m -> normalizeStoredMessageForLoad m e = ((m, false), e).
Proof.
  intros (Hp & Hv & Hr). unfold normalizeStoredMessageForLoad, truncateStoredMessage.
  assert (forallb versionUnchanged (versions m) = true) as ->.
  { apply forallb_forall. intros v Hin. rewrite Forall_forall in Hv.
    specialize (Hv v ltac:(by apply list_elem_of_In)). unfold versionUnchanged, collapseRepeatedSectionSnapshots.
    replace (len (v_content v) <? MIN_PREFIX_COLLAPSE_LENGTH) with true by lia.
    rewrite truncateText_id by (unfold MIN_PREFIX_COLLAPSE_LENGTH, MAX_LOADED_MESSAGE_CHARS in *; lia).
    by rewrite bool_decide_eq_true_2. }
  destruct (reasoning m) as [r|] eqn:Er; cbn [fmap option_fmap option_map negb orb].
  - cbn in Hr. unfold compose in Hr. rewrite (truncateText_id (r_content r)) by done.
    cbn [r_content]. rewrite bool_decide_eq_true_2 by done. cbn [negb]. by rewrite Hp.
  - rewrite bool_decide_eq_true_2 by done. cbn [negb]. by rewrite Hp.
Qed.

Lemma plain_list ms e :
  Forall plain ms -> mapM normalizeStoredMessageForLoad ms e = ((fun m => (m, false)) <$> ms, e).
Proof.
  intros H2. revert e. induction H2 as [|m ms Hm _ IH]; intros e; [done|]. cbn [mapM].
  unfold bind at 1. rewrite plain_normalized by done. unfold bind. by rewrite IH.
Qed.

(** C3: Saving and loading gives a settled conversation back as it was, when it
    has at most a hundred messages of less than 2000 characters and at most
    120000 in all; the text in the store does not change. *)
Theorem save_load_roundtrip store ms e :
  storable ms -> (length ms <= MAX_STORED_MESSAGES)%nat -> Forall plain ms ->
  total_size ms <= MAX_LOADED_MESSAGES_CHARS ->
  result (loadMessages setItem_throws t (saveMessages setItem_throws store ms)) e
  = (Some ms, saveMessages setItem_throws store ms).
Proof.
  intros Hs Hl Hp Ht. rewrite <- (trimMessages_id ms) in Hs by done.
  destruct (load_saved store ms e Hs) as [e' Heq]. cbv zeta in Heq. rewrite Heq. clear Heq.
  rewrite (trimMessages_id ms) in * by done.
  assert ((result (mapM normalizeStoredMessageForLoad ms) e).*1 = ms) as ->.
  { unfold result. rewrite plain_list by done. cbn [fst]. rewrite <- list_fmap_compose.
    unfold compose. cbn. apply list_fmap_id. }
  rewrite (trimMessages_id ms) by done.
  rewrite trimMessagesByContentSize_id by (done || (intros; apply getMessageSize_nonneg)).
  assert (settled ms) as Hset.
  { eapply Forall_impl; [exact Hp|]. intros m [Hm _]. unfold is_pending, isPendingAssistantMessage.
    by rewrite Hm, andb_false_r. }
  destruct (sanitize_shape t ms e') as [[-> _]|(i & m & m' & _ & Hm & Hpm & _)].
  - rewrite !saveMessages_eq by (rewrite trimMessages_id by done; by apply storable_writable). rewrite trimMessages_id by done.
    by rewrite map_set_set.
  - eapply Forall_lookup_1 in Hset; [|exact Hm]. congruence.
Qed.

End Load.

(** The messages shown after a load are the longest run of last messages
    within 120000 characters, and at least one: together with the message
    before them they would exceed the budget. *)
Theorem size_trim_maximal ms :
  exists dropped, let kept := trimMessagesByContentSize ms in
    ms = dropped ++ kept /\
    ((length kept <= 1)%nat \/ total_size kept <= MAX_LOADED_MESSAGES_CHARS) /\
    (ms <> [] -> kept <> []) /\
    (forall m d, dropped = d ++ [m] -> MAX_LOADED_MESSAGES_CHARS < total_size (m :: kept)).
Proof. apply trimMessagesByContentSize_spec. Qed.

(** Collapsing repeated sections either keeps the text, when it is short or
    no heading occurs three times, or drops what comes before the last
    occurrence of a heading that does: the rest starts with that heading, and
    every repeated heading still occurs in it. *)
Theorem collapse_keeps_last_sections text :
  let os := getSectionOccurrences text in
  let r := collapseRepeatedSectionSnapshots text in
  r = text /\ (len text < MIN_PREFIX_COLLAPSE_LENGTH \/ forall o, o ∈ os -> ~ repeated os (heading o)) \/
  exists o, o ∈ os /\ r = drop (index o) text /\ heading o `prefix_of` r /\ repeated os (heading o) /\
    (forall o', o' ∈ os -> heading o' = heading o -> (index o' <= index o)%nat) /\
    (forall o', o' ∈ os -> repeated os (heading o') ->
       exists o'', o'' ∈ os /\ heading o'' = heading o' /\
         heading o'' `prefix_of` drop (index o'' - index o) r).
Proof.
  cbv zeta. unfold collapseRepeatedSectionSnapshots.
  destruct (len text <? MIN_PREFIX_COLLAPSE_LENGTH) eqn:E; bool_hyps; [left; auto|].
  pose proof (findLastRepeated_spec text) as H. cbv zeta in H.
  destruct (findLastRepeatedSectionRunStart text) as [i|]; [right|left; auto].
  destruct H as (o & Ho & <- & Hr & Hlast & Hall). exists o. unfold slice_from.
  split_and!; [done|done|by apply occurrence_text|done|done|].
  intros o' Ho' Hr'. destruct (Hall o' Ho' Hr') as (o'' & Ho'' & Hh & Hle). exists o''.
  split_and!; [done|done|]. rewrite drop_drop.
  replace (index o + (index o'' - index o))%nat with (index o'') by lia. by apply occurrence_text.
Qed.

(** Despite its description, [sanitizeMessagesOnLoad] settles one message
    only: of two that are loading, the first stays so. *)
Theorem sanitize_settles_one_only t ms m1 m2 e :
  is_pending m1 = true -> is_pending m2 = true ->
  result (sanitizeMessagesOnLoad t (ms ++ [m1; m2])) e !! length ms = Some m1.
Proof.
  intros H1 H2.
  destruct (sanitize_shape t (ms ++ [m1; m2]) e) as [[_ Hs]|(i & m & m' & Hf & Hm & _ & -> & _)].
  - unfold settled in Hs. rewrite Forall_app, Forall_cons in Hs. destruct Hs as (_ & Hs & _). congruence.
  - rewrite length_app in Hf. cbn [length] in Hf. replace (length ms + 2)%nat with (S (S (length ms))) in Hf by lia.
    cbn [findLastPending] in Hf. rewrite lookup_app_r in Hf by lia.
    replace (S (length ms) - length ms)%nat with 1%nat in Hf by lia. cbn [lookup list_lookup] in Hf.
    change (isPendingAssistantMessage (Some m2)) with (is_pending m2) in Hf. rewrite H2 in Hf.
    injection Hf as <-. rewrite list_lookup_insert_ne by lia.
    rewrite lookup_app_r by lia. by rewrite Nat.sub_diag.
Qed.

(** ** Witnesses *)

Definition sample_message (k : jsstr) (r : MessageRole) (text : jsstr) (st : option MessageStatus) : Message :=
  mkMessage k r [mkVersion (js "v") text] (Some 1700000000000) None None None None None None None None st None.

Definition sample_settled : list Message :=
  [sample_message (js "k1") RoleUser (js "hi") None;
   sample_message (js "k2") RoleAssistant (js "hello") (Some COMPLETE)].

Definition no_quota (k v : jsstr) : bool := false.
Definition id_t (s : jsstr) : jsstr := s.

(** The executable part of [storable]. *)
Lemma storable_check ms :
  Forall (fun m => versions m <> []) ms ->
  JsonText.wf_jsonb (to_json ms) = true -> (len (saved_text ms) <=? MAX_STORED_MESSAGES_BYTES) = true ->
  storable no_quota ms.
Proof.
  intros Hv Hw Hl. split_and!; [exact Hv|by apply JsonText.wf_jsonb_sound|done|]. by apply Z.leb_le.
Qed.

Lemma save_load_roundtrip_witness :
  result (loadMessages no_quota id_t (saveMessages no_quota [] sample_settled)) (sample_env 0)
  = (Some sample_settled, saveMessages no_quota [] sample_settled).
Proof.
  apply (save_load_roundtrip no_quota id_t [] sample_settled (sample_env 0)).
  - apply storable_check; [repeat constructor; discriminate|vm_compute; reflexivity|vm_compute; reflexivity].
  - apply Nat.leb_le. vm_compute. reflexivity.
  - repeat constructor; apply Z.leb_le; vm_compute; reflexivity.
  - apply Z.leb_le. vm_compute. reflexivity.
Defined.

Lemma sanitize_settles_one_only_witness :
  result (sanitizeMessagesOnLoad id_t
    ([] ++ [sample_message (js "k2") RoleAssistant [] (Some LOADING);
            sample_message (js "k3") RoleAssistant [] (Some LOADING)])) (sample_env 0) !! 0%nat
  = Some (sample_message (js "k2") RoleAssistant [] (Some LOADING)).
Proof. apply (sanitize_settles_one_only id_t []); reflexivity. Defined.

End StorageFacts.
