(* ===== verification/PlaygroundState.v ===== *)
(** * Playground state and its persistence

    The configuration schemas of [storage-schema.ts], the initial state of
    [lib/state/playground-state-utils.ts] and the hook
    [hooks/use-playground-state.ts]: the messages are loaded once after the
    page is mounted, and every later update is saved after a delay that each
    update restarts, or when the page is left. *)

From S2P Require Import Prelude JsString JsCollections Json JsonText Effects ThinkTags PlaygroundMessage PlaygroundConfig Storage StorageFacts.

Module PlaygroundState.
Import Playground PlaygroundConfig Storage StorageFacts.

(** ** Partial configurations *)

Record PartialConfig := mkPartialConfig {
  pc_model : option jsstr;
  pc_group : option jsstr;
  pc_temperature : option Json.jnum;
  pc_top_p : option Json.jnum;
  pc_max_tokens : option Json.jnum;
  pc_frequency_penalty : option Json.jnum;
  pc_presence_penalty : option Json.jnum;
  pc_seed : option (option Json.jnum);
  pc_stream : option bool }.

Definition empty_config : PartialConfig := mkPartialConfig None None None None None None None None None.

Definition playgroundConfigSchema (v : Json.json) : option PartialConfig :=
  match z_object v with
  | None => None
  | Some o =>
      match optional z_string o (js "model"), optional z_string o (js "group"),
            optional z_number o (js "temperature"), optional z_number o (js "top_p"),
            optional z_number o (js "max_tokens"), optional z_number o (js "frequency_penalty"),
            optional z_number o (js "presence_penalty"), optional (z_nullable z_number) o (js "seed"),
            optional z_boolean o (js "stream") with
      | Some a, Some b, Some c, Some d, Some e, Some f, Some g, Some h, Some i =>
          Some (mkPartialConfig a b c d e f g h i)
      | _, _, _, _, _, _, _, _, _ => None
      end
  end.

Definition seed_json (s : option Json.jnum) : Json.json :=
  match s with None => Json.JNull | Some n => Json.JNum n end.

Definition config_json (c : PartialConfig) : Json.json :=
  members [(js "model", Json.JStr <$> pc_model c); (js "group", Json.JStr <$> pc_group c);
           (js "temperature", Json.JNum <$> pc_temperature c); (js "top_p", Json.JNum <$> pc_top_p c);
           (js "max_tokens", Json.JNum <$> pc_max_tokens c);
           (js "frequency_penalty", Json.JNum <$> pc_frequency_penalty c);
           (js "presence_penalty", Json.JNum <$> pc_presence_penalty c);
           (js "seed", seed_json <$> pc_seed c); (js "stream", Json.JBool <$> pc_stream c)].

#[export] Instance config_schema : Schema PartialConfig := {
  schema_parse := playgroundConfigSchema; to_json := config_json }.

Record PartialEnabled := mkPartialEnabled {
  pe_temperature : option bool;
  pe_top_p : option bool;
  pe_max_tokens : option bool;
  pe_frequency_penalty : option bool;
  pe_presence_penalty : option bool;
  pe_seed : option bool }.

Definition empty_enabled : PartialEnabled := mkPartialEnabled None None None None None None.

Definition parameterEnabledSchema (v : Json.json) : option PartialEnabled :=
  match z_object v with
  | None => None
  | Some o =>
      match optional z_boolean o (js "temperature"), optional z_boolean o (js "top_p"),
            optional z_boolean o (js "max_tokens"), optional z_boolean o (js "frequency_penalty"),
            optional z_boolean o (js "presence_penalty"), optional z_boolean o (js "seed") with
      | Some a, Some b, Some c, Some d, Some e, Some f => Some (mkPartialEnabled a b c d e f)
      | _, _, _, _, _, _ => None
      end
  end.

Definition enabled_json (c : PartialEnabled) : Json.json :=
  members [(js "temperature", Json.JBool <$> pe_temperature c); (js "top_p", Json.JBool <$> pe_top_p c);
           (js "max_tokens", Json.JBool <$> pe_max_tokens c);
           (js "frequency_penalty", Json.JBool <$> pe_frequency_penalty c);
           (js "presence_penalty", Json.JBool <$> pe_presence_penalty c);
           (js "seed", Json.JBool <$> pe_seed c)].

#[export] Instance enabled_schema : Schema PartialEnabled := {
  schema_parse := parameterEnabledSchema; to_json := enabled_json }.

(** A whole configuration as a partial one. *)
Definition partial_config (c : PlaygroundConfig) : PartialConfig :=
  mkPartialConfig (Some (model c)) (Some (group c)) (Some (temperature c)) (Some (top_p c))
    (Some (max_tokens c)) (Some (frequency_penalty c)) (Some (presence_penalty c)) (Some (seed c))
    (Some (stream c)).

Definition partial_enabled (p : ParameterEnabled) : PartialEnabled :=
  mkPartialEnabled (Some (en_temperature p)) (Some (en_top_p p)) (Some (en_max_tokens p))
    (Some (en_frequency_penalty p)) (Some (en_presence_penalty p)) (Some (en_seed p)).

(** [{ ...d, ...c }] *)
Definition merge_config (d : PlaygroundConfig) (c : PartialConfig) : PlaygroundConfig :=
  mkConfig (pc_model c ?? model d) (pc_group c ?? group d) (pc_temperature c ?? temperature d)
    (pc_top_p c ?? top_p d) (pc_max_tokens c ?? max_tokens d)
    (pc_frequency_penalty c ?? frequency_penalty d) (pc_presence_penalty c ?? presence_penalty d)
    (pc_seed c ?? seed d) (pc_stream c ?? stream d).

Definition merge_enabled (d : ParameterEnabled) (p : PartialEnabled) : ParameterEnabled :=
  mkEnabled (pe_temperature p ?? en_temperature d) (pe_top_p p ?? en_top_p d)
    (pe_max_tokens p ?? en_max_tokens d) (pe_frequency_penalty p ?? en_frequency_penalty d)
    (pe_presence_penalty p ?? en_presence_penalty d) (pe_seed p ?? en_seed d).

(** ** playground-state-utils.ts *)

Definition loadConfig (store : LocalStorage) : PartialConfig :=
  loadValue empty_config store STORAGE_KEYS_CONFIG.

Definition loadParameterEnabled (store : LocalStorage) : PartialEnabled :=
  loadValue empty_enabled store STORAGE_KEYS_PARAMETER_ENABLED.

Definition getInitialPlaygroundConfig (store : LocalStorage) : PlaygroundConfig :=
  merge_config DEFAULT_CONFIG (loadConfig store).

Definition getInitialParameterEnabled (store : LocalStorage) : ParameterEnabled :=
  merge_enabled DEFAULT_PARAMETER_ENABLED (loadParameterEnabled store).

(** ** use-playground-state.ts *)

Section Hook.
Variable setItem_throws : jsstr -> jsstr -> bool.
Variable t : jsstr -> jsstr.

Definition saveConfig (store : LocalStorage) (c : PartialConfig) : LocalStorage :=
  saveValue setItem_throws store STORAGE_KEYS_CONFIG c.

Definition saveParameterEnabled (store : LocalStorage) (p : PartialEnabled) : LocalStorage :=
  saveValue setItem_throws store STORAGE_KEYS_PARAMETER_ENABLED p.

Record PageState := mkPage {
  config : PlaygroundConfig;
  parameterEnabled : ParameterEnabled;
  page_messages : list Message;
  isLoadingMessages : bool;
  messagesSaveTimer : bool;
  latestMessages : list Message;
  hasLoadedMessages : bool;
  store : LocalStorage;
  page_env : Env }.

(** The state when the page is mounted. *)
Definition mount (st : LocalStorage) (e : Env) : PageState :=
  mkPage (getInitialPlaygroundConfig st) (getInitialParameterEnabled st) [] true false [] false st e.

(** [persistMessages]: the timer is restarted. *)
Definition persistMessages (s : PageState) (messagesToSave : list Message) : PageState :=
  mkPage (config s) (parameterEnabled s) (page_messages s) (isLoadingMessages s)
    (if hasLoadedMessages s then true else messagesSaveTimer s) messagesToSave (hasLoadedMessages s)
    (store s) (page_env s).

Definition updateMessages (s : PageState) (updater : list Message -> M (list Message)) : PageState :=
  let '(newMessages, e) := updater (page_messages s) (page_env s) in
  let s := persistMessages s newMessages in
  mkPage (config s) (parameterEnabled s) newMessages (isLoadingMessages s) (messagesSaveTimer s)
    (latestMessages s) (hasLoadedMessages s) (store s) e.

Definition clearMessages (s : PageState) : PageState := updateMessages s (fun _ => ret []).

(** The timeout of the first effect. *)
Definition loadEffect (s : PageState) : PageState :=
  let '((loaded, st), e) := loadMessages setItem_throws t (store s) (page_env s) in
  let loadedMessages := loaded ?? [] in
  mkPage (config s) (parameterEnabled s) loadedMessages false (messagesSaveTimer s) loadedMessages true
    st e.

Definition save_latest (s : PageState) : PageState :=
  mkPage (config s) (parameterEnabled s) (page_messages s) (isLoadingMessages s) false
    (latestMessages s) (hasLoadedMessages s) (saveMessages setItem_throws (store s) (latestMessages s))
    (page_env s).

(** The save timer fires. *)
Definition saveTimerFires (s : PageState) : PageState :=
  if messagesSaveTimer s then save_latest s else s.

(** The page is left: the cleanup of the second effect. *)
Definition unmount (s : PageState) : PageState :=
  if messagesSaveTimer s then save_latest s else s.

Definition updateConfig (s : PageState) (f : PlaygroundConfig -> PlaygroundConfig) : PageState :=
  let updated := f (config s) in
  mkPage updated (parameterEnabled s) (page_messages s) (isLoadingMessages s) (messagesSaveTimer s)
    (latestMessages s) (hasLoadedMessages s) (saveConfig (store s) (partial_config updated)) (page_env s).

Definition updateParameterEnabled (s : PageState) (f : ParameterEnabled -> ParameterEnabled) : PageState :=
  let updated := f (parameterEnabled s) in
  mkPage (config s) updated (page_messages s) (isLoadingMessages s) (messagesSaveTimer s)
    (latestMessages s) (hasLoadedMessages s) (saveParameterEnabled (store s) (partial_enabled updated))
    (page_env s).

Definition resetConfig (s : PageState) : PageState :=
  let st := saveConfig (store s) (partial_config DEFAULT_CONFIG) in
  let st := saveParameterEnabled st (partial_enabled DEFAULT_PARAMETER_ENABLED) in
  mkPage DEFAULT_CONFIG DEFAULT_PARAMETER_ENABLED (page_messages s) (isLoadingMessages s)
    (messagesSaveTimer s) (latestMessages s) (hasLoadedMessages s) st (page_env s).

(** ** Runs of the page *)

Inductive PageEvent :=
| PgUpdate (updater : list Message -> M (list Message))
| PgSaveTimer
| PgConfig (f : PlaygroundConfig -> PlaygroundConfig)
| PgEnabled (f : ParameterEnabled -> ParameterEnabled)
| PgReset.

Definition page_event (s : PageState) (ev : PageEvent) : PageState :=
  match ev with
  | PgUpdate u => updateMessages s u
  | PgSaveTimer => saveTimerFires s
  | PgConfig f => updateConfig s f
  | PgEnabled f => updateParameterEnabled s f
  | PgReset => resetConfig s
  end.

Definition page_run (s : PageState) (evs : list PageEvent) : PageState := fold_left page_event evs s.

(** What the store holds for the messages is what saving [ms] writes. *)
Definition holds (st : LocalStorage) (ms : list Message) : Prop :=
  writable setItem_throws (trimMessages ms) ->
  map_get st STORAGE_KEYS_MESSAGES = Some (saved_text (trimMessages ms)).

Record durable (s : PageState) : Prop := {
  du_loaded : hasLoadedMessages s = true;
  du_latest : latestMessages s = page_messages s;
  du_saved : messagesSaveTimer s = true \/ holds (store s) (page_messages s) }.

Lemma saveValue_other {A} `{Schema A} st k (v : A) k' :
  k <> k' -> map_get (saveValue setItem_throws st k v) k' = map_get st k'.
Proof.
  intros Hne. unfold saveValue. destruct (schema_parse (to_json v)); [|done].
  unfold writeStoredValue, setItem. destruct (setItem_throws _ _); [done|]. by apply map_get_set_ne.
Qed.

Lemma save_holds st ms : holds (saveMessages setItem_throws st ms) ms.
Proof. intros Hs. rewrite saveMessages_eq by done. apply map_get_set_eq. Qed.

Lemma holds_other st st' ms :
  map_get st' STORAGE_KEYS_MESSAGES = map_get st STORAGE_KEYS_MESSAGES -> holds st ms -> holds st' ms.
Proof. unfold holds. by intros ->. Qed.

Lemma page_event_durable s ev : durable s -> durable (page_event s ev).
Proof.
  intros [Hl Hlt Hs]. destruct ev; cbn [page_event].
  - unfold updateMessages. destruct (updater _ _) as [ms e].
    split; [done|done|]. left. cbn. by rewrite Hl.
  - unfold saveTimerFires. destruct (messagesSaveTimer s) eqn:E; [|split; [done|done|by rewrite E]].
    split; [done|done|]. right. cbn. rewrite Hlt. apply save_holds.
  - split; [done|done|]. destruct Hs as [Hs|Hs]; [by left|right].
    eapply holds_other; [|exact Hs]. by apply saveValue_other.
  - split; [done|done|]. destruct Hs as [Hs|Hs]; [by left|right].
    eapply holds_other; [|exact Hs]. by apply saveValue_other.
  - split; [done|done|]. destruct Hs as [Hs|Hs]; [by left|right].
    eapply holds_other; [|exact Hs]. cbn. unfold saveParameterEnabled, saveConfig.
    by rewrite !saveValue_other.
Qed.

Lemma page_run_durable s evs : durable s -> durable (page_run s evs).
Proof.
  revert s. induction evs as [|ev evs IH]; intros s H; [done|]. cbn. apply IH. by apply page_event_durable.
Qed.

Lemma update_durable s u : hasLoadedMessages s = true -> durable (updateMessages s u).
Proof.
  intros Hl. unfold updateMessages. destruct (u _ _) as [ms e]. split; [done|done|]. left. cbn.
  by rewrite Hl.
Qed.

(** ** Properties *)

(** C4: No update is lost: once the messages have been loaded, after any update
    and whatever follows (more updates, the save timer, changes of the
    configuration), leaving the page leaves in the store the text of the last
    hundred of the messages shown, provided that each of them has a version and
    that the browser accepts the write of that text. *)
Theorem no_update_lost s u evs :
  hasLoadedMessages s = true ->
  let s' := page_run (updateMessages s u) evs in
  Forall (fun m => versions m <> []) (trimMessages (page_messages s')) ->
  setItem_throws STORAGE_KEYS_MESSAGES (saved_text (trimMessages (page_messages s'))) = false ->
  map_get (store (unmount s')) STORAGE_KEYS_MESSAGES
  = Some (saved_text (trimMessages (page_messages s'))).
Proof.
  intros Hl s' Hv Hq. assert (writable setItem_throws (trimMessages (page_messages s'))) as Hs by by split.
  destruct (page_run_durable (updateMessages s u) evs) as [_ Hlt Hsv].
  { by apply update_durable. }
  fold s' in Hlt, Hsv. unfold unmount. destruct (messagesSaveTimer s') eqn:E.
  - cbn. rewrite Hlt. by apply save_holds.
  - destruct Hsv as [?|Hsv]; [done|]. by apply Hsv.
Qed.

End Hook.

(** ** Witness *)

Definition sample_page : PageState := loadEffect no_quota id_t (mount [] (sample_env 0)).

Lemma no_update_lost_witness :
  map_get (store (unmount no_quota (page_run no_quota
    (updateMessages sample_page (fun _ => ret sample_settled)) [PgReset]))) STORAGE_KEYS_MESSAGES
  = Some (saved_text sample_settled).
Proof.
  apply (no_update_lost no_quota sample_page (fun _ => ret sample_settled) [PgReset]).
  - vm_compute. reflexivity.
  - repeat constructor; discriminate.
  - reflexivity.
Defined.

End PlaygroundState.
