(* ===== verification/Flow.v ===== *)
(** * Dashboard flow graph

    Model of [features/dashboard/lib/flow.ts] and of the flow types of
    [features/dashboard/types.ts]: from usage rows to the nodes and links of a
    Sankey diagram, with filters, the limit to the top nodes, highlighting,
    masking, shares and display colours.

    The server's counters are integers; shares and opacities are rationals
    where JavaScript has doubles.  [String.prototype.localeCompare],
    [Intl.NumberFormat] and the colour schemes of VChart are parameters. *)

From Stdlib Require Import QArith Qround.
From S2P Require Import Prelude JsString JsCollections.
#[local] Open Scope Z_scope.

Module Flow.

(** ** types.ts *)

(** Missing members are [None]; the others were numbers or strings. *)
Record FlowQuotaDataItem := mkRow {
  user_id : option Z; username : option jsstr; node_name : option jsstr; use_group : option jsstr;
  token_id : option Z; token_name : option jsstr; channel_id : option Z; channel_name : option jsstr;
  model_name : option jsstr; token_used : option Z; count : option Z; quota : option Z }.

Inductive FlowMetric := MetricQuota | MetricTokens | MetricRequests.
Inductive FlowOverflowMode := OverflowAggregate | OverflowHide.
Inductive FlowRole := RoleUser | RoleAdmin | RoleRoot.
Inductive FlowNodeKind := KUser | KNode | KToken | KGroup | KModel | KChannel.

#[export] Instance FlowNodeKind_eq_dec : EqDecision FlowNodeKind.
Proof. solve_decision. Defined.

#[export] Instance FlowOverflowMode_eq_dec : EqDecision FlowOverflowMode.
Proof. solve_decision. Defined.

Record FlowNodeFilter := mkNodeFilter { f_kind : FlowNodeKind; f_id : jsstr }.
Record FlowLinkSelection := mkLinkSelection { sel_source : jsstr; sel_target : jsstr }.

Record DashboardFlowNode := mkFlowNode {
  n_id : jsstr; n_label : jsstr; n_kind : FlowNodeKind; n_value : Z; n_requests : Z; n_quota : Z;
  n_tokens : Z; n_color : jsstr; n_colorKey : jsstr; n_highlighted : option bool; n_dimmed : option bool }.

Record DashboardFlowLink := mkFlowLink {
  l_source : jsstr; l_target : jsstr; l_value : Z; l_requests : Z; l_quota : Z; l_tokens : Z;
  l_sourceLabel : jsstr; l_targetLabel : jsstr; l_color : jsstr; l_linkColor : jsstr; l_linkAlpha : Q;
  l_hoverColor : jsstr; l_colorKey : jsstr; l_share : Q; l_highlighted : option bool;
  l_dimmed : option bool }.

Record DashboardFlowGraph := mkGraph { nodes : list DashboardFlowNode; links : list DashboardFlowLink }.
Record FlowSummary := mkSummary { s_quota : Z; s_tokens : Z; s_requests : Z }.

Record FlowUserFilterOption := mkUserOption {
  uo_value : jsstr; uo_label : jsstr; uo_valueLabel : jsstr; uo_valueRaw : Z; uo_color : jsstr }.
Record FlowNodeFilterOption := mkNodeOption {
  no_kind : FlowNodeKind; no_value : jsstr; no_label : jsstr; no_valueLabel : jsstr; no_valueRaw : Z;
  no_color : jsstr }.
Record FlowFilterOptions := mkFilterOptions {
  fo_users : list FlowUserFilterOption; fo_nodes : list FlowNodeFilterOption }.

Record FlowBuildOptions := mkBuildOptions {
  role : option FlowRole; selectedUsers : option (list jsstr);
  selectedNodes : option (list FlowNodeFilter); activeNode : option FlowNodeFilter;
  activeLink : option FlowLinkSelection; colorPaletteOpt : option (list jsstr);
  visibleStages : option (list FlowNodeKind); topNodeLimit : option Z;
  overflowMode : option FlowOverflowMode; maskSensitive : bool;
  deletedTokenLabelOpt : option (Z -> jsstr); otherNodeLabel : option (FlowNodeKind -> jsstr) }.

Record ProcessedFlowData := mkProcessed {
  summary : FlowSummary; flow : DashboardFlowGraph; filterOptions : FlowFilterOptions }.

(** ** flow.ts: types and constants *)

Record FlowMetrics := mkMetrics { m_quota : Z; m_tokens : Z; m_requests : Z }.
Record FlowPathNode := mkPathNode { pn_id : jsstr; pn_label : jsstr; pn_kind : FlowNodeKind }.
Record PreparedFlowPath := mkPrepared { path : list FlowPathNode; metrics : FlowMetrics }.
Record FlowNodeRank := mkRank { r_node : FlowPathNode; r_value : Z }.
Record FlowHighlightSets := mkHighlight { h_nodes : list jsstr; h_links : list jsstr }.

(** [FlowPathContext] *)
Definition FlowPathContext : Type := option (Z -> jsstr).
Definition EMPTY_FLOW_PATH_CONTEXT : FlowPathContext := None.

Definition DEFAULT_FLOW_CHART_COLOR : jsstr := js "#1664FF".

Definition kind_text (k : FlowNodeKind) : jsstr :=
  match k with
  | KUser => js "user" | KNode => js "node" | KToken => js "token" | KGroup => js "group"
  | KModel => js "model" | KChannel => js "channel"
  end.

Definition OTHER_FLOW_NODE_IDS (k : FlowNodeKind) : jsstr :=
  match k with
  | KUser => js "user:__other__" | KNode => js "node:__other__" | KToken => js "token:__other__"
  | KGroup => js "group:__other__" | KModel => js "model:__other__" | KChannel => js "channel:__other__"
  end.

Definition DEFAULT_OTHER_FLOW_NODE_LABELS (k : FlowNodeKind) : jsstr :=
  match k with
  | KUser => js "Other users" | KNode => js "Other nodes" | KToken => js "Other tokens"
  | KGroup => js "Other groups" | KModel => js "Other models" | KChannel => js "Other channels"
  end.

Definition FLOW_NODE_KINDS : list FlowNodeKind := [KUser; KNode; KToken; KGroup; KModel; KChannel].

Definition SENSITIVE_FLOW_KINDS : list FlowNodeKind := [KUser; KNode; KToken; KGroup; KChannel].

Definition OTHER_FLOW_NODE_ID_SET : list jsstr := map OTHER_FLOW_NODE_IDS FLOW_NODE_KINDS.

(** ** Rows *)

Definition numberValue (value : option Z) : Z := value ?? 0.

(** [s || d] on an optional string. *)
Definition text_or (s : option jsstr) (d : jsstr) : jsstr :=
  match s with Some s => if truthy s then s else d | None => d end.

Definition rowMetrics (row : FlowQuotaDataItem) : FlowMetrics :=
  mkMetrics (numberValue (quota row)) (numberValue (token_used row)) (numberValue (count row)).

Definition metricValue (m : FlowMetrics) (metric : FlowMetric) : Z :=
  match metric with
  | MetricRequests => m_requests m
  | MetricTokens => m_tokens m
  | MetricQuota => m_quota m
  end.

Definition userNode (row : FlowQuotaDataItem) : FlowPathNode :=
  let userID := numberValue (user_id row) in
  mkPathNode
    (if 0 <? userID then js "user:" ++ showZ userID
     else js "user:" ++ text_or (username row) (js "unknown"))
    (text_or (username row)
       (if 0 <? userID then js "user-" ++ showZ userID else js "Unknown User"))
    KUser.

Definition nodeNameNode (row : FlowQuotaDataItem) : FlowPathNode :=
  let nodeName := text_or (node_name row) (js "default-node") in
  mkPathNode (js "node:" ++ nodeName) nodeName KNode.

Definition deletedTokenLabel (tokenID : Z) (ctx : FlowPathContext) : jsstr :=
  if tokenID <=? 0 then js "Unknown Token"
  else (fun f => f tokenID) <$> ctx ?? (js "token-" ++ showZ tokenID).

Definition tokenNode (row : FlowQuotaDataItem) (ctx : FlowPathContext) : FlowPathNode :=
  let tokenID := numberValue (token_id row) in
  mkPathNode
    (if 0 <? tokenID then js "token:" ++ showZ tokenID
     else js "token:" ++ text_or (token_name row) (js "unknown"))
    (text_or (token_name row) (deletedTokenLabel tokenID ctx))
    KToken.

Definition groupNode (row : FlowQuotaDataItem) : FlowPathNode :=
  let useGroup := text_or (use_group row) (js "unknown") in
  mkPathNode (js "group:" ++ useGroup) useGroup KGroup.

Definition modelNode (row : FlowQuotaDataItem) : FlowPathNode :=
  let model := text_or (model_name row) (js "unknown") in
  mkPathNode (js "model:" ++ model) (text_or (model_name row) (js "Unknown Model")) KModel.

Definition channelNode (row : FlowQuotaDataItem) : FlowPathNode :=
  let channelID := numberValue (channel_id row) in
  mkPathNode
    (if 0 <? channelID then js "channel:" ++ showZ channelID
     else js "channel:" ++ text_or (channel_name row) (js "unknown"))
    (text_or (channel_name row)
       (if 0 <? channelID then js "channel-" ++ showZ channelID else js "Unknown"))
    KChannel.

Definition NODE_BUILDERS (k : FlowNodeKind) (row : FlowQuotaDataItem) (ctx : FlowPathContext)
    : FlowPathNode :=
  match k with
  | KUser => userNode row | KNode => nodeNameNode row | KToken => tokenNode row ctx
  | KGroup => groupNode row | KModel => modelNode row | KChannel => channelNode row
  end.

(** ** Stages *)

Definition ROLE_FLOW_STAGES (r : FlowRole) : list FlowNodeKind :=
  match r with
  | RoleRoot => [KUser; KNode; KToken; KGroup; KModel; KChannel]
  | RoleAdmin => [KUser; KGroup; KModel; KChannel]
  | RoleUser => [KToken; KGroup; KModel]
  end.

Definition MIN_FLOW_STAGES : nat := 2.

Definition getFlowStages (r : FlowRole) : list FlowNodeKind := ROLE_FLOW_STAGES r.

Definition resolveVisibleStages (r : FlowRole) (visible : option (list FlowNodeKind))
    : list FlowNodeKind :=
  let stages := getFlowStages r in
  match visible with
  | None => stages
  | Some vs =>
      let filtered := List.filter (fun s => bool_decide (s ∈ vs)) stages in
      if (MIN_FLOW_STAGES <=? length filtered)%nat then filtered else stages
  end.

Definition flowPathForStages (row : FlowQuotaDataItem) (stages : list FlowNodeKind)
    (ctx : FlowPathContext) : list FlowPathNode :=
  map (fun stage => NODE_BUILDERS stage row ctx) stages.

(** ** Filters *)

Definition filterRows (rows : list FlowQuotaDataItem) (users : option (list jsstr))
    : list FlowQuotaDataItem :=
  let selected := set_of (users ?? []) in
  if (length selected =? 0)%nat then rows
  else List.filter (fun row => bool_decide (pn_id (userNode row) ∈ selected)) rows.

Definition nodeFilterKey (filter : FlowNodeFilter) : jsstr := kind_text (f_kind filter) ++ 0 :: f_id filter.

(** [Map<FlowNodeKind, Set<string>>] *)
Definition KindSets : Type := list (FlowNodeKind * list jsstr).

Definition normalizeSelectedNodeFilters (selected : option (list FlowNodeFilter))
    (stages : list FlowNodeKind) : KindSets :=
  fold_left
    (fun filters filter =>
       if negb (bool_decide (f_kind filter ∈ stages)) then filters
       else map_set filters (f_kind filter) (set_add (map_get filters (f_kind filter) ?? []) (f_id filter)))
    (selected ?? []) [].

Definition pathNodesByKind (p : list FlowPathNode) : KindSets :=
  fold_left (fun m node => map_set m (pn_kind node) (set_add (map_get m (pn_kind node) ?? []) (pn_id node)))
    p [].

Definition pathMatchesNodeFilters (p : list FlowPathNode) (filters : KindSets) : bool :=
  if (length filters =? 0)%nat then true
  else
    let byKind := pathNodesByKind p in
    forallb
      (fun '(kind, selectedIds) =>
         match map_get byKind kind with
         | None => false
         | Some pathIds => existsb (fun id => bool_decide (id ∈ pathIds)) selectedIds
         end) filters.

Definition filterRowsByNodes (rows : list FlowQuotaDataItem) (selected : option (list FlowNodeFilter))
    (stages : list FlowNodeKind) (ctx : FlowPathContext) : list FlowQuotaDataItem :=
  let filters := normalizeSelectedNodeFilters selected stages in
  if (length filters =? 0)%nat then rows
  else List.filter (fun row => pathMatchesNodeFilters (flowPathForStages row stages ctx) filters) rows.

Definition selectedNodeFiltersExceptKind (selected : option (list FlowNodeFilter)) (kind : FlowNodeKind)
    : option (list FlowNodeFilter) :=
  let filtered := List.filter (fun f => negb (bool_decide (f_kind f = kind))) (selected ?? []) in
  if (0 <? length filtered)%nat then Some filtered else None.

(** ** Nodes and links *)

Definition NUL : jsstr := [0].

Definition linkKey (source target : jsstr) : jsstr := source ++ NUL ++ target.
Definition linkStableKey (l : DashboardFlowLink) : jsstr := linkKey (l_source l) (l_target l).
Definition pathLinkKey (source target : FlowPathNode) : jsstr := linkKey (pn_id source) (pn_id target).

Definition addNode (m : list (jsstr * DashboardFlowNode)) (pathNode : FlowPathNode) (ms : FlowMetrics)
    (metric : FlowMetric) (color colorKey : jsstr) : list (jsstr * DashboardFlowNode) :=
  let previous := map_get m (pn_id pathNode) ??
    mkFlowNode (pn_id pathNode) (pn_label pathNode) (pn_kind pathNode) 0 0 0 0 color colorKey None None in
  map_set m (pn_id pathNode)
    (mkFlowNode (n_id previous) (n_label previous) (n_kind previous)
       (n_value previous + metricValue ms metric) (n_requests previous + m_requests ms)
       (n_quota previous + m_quota ms) (n_tokens previous + m_tokens ms) (n_color previous)
       (n_colorKey previous) (n_highlighted previous) (n_dimmed previous)).

Definition addLink (m : list (jsstr * DashboardFlowLink)) (source target : FlowPathNode)
    (ms : FlowMetrics) (metric : FlowMetric) (color colorKey : jsstr)
    : list (jsstr * DashboardFlowLink) :=
  let key := pathLinkKey source target in
  let previous := map_get m key ??
    mkFlowLink (pn_id source) (pn_id target) 0 0 0 0 (pn_label source) (pn_label target) color color 1
      color colorKey 0 None None in
  map_set m key
    (mkFlowLink (l_source previous) (l_target previous) (l_value previous + metricValue ms metric)
       (l_requests previous + m_requests ms) (l_quota previous + m_quota ms)
       (l_tokens previous + m_tokens ms) (l_sourceLabel previous) (l_targetLabel previous)
       (l_color previous) (l_linkColor previous) (l_linkAlpha previous) (l_hoverColor previous)
       (l_colorKey previous) (l_share previous) (l_highlighted previous) (l_dimmed previous)).

(** The consecutive pairs of a path. *)
Fixpoint pairs {A} (l : list A) : list (A * A) :=
  match l with
  | [] => []
  | x :: l' => match l' with [] => [] | y :: _ => (x, y) :: pairs l' end
  end.

Definition buildSummary (rows : list FlowQuotaDataItem) : FlowSummary :=
  fold_left
    (fun s row =>
       let m := rowMetrics row in
       mkSummary (s_quota s + m_quota m) (s_tokens s + m_tokens m) (s_requests s + m_requests m))
    rows (mkSummary 0 0 0).

(** ** The limit to the top nodes *)

(** The limits are integers. *)
Definition normalizeTopNodeLimit (limit : option Z) : option nat :=
  match limit with
  | None => None
  | Some parsed => if 0 <? parsed then Some (Z.to_nat parsed) else None
  end.

Definition otherFlowNode (kind : FlowNodeKind) (labeler : option (FlowNodeKind -> jsstr)) : FlowPathNode :=
  mkPathNode (OTHER_FLOW_NODE_IDS kind)
    ((fun f => f kind) <$> labeler ?? DEFAULT_OTHER_FLOW_NODE_LABELS kind) kind.

(** [Map<FlowNodeKind, Map<string, FlowNodeRank>>] *)
Definition KindRanks : Type := list (FlowNodeKind * list (jsstr * FlowNodeRank)).

Definition addRank (value : Z) (totals : KindRanks) (node : FlowPathNode) : KindRanks :=
  match map_get totals (pn_kind node) with
  | None => totals
  | Some stageTotals =>
      let current := map_get stageTotals (pn_id node) ?? mkRank node 0 in
      map_set totals (pn_kind node)
        (map_set stageTotals (pn_id node) (mkRank (r_node current) (r_value current + value)))
  end.

Definition nodeTotals (rows : list FlowQuotaDataItem) (metric : FlowMetric) (stages : list FlowNodeKind)
    (ctx : FlowPathContext) : KindRanks :=
  fold_left
    (fun totals row =>
       fold_left (addRank (metricValue (rowMetrics row) metric)) (flowPathForStages row stages ctx) totals)
    rows (fold_left (fun m stage => map_set m stage []) stages []).

Definition isTopFlowNode (node : FlowPathNode) (topNodeSets : option KindSets) : bool :=
  match topNodeSets ≫= (fun s => map_get s (pn_kind node)) with
  | None => true
  | Some topNodes => bool_decide (pn_id node ∈ topNodes)
  end.

Definition applyTopNodeLimit (p : list FlowPathNode) (topNodeSets : option KindSets)
    (mode : FlowOverflowMode) (labeler : option (FlowNodeKind -> jsstr)) : option (list FlowPathNode) :=
  match topNodeSets with
  | None => Some p
  | Some _ =>
      if negb (existsb (fun node => negb (isTopFlowNode node topNodeSets)) p) then Some p
      else
        match mode with
        | OverflowHide => None
        | OverflowAggregate =>
            Some (map (fun node =>
              if isTopFlowNode node topNodeSets then node else otherFlowNode (pn_kind node) labeler) p)
        end
  end.

(** ** Highlighting *)

Definition pathContainsFlowNode (p : list FlowPathNode) (f : FlowNodeFilter) : bool :=
  existsb (fun node => bool_decide (pn_kind node = f_kind f) && bool_decide (pn_id node = f_id f)) p.

Definition pathContainsFlowLink (p : list FlowPathNode) (l : FlowLinkSelection) : bool :=
  existsb (fun '(a, b) => bool_decide (pn_id a = sel_source l) && bool_decide (pn_id b = sel_target l))
    (pairs p).

Definition matchesPath (active : option FlowNodeFilter) (link : option FlowLinkSelection)
    (p : list FlowPathNode) : bool :=
  match link with
  | Some l => pathContainsFlowLink p l
  | None => match active with Some n => pathContainsFlowNode p n | None => false end
  end.

Definition buildFlowHighlightSets (prepared : list PreparedFlowPath) (active : option FlowNodeFilter)
    (link : option FlowLinkSelection) (stages : list FlowNodeKind) : option FlowHighlightSets :=
  let nodeActive := match active with Some n => bool_decide (f_kind n ∈ stages) | None => false end in
  if negb nodeActive && bool_decide (link = None) then None
  else
    let highlighted := List.filter (fun p => matchesPath active link (path p)) prepared in
    let hn := set_of (concat (map (fun p => map pn_id (path p)) highlighted)) in
    let hl := set_of (concat (map (fun p => map (fun '(a, b) => pathLinkKey a b) (pairs (path p)))
                                highlighted)) in
    if (length hn =? 0)%nat then None else Some (mkHighlight hn hl).

Definition highlightNode (sets : FlowHighlightSets) (n : DashboardFlowNode) : DashboardFlowNode :=
  let h := bool_decide (n_id n ∈ h_nodes sets) in
  mkFlowNode (n_id n) (n_label n) (n_kind n) (n_value n) (n_requests n) (n_quota n) (n_tokens n)
    (n_color n) (n_colorKey n) (Some h) (Some (negb h)).

Definition highlightLink (sets : FlowHighlightSets) (l : DashboardFlowLink) : DashboardFlowLink :=
  let h := bool_decide (linkStableKey l ∈ h_links sets) in
  mkFlowLink (l_source l) (l_target l) (l_value l) (l_requests l) (l_quota l) (l_tokens l)
    (l_sourceLabel l) (l_targetLabel l) (l_color l) (l_linkColor l) (l_linkAlpha l) (l_hoverColor l)
    (l_colorKey l) (l_share l) (Some h) (Some (negb h)).

Definition applyFlowHighlights (ns : list DashboardFlowNode) (ls : list DashboardFlowLink)
    (sets : option FlowHighlightSets) : list DashboardFlowNode * list DashboardFlowLink :=
  match sets with
  | None => (ns, ls)
  | Some s => (map (highlightNode s) ns, map (highlightLink s) ls)
  end.

(** ** Masking *)

Definition FLOW_MASK_TEXT : jsstr := [8226; 8226; 8226; 8226].

Definition maskFlowLabel (label : jsstr) : jsstr := if (length label =? 0)%nat then label else FLOW_MASK_TEXT.

(** Whether the loop masks the node. *)
Definition isMasked (n : DashboardFlowNode) : bool :=
  bool_decide (n_kind n ∈ SENSITIVE_FLOW_KINDS) && negb (bool_decide (n_id n ∈ OTHER_FLOW_NODE_ID_SET)).

Definition maskNode (n : DashboardFlowNode) : DashboardFlowNode :=
  if isMasked n
  then mkFlowNode (n_id n) (maskFlowLabel (n_label n)) (n_kind n) (n_value n) (n_requests n) (n_quota n)
         (n_tokens n) (n_color n) (n_colorKey n) (n_highlighted n) (n_dimmed n)
  else n.

Definition maskLink (maskedById : list (jsstr * jsstr)) (l : DashboardFlowLink) : DashboardFlowLink :=
  mkFlowLink (l_source l) (l_target l) (l_value l) (l_requests l) (l_quota l) (l_tokens l)
    (map_get maskedById (l_source l) ?? l_sourceLabel l) (map_get maskedById (l_target l) ?? l_targetLabel l)
    (l_color l) (l_linkColor l) (l_linkAlpha l) (l_hoverColor l) (l_colorKey l) (l_share l)
    (l_highlighted l) (l_dimmed l).

Definition maskFlowGraphLabels (ns : list (jsstr * DashboardFlowNode)) (ls : list (jsstr * DashboardFlowLink))
    : list (jsstr * DashboardFlowNode) * list (jsstr * DashboardFlowLink) :=
  let maskedById :=
    fold_left (fun m n => if isMasked n then map_set m (n_id n) (maskFlowLabel (n_label n)) else m)
      (map_values ns) [] in
  let ns' := map (prod_map id maskNode) ns in
  if (length maskedById =? 0)%nat then (ns', ls) else (ns', map (prod_map id (maskLink maskedById)) ls).

(** ** Colours *)

Section Graph.
(** [a.localeCompare(b)]; [formatNumber] is an [Intl.NumberFormat]; the
    schemes of VChart, a [None] colour for one that is not a string. *)
Variable localeCompare : jsstr -> jsstr -> Z.
Variable formatNumber : Z -> jsstr.
Variable vchartDefaultDataScheme : list (option Z * list (option jsstr)).

(** charts.ts: [!item.maxDomainLength] holds for a missing or zero length. *)
Definition getDashboardChartColors (domainLength : Z) : list jsstr :=
  let fits item :=
    match item.1 with None => true | Some l => (l =? 0) || (domainLength <=? l) end in
  match List.find fits vchartDefaultDataScheme with
  | Some scheme => omap id scheme.2
  | None => match last vchartDefaultDataScheme with Some scheme => omap id scheme.2 | None => [] end
  end.

Definition colorAt (index : nat) (palette : option (list jsstr)) : jsstr :=
  let colors :=
    match palette with
    | Some (c :: cs) => c :: cs
    | _ => getDashboardChartColors (Z.of_nat index + 1)
    end in
  if (length colors =? 0)%nat then DEFAULT_FLOW_CHART_COLOR
  else colors !! (index mod length colors)%nat ?? DEFAULT_FLOW_CHART_COLOR.

Definition colorPalette (colorCount : nat) (palette : option (list jsstr)) : list jsstr :=
  match palette with
  | Some (c :: cs) => c :: cs
  | _ =>
      match getDashboardChartColors (Z.of_nat colorCount) with
      | [] => [DEFAULT_FLOW_CHART_COLOR]
      | colors => colors
      end
  end.

Definition stableColorMap (keys : list jsstr) (palette : option (list jsstr)) : list (jsstr * jsstr) :=
  let uniqueKeys := set_of keys in
  let colors := colorPalette (length uniqueKeys) palette in
  fold_left (fun m '(index, key) => map_set m key (colorAt index (Some colors)))
    (imap pair uniqueKeys) [].

(** [x.toFixed(2)]: the nearest hundredth, the larger of two. *)
Definition toFixed2 (x : Q) : jsstr :=
  let n := Qfloor (x * 100 + (1 # 2))%Q in
  let a := Z.abs n in
  (if n <? 0 then js "-" else []) ++ showZ (a / 100) ++ js "." ++
  showZ (a mod 100 / 10) ++ showZ (a mod 10).

Definition hex_value (c : Z) : option Z :=
  if is_digit c then Some (c - 48)
  else if (97 <=? c) && (c <=? 102) then Some (c - 87)
  else if (65 <=? c) && (c <=? 70) then Some (c - 55)
  else None.

(** [Number.parseInt(s, 16)] when [/^[0-9a-f]{6}$/i] matches. *)
Definition parse_hex6 (s : jsstr) : option Z :=
  if negb (length s =? 6)%nat then None
  else fold_left (fun acc c => match acc, hex_value c with Some a, Some d => Some (16 * a + d) | _, _ => None end)
         s (Some 0).

Definition alphaColor (color : jsstr) (alpha : Q) : jsstr * Q :=
  let normalized := trim color in
  let hex := if startsWith normalized (js "#") then slice_from normalized 1 else normalized in
  match parse_hex6 hex with
  | None => (normalized, alpha)
  | Some value =>
      let red := Z.land (Z.shiftr value 16) 255 in
      let green := Z.land (Z.shiftr value 8) 255 in
      let blue := Z.land value 255 in
      (js "rgba(" ++ showZ red ++ js ", " ++ showZ green ++ js ", " ++ showZ blue ++ js ", " ++
       toFixed2 alpha ++ js ")", 1%Q)
  end.

Definition withDisplayColor (l : DashboardFlowLink) (alpha : Q) : DashboardFlowLink :=
  let displayColor := alphaColor (l_color l) alpha in
  mkFlowLink (l_source l) (l_target l) (l_value l) (l_requests l) (l_quota l) (l_tokens l)
    (l_sourceLabel l) (l_targetLabel l) (l_color l) displayColor.1 displayColor.2 (l_color l)
    (l_colorKey l) (l_share l) (l_highlighted l) (l_dimmed l).

Definition compareSourceLinks (a b : DashboardFlowLink) : Z :=
  (l_value b - l_value a) |0| localeCompare (linkStableKey a) (linkStableKey b).

Definition linkAlphaAt (count index : nat) : Q :=
  let denominator := Z.to_pos (Z.max (Z.of_nat count - 1) 1) in
  if (count =? 1)%nat then (34 # 100)%Q
  else ((24 # 100) + (Z.of_nat index # denominator) * (20 # 100))%Q.

(** The links are updated in place; a link is found again by its key, which
    is that of its entry in the map it comes from. *)
Definition assignLinkDisplayColors (ls : list DashboardFlowLink) : list DashboardFlowLink :=
  let linksBySource :=
    fold_left (fun m l => map_set m (l_source l) ((map_get m (l_source l) ?? []) ++ [l])) ls [] in
  let updated :=
    concat (map (fun sourceLinks =>
      let sortedLinks := js_sort compareSourceLinks sourceLinks in
      imap (fun index l => withDisplayColor l (linkAlphaAt (length sortedLinks) index)) sortedLinks)
      (map_values linksBySource)) in
  map (fun l => List.find (fun u => bool_decide (linkStableKey u = linkStableKey l)) updated ?? l) ls.

(** ** Orders *)

Definition byValueThenLabel (a b : DashboardFlowNode) : Z :=
  (n_value b - n_value a) |0| localeCompare (n_label a) (n_label b).

(** [Number(a) - Number(b)] on optional flags: a missing one gives [NaN], which
    [||] skips as it skips 0. *)
Definition flag_sub (a b : option bool) : Z :=
  match a, b with Some a, Some b => Z.b2z a - Z.b2z b | _, _ => 0 end.

Definition byLinkDrawPriority (a b : DashboardFlowLink) : Z :=
  flag_sub (l_dimmed a) (l_dimmed b) |0|
  (flag_sub (l_highlighted b) (l_highlighted a) |0|
   ((l_value b - l_value a) |0| localeCompare (linkStableKey a) (linkStableKey b))).

Definition compareRanks (a b : FlowNodeRank) : Z :=
  (r_value b - r_value a) |0|
  (localeCompare (pn_label (r_node a)) (pn_label (r_node b)) |0|
   localeCompare (pn_id (r_node a)) (pn_id (r_node b))).

Definition topIds (limit : nat) (stageTotals : list (jsstr * FlowNodeRank)) : list jsstr :=
  set_of (map (fun rank => pn_id (r_node rank)) (take limit (js_sort compareRanks (map_values stageTotals)))).

Definition buildTopNodeSets (rows : list FlowQuotaDataItem) (metric : FlowMetric)
    (stages : list FlowNodeKind) (limit : option nat) (ctx : FlowPathContext) : option KindSets :=
  match limit with
  | None => None
  | Some limit => Some (map (fun '(kind, stageTotals) => (kind, topIds limit stageTotals))
                          (nodeTotals rows metric stages ctx))
  end.

(** ** The graph *)

Definition withShare (total : Z) (l : DashboardFlowLink) : DashboardFlowLink :=
  mkFlowLink (l_source l) (l_target l) (l_value l) (l_requests l) (l_quota l) (l_tokens l)
    (l_sourceLabel l) (l_targetLabel l) (l_color l) (l_linkColor l) (l_linkAlpha l) (l_hoverColor l)
    (l_colorKey l) (if 0 <? total then l_value l # Z.to_pos total else 0%Q) (l_highlighted l) (l_dimmed l).

Record FlowGraphOptions := mkGraphOptions {
  g_topNodeLimit : option Z; g_overflowMode : option FlowOverflowMode;
  g_otherNodeLabel : option (FlowNodeKind -> jsstr); g_activeNode : option FlowNodeFilter;
  g_activeLink : option FlowLinkSelection; g_maskSensitive : bool }.

Definition preparePaths (rows : list FlowQuotaDataItem) (stages : list FlowNodeKind)
    (topNodeSets : option KindSets) (mode : FlowOverflowMode)
    (labeler : option (FlowNodeKind -> jsstr)) (ctx : FlowPathContext) : list PreparedFlowPath :=
  omap (fun row =>
    (fun p => mkPrepared p (rowMetrics row)) <$>
      applyTopNodeLimit (flowPathForStages row stages ctx) topNodeSets mode labeler) rows.

(** The root ids of the paths, in order. *)
Definition rootIds (prepared : list PreparedFlowPath) : list jsstr :=
  List.filter truthy (omap (fun p => pn_id <$> head (path p)) prepared).

(** The loop that fills the two maps. *)
Definition addPath (metric : FlowMetric) (colors : list (jsstr * jsstr)) (palette : option (list jsstr))
    (acc : list (jsstr * DashboardFlowNode) * list (jsstr * DashboardFlowLink)) (p : PreparedFlowPath)
    : list (jsstr * DashboardFlowNode) * list (jsstr * DashboardFlowLink) :=
  match path p with
  | [] => acc
  | root :: _ =>
      let color := map_get colors (pn_id root) ?? colorAt 0 palette in
      (fold_left (fun m node => addNode m node (metrics p) metric color (pn_id root)) (path p) acc.1,
       fold_left (fun m '(a, b) => addLink m a b (metrics p) metric color (pn_id root)) (pairs (path p))
         acc.2)
  end.

Definition compareLinks (a b : DashboardFlowLink) : Z :=
  localeCompare (l_source a) (l_source b) |0| localeCompare (l_target a) (l_target b).

Definition firstStepTotal (firstStepSources : list jsstr) (ls : list DashboardFlowLink) : Z :=
  fold_left (fun sum l => sum + l_value l)
    (List.filter (fun l => bool_decide (l_source l ∈ firstStepSources)) ls) 0.

Definition buildFlowGraph (rows : list FlowQuotaDataItem) (metric : FlowMetric) (r : FlowRole)
    (palette : option (list jsstr)) (visible : option (list FlowNodeKind)) (ctx : FlowPathContext)
    (options : FlowGraphOptions) : DashboardFlowGraph :=
  let stages := resolveVisibleStages r visible in
  let topNodeSets :=
    buildTopNodeSets rows metric stages (normalizeTopNodeLimit (g_topNodeLimit options)) ctx in
  let mode := g_overflowMode options ?? OverflowAggregate in
  let prepared := preparePaths rows stages topNodeSets mode (g_otherNodeLabel options) ctx in
  let colors := stableColorMap (js_sort localeCompare (rootIds prepared)) palette in
  let filled := fold_left (addPath metric colors palette) prepared ([], []) in
  let masked := if g_maskSensitive options then maskFlowGraphLabels filled.1 filled.2 else filled in
  let highlighted :=
    applyFlowHighlights (map_values masked.1) (map_values masked.2)
      (buildFlowHighlightSets prepared (g_activeNode options) (g_activeLink options) stages) in
  let flowLinks := js_sort compareLinks highlighted.2 in
  let firstStepSources := set_of (rootIds prepared) in
  let total := firstStepTotal firstStepSources flowLinks in
  mkGraph (js_sort byValueThenLabel highlighted.1)
    (assignLinkDisplayColors (map (withShare total) flowLinks)).

(** ** Filter options *)

Record UserTotal := mkUserTotal { ut_label : jsstr; ut_value : Z; ut_color : jsstr }.

(** [!row.user_id && !row.username] *)
Definition hasNoUser (row : FlowQuotaDataItem) : bool :=
  (numberValue (user_id row) =? 0) && negb (truthy (username row ?? [])).

Definition compareUserOptions (a b : FlowUserFilterOption) : Z :=
  (uo_valueRaw b - uo_valueRaw a) |0| localeCompare (uo_label a) (uo_label b).

Definition buildUserFilterOptions (rows : list FlowQuotaDataItem) (metric : FlowMetric)
    (palette : option (list jsstr)) : list FlowUserFilterOption :=
  let colors := stableColorMap (js_sort localeCompare (map (fun row => pn_id (userNode row)) rows)) palette in
  let users :=
    fold_left
      (fun m row =>
         let user := userNode row in
         if hasNoUser row then m
         else
           let value := metricValue (rowMetrics row) metric in
           let current := map_get m (pn_id user) ??
             mkUserTotal (pn_label user) 0 (map_get colors (pn_id user) ?? colorAt 0 palette) in
           map_set m (pn_id user) (mkUserTotal (ut_label current) (ut_value current + value) (ut_color current)))
      rows [] in
  js_sort compareUserOptions
    (map (fun '(value, user) =>
            mkUserOption value (ut_label user) (formatNumber (ut_value user)) (ut_value user) (ut_color user))
       users).

(** The totals of one stage of [buildNodeFilterOptions]. *)
Definition stageOptionTotals (stage : FlowNodeKind) (rows : list FlowQuotaDataItem) (metric : FlowMetric)
    (ctx : FlowPathContext) : list (jsstr * FlowNodeRank) :=
  fold_left
    (fun totals row =>
       let value := metricValue (rowMetrics row) metric in
       let node := NODE_BUILDERS stage row ctx in
       let key := nodeFilterKey (mkNodeFilter (pn_kind node) (pn_id node)) in
       let current := map_get totals key ?? mkRank node 0 in
       map_set totals key (mkRank (r_node current) (r_value current + value)))
    rows [].

(** [stageOrder.get(kind) ?? 0] *)
Definition stageOrder (stages : list FlowNodeKind) (kind : FlowNodeKind) : Z :=
  Z.of_nat (fst <$> list_find (fun s => s = kind) stages ?? 0%nat).

Definition compareNodeOptions (stages : list FlowNodeKind) (a b : FlowNodeFilterOption) : Z :=
  (stageOrder stages (no_kind a) - stageOrder stages (no_kind b)) |0|
  ((no_valueRaw b - no_valueRaw a) |0|
   (localeCompare (no_label a) (no_label b) |0| localeCompare (no_value a) (no_value b))).

Definition buildNodeFilterOptions (rows : list FlowQuotaDataItem) (metric : FlowMetric) (r : FlowRole)
    (visible : option (list FlowNodeKind)) (palette : option (list jsstr)) (ctx : FlowPathContext)
    (selected : option (list FlowNodeFilter)) : list FlowNodeFilterOption :=
  let stages := resolveVisibleStages r visible in
  let colorIds := set_of (concat (map (fun row => map pn_id (flowPathForStages row stages ctx)) rows)) in
  let colors := stableColorMap (js_sort localeCompare colorIds) palette in
  js_sort (compareNodeOptions stages)
    (concat (map (fun stage =>
       let candidateRows :=
         filterRowsByNodes rows (selectedNodeFiltersExceptKind selected stage) stages ctx in
       map (fun rank =>
              mkNodeOption (pn_kind (r_node rank)) (pn_id (r_node rank)) (pn_label (r_node rank))
                (formatNumber (r_value rank)) (r_value rank)
                (map_get colors (pn_id (r_node rank)) ?? colorAt 0 palette))
         (map_values (stageOptionTotals stage candidateRows metric ctx))) stages)).

Definition buildFlowFilterOptions (rows : list FlowQuotaDataItem) (metric : FlowMetric)
    (palette : option (list jsstr)) (r : FlowRole) (visible : option (list FlowNodeKind))
    (selected : option (list FlowNodeFilter)) : FlowFilterOptions :=
  mkFilterOptions (buildUserFilterOptions rows metric palette)
    (buildNodeFilterOptions rows metric r visible palette EMPTY_FLOW_PATH_CONTEXT selected).

(** ** The whole *)

Definition buildDashboardFlowData (rows : list FlowQuotaDataItem) (metric : FlowMetric)
    (options : FlowBuildOptions) : ProcessedFlowData :=
  let r := role options ?? RoleUser in
  let palette := colorPaletteOpt options in
  let ctx := deletedTokenLabelOpt options in
  let stages := resolveVisibleStages r (visibleStages options) in
  let userFilteredRows := filterRows rows (selectedUsers options) in
  let filteredRows := filterRowsByNodes userFilteredRows (selectedNodes options) stages ctx in
  mkProcessed (buildSummary filteredRows)
    (buildFlowGraph filteredRows metric r palette (visibleStages options) ctx
       (mkGraphOptions (topNodeLimit options) (overflowMode options) (otherNodeLabel options)
          (activeNode options) (activeLink options) (maskSensitive options)))
    (mkFilterOptions (buildUserFilterOptions rows metric palette)
       (buildNodeFilterOptions userFilteredRows metric r (visibleStages options) palette ctx
          (selectedNodes options))).

(** The links of [buildFlowSankeySpec] with their [zIndex], in drawing order. *)
Definition sankeyLinks (g : DashboardFlowGraph) : list (DashboardFlowLink * Z) :=
  imap (fun index l =>
          (l, if l_highlighted l ?? false then 1000000 + Z.of_nat index
              else if l_dimmed l ?? false then Z.of_nat index
              else 100000 + Z.of_nat index))
    (js_sort byLinkDrawPriority (List.filter (fun l => 0 <? l_value l) (links g))).

End Graph.
End Flow.
