(* ===== verification/FlowExample.v ===== *)
(** * Example rows for the flow data

    Three rows of one user's usage and some options, on which the theorems are
    instantiated and the definitions of [Flow.v] run. *)

From S2P Require Import Prelude JsString JsCollections Flow.
#[local] Open Scope Z_scope.

Module FlowExample.
Import Flow.

Definition row (token : Z) (group model : jsstr) (q : Z) : FlowQuotaDataItem :=
  mkRow (Some 1) (Some (js "ada")) None (Some group) (Some token) (Some (js "key " ++ showZ token)) None None
    (Some model) (Some (10 * q)) (Some 1) (Some q).

Definition row1 : FlowQuotaDataItem := row 1 (js "default") (js "gpt") 5.
Definition row2 : FlowQuotaDataItem := row 2 (js "default") (js "claude") 3.
Definition row3 : FlowQuotaDataItem := row 1 (js "vip") (js "gpt") 2.
Definition rows : list FlowQuotaDataItem := [row1; row2; row3].

(** The options: the selected nodes, the active node, the limit, the mask. *)
Definition options (selected : option (list FlowNodeFilter)) (active : option FlowNodeFilter)
    (limit : option Z) (mask : bool) : FlowBuildOptions :=
  mkBuildOptions (Some RoleUser) None selected active None None None limit None mask None None.

Definition plain : FlowBuildOptions := options None None None false.

(** A collation that does not tell texts apart. *)
Definition no_collation (a b : jsstr) : Z := 0.

#[global] Instance no_collation_comparator : Comparator no_collation.
Proof. split; unfold no_collation; intros; lia. Qed.

(** The order of the code units. *)
Fixpoint code_unit_compare (a b : jsstr) : Z :=
  match a, b with
  | [], [] => 0
  | [], _ => -1
  | _, [] => 1
  | x :: a', y :: b' => if x =? y then code_unit_compare a' b' else x - y
  end.

Definition run (o : FlowBuildOptions) : ProcessedFlowData :=
  buildDashboardFlowData no_collation showZ [] rows MetricQuota o.

Example run_plain :
  ((fun n => (n_label n, n_value n)) <$> nodes (flow (run plain)),
   (fun l => (l_sourceLabel l, l_targetLabel l, l_value l)) <$> links (flow (run plain)))
  = ([(js "default", 8); (js "key 1", 7); (js "gpt", 7); (js "key 2", 3); (js "claude", 3); (js "vip", 2)],
     [(js "key 1", js "default", 5); (js "default", js "gpt", 5); (js "key 2", js "default", 3);
      (js "default", js "claude", 3); (js "key 1", js "vip", 2); (js "vip", js "gpt", 2)]).
Proof. vm_compute. reflexivity. Qed.

(** Two tokens with the same usage. *)
Definition tied_row (token : Z) (name : jsstr) : FlowQuotaDataItem :=
  mkRow None None None None (Some token) (Some name) None None (Some (js "gpt")) None None (Some 1).

Definition tied_rows : list FlowQuotaDataItem := [tied_row 2 (js "beta"); tied_row 1 (js "alpha")].

(** One node of the diagram. *)
Definition node_at (o : FlowBuildOptions) (i : nat) : option DashboardFlowNode := nodes (flow (run o)) !! i.
Definition link_at (o : FlowBuildOptions) (i : nat) : option DashboardFlowLink := links (flow (run o)) !! i.

End FlowExample.
