(* ===== verification/FlowFacts.v ===== *)
(** * The flow graph is balanced

    Sums over the nodes and links of the graph of [Flow.v] are sums over the
    paths it was built from: every stage carries the whole metric, what enters
    a node leaves it, and the shares of the first step add up to one. *)

From Stdlib Require Import QArith.
From S2P Require Import Prelude JsString JsCollections Flow.
#[local] Open Scope Z_scope.

Module FlowFacts.
Import Flow.

(** ** Sums *)

Definition sum_by {A} (f : A -> Z) (l : list A) : Z := foldr (fun x acc => f x + acc) 0 l.

Lemma sum_by_app {A} (f : A -> Z) l1 l2 : sum_by f (l1 ++ l2) = sum_by f l1 + sum_by f l2.
Proof. induction l1 as [|x l1 IH]; cbn; [done|]. unfold sum_by in *. lia. Qed.

#[export] Instance sum_by_perm {A} (f : A -> Z) : Proper (Permutation ==> eq) (sum_by f).
Proof. unfold sum_by. induction 1; cbn; lia. Qed.

Lemma sum_by_map {A B} (f : B -> Z) (g : A -> B) l : sum_by f (map g l) = sum_by (fun x => f (g x)) l.
Proof. induction l as [|x l IH]; cbn; [done|]. unfold sum_by in *. lia. Qed.

Lemma sum_by_ext {A} (f g : A -> Z) l : (forall x, x ∈ l -> f x = g x) -> sum_by f l = sum_by g l.
Proof.
  induction l as [|x l IH]; intros H; cbn; [done|]. rewrite (H x) by left.
  unfold sum_by in IH. rewrite IH; [done|]. intros y Hy. apply H. by right.
Qed.

Lemma sum_by_zero {A} (f : A -> Z) l : (forall x, x ∈ l -> f x = 0) -> sum_by f l = 0.
Proof.
  intros H. rewrite (sum_by_ext f (fun _ => 0)) by done. induction l as [|x l IH]; cbn; [done|].
  unfold sum_by in IH. rewrite IH; [done|]. intros y Hy. apply H. by right.
Qed.

Lemma map_sum_values {V} (w : V -> Z) (m : list (jsstr * V)) : map_sum w m = sum_by w (map_values m).
Proof. unfold map_sum, sum_by, map_values. induction m as [|kv m IH]; cbn; [done|]. by rewrite IH. Qed.

(** [v] where [b] holds. *)
Definition when (b : bool) (v : Z) : Z := if b then v else 0.

(** The only element of a list that satisfies a test carries the whole sum. *)
Lemma sum_by_unique {A B} `{EqDecision B} (k : A -> B) (f : A -> Z) l x :
  NoDup (k <$> l) -> x ∈ l -> sum_by (fun y => when (bool_decide (k y = k x)) (f y)) l = f x.
Proof.
  induction l as [|y l IH]; intros Hnd Hin; [by apply not_elem_of_nil in Hin|].
  inversion_clear Hnd as [|? ? Hn Hnd']. cbn. fold (sum_by (fun y => when (bool_decide (k y = k x)) (f y)) l).
  apply elem_of_cons in Hin as [->|Hin].
  - rewrite bool_decide_eq_true_2 by done. cbn. rewrite sum_by_zero; [lia|]. intros z Hz.
    rewrite bool_decide_eq_false_2; [done|]. intros Heq. apply Hn. rewrite <- Heq.
    by apply list_elem_of_fmap_2.
  - rewrite IH by done. rewrite bool_decide_eq_false_2; [cbn; lia|]. intros Heq. apply Hn.
    rewrite Heq. by apply list_elem_of_fmap_2.
Qed.

Lemma NoDup_ids_filter {A B} (k : A -> B) (P : A -> bool) l : NoDup (k <$> l) -> NoDup (k <$> List.filter P l).
Proof.
  induction l as [|x l IH]; cbn [List.filter]; [done|]. rewrite fmap_cons, NoDup_cons. intros [Hx Hnd].
  destruct (P x); [|by apply IH]. rewrite fmap_cons. apply NoDup_cons. split; [|by apply IH].
  intros Hin. apply Hx. apply list_elem_of_fmap in Hin as (y & -> & Hy).
  apply list_elem_of_In, filter_In in Hy as [Hy _]. apply list_elem_of_fmap_2. by apply list_elem_of_In.
Qed.

Lemma sum_by_nil {A} (f : A -> Z) : sum_by f [] = 0.
Proof. done. Qed.

Lemma sum_by_cons {A} (f : A -> Z) x l : sum_by f (x :: l) = f x + sum_by f l.
Proof. done. Qed.

#[local] Arguments sum_by : simpl never.
#[local] Arguments map_sum : simpl never.
#[local] Arguments when : simpl never.

(** ** Identities carry their kind *)

(** The first three characters of an id determine its kind. *)
Definition tag (s : jsstr) : jsstr := take 3 s.

Definition tagged (n : FlowPathNode) : Prop := tag (pn_id n) = tag (kind_text (pn_kind n)).

Lemma tag_inj k k' : tag (kind_text k) = tag (kind_text k') -> k = k'.
Proof. by destruct k, k'. Qed.

Lemma tagged_kind a b : tagged a -> tagged b -> pn_id a = pn_id b -> pn_kind a = pn_kind b.
Proof. unfold tagged. intros Ha Hb H. apply tag_inj. by rewrite <- Ha, <- Hb, H. Qed.

Lemma builder_spec k row ctx :
  pn_kind (NODE_BUILDERS k row ctx) = k /\ tagged (NODE_BUILDERS k row ctx).
Proof. destruct k; cbn; (split; [done|]); unfold tagged; cbn; try done; by case_match. Qed.

Lemma other_spec k labeler : pn_kind (otherFlowNode k labeler) = k /\ tagged (otherFlowNode k labeler).
Proof. by destruct k. Qed.

(** ** Paths *)

(** A path through the stages. *)
Definition path_ok (stages : list FlowNodeKind) (p : list FlowPathNode) : Prop :=
  pn_kind <$> p = stages /\ Forall tagged p.

Lemma flowPath_ok stages row ctx : path_ok stages (flowPathForStages row stages ctx).
Proof.
  unfold path_ok, flowPathForStages. split.
  - rewrite <- list_fmap_compose. rewrite <- (list_fmap_id stages) at 2. apply list_fmap_ext.
    intros i k _. apply builder_spec.
  - apply Forall_fmap, Forall_true. intros k. apply builder_spec.
Qed.

Lemma applyTopNodeLimit_ok stages p sets mode labeler p' :
  path_ok stages p -> applyTopNodeLimit p sets mode labeler = Some p' -> path_ok stages p'.
Proof.
  intros [Hk Ht]. unfold applyTopNodeLimit. destruct sets as [s|]; [|by intros [= <-]].
  destruct (negb _); [by intros [= <-]|]. destruct mode; [|done]. intros [= <-]. split.
  - rewrite <- list_fmap_compose, <- Hk. apply list_fmap_ext. intros i n _. cbn.
    destruct (isTopFlowNode n (Some s)); [done|]. apply other_spec.
  - apply Forall_fmap. eapply Forall_impl; [exact Ht|]. intros n Hn. cbn.
    destruct (isTopFlowNode n (Some s)); [done|]. apply other_spec.
Qed.

(** The paths of a graph: one per kept row, each through all the stages. *)
Lemma preparePaths_ok rows stages sets mode labeler ctx :
  Forall (fun p => path_ok stages (path p)) (preparePaths rows stages sets mode labeler ctx).
Proof.
  apply Forall_forall. intros p Hp. apply list_elem_of_omap in Hp as (row & _ & Hp).
  destruct (applyTopNodeLimit _ _ _ _) as [p'|] eqn:E; [|done]. injection Hp as <-.
  eapply applyTopNodeLimit_ok; [apply flowPath_ok|exact E].
Qed.

(** Without a limit, or when the overflow is aggregated, every row has its
    path. *)
Lemma preparePaths_total rows stages sets labeler ctx :
  metrics <$> preparePaths rows stages sets OverflowAggregate labeler ctx = rowMetrics <$> rows.
Proof.
  unfold preparePaths. induction rows as [|row rows IH]; [done|]. cbn.
  destruct (applyTopNodeLimit _ _ _ _) as [p'|] eqn:E.
  - cbn. by rewrite IH.
  - exfalso. revert E. unfold applyTopNodeLimit. destruct sets; [|done]. by destruct (negb _).
Qed.

Lemma stages_shape r visible :
  let stages := resolveVisibleStages r visible in
  NoDup stages /\ (2 <= length stages)%nat.
Proof.
  cbv zeta. unfold resolveVisibleStages, getFlowStages.
  assert (NoDup (ROLE_FLOW_STAGES r) /\ (2 <= length (ROLE_FLOW_STAGES r))%nat) as [Hn Hl].
  { split; [|destruct r; cbn; lia]. destruct r; apply (bool_decide_eq_true_1 (NoDup _)); reflexivity. }
  destruct visible as [vs|]; [|done]. case_match eqn:E; [|done]. apply Nat.leb_le in E. split; [|done].
  clear E Hl. induction Hn as [|k ks Hk Hn IH]; cbn [List.filter]; [constructor|].
  case_match; [|done]. constructor; [|done]. intros Hin. apply Hk.
  apply list_elem_of_In, filter_In in Hin as [Hin _]. by apply list_elem_of_In.
Qed.

(** ** The map of nodes *)

Definition node_ok (m : list (jsstr * DashboardFlowNode)) : Prop :=
  NoDup (map_keys m) /\
  forall k n, (k, n) ∈ m -> n_id n = k /\ tag (n_id n) = tag (kind_text (n_kind n)).

Definition node_weight (P : jsstr -> bool) (n : DashboardFlowNode) : Z := when (P (n_id n)) (n_value n).

Lemma addNode_ok m pn ms metric color ck :
  node_ok m -> tagged pn -> node_ok (addNode m pn ms metric color ck).
Proof.
  intros [Hnd Hm] Ht. unfold addNode. split; [by auto with js_db|].
  intros k n Hin. apply map_set_elem in Hin as [[-> ->]|Hin]; [|by apply Hm].
  cbn [n_id n_kind]. destruct (map_get m (pn_id pn)) as [prev|] eqn:E; [|done].
  apply map_get_Some_elem in E. by destruct (Hm _ _ E) as [-> ?].
Qed.

Lemma addNode_sum P m pn ms metric color ck :
  node_ok m ->
  map_sum (node_weight P) (addNode m pn ms metric color ck)
  = map_sum (node_weight P) m + when (P (pn_id pn)) (metricValue ms metric).
Proof.
  intros [_ Hm]. unfold addNode. rewrite map_sum_set. unfold node_weight. cbn [n_id n_value].
  destruct (map_get m (pn_id pn)) as [prev|] eqn:E; cbn [fmap option_fmap option_map n_id n_value].
  - apply map_get_Some_elem in E. destruct (Hm _ _ E) as [-> _]. destruct (P (pn_id pn)); unfold when; lia.
  - destruct (P (pn_id pn)); unfold when; lia.
Qed.

Lemma addNodes_spec P ps m ms metric color ck :
  node_ok m -> Forall tagged ps ->
  let m' := fold_left (fun m node => addNode m node ms metric color ck) ps m in
  node_ok m' /\
  map_sum (node_weight P) m'
  = map_sum (node_weight P) m + sum_by (fun n => when (P (pn_id n)) (metricValue ms metric)) ps.
Proof.
  intros Hm Ht. revert m Hm. induction Ht as [|n ps Hn _ IH]; intros m Hm; cbn [fold_left]; cbv zeta;
    [split; [done|rewrite sum_by_nil; lia]|].
  destruct (IH (addNode m n ms metric color ck)) as [IH1 IH2]; [by apply addNode_ok|].
  split; [done|]. rewrite IH2, addNode_sum, sum_by_cons by done. lia.
Qed.

(** ** The map of links *)

Lemma linkKey_inj a b a' b' : 0 ∉ a -> 0 ∉ a' -> linkKey a b = linkKey a' b' -> a = a' /\ b = b'.
Proof.
  unfold linkKey, NUL. revert a'. induction a as [|x a IH]; intros [|x' a'] Ha Ha' H; cbn in *.
  - by injection H.
  - injection H as <- _. destruct Ha'. left.
  - injection H as -> _. destruct Ha. left.
  - injection H as -> H. apply not_elem_of_cons in Ha as [_ Ha]. apply not_elem_of_cons in Ha' as [_ Ha'].
    by destruct (IH a' Ha Ha' H) as [-> ->].
Qed.

Definition link_ok (m : list (jsstr * DashboardFlowLink)) : Prop :=
  NoDup (map_keys m) /\ forall k l, (k, l) ∈ m -> k = linkStableKey l /\ 0 ∉ l_source l.

Definition link_weight (P : jsstr -> jsstr -> bool) (l : DashboardFlowLink) : Z :=
  when (P (l_source l) (l_target l)) (l_value l).

Lemma addLink_ok m a b ms metric color ck :
  link_ok m -> 0 ∉ pn_id a -> link_ok (addLink m a b ms metric color ck).
Proof.
  intros [Hnd Hm] Ha. unfold addLink. split; [by auto with js_db|].
  intros k l Hin. apply map_set_elem in Hin as [[-> ->]|Hin]; [|by apply Hm].
  unfold linkStableKey. cbn [l_source l_target].
  destruct (map_get m (pathLinkKey a b)) as [prev|] eqn:E; [|done].
  apply map_get_Some_elem in E. by destruct (Hm _ _ E) as [-> ?].
Qed.

Lemma addLink_sum P m a b ms metric color ck :
  link_ok m -> 0 ∉ pn_id a ->
  map_sum (link_weight P) (addLink m a b ms metric color ck)
  = map_sum (link_weight P) m + when (P (pn_id a) (pn_id b)) (metricValue ms metric).
Proof.
  intros [_ Hm] Ha. unfold addLink. rewrite map_sum_set. unfold link_weight.
  cbn [l_source l_target l_value].
  destruct (map_get m (pathLinkKey a b)) as [prev|] eqn:E;
    cbn [fmap option_fmap option_map l_source l_target l_value].
  - apply map_get_Some_elem in E. destruct (Hm _ _ E) as [Hk Hp].
    apply linkKey_inj in Hk as [<- <-]; [|done..]. destruct (P (pn_id a) (pn_id b)); unfold when; lia.
  - destruct (P (pn_id a) (pn_id b)); unfold when; lia.
Qed.

(** The weight of the links of one path. *)
Definition pair_weight (P : jsstr -> jsstr -> bool) (v : Z) (ab : FlowPathNode * FlowPathNode) : Z :=
  when (P (pn_id ab.1) (pn_id ab.2)) v.

Lemma addLinks_spec P ps m ms metric color ck :
  link_ok m -> Forall (fun ab => 0 ∉ pn_id ab.1) ps ->
  let m' := fold_left (fun m '(a, b) => addLink m a b ms metric color ck) ps m in
  link_ok m' /\
  map_sum (link_weight P) m'
  = map_sum (link_weight P) m + sum_by (pair_weight P (metricValue ms metric)) ps.
Proof.
  intros Hm Ht. revert m Hm. induction Ht as [|[a b] ps Hn _ IH]; intros m Hm; cbn [fold_left]; cbv zeta;
    [split; [done|rewrite sum_by_nil; lia]|].
  destruct (IH (addLink m a b ms metric color ck)) as [IH1 IH2]; [by apply addLink_ok|].
  split; [done|]. rewrite IH2, addLink_sum, sum_by_cons by done. unfold pair_weight. cbn. lia.
Qed.

Lemma elem_of_removelast {A} (l : list A) x : x ∈ removelast l -> x ∈ l.
Proof.
  destruct l as [|y l _] using rev_ind; [done|]. rewrite removelast_last. set_solver.
Qed.

Lemma pairs_sources {A} (l : list A) : (pairs l).*1 = removelast l.
Proof. induction l as [|x [|y l] IH]; [done|done|]. cbn in *. by rewrite IH. Qed.

Lemma pairs_targets {A} (l : list A) : (pairs l).*2 = tail l.
Proof. induction l as [|x [|y l] IH]; [done|done|]. cbn in *. by rewrite IH. Qed.

(** ** The maps of a set of paths *)

(** No id of the path holds the separator of the link keys. *)
Definition clean_path (p : PreparedFlowPath) : Prop := Forall (fun n => 0 ∉ pn_id n) (path p).

Section Filled.
Variable localeCompare : jsstr -> jsstr -> Z.
Variable schemes : list (option Z * list (option jsstr)).
Variable metric : FlowMetric.

Definition path_value (p : PreparedFlowPath) : Z := metricValue (metrics p) metric.

Lemma filled_spec colors palette prepared :
  Forall (fun p => Forall tagged (path p)) prepared ->
  let filled := fold_left (addPath schemes metric colors palette) prepared ([], []) in
  node_ok filled.1 /\
  (forall P, map_sum (node_weight P) filled.1
    = sum_by (fun p => sum_by (fun n => when (P (pn_id n)) (path_value p)) (path p)) prepared) /\
  (Forall clean_path prepared -> link_ok filled.2 /\
   forall P, map_sum (link_weight P) filled.2
    = sum_by (fun p => sum_by (pair_weight P (path_value p)) (pairs (path p))) prepared).
Proof.
  intros Ht. induction prepared as [|p prepared IH] using rev_ind.
  { cbn. split_and!; [split; [constructor|set_solver]|done|]. intros _. split; [|done].
    split; [constructor|set_solver]. }
  rewrite Forall_app, Forall_singleton in Ht. destruct Ht as [Ht Hp]. destruct (IH Ht) as (H1 & H2 & H3).
  cbv zeta in *. rewrite fold_left_app. cbn [fold_left].
  destruct (fold_left (addPath schemes metric colors palette) prepared ([], [])) as [ns ls].
  cbn [fst snd] in *. unfold addPath. destruct (path p) as [|root rest] eqn:Ep.
  { cbn [fst snd]. split_and!; [done| |].
    - intros P. rewrite sum_by_app, H2. rewrite (sum_by_cons _ p), (sum_by_nil (A := PreparedFlowPath)), Ep. cbn [pairs]. rewrite sum_by_nil. lia.
    - intros Hc. apply Forall_app in Hc as [Hc _]. destruct (H3 Hc) as [Hok Hs]. split; [done|].
      intros P. rewrite sum_by_app, Hs. rewrite (sum_by_cons _ p), (sum_by_nil (A := PreparedFlowPath)), Ep. cbn [pairs]. rewrite sum_by_nil. lia. }
  cbn [fst snd]. split_and!.
  - exact (proj1 (addNodes_spec (fun _ => true) _ _ _ _ _ _ H1 Hp)).
  - intros P. rewrite sum_by_app, (proj2 (addNodes_spec P _ _ _ _ _ _ H1 Hp)), H2.
    rewrite (sum_by_cons _ p), (sum_by_nil (A := PreparedFlowPath)), Ep. unfold path_value. lia.
  - intros Hc. rewrite Forall_app, Forall_singleton in Hc. destruct Hc as [Hc Hcp].
    destruct (H3 Hc) as [Hok Hs].
    assert (Forall (fun ab => 0 ∉ pn_id ab.1) (pairs (root :: rest))) as Hpairs.
    { apply (Forall_fmap fst (fun n => 0 ∉ pn_id n)). rewrite pairs_sources.
      unfold clean_path in Hcp. rewrite Ep in Hcp. rewrite Forall_forall in Hcp |- *.
      intros x Hx. apply Hcp. by apply elem_of_removelast. }
    split; [exact (proj1 (addLinks_spec (fun _ _ => true) _ _ _ _ _ _ Hok Hpairs))|].
    intros P. rewrite sum_by_app, (proj2 (addLinks_spec P _ _ _ _ _ _ Hok Hpairs)), Hs.
    rewrite (sum_by_cons _ p), (sum_by_nil (A := PreparedFlowPath)), Ep. unfold path_value. lia.
Qed.

(** ** What the later steps keep *)

Definition node_view (n : DashboardFlowNode) : jsstr * FlowNodeKind * Z := (n_id n, n_kind n, n_value n).
Definition link_view (l : DashboardFlowLink) : jsstr * jsstr * Z := (l_source l, l_target l, l_value l).

Lemma view_map {A B} (view : A -> B) (f : A -> A) l :
  (forall x, x ∈ l -> view (f x) = view x) -> view <$> map f l = view <$> l.
Proof.
  intros H. induction l as [|x l IH]; [done|]. cbn. rewrite H by left. f_equal. apply IH.
  intros y Hy. apply H. by right.
Qed.

Lemma mask_view ns ls :
  node_view <$> map_values (maskFlowGraphLabels ns ls).1 = node_view <$> map_values ns /\
  link_view <$> map_values (maskFlowGraphLabels ns ls).2 = link_view <$> map_values ls.
Proof.
  assert (forall (V W : Type) (g : V -> W) (m : list (jsstr * V)), map_values (map (prod_map id g) m) = map g (map_values m)) as Hv.
  { intros V W g m. unfold map_values. induction m as [|kv m IH]; [done|]. cbn. by rewrite IH. }
  assert (forall n, node_view (maskNode n) = node_view n) as Hn.
  { intros n. unfold maskNode. by destruct (isMasked n). }
  unfold maskFlowGraphLabels. destruct (_ =? 0)%nat; cbn [fst snd]; rewrite ?Hv; split;
    try (by apply view_map); done.
Qed.

Lemma highlight_view ns ls sets :
  node_view <$> (applyFlowHighlights ns ls sets).1 = node_view <$> ns /\
  link_view <$> (applyFlowHighlights ns ls sets).2 = link_view <$> ls.
Proof. destruct sets as [s|]; [|done]. cbn. split; by apply view_map. Qed.

Lemma find_some_elem {A} (f : A -> bool) l x : List.find f l = Some x -> x ∈ l /\ f x = true.
Proof. intros H. apply find_some in H as [H ?]. split; [by apply list_elem_of_In|done]. Qed.

(** The links grouped by source are the links. *)
Lemma group_elem (ls : list DashboardFlowLink) g l :
  g ∈ map_values (fold_left (fun m l => map_set m (l_source l) ((map_get m (l_source l) ?? []) ++ [l])) ls []) ->
  l ∈ g -> l ∈ ls.
Proof.
  assert (forall (m : list (jsstr * list DashboardFlowLink)), (forall k g l, (k, g) ∈ m -> l ∈ g -> l ∈ ls) ->
    forall ls', (forall l, l ∈ ls' -> l ∈ ls) ->
    forall k g l, (k, g) ∈ fold_left (fun m l => map_set m (l_source l) ((map_get m (l_source l) ?? []) ++ [l])) ls' m ->
      l ∈ g -> l ∈ ls) as H.
  { intros m Hm ls'. revert m Hm. induction ls' as [|x ls' IH]; intros m Hm Hin; cbn [fold_left]; [done|].
    apply IH; [|set_solver]. intros k g' l' Hg Hl.
    apply map_set_elem in Hg as [[-> ->]|Hg]; [|by eapply Hm].
    apply elem_of_app in Hl as [Hl|Hl].
    - destruct (map_get m (l_source x)) as [g0|] eqn:E; [|by apply not_elem_of_nil in Hl].
      apply map_get_Some_elem in E. by eapply Hm.
    - apply list_elem_of_singleton in Hl as ->. apply Hin. left. }
  intros Hg Hl. unfold map_values in Hg. apply list_elem_of_fmap in Hg as ([k g'] & -> & Hg).
  eapply (H []); [|done|exact Hg|exact Hl]. intros ? ? ? Hn. by apply not_elem_of_nil in Hn.
Qed.

(** Assigning the colours changes nothing else. *)
Lemma assign_elem ls l :
  NoDup (linkStableKey <$> ls) -> l ∈ ls ->
  forall u, u ∈ concat (map (fun sourceLinks =>
      let sortedLinks := js_sort (compareSourceLinks localeCompare) sourceLinks in
      imap (fun index l => withDisplayColor l (linkAlphaAt (length sortedLinks) index)) sortedLinks)
      (map_values (fold_left (fun m l => map_set m (l_source l) ((map_get m (l_source l) ?? []) ++ [l])) ls []))) ->
    linkStableKey u = linkStableKey l -> exists a, u = withDisplayColor l a.
Proof.
  intros Hnd Hl u Hu Hk. apply list_elem_of_In, in_concat in Hu as (us & Hus & Hu).
  apply in_map_iff in Hus as (g & <- & Hg). cbv zeta in Hu.
  apply list_elem_of_In in Hu. apply list_elem_of_lookup in Hu as [i Hi].
  rewrite list_lookup_imap in Hi. destruct (_ !! i) as [l'|] eqn:E; [|done]. injection Hi as <-.
  apply list_elem_of_lookup_2 in E. rewrite js_sort_perm in E.
  eapply group_elem in E; [|by apply list_elem_of_In].
  eexists. f_equal. change (linkStableKey l' = linkStableKey l) in Hk.
  apply list_elem_of_lookup in E as [x Hx]. apply list_elem_of_lookup in Hl as [y Hy].
  assert (x = y) as ->.
  { eapply (NoDup_lookup (linkStableKey <$> ls)); [done|..]; rewrite list_lookup_fmap.
    - by rewrite Hx.
    - rewrite Hy. cbn. by rewrite Hk. }
  congruence.
Qed.

Lemma assign_view {B} (view : DashboardFlowLink -> B) ls :
  (forall l a, view (withDisplayColor l a) = view l) -> NoDup (linkStableKey <$> ls) ->
  view <$> assignLinkDisplayColors localeCompare ls = view <$> ls.
Proof.
  intros Hv Hnd. unfold assignLinkDisplayColors. cbv zeta. apply view_map. intros l Hl.
  destruct (List.find _ _) as [u|] eqn:E; [|done].
  apply find_some_elem in E as [Hu Hk]. bool_hyps.
  destruct (assign_elem ls l Hnd Hl u Hu Hk) as [a ->]. apply Hv.
Qed.

Lemma link_ok_keys m : link_ok m -> linkStableKey <$> map_values m = map_keys m.
Proof.
  intros [_ H]. unfold map_values, map_keys. rewrite <- list_fmap_compose. apply list_fmap_ext.
  intros i [k l] Hi. apply list_elem_of_lookup_2 in Hi. cbn. by destruct (H k l Hi) as [-> _].
Qed.

Lemma key_of_view ls ls' : link_view <$> ls ≡ₚ link_view <$> ls' -> linkStableKey <$> ls ≡ₚ linkStableKey <$> ls'.
Proof.
  assert (forall l : list DashboardFlowLink, linkStableKey <$> l = (fun v => linkKey v.1.1 v.1.2) <$> (link_view <$> l)) as Hk.
  { intros l. rewrite <- list_fmap_compose. by apply list_fmap_ext. }
  intros H. rewrite !Hk. by rewrite H.
Qed.

(** ** The graph *)

(** What a graph is built from. *)
Definition graph_paths (rows : list FlowQuotaDataItem) (r : FlowRole)
    (visible : option (list FlowNodeKind)) (ctx : FlowPathContext) (options : FlowGraphOptions)
    : list PreparedFlowPath :=
  preparePaths rows (resolveVisibleStages r visible)
    (buildTopNodeSets localeCompare rows metric (resolveVisibleStages r visible)
       (normalizeTopNodeLimit (g_topNodeLimit options)) ctx)
    (g_overflowMode options ?? OverflowAggregate) (g_otherNodeLabel options) ctx.

Definition graph_of rows r palette visible ctx options : DashboardFlowGraph :=
  buildFlowGraph localeCompare schemes rows metric r palette visible ctx options.

Lemma graph_views rows r palette visible ctx options :
  let prepared := graph_paths rows r visible ctx options in
  let g := graph_of rows r palette visible ctx options in
  exists colors, let filled := fold_left (addPath schemes metric colors palette) prepared ([], []) in
    node_view <$> nodes g ≡ₚ node_view <$> map_values filled.1 /\
    (link_ok filled.2 ->
       link_view <$> links g ≡ₚ link_view <$> map_values filled.2 /\
       exists ls, link_view <$> ls ≡ₚ link_view <$> map_values filled.2 /\
         l_share <$> links g
         = (fun l => l_share (withShare (firstStepTotal (set_of (rootIds prepared)) ls) l)) <$> ls /\
         link_view <$> links g = link_view <$> ls).
Proof.
  cbv zeta. unfold graph_of, buildFlowGraph. cbv zeta.
  fold (graph_paths rows r visible ctx options).
  exists (stableColorMap schemes (js_sort localeCompare (rootIds (graph_paths rows r visible ctx options))) palette).
  set (filled := fold_left _ (graph_paths rows r visible ctx options) ([], [])).
  set (masked := if g_maskSensitive options then maskFlowGraphLabels filled.1 filled.2 else filled).
  assert (node_view <$> map_values masked.1 = node_view <$> map_values filled.1 /\
          link_view <$> map_values masked.2 = link_view <$> map_values filled.2) as [Hm1 Hm2].
  { subst masked. destruct (g_maskSensitive options); [apply mask_view|done]. }
  set (sets := buildFlowHighlightSets _ _ _ _).
  destruct (highlight_view (map_values masked.1) (map_values masked.2) sets) as [Hh1 Hh2].
  cbn [nodes links]. split.
  - by rewrite js_sort_perm, Hh1, Hm1.
  - intros Hok. set (ls := js_sort (compareLinks localeCompare) _).
    assert (link_view <$> ls ≡ₚ link_view <$> map_values filled.2) as Hls.
    { subst ls. by rewrite js_sort_perm, Hh2, Hm2. }
    set (total := firstStepTotal _ ls).
    assert (NoDup (linkStableKey <$> map (withShare total) ls)) as Hnd.
    { rewrite view_map by done. rewrite (key_of_view _ _ Hls), link_ok_keys by done. apply Hok. }
    assert (link_view <$> assignLinkDisplayColors localeCompare (map (withShare total) ls) = link_view <$> ls) as Hv.
    { rewrite assign_view by done. by apply view_map. }
    split; [by rewrite Hv|]. exists ls. split_and!; [done| |done].
    rewrite (assign_view l_share) by done. rewrite <- list_fmap_compose. done.
Qed.

(** Sums over nodes and links depend on their views only. *)
Lemma sum_view {A B} (view : A -> B) (w : B -> Z) l l' :
  view <$> l ≡ₚ view <$> l' -> sum_by (fun x => w (view x)) l = sum_by (fun x => w (view x)) l'.
Proof.
  assert (forall l, sum_by (fun x => w (view x)) l = sum_by w (view <$> l)) as H
    by (intros; symmetry; apply sum_by_map).
  intros Hp. rewrite !H. by rewrite Hp.
Qed.

Definition clean_row (row : FlowQuotaDataItem) : Prop :=
  Forall (fun s => 0 ∉ (s ?? [] : jsstr))
    [username row; node_name row; use_group row; token_name row; channel_name row; model_name row].

Lemma showZ_no_nul n : 0 <= n -> 0 ∉ showZ n.
Proof.
  intros H Hin. pose proof (showZ_digits n H) as Hd. rewrite Forall_forall in Hd.
  specialize (Hd 0 Hin). done.
Qed.

Lemma builder_no_nul k row ctx : clean_row row -> 0 ∉ pn_id (NODE_BUILDERS k row ctx).
Proof.
  assert (forall (s : option jsstr) d, 0 ∉ (s ?? [] : jsstr) -> 0 ∉ (d : jsstr) -> 0 ∉ text_or s d) as Ht.
  { intros [s|] d Hs Hd; cbn in *; [by destruct (truthy s)|done]. }
  assert (forall p s : jsstr, bool_decide (0 ∉ p) = true -> 0 ∉ s -> 0 ∉ p ++ s) as Happ.
  { intros p s Hp Hs. bool_hyps. rewrite elem_of_app. by intros [?|?]. }
  unfold clean_row. rewrite !Forall_cons. intros (H1 & H2 & H3 & H4 & H5 & H6 & _).
  assert (forall (d : jsstr), bool_decide (0 ∉ d) = true -> 0 ∉ d) as Hd by (intros; bool_hyps; done).
  destruct k; cbn [NODE_BUILDERS userNode nodeNameNode tokenNode groupNode modelNode channelNode pn_id];
    try destruct (0 <? _) eqn:E; bool_hyps; (apply Happ; [vm_compute; reflexivity|]);
    try (apply showZ_no_nul; lia); apply Ht; try done; apply Hd; vm_compute; reflexivity.
Qed.

Lemma graph_paths_ok rows r visible ctx options p :
  p ∈ graph_paths rows r visible ctx options -> path_ok (resolveVisibleStages r visible) (path p).
Proof.
  pose proof (preparePaths_ok rows (resolveVisibleStages r visible)
    (buildTopNodeSets localeCompare rows metric (resolveVisibleStages r visible)
       (normalizeTopNodeLimit (g_topNodeLimit options)) ctx)
    (g_overflowMode options ?? OverflowAggregate) (g_otherNodeLabel options) ctx) as H.
  rewrite Forall_forall in H. apply H.
Qed.

Lemma graph_paths_clean rows r visible ctx options :
  Forall clean_row rows -> Forall clean_path (graph_paths rows r visible ctx options).
Proof.
  intros Hc. apply Forall_forall. intros p Hp. apply list_elem_of_omap in Hp as (row & Hrow & Hp).
  rewrite Forall_forall in Hc. specialize (Hc row Hrow).
  assert (Forall (fun n => 0 ∉ pn_id n) (flowPathForStages row (resolveVisibleStages r visible) ctx)) as Hf.
  { apply Forall_fmap, Forall_true. intros k. by apply builder_no_nul. }
  unfold applyTopNodeLimit in Hp. unfold clean_path.
  destruct (buildTopNodeSets _ _ _ _ _ _) as [s|]; [|by injection Hp as <-].
  destruct (negb _); [by injection Hp as <-|]. destruct (_ ?? _); [|done]. injection Hp as <-.
  cbn [path]. apply Forall_fmap. eapply Forall_impl; [exact Hf|]. intros n Hn. cbn.
  destruct (isTopFlowNode n (Some s)); [done|]. destruct (pn_kind n);
    apply (bool_decide_eq_true_1 (0 ∉ _)); vm_compute; reflexivity.
Qed.

(** The weight of the nodes and of the links of a graph, by path. *)
Lemma graph_sums rows r palette visible ctx options :
  let prepared := graph_paths rows r visible ctx options in
  let g := graph_of rows r palette visible ctx options in
  (forall P, sum_by (node_weight P) (nodes g)
     = sum_by (fun p => sum_by (fun n => when (P (pn_id n)) (path_value p)) (path p)) prepared) /\
  NoDup (n_id <$> nodes g) /\
  (forall n, n ∈ nodes g -> tag (n_id n) = tag (kind_text (n_kind n))) /\
  (Forall clean_row rows -> forall P, sum_by (link_weight P) (links g)
     = sum_by (fun p => sum_by (pair_weight P (path_value p)) (pairs (path p))) prepared).
Proof.
  cbv zeta. destruct (graph_views rows r palette visible ctx options) as (colors & Hn & Hl).
  cbv zeta in Hn, Hl. set (prepared := graph_paths rows r visible ctx options) in *.
  set (g := graph_of rows r palette visible ctx options) in *.
  pose proof (filled_spec colors palette prepared) as Hf. cbv zeta in Hf.
  destruct (fold_left _ prepared ([], [])) as [ns ls]. cbn [fst snd] in *.
  destruct Hf as (Hok & Hns & Hls).
  { eapply Forall_impl; [apply preparePaths_ok|]. by intros p [_ ?]. }
  assert (forall m : list (jsstr * DashboardFlowNode), n_id <$> map_values m = (fun v => v.1.1) <$> (node_view <$> map_values m)) as Hid.
  { intros m. rewrite <- list_fmap_compose. by apply list_fmap_ext. }
  split_and!.
  - intros P. rewrite <- Hns, map_sum_values.
    by apply (sum_view node_view (fun v => when (P v.1.1) v.2)).
  - assert (n_id <$> nodes g = (fun v => v.1.1) <$> (node_view <$> nodes g)) as ->.
    { rewrite <- list_fmap_compose. by apply list_fmap_ext. }
    rewrite Hn, <- Hid. destruct Hok as [Hnd Hok].
    replace (n_id <$> map_values ns) with (map_keys ns); [done|].
    unfold map_values, map_keys. rewrite <- list_fmap_compose. apply list_fmap_ext.
    intros i [k n] Hi. apply list_elem_of_lookup_2 in Hi. cbn. by destruct (Hok k n Hi).
  - intros n Hin. assert (node_view n ∈ node_view <$> nodes g) as Hv by (by apply list_elem_of_fmap_2).
    rewrite Hn in Hv. apply list_elem_of_fmap in Hv as (n' & Heq & Hn').
    unfold map_values in Hn'. apply list_elem_of_fmap in Hn' as ([k n''] & -> & Hin').
    destruct Hok as [_ Hok]. destruct (Hok k n'' Hin') as [_ Ht]. unfold node_view in Heq. cbn in Heq.
    injection Heq as -> -> _. done.
  - intros Hc P. destruct Hls as [Hlok Hls]; [by apply graph_paths_clean|].
    rewrite <- Hls, map_sum_values.
    apply (sum_view link_view (fun v => when (P v.1.1 v.1.2) v.2)). by apply Hl.
Qed.

(** ** Balance *)

Definition is_id (x id : jsstr) : bool := bool_decide (id = x).

Definition inflow (g : DashboardFlowGraph) (id : jsstr) : Z :=
  sum_by (fun l => when (is_id id (l_target l)) (l_value l)) (links g).
Definition outflow (g : DashboardFlowGraph) (id : jsstr) : Z :=
  sum_by (fun l => when (is_id id (l_source l)) (l_value l)) (links g).

(** The weight of one path through a node that is not its first, or not its
    last, node. *)
Lemma path_inflow p id v :
  (forall n, head p = Some n -> pn_id n <> id) ->
  sum_by (pair_weight (fun _ b => is_id id b) v) (pairs p)
  = sum_by (fun n => when (is_id id (pn_id n)) v) p.
Proof.
  intros Hh. transitivity (sum_by (fun n => when (is_id id (pn_id n)) v) (tail p)).
  - rewrite <- pairs_targets. symmetry.
    apply (sum_by_map (fun n => when (is_id id (pn_id n)) v) snd).
  - destruct p as [|n p]; [done|]. cbn [tail]. rewrite sum_by_cons.
    unfold is_id at 2. rewrite bool_decide_eq_false_2 by (by apply Hh). unfold when at 2. lia.
Qed.

(** The sources of the links of a path are its nodes but the last. *)
Lemma path_sources (P : jsstr -> bool) p v :
  (forall n, last p = Some n -> P (pn_id n) = false) ->
  sum_by (pair_weight (fun a _ => P a) v) (pairs p) = sum_by (fun n => when (P (pn_id n)) v) p.
Proof.
  intros Hh. transitivity (sum_by (fun n => when (P (pn_id n)) v) (removelast p)).
  - rewrite <- pairs_sources. symmetry. apply (sum_by_map (fun n => when (P (pn_id n)) v) fst).
  - destruct p as [|n p _] using rev_ind; [done|]. rewrite removelast_last, sum_by_app.
    rewrite sum_by_cons, sum_by_nil. rewrite Hh by (by rewrite last_snoc). unfold when at 3. lia.
Qed.

Lemma path_outflow p id v :
  (forall n, last p = Some n -> pn_id n <> id) ->
  sum_by (pair_weight (fun a _ => is_id id a) v) (pairs p)
  = sum_by (fun n => when (is_id id (pn_id n)) v) p.
Proof. intros Hh. apply path_sources. intros n Hn. by apply bool_decide_eq_false_2, Hh. Qed.

(** A node of another kind than an end of a path has another id. *)
Lemma path_end_id stages p id k n :
  path_ok stages p -> n ∈ p -> tag id = tag (kind_text k) -> pn_kind n <> k -> pn_id n <> id.
Proof.
  intros [_ Ht] Hn Hid Hk Heq. rewrite Forall_forall in Ht. specialize (Ht n Hn).
  apply Hk, tag_inj. unfold tagged in Ht. by rewrite <- Ht, Heq.
Qed.

Lemma head_elem {A} (l : list A) x : head l = Some x -> x ∈ l.
Proof. destruct l; [done|]. intros [= ->]. left. Qed.

Lemma last_elem {A} (l : list A) x : last l = Some x -> x ∈ l.
Proof. intros H. apply last_snoc_inv in H as [l' ->]. set_solver. Qed.

(** The value of a node, by path. *)
Lemma node_value_paths rows r palette visible ctx options n :
  n ∈ nodes (graph_of rows r palette visible ctx options) ->
  n_value n = sum_by (fun p => sum_by (fun m => when (is_id (n_id n) (pn_id m)) (path_value p)) (path p))
                (graph_paths rows r visible ctx options).
Proof.
  intros Hn. destruct (graph_sums rows r palette visible ctx options) as (Hs & Hnd & _).
  etrans; [|apply (Hs (is_id (n_id n)))]. symmetry.
  by apply (sum_by_unique n_id n_value).
Qed.

(** ** Columns *)

(** The nodes of a column. *)
Definition of_kind (k : FlowNodeKind) (id : jsstr) : bool := bool_decide (tag id = tag (kind_text k)).

Lemma of_kind_spec k k' id : tag id = tag (kind_text k') -> of_kind k id = bool_decide (k' = k).
Proof.
  intros H. unfold of_kind. apply bool_decide_ext. rewrite H. split; [|by intros ->]. apply tag_inj.
Qed.

(** A path goes through a column once. *)
Lemma path_column stages p k v :
  path_ok stages p -> NoDup stages -> k ∈ stages ->
  sum_by (fun n => when (of_kind k (pn_id n)) v) p = v.
Proof.
  intros [Hk Ht] Hnd Hin. rewrite <- Hk in Hnd, Hin.
  apply list_elem_of_fmap in Hin as (n & -> & Hn).
  etrans; [|apply (sum_by_unique pn_kind (fun _ => v) p n Hnd Hn)].
  apply sum_by_ext. intros m Hm. rewrite Forall_forall in Ht. by rewrite (of_kind_spec _ _ _ (Ht m Hm)).
Qed.

(** The links of the first step carry a path's value once. *)
Lemma path_first_step stages p k v :
  path_ok stages p -> NoDup stages -> (2 <= length stages)%nat -> head stages = Some k ->
  sum_by (pair_weight (fun a _ => of_kind k a) v) (pairs p) = v.
Proof.
  intros Hp Hnd Hlen Hk. rewrite path_sources.
  - eapply path_column; [done..|]. by apply head_elem.
  - intros n Hn. destruct Hp as [Hkinds Ht]. rewrite Forall_forall in Ht.
    rewrite (of_kind_spec _ _ _ (Ht n (last_elem _ _ Hn))). apply bool_decide_eq_false_2. intros Heq.
    assert (last stages = Some k) as Hl by (rewrite <- Hkinds, fmap_last, Hn; cbn; by rewrite Heq).
    destruct stages as [|k0 [|k1 ks]]; cbn in Hlen; [lia|lia|]. injection Hk as ->.
    apply NoDup_cons in Hnd as [Hnk _]. apply Hnk. apply last_elem. exact Hl.
Qed.

(** The value of a column. *)
Definition column_value (g : DashboardFlowGraph) (k : FlowNodeKind) : Z :=
  sum_by (fun n => when (bool_decide (n_kind n = k)) (n_value n)) (nodes g).

Lemma column_paths rows r palette visible ctx options k :
  k ∈ resolveVisibleStages r visible ->
  column_value (graph_of rows r palette visible ctx options) k
  = sum_by path_value (graph_paths rows r visible ctx options).
Proof.
  intros Hk. destruct (graph_sums rows r palette visible ctx options) as (Hs & _ & Ht & _).
  transitivity (sum_by (node_weight (of_kind k)) (nodes (graph_of rows r palette visible ctx options))).
  { apply sum_by_ext. intros n Hn. unfold node_weight. by rewrite (of_kind_spec _ _ _ (Ht n Hn)). }
  rewrite Hs. apply sum_by_ext. intros p Hp. eapply path_column; [by eapply graph_paths_ok| |done].
  apply stages_shape.
Qed.

Definition summaryValue (s : FlowSummary) : Z :=
  match metric with MetricRequests => s_requests s | MetricTokens => s_tokens s | MetricQuota => s_quota s end.

Definition row_value (row : FlowQuotaDataItem) : Z := metricValue (rowMetrics row) metric.

Lemma buildSummary_sum rows : summaryValue (buildSummary rows) = sum_by row_value rows.
Proof.
  induction rows as [|row rows IH] using rev_ind; [unfold summaryValue; by destruct metric|].
  rewrite sum_by_app, sum_by_cons, sum_by_nil, <- IH. unfold buildSummary. rewrite fold_left_app. cbn [fold_left].
  unfold summaryValue, row_value. destruct metric; cbn; lia.
Qed.

Lemma graph_paths_total rows r visible ctx options :
  g_overflowMode options <> Some OverflowHide \/ normalizeTopNodeLimit (g_topNodeLimit options) = None ->
  sum_by path_value (graph_paths rows r visible ctx options) = summaryValue (buildSummary rows).
Proof.
  intros Hm. rewrite buildSummary_sum.
  assert (metrics <$> graph_paths rows r visible ctx options = rowMetrics <$> rows) as H.
  { unfold graph_paths. destruct Hm as [Hm|Hm].
    - destruct (g_overflowMode options) as [[]|]; try done; apply preparePaths_total.
    - rewrite Hm. cbn [buildTopNodeSets]. unfold preparePaths. clear.
      induction rows as [|row rows IH]; [done|]. cbn. f_equal. exact IH. }
  transitivity (sum_by (fun m => metricValue m metric) (metrics <$> graph_paths rows r visible ctx options)).
  - symmetry. apply (sum_by_map (fun m => metricValue m metric) metrics).
  - rewrite H. apply (sum_by_map (fun m => metricValue m metric) rowMetrics).
Qed.

(** What enters a node is its value, except in the first column, and what
    leaves it is its value, except in the last one. *)
Lemma graph_balanced rows r palette visible ctx options n :
  Forall clean_row rows ->
  let stages := resolveVisibleStages r visible in
  let g := graph_of rows r palette visible ctx options in
  n ∈ nodes g ->
  (head stages <> Some (n_kind n) -> inflow g (n_id n) = n_value n) /\
  (last stages <> Some (n_kind n) -> outflow g (n_id n) = n_value n).
Proof.
  intros Hc stages g Hn.
  destruct (graph_sums rows r palette visible ctx options) as (_ & _ & Ht & Hl).
  specialize (Hl Hc). rewrite (node_value_paths rows r palette visible ctx options n Hn).
  specialize (Ht n Hn).
  pose proof (graph_paths_ok rows r visible ctx options) as Hp.
  split; intros Hend.
  - etrans; [apply (Hl (fun _ b => is_id (n_id n) b))|]. apply sum_by_ext.
    intros p Hin. apply path_inflow. intros m Hm. apply (path_end_id stages (path p) _ (n_kind n));
      [by apply Hp|by apply head_elem|done|]. destruct (Hp p Hin) as [Hk _]. intros Heq. apply Hend.
    subst stages. rewrite <- Hk. destruct (path p); [done|]. injection Hm as ->. cbn. by rewrite Heq.
  - etrans; [apply (Hl (fun a _ => is_id (n_id n) a))|]. apply sum_by_ext.
    intros p Hin. apply path_outflow. intros m Hm. apply (path_end_id stages (path p) _ (n_kind n));
      [by apply Hp|by apply last_elem|done|]. destruct (Hp p Hin) as [Hk _]. intros Heq. apply Hend.
    subst stages. rewrite <- Hk, fmap_last, Hm. cbn. by rewrite Heq.
Qed.

End Filled.

End FlowFacts.
