(* ===== verification/FlowElements.v ===== *)
(** * The nodes and links of the flow graph

    Which nodes and links the graph of [Flow.v] has, and what the steps after
    the loop (masking, highlighting, shares, colours, sorting) do to each. *)

From Stdlib Require Import QArith.
From S2P Require Import Prelude JsString JsCollections Flow FlowFacts.
#[local] Open Scope Z_scope.

Module FlowElements.
Import Flow FlowFacts.

Lemma pair_source {A} (l : list A) a b : (a, b) ∈ pairs l -> a ∈ l.
Proof.
  intros H. apply elem_of_removelast. rewrite <- pairs_sources. apply list_elem_of_fmap. by exists (a, b).
Qed.

Lemma pair_target {A} (l : list A) a b : (a, b) ∈ pairs l -> b ∈ l.
Proof.
  intros H. assert (b ∈ tail l) as Hb by (rewrite <- pairs_targets; apply list_elem_of_fmap; by exists (a, b)).
  destruct l; [done|]. by right.
Qed.

(** ** Masking *)

(** A label that tells nothing. *)
Definition hidden (label : jsstr) : Prop := label = [] \/ label = FLOW_MASK_TEXT.

Lemma maskFlowLabel_hidden label : hidden (maskFlowLabel label).
Proof. unfold maskFlowLabel, hidden. destruct label; [by left|by right]. Qed.

Lemma masked_ids ns n :
  n ∈ ns -> isMasked n = true ->
  exists v, hidden v /\
    map_get (fold_left (fun m n => if isMasked n then map_set m (n_id n) (maskFlowLabel (n_label n)) else m) ns [])
      (n_id n) = Some v.
Proof.
  intros Hn Hm. induction ns as [|x ns IH] using rev_ind; [by apply not_elem_of_nil in Hn|].
  rewrite fold_left_app. cbn [fold_left]. apply elem_of_app in Hn as [Hn|Hn].
  - destruct (IH Hn) as (v & Hv & Hg). destruct (isMasked x); [|eauto].
    destruct (decide (n_id x = n_id n)) as [->|Hne].
    + eexists. split; [apply maskFlowLabel_hidden|apply map_get_set_eq].
    + exists v. by rewrite map_get_set_ne.
  - apply list_elem_of_singleton in Hn as ->. rewrite Hm.
    eexists. split; [apply maskFlowLabel_hidden|apply map_get_set_eq].
Qed.

Lemma map_get_nonempty {K V} `{EqDecision K} (m : list (K * V)) k v : map_get m k = Some v -> (length m =? 0)%nat = false.
Proof. by destruct m. Qed.

Section Elements.
Variable localeCompare : jsstr -> jsstr -> Z.
Variable schemes : list (option Z * list (option jsstr)).
Variable metric : FlowMetric.

(** ** The keys of the two maps *)

Lemma filled_keys colors palette prepared :
  let filled := fold_left (addPath schemes metric colors palette) prepared ([], []) in
  (forall k, k ∈ map_keys filled.1 <-> exists p n, p ∈ prepared /\ n ∈ path p /\ k = pn_id n) /\
  (forall k, k ∈ map_keys filled.2
     <-> exists p a b, p ∈ prepared /\ (a, b) ∈ pairs (path p) /\ k = pathLinkKey a b).
Proof.
  induction prepared as [|p prepared IH] using rev_ind.
  { cbn. split; intros k; set_solver. }
  cbv zeta in *. rewrite fold_left_app. cbn [fold_left].
  destruct (fold_left (addPath schemes metric colors palette) prepared ([], [])) as [ns ls].
  destruct IH as [IH1 IH2]. cbn [fst snd] in *. unfold addPath. destruct (path p) as [|root rest] eqn:Ep.
  - split; intros k; [rewrite IH1|rewrite IH2]; setoid_rewrite elem_of_app;
      setoid_rewrite list_elem_of_singleton.
    + split; [naive_solver|]. intros (q & n & [?| ->] & Hn & ?); [naive_solver|].
      rewrite Ep in Hn. by apply not_elem_of_nil in Hn.
    + split; [naive_solver|]. intros (q & a & b & [?| ->] & Hn & ?); [naive_solver|].
      rewrite Ep in Hn. by apply not_elem_of_nil in Hn.
  - cbn [fst snd]. rewrite <- Ep. split; intros k.
    + rewrite (fold_keys _ pn_id) by (intros; eexists; reflexivity). rewrite IH1, list_elem_of_fmap.
      setoid_rewrite elem_of_app. setoid_rewrite list_elem_of_singleton. naive_solver.
    + rewrite (fold_keys _ (fun ab => pathLinkKey ab.1 ab.2)) by (intros ? [? ?]; eexists; reflexivity).
      rewrite IH2, list_elem_of_fmap.
      setoid_rewrite elem_of_app. setoid_rewrite list_elem_of_singleton. split.
      * intros [(q & a & b & ? & ? & ?)|([a b] & -> & ?)]; [by exists q, a, b; auto|].
        exists p, a, b. auto.
      * intros (q & a & b & [?| ->] & ? & ->); [left; eauto 6|]. right. by exists (a, b).
Qed.

(** ** The steps after the loop *)

Section Graph.
Variables (rows : list FlowQuotaDataItem) (r : FlowRole) (palette : option (list jsstr))
  (visible : option (list FlowNodeKind)) (ctx : FlowPathContext) (options : FlowGraphOptions).

Definition the_stages : list FlowNodeKind := resolveVisibleStages r visible.
Definition the_paths : list PreparedFlowPath := graph_paths localeCompare metric rows r visible ctx options.
Definition the_graph : DashboardFlowGraph :=
  graph_of localeCompare schemes metric rows r palette visible ctx options.

Definition the_maps : list (jsstr * DashboardFlowNode) * list (jsstr * DashboardFlowLink) :=
  fold_left (addPath schemes metric
    (stableColorMap schemes (js_sort localeCompare (rootIds the_paths)) palette) palette) the_paths ([], []).

Definition masked : list (jsstr * DashboardFlowNode) * list (jsstr * DashboardFlowLink) :=
  if g_maskSensitive options then maskFlowGraphLabels the_maps.1 the_maps.2 else the_maps.

Definition highlights : option FlowHighlightSets :=
  buildFlowHighlightSets the_paths (g_activeNode options) (g_activeLink options) the_stages.

Definition lit_node (n : DashboardFlowNode) : DashboardFlowNode :=
  match highlights with Some s => highlightNode s n | None => n end.
Definition lit_link (l : DashboardFlowLink) : DashboardFlowLink :=
  match highlights with Some s => highlightLink s l | None => l end.

Lemma lit_lists ns ls :
  applyFlowHighlights ns ls highlights = (map lit_node ns, map lit_link ls).
Proof. unfold lit_node, lit_link. destruct highlights; [done|]. by rewrite !map_id. Qed.

Lemma the_maps_ok : node_ok the_maps.1 /\ (Forall clean_row rows -> link_ok the_maps.2).
Proof.
  destruct (filled_spec schemes metric (stableColorMap schemes (js_sort localeCompare (rootIds the_paths)) palette)
    palette the_paths) as (Hn & _ & Hl).
  { apply Forall_forall. intros p Hp. eapply graph_paths_ok. exact Hp. }
  split; [exact Hn|]. intros Hc. apply Hl. by apply graph_paths_clean.
Qed.

Lemma graph_nodes_elem n : n ∈ nodes the_graph <-> exists n0, n0 ∈ map_values masked.1 /\ n = lit_node n0.
Proof.
  unfold the_graph, graph_of, buildFlowGraph. cbn [nodes]. rewrite js_sort_elem. fold the_paths.
  fold the_stages. fold highlights. fold the_maps. fold masked. rewrite lit_lists. cbn [fst].
  rewrite list_elem_of_In, in_map_iff. setoid_rewrite <- list_elem_of_In. naive_solver.
Qed.

(** A link of the graph comes from one of the map; the steps after the
    highlighting set its share and its display colours only. *)
Lemma graph_links_elem l :
  Forall clean_row rows -> l ∈ links the_graph ->
  exists l0 total, l0 ∈ map_values masked.2 /\
    (l = withShare total (lit_link l0) \/ exists a, l = withDisplayColor (withShare total (lit_link l0)) a).
Proof.
  intros Hc. unfold the_graph, graph_of, buildFlowGraph. cbn [links]. fold the_paths.
  fold the_stages. fold highlights. fold the_maps. fold masked. rewrite lit_lists. cbn [snd].
  set (ls := js_sort (compareLinks localeCompare) _). set (total := firstStepTotal _ ls).
  assert (link_view <$> ls ≡ₚ link_view <$> map_values the_maps.2) as Hls.
  { subst ls. rewrite js_sort_perm. rewrite view_map by (intros; unfold lit_link; by destruct highlights).
    unfold masked. destruct (g_maskSensitive options); [|done]. by rewrite (proj2 (mask_view _ _)). }
  assert (NoDup (linkStableKey <$> map (withShare total) ls)) as Hnd.
  { pose proof (proj2 the_maps_ok Hc) as Hok. rewrite view_map by done.
    rewrite (key_of_view _ _ Hls), link_ok_keys by done. apply Hok. }
  unfold assignLinkDisplayColors. cbv zeta. intros Hl.
  apply list_elem_of_In, in_map_iff in Hl as (l1 & <- & Hl1). apply list_elem_of_In in Hl1.
  pose proof (assign_elem localeCompare _ l1 Hnd Hl1) as Ha. cbv zeta in Ha.
  assert (exists l0, l0 ∈ map_values masked.2 /\ l1 = withShare total (lit_link l0)) as (l0 & Hl0 & ->).
  { apply list_elem_of_In, in_map_iff in Hl1 as (l2 & <- & Hl2). apply list_elem_of_In in Hl2.
    subst ls. rewrite js_sort_elem in Hl2. apply list_elem_of_In, in_map_iff in Hl2 as (l0 & <- & Hl0).
    exists l0. split; [by apply list_elem_of_In|done]. }
  exists l0, total. split; [done|]. destruct (List.find _ _) as [u|] eqn:E; [|by left].
  apply find_some_elem in E as [Hu Hk]. bool_hyps. right. by apply Ha.
Qed.

(** ** Which nodes and links there are *)

Lemma graph_node_ids id :
  id ∈ n_id <$> nodes the_graph <-> exists p n, p ∈ the_paths /\ n ∈ path p /\ id = pn_id n.
Proof.
  rewrite <- (proj1 (filled_keys (stableColorMap schemes (js_sort localeCompare (rootIds the_paths)) palette)
    palette the_paths)). change (id ∈ n_id <$> nodes the_graph <-> id ∈ map_keys the_maps.1).
  rewrite list_elem_of_fmap, map_keys_elem. setoid_rewrite graph_nodes_elem. setoid_rewrite map_values_elem.
  assert (forall n0, n_id (lit_node n0) = n_id n0) as Hlit by (intros; unfold lit_node; by destruct highlights).
  assert (forall n0, n_id (maskNode n0) = n_id n0) as Hmask by (intros; unfold maskNode; by destruct (isMasked _)).
  destruct the_maps_ok as [[_ Hok] _]. unfold masked. split.
  - intros (n & -> & n0 & [k Hk] & ->). rewrite Hlit. destruct (g_maskSensitive options).
    + apply list_elem_of_In in Hk. unfold maskFlowGraphLabels in Hk.
      assert (In (k, n0) (map (prod_map Datatypes.id maskNode) the_maps.1)) as Hk' by (destruct (_ =? 0)%nat; exact Hk).
      apply in_map_iff in Hk' as ([k' n1] & [= <- <-] & Hin). apply list_elem_of_In in Hin. cbn.
      rewrite Hmask. destruct (Hok _ _ Hin) as [-> _]. by exists n1.
    + destruct (Hok _ _ Hk) as [-> _]. by exists n0.
  - intros [n0 Hn0]. destruct (Hok _ _ Hn0) as [Hid _].
    exists (lit_node (if g_maskSensitive options then maskNode n0 else n0)). rewrite Hlit.
    destruct (g_maskSensitive options); rewrite ?Hmask; (split; [done|]).
    + exists (maskNode n0). split; [|done]. exists id. apply list_elem_of_In.
      unfold maskFlowGraphLabels. assert (In (id, maskNode n0) (map (prod_map Datatypes.id maskNode) the_maps.1)) as Hin.
      { apply in_map_iff. exists (id, n0). split; [done|by apply list_elem_of_In]. }
      by destruct (_ =? 0)%nat.
    + exists n0. split; [by exists id|done].
Qed.

Lemma graph_link_ends l :
  Forall clean_row rows -> l ∈ links the_graph ->
  exists p a b, p ∈ the_paths /\ (a, b) ∈ pairs (path p) /\ l_source l = pn_id a /\ l_target l = pn_id b.
Proof.
  intros Hc Hl. destruct (graph_views localeCompare schemes metric rows r palette visible ctx options)
    as (colors & _ & Hv). cbv zeta in Hv. fold the_paths in Hv.
  destruct (filled_spec schemes metric colors palette the_paths) as (_ & _ & Hok).
  { apply Forall_forall. intros p Hp. eapply graph_paths_ok. exact Hp. }
  destruct Hok as [Hok _]; [by apply graph_paths_clean|]. destruct (Hv Hok) as [Hp _].
  assert (link_view l ∈ link_view <$> links the_graph) as Hin by (by apply list_elem_of_fmap_2).
  unfold the_graph in Hin. rewrite Hp in Hin. apply list_elem_of_fmap in Hin as (l' & Hll' & Hin).
  apply map_values_elem in Hin as [k Hk]. destruct Hok as [_ Hok]. destruct (Hok _ _ Hk) as [-> Hz].
  destruct (proj2 (filled_keys colors palette the_paths) (linkStableKey l')) as [Hkeys _].
  destruct Hkeys as (p & a & b & Hpp & Hab & Heq); [apply map_keys_elem; eauto|].
  exists p, a, b. unfold link_view in Hll'. injection Hll' as -> -> _.
  assert (0 ∉ pn_id a) as Ha.
  { pose proof (graph_paths_clean localeCompare metric rows r visible ctx options Hc) as Hcp.
    rewrite Forall_forall in Hcp. specialize (Hcp p Hpp). unfold clean_path in Hcp.
    rewrite Forall_forall in Hcp. by apply Hcp, (pair_source _ _ b). }
  unfold linkStableKey, pathLinkKey in Heq. apply linkKey_inj in Heq as [-> ->]; done.
Qed.

(** ** The labels of a masked graph *)

(** The id of a node whose label is to be hidden. *)
Definition sensitive_id (id : jsstr) : Prop :=
  id ∉ OTHER_FLOW_NODE_ID_SET /\ exists k, k ∈ SENSITIVE_FLOW_KINDS /\ of_kind k id = true.

Lemma sensitive_masked k n :
  (k, n) ∈ the_maps.1 -> sensitive_id k -> isMasked n = true.
Proof.
  intros Hin (Hother & kd & Hs & Hk). destruct the_maps_ok as [[_ Hok] _].
  destruct (Hok _ _ Hin) as [<- Ht]. unfold isMasked. rewrite (of_kind_spec _ _ _ Ht) in Hk. bool_hyps. subst kd.
  by rewrite bool_decide_eq_true_2, bool_decide_eq_false_2.
Qed.

Lemma masked_node_labels n :
  g_maskSensitive options = true -> n ∈ nodes the_graph -> sensitive_id (n_id n) -> hidden (n_label n).
Proof.
  intros Hmask Hn Hs. apply graph_nodes_elem in Hn as (n0 & Hn0 & ->).
  assert (n_id (lit_node n0) = n_id n0 /\ n_label (lit_node n0) = n_label n0) as [Hid ->]
    by (unfold lit_node; by destruct highlights).
  rewrite Hid in Hs. unfold masked in Hn0. rewrite Hmask in Hn0. apply map_values_elem in Hn0 as [k Hk].
  apply list_elem_of_In in Hk. unfold maskFlowGraphLabels in Hk.
  assert (In (k, n0) (map (prod_map Datatypes.id maskNode) the_maps.1)) as Hk' by (destruct (_ =? 0)%nat; exact Hk).
  apply in_map_iff in Hk' as ([k' n1] & [= -> <-] & Hin). apply list_elem_of_In in Hin.
  assert (isMasked n1 = true) as Hm.
  { apply (sensitive_masked k); [done|]. destruct the_maps_ok as [[_ Hok] _].
    destruct (Hok _ _ Hin) as [<- _]. revert Hs. unfold maskNode. by destruct (isMasked n1). }
  unfold maskNode. rewrite Hm. apply maskFlowLabel_hidden.
Qed.

(** The label that [maskLink] gives to a sensitive end of a link. *)
Lemma masked_end id label :
  id ∈ n_id <$> nodes the_graph -> sensitive_id id ->
  let maskedById := fold_left (fun m n => if isMasked n then map_set m (n_id n) (maskFlowLabel (n_label n)) else m)
    (map_values the_maps.1) [] in
  (length maskedById =? 0)%nat = false /\ hidden (map_get maskedById id ?? label).
Proof.
  intros Hin Hs. apply graph_node_ids in Hin. 
  apply (proj1 (filled_keys (stableColorMap schemes (js_sort localeCompare (rootIds the_paths)) palette)
    palette the_paths)) in Hin. change (id ∈ map_keys the_maps.1) in Hin. apply map_keys_elem in Hin as [n Hn].
  destruct (masked_ids (map_values the_maps.1) n) as (v & Hv & Hg).
  { apply map_values_elem. by exists id. }
  { by apply (sensitive_masked id). }
  destruct the_maps_ok as [[_ Hok] _]. destruct (Hok _ _ Hn) as [<- _]. cbv zeta.
  split; [by eapply map_get_nonempty|]. by rewrite Hg.
Qed.

Lemma masked_link_labels l :
  Forall clean_row rows -> g_maskSensitive options = true -> l ∈ links the_graph ->
  (sensitive_id (l_source l) -> hidden (l_sourceLabel l)) /\
  (sensitive_id (l_target l) -> hidden (l_targetLabel l)).
Proof.
  intros Hc Hmask Hl. destruct (graph_link_ends l Hc Hl) as (p & a & b & Hp & Hab & Ha & Hb).
  assert (l_source l ∈ n_id <$> nodes the_graph) as Hsrc.
  { apply graph_node_ids. exists p, a. split_and!; [done|by eapply pair_source|done]. }
  assert (l_target l ∈ n_id <$> nodes the_graph) as Htgt.
  { apply graph_node_ids. exists p, b. split_and!; [done|by eapply pair_target|done]. }
  destruct (graph_links_elem l Hc Hl) as (l0 & total & Hl0 & Heq).
  assert (l_source l = l_source l0 /\ l_target l = l_target l0 /\ l_sourceLabel l = l_sourceLabel l0 /\
    l_targetLabel l = l_targetLabel l0) as (Es & Et & -> & ->).
  { destruct Heq as [->|[al ->]]; unfold lit_link; by destruct highlights. }
  apply map_values_elem in Hl0 as [k Hk]. apply list_elem_of_In in Hk. unfold masked in Hk.
  rewrite Hmask in Hk. unfold maskFlowGraphLabels in Hk.
  split; intros Hs;
    [destruct (masked_end (l_source l) (l_sourceLabel l0) Hsrc Hs) as [Hlen _]
    |destruct (masked_end (l_target l) (l_targetLabel l0) Htgt Hs) as [Hlen _]];
    rewrite Hlen in Hk; cbn [snd] in Hk; apply in_map_iff in Hk as ([k1 l1] & [= _ <-] & _);
    cbn [maskLink l_source l_target l_sourceLabel l_targetLabel] in *; [rewrite <- Es|rewrite <- Et];
    by apply masked_end.
Qed.

(** ** Highlighting *)

(** The drawn paths through the selected node or link. *)
Definition lit_paths : list PreparedFlowPath :=
  List.filter (fun p => matchesPath (g_activeNode options) (g_activeLink options) (path p)) the_paths.

Lemma path_kind_stage p n : p ∈ the_paths -> n ∈ path p -> pn_kind n ∈ the_stages.
Proof.
  intros Hp Hn. apply graph_paths_ok in Hp as [Hk _]. unfold the_stages. rewrite <- Hk.
  by apply list_elem_of_fmap_2.
Qed.

Lemma path_nonempty p : p ∈ the_paths -> path p <> [].
Proof.
  intros Hp. apply graph_paths_ok in Hp as [Hk _]. pose proof (stages_shape r visible) as [_ Hl].
  intros Heq. rewrite Heq in Hk. rewrite <- Hk in Hl. cbn in Hl. lia.
Qed.

Lemma highlights_spec :
  match highlights with
  | None => lit_paths = []
  | Some s => lit_paths <> [] /\
      (forall id, id ∈ h_nodes s <-> exists p n, p ∈ lit_paths /\ n ∈ path p /\ id = pn_id n) /\
      (forall k, k ∈ h_links s <-> exists p a b, p ∈ lit_paths /\ (a, b) ∈ pairs (path p) /\ k = pathLinkKey a b)
  end.
Proof.
  unfold highlights, buildFlowHighlightSets. fold lit_paths. destruct (negb _ && _) eqn:E.
  - bool_hyps. unfold lit_paths. destruct (List.filter _ the_paths) as [|p ps] eqn:Ef; [done|].
    assert (In p (p :: ps)) as Hp by (by left). rewrite <- Ef, filter_In in Hp. destruct Hp as [Hp Hm].
    exfalso. revert Hm. unfold matchesPath. rewrite H0. destruct (g_activeNode options) as [a|]; [|done].
    unfold pathContainsFlowNode. rewrite existsb_exists. intros (n & Hn & Hk). bool_hyps.
    apply H. apply list_elem_of_In in Hp, Hn. rewrite <- H1. by eapply path_kind_stage.
  - clear E. set (hn := set_of (concat _)).
    assert (forall id, id ∈ hn <-> exists p n, p ∈ lit_paths /\ n ∈ path p /\ id = pn_id n) as Hn.
    { intros id. subst hn. rewrite set_of_concat. setoid_rewrite (list_elem_of_fmap pn_id). naive_solver. }
    destruct (length hn =? 0)%nat eqn:El.
    + apply Nat.eqb_eq, nil_length_inv in El. destruct lit_paths as [|p ps] eqn:Ef; [done|].
      assert (p ∈ the_paths) as Hp.
      { assert (In p lit_paths) as Hp by (rewrite Ef; by left). apply filter_In in Hp as [Hp _].
        by apply list_elem_of_In. }
      apply path_nonempty in Hp as Hne. destruct (path p) as [|n q] eqn:Ep; [done|]. exfalso.
      apply (not_elem_of_nil (pn_id n)). rewrite <- El. apply Hn. exists p, n. rewrite Ep. set_solver.
    + split_and!; [|exact Hn|].
      * intros Heq. apply Nat.eqb_neq in El. apply El.
        destruct hn as [|x hn'] eqn:Eh; [done|]. exfalso.
        destruct (proj1 (Hn x)) as (p & n & Hp & _); [left|]. rewrite Heq in Hp. by apply not_elem_of_nil in Hp.
      * intros k. cbn [h_links]. rewrite set_of_concat.
        setoid_rewrite (list_elem_of_fmap (fun '(a, b) => pathLinkKey a b)). split.
        -- intros (p & Hp & [a b] & -> & Hab). by exists p, a, b.
        -- intros (p & a & b & Hp & Hab & ->). exists p. split; [done|]. by exists (a, b).
Qed.

(** The loop sets no flag. *)
Lemma the_maps_flags :
  (forall k n, (k, n) ∈ the_maps.1 -> n_highlighted n = None /\ n_dimmed n = None) /\
  (forall k l, (k, l) ∈ the_maps.2 -> l_highlighted l = None /\ l_dimmed l = None).
Proof.
  unfold the_maps. apply fold_left_cons_inv; [split; intros ? ? H; by apply not_elem_of_nil in H|].
  intros [ns ls] p _ [Hn Hl]. unfold addPath. destruct (path p) as [|root rest]; [done|]. cbn [fst snd] in *.
  split.
  - apply fold_left_cons_inv; [exact Hn|]. intros m n _ Hm k n' Hin.
    apply map_set_elem in Hin as [[-> ->]|Hin]; [|by eapply Hm]. cbn [n_highlighted n_dimmed].
    destruct (map_get m (pn_id n)) as [prev|] eqn:E; [|done]. apply map_get_Some_elem in E. by eapply Hm.
  - apply fold_left_cons_inv; [exact Hl|]. intros m [a b] _ Hm k l' Hin.
    apply map_set_elem in Hin as [[-> ->]|Hin]; [|by eapply Hm]. cbn [l_highlighted l_dimmed].
    destruct (map_get m (pathLinkKey a b)) as [prev|] eqn:E; [|done]. apply map_get_Some_elem in E. by eapply Hm.
Qed.

Lemma masked_flags :
  (forall n, n ∈ map_values masked.1 -> n_highlighted n = None /\ n_dimmed n = None) /\
  (forall l, l ∈ map_values masked.2 -> l_highlighted l = None /\ l_dimmed l = None).
Proof.
  destruct the_maps_flags as [Hn Hl]. unfold masked.
  destruct (g_maskSensitive options); [|split; intros x [k Hk]%map_values_elem; eauto].
  assert (forall k n, (k, n) ∈ map (prod_map Datatypes.id maskNode) the_maps.1 ->
    n_highlighted n = None /\ n_dimmed n = None) as Hn'.
  { intros k n ([k' n'] & [= -> ->] & Hin)%list_elem_of_fmap. apply Hn in Hin.
    unfold maskNode. by destruct (isMasked n'). }
  unfold maskFlowGraphLabels. destruct (_ =? 0)%nat; cbn [fst snd];
    (split; intros x [k Hk]%map_values_elem; [by eapply Hn'|]); [by eapply Hl|].
  apply list_elem_of_fmap in Hk as ([k' l'] & [= -> ->] & Hin). by apply Hl in Hin.
Qed.

(** ** The first step *)

(** The links that start at a root are those of the first column. *)
Lemma first_step_sources l k :
  Forall clean_row rows -> l ∈ links the_graph -> head the_stages = Some k ->
  bool_decide (l_source l ∈ set_of (rootIds the_paths)) = of_kind k (l_source l).
Proof.
  intros Hc Hl Hk. apply bool_decide_ext. rewrite set_of_elem.
  destruct (graph_link_ends l Hc Hl) as (p & a & b & Hp & Hab & -> & _). apply pair_source in Hab.
  assert (forall q, q ∈ the_paths -> path_ok the_stages (path q)) as Hok by (intros q; apply graph_paths_ok).
  unfold rootIds. rewrite list_elem_of_In, filter_In, <- list_elem_of_In, list_elem_of_omap. split.
  - intros [(q & Hq & Ha) _]. destruct (Hok q Hq) as [Hkinds Ht]. destruct (path q) as [|root rest]; [done|].
    cbn in Ha. injection Ha as <-. rewrite <- Hkinds in Hk. injection Hk as <-.
    by apply Forall_cons in Ht as [Ht _].
  - intros Ha. destruct (Hok p Hp) as [Hkinds Ht]. rewrite Forall_forall in Ht.
    assert (pn_kind a = k) as Hak by (apply tag_inj; rewrite <- Ha; symmetry; apply (Ht a Hab)).
    split; [|by destruct (pn_id a), k].
    exists p. split; [done|]. pose proof (stages_shape r visible) as [Hnd _]. fold the_stages in Hnd.
    rewrite <- Hkinds in Hnd, Hk. destruct (path p) as [|root rest]; [done|]. injection Hk as Hk.
    apply elem_of_cons in Hab as [->|Hab]; [done|]. apply NoDup_cons in Hnd as [Hnd _]. destruct Hnd.
    change (pn_kind root ∈ pn_kind <$> rest). rewrite Hk, <- Hak. by apply list_elem_of_fmap_2.
Qed.

End Graph.
End Elements.
End FlowElements.
