(* ===== verification/FlowRanks.v ===== *)
(** * Ranks and filters of the flow graph

    The per-node totals that the limit to the top nodes and the filter options
    of [Flow.v] compute, and the rows that the node filters keep. *)

From S2P Require Import Prelude JsString JsCollections Flow FlowFacts.
#[local] Open Scope Z_scope.

Module FlowRanks.
Import Flow FlowFacts.

(** ** Accumulating ranks *)

(** One step of the loops of [nodeTotals] and [stageOptionTotals]. *)
Definition rank_add (m : list (jsstr * FlowNodeRank)) (key : jsstr) (node : FlowPathNode) (value : Z)
    : list (jsstr * FlowNodeRank) :=
  let current := map_get m key ?? mkRank node 0 in
  map_set m key (mkRank (r_node current) (r_value current + value)).

Section Ranks.
Variable metric : FlowMetric.
Variable key : FlowQuotaDataItem -> jsstr.
Variable node : FlowQuotaDataItem -> FlowPathNode.

Definition ranks (rows : list FlowQuotaDataItem) : list (jsstr * FlowNodeRank) :=
  fold_left (fun m row => rank_add m (key row) (node row) (row_value metric row)) rows [].

(** What the rows with a key are worth. *)
Definition key_total (rows : list FlowQuotaDataItem) (k : jsstr) : Z :=
  sum_by (fun row => when (is_id k (key row)) (row_value metric row)) rows.

Lemma ranks_keys rows : NoDup (map_keys (ranks rows)) /\ forall k, k ∈ map_keys (ranks rows) <-> k ∈ key <$> rows.
Proof.
  split.
  - unfold ranks. apply fold_left_cons_inv; [constructor|]. unfold rank_add. auto with js_db.
  - intros k. unfold ranks. rewrite (fold_keys _ key) by (intros; eexists; reflexivity). set_solver.
Qed.

Lemma ranks_values rows k v :
  (k, v) ∈ ranks rows ->
  r_value v = key_total rows k /\ exists row, row ∈ rows /\ key row = k /\ r_node v = node row.
Proof.
  revert k v. induction rows as [|row rows IH] using rev_ind; intros k v.
  { intros H. by apply not_elem_of_nil in H. }
  unfold ranks. rewrite fold_left_app. cbn [fold_left]. fold (ranks rows). unfold rank_add.
  unfold key_total. rewrite sum_by_app, sum_by_cons, sum_by_nil. fold (key_total rows k).
  intros Hin. pose proof (ranks_keys rows) as [Hnd Hkeys].
  destruct (decide (k = key row)) as [->|Hne].
  - assert (map_get (map_set (ranks rows) (key row)
      (mkRank (r_node (map_get (ranks rows) (key row) ?? mkRank (node row) 0))
         (r_value (map_get (ranks rows) (key row) ?? mkRank (node row) 0) + row_value metric row))) (key row) = Some v) as Hg.
    { apply map_elem_get; [by apply map_keys_set_nodup|exact Hin]. }
    rewrite map_get_set_eq in Hg. injection Hg as <-. cbn [r_value r_node].
    unfold is_id at 1. rewrite bool_decide_eq_true_2 by done. unfold when at 1.
    destruct (map_get (ranks rows) (key row)) as [c|] eqn:E.
    + apply map_get_Some_elem, IH in E as [Hc (row' & Hr & Hk & Hn)]. rewrite Hc. split; [lia|].
      exists row'. set_solver.
    + cbn [r_value r_node]. apply map_get_None in E. split; [|exists row; set_solver].
      unfold key_total. rewrite sum_by_zero; [lia|]. intros x Hx. unfold is_id.
      rewrite bool_decide_eq_false_2; [done|]. intros Heq. apply E, Hkeys. rewrite <- Heq.
      by apply list_elem_of_fmap_2.
  - apply map_set_elem in Hin as [[? _]|Hin]; [done|]. apply IH in Hin as [Hv (row' & Hr & Hk & Hn)].
    unfold is_id at 1. rewrite bool_decide_eq_false_2 by done. unfold when at 1.
    split; [lia|]. exists row'. set_solver.
Qed.

End Ranks.

(** ** The totals of the stages *)

Section Totals.
Variable metric : FlowMetric.
Variable ctx : FlowPathContext.

(** The id of the node of a row in a stage. *)
Definition stage_id (k : FlowNodeKind) (row : FlowQuotaDataItem) : jsstr := pn_id (NODE_BUILDERS k row ctx).

Definition stage_ranks (k : FlowNodeKind) (rows : list FlowQuotaDataItem) : list (jsstr * FlowNodeRank) :=
  ranks metric (stage_id k) (fun row => NODE_BUILDERS k row ctx) rows.

Lemma addRank_get totals k stage row :
  map_get (addRank (row_value metric row) totals (NODE_BUILDERS stage row ctx)) k
  = if decide (stage = k)
    then (fun st => rank_add st (stage_id k row) (NODE_BUILDERS k row ctx) (row_value metric row)) <$> map_get totals k
    else map_get totals k.
Proof.
  unfold addRank. destruct (builder_spec stage row ctx) as [Hk _]. rewrite Hk. case_decide as Hd.
  - subst k. destruct (map_get totals stage) as [st|] eqn:E; [|done]. by rewrite map_get_set_eq.
  - destruct (map_get totals stage); [|done]. by rewrite map_get_set_ne.
Qed.

Lemma addRanks_get stages row totals k :
  NoDup stages ->
  map_get (fold_left (addRank (row_value metric row)) (flowPathForStages row stages ctx) totals) k
  = if decide (k ∈ stages)
    then (fun st => rank_add st (stage_id k row) (NODE_BUILDERS k row ctx) (row_value metric row)) <$> map_get totals k
    else map_get totals k.
Proof.
  intros Hnd. revert totals. induction Hnd as [|s stages Hs Hnd IH]; intros totals; cbn.
  { by rewrite decide_False by apply not_elem_of_nil. }
  rewrite IH, addRank_get. destruct (decide (s = k)) as [->|Hne].
  - rewrite decide_False by done. by rewrite decide_True by left.
  - destruct (decide (k ∈ stages)); [rewrite decide_True by (by right)|rewrite decide_False by set_solver]; done.
Qed.

(** The totals of each stage are those of its own loop. *)
Lemma nodeTotals_get stages rows k :
  NoDup stages -> k ∈ stages -> map_get (nodeTotals rows metric stages ctx) k = Some (stage_ranks k rows).
Proof.
  intros Hnd Hk. unfold nodeTotals. induction rows as [|row rows IH] using rev_ind.
  - cbn [fold_left]. assert (forall m : KindRanks, k ∈ stages \/ map_get m k = Some [] ->
      map_get (fold_left (fun m stage => map_set m stage []) stages m) k = Some []) as H; [|by apply H; left].
    clear Hnd Hk. induction stages as [|s stages IH]; intros m Hm; cbn [fold_left]; [set_solver|].
    apply IH. destruct (decide (s = k)) as [->|Hne]; [right; apply map_get_set_eq|].
    rewrite map_get_set_ne by done. set_solver.
  - rewrite fold_left_app. cbn [fold_left]. etrans; [apply (addRanks_get stages row _ k Hnd)|].
    rewrite decide_True, IH by done. unfold stage_ranks, ranks. by rewrite fold_left_app.
Qed.

Lemma map_get_pairs {K V W} `{EqDecision K} (f : V -> W) (m : list (K * V)) k :
  map_get (map (fun '(k, v) => (k, f v)) m) k = f <$> map_get m k.
Proof. induction m as [|[k' v] m IH]; cbn; [done|]. by case_decide. Qed.

(** ** The top nodes *)

Variable localeCompare : jsstr -> jsstr -> Z.

Lemma topNodeSets_get rows stages limit k :
  NoDup stages -> k ∈ stages ->
  exists s, buildTopNodeSets localeCompare rows metric stages (Some limit) ctx = Some s /\
    map_get s k = Some (topIds localeCompare limit (stage_ranks k rows)).
Proof.
  intros Hnd Hk. eexists. split; [reflexivity|].
  rewrite (map_get_pairs (topIds localeCompare limit)). by rewrite nodeTotals_get.
Qed.

Lemma set_of_length {A} `{EqDecision A} (xs : list A) : (length (set_of xs) <= length xs)%nat.
Proof.
  apply submseteq_length, NoDup_submseteq; [apply set_of_nodup|]. intros x. by rewrite set_of_elem.
Qed.

Lemma topIds_length limit st : (length (topIds localeCompare limit st) <= limit)%nat.
Proof. unfold topIds. etrans; [apply set_of_length|]. rewrite length_map, length_take. lia. Qed.

(** The kept nodes of a stage are the largest. *)
Lemma topIds_largest `{!Comparator localeCompare} limit st x y :
  x ∈ map_values st -> y ∈ map_values st -> NoDup ((fun r => pn_id (r_node r)) <$> map_values st) ->
  pn_id (r_node x) ∈ topIds localeCompare limit st -> pn_id (r_node y) ∉ topIds localeCompare limit st ->
  r_value y <= r_value x.
Proof.
  intros Hx Hy Hnd Htx Hty. unfold topIds in *. rewrite set_of_elem in Htx, Hty.
  set (sorted := js_sort (compareRanks localeCompare) (map_values st)) in *.
  assert (x ∈ take limit sorted) as Hxt.
  { apply list_elem_of_fmap in Htx as (x' & Heq & Hx'). assert (x' ∈ map_values st) as Hxs.
    { apply (js_sort_elem (compareRanks localeCompare)). fold sorted.
      apply elem_of_take in Hx' as (i & Hi & _). by eapply list_elem_of_lookup_2. }
    replace x with x'; [done|].
    apply list_elem_of_lookup in Hx as [i Hi]. apply list_elem_of_lookup in Hxs as [j Hj].
    assert (i = j) as ->; [|congruence].
    eapply (NoDup_lookup _ i j (pn_id (r_node x)) Hnd); rewrite list_lookup_fmap; [by rewrite Hi|].
    rewrite Hj. cbn. by rewrite Heq. }
  assert (y ∈ drop limit sorted) as Hyd.
  { assert (y ∈ sorted) as Hys by (by apply js_sort_elem). rewrite <- (take_drop limit sorted) in Hys.
    apply elem_of_app in Hys as [Hys|]; [|done]. destruct Hty. by apply (list_elem_of_fmap_2 (fun r => pn_id (r_node r))). }
  assert (Comparator (compareRanks localeCompare)) as Hcmp.
  { apply comparator_or; [apply (comparator_sub_desc r_value)|].
    apply comparator_or; [by apply (comparator_on (fun r => pn_label (r_node r)))|].
    by apply (comparator_on (fun r => pn_id (r_node r))). }
  pose proof (js_sort_sorted (compareRanks localeCompare) (map_values st)) as Hs. fold sorted in Hs.
  rewrite <- (take_drop limit sorted) in Hs. 
  pose proof (StronglySorted_app_1_elem_of _ _ _ _ _ Hs Hxt Hyd) as Hle. unfold compareRanks in Hle.
  destruct (r_value y - r_value x =? 0) eqn:E; bool_hyps; lia.
Qed.

End Totals.

(** ** The node filters *)

Lemma kind_sets_step (m : KindSets) k x kd id :
  id ∈ (map_get (map_set m k (set_add (map_get m k ?? []) x)) kd ?? []) <->
  id ∈ (map_get m kd ?? []) \/ (k = kd /\ id = x).
Proof.
  destruct (decide (k = kd)) as [->|Hne].
  - rewrite map_get_set_eq, set_add_elem. naive_solver.
  - rewrite map_get_set_ne by done. naive_solver.
Qed.

(** The filters by kind hold the selected ids of the shown stages. *)
Lemma normalized_spec selected stages kd id :
  id ∈ (map_get (normalizeSelectedNodeFilters selected stages) kd ?? []) <->
  kd ∈ stages /\ mkNodeFilter kd id ∈ (selected ?? []).
Proof.
  unfold normalizeSelectedNodeFilters. induction (selected ?? []) as [|f fs IH] using rev_ind.
  { cbn. set_solver. }
  rewrite fold_left_app. cbn [fold_left]. rewrite elem_of_app, list_elem_of_singleton.
  destruct (bool_decide (f_kind f ∈ stages)) eqn:E; bool_hyps; cbn [negb].
  - rewrite kind_sets_step, IH. destruct f as [fk fi]. cbn in *. naive_solver.
  - rewrite IH. destruct f as [fk fi]. cbn in *. naive_solver.
Qed.

(** A kind has an entry when a filter of a shown stage is selected. *)
Lemma normalized_keys selected stages kd :
  kd ∈ map_keys (normalizeSelectedNodeFilters selected stages) <->
  kd ∈ stages /\ exists id, mkNodeFilter kd id ∈ (selected ?? []).
Proof.
  unfold normalizeSelectedNodeFilters. revert kd.
  induction (selected ?? []) as [|f fs IH] using rev_ind; intros kd.
  { cbn. set_solver. }
  rewrite fold_left_app. cbn [fold_left]. setoid_rewrite elem_of_app. setoid_rewrite list_elem_of_singleton.
  destruct f as [fk fi]. cbn [f_kind f_id]. case_bool_decide as E; cbn [negb].
  - rewrite map_keys_set.
    case_decide as Hd; [|rewrite elem_of_app, list_elem_of_singleton]; rewrite IH.
    + rewrite IH in Hd. naive_solver.
    + naive_solver.
  - rewrite IH. naive_solver.
Qed.

Lemma normalized_nodup selected stages : NoDup (map_keys (normalizeSelectedNodeFilters selected stages)).
Proof.
  unfold normalizeSelectedNodeFilters. apply fold_left_cons_inv; [constructor|]. intros m f _ Hm.
  destruct (negb _); auto with js_db.
Qed.

Lemma pathNodesByKind_spec p kd :
  (forall id, id ∈ (map_get (pathNodesByKind p) kd ?? []) <-> exists n, n ∈ p /\ pn_kind n = kd /\ pn_id n = id).
Proof.
  unfold pathNodesByKind. induction p as [|n p IH] using rev_ind; intros id.
  { cbn. set_solver. }
  rewrite fold_left_app. cbn [fold_left]. rewrite kind_sets_step, IH.
  setoid_rewrite elem_of_app. setoid_rewrite list_elem_of_singleton. naive_solver.
Qed.

(** What the node filters ask of a row: in every shown stage with a selected
    node, the node of the row is selected. *)
Lemma pathMatches_spec selected stages ctx row :
  pathMatchesNodeFilters (flowPathForStages row stages ctx) (normalizeSelectedNodeFilters selected stages) = true <->
  (forall f, f ∈ (selected ?? []) -> f_kind f ∈ stages ->
     mkNodeFilter (f_kind f) (stage_id ctx (f_kind f) row) ∈ (selected ?? [])).
Proof.
  set (filters := normalizeSelectedNodeFilters selected stages). unfold pathMatchesNodeFilters.
  assert (forall f, f ∈ (selected ?? []) -> f_kind f ∈ stages -> f_kind f ∈ map_keys filters) as Hkey.
  { intros [fk fi] Hf Hs. apply normalized_keys. split; [done|]. by exists fi. }
  destruct (length filters =? 0)%nat eqn:El.
  { apply Nat.eqb_eq, nil_length_inv in El. split; [|done]. intros _.
    intros f Hf Hs. specialize (Hkey f Hf Hs). rewrite El in Hkey. by apply not_elem_of_nil in Hkey. }
  rewrite forallb_forall.
  pose proof (normalized_nodup selected stages) as Hnd. fold filters in Hnd. split.
  - intros H f Hf Hs. specialize (Hkey f Hf Hs). apply map_keys_elem in Hkey as [ids Hids].
    specialize (H (f_kind f, ids)). cbn in H. specialize (H (proj1 (list_elem_of_In _ _) Hids)).
    destruct (map_get (pathNodesByKind _) (f_kind f)) as [pids|] eqn:Eg; [|done].
    apply existsb_exists in H as (id & Hid & Hp). bool_hyps. apply list_elem_of_In in Hid.
    assert (exists n, n ∈ flowPathForStages row stages ctx /\ pn_kind n = f_kind f /\ pn_id n = id) as (n & Hn & Hk & <-).
    { apply pathNodesByKind_spec. by rewrite Eg. }
    apply list_elem_of_fmap in Hn as (s & -> & _). destruct (builder_spec s row ctx) as [Hbk _].
    rewrite Hbk in Hk. subst s. apply (normalized_spec selected stages). fold filters.
    by rewrite (map_elem_get _ _ _ Hnd Hids).
  - intros H [kd ids] Hin. apply list_elem_of_In in Hin.
    assert (kd ∈ map_keys filters) as Hk by (apply map_keys_elem; eauto).
    apply normalized_keys in Hk as [Hs [id Hid]]. specialize (H _ Hid Hs). cbn in H.
    assert (stage_id ctx kd row ∈ (map_get (pathNodesByKind (flowPathForStages row stages ctx)) kd ?? [])) as Hp.
    { apply pathNodesByKind_spec. exists (NODE_BUILDERS kd row ctx). split_and!; [|apply builder_spec|done].
      by apply (list_elem_of_fmap_2 (fun s => NODE_BUILDERS s row ctx)). }
    destruct (map_get (pathNodesByKind _) kd) as [pids|]; [|by apply not_elem_of_nil in Hp].
    apply existsb_exists. exists (stage_id ctx kd row). split; [|by apply bool_decide_eq_true_2].
    assert (stage_id ctx kd row ∈ (map_get filters kd ?? [])) as Hf by (by apply normalized_spec).
    rewrite (map_elem_get _ _ _ Hnd Hin) in Hf. by apply list_elem_of_In.
Qed.

(** The filter passes over the rows whether or not a filter is selected. *)
Lemma filterRowsByNodes_filter rows selected stages ctx :
  filterRowsByNodes rows selected stages ctx
  = List.filter (fun row => pathMatchesNodeFilters (flowPathForStages row stages ctx)
      (normalizeSelectedNodeFilters selected stages)) rows.
Proof.
  unfold filterRowsByNodes, pathMatchesNodeFilters. destruct (_ =? 0)%nat eqn:E; [|done].
  induction rows as [|row rows IH]; cbn [List.filter]; [done|]. by rewrite <- IH.
Qed.

End FlowRanks.
