(* ===== verification/FlowProperties.v ===== *)
(** * Properties of the dashboard flow data

    Theorems on the result of [buildDashboardFlowData] of [Flow.v]. *)

From Stdlib Require Import QArith.
From S2P Require Import Prelude JsString JsCollections Flow FlowExample FlowFacts FlowElements.
#[local] Open Scope Z_scope.

Module FlowProperties.
Import Flow FlowFacts FlowElements.

(** ** Sums of rationals *)

Definition Qsum_by {A} (f : A -> Q) (l : list A) : Q := foldr (fun x acc => f x + acc)%Q 0%Q l.

Lemma Qsum_by_fractions {A} (v : A -> Z) d (l : list A) :
  (Qsum_by (fun x => v x # d) l == sum_by v l # d)%Q.
Proof.
  induction l as [|x l IH]; [done|]. unfold Qsum_by, sum_by in *. cbn [foldr]. rewrite IH.
  unfold Qeq. cbn. lia.
Qed.

(** Two lists with the same keys and the same weights. *)
Lemma Qsum_by_same {A B} (f g : A -> Q) (k : A -> B) (P : B -> bool) l l' :
  f <$> l = g <$> l' -> k <$> l = k <$> l' ->
  Qsum_by f (List.filter (fun x => P (k x)) l) = Qsum_by g (List.filter (fun x => P (k x)) l').
Proof.
  revert l'. induction l as [|x l IH]; intros [|y l'] Hf Hk; try done.
  cbn in Hf, Hk. injection Hf as Hf Hf'. injection Hk as Hk Hk'. cbn [List.filter]. rewrite Hk.
  specialize (IH l' Hf' Hk'). destruct (P (k y)); [|done]. cbn. unfold Qsum_by in IH. by rewrite Hf, IH.
Qed.

Lemma sum_by_filter {A} (P : A -> bool) (v : A -> Z) l :
  sum_by v (List.filter P l) = sum_by (fun x => when (P x) (v x)) l.
Proof.
  induction l as [|x l IH]; [done|]. cbn [List.filter]. rewrite sum_by_cons, <- IH.
  destruct (P x); [by rewrite sum_by_cons|]. unfold when. lia.
Qed.

Lemma sum_fold {A} (v : A -> Z) l : fold_left (fun s x => s + v x) l 0 = sum_by v l.
Proof.
  induction l as [|x l IH] using rev_ind; [done|].
  by rewrite fold_left_app, sum_by_app, <- IH, sum_by_cons, sum_by_nil, Z.add_0_r.
Qed.

Section Dashboard.
Variable localeCompare : jsstr -> jsstr -> Z.
Variable formatNumber : Z -> jsstr.
Variable schemes : list (option Z * list (option jsstr)).
Variable metric : FlowMetric.
Variables (rows : list FlowQuotaDataItem) (options : FlowBuildOptions).

Definition data : ProcessedFlowData :=
  buildDashboardFlowData localeCompare formatNumber schemes rows metric options.

Definition shown_stages : list FlowNodeKind :=
  resolveVisibleStages (role options ?? RoleUser) (visibleStages options).

Definition kept_rows : list FlowQuotaDataItem :=
  filterRowsByNodes (filterRows rows (selectedUsers options)) (selectedNodes options) shown_stages
    (deletedTokenLabelOpt options).

Definition graph_options : FlowGraphOptions :=
  mkGraphOptions (topNodeLimit options) (overflowMode options) (otherNodeLabel options)
    (activeNode options) (activeLink options) (maskSensitive options).

(** The paths the diagram is drawn from. *)
Definition drawn_paths : list PreparedFlowPath :=
  graph_paths localeCompare metric kept_rows (role options ?? RoleUser) (visibleStages options)
    (deletedTokenLabelOpt options) graph_options.

Lemma data_flow :
  flow data = graph_of localeCompare schemes metric kept_rows (role options ?? RoleUser)
    (colorPaletteOpt options) (visibleStages options) (deletedTokenLabelOpt options) graph_options.
Proof. done. Qed.

Lemma kept_rows_elem row : row ∈ kept_rows -> row ∈ rows.
Proof.
  unfold kept_rows, filterRowsByNodes, filterRows. rewrite !list_elem_of_In. intros H.
  repeat case_match; rewrite ?filter_In in H; tauto.
Qed.

Lemma kept_rows_clean : Forall clean_row rows -> Forall clean_row kept_rows.
Proof. rewrite !Forall_forall. intros H row Hr. by apply H, kept_rows_elem. Qed.

Lemma shown_stages_shape : NoDup shown_stages /\ (2 <= length shown_stages)%nat.
Proof. apply stages_shape. Qed.

Lemma pairs_lookup {A} (l : list A) a b : (a, b) ∈ pairs l -> exists i, l !! i = Some a /\ l !! S i = Some b.
Proof.
  induction l as [|x [|y l] IH]; cbn [pairs]; [set_solver..|]. intros [[= -> ->]|H]%elem_of_cons.
  - by exists 0%nat.
  - destruct (IH H) as (i & ? & ?). by exists (S i).
Qed.

(** A node of a path is drawn, in its column. *)
Lemma path_node_drawn p pn :
  p ∈ drawn_paths -> pn ∈ path p ->
  exists n, n ∈ nodes (flow data) /\ n_id n = pn_id pn /\ n_kind n = pn_kind pn.
Proof.
  intros Hp Hn. destruct (graph_sums localeCompare schemes metric kept_rows (role options ?? RoleUser)
    (colorPaletteOpt options) (visibleStages options) (deletedTokenLabelOpt options) graph_options)
    as (_ & _ & Ht & _).
  assert (pn_id pn ∈ n_id <$> nodes (flow data)) as Hin.
  { rewrite data_flow. apply graph_node_ids. by exists p, pn. }
  apply list_elem_of_fmap in Hin as (n & Heq & Hin). exists n. split_and!; [done|done|].
  specialize (Ht n Hin). apply tag_inj. rewrite <- Ht, <- Heq.
  apply graph_paths_ok in Hp as [_ Hp]. rewrite Forall_forall in Hp. apply (Hp pn Hn).
Qed.

(** The links in the order of the diagram, with the total of the first step. *)
Lemma graph_links_total k :
  Forall clean_row kept_rows -> head shown_stages = Some k -> 
  exists ls,
    (0 < sum_by (path_value metric) drawn_paths ->
     l_share <$> links (flow data)
     = (fun l => l_value l # Z.to_pos (sum_by (path_value metric) drawn_paths)) <$> ls) /\
    link_view <$> links (flow data) = link_view <$> ls /\
    sum_by (fun l => when (of_kind k (l_source l)) (l_value l)) ls = sum_by (path_value metric) drawn_paths.
Proof.
  intros Hc Hk. rewrite data_flow.
  destruct (graph_views localeCompare schemes metric kept_rows (role options ?? RoleUser)
    (colorPaletteOpt options)
    (visibleStages options) (deletedTokenLabelOpt options) graph_options) as (colors & _ & Hv).
  cbv zeta in Hv. fold drawn_paths in Hv. set (g := graph_of _ _ _ _ _ _ _ _ _) in *.
  destruct (filled_spec schemes metric colors (colorPaletteOpt options) drawn_paths) as (_ & _ & Hok).
  { apply Forall_forall. intros p Hp. eapply graph_paths_ok. exact Hp. }
  destruct Hok as [Hok _]; [by apply graph_paths_clean|].
  destruct (Hv Hok) as (_ & ls & _ & Hshare & Hview). exists ls.
  assert (sum_by (fun l => when (of_kind k (l_source l)) (l_value l)) ls
          = sum_by (path_value metric) drawn_paths) as Htotal.
  { etrans; [symmetry; apply (sum_view link_view (fun v => when (of_kind k v.1.1) v.2)); by rewrite Hview|].
    destruct (graph_sums localeCompare schemes metric kept_rows (role options ?? RoleUser)
    (colorPaletteOpt options)
      (visibleStages options) (deletedTokenLabelOpt options) graph_options) as (_ & _ & _ & Hl).
    etrans; [apply (Hl Hc (fun a _ => of_kind k a))|]. apply sum_by_ext. intros p Hp.
    eapply path_first_step; [by eapply graph_paths_ok|apply stages_shape..|exact Hk]. }
  split_and!; [|done|done]. intros Hpos. rewrite Hshare. apply list_fmap_ext. intros i l Hl.
  unfold withShare. cbn [l_share].
  assert (firstStepTotal (set_of (rootIds drawn_paths)) ls = sum_by (path_value metric) drawn_paths) as ->.
  { unfold firstStepTotal. rewrite sum_fold, sum_by_filter, <- Htotal. apply sum_by_ext. intros l' Hl'.
    f_equal. assert (link_view l' ∈ link_view <$> links g) as Hin.
    { rewrite Hview. by apply list_elem_of_fmap_2. }
    apply list_elem_of_fmap in Hin as (l2 & Heq & Hin). unfold link_view in Heq. injection Heq as -> _ _.
    by eapply first_step_sources. }
  by rewrite (proj2 (Z.ltb_lt _ _) Hpos).
Qed.

(** C24: The diagram is balanced: what enters a node through its links is its
    value, except in the first column, and what leaves it is its value, except
    in the last one, whatever the filters, the limit, the masking and the
    highlighting.  (The names hold no NUL, which separates the two ids in the
    key of a link.) *)
Theorem diagram_is_balanced n :
  Forall clean_row rows -> n ∈ nodes (flow data) ->
  (head shown_stages <> Some (n_kind n) -> inflow (flow data) (n_id n) = n_value n) /\
  (last shown_stages <> Some (n_kind n) -> outflow (flow data) (n_id n) = n_value n).
Proof. intros Hc Hn. apply graph_balanced; [by apply kept_rows_clean|done]. Qed.

(** Every column of the diagram adds up to the figure of the summary,
    unless rows over the limit are hidden. *)
Theorem columns_match_summary k :
  overflowMode options <> Some OverflowHide \/ normalizeTopNodeLimit (topNodeLimit options) = None ->
  k ∈ shown_stages ->
  column_value (flow data) k = summaryValue metric (summary data).
Proof.
  intros Hm Hk. rewrite data_flow, column_paths by done. by apply graph_paths_total.
Qed.

(** The diagram is layered: every link goes from a node of a column to a
    node of the next column, so it has no cycle. *)
Theorem links_join_adjacent_columns l :
  Forall clean_row rows -> l ∈ links (flow data) ->
  exists i a b, a ∈ nodes (flow data) /\ b ∈ nodes (flow data) /\
    l_source l = n_id a /\ l_target l = n_id b /\
    shown_stages !! i = Some (n_kind a) /\ shown_stages !! S i = Some (n_kind b).
Proof.
  intros Hc Hl. apply graph_link_ends in Hl as (p & a & b & Hp & Hab & Ha & Hb); [|by apply kept_rows_clean].
  apply pairs_lookup in Hab as (i & Hai & Hbi). exists i.
  destruct (path_node_drawn p a Hp) as (na & Hna & Hia & Hka); [by eapply list_elem_of_lookup_2|].
  destruct (path_node_drawn p b Hp) as (nb & Hnb & Hib & Hkb); [by eapply list_elem_of_lookup_2|].
  apply graph_paths_ok in Hp as [Hk _].
  exists na, nb. split_and!; try done; [congruence|congruence| |];
    unfold shown_stages; rewrite <- Hk, list_lookup_fmap; [rewrite Hai|rewrite Hbi]; cbn; congruence.
Qed.

(** The shares of the links of the first step add up to one, when the
    first column is worth something. *)
Theorem first_step_shares k :
  Forall clean_row rows -> head shown_stages = Some k -> 0 < column_value (flow data) k ->
  (Qsum_by l_share (List.filter (fun l => of_kind k (l_source l)) (links (flow data))) == 1)%Q.
Proof.
  intros Hc Hk Hpos. pose proof (kept_rows_clean Hc) as Hck. rewrite data_flow in *.
  rewrite column_paths in Hpos by (by apply head_elem).
  set (g := graph_of _ _ _ _ _ _ _ _ _) in *.
  destruct (graph_links_total k Hck Hk) as (ls & Hshare & Hview & Htotal).
  set (total := sum_by (path_value metric) drawn_paths) in *.
  assert (Qsum_by l_share (List.filter (fun l => of_kind k (l_source l)) (links g))
          = Qsum_by (fun l => l_value l # Z.to_pos total) (List.filter (fun l => of_kind k (l_source l)) ls)) as ->
    by exact (Qsum_by_same _ _ link_view (fun v => of_kind k v.1.1) _ _ (Hshare Hpos) Hview).
  rewrite Qsum_by_fractions, sum_by_filter, Htotal. unfold Qeq. cbn [Qnum Qden].
  fold total. change (0 < total) in Hpos. lia.
Qed.

(** With masking on, the label of every user, node, token, group and
    channel, on the nodes and on both ends of the links, is hidden; the
    aggregated remainders keep theirs. *)
Theorem masking_hides_labels :
  Forall clean_row rows -> maskSensitive options = true ->
  (forall n, n ∈ nodes (flow data) -> sensitive_id (n_id n) -> hidden (n_label n)) /\
  (forall l, l ∈ links (flow data) ->
     (sensitive_id (l_source l) -> hidden (l_sourceLabel l)) /\
     (sensitive_id (l_target l) -> hidden (l_targetLabel l))).
Proof.
  intros Hc Hm. rewrite data_flow. split.
  - intros n. by apply masked_node_labels.
  - intros l. apply masked_link_labels; [by apply kept_rows_clean|done].
Qed.

(** The drawn paths through the selected node or link. *)
Definition selected_paths : list PreparedFlowPath :=
  List.filter (fun p => matchesPath (activeNode options) (activeLink options) (path p)) drawn_paths.

Lemma path_id_clean p pn : Forall clean_row kept_rows -> p ∈ drawn_paths -> pn ∈ path p -> 0 ∉ pn_id pn.
Proof.
  intros Hc Hp Hn. pose proof (graph_paths_clean localeCompare metric kept_rows (role options ?? RoleUser)
    (visibleStages options) (deletedTokenLabelOpt options) graph_options Hc) as Hcp.
  rewrite Forall_forall in Hcp. specialize (Hcp p Hp). unfold clean_path in Hcp.
  rewrite Forall_forall in Hcp. by apply Hcp.
Qed.

Lemma lit_link_ends l :
  Forall clean_row kept_rows -> 0 ∉ l_source l ->
  (exists p x y, p ∈ selected_paths /\ (x, y) ∈ pairs (path p) /\ linkStableKey l = pathLinkKey x y) <->
  (exists p x y, p ∈ selected_paths /\ (x, y) ∈ pairs (path p) /\ l_source l = pn_id x /\ l_target l = pn_id y).
Proof.
  intros Hc Hz. split; intros (p & x & y & Hp & Hxy & H); exists p, x, y; (split; [done|]; split; [done|]).
  - apply linkKey_inj in H; [done|done|]. apply (path_id_clean p); [done| |by eapply pair_source].
    unfold selected_paths in Hp. apply list_elem_of_In, filter_In in Hp as [Hp _]. by apply list_elem_of_In.
  - destruct H as [Hx Hy]. unfold linkStableKey, pathLinkKey. by rewrite Hx, Hy.
Qed.

(** When a drawn path goes through the selection, exactly the nodes and
    the links of the paths through it are highlighted and the others are
    dimmed; when none does, nothing is highlighted or dimmed. *)
Theorem highlighting_is_exact :
  Forall clean_row rows ->
  (selected_paths = [] ->
   (forall n, n ∈ nodes (flow data) -> n_highlighted n = None /\ n_dimmed n = None) /\
   (forall l, l ∈ links (flow data) -> l_highlighted l = None /\ l_dimmed l = None)) /\
  (selected_paths <> [] ->
   (forall n, n ∈ nodes (flow data) -> exists b, n_highlighted n = Some b /\ n_dimmed n = Some (negb b) /\
      (b = true <-> exists p pn, p ∈ selected_paths /\ pn ∈ path p /\ n_id n = pn_id pn)) /\
   (forall l, l ∈ links (flow data) -> exists b, l_highlighted l = Some b /\ l_dimmed l = Some (negb b) /\
      (b = true <-> exists p x y, p ∈ selected_paths /\ (x, y) ∈ pairs (path p) /\
         l_source l = pn_id x /\ l_target l = pn_id y))).
Proof.
  intros Hc. apply kept_rows_clean in Hc.
  pose proof (highlights_spec localeCompare metric kept_rows (role options ?? RoleUser)
    (visibleStages options) (deletedTokenLabelOpt options) graph_options) as Hs.
  destruct (masked_flags localeCompare schemes metric kept_rows (role options ?? RoleUser)
    (colorPaletteOpt options) (visibleStages options) (deletedTokenLabelOpt options) graph_options) as [Fn Fl].
  change (lit_paths _ _ _ _ _ _ _) with selected_paths in Hs.
  rewrite data_flow. split; intros Hsel.
  - destruct (highlights _ _ _ _ _ _ _) eqn:E in Hs; [by destruct Hs|]. split.
    + intros n (n0 & Hn0 & ->)%graph_nodes_elem. unfold lit_node. rewrite E. by apply Fn.
    + intros l Hl. apply graph_links_elem in Hl as (l0 & total & Hl0 & Heq); [|done].
      unfold lit_link in Heq. rewrite E in Heq. destruct Heq as [->|[a ->]]; exact (Fl l0 Hl0).
  - destruct (highlights _ _ _ _ _ _ _) as [s|] eqn:E in Hs; [|by destruct Hsel].
    destruct Hs as (_ & Hn & Hl). split.
    + intros n (n0 & Hn0 & ->)%graph_nodes_elem. unfold lit_node. rewrite E.
      eexists. split_and!; [reflexivity..|]. rewrite bool_decide_eq_true. apply Hn.
    + intros l Hin. pose proof Hin as Hin'.
      apply graph_link_ends in Hin' as (p & a & b & Hp & Hab & Ha & Hb); [|done].
      assert (0 ∉ l_source l) as Hz by (rewrite Ha; apply (path_id_clean p); [done..|by eapply pair_source]).
      apply graph_links_elem in Hin as (l0 & total & Hl0 & Heq); [|done].
      unfold lit_link in Heq. rewrite E in Heq.
      exists (bool_decide (linkStableKey l ∈ h_links s)).
      split_and!; [by destruct Heq as [->|[al ->]]..|].
      rewrite bool_decide_eq_true, Hl. by apply lit_link_ends.
Qed.

End Dashboard.

(** ** Instances *)

#[local] Abbreviation example o := (data FlowExample.no_collation showZ [] MetricQuota FlowExample.rows o).

Lemma example_clean : Forall clean_row FlowExample.rows.
Proof. apply (bool_decide_eq_true_1 (Forall _ _)). vm_compute. reflexivity. Qed.

(** Masking the labels can change the order of the nodes: nodes with the
    same value are sorted by their label, which is the same text once masked. *)
Theorem masking_reorders_nodes :
  let ids mask := n_id <$> nodes (flow (data FlowExample.code_unit_compare showZ [] MetricQuota
    FlowExample.tied_rows (FlowExample.options None None None mask))) in
  ids false = [js "model:gpt"; js "group:unknown"; js "token:1"; js "token:2"] /\
  ids true = [js "model:gpt"; js "group:unknown"; js "token:2"; js "token:1"].
Proof. vm_compute. split; reflexivity. Qed.

Lemma diagram_is_balanced_witness :
  exists n, FlowExample.node_at FlowExample.plain 0 = Some n /\ n_label n = js "default" /\
    inflow (flow (example FlowExample.plain)) (n_id n) = n_value n /\
    outflow (flow (example FlowExample.plain)) (n_id n) = n_value n.
Proof.
  eexists. split; [vm_compute; reflexivity|]. split; [reflexivity|].
  destruct (diagram_is_balanced FlowExample.no_collation showZ [] MetricQuota FlowExample.rows FlowExample.plain
    (FlowExample.node_at FlowExample.plain 0 ?? mkFlowNode [] [] KUser 0 0 0 0 [] [] None None)) as [H1 H2].
  - exact example_clean.
  - apply (list_elem_of_lookup_2 _ 0). vm_compute. reflexivity.
  - split; [apply H1|apply H2]; vm_compute; discriminate.
Defined.

Lemma columns_match_summary_witness :
  column_value (flow (example FlowExample.plain)) KModel = summaryValue MetricQuota (summary (example FlowExample.plain)).
Proof.
  apply columns_match_summary; [left; discriminate|].
  apply (bool_decide_eq_true_1 (_ ∈ _)). vm_compute. reflexivity.
Defined.

Lemma links_join_adjacent_columns_witness :
  exists l, FlowExample.link_at FlowExample.plain 1 = Some l /\
  exists i a b, a ∈ nodes (flow (example FlowExample.plain)) /\ b ∈ nodes (flow (example FlowExample.plain)) /\
    l_source l = n_id a /\ l_target l = n_id b /\
    shown_stages FlowExample.plain !! i = Some (n_kind a) /\ shown_stages FlowExample.plain !! S i = Some (n_kind b).
Proof.
  eexists. split; [vm_compute; reflexivity|].
  apply (links_join_adjacent_columns FlowExample.no_collation showZ [] MetricQuota); [exact example_clean|].
  apply (list_elem_of_lookup_2 _ 1). vm_compute. reflexivity.
Defined.

Lemma first_step_shares_witness :
  (Qsum_by l_share (List.filter (fun l => of_kind KToken (l_source l)) (links (flow (example FlowExample.plain)))) == 1)%Q.
Proof.
  apply first_step_shares; [exact example_clean|vm_compute; reflexivity..].
Defined.

Definition masked_options : FlowBuildOptions := FlowExample.options None None None true.
Definition active_options : FlowBuildOptions :=
  FlowExample.options None (Some (mkNodeFilter KToken (js "token:2"))) None false.

Lemma masking_hides_labels_witness :
  exists n, FlowExample.node_at masked_options 1 = Some n /\ hidden (n_label n) /\
    forall l, l ∈ links (flow (example masked_options)) -> sensitive_id (l_source l) -> hidden (l_sourceLabel l).
Proof.
  eexists. split; [vm_compute; reflexivity|].
  destruct (masking_hides_labels FlowExample.no_collation showZ [] MetricQuota FlowExample.rows
    masked_options example_clean eq_refl) as [Hn Hl].
  split; [|intros l H; by apply Hl].
  apply (Hn (FlowExample.node_at masked_options 1 ??
    mkFlowNode [] [] KUser 0 0 0 0 [] [] None None)).
  - apply (list_elem_of_lookup_2 _ 1). vm_compute. reflexivity.
  - split; [apply (bool_decide_eq_true_1 (_ ∉ _)); vm_compute; reflexivity|].
    exists KToken. split; [apply (bool_decide_eq_true_1 (_ ∈ _)); vm_compute; reflexivity|vm_compute; reflexivity].
Defined.

Lemma highlighting_is_exact_witness :
  exists n, FlowExample.node_at active_options 0 = Some n /\ n_highlighted n = Some true /\
    exists p pn, p ∈ selected_paths FlowExample.no_collation MetricQuota FlowExample.rows active_options /\ pn ∈ path p /\ n_id n = pn_id pn.
Proof.
  eexists. split; [vm_compute; reflexivity|]. split; [reflexivity|].
  destruct (highlighting_is_exact FlowExample.no_collation showZ [] MetricQuota FlowExample.rows
    active_options example_clean) as [_ Hs].
  destruct Hs as [Hn _]; [vm_compute; discriminate|].
  destruct (Hn (FlowExample.node_at active_options 0 ??
    mkFlowNode [] [] KUser 0 0 0 0 [] [] None None)) as (b & Hb & _ & Hiff).
  - apply (list_elem_of_lookup_2 _ 0). vm_compute. reflexivity.
  - apply Hiff. vm_compute in Hb. congruence.
Defined.
End FlowProperties.
