(* ===== verification/FlowSelection.v ===== *)
(** * Limits and filters of the dashboard flow data

    Theorems on the limit to the top nodes and on the filter options of
    [buildDashboardFlowData]. *)

From Stdlib Require Import QArith.
From S2P Require Import Prelude JsString JsCollections Flow FlowExample FlowFacts FlowElements FlowRanks FlowProperties.
#[local] Open Scope Z_scope.

Module FlowSelection.
Import Flow FlowFacts FlowElements FlowRanks FlowProperties.



Section Selection.
Variable localeCompare : jsstr -> jsstr -> Z.
Variable formatNumber : Z -> jsstr.
Variable schemes : list (option Z * list (option jsstr)).
Variable metric : FlowMetric.
Variables (rows : list FlowQuotaDataItem) (options : FlowBuildOptions).

#[local] Abbreviation ctx := (deletedTokenLabelOpt options).
#[local] Abbreviation stages := (shown_stages options).
#[local] Abbreviation kept := (kept_rows rows options).
#[local] Abbreviation the_data := (data localeCompare formatNumber schemes metric rows options).
#[local] Abbreviation drawn := (drawn_paths localeCompare metric rows options).

(** The ids a stage keeps. *)
Definition top_of (limit : nat) (k : FlowNodeKind) : list jsstr :=
  topIds localeCompare limit (stage_ranks metric ctx k kept).

(** A node of a drawn path is a kept one or stands for the others. *)
Lemma drawn_node limit p n :
  normalizeTopNodeLimit (topNodeLimit options) = Some limit -> p ∈ drawn -> n ∈ path p ->
  pn_id n ∈ top_of limit (pn_kind n) \/
  (pn_id n = OTHER_FLOW_NODE_IDS (pn_kind n) /\ overflowMode options <> Some OverflowHide).
Proof.
  intros Hlim Hp Hn. pose proof (shown_stages_shape options) as [Hnd _].
  assert (pn_kind n ∈ stages) as Hk by (by eapply path_kind_stage).
  apply list_elem_of_omap in Hp as (row & Hrow & Hp). cbn [g_topNodeLimit graph_options] in Hp.
  rewrite Hlim in Hp. fold stages in Hp.
  destruct (topNodeSets_get metric ctx localeCompare kept stages limit (pn_kind n) Hnd Hk) as (s & Hs & Hg).
  rewrite Hs in Hp. cbn [graph_options g_overflowMode g_otherNodeLabel] in Hp.
  assert (forall m, pn_kind m = pn_kind n -> isTopFlowNode m (Some s) = bool_decide (pn_id m ∈ top_of limit (pn_kind n))) as Htop.
  { intros m Hm. unfold isTopFlowNode. cbn. by rewrite Hm, Hg. }
  unfold applyTopNodeLimit in Hp. destruct (negb (existsb _ _)) eqn:E.
  - injection Hp as <-. cbn [path] in Hn. left. bool_hyps.
    destruct (isTopFlowNode n (Some s)) eqn:Et; [rewrite Htop in Et by done; by bool_hyps|].
    assert (existsb (fun node => negb (isTopFlowNode node (Some s))) (flowPathForStages row stages ctx) = true) as Hex;
      [|congruence].
    apply existsb_exists. exists n. split; [by apply list_elem_of_In|by rewrite Et].
  - destruct (overflowMode options ?? OverflowAggregate) eqn:Em; [|done]. injection Hp as <-.
    cbn [path] in Hn. apply list_elem_of_fmap in Hn as (m & -> & Hm).
    destruct (isTopFlowNode m (Some s)) eqn:Et.
    + left. rewrite Htop in Et by done. by bool_hyps.
    + right. split; [by destruct (pn_kind m)|]. intros Hh. by rewrite Hh in Em.
Qed.

(** A node of the diagram comes from a path. *)
Lemma diagram_node n :
  n ∈ nodes (flow the_data) -> exists p pn, p ∈ drawn /\ pn ∈ path p /\ n_id n = pn_id pn /\ n_kind n = pn_kind pn.
Proof.
  intros Hn. assert (n_id n ∈ n_id <$> nodes (flow the_data)) as Hid by (by apply list_elem_of_fmap_2).
  rewrite data_flow in Hid. apply graph_node_ids in Hid as (p & pn & Hp & Hpn & Heq). exists p, pn.
  split_and!; [done..|]. destruct (graph_sums localeCompare schemes metric kept (role options ?? RoleUser)
    (colorPaletteOpt options) (visibleStages options) ctx (graph_options options)) as (_ & _ & Ht & _).
  apply tag_inj. rewrite <- (Ht n Hn), Heq. apply graph_paths_ok in Hp as [_ Hp].
  rewrite Forall_forall in Hp. apply (Hp pn Hpn).
Qed.

Definition column (g : DashboardFlowGraph) (k : FlowNodeKind) : list DashboardFlowNode :=
  List.filter (fun n => bool_decide (n_kind n = k)) (nodes g).

(** C40: With a limit, a column has at most as many nodes as the limit, and one
    more that stands for the others; none stands for the others when the rows
    over the limit are hidden. *)
Theorem columns_are_bounded limit k :
  normalizeTopNodeLimit (topNodeLimit options) = Some limit ->
  (length (column (flow the_data) k)
   <= if decide (overflowMode options = Some OverflowHide) then limit else S limit)%nat.
Proof.
  intros Hlim. set (bound := if decide (overflowMode options = Some OverflowHide)
    then top_of limit k else OTHER_FLOW_NODE_IDS k :: top_of limit k).
  transitivity (length bound).
  - rewrite <- (length_fmap n_id). apply submseteq_length, NoDup_submseteq.
    + destruct (graph_sums localeCompare schemes metric kept (role options ?? RoleUser)
        (colorPaletteOpt options) (visibleStages options) ctx (graph_options options)) as (_ & Hnd & _).
      apply NoDup_ids_filter. exact Hnd.
    + intros id Hid. apply list_elem_of_fmap in Hid as (n & -> & Hn).
      apply list_elem_of_In, filter_In in Hn as [Hn Hk]. bool_hyps. apply list_elem_of_In in Hn.
      destruct (diagram_node n Hn) as (p & pn & Hp & Hpn & -> & Hkind).
      subst bound. destruct (drawn_node limit p pn Hlim Hp Hpn) as [Ht|[Ho Hm]];
        rewrite <- Hkind, Hk in *; [case_decide; [done|by right]|].
      rewrite decide_False by done. rewrite Ho. left.
  - subst bound. pose proof (topIds_length localeCompare limit (stage_ranks metric ctx k kept)) as Hl.
    fold (top_of limit k) in Hl. case_decide; cbn; lia.
Qed.

(** What the kept rows with a node are worth. *)
Definition node_total (k : FlowNodeKind) (id : jsstr) : Z := key_total metric (stage_id ctx k) kept id.

Lemma stage_rank k row :
  row ∈ kept -> exists v, v ∈ map_values (stage_ranks metric ctx k kept) /\
    pn_id (r_node v) = stage_id ctx k row /\ r_value v = node_total k (stage_id ctx k row).
Proof.
  intros Hrow. destruct (ranks_keys metric (stage_id ctx k) (fun row => NODE_BUILDERS k row ctx) kept) as [_ Hkeys].
  assert (stage_id ctx k row ∈ map_keys (stage_ranks metric ctx k kept)) as Hin.
  { apply Hkeys. by apply list_elem_of_fmap_2. }
  apply map_keys_elem in Hin as [v Hv]. exists v. split; [apply map_values_elem; eauto|].
  apply ranks_values in Hv as (Hval & row' & _ & Hk & Hn). by rewrite Hn.
Qed.

Lemma stage_ranks_nodup k : NoDup ((fun v => pn_id (r_node v)) <$> map_values (stage_ranks metric ctx k kept)).
Proof.
  destruct (ranks_keys metric (stage_id ctx k) (fun row => NODE_BUILDERS k row ctx) kept) as [Hnd _].
  replace (_ <$> map_values _) with (map_keys (stage_ranks metric ctx k kept)); [exact Hnd|].
  unfold map_keys, map_values. rewrite <- list_fmap_compose. apply list_fmap_ext.
  intros i [id v] Hi. apply list_elem_of_lookup_2, ranks_values in Hi as (_ & row & _ & Hk & Hn).
  cbn. by rewrite Hn.
Qed.

Lemma top_of_row limit k id : id ∈ top_of limit k -> exists row, row ∈ kept /\ stage_id ctx k row = id.
Proof.
  unfold top_of, topIds. rewrite set_of_elem. intros (v & -> & Hv)%list_elem_of_fmap.
  apply elem_of_take in Hv as (i & Hi & _). apply list_elem_of_lookup_2 in Hi. rewrite js_sort_elem in Hi.
  apply map_values_elem in Hi as [id Hi]. apply ranks_values in Hi as (_ & row & Hrow & _ & Hn).
  exists row. split; [done|]. by rewrite Hn.
Qed.

(** A kept node of a kept row is drawn, when nothing is hidden. *)
Lemma top_is_drawn limit k row :
  normalizeTopNodeLimit (topNodeLimit options) = Some limit -> overflowMode options <> Some OverflowHide ->
  row ∈ kept -> k ∈ stages -> stage_id ctx k row ∈ top_of limit k ->
  stage_id ctx k row ∈ n_id <$> nodes (flow the_data).
Proof.
  intros Hlim Hm Hrow Hk Htop. pose proof (shown_stages_shape options) as [Hnd _].
  destruct (topNodeSets_get metric ctx localeCompare kept stages limit k Hnd Hk) as (s & Hs & Hg).
  assert (isTopFlowNode (NODE_BUILDERS k row ctx) (Some s) = true) as Ht.
  { unfold isTopFlowNode. cbn. rewrite (proj1 (builder_spec k row ctx)), Hg. by apply bool_decide_eq_true_2. }
  assert (NODE_BUILDERS k row ctx ∈ flowPathForStages row stages ctx) as Hin.
  { by apply (list_elem_of_fmap_2 (fun s => NODE_BUILDERS s row ctx)). }
  rewrite data_flow. apply graph_node_ids.
  assert (exists q, applyTopNodeLimit (flowPathForStages row stages ctx) (Some s) OverflowAggregate
    (otherNodeLabel options) = Some q /\ NODE_BUILDERS k row ctx ∈ q) as (q & Hq & Hqin).
  { unfold applyTopNodeLimit. destruct (negb _); eexists; (split; [reflexivity|]); [done|].
    apply list_elem_of_fmap. exists (NODE_BUILDERS k row ctx). by rewrite Ht. }
  exists (mkPrepared q (rowMetrics row)), (NODE_BUILDERS k row ctx). split_and!; [|done|done].
  apply list_elem_of_omap. exists row. split; [done|]. cbn [graph_options g_topNodeLimit].
  change (resolveVisibleStages (role options ?? RoleUser) (visibleStages options)) with stages.
  rewrite Hlim, Hs. cbn [graph_options g_overflowMode g_otherNodeLabel].
  replace (overflowMode options ?? OverflowAggregate) with OverflowAggregate; [by rewrite Hq|].
  by destruct (overflowMode options) as [[]|].
Qed.

(** The limit keeps the largest nodes: a node of the diagram that does not
    stand for the others is worth at least as much as any node of its column
    that is left out. *)
Theorem top_nodes_are_the_largest `{!Comparator localeCompare} limit n row :
  normalizeTopNodeLimit (topNodeLimit options) = Some limit -> overflowMode options <> Some OverflowHide ->
  n ∈ nodes (flow the_data) -> n_id n <> OTHER_FLOW_NODE_IDS (n_kind n) ->
  row ∈ kept -> stage_id ctx (n_kind n) row ∉ n_id <$> nodes (flow the_data) ->
  node_total (n_kind n) (stage_id ctx (n_kind n) row) <= node_total (n_kind n) (n_id n).
Proof.
  intros Hlim Hm Hn Hno Hrow Hout. destruct (diagram_node n Hn) as (p & pn & Hp & Hpn & Hid & Hkind).
  assert (n_kind n ∈ stages) as Hk by (rewrite Hkind; by eapply path_kind_stage).
  destruct (drawn_node limit p pn Hlim Hp Hpn) as [Htop|[Ho _]]; [|by rewrite <- Hkind, <- Hid in Ho].
  rewrite <- Hkind, <- Hid in Htop. destruct (top_of_row limit (n_kind n) (n_id n) Htop) as (row' & Hrow' & Hid').
  destruct (stage_rank (n_kind n) row Hrow) as (y & Hy & Hyid & <-).
  destruct (stage_rank (n_kind n) row' Hrow') as (x & Hx & Hxid & Hxv). rewrite Hid' in Hxid, Hxv.
  rewrite <- Hxv. eapply (topIds_largest localeCompare limit); [exact Hx|exact Hy|apply stage_ranks_nodup| |].
  - rewrite Hxid. exact Htop.
  - rewrite Hyid. intros Hytop. apply Hout. by eapply top_is_drawn.
Qed.

(** ** The filter options *)

(** The rows the options count. *)
Definition user_rows : list FlowQuotaDataItem := filterRows rows (selectedUsers options).

(** The filters of the other stages, and the option. *)
Definition select_instead (o : FlowNodeFilterOption) : list FlowNodeFilter :=
  List.filter (fun f => negb (bool_decide (f_kind f = no_kind o))) (selectedNodes options ?? [])
  ++ [mkNodeFilter (no_kind o) (no_value o)].

(** The options with other selected nodes. *)
Definition with_nodes (filters : list FlowNodeFilter) : FlowBuildOptions :=
  mkBuildOptions (role options) (selectedUsers options) (Some filters) (activeNode options)
    (activeLink options) (colorPaletteOpt options) (visibleStages options) (topNodeLimit options)
    (overflowMode options) (maskSensitive options) (deletedTokenLabelOpt options) (otherNodeLabel options).

Lemma except_filters k :
  (selectedNodeFiltersExceptKind (selectedNodes options) k ?? [])
  = List.filter (fun f => negb (bool_decide (f_kind f = k))) (selectedNodes options ?? []).
Proof. unfold selectedNodeFiltersExceptKind. by destruct (List.filter _ _). Qed.

(** Selecting the option keeps, of the rows it counts, those with its node. *)
Lemma select_instead_matches o row :
  no_kind o ∈ stages ->
  pathMatchesNodeFilters (flowPathForStages row stages ctx)
    (normalizeSelectedNodeFilters (Some (select_instead o)) stages)
  = pathMatchesNodeFilters (flowPathForStages row stages ctx)
      (normalizeSelectedNodeFilters (selectedNodeFiltersExceptKind (selectedNodes options) (no_kind o)) stages)
    && is_id (no_value o) (stage_id ctx (no_kind o) row).
Proof.
  intros Hs. apply eq_true_iff_eq. rewrite andb_true_iff, !pathMatches_spec, except_filters. unfold select_instead.
  set (others := List.filter _ _).
  assert (forall f, f ∈ others -> f_kind f <> no_kind o) as Hothers.
  { intros f Hf. apply list_elem_of_In, filter_In in Hf as [_ Hf]. by bool_hyps. }
  unfold is_id. rewrite bool_decide_eq_true. setoid_rewrite elem_of_app. setoid_rewrite list_elem_of_singleton.
  split.
  - intros H. split.
    + intros f Hf Hfs. destruct (H f (or_introl Hf) Hfs) as [|[= Hk _]]; [done|]. by apply Hothers in Hf.
    + destruct (H _ (or_intror eq_refl) Hs) as [Hin|[= Hid]]; [|done]. by apply Hothers in Hin.
  - intros [H Hid] f [Hf| ->] Hfs; [left; by apply H|]. right. cbn [f_kind]. by rewrite Hid.
Qed.

Lemma stageOptionTotals_ranks k rs :
  stageOptionTotals k rs metric ctx
  = ranks metric (fun row => nodeFilterKey (mkNodeFilter (pn_kind (NODE_BUILDERS k row ctx)) (stage_id ctx k row)))
      (fun row => NODE_BUILDERS k row ctx) rs.
Proof. done. Qed.

Lemma stage_option_value k rs v :
  v ∈ map_values (stageOptionTotals k rs metric ctx) ->
  pn_kind (r_node v) = k /\ r_value v = key_total metric (stage_id ctx k) rs (pn_id (r_node v)) /\
  exists row, row ∈ rs /\ stage_id ctx k row = pn_id (r_node v).
Proof.
  rewrite stageOptionTotals_ranks. intros [key Hv]%map_values_elem.
  apply ranks_values in Hv as (Hval & row & Hrow & Hkey & ->). split_and!; [apply builder_spec| |by exists row].
  rewrite Hval. apply sum_by_ext. intros row' _. f_equal. unfold is_id. apply bool_decide_ext.
  rewrite <- Hkey. unfold nodeFilterKey. cbn [f_kind f_id]. rewrite !(proj1 (builder_spec _ _ _)). split.
  - intros H. apply app_inv_head in H. by injection H.
  - intros H. unfold stage_id in H |- *. by rewrite H.
Qed.

(** The figure next to a filter option is what the dashboard shows after
    selecting it: with the option as the only selected node of its column, the
    summary is that figure, and at least one row is left. *)
Theorem option_shows_its_value o :
  o ∈ fo_nodes (filterOptions the_data) ->
  let after := data localeCompare formatNumber schemes metric rows (with_nodes (select_instead o)) in
  no_kind o ∈ stages /\ no_valueRaw o = summaryValue metric (summary after) /\
  kept_rows rows (with_nodes (select_instead o)) <> [].
Proof.
  cbn [data buildDashboardFlowData filterOptions fo_nodes]. unfold buildNodeFilterOptions. cbv zeta.
  rewrite js_sort_elem, list_elem_of_In, in_concat.
  intros (os & Hos & Ho). apply in_map_iff in Hos as (k & <- & Hk).
  apply in_map_iff in Ho as (v & <- & Hv). apply list_elem_of_In in Hv, Hk. cbn [no_kind no_valueRaw].
  apply stage_option_value in Hv as (Hkind & Hval & row & Hrow & Hid). fold stages in Hk.
  set (o := mkNodeOption _ _ _ _ _ _). assert (no_kind o = k) as Hok by exact Hkind. rewrite Hkind.
  assert (kept_rows rows (with_nodes (select_instead o)) = List.filter (fun row => is_id (no_value o) (stage_id ctx k row))
    (filterRowsByNodes user_rows (selectedNodeFiltersExceptKind (selectedNodes options) k) stages ctx)) as Hkept.
  { unfold kept_rows. cbn [with_nodes selectedNodes selectedUsers deletedTokenLabelOpt]. fold user_rows.
    change (shown_stages (with_nodes (select_instead o))) with stages.
    rewrite !filterRowsByNodes_filter, filter_filter. apply filter_ext. intros row'.
    rewrite select_instead_matches by (by rewrite Hok). rewrite Hok. done. }
  split_and!; [done| |].
  - change (summary (data localeCompare formatNumber schemes metric rows (with_nodes (select_instead o))))
      with (buildSummary (kept_rows rows (with_nodes (select_instead o)))).
    rewrite buildSummary_sum, Hkept, sum_by_filter, Hval. done.
  - rewrite Hkept. intros Hnil. assert (In row []) as []. rewrite <- Hnil. apply filter_In.
    split; [by apply list_elem_of_In|]. apply bool_decide_eq_true_2. exact Hid.
Qed.

End Selection.

(** ** Instances *)

#[local] Abbreviation example o := (data FlowExample.no_collation showZ [] MetricQuota FlowExample.rows o).
#[local] Abbreviation limited := (FlowExample.options None None (Some 1) false).

Lemma columns_are_bounded_witness : (length (column (flow (example limited)) KToken) <= 2)%nat.
Proof.
  apply (columns_are_bounded FlowExample.no_collation showZ [] MetricQuota FlowExample.rows limited 1 KToken).
  reflexivity.
Defined.

Lemma top_nodes_are_the_largest_witness :
  node_total MetricQuota FlowExample.rows limited KModel (js "model:claude")
  <= node_total MetricQuota FlowExample.rows limited KModel (js "model:gpt").
Proof.
  apply (top_nodes_are_the_largest FlowExample.no_collation showZ [] MetricQuota FlowExample.rows limited 1
    (FlowExample.node_at limited 2 ?? mkFlowNode [] [] KUser 0 0 0 0 [] [] None None) FlowExample.row2).
  - reflexivity.
  - discriminate.
  - apply (list_elem_of_lookup_2 _ 2). vm_compute. reflexivity.
  - vm_compute. discriminate.
  - apply (list_elem_of_lookup_2 _ 1). vm_compute. reflexivity.
  - apply (bool_decide_eq_true_1 (_ ∉ _)). vm_compute. reflexivity.
Defined.

Lemma option_shows_its_value_witness :
  exists o, fo_nodes (filterOptions (example FlowExample.plain)) !! 0%nat = Some o /\
    no_valueRaw o = summaryValue MetricQuota (summary (example (with_nodes FlowExample.plain (select_instead FlowExample.plain o)))).
Proof.
  eexists. split; [vm_compute; reflexivity|].
  apply (option_shows_its_value FlowExample.no_collation showZ [] MetricQuota FlowExample.rows FlowExample.plain).
  apply (list_elem_of_lookup_2 _ 0). vm_compute. reflexivity.
Defined.
End FlowSelection.
