(* ===== verification/ChatHandler.v ===== *)
(** * The chat handler

    Model of the playground's request handling: the stream helpers of
    [lib/streaming/stream-utils.ts] and [lib/streaming/request-error-utils.ts],
    the hooks [hooks/use-stream-request.ts] (one server-sent-event source at a
    time), [hooks/use-chat-handler.ts] (batching of chunks, completion, errors,
    stop) and [hooks/use-playground-conversation.ts] (the user's actions).

    React refs and states are fields of one record; a handler is a function on
    it.  [onMessageUpdate] applies its updater to the
    current messages, in the order of the calls. *)

From S2P Require Import Prelude JsString Effects Json ThinkTags PlaygroundMessage PlaygroundConfig.

Module Chat.
Import Playground PlaygroundConfig.

(** ** stream-utils.ts *)

Definition STREAM_DONE_MESSAGE : jsstr := js "[DONE]".
Definition STREAM_CLOSED_READY_STATE : Z := 2.

Record StreamMessageUpdate := mkUpdate { update_type : StreamChunkType; update_chunk : jsstr }.
Record StreamErrorDetails := mkErrorDetails { errorDetails_code : option jsstr; errorMessage : jsstr }.

(** A member that is a non-empty string: [o.k || undefined]. *)
Definition str_prop (o : Json.json) (k : jsstr) : option jsstr :=
  match Json.prop o k with
  | Some (Json.JStr s) => if truthy s then Some s else None
  | _ => None
  end.

Definition parseStreamErrorDetails (data : option jsstr) : StreamErrorDetails :=
  let fallbackMessage := str_or (data ?? []) API_REQUEST_ERROR in
  if negb (truthy (data ?? [])) then mkErrorDetails None fallbackMessage
  else
    match Json.JSON_parse (data ?? []) with
    | None => mkErrorDetails None fallbackMessage
    | Some parsed =>
        match Json.prop parsed (js "error") with
        | None => mkErrorDetails None fallbackMessage
        | Some err =>
            if negb (Json.json_truthy err) then mkErrorDetails None fallbackMessage
            else mkErrorDetails (str_prop err (js "code"))
                   (str_prop err (js "message") ?? fallbackMessage)
        end
    end.

(** [choices?.[0]] *)
Definition first_element (v : Json.json) : option Json.json :=
  match v with Json.JArr (x :: _) => Some x | _ => None end.

(** [None] is an exception: a syntax error, or a member of [null]. *)
Definition parseStreamMessageUpdates (data : jsstr) : option (list StreamMessageUpdate) :=
  match Json.JSON_parse data with
  | None => None
  | Some Json.JNull => None
  | Some chunk =>
      match Json.prop chunk (js "choices") ≫= first_element with
      | Some Json.JNull | None => Some []
      | Some choice =>
          match Json.prop choice (js "delta") with
          | None => Some []
          | Some delta =>
              Some
                (match str_prop delta (js "reasoning_content") with
                 | Some c => [mkUpdate ChunkReasoning c] | None => [] end ++
                 match str_prop delta (js "content") with
                 | Some c => [mkUpdate ChunkContent c] | None => [] end)
          end
      end
  end.

Definition isStreamDoneMessage (data : jsstr) : bool := bool_decide (data = STREAM_DONE_MESSAGE).

Definition isStreamClosedReadyState (readyState : option Z) : bool :=
  bool_decide (readyState = Some STREAM_CLOSED_READY_STATE).

Definition getStreamReadyStateError (eventReadyState status : option Z) : option jsstr :=
  match eventReadyState, status with
  | Some rs, Some st =>
      if (STREAM_CLOSED_READY_STATE <=? rs) && negb (st =? 200)
      then Some (js "HTTP " ++ showZ st ++ js ": " ++ CONNECTION_CLOSED) else None
  | _, _ => None
  end.

(** ** State *)

Record PendingStreamChunks := mkPending { p_content : jsstr; p_reasoning : jsstr }.

Record ChatState := mkChat {
  messages : list Message;
  env : Env;
  (* use-chat-handler *)
  isRequesting : bool;
  pending : PendingStreamChunks;
  flushTimer : bool;
  requestId : nat;
  abortController : option nat;
  (* use-stream-request *)
  sseSource : option nat;
  isStreamComplete : bool;
  isStreaming : bool;
  (* use-playground-conversation *)
  editingMessageKey : option jsstr;
  (* outside the program: sources and requests that are still alive, and
     controllers that were aborted, and the payloads sent *)
  nextSource : nat;
  openSources : list nat;
  inFlight : list nat;
  aborted : list nat;
  requests : list ChatCompletionRequest }.

Definition set_messages st ms e := mkChat ms e (isRequesting st) (pending st) (flushTimer st)
  (requestId st) (abortController st) (sseSource st) (isStreamComplete st) (isStreaming st)
  (editingMessageKey st) (nextSource st) (openSources st) (inFlight st) (aborted st) (requests st).
Definition setIsRequesting st b := mkChat (messages st) (env st) b (pending st) (flushTimer st)
  (requestId st) (abortController st) (sseSource st) (isStreamComplete st) (isStreaming st)
  (editingMessageKey st) (nextSource st) (openSources st) (inFlight st) (aborted st) (requests st).
Definition set_pending st p b := mkChat (messages st) (env st) (isRequesting st) p b
  (requestId st) (abortController st) (sseSource st) (isStreamComplete st) (isStreaming st)
  (editingMessageKey st) (nextSource st) (openSources st) (inFlight st) (aborted st) (requests st).
Definition set_request st r a fl ab := mkChat (messages st) (env st) (isRequesting st) (pending st)
  (flushTimer st) r a (sseSource st) (isStreamComplete st) (isStreaming st)
  (editingMessageKey st) (nextSource st) (openSources st) fl ab (requests st).
Definition add_request st r := mkChat (messages st) (env st) (isRequesting st) (pending st)
  (flushTimer st) (requestId st) (abortController st) (sseSource st) (isStreamComplete st)
  (isStreaming st) (editingMessageKey st) (nextSource st) (openSources st) (inFlight st) (aborted st)
  (requests st ++ [r]).
Definition set_stream st src cmp str nx op := mkChat (messages st) (env st) (isRequesting st)
  (pending st) (flushTimer st) (requestId st) (abortController st) src cmp str
  (editingMessageKey st) nx op (inFlight st) (aborted st) (requests st).
Definition setEditingMessageKey st k := mkChat (messages st) (env st) (isRequesting st) (pending st)
  (flushTimer st) (requestId st) (abortController st) (sseSource st) (isStreamComplete st)
  (isStreaming st) k (nextSource st) (openSources st) (inFlight st) (aborted st) (requests st).

(** [isGenerating: isStreaming || isRequesting] *)
Definition isGenerating (st : ChatState) : bool := isStreaming st || isRequesting st.

Definition onMessageUpdate (st : ChatState) (updater : list Message -> M (list Message)) : ChatState :=
  let '(ms, e) := updater (messages st) (env st) in set_messages st ms e.

(** ** use-chat-handler.ts: chunks *)

Definition mergePendingStreamChunk (currentChunk nextChunk : jsstr) : jsstr :=
  if negb (truthy currentChunk) || negb (startsWith nextChunk currentChunk)
  then currentChunk ++ nextChunk else nextChunk.

(** The updater of [flushStreamUpdates]. *)
Definition applyPendingChunks (p : PendingStreamChunks) (m : Message) : M Message :=
  let! m1 := (if truthy (p_reasoning p) then applyStreamingChunk m ChunkReasoning (p_reasoning p)
              else ret m) in
  if truthy (p_content p) then applyStreamingChunk m1 ChunkContent (p_content p) else ret m1.

Definition flushStreamUpdates (st : ChatState) : ChatState :=
  let st := set_pending st (pending st) false in
  let pendingChunks := pending st in
  if negb (truthy (p_reasoning pendingChunks)) && negb (truthy (p_content pendingChunks)) then st
  else
    onMessageUpdate (set_pending st (mkPending [] []) false)
      (fun prev => updateLastAssistantMessage prev (applyPendingChunks pendingChunks)).

(** [scheduleStreamFlush]: the timer is armed, or stays armed. *)
Definition scheduleStreamFlush (st : ChatState) : ChatState := set_pending st (pending st) true.

Definition handleStreamUpdate (st : ChatState) (u : StreamMessageUpdate) : ChatState :=
  let p := pending st in
  let p' :=
    match update_type u with
    | ChunkReasoning =>
        mkPending (p_content p) (mergePendingStreamChunk (p_reasoning p) (update_chunk u))
    | ChunkContent =>
        mkPending (mergePendingStreamChunk (p_content p) (update_chunk u)) (p_reasoning p)
    end in
  scheduleStreamFlush (set_pending st p' (flushTimer st)).

(** The updater of [handleStreamComplete]. *)
Definition completeUpdater (m : Message) : M Message :=
  if isAssistantMessageFinal m then ret m else completeAssistantMessage m.

Definition handleStreamComplete (st : ChatState) : ChatState :=
  let st := flushStreamUpdates st in
  let st := setIsRequesting st false in
  onMessageUpdate st (fun prev => updateLastAssistantMessage prev completeUpdater).

Section Handlers.
(** [t] is the translation function; [stream_throws n] says whether starting
    the [n]-th event source throws; [config] and [pe] are the configuration and
    the enabled parameters at the time of the action. *)
Variable t : jsstr -> jsstr.
Variable stream_throws : nat -> bool.
Variable config : PlaygroundConfig.
Variable pe : ParameterEnabled.

Definition getDisplayError (error : jsstr) : jsstr :=
  if bool_decide (error ∈ ERROR_MESSAGES) then t error
  else if endsWith error (js ": " ++ CONNECTION_CLOSED)
  then take (length error - length CONNECTION_CLOSED) error ++ t CONNECTION_CLOSED
  else error.

Definition handleStreamError (st : ChatState) (error : jsstr) (code : option jsstr) : ChatState :=
  let st := flushStreamUpdates st in
  let st := setIsRequesting st false in
  onMessageUpdate st (fun prev =>
    updateAssistantMessageWithError prev (getDisplayError error) code (t API_REQUEST_ERROR)).

(** ** use-stream-request.ts *)

(** [source.close()] *)
Definition close_source (st : ChatState) (src : option nat) : ChatState :=
  match src with
  | None => st
  | Some n => set_stream st (sseSource st) (isStreamComplete st) (isStreaming st) (nextSource st)
                (List.filter (fun m => negb (m =? n)%nat) (openSources st))
  end.

Definition closeActiveStream (st : ChatState) (source : option nat) : ChatState :=
  let streamSource := match source with Some s => Some s | None => sseSource st end in
  let st := close_source st streamSource in
  if bool_decide (source = None) || bool_decide (sseSource st = source)
  then set_stream st None (isStreamComplete st) false (nextSource st) (openSources st)
  else st.

(** [handleError] of the request whose source is [source]. *)
Definition handleError (st : ChatState) (source : nat) (error : jsstr) (code : option jsstr) : ChatState :=
  if isStreamComplete st then st
  else closeActiveStream (handleStreamError st error code) (Some source).

Definition onMessageEvent (st : ChatState) (source : nat) (data : jsstr) : ChatState :=
  if isStreamDoneMessage data then
    let st := set_stream st (sseSource st) true (isStreaming st) (nextSource st) (openSources st) in
    handleStreamComplete (closeActiveStream st (Some source))
  else
    match parseStreamMessageUpdates data with
    | Some updates => fold_left handleStreamUpdate updates st
    | None => handleError st source PARSE_ERROR None
    end.

Definition onErrorEvent (st : ChatState) (source : nat) (readyState : option Z) (data : option jsstr)
    : ChatState :=
  if isStreamClosedReadyState readyState then st
  else
    let d := parseStreamErrorDetails data in
    handleError st source (errorMessage d) (errorDetails_code d).

Definition onReadyStateChange (st : ChatState) (source : nat) (readyState status : option Z)
    : ChatState :=
  match getStreamReadyStateError readyState status with
  | Some e => handleError st source e None
  | None => st
  end.

Definition sendStreamRequest (st : ChatState) (payload : ChatCompletionRequest) : ChatState :=
  let st := close_source st (sseSource st) in
  let st := add_request st payload in
  let source := nextSource st in
  let st := set_stream st (Some source) false true (S source) (openSources st ++ [source]) in
  if stream_throws source
  then closeActiveStream (handleStreamError st STREAM_START_ERROR None) (Some source)
  else st.

Definition stopStream (st : ChatState) : ChatState := closeActiveStream st None.

(** ** use-chat-handler.ts: requests *)

Definition sendStreamingChat (st : ChatState) (ms : list Message) : ChatState :=
  let st := setIsRequesting st true in
  sendStreamRequest st (buildChatCompletionPayload ms config pe).

Definition sendNonStreamingChat (st : ChatState) (ms : list Message) : ChatState :=
  let payload := buildChatCompletionPayload ms config pe in
  let id := S (requestId st) in
  let st := set_request st id (Some id) (inFlight st) (aborted st) in
  let st := setIsRequesting st true in
  add_request (set_request st id (Some id) (inFlight st ++ [id]) (aborted st)) payload.

(** The [finally] block of the request [id]. *)
Definition finallyRequest (st : ChatState) (id : nat) : ChatState :=
  let st := set_request st (requestId st) (abortController st)
              (List.filter (fun m => negb (m =? id)%nat) (inFlight st)) (aborted st) in
  if (requestId st =? id)%nat
  then setIsRequesting (set_request st (requestId st) None (inFlight st) (aborted st)) false
  else st.

(** The response of request [id] arrives. *)
Definition onResponse (st : ChatState) (id : nat) (choices : option (list ChatCompletionChoice))
    : ChatState :=
  let st' :=
    if bool_decide (id ∈ aborted st) then st
    else if negb (hasChatCompletionChoice choices) then handleStreamError st API_REQUEST_ERROR None
    else onMessageUpdate st (fun prev =>
           updateLastAssistantMessage prev (fun m =>
             let! r := applyChatCompletionResponse m choices in ret (r ?? m))) in
  finallyRequest st' id.

(** [parseRequestErrorDetails]: the fields of the error that are read. *)
Record RequestErrorLike := mkRequestError {
  re_code : option jsstr; re_data_message : option jsstr; re_message : option jsstr }.

Definition parseRequestErrorDetails (e : RequestErrorLike) : StreamErrorDetails :=
  mkErrorDetails
    (match re_code e with Some c => if truthy c then Some c else None | None => None end)
    (str_or (re_data_message e ?? []) (str_or (re_message e ?? []) API_REQUEST_ERROR)).

(** Request [id] is rejected. *)
Definition onRequestError (st : ChatState) (id : nat) (e : RequestErrorLike) : ChatState :=
  let st' :=
    if bool_decide (id ∈ aborted st) then st
    else let d := parseRequestErrorDetails e in
         handleStreamError st (errorMessage d) (errorDetails_code d) in
  finallyRequest st' id.

Definition sendChat (st : ChatState) (ms : list Message) : ChatState :=
  if stream config then sendStreamingChat st ms else sendNonStreamingChat st ms.

Definition stopUpdater (m : Message) : M Message :=
  if isAssistantMessagePending m then completeAssistantMessage m else ret m.

Definition stopGeneration (st : ChatState) : ChatState :=
  let st := stopStream st in
  let st := flushStreamUpdates st in
  let st := set_request st (requestId st) None (inFlight st)
              (match abortController st with Some id => aborted st ++ [id] | None => aborted st end) in
  let st := setIsRequesting st false in
  onMessageUpdate st (fun prev => updateLastAssistantMessage prev stopUpdater).

(** ** use-playground-conversation.ts *)

Definition handleSendMessage (st : ChatState) (text : jsstr) : ChatState :=
  let '(next, e) := appendUserMessagePair (messages st) text (env st) in
  sendChat (set_messages st next e) next.

Definition handleRegenerateMessage (st : ChatState) (k : jsstr) : ChatState :=
  let '(r, e) := createRegeneratedMessages (messages st) k (env st) in
  match r with
  | None => set_messages st (messages st) e
  | Some next => sendChat (set_messages st next e) next
  end.

Definition handleEditMessage (st : ChatState) (k : jsstr) : ChatState :=
  setEditingMessageKey st (Some k).

Definition handleEditOpenChange (st : ChatState) (open : bool) : ChatState :=
  if open then st else setEditingMessageKey st None.

Definition applyEdit (st : ChatState) (newContent : jsstr) (shouldSubmit : bool) : ChatState :=
  match editingMessageKey st with
  | None => st
  | Some k =>
      if negb (truthy k) then st
      else
        let '(r, e) := applyMessageEdit (messages st) k newContent shouldSubmit (env st) in
        match r with
        | None => set_messages st (messages st) e
        | Some res =>
            let st := set_messages (setEditingMessageKey st None) (edit_messages res) e in
            if shouldSend res then sendChat st (edit_messages res) else st
        end
  end.

(** [clearMessages] of use-playground-state.ts, as the page calls it. *)
Definition handleClearMessages (st : ChatState) : ChatState :=
  let st := handleEditOpenChange st false in set_messages st [] (env st).

Definition handleDeleteMessage (st : ChatState) (k : jsstr) : ChatState :=
  set_messages st (removeMessageByKey (messages st) k) (env st).

End Handlers.
End Chat.
