(* ===== verification/ChatStreaming.v ===== *)
(** * Streaming text: batching, snapshots and deltas

    What the text of the assistant's message becomes when chunks arrive and the
    flush timer fires at arbitrary points between them.  [text_step] is the
    abstract machine (text shown, text pending); [handler_simulates] shows that
    the handler of [ChatHandler.v] refines it.  The theorems say for which
    streams the result does not depend on the timer, and that it does depend on
    it in general. *)

From S2P Require Import Prelude JsString Effects ThinkTags PlaygroundMessage PlaygroundConfig ChatHandler.

Module ChatStreaming.
Import Playground Chat.

(** ** The handler on a content stream *)

(** A chunk arrives, or the flush timer fires. *)
Inductive StreamEvent := Chunk (c : jsstr) | Tick.

Definition handler_step (st : ChatState) (ev : StreamEvent) : ChatState :=
  match ev with
  | Chunk c => handleStreamUpdate st (mkUpdate ChunkContent c)
  | Tick => flushStreamUpdates st
  end.

Definition run_handler (st : ChatState) (evs : list StreamEvent) : ChatState :=
  fold_left handler_step evs st.

(** The chunks of a run, in order. *)
Definition chunks_of (evs : list StreamEvent) : list jsstr :=
  omap (fun ev => match ev with Chunk c => Some c | Tick => None end) evs.

(** The text of the last message. *)
Definition shown_text (st : ChatState) : jsstr := getMessageContent <$> last (messages st) ?? [].

(** The handler waits for the chunks of a live assistant message. *)
Definition live (st : ChatState) : Prop :=
  exists m, last (messages st) = Some m /\ isAssistant m = true /\ status m <> Some ERROR /\
    p_reasoning (pending st) = [].

(** ** The abstract machine *)

Record TextState := mkText { shown : jsstr; waiting : jsstr }.

Definition text_step (ts : TextState) (ev : StreamEvent) : TextState :=
  match ev with
  | Chunk c => mkText (shown ts) (appendChunk (waiting ts) c)
  | Tick => if truthy (waiting ts) then mkText (appendChunk (shown ts) (waiting ts)) [] else ts
  end.

Definition text_run (ts : TextState) (evs : list StreamEvent) : TextState :=
  fold_left text_step evs ts.

(** ** Refinement *)

Lemma mergePendingStreamChunk_eq cur next : mergePendingStreamChunk cur next = appendChunk cur next.
Proof. by rewrite appendChunk_eq. Qed.

Definition simulates (st : ChatState) (ts : TextState) : Prop :=
  live st /\ shown_text st = shown ts /\ p_content (pending st) = waiting ts.

Lemma handler_simulates_step st ts ev :
  simulates st ts -> simulates (handler_step st ev) (text_step ts ev).
Proof.
  intros ((m & Hl & Ha & Hs & Hr) & Ht & Hp). destruct ev as [c|]; simpl.
  - split_and!; [by exists m|done|]. simpl. by rewrite mergePendingStreamChunk_eq, Hp.
  - unfold flushStreamUpdates. cbn [pending set_pending p_reasoning p_content].
    rewrite Hr, Hp. simpl. destruct (truthy (waiting ts)) eqn:E; simpl.
    2:{ split_and!; [by exists m|done|done]. }
    unfold onMessageUpdate. cbn [messages env set_pending].
    apply last_snoc_inv in Hl as [ms Hms]. unfold shown_text in Ht. rewrite Hms in Ht |- *.
    rewrite last_snoc in Ht. simpl in Ht. rewrite updateLastAssistantMessage_eq, Ha. cbn [set_messages].
    destruct (applyStreamingChunk_content_spec m (waiting ts) (env st) Hs) as ((K1 & K2 & K3) & S2 & S3 & S4).
    unfold simulates, live, shown_text. cbn [messages set_messages pending set_pending p_content p_reasoning].
    rewrite last_snoc. simpl.
    assert (result (applyPendingChunks (pending st) m) (env st)
            = result (applyStreamingChunk m ChunkContent (waiting ts)) (env st)) as ->.
    { unfold applyPendingChunks. rewrite Hr, Hp. simpl. rewrite result_bind. by rewrite E. }
    split_and!; [|by rewrite S2, Ht|done].
    eexists. split_and!; [done| |by rewrite S3|done]. unfold isAssistant in *. by rewrite K2.
Qed.

Lemma handler_simulates st ts evs :
  simulates st ts -> simulates (run_handler st evs) (text_run ts evs).
Proof.
  revert st ts. induction evs as [|ev evs IH]; intros st ts H; simpl; [done|].
  apply IH. by apply handler_simulates_step.
Qed.

Lemma live_simulates st :
  live st -> p_content (pending st) = [] -> simulates st (mkText (shown_text st) []).
Proof. intros H Hp. by split_and!. Qed.

(** ** Snapshot streams *)

(** Each chunk extends the previous one. *)
Fixpoint snapshots (base : jsstr) (cs : list jsstr) : Prop :=
  match cs with
  | [] => True
  | c :: cs' => c <> [] /\ base `prefix_of` c /\ snapshots c cs'
  end.

Lemma text_run_snapshots evs shown0 waiting0 base :
  shown0 `prefix_of` base -> (waiting0 = [] /\ base = shown0 \/ waiting0 = base /\ base <> []) ->
  snapshots base (chunks_of evs) ->
  shown (text_step (text_run (mkText shown0 waiting0) evs) Tick) = default base (last (chunks_of evs)).
Proof.
  revert shown0 waiting0 base. induction evs as [|[c|] evs IH]; intros sh w base Hsh Hw Hc.
  - simpl. destruct Hw as [[-> ->]|[-> Hb]]; simpl; [done|].
    destruct base as [|x base]; [done|]. simpl. by rewrite appendChunk_snapshot.
  - simpl in Hc. destruct Hc as (Hc0 & Hbc & Hc).
    change (text_run _ (Chunk c :: evs)) with (text_run (mkText sh (appendChunk w c)) evs).
    assert (appendChunk w c = c) as ->.
    { destruct Hw as [[-> _]|[-> _]]; [by rewrite appendChunk_delta by (by left)|].
      by apply appendChunk_snapshot. }
    rewrite (IH sh c c); [|by etrans|by right|done].
    change (chunks_of (Chunk c :: evs)) with (c :: chunks_of evs). rewrite last_cons.
    by destruct (last (chunks_of evs)).
  - simpl in Hc. destruct Hw as [[-> ->]|[-> Hb]].
    + apply (IH sh [] sh); [done|by left|done].
    + change (text_run (mkText sh base) (Tick :: evs))
        with (text_run (text_step (mkText sh base) Tick) evs).
      destruct base as [|x base]; [done|]. cbn [text_step waiting truthy shown].
      rewrite appendChunk_snapshot by done. apply (IH _ [] (x :: base)); [done|by left|done].
Qed.

(** ** Delta streams *)

(** No chunk starts with the text that precedes it in its batch, and no batch
    with the text already shown, whatever the batches are. *)
Definition collision_free (base : jsstr) (cs : list jsstr) : Prop :=
  forall xs ys zs, cs = xs ++ ys ++ zs -> concat ys <> [] ->
    (forall c zs', zs = c :: zs' -> ~ concat ys `prefix_of` c) /\
    (base ++ concat xs <> [] -> ~ (base ++ concat xs) `prefix_of` concat ys).

Lemma text_run_deltas evs base xs ys :
  collision_free base (xs ++ ys ++ chunks_of evs) ->
  shown (text_step (text_run (mkText (base ++ concat xs) (concat ys)) evs) Tick) = base ++ concat (xs ++ ys ++ chunks_of evs).
Proof.
  assert (forall xs ys zs, collision_free base (xs ++ ys ++ zs) ->
    text_step (mkText (base ++ concat xs) (concat ys)) Tick
    = mkText (base ++ concat (xs ++ ys)) []) as Htick.
  { intros xs' ys' zs' H. simpl. destruct (concat ys') as [|a l] eqn:E.
    - simpl. by rewrite concat_app, E, app_nil_r.
    - cbn [truthy]. rewrite <- E. rewrite appendChunk_delta.
      + by rewrite concat_app, app_assoc.
      + destruct (H xs' ys' zs' eq_refl) as [_ H2]; [by rewrite E|].
        destruct (base ++ concat xs'); [by left|]. right. by apply H2. }
  revert xs ys. induction evs as [|[c|] evs IH]; intros xs ys H.
  - change (text_run _ []) with (mkText (base ++ concat xs) (concat ys)).
    rewrite (Htick xs ys (chunks_of [])) by done. simpl. by rewrite app_nil_r.
  - change (text_run _ (Chunk c :: evs))
      with (text_run (mkText (base ++ concat xs) (appendChunk (concat ys) c)) evs).
    change (chunks_of (Chunk c :: evs)) with (c :: chunks_of evs) in H |- *.
    replace (appendChunk (concat ys) c) with (concat (ys ++ [c])).
    2:{ rewrite concat_app. simpl. rewrite app_nil_r. symmetry. apply appendChunk_delta.
        destruct (concat ys) as [|a l] eqn:E; [by left|]. right. rewrite <- E.
        destruct (H xs ys (c :: chunks_of evs) eq_refl) as [H1 _]; [by rewrite E|].
        by eapply H1. }
    replace (xs ++ ys ++ c :: chunks_of evs) with (xs ++ (ys ++ [c]) ++ chunks_of evs) in H |- *
      by (by rewrite <- app_assoc).
    by apply IH.
  - change (text_run _ (Tick :: evs))
      with (text_run (text_step (mkText (base ++ concat xs) (concat ys)) Tick) evs).
    change (chunks_of (Tick :: evs)) with (chunks_of evs) in H |- *.
    rewrite (Htick xs ys (chunks_of evs)) by done.
    pose proof (IH (xs ++ ys) []) as IH'. simpl in IH'. rewrite <- app_assoc in IH'. by apply IH'.
Qed.

(** ** Monotonicity *)

Lemma text_step_prefix ts ev : shown ts `prefix_of` shown (text_step ts ev).
Proof.
  destruct ev as [c|]; simpl; [done|]. case_match; [apply appendChunk_prefix|done].
Qed.

Lemma text_run_prefix ts evs : shown ts `prefix_of` shown (text_run ts evs).
Proof.
  revert ts. induction evs as [|ev evs IH]; intros ts; simpl; [done|].
  etrans; [apply (text_step_prefix ts ev)|apply IH].
Qed.

Lemma run_handler_shown st evs :
  live st -> p_content (pending st) = [] ->
  shown_text (run_handler st evs) = shown (text_run (mkText (shown_text st) []) evs).
Proof. intros H Hp. by apply (handler_simulates _ _ evs), live_simulates. Qed.

Lemma run_handler_flush st evs :
  live st -> p_content (pending st) = [] ->
  shown_text (flushStreamUpdates (run_handler st evs))
  = shown (text_step (text_run (mkText (shown_text st) []) evs) Tick).
Proof.
  intros H Hp. apply (handler_simulates_step _ _ Tick), handler_simulates, live_simulates; done.
Qed.

(** A live state for the examples: the assistant has answered [text] so far. *)
Definition sample_live (text : jsstr) : ChatState :=
  mkChat
    [mkMessage (js "k1") RoleUser [mkVersion (js "v1") (js "hi")] None None None None None None None
       None None None None;
     mkMessage (js "k2") RoleAssistant [mkVersion (js "v2") text] (Some 1) (Some 1) None None None None
       (Some false) (Some false) (Some false) (Some STREAMING) None]
    (sample_env 100) true (mkPending [] []) false 0 None (Some 0%nat) false true None 1 [0%nat] [] [] [].

Lemma sample_live_ok text : live (sample_live text).
Proof. eexists. split_and!; done. Qed.

(** ** Properties *)

(** C35: the handler implements the text machine: whatever the chunks and
    wherever the timer fires between them, the text of the message on screen is
    the text that the machine shows and the buffered text is what it keeps
    waiting. *)
Theorem handler_refines_text_machine st evs :
  live st -> p_content (pending st) = [] ->
  let ts := text_run (mkText (shown_text st) []) evs in
  live (run_handler st evs) /\ shown_text (run_handler st evs) = shown ts /\
  p_content (pending (run_handler st evs)) = waiting ts.
Proof. intros H Hp. by apply (handler_simulates _ _ evs), live_simulates. Qed.

Lemma handler_refines_text_machine_witness :
  p_content (pending (run_handler (sample_live (js "a")) [Chunk (js "b"); Tick; Chunk (js "c")])) = js "c".
Proof.
  apply (handler_refines_text_machine (sample_live (js "a")) [Chunk (js "b"); Tick; Chunk (js "c")]);
    [apply sample_live_ok|reflexivity].
Defined.

(** Text that is shown is never taken back while a message streams: whatever
    chunks arrive and whenever the flush timer fires, the shown text only
    grows. *)
Theorem streaming_text_grows st evs :
  live st -> p_content (pending st) = [] ->
  shown_text st `prefix_of` shown_text (run_handler st evs).
Proof. intros H Hp. rewrite run_handler_shown by done. apply (text_run_prefix (mkText _ _)). Qed.

Lemma streaming_text_grows_witness :
  js "Hel" `prefix_of` shown_text (run_handler (sample_live (js "Hel")) [Chunk (js "lo"); Tick]).
Proof. apply (streaming_text_grows (sample_live (js "Hel"))); [apply sample_live_ok|reflexivity]. Defined.

(** C6: On a stream of snapshots (each chunk repeats and extends the text so
    far) the final text is the last snapshot, wherever the timer cuts the
    stream into batches. *)
Theorem snapshot_stream_result st evs :
  live st -> p_content (pending st) = [] ->
  snapshots (shown_text st) (chunks_of evs) ->
  shown_text (flushStreamUpdates (run_handler st evs))
  = default (shown_text st) (last (chunks_of evs)).
Proof.
  intros H Hp Hs. rewrite run_handler_flush by done. apply text_run_snapshots; [done|by left|done].
Qed.

Lemma snapshot_stream_result_witness :
  shown_text (flushStreamUpdates (run_handler (sample_live (js "a"))
    [Chunk (js "ab"); Chunk (js "abc"); Tick; Chunk (js "abcd")])) = js "abcd".
Proof.
  apply (snapshot_stream_result (sample_live (js "a"))
    [Chunk (js "ab"); Chunk (js "abc"); Tick; Chunk (js "abcd")]);
    [apply sample_live_ok|reflexivity|].
  repeat split; try discriminate; apply startsWith_spec; vm_compute; reflexivity.
Defined.

(** On a stream of deltas in which no chunk starts with the text before it,
    the final text is the text followed by all the deltas, wherever the timer
    cuts the stream into batches. *)
Theorem delta_stream_result st evs :
  live st -> p_content (pending st) = [] ->
  collision_free (shown_text st) (chunks_of evs) ->
  shown_text (flushStreamUpdates (run_handler st evs)) = shown_text st ++ concat (chunks_of evs).
Proof.
  intros H Hp Hc. rewrite run_handler_flush by done.
  pose proof (text_run_deltas evs (shown_text st) [] []) as T. simpl in T.
  rewrite app_nil_r in T. by apply T.
Qed.

Lemma delta_stream_result_witness :
  shown_text (flushStreamUpdates (run_handler (sample_live (js "a")) [Chunk (js "b"); Tick]))
  = js "ab".
Proof.
  apply (delta_stream_result (sample_live (js "a")) [Chunk (js "b"); Tick]);
    [apply sample_live_ok|reflexivity|].
  intros xs ys zs Heq Hys.
  assert (xs = [] /\ ys = [js "b"] /\ zs = []) as (-> & -> & ->).
  { destruct xs as [|x xs], ys as [|y ys]; simpl in *; simplify_eq/=; try done.
    - by destruct ys, zs.
    - by destruct xs. }
  split; [done|]. intros _ Hp%startsWith_spec. vm_compute in Hp. discriminate.
Defined.

(** In general the text does depend on the timer: a delta repeated within
    one flush window is shown once, while the same two deltas in separate
    windows are shown twice. *)
Theorem repeated_delta_depends_on_timer st c :
  live st -> p_content (pending st) = [] ->
  shown_text st <> [] -> c <> [] -> ~ shown_text st `prefix_of` c ->
  shown_text (run_handler st [Chunk c; Chunk c; Tick]) = shown_text st ++ c /\
  shown_text (run_handler st [Chunk c; Tick; Chunk c; Tick]) = shown_text st ++ c ++ c.
Proof.
  intros H Hp Hs Hc Hn. rewrite !run_handler_shown by done.
  assert (truthy c = true) as Ht by (by destruct c).
  cbn [text_run fold_left text_step shown waiting].
  rewrite (appendChunk_delta [] c) by (by left). rewrite !app_nil_l, (appendChunk_snapshot c c) by done.
  rewrite Ht. cbn [shown waiting text_step]. rewrite (appendChunk_delta [] c) by (by left).
  rewrite !app_nil_l, Ht. cbn [shown].
  rewrite (appendChunk_delta (shown_text st) c) by (by right). split; [done|].
  rewrite appendChunk_delta; [by rewrite <- app_assoc|]. right. intros [k Hk].
  apply Hn. exists (c ++ k). by rewrite app_assoc.
Qed.

Lemma repeated_delta_depends_on_timer_witness :
  shown_text (run_handler (sample_live (js "x")) [Chunk (js "ha"); Chunk (js "ha"); Tick]) = js "xha" /\
  shown_text (run_handler (sample_live (js "x")) [Chunk (js "ha"); Tick; Chunk (js "ha"); Tick])
  = js "xhaha".
Proof.
  apply (repeated_delta_depends_on_timer (sample_live (js "x")) (js "ha"));
    [apply sample_live_ok|reflexivity|discriminate|discriminate|].
  intros Hp%startsWith_spec. vm_compute in Hp. discriminate.
Defined.

End ChatStreaming.
