(* ===== verification/ChatInvariants.v ===== *)
(** * Invariants of the chat handler

    [run_event] runs one event of the playground page: an action of the user
    with the guards of the components that trigger it, an event of a
    server-sent-event source, the flush timer, or the outcome of a plain
    request.  [steps] closes it under any sequence of events.  The invariant
    [Inv] ties the React states and refs together, over all runs: at most the
    current source is open, chunks wait only while the timer is armed and a
    source is open, and an assistant message is left loading or streaming only
    while the page shows it is generating.  [single_flight] holds in the runs
    where no edit is submitted during a generation; the last two properties
    show what happens in the others.

    Of the library sse.js it is used that a closed source is silent, of
    [setTimeout] that a cleared timer does not fire, and of a promise that it
    settles once. *)

From S2P Require Import Prelude JsString Effects Json ThinkTags PlaygroundMessage PlaygroundConfig ChatHandler ChatStreaming.

Module ChatInvariants.
Import Playground PlaygroundConfig Chat ChatStreaming.

Section Machine.
Variable t : jsstr -> jsstr.
Variable stream_throws : nat -> bool.

(** ** Events *)

Inductive Event :=
| EvSend (c : PlaygroundConfig) (pe : ParameterEnabled) (text : jsstr)
| EvRegenerate (c : PlaygroundConfig) (pe : ParameterEnabled) (k : jsstr)
| EvEditOpen (k : jsstr)
| EvEditCancel
| EvEdit (c : PlaygroundConfig) (pe : ParameterEnabled) (content : jsstr) (submit : bool)
| EvDelete (k : jsstr)
| EvClear
| EvStop
| EvSseMessage (src : nat) (data : jsstr)
| EvSseError (src : nat) (readyState : option Z) (data : option jsstr)
| EvSseReady (src : nat) (readyState status : option Z)
| EvFlushTimer
| EvResponse (id : nat) (choices : option (list ChatCompletionChoice))
| EvRequestError (id : nat) (err : RequestErrorLike).

(** [guardAction] of use-message-action-guard.ts. *)
Definition guardAction (st : ChatState) (action : ChatState -> ChatState) : ChatState :=
  if isGenerating st then st else action st.

(** [handleSubmit] of playground-input.tsx, whose [disabled] is
    [isGenerating]. *)
Definition handleSubmit (c : PlaygroundConfig) (pe : ParameterEnabled) (st : ChatState) (text : jsstr)
    : ChatState :=
  match getSubmittableInputText (Some text) (isGenerating st) with
  | None => st
  | Some submittable => handleSendMessage t stream_throws c pe st submittable
  end.

(** The actions of the page; the editor's buttons are not guarded. *)
Definition run_event (st : ChatState) (ev : Event) : ChatState :=
  match ev with
  | EvSend c pe text => handleSubmit c pe st text
  | EvRegenerate c pe k =>
      guardAction st (fun st => handleRegenerateMessage t stream_throws c pe st k)
  | EvEditOpen k => guardAction st (fun st => handleEditMessage st k)
  | EvEditCancel => handleEditOpenChange st false
  | EvEdit c pe content submit => applyEdit t stream_throws c pe st content submit
  | EvDelete k => guardAction st (fun st => handleDeleteMessage st k)
  | EvClear => guardAction st handleClearMessages
  | EvStop => stopGeneration st
  | EvSseMessage src data => onMessageEvent t st src data
  | EvSseError src rs data => onErrorEvent t st src rs data
  | EvSseReady src rs status => onReadyStateChange t st src rs status
  | EvFlushTimer => flushStreamUpdates st
  | EvResponse id choices => onResponse t st id choices
  | EvRequestError id err => onRequestError t st id err
  end.

(** When an event can happen: a closed source is silent, the timer fires when
    armed and a request has one outcome. *)
Definition enabled (st : ChatState) (ev : Event) : bool :=
  match ev with
  | EvSseMessage src _ | EvSseError src _ _ | EvSseReady src _ _ => bool_decide (src ∈ openSources st)
  | EvFlushTimer => flushTimer st
  | EvResponse id _ | EvRequestError id _ => bool_decide (id ∈ inFlight st)
  | _ => true
  end.

(** No edit is submitted during a generation. *)
Definition edits_guarded (st : ChatState) (ev : Event) : bool :=
  match ev with EvEdit _ _ _ true => negb (isGenerating st) | _ => true end.

Inductive steps (allowed : ChatState -> Event -> bool) : ChatState -> ChatState -> Prop :=
| steps_refl st : steps allowed st st
| steps_run st ev st' :
    steps allowed st st' -> enabled st' ev = true -> allowed st' ev = true ->
    steps allowed st (run_event st' ev).

Definition any_event (st : ChatState) (ev : Event) : bool := true.

(** ** The invariants *)

Definition has_pending (st : ChatState) : bool :=
  truthy (p_content (pending st)) || truthy (p_reasoning (pending st)).

Record stream_inv (st : ChatState) : Prop := {
  si_open : openSources st = option_list (sseSource st);
  si_flag : isStreaming st = bool_decide (is_Some (sseSource st));
  si_complete : is_Some (sseSource st) -> isStreamComplete st = false;
  si_timer : flushTimer st = has_pending st;
  si_pending : has_pending st = true -> is_Some (sseSource st) }.

Definition known_ids (st : ChatState) : Prop :=
  forall id, id ∈ inFlight st \/ id ∈ aborted st \/ abortController st = Some id ->
    (id <= requestId st)%nat.

Record messages_inv (st : ChatState) : Prop := {
  mi_last : only_last_pending (messages st);
  mi_settled : isGenerating st = false -> settled (messages st);
  mi_aborted : requestId st ∈ aborted st -> isStreaming st = false -> settled (messages st) }.

Definition Inv (st : ChatState) : Prop := stream_inv st /\ known_ids st /\ messages_inv st.

(** A request whose outcome would still be used is the last one sent, and no
    stream is open beside it. *)
Definition single_flight (st : ChatState) : Prop :=
  forall id, id ∈ inFlight st -> id ∉ aborted st ->
    isRequesting st = true /\ id = requestId st /\ abortController st = Some id /\
    sseSource st = None.

(** The state of the page before the first action. *)
Definition idle (st : ChatState) : Prop :=
  isRequesting st = false /\ pending st = mkPending [] [] /\ flushTimer st = false /\
  sseSource st = None /\ isStreaming st = false /\ openSources st = [] /\ inFlight st = [] /\
  aborted st = [] /\ abortController st = None /\ settled (messages st).

(** ** Lemmas: the updaters settle the message *)

Lemma completeUpdater_final m e : is_pending (result (completeUpdater m) e) = false.
Proof.
  unfold completeUpdater. destruct (isAssistantMessageFinal m) eqn:E.
  - apply final_not_pending. unfold isAssistantMessageFinal in E. bool_hyps.
    destruct E as [E|E]; bool_hyps; auto.
  - apply final_not_pending. left. by apply completeAssistantMessage_spec.
Qed.

Lemma stopUpdater_final m e : is_pending (result (stopUpdater m) e) = false.
Proof.
  unfold stopUpdater. destruct (isAssistantMessagePending m) eqn:E.
  - apply final_not_pending. left. by apply completeAssistantMessage_spec.
  - unfold is_pending, isPendingAssistantMessage, result, ret. cbn [fst]. by rewrite E, andb_false_r.
Qed.

Lemma errorUpdater_final msg code ttl m e :
  is_pending (result (errorUpdater msg code ttl m) e) = false.
Proof. apply final_not_pending. right. by apply errorUpdater_spec. Qed.

(** ** Lemmas: the shape of the handlers *)

Lemma onMessageUpdate_eq st f :
  onMessageUpdate st f = set_messages st (result (f (messages st)) (env st)) (f (messages st) (env st)).2.
Proof. unfold onMessageUpdate, result. by destruct (f (messages st) (env st)). Qed.

Lemma not_truthy s : truthy s = false -> s = [].
Proof. by destruct s. Qed.

Definition no_pending : PendingStreamChunks := mkPending [] [].

Lemma flush_shape st :
  exists ms e, flushStreamUpdates st = set_pending (set_messages st ms e) no_pending false /\
    (only_last_pending (messages st) -> only_last_pending ms) /\
    (has_pending st = false -> ms = messages st).
Proof.
  unfold flushStreamUpdates. cbn [pending set_pending].
  destruct (negb (truthy (p_reasoning (pending st))) && negb (truthy (p_content (pending st)))) eqn:E.
  - exists (messages st), (env st). split_and!; [|done..]. bool_hyps.
    destruct st as [? ? ? [pc pr] ? ? ? ? ? ? ? ? ? ? ? ?]; simpl in *.
    apply not_truthy in H, H0. by subst.
  - rewrite onMessageUpdate_eq. do 2 eexists. split_and!; [reflexivity|apply update_only_last|].
    unfold has_pending. intros Hp. bool_hyps. destruct E as [E|E]; bool_hyps; congruence.
Qed.

Lemma complete_shape st :
  exists ms e, handleStreamComplete st
      = setIsRequesting (set_pending (set_messages st ms e) no_pending false) false /\
    (only_last_pending (messages st) -> settled ms).
Proof.
  unfold handleStreamComplete. destruct (flush_shape st) as (ms & e & -> & H & _).
  rewrite onMessageUpdate_eq. do 2 eexists. split; [reflexivity|]. intros Hl.
  apply update_settled; [by apply H|]. intros m e' _. apply completeUpdater_final.
Qed.

Lemma error_shape st err code :
  exists ms e, handleStreamError t st err code
      = setIsRequesting (set_pending (set_messages st ms e) no_pending false) false /\
    (only_last_pending (messages st) -> settled ms).
Proof.
  unfold handleStreamError. destruct (flush_shape st) as (ms & e & -> & H & _).
  rewrite onMessageUpdate_eq. do 2 eexists. split; [reflexivity|]. intros Hl.
  unfold updateAssistantMessageWithError. apply update_settled; [by apply H|].
  intros m e' _. apply errorUpdater_final.
Qed.

Lemma stop_shape st :
  exists ms e, stopGeneration st =
    (let st := stopStream st in
     setIsRequesting
       (set_request (set_pending (set_messages st ms e) no_pending false) (requestId st) None (inFlight st)
          (match abortController st with Some id => aborted st ++ [id] | None => aborted st end)) false) /\
    (only_last_pending (messages st) -> settled ms).
Proof.
  unfold stopGeneration. destruct (flush_shape (stopStream st)) as (ms & e & -> & H & _).
  rewrite onMessageUpdate_eq. do 2 eexists. split; [reflexivity|]. intros Hl.
  apply update_settled; [apply H|intros m e' _; apply stopUpdater_final].
  unfold stopStream, closeActiveStream, close_source. by destruct (sseSource st).
Qed.

(** ** Lemmas: preservation of the invariant *)

Lemma Inv_settled st :
  openSources st = option_list (sseSource st) ->
  isStreaming st = bool_decide (is_Some (sseSource st)) ->
  (is_Some (sseSource st) -> isStreamComplete st = false) ->
  flushTimer st = false -> pending st = no_pending ->
  known_ids st -> settled (messages st) -> Inv st.
Proof.
  intros Ho Hf Hc Ht Hp Hk Hs. unfold Inv. split_and!; [split|done|split]; try done.
  - unfold has_pending. by rewrite Hp.
  - unfold has_pending. by rewrite Hp.
  - by apply settled_only_last.
Qed.

(** Closing the current source. *)
Lemma close_current st src :
  openSources st = [src] -> sseSource st = Some src ->
  closeActiveStream st (Some src)
  = set_stream st None (isStreamComplete st) false (nextSource st) [].
Proof.
  intros Ho Hs. unfold closeActiveStream, close_source. cbn [sseSource set_stream openSources].
  rewrite Ho, Hs. cbn. rewrite Nat.eqb_refl, bool_decide_eq_true_2 by done. done.
Qed.

Lemma close_none st :
  stream_inv st ->
  closeActiveStream st None = set_stream st None (isStreamComplete st) false (nextSource st) [].
Proof.
  intros H. unfold closeActiveStream, close_source. rewrite (si_open _ H).
  destruct (sseSource st) as [s|] eqn:E; cbn.
  - by rewrite Nat.eqb_refl.
  - by rewrite (si_open _ H), E.
Qed.

Lemma open_current st src : stream_inv st -> src ∈ openSources st -> sseSource st = Some src.
Proof.
  intros H. rewrite (si_open _ H). destruct (sseSource st); simpl; [|by intros ?%not_elem_of_nil].
  by intros ->%list_elem_of_singleton.
Qed.

Lemma handleError_inv st src err code :
  Inv st -> src ∈ openSources st -> Inv (handleError t st src err code).
Proof.
  intros (Hs & Hk & Hm) Hin. pose proof (open_current _ _ Hs Hin) as Hsrc.
  unfold handleError. rewrite (si_complete _ Hs) by (by rewrite Hsrc).
  destruct (error_shape st err code) as (ms & e & -> & Hset).
  rewrite close_current; [|cbn; by rewrite (si_open _ Hs), Hsrc|done].
  apply Inv_settled; try done; [by intros [? ?]|]. apply Hset, Hm.
Qed.

Lemma mergePending_truthy cur next : truthy next = true -> truthy (mergePendingStreamChunk cur next) = true.
Proof.
  intros H. unfold mergePendingStreamChunk. destruct cur as [|x cur]; [done|].
  by destruct (negb (truthy (x :: cur)) || negb (startsWith next (x :: cur))).
Qed.

Lemma handleStreamUpdate_pending u st :
  truthy (update_chunk u) = true ->
  has_pending (handleStreamUpdate st u) = true /\ flushTimer (handleStreamUpdate st u) = true.
Proof.
  intros H. unfold has_pending, handleStreamUpdate, scheduleStreamFlush.
  destruct (update_type u); cbn [pending set_pending p_content p_reasoning flushTimer];
    rewrite mergePending_truthy by done; split; auto using orb_true_r.
Qed.

Lemma str_prop_truthy o k s : str_prop o k = Some s -> truthy s = true.
Proof.
  unfold str_prop. destruct (Json.prop o k) as [[]|]; try done.
  case_match eqn:E; [|done]. by intros [= <-].
Qed.

Lemma parseStreamMessageUpdates_truthy data us :
  parseStreamMessageUpdates data = Some us -> Forall (fun u => truthy (update_chunk u) = true) us.
Proof.
  unfold parseStreamMessageUpdates. intros H.
  repeat (case_match; try done); simplify_eq; try apply Forall_nil_2;
    repeat match goal with K : str_prop _ _ = Some _ |- _ => apply str_prop_truthy in K end;
    repeat (apply Forall_cons_2 || apply Forall_nil_2); done.
Qed.

Lemma updates_inv us st src :
  Forall (fun u => truthy (update_chunk u) = true) us -> Inv st -> sseSource st = Some src ->
  Inv (fold_left handleStreamUpdate us st).
Proof.
  intros Hus (Hs & Hk & Hm) Hsrc. revert st Hs Hk Hm Hsrc.
  induction Hus as [|u us Hu _ IH]; intros st Hs Hk Hm Hsrc; [done|]. cbn [fold_left].
  destruct (handleStreamUpdate_pending u st Hu) as [Hp Ht].
  assert (exists p, handleStreamUpdate st u = set_pending st p true) as [p Hst]
    by (eexists; unfold handleStreamUpdate, scheduleStreamFlush; done).
  apply IH.
  - rewrite Hst in *. split; cbn [openSources sseSource isStreaming isStreamComplete set_pending];
      try apply Hs; [by rewrite Ht, Hp|]. by rewrite Hsrc.
  - by rewrite Hst.
  - rewrite Hst. split; apply Hm.
  - by rewrite Hst.
Qed.

(** The chunks and the timer. *)
Lemma flush_inv st : Inv st -> Inv (flushStreamUpdates st).
Proof.
  intros (Hs & Hk & Hm). destruct (flush_shape st) as (ms & e & Heq & Hl & Hsame). rewrite Heq.
  assert (isGenerating st = false -> ms = messages st) as Hidle.
  { intros Hg. apply Hsame. destruct (has_pending st) eqn:E; [|done].
    apply (si_pending _ Hs) in E. unfold isGenerating in Hg. rewrite (si_flag _ Hs) in Hg.
    rewrite bool_decide_eq_true_2 in Hg by done. done. }
  unfold Inv. split_and!; [split; try done; apply Hs|done|split].
  - apply Hl, Hm.
  - intros Hg. cbn [messages set_pending set_messages]. rewrite Hidle by done. by apply Hm.
  - intros Ha Hstr. cbn [messages set_pending set_messages].
    rewrite Hsame; [by apply (mi_aborted _ Hm)|]. destruct (has_pending st) eqn:E; [|done].
    apply (si_pending _ Hs) in E. change (isStreaming st = false) in Hstr.
    rewrite (si_flag _ Hs) in Hstr. by rewrite bool_decide_eq_true_2 in Hstr.
Qed.

Lemma message_event_inv st src data :
  Inv st -> src ∈ openSources st -> Inv (onMessageEvent t st src data).
Proof.
  intros HI Hin. pose proof HI as (Hs & Hk & Hm). pose proof (open_current _ _ Hs Hin) as Hsrc.
  unfold onMessageEvent. destruct (isStreamDoneMessage data).
  - rewrite close_current; [|cbn; by rewrite (si_open _ Hs), Hsrc|done].
    match goal with |- Inv (handleStreamComplete ?x) =>
      destruct (complete_shape x) as (ms & e & -> & Hset) end.
    apply Inv_settled; try done; [by intros [? ?]|]. apply Hset, Hm.
  - destruct (parseStreamMessageUpdates data) as [us|] eqn:E.
    + apply parseStreamMessageUpdates_truthy in E. by eapply updates_inv.
    + by apply handleError_inv.
Qed.

Lemma stop_inv st : Inv st -> Inv (stopGeneration st).
Proof.
  intros (Hs & Hk & Hm). destruct (stop_shape st) as (ms & e & -> & Hset).
  cbv zeta. unfold stopStream. rewrite close_none by done.
  apply Inv_settled; try done; [by intros [? ?]| |apply Hset, Hm].
  intros id Hid. apply Hk. cbn [abortController set_stream inFlight aborted set_request setIsRequesting set_pending set_messages] in Hid.
  destruct Hid as [?|[Hid|?]]; [by left| |done].
  destruct (abortController st) as [a|]; [|by (right; left)].
  apply elem_of_app in Hid as [?|Hid]; [by (right; left)|].
  apply list_elem_of_singleton in Hid as ->. by right; right.
Qed.

(** Replacing the messages by ones with the same flags, or sending. *)
Lemma set_messages_inv st ms e :
  Inv st -> only_last_pending ms -> (settled (messages st) -> settled ms) ->
  Inv (set_messages st ms e).
Proof.
  intros (Hs & Hk & Hm) Hl Hset. unfold Inv. split_and!; [split; apply Hs|done|split]; [done| |].
  - intros Hg. by apply Hset, (mi_settled _ Hm).
  - intros Ha Hstr. by apply Hset, (mi_aborted _ Hm).
Qed.

Lemma set_editing_inv st k : Inv st -> Inv (setEditingMessageKey st k).
Proof. intros (Hs & Hk & Hm). by split_and!; [split; apply Hs|..|split; apply Hm]. Qed.

Lemma known_ids_sub st st' :
  known_ids st -> (requestId st <= requestId st')%nat ->
  (forall id, id ∈ inFlight st' -> id ∈ inFlight st) -> (forall id, id ∈ aborted st' -> id ∈ aborted st) ->
  (forall id, abortController st' = Some id -> abortController st = Some id) -> known_ids st'.
Proof.
  intros Hk Hr H1 H2 H3 id Hid. etrans; [|exact Hr]. apply Hk. naive_solver.
Qed.

Lemma close_source_current st :
  openSources st = option_list (sseSource st) ->
  close_source st (sseSource st)
  = set_stream st (sseSource st) (isStreamComplete st) (isStreaming st) (nextSource st) [].
Proof.
  intros Ho. unfold close_source. destruct (sseSource st) as [n|] eqn:E.
  - rewrite Ho. cbn. by rewrite Nat.eqb_refl.
  - destruct st. cbn in *. by subst.
Qed.

Lemma send_inv c pe st ms :
  stream_inv st -> known_ids st -> only_last_pending (messages st) ->
  Inv (sendChat t stream_throws c pe st ms).
Proof.
  intros Hs Hk Hl. unfold sendChat. destruct (stream c).
  - unfold sendStreamingChat, sendStreamRequest. cbv zeta.
    rewrite (close_source_current (setIsRequesting st true)) by apply Hs.
    destruct (stream_throws _).
    + match goal with |- context [handleStreamError t ?x ?e ?c] =>
        destruct (error_shape x e c) as (ms' & e' & -> & Hset) end.
      rewrite close_current by done. apply Inv_settled; try done. by apply Hset.
    + unfold Inv. split_and!; [split; try done; apply Hs|done|split]; done.
  - unfold sendNonStreamingChat. unfold Inv. split_and!; [split; apply Hs| |split]; try done.
    + intros id Hid. cbn in *. destruct Hid as [Hid|[Hid|[= <-]]]; [|etrans; [|apply Nat.le_succ_diag_r]; auto|done].
      apply elem_of_app in Hid as [?|Hid]; [etrans; [|apply Nat.le_succ_diag_r]; auto|].
      by apply list_elem_of_singleton in Hid as ->.
    + unfold isGenerating. cbn. by rewrite orb_true_r.
    + intros Hin. cbn in Hin. exfalso. specialize (Hk (S (requestId st))).
      enough (S (requestId st) <= requestId st)%nat by lia. auto.
Qed.

(** ** Lemmas: the outcome of a request *)

Lemma updateResponse_settled ms choices e :
  hasChatCompletionChoice choices = true -> only_last_pending ms ->
  settled (result (updateLastAssistantMessage ms (fun m =>
    let! r := applyChatCompletionResponse m choices in ret (r ?? m))) e).
Proof.
  intros Hc Hl. apply update_settled; [done|]. intros m e' _. rewrite result_bind, result_ret.
  destruct choices as [[|ch chs]|]; try done. unfold applyChatCompletionResponse.
  rewrite result_bind, result_ret. apply final_not_pending. left.
  by apply applyChatCompletionChoice_spec.
Qed.

(** The messages are settled and the flags are those of a finished request, or
    the request was aborted and nothing changes. *)
Lemma finally_inv st id :
  Inv st -> (id ∈ aborted st \/ settled (messages st)) -> Inv (finallyRequest st id).
Proof.
  intros (Hs & Hk & Hm) Hid. unfold finallyRequest. cbn [requestId set_request].
  assert (forall x, x ∈ List.filter (fun m => negb (m =? id)%nat) (inFlight st) -> x ∈ inFlight st) as Hf.
  { intros x Hx. apply list_elem_of_In, filter_In in Hx as [Hx _]. by apply list_elem_of_In. }
  destruct (requestId st =? id)%nat eqn:E.
  - apply Nat.eqb_eq in E as <-. unfold Inv. split_and!; [split; apply Hs| |split].
    + by eapply known_ids_sub.
    + apply Hm.
    + intros Hg. destruct Hid as [Ha|?]; [|done]. apply (mi_aborted _ Hm); [done|].
      unfold isGenerating in Hg. cbn in Hg. by rewrite orb_false_r in Hg.
    + apply (mi_aborted _ Hm).
  - unfold Inv. split_and!; [split; apply Hs| |split; apply Hm]. by eapply known_ids_sub.
Qed.

Lemma stream_error_inv st err code :
  Inv st -> Inv (handleStreamError t st err code) /\
            settled (messages (handleStreamError t st err code)).
Proof.
  intros (Hs & Hk & Hm). destruct (error_shape st err code) as (ms & e & -> & Hset).
  assert (settled ms) by apply Hset, Hm. split; [|done].
  apply Inv_settled; try done; apply Hs.
Qed.

Lemma response_inv st id choices : Inv st -> Inv (onResponse t st id choices).
Proof.
  intros HI. unfold onResponse. destruct (bool_decide (id ∈ aborted st)) eqn:E; bool_hyps.
  { apply finally_inv; auto. }
  destruct (hasChatCompletionChoice choices) eqn:Ec; cbn [negb].
  - rewrite onMessageUpdate_eq. pose proof HI as (_ & _ & Hm).
    pose proof (updateResponse_settled (messages st) choices (env st) Ec (mi_last _ Hm)) as Hset.
    apply finally_inv; [|by right]. apply set_messages_inv; [done|by apply settled_only_last|done].
  - destruct (stream_error_inv st API_REQUEST_ERROR None HI). apply finally_inv; auto.
Qed.

Lemma request_error_inv st id err : Inv st -> Inv (onRequestError t st id err).
Proof.
  intros HI. unfold onRequestError. destruct (bool_decide (id ∈ aborted st)) eqn:E; bool_hyps.
  { apply finally_inv; auto. }
  cbv zeta. match goal with |- context [handleStreamError t st ?m ?c] =>
    destruct (stream_error_inv st m c HI) end.
  apply finally_inv; auto.
Qed.

(** ** Lemmas: the user's actions *)

Lemma user_not_pending m : isUser m = true -> is_pending m = false.
Proof.
  unfold isUser, is_pending, isPendingAssistantMessage, isAssistant. intros H. bool_hyps.
  by rewrite H.
Qed.

Lemma settled_take ms n : settled ms -> settled (take n ms).
Proof. apply Forall_take. Qed.

Lemma appendUserMessagePair_eq ms text e :
  exists u a e', appendUserMessagePair ms text e = (ms ++ [u; a], e') /\
    isUser u = true /\ versions u <> [] /\ getMessageContent u = text /\
    isAssistant a = true /\ getMessageContent a = [] /\ status a = Some LOADING.
Proof. do 3 eexists. split_and!; try reflexivity. discriminate. Qed.

Lemma createRegeneratedMessages_shape ms k e next e' :
  createRegeneratedMessages ms k e = (Some next, e') ->
  exists n a, next = take n ms ++ [a] /\ isAssistant a = true /\ getMessageContent a = [] /\
    status a = Some LOADING.
Proof.
  unfold createRegeneratedMessages. destruct (findIndexByKey ms k) as [n|]; [|done].
  unfold bind, Date_now, createLoadingAssistantMessage, createMessageVersion, nanoid, ret. cbn.
  destruct (isUser <$> ms !! n ?? false); intros [= <- _]; by do 2 eexists.
Qed.

(** What an edit makes of the messages. *)
Definition editedMessage (k content : jsstr) (created : option Z) (m : Message) : Message :=
  if decide (key m = k)
  then with_createdAt (updateCurrentVersionContent m content)
         (match created with Some x => Some x | None => createdAt m end)
  else m.

Lemma applyMessageEdit_shape ms k content submit e res e' :
  applyMessageEdit ms k content submit e = (Some res, e') ->
  exists n created, let edited := editedMessage k content created <$> ms in
    findIndexByKey ms k = Some n /\
    (shouldSend res = false /\ edit_messages res = edited \/
     shouldSend res = true /\ submit = true /\
     exists a u, edited !! n = Some u /\ isUser u = true /\
       edit_messages res = take (n + 1) edited ++ [a] /\
       isAssistant a = true /\ getMessageContent a = [] /\ status a = Some LOADING).
Proof.
  unfold applyMessageEdit, bind at 1, Date_now. destruct (findIndexByKey ms k) as [n|] eqn:E; [|done].
  intros H. exists n, (if submit then Some (clock_readings e (clock_pos e)) else None).
  match type of H with context [map ?f ms] =>
    assert (map f ms = editedMessage k content (if submit then Some (clock_readings e (clock_pos e)) else None) <$> ms) as Heq end.
  { apply list_fmap_ext. intros i m Hi. unfold editedMessage. by destruct submit. }
  rewrite Heq in H. clear Heq. cbv zeta. split; [done|]. revert H.
  destruct (isUser <$> _ ?? false) eqn:Eu; [|rewrite orb_true_r; intros [= <- _]; by left].
  destruct submit; intros [= <- _]; [right|by left]. split_and!; [done..|].
  destruct (_ !! n) as [u|] eqn:En; [|done]. do 2 eexists. split_and!; try done.
Qed.

Lemma editedMessage_pending k content created m :
  is_pending (editedMessage k content created m) = is_pending m.
Proof. unfold editedMessage. by case_decide. Qed.

Lemma edited_settled k content created ms :
  settled ms -> settled (editedMessage k content created <$> ms).
Proof.
  unfold settled. rewrite Forall_fmap. intros H. eapply Forall_impl; [exact H|]. intros m.
  unfold compose. by rewrite editedMessage_pending.
Qed.

Lemma edited_only_last k content created ms :
  only_last_pending ms -> only_last_pending (editedMessage k content created <$> ms).
Proof.
  intros H i m Hi Hlt. rewrite length_fmap in Hlt. rewrite list_lookup_fmap in Hi.
  destruct (ms !! i) as [m0|] eqn:E; [|done]. injection Hi as <-.
  rewrite editedMessage_pending. by apply (H i).
Qed.

(** The messages up to one of the user's are settled. *)
Lemma take_user_settled ms n u :
  only_last_pending ms -> ms !! n = Some u -> isUser u = true -> settled (take (n + 1) ms).
Proof.
  intros Hl Hn Hu. apply Forall_lookup. intros i m Hi.
  apply lookup_take_Some in Hi as [Hi Hlt]. destruct (decide (i = n)) as [->|].
  - rewrite Hn in Hi. injection Hi as <-. by apply user_not_pending.
  - apply (Hl i m Hi). apply lookup_lt_Some in Hn. lia.
Qed.

Lemma edit_inv c pe st content submit :
  Inv st -> Inv (applyEdit t stream_throws c pe st content submit).
Proof.
  intros HI. unfold applyEdit. destruct (editingMessageKey st) as [k|]; [|done].
  destruct (negb (truthy k)); [done|].
  destruct (applyMessageEdit (messages st) k content submit (env st)) as [[res|] e] eqn:E.
  2:{ pose proof HI as (_ & _ & Hm). by apply set_messages_inv; [|apply Hm|]. }
  apply applyMessageEdit_shape in E as (n & created & Hn & E). pose proof HI as (Hs & Hk & Hm).
  cbv zeta. destruct E as [[-> ->]|(-> & _ & a & u & Hu & Hus & -> & Ha)].
  - apply set_messages_inv; [by apply set_editing_inv| |].
    + apply edited_only_last, Hm.
    + apply edited_settled.
  - apply send_inv; [split; apply Hs|done|]. apply only_last_snoc.
    eapply take_user_settled; [apply edited_only_last, Hm|done|done].
Qed.

Lemma idle_messages st : Inv st -> isGenerating st = false -> settled (messages st).
Proof. intros (_ & _ & Hm). apply (mi_settled _ Hm). Qed.

(** Every event preserves the invariant. *)
Lemma run_event_inv st ev : Inv st -> enabled st ev = true -> Inv (run_event st ev).
Proof.
  intros HI Hen. pose proof HI as (Hs & Hk & Hm).
  destruct ev; cbn [run_event enabled] in *; bool_hyps; unfold guardAction, handleSubmit.
  - destruct (isGenerating st) eqn:Eg; [done|]. unfold getSubmittableInputText.
    destruct (false || _); [done|]. unfold handleSendMessage.
    destruct (appendUserMessagePair_eq (messages st) text (env st)) as (u & a & e & -> & Hu & _).
    apply send_inv; [split; apply Hs|done|]. cbn [messages set_messages].
    change [u; a] with ([u] ++ [a]). rewrite app_assoc. apply only_last_snoc, settled_snoc.
    split; [by apply idle_messages|by apply user_not_pending].
  - destruct (isGenerating st) eqn:Eg; [done|]. unfold handleRegenerateMessage.
    destruct (createRegeneratedMessages (messages st) k (env st)) as [[next|] e] eqn:E.
    + apply createRegeneratedMessages_shape in E as (n & a & -> & _).
      apply send_inv; [split; apply Hs|done|]. apply only_last_snoc, settled_take. by apply idle_messages.
    + apply set_messages_inv; [done|apply Hm|done].
  - destruct (isGenerating st); [done|by apply set_editing_inv].
  - by apply set_editing_inv.
  - by apply edit_inv.
  - destruct (isGenerating st) eqn:Eg; [done|].
    assert (settled (removeMessageByKey (messages st) k)) as H.
    { apply Forall_forall. intros m Hin. apply list_elem_of_In, filter_In in Hin as [Hin _].
      pose proof (idle_messages _ HI Eg) as Hi. unfold settled in Hi. rewrite Forall_forall in Hi.
      by apply Hi, list_elem_of_In. }
    apply set_messages_inv; [done|by apply settled_only_last|done].
  - destruct (isGenerating st) eqn:Eg; [done|]. unfold handleClearMessages.
    apply set_messages_inv; [by apply set_editing_inv|done|constructor].
  - by apply stop_inv.
  - by apply message_event_inv.
  - unfold onErrorEvent. case_match; [done|]. by apply handleError_inv.
  - unfold onReadyStateChange. case_match; [by apply handleError_inv|done].
  - by apply flush_inv.
  - by apply response_inv.
  - by apply request_error_inv.
Qed.

Lemma idle_inv st : idle st -> Inv st.
Proof.
  intros (Hr & Hp & Ht & Hs & Hstr & Ho & Hf & Ha & Hc & Hm). apply Inv_settled; try done.
  - by rewrite Ho, Hs.
  - by rewrite Hstr, Hs.
  - rewrite Hs. by intros [? ?].
  - intros id. rewrite Hf, Ha, Hc. intros [H|[H|H]]; [by apply not_elem_of_nil in H..|done].
Qed.

Lemma steps_inv allowed st st' : Inv st -> steps allowed st st' -> Inv st'.
Proof. intros HI H. induction H as [|? ? ? ? IH]; [done|]. apply run_event_inv; auto. Qed.

(** ** Lemmas: one request at a time *)

(** No outcome that is still to come would be used. *)
Definition no_live (st : ChatState) : Prop := forall id, id ∈ inFlight st -> id ∈ aborted st.

Lemma no_live_single st : no_live st -> single_flight st.
Proof. intros H id Hin Hn. by apply H in Hin. Qed.

Lemma idle_no_live st : single_flight st -> isRequesting st = false -> no_live st.
Proof.
  intros H Hr id Hin. destruct (decide (id ∈ aborted st)) as [|Hn]; [done|].
  destruct (H id Hin Hn). congruence.
Qed.

Lemma streaming_no_live st src : single_flight st -> sseSource st = Some src -> no_live st.
Proof.
  intros H Hr id Hin. destruct (decide (id ∈ aborted st)) as [|Hn]; [done|].
  destruct (H id Hin Hn) as (_ & _ & _ & ?). congruence.
Qed.

Lemma handleError_requests st src err code :
  inFlight (handleError t st src err code) = inFlight st /\
  aborted (handleError t st src err code) = aborted st.
Proof.
  unfold handleError. destruct (isStreamComplete st); [done|].
  destruct (error_shape st err code) as (ms & e & -> & _).
  unfold closeActiveStream, close_source. by destruct (_ || _).
Qed.

Lemma updates_requests us st :
  inFlight (fold_left handleStreamUpdate us st) = inFlight st /\
  aborted (fold_left handleStreamUpdate us st) = aborted st.
Proof. apply (fold_left_cons_inv (fun st' => inFlight st' = inFlight st /\ aborted st' = aborted st)); [done|].
  intros st' u _. by unfold handleStreamUpdate, scheduleStreamFlush. Qed.

Lemma message_event_requests st src data :
  inFlight (onMessageEvent t st src data) = inFlight st /\
  aborted (onMessageEvent t st src data) = aborted st.
Proof.
  unfold onMessageEvent. destruct (isStreamDoneMessage data).
  - match goal with |- context [handleStreamComplete ?x] =>
      destruct (complete_shape x) as (ms & e & -> & _) end.
    unfold closeActiveStream, close_source. by destruct (_ || _).
  - destruct (parseStreamMessageUpdates data); [apply updates_requests|apply handleError_requests].
Qed.

Lemma send_single c pe st ms :
  no_live st -> sseSource st = None -> openSources st = [] ->
  single_flight (sendChat t stream_throws c pe st ms).
Proof.
  intros Hn Hs Ho. unfold sendChat. destruct (stream c).
  - apply no_live_single. unfold sendStreamingChat, sendStreamRequest, close_source.
    cbn [sseSource setIsRequesting]. rewrite Hs. cbv zeta. destruct (stream_throws _); [|done].
    match goal with |- context [handleStreamError t ?x ?e ?c] =>
      destruct (error_shape x e c) as (ms' & e' & -> & _) end.
    unfold closeActiveStream, close_source. by destruct (_ || _).
  - intros id Hin Hna. cbn in *. apply elem_of_app in Hin as [Hin|Hin].
    + by apply Hn in Hin.
    + by apply list_elem_of_singleton in Hin as ->.
Qed.

Lemma finally_single st id :
  (forall x, x ∈ inFlight st -> x ∉ aborted st -> x <> id ->
     isRequesting st = true /\ x = requestId st /\ abortController st = Some x /\ sseSource st = None) ->
  (requestId st = id -> forall x, x ∈ inFlight st -> x ∉ aborted st -> x = id) ->
  single_flight (finallyRequest st id).
Proof.
  intros H Hid. unfold finallyRequest. cbn [requestId set_request].
  assert (forall x, x ∈ List.filter (fun m => negb (m =? id)%nat) (inFlight st) ->
    x ∈ inFlight st /\ x <> id) as Hf.
  { intros x Hx. apply list_elem_of_In, filter_In in Hx as [Hx Hne]. split; [by apply list_elem_of_In|].
    intros ->. by rewrite Nat.eqb_refl in Hne. }
  destruct (requestId st =? id)%nat eqn:E; intros x Hin Hn; cbn in Hin, Hn; apply Hf in Hin as [Hin Hne].
  - apply Nat.eqb_eq in E. by destruct (Hne (Hid E x Hin Hn)).
  - by apply H.
Qed.

Lemma error_requests st err code :
  let st' := handleStreamError t st err code in
  inFlight st' = inFlight st /\ aborted st' = aborted st /\ requestId st' = requestId st /\
  abortController st' = abortController st.
Proof. cbv zeta. by destruct (error_shape st err code) as (ms & e & -> & _). Qed.

(** The outcome of a request removes the only one that is used. *)
Lemma outcome_single st st' id :
  single_flight st -> inFlight st' = inFlight st -> aborted st' = aborted st ->
  requestId st' = requestId st -> id ∈ inFlight st -> (id ∈ aborted st -> st' = st) ->
  single_flight (finallyRequest st' id).
Proof.
  intros H Hf Ha Hr Hin Hst. apply finally_single; rewrite Hf, Ha, ?Hr.
  - intros x Hx Hxn Hne. destruct (decide (id ∈ aborted st)) as [Hi|Hi].
    + rewrite (Hst Hi). by apply H.
    + destruct (H x Hx Hxn) as (_ & -> & _). by destruct (H id Hin Hi) as (_ & -> & _).
  - intros <- x Hx Hxn. by destruct (H x Hx Hxn) as (_ & -> & _).
Qed.

Lemma run_event_single st ev :
  Inv st -> single_flight st -> enabled st ev = true -> edits_guarded st ev = true ->
  single_flight (run_event st ev).
Proof.
  intros (Hs & _ & _) H Hen Hg.
  assert (isGenerating st = false -> no_live st /\ sseSource st = None /\ openSources st = []) as Hidle.
  { unfold isGenerating. intros [Hg1 Hg2]%orb_false_iff. split; [by apply idle_no_live|].
    rewrite (si_open _ Hs). rewrite (si_flag _ Hs) in Hg1. bool_hyps.
    destruct (sseSource st); [|done]. by destruct Hg1. }
  destruct ev; cbn [run_event enabled edits_guarded] in *; bool_hyps;
    unfold guardAction, handleSubmit; try (destruct (isGenerating st) eqn:Eg; [done|]);
    try destruct (Hidle eq_refl) as (Hi1 & Hi2 & Hi3); try done.
  - unfold getSubmittableInputText. destruct (false || _); [done|]. by apply send_single.
  - unfold handleRegenerateMessage.
    destruct (createRegeneratedMessages _ _ _) as [[next|] e]; [by apply send_single|exact H].
  - unfold applyEdit. destruct (editingMessageKey st) as [k|]; [|done].
    destruct (negb (truthy k)); [done|].
    destruct (applyMessageEdit _ _ _ _ _) as [[res|] e] eqn:E; [|exact H].
    apply applyMessageEdit_shape in E as (n & created & _ & E).
    cbv zeta. destruct E as [[-> _]|(-> & -> & _)]; [exact H|]. bool_hyps.
    destruct (Hidle Hg) as (Hi1 & Hi2 & Hi3). by apply send_single.
  - intros id Hin Hn. destruct (stop_shape st) as (ms & e & Heq & _). rewrite Heq in Hin, Hn.
    unfold stopStream in *. rewrite close_none in Hin, Hn by done. cbn in Hin, Hn.
    destruct (decide (id ∈ aborted st)) as [Ha|Ha].
    { destruct Hn. destruct (abortController st); [apply elem_of_app; by left|done]. }
    destruct (H id Hin Ha) as (_ & _ & Hc & _). rewrite Hc in Hn. destruct Hn.
    apply elem_of_app. right. by apply list_elem_of_singleton.
  - apply no_live_single. apply open_current in Hen; [|done].
    destruct (message_event_requests st src data) as [Hf Ha]. unfold no_live. rewrite Hf, Ha.
    by eapply streaming_no_live.
  - unfold onErrorEvent. case_match; [done|]. apply no_live_single. apply open_current in Hen; [|done].
    unfold no_live. match goal with |- context [handleError t ?a ?b ?c ?d] =>
      destruct (handleError_requests a b c d) as [-> ->] end. by eapply streaming_no_live.
  - unfold onReadyStateChange. case_match; [|done]. apply no_live_single.
    apply open_current in Hen; [|done]. unfold no_live.
    match goal with |- context [handleError t ?a ?b ?c ?d] =>
      destruct (handleError_requests a b c d) as [-> ->] end. by eapply streaming_no_live.
  - destruct (flush_shape st) as (ms & e & -> & _). exact H.
  - unfold onResponse. eapply outcome_single; [exact H| | | |done|]; case_match; bool_hyps; try done;
      destruct (negb _); try (by rewrite onMessageUpdate_eq); apply error_requests.
  - unfold onRequestError. eapply outcome_single; [exact H| | | |done|]; case_match; bool_hyps; try done;
      apply error_requests.
Qed.

Lemma steps_single st st' :
  Inv st -> single_flight st -> steps edits_guarded st st' -> Inv st' /\ single_flight st'.
Proof.
  intros HI HS H. induction H as [|st ev st' _ IH]; [done|].
  destruct IH; [done..|]. split; [by apply run_event_inv|by apply run_event_single].
Qed.

Lemma idle_single st : idle st -> single_flight st.
Proof.
  intros (_ & _ & _ & _ & _ & _ & Hf & _) id Hin. rewrite Hf in Hin. by apply not_elem_of_nil in Hin.
Qed.

(** Running a list of events, when each of them can happen. *)
Fixpoint run (allowed : ChatState -> Event -> bool) (st : ChatState) (evs : list Event)
    : option ChatState :=
  match evs with
  | [] => Some st
  | ev :: evs' =>
      if enabled st ev && allowed st ev then run allowed (run_event st ev) evs' else None
  end.

Lemma run_steps_from allowed st0 st evs st' :
  steps allowed st0 st -> run allowed st evs = Some st' -> steps allowed st0 st'.
Proof.
  revert st. induction evs as [|ev evs IH]; intros st H; simpl; [by intros [= <-]|].
  destruct (enabled st ev) eqn:E1; [|done]. destruct (allowed st ev) eqn:E2; [|done].
  apply IH. by apply steps_run.
Qed.

Lemma run_steps allowed st evs st' : run allowed st evs = Some st' -> steps allowed st st'.
Proof. apply run_steps_from. constructor. Qed.

Lemma run_steps_default allowed st evs d :
  match run allowed st evs with Some _ => true | None => false end = true ->
  steps allowed st (run allowed st evs ?? d).
Proof. destruct (run allowed st evs) eqn:E; [|done]. intros _. by apply (run_steps _ _ evs). Qed.

(** ** Lemmas: the messages before the last one *)

Definition same_history (ms ms' : list Message) : Prop :=
  length ms' = length ms /\ forall i m, ms !! i = Some m -> (S i < length ms)%nat -> ms' !! i = Some m.

#[local] Instance same_history_refl : Reflexive same_history.
Proof. by intros ms. Qed.

#[local] Instance same_history_trans : Transitive same_history.
Proof.
  intros a b c [Hl1 H1] [Hl2 H2]. split; [congruence|]. intros i m Hi Hlt.
  apply H2; [by apply H1|by rewrite Hl1].
Qed.

Lemma update_history st u :
  same_history (messages st)
    (messages (onMessageUpdate st (fun prev => updateLastAssistantMessage prev u))).
Proof.
  rewrite onMessageUpdate_eq. by destruct (updateLastAssistantMessage_spec (messages st) u (env st)) as (? & ? & _).
Qed.

Lemma flush_history st : same_history (messages st) (messages (flushStreamUpdates st)).
Proof.
  unfold flushStreamUpdates. case_match; [done|].
  apply (update_history (set_pending (set_pending st (pending st) false) (mkPending [] []) false)).
Qed.

Lemma error_history st err code : same_history (messages st) (messages (handleStreamError t st err code)).
Proof.
  unfold handleStreamError. etrans; [apply flush_history|].
  apply (update_history (setIsRequesting (flushStreamUpdates st) false)).
Qed.

Lemma close_messages st src : messages (closeActiveStream st src) = messages st.
Proof. unfold closeActiveStream, close_source. destruct src, (sseSource st); by case_match. Qed.

Lemma handleError_history st src err code :
  same_history (messages st) (messages (handleError t st src err code)).
Proof.
  unfold handleError. case_match; [done|]. rewrite close_messages. apply error_history.
Qed.

Lemma finally_messages st id : messages (finallyRequest st id) = messages st.
Proof. unfold finallyRequest. by case_match. Qed.

(** ** Properties *)

(** The events of the network, of the timer and of the stop button. *)
Definition is_generation_event (ev : Event) : bool :=
  match ev with
  | EvStop | EvSseMessage _ _ | EvSseError _ _ _ | EvSseReady _ _ _ | EvFlushTimer
  | EvResponse _ _ | EvRequestError _ _ => true
  | _ => false
  end.

(** C1: Whatever the user does and whatever the network answers, in whatever
    order, when the page does not show that it is generating, no assistant
    message is left loading or streaming, no chunk waits, the flush timer is
    not armed and no event source is open. *)
Theorem not_generating_is_quiet st0 st :
  idle st0 -> steps any_event st0 st -> isGenerating st = false ->
  settled (messages st) /\ pending st = no_pending /\ flushTimer st = false /\
  sseSource st = None /\ openSources st = [].
Proof.
  intros H0 H Hg. apply idle_inv in H0. pose proof (steps_inv _ _ _ H0 H) as (Hs & _ & Hm).
  assert (sseSource st = None) as Hn.
  { apply orb_false_iff in Hg as [Hg _]. rewrite (si_flag _ Hs) in Hg. bool_hyps.
    destruct (sseSource st); [|done]. by destruct Hg. }
  assert (has_pending st = false) as Hp.
  { destruct (has_pending st) eqn:E; [|done]. apply (si_pending _ Hs) in E as [? ?]. congruence. }
  split_and!; [by apply Hm| |by rewrite (si_timer _ Hs)|done|by rewrite (si_open _ Hs), Hn].
  unfold has_pending in Hp. destruct (pending st) as [pc pr]. bool_hyps. cbn in *.
  apply not_truthy in H1, H2. by subst.
Qed.

(** In every reachable state at most one event source is open and it is the
    current one, only the last message may be loading or streaming, and chunks
    never wait without the timer that will show them and the source they came
    from. *)
Theorem one_stream_at_a_time st0 st :
  idle st0 -> steps any_event st0 st ->
  openSources st = option_list (sseSource st) /\
  isStreaming st = bool_decide (is_Some (sseSource st)) /\
  only_last_pending (messages st) /\
  flushTimer st = has_pending st /\ (has_pending st = true -> is_Some (sseSource st)).
Proof.
  intros H0 H. apply idle_inv in H0. pose proof (steps_inv _ _ _ H0 H) as (Hs & _ & Hm).
  split_and!; try apply Hs. apply Hm.
Qed.

(** Provided no edit was submitted during a generation, stopping is final:
    nothing is generating, every message is settled, and the answers to the
    requests still in flight change no message. *)
Theorem stop_is_final st0 st :
  idle st0 -> steps edits_guarded st0 st ->
  let st' := stopGeneration st in
  isGenerating st' = false /\ settled (messages st') /\ openSources st' = [] /\
  (forall id choices, id ∈ inFlight st' -> messages (onResponse t st' id choices) = messages st') /\
  (forall id err, id ∈ inFlight st' -> messages (onRequestError t st' id err) = messages st').
Proof.
  intros H0 H. destruct (steps_single st0 st) as [HI HS]; [by apply idle_inv|by apply idle_single|done|].
  assert (single_flight (stopGeneration st)) as HS' by (by apply (run_event_single st EvStop)).
  pose proof HI as (Hs & _ & Hm). cbv zeta.
  destruct (stop_shape st) as (ms & e & Heq & Hset). unfold stopStream in Heq.
  rewrite (close_none st Hs) in Heq.
  assert (no_live (stopGeneration st)) as Hn by (apply idle_no_live; [done|by rewrite Heq]).
  split_and!; [by rewrite Heq|rewrite Heq; apply Hset, Hm|by rewrite Heq|..].
  - intros id choices Hin. unfold onResponse. rewrite finally_messages.
    by rewrite bool_decide_eq_true_2 by (by apply Hn).
  - intros id err Hin. unfold onRequestError. rewrite finally_messages.
    by rewrite bool_decide_eq_true_2 by (by apply Hn).
Qed.

(** Provided no edit was submitted during a generation, a response that
    changes the messages is the response to the last request sent, which is
    still shown as running, and no stream is open beside it. *)
Theorem response_is_current st0 st id choices :
  idle st0 -> steps edits_guarded st0 st -> id ∈ inFlight st ->
  messages (onResponse t st id choices) <> messages st ->
  id = requestId st /\ isRequesting st = true /\ sseSource st = None.
Proof.
  intros H0 H Hin Hne.
  destruct (steps_single st0 st) as [_ HS]; [by apply idle_inv|by apply idle_single|done|].
  destruct (decide (id ∈ aborted st)) as [Ha|Ha].
  - destruct Hne. unfold onResponse. rewrite finally_messages. by rewrite bool_decide_eq_true_2.
  - by destruct (HS id Hin Ha) as (? & ? & _ & ?).
Qed.

(** The network, the timer and the stop button never add, drop or alter a
    message other than the last one. *)
Theorem generation_keeps_history st ev :
  is_generation_event ev = true -> same_history (messages st) (messages (run_event st ev)).
Proof.
  destruct ev; try done; intros _; cbn [run_event].
  - unfold stopGeneration. etrans; [|eapply (update_history (setIsRequesting (set_request _ _ _ _ _) false))].
    cbn [messages setIsRequesting set_request]. etrans; [|apply flush_history].
    unfold stopStream. by rewrite close_messages.
  - unfold onMessageEvent. destruct (isStreamDoneMessage data).
    + unfold handleStreamComplete. etrans; [|eapply (update_history (setIsRequesting _ false))].
      etrans; [|apply flush_history]. by rewrite close_messages.
    + destruct (parseStreamMessageUpdates data) as [us|]; [|apply handleError_history].
      apply (fold_left_cons_inv (fun st' => same_history (messages st) (messages st'))); [done|].
      intros st' u _ Hst'. exact Hst'.
  - unfold onErrorEvent. case_match; [done|]. apply handleError_history.
  - unfold onReadyStateChange. case_match; [apply handleError_history|done].
  - apply flush_history.
  - unfold onResponse. rewrite finally_messages. case_match; [done|].
    case_match; [apply error_history|apply update_history].
  - unfold onRequestError. rewrite finally_messages. case_match; [done|]. apply error_history.
Qed.

(** The state a submitted edit sends from: the edited messages end with a new,
    empty reply. *)
Lemma applyEdit_submit c pe st content k n u :
  editingMessageKey st = Some k -> truthy k = true ->
  findIndexByKey (messages st) k = Some n -> messages st !! n = Some u -> isUser u = true ->
  exists ms a e, isAssistant a = true /\ getMessageContent a = [] /\ status a = Some LOADING /\
    applyEdit t stream_throws c pe st content true
    = sendChat t stream_throws c pe
        (set_messages (setEditingMessageKey st None) (ms ++ [a]) e) (ms ++ [a]).
Proof.
  intros Hk Hkt Hn Hu Hus. unfold applyEdit. rewrite Hk, Hkt. cbn [negb].
  destruct (applyMessageEdit (messages st) k content true (env st)) as [[res|] e] eqn:E.
  - pose proof E as E'. apply applyMessageEdit_shape in E' as (n' & created & Hn' & E').
    assert (n' = n) as -> by congruence.
    cbv zeta. destruct E' as [[Hsend _]|(-> & _ & a & u' & _ & _ & -> & Ha & Hc & Hst)].
    2:{ by exists (take (n + 1) (editedMessage k content created <$> messages st)), a, e. }
    exfalso. revert E Hsend. unfold applyMessageEdit, bind at 1, Date_now. rewrite Hn.
    cbn [negb orb]. rewrite list_lookup_fmap, Hu. cbn [fmap option_fmap option_map].
    assert (forall b : bool, isUser (if b then with_createdAt (updateCurrentVersionContent u content)
      (Some (clock_readings (env st) (clock_pos (env st)))) else u) = true) as Hb by (by intros []).
    case_decide; [rewrite (Hb true)|rewrite (Hb false)]; by intros [= <- _].
  - exfalso. revert E. unfold applyMessageEdit, bind at 1, Date_now. rewrite Hn.
    destruct (negb true || _); done.
Qed.

Lemma send_stream_started c pe st ms :
  stream c = true -> stream_throws (nextSource st) = false ->
  messages (sendChat t stream_throws c pe st ms) = messages st /\
  pending (sendChat t stream_throws c pe st ms) = pending st.
Proof.
  intros Hc Hthr. unfold sendChat, sendStreamingChat, sendStreamRequest, close_source. rewrite Hc.
  cbn [sseSource setIsRequesting]. destruct (sseSource st); cbn; by rewrite Hthr.
Qed.

Lemma response_last st id choice ms a :
  messages st = ms ++ [a] -> isAssistant a = true -> id ∉ aborted st ->
  exists e, messages (onResponse t st id (Some [choice]))
            = ms ++ [result (applyChatCompletionChoice a choice) e].
Proof.
  intros Hm Ha Hn. unfold onResponse. rewrite finally_messages, bool_decide_eq_false_2 by done.
  cbn [hasChatCompletionChoice negb]. rewrite onMessageUpdate_eq. cbn [messages set_messages].
  unfold result at 1. rewrite Hm, updateLastAssistantMessage_eq, Ha. cbn [fst]. eexists.
  rewrite result_bind, result_ret. unfold applyChatCompletionResponse.
  by rewrite result_bind, result_ret.
Qed.

(** The editor is not guarded: an edit submitted while chunks of the old
    reply wait for the timer starts a new, empty reply, and the timer then
    writes the old reply's text into it. *)
Theorem edit_leaks_old_chunks c pe st content k n u chunk :
  editingMessageKey st = Some k -> truthy k = true ->
  findIndexByKey (messages st) k = Some n -> messages st !! n = Some u -> isUser u = true ->
  stream c = true -> stream_throws (nextSource st) = false ->
  pending st = mkPending chunk [] -> truthy chunk = true ->
  let st' := run_event st (EvEdit c pe content true) in
  shown_text st' = [] /\ shown_text (run_event st' EvFlushTimer) = chunk.
Proof.
  intros Hk Hkt Hn Hu Hus Hc Hthr Hp Hch.
  destruct (applyEdit_submit c pe st content k n u) as (ms & a & e & Ha & Hac & Has & Heq); [done..|].
  cbv zeta. cbn [run_event]. rewrite Heq. set (st1 := sendChat _ _ _ _ _ _).
  assert (messages st1 = ms ++ [a] /\ pending st1 = mkPending chunk []) as [Hm1 Hp1].
  { subst st1. match goal with |- context [sendChat _ _ _ _ ?s ?l] =>
      destruct (send_stream_started c pe s l Hc Hthr) as [-> ->] end. done. }
  assert (shown_text st1 = []) as Hsh by (unfold shown_text; by rewrite Hm1, last_snoc).
  split; [done|].
  pose proof (handler_simulates_step st1 (mkText [] chunk) Tick) as S. cbn [text_step waiting shown] in S.
  rewrite Hch in S. destruct S as (_ & S & _).
  - split_and!; [|done|by rewrite Hp1]. exists a. rewrite Hm1, last_snoc, Has, Hp1. done.
  - cbn [handler_step] in S. rewrite S. cbn [shown]. by rewrite appendChunk_delta by (by left).
Qed.

(** Nor is the pending request cancelled: its response, when it arrives
    after such an edit, completes the reply to the edited message. *)
Theorem edit_keeps_old_response c pe st content k n u id choice :
  editingMessageKey st = Some k -> truthy k = true ->
  findIndexByKey (messages st) k = Some n -> messages st !! n = Some u -> isUser u = true ->
  stream c = false -> id ∈ inFlight st -> id ∉ aborted st -> (id <= requestId st)%nat ->
  includes (choice_content choice ?? []) ThinkTags.open_tag = false ->
  let st1 := run_event st (EvEdit c pe content true) in
  let st2 := run_event st1 (EvResponse id (Some [choice])) in
  enabled st1 (EvResponse id (Some [choice])) = true /\ id <> requestId st1 /\
  shown_text st2 = choice_content choice ?? [] /\ status <$> last (messages st2) = Some (Some COMPLETE).
Proof.
  intros Hk Hkt Hn Hu Hus Hc Hin Hna Hid Hthink.
  destruct (applyEdit_submit c pe st content k n u) as (ms & a & e & Ha & Hac & Has & Heq); [done..|].
  cbv zeta. cbn [run_event]. rewrite Heq. unfold sendChat. rewrite Hc.
  unfold sendNonStreamingChat. cbn [enabled].
  match goal with |- context [onResponse t ?s id _] => set (st1 := s) end.
  destruct (response_last st1 id choice ms a) as [e' He']; [done..|].
  destruct (applyChatCompletionChoice_spec a choice e') as (_ & Hst & _ & Hcont).
  rewrite Hthink in Hcont. unfold shown_text. rewrite He', last_snoc. cbn [fmap option_fmap option_map].
  split_and!; [|cbn; lia|by rewrite Hcont|by rewrite Hst].
  apply bool_decide_eq_true_2. cbn. apply elem_of_app. by left.
Qed.

Lemma send_requests c pe st ms :
  requests (sendChat t stream_throws c pe st ms)
  = requests st ++ [buildChatCompletionPayload ms c pe].
Proof.
  unfold sendChat. destruct (stream c); [|done].
  unfold sendStreamingChat, sendStreamRequest. cbv zeta.
  assert (forall s src, requests (close_source s src) = requests s) as Hcl by (by intros s []).
  destruct (stream_throws _); [|cbn [requests set_stream add_request]; by rewrite Hcl].
  match goal with |- context [handleStreamError t ?x ?e ?c] =>
    destruct (error_shape x e c) as (ms' & e' & -> & _) end.
  unfold closeActiveStream. destruct (_ || _); rewrite ?Hcl;
    cbn [requests set_stream add_request set_pending set_messages setIsRequesting close_source];
    by rewrite Hcl.
Qed.

(** Sending a text issues exactly one request, with the configured model and
    mode, whose messages are the valid messages of the conversation followed by
    the text as the user's: the empty reply that waits for the answer is never
    part of it. *)
Theorem send_payload c pe st text :
  exists p, requests (handleSendMessage t stream_throws c pe st text) = requests st ++ [p] /\
    req_messages p = map formatMessageForAPI (List.filter isValidMessage (messages st))
                     ++ [mkChatMessage RoleUser (PlainContent text)] /\
    req_model p = model c /\ req_stream p = stream c /\
    (req_seed p = if en_seed pe then seed c else None).
Proof.
  unfold handleSendMessage.
  destruct (appendUserMessagePair_eq (messages st) text (env st)) as (u & a & e & -> & Hu & Hv & Hc & Ha & Hac & _).
  eexists. rewrite send_requests. split_and!; try reflexivity.
  cbn [req_messages buildChatCompletionPayload]. rewrite List.filter_app, map_app. f_equal.
  assert (isValidMessage a = false) as Hva.
  { unfold isValidMessage, hasMessageContent. rewrite Ha, Hac. by case_match. }
  assert (isValidMessage u = true) as Hvu.
  { unfold isValidMessage, isAssistant. unfold isUser in Hu. bool_hyps. rewrite Hu. by destruct (versions u). }
  cbn [List.filter]. rewrite Hvu, Hva. cbn [map]. unfold formatMessageForAPI.
  unfold isUser in Hu. bool_hyps. rewrite Hu. by rewrite <- Hc.
Qed.

End Machine.

(** ** Witnesses *)

Definition id_t (s : jsstr) : jsstr := s.
Definition never (n : nat) : bool := false.

(** A page with a settled exchange. *)
Definition sample_idle : ChatState :=
  mkChat
    [mkMessage (js "k1") RoleUser [mkVersion (js "v1") (js "hi")] None None None None None None None
       None None None None;
     mkMessage (js "k2") RoleAssistant [mkVersion (js "v2") (js "hello")] (Some 1) (Some 1) None None
       None None None None None (Some COMPLETE) None]
    (sample_env 100) false (mkPending [] []) false 0 None None false false None 0 [] [] [] [].

Lemma sample_idle_ok : idle sample_idle.
Proof. unfold idle. split_and!; try done. repeat constructor. Qed.

Definition DEFAULT_NO_STREAM : PlaygroundConfig :=
  mkConfig (model DEFAULT_CONFIG) (group DEFAULT_CONFIG) (temperature DEFAULT_CONFIG)
    (top_p DEFAULT_CONFIG) (max_tokens DEFAULT_CONFIG) (frequency_penalty DEFAULT_CONFIG)
    (presence_penalty DEFAULT_CONFIG) (seed DEFAULT_CONFIG) false.

(** The user opens the editor of the first message, sends another message and
    the reply starts to stream. *)
Definition sample_events : list Event :=
  [EvEditOpen (js "k1"); EvSend DEFAULT_CONFIG DEFAULT_PARAMETER_ENABLED (js "more");
   EvSseMessage 0 (Json.jq "{'choices':[{'delta':{'content':'Su'}}]}")].

Definition sample_streaming : ChatState :=
  run id_t never any_event sample_idle sample_events ?? sample_idle.

Definition sample_done : ChatState :=
  run id_t never any_event sample_idle
    (sample_events ++ [EvFlushTimer; EvSseMessage 0 (js "[DONE]")]) ?? sample_idle.

(** The same with a plain request. *)
Definition sample_requesting : ChatState :=
  run id_t never edits_guarded sample_idle
    [EvEditOpen (js "k1"); EvSend DEFAULT_NO_STREAM DEFAULT_PARAMETER_ENABLED (js "more")]
  ?? sample_idle.

Lemma not_generating_is_quiet_witness :
  shown_text sample_done = js "Su" /\ settled (messages sample_done).
Proof.
  split; [vm_compute; reflexivity|].
  apply (not_generating_is_quiet id_t never sample_idle sample_done);
    [exact sample_idle_ok| |vm_compute; reflexivity].
  apply run_steps_default. vm_compute. reflexivity.
Defined.

Lemma one_stream_at_a_time_witness : openSources sample_streaming = [0%nat].
Proof.
  assert (option_list (sseSource sample_streaming) = [0%nat]) as <- by (vm_compute; reflexivity).
  apply (one_stream_at_a_time id_t never sample_idle sample_streaming); [exact sample_idle_ok|].
  apply run_steps_default. vm_compute. reflexivity.
Defined.

Lemma stop_is_final_witness :
  inFlight (stopGeneration sample_requesting) = [1%nat] /\
  isGenerating (stopGeneration sample_requesting) = false.
Proof.
  split; [vm_compute; reflexivity|].
  apply (stop_is_final id_t never sample_idle sample_requesting); [exact sample_idle_ok|].
  apply run_steps_default. vm_compute. reflexivity.
Defined.

Lemma response_is_current_witness : 1%nat = requestId sample_requesting.
Proof.
  apply (response_is_current id_t never sample_idle sample_requesting 1
           (Some [mkChoice (Some (js "Sure")) None])); [exact sample_idle_ok|..].
  - apply run_steps_default. vm_compute. reflexivity.
  - apply (bool_decide_eq_true_1 (1%nat ∈ inFlight sample_requesting)). vm_compute. reflexivity.
  - intros H. apply (f_equal (fun ms => getMessageContent <$> last ms)) in H. vm_compute in H. discriminate.
Defined.

Lemma generation_keeps_history_witness :
  same_history (messages sample_streaming)
    (messages (run_event id_t never sample_streaming EvFlushTimer)).
Proof. apply (generation_keeps_history id_t never sample_streaming EvFlushTimer). reflexivity. Defined.

Lemma edit_leaks_old_chunks_witness :
  shown_text (run_event id_t never
    (run_event id_t never sample_streaming
       (EvEdit DEFAULT_CONFIG DEFAULT_PARAMETER_ENABLED (js "other question") true)) EvFlushTimer)
  = js "Su".
Proof.
  apply (edit_leaks_old_chunks id_t never DEFAULT_CONFIG DEFAULT_PARAMETER_ENABLED sample_streaming
           (js "other question") (js "k1") 0
           (mkMessage (js "k1") RoleUser [mkVersion (js "v1") (js "hi")] None None None None None None
              None None None None None) (js "Su")); vm_compute; reflexivity.
Defined.

Lemma edit_keeps_old_response_witness :
  shown_text (run_event id_t never
    (run_event id_t never sample_requesting
       (EvEdit DEFAULT_NO_STREAM DEFAULT_PARAMETER_ENABLED (js "other question") true))
    (EvResponse 1 (Some [mkChoice (Some (js "Sure")) None])))
  = js "Sure".
Proof.
  apply (edit_keeps_old_response id_t never DEFAULT_NO_STREAM DEFAULT_PARAMETER_ENABLED sample_requesting
           (js "other question") (js "k1") 0
           (mkMessage (js "k1") RoleUser [mkVersion (js "v1") (js "hi")] None None None None None None
              None None None None None) 1 (mkChoice (Some (js "Sure")) None));
    try (vm_compute; reflexivity).
  - apply (bool_decide_eq_true_1 (1%nat ∈ inFlight sample_requesting)). vm_compute. reflexivity.
  - apply (bool_decide_eq_true_1 (1%nat ∉ aborted sample_requesting)). vm_compute. reflexivity.
Defined.

End ChatInvariants.
