(* ===== verification/PlaygroundSystem.v ===== *)
(** * The playground as a whole

    The chat handler, whose invariant says that only the last message is ever
    pending, composed with the storage, which settles the last pending message
    of what it loads: the page can be closed and opened again at any moment. *)

From S2P Require Import Prelude JsString Effects Json JsonText ThinkTags PlaygroundMessage PlaygroundConfig Storage StorageFacts ChatHandler ChatStreaming ChatInvariants.

Module PlaygroundSystem.
Import Playground PlaygroundConfig Storage StorageFacts Chat ChatInvariants.

(** C2: Whatever was happening when the conversation was saved, the next load
    finds one of three things, given that each of the last hundred messages has
    a version and that their JSON has printable numbers and texts of 16-bit
    units.  When the browser refuses the text, the store is as it was before.
    When it takes a text of more than 1048576 units, the load discards it and
    shows no conversation.  Otherwise the conversation is loaded and settled: no
    message is left loading or streaming, there are at most a hundred, and there
    is one if there was one. *)
Theorem reload_at_any_time t stream_throws setItem_throws st0 st store e :
  idle st0 -> steps t stream_throws any_event st0 st ->
  let kept := trimMessages (messages st) in
  Forall (fun m => versions m <> []) kept -> JsonText.wf_json (to_json kept) ->
  let saved := saveMessages setItem_throws store (messages st) in
  if setItem_throws STORAGE_KEYS_MESSAGES (saved_text kept) then saved = store
  else if 1048576 <? len (saved_text kept) then
    result (loadMessages setItem_throws t saved) e = (None, removeItem saved STORAGE_KEYS_MESSAGES)
  else
    exists ms' store',
      result (loadMessages setItem_throws t saved) e = (Some ms', store') /\
      settled ms' /\ (length ms' <= 100)%nat /\ (messages st <> [] -> ms' <> []).
Proof.
  intros H0 H kept Hv Hw saved. apply idle_inv in H0. pose proof (steps_inv _ _ _ _ _ H0 H) as (_ & _ & Hm).
  destruct (setItem_throws _ _) eqn:Et; [by apply saveMessages_refused|].
  destruct (1048576 <? len (saved_text kept)) eqn:El; bool_hyps; [by apply load_oversized|].
  apply load_after_save_settles; [by split_and!|apply Hm].
Qed.

Lemma reload_at_any_time_witness :
  exists ms' store',
    result (loadMessages no_quota id_t (saveMessages no_quota [] (messages sample_streaming))) (sample_env 0)
    = (Some ms', store') /\
    settled ms' /\ (length ms' <= 100)%nat /\ (messages sample_streaming <> [] -> ms' <> []).
Proof.
  pose proof (reload_at_any_time id_t never no_quota sample_idle sample_streaming [] (sample_env 0)) as H.
  cbv zeta in H. change (no_quota STORAGE_KEYS_MESSAGES _) with false in H. cbv iota in H.
  replace (1048576 <? len (saved_text (trimMessages (messages sample_streaming)))) with false in H
    by (vm_compute; reflexivity).
  apply H.
  - exact sample_idle_ok.
  - apply run_steps_default. vm_compute. reflexivity.
  - apply (bool_decide_eq_true_1 (Forall (fun m => versions m <> []) (messages sample_streaming))).
    vm_compute. reflexivity.
  - apply JsonText.wf_jsonb_sound. vm_compute. reflexivity.
Defined.

End PlaygroundSystem.
